(* ===== verification/_CoqProject ===== *)
-Q . S2P
Prelude.v
Riscv.v
Mem.v
Str.v
Kalloc.v
KallocSpec.v
Vm.v
VmTree.v
VmSpace.v
VmOps.v
VmCopy.v
VmGrow.v
VmCow.v
VmUser.v
VmXfer.v
VmSpec.v
Kvm.v
Hart.v
Asm.v
Start.v
Devinit.v
Spinlock.v
State.v
Sched.v
SchedSpec.v
Ring.v
Procmem.v
Console.v
ConsoleSpec.v
Pipe.v
PipeSpec.v
Sleeplock.v
Bio.v
BioSpec.v
Cache.v
Block.v
Log.v
LogSpec.v
Fs.v
Dir.v
File.v
Virtio.v
Proc.v
Exec.v
Sysproc.v
Sysfile.v
Trap.v
Calm.v
ProcSpec.v
TrapSpec.v
Boot.v
BootSpec.v
AsmSpec.v
VirtioSpec.v
FsSpec.v
Content.v
Dinode.v
ReadWrite.v
DirSpec.v
Itable.v
Path.v
Trunc.v
Mkfs.v
MkfsSpec.v
Mount.v
Grep.v
Usys.v
Ulib.v
Uio.v
Uprogs.v
UprogsSpec.v
Umalloc.v
UmallocSpec.v
Sh.v
ShSpec.v
Shrun.v
ShrunSpec.v
Grind.v
