(* ===== verification/Prelude.v ===== *)
(** Verification of xv6-riscv with copy-on-write fork and an MLFQ scheduler.

    * The program

    The repository is the teaching kernel xv6 for RISC-V, in C, extended by
    copy-on-write [fork] with reference-counted pages ([kernel/kalloc.c],
    [kernel/vm.c]) and by a scheduler with three priority queues
    ([kernel/proc.c], [kernel/trap.c]).  Its parts, from the bottom up:
    physical pages, page tables and user memory; spin locks and sleep locks;
    the process table, the scheduler, system calls and traps; the console, the
    uart and pipes; the disk driver, the buffer cache, the redo log, the file
    system, directories, open files and the file system calls; [exec]; and the
    user programs and their library.

    * How it is modelled

    Every operation is a function in the monad [M S A] of this file: from a
    state it yields [Ok] with a value and a new state, [Panic] where the code
    panics, [UB] where C leaves the behaviour undefined (an index out of range, a
    null pointer, signed overflow), [Sleep] where it blocks on a channel
    before doing anything, or [NoFuel].  Loops run with fuel; the bound is part
    of the model of the loop and the theorems that say an operation yields [Ok]
    prove it is enough.  The bounds are computed from the data a loop runs
    over: the number of table entries, pages, buffers, characters or bytes,
    plus one turn for the exit.  Integers are [Z] with the wrap-around of their C
    type written out ([u8], [u16], [u32], [u64], [i16], [i32]).  [wp] is the
    total-correctness predicate used for composition.

    A critical section under a spin lock is one step; {!Spinlock} models the
    locks themselves on several cpus and proves mutual exclusion, which justifies
    this.  The index of a table entry stands for the pointer to it, [None] for the
    null pointer.  Addresses the linker chooses are the class [KernelImage]
    (and [KernelText]); what [kernel.ld] guarantees about them is
    [KernelImageOk], with an instance in [KallocSpec.Machine].

    * Files

    - {!Prelude}: integers, the monad and its rules, automation, shared lemmas.
    - {!Riscv}: [param.h], [memlayout.h] and the Sv39 macros of [riscv.h].
    - {!Mem}, {!Str}: byte-addressed memory; [string.c].
    - {!Kalloc}, {!KallocSpec}: [kalloc.c].  The free list threaded through the
      pages; a page is free exactly when its count is 0.
    - {!Vm}: [vm.c].  {!VmTree}, {!VmSpace}, {!VmOps}, {!VmCopy}, {!VmGrow},
      {!VmCow}, {!VmUser}, {!VmXfer} and {!VmSpec} relate the page-table trees in
      memory to abstract address spaces with exact reference counts.
      {!Kvm}: the kernel's own page table.
    - {!Hart}, {!Asm}, {!AsmSpec}: a hart with its registers, privilege modes,
      control and status registers and address translation; [entry.S],
      [swtch.S], [trampoline.S] and [kernelvec.S] instruction by instruction on it.
      {!Start}: [start.c].  {!Devinit}: [uartinit], [plicinit],
      [plicinithart].
    - {!Spinlock}: [spinlock.c] and the interrupt flags of [riscv.h].
    - {!State}: the structures of [proc.h], [file.h], [buf.h], [fs.h],
      [sleeplock.h] and of the [.c] files, and the state of the whole kernel.
    - {!Sched}, {!SchedSpec}: [scheduler], [sched], [yield], [sleep], [wakeup]
      and the tick accounting of [trap.c].
    - {!Procmem}, {!Proc}: the rest of [proc.c].
    - {!Ring}, {!Console}, {!ConsoleSpec}: [console.c], [uart.c], [printf.c],
      [procdump].
    - {!Pipe}, {!PipeSpec}: [pipe.c].
    - {!Sleeplock}, {!Bio}, {!BioSpec}, {!Cache}: [sleeplock.c] and [bio.c];
      [cinv] in {!Cache} is the interface the layers above use.
    - {!Block}, {!Log}, {!LogSpec}: blocks as bytes; [log.c].
    - {!Fs}, {!Dir}, {!FsSpec}, {!Content}, {!Dinode}, {!ReadWrite},
      {!DirSpec}: [fs.c].  {!Itable}: the inodes in memory with their
      references and locks.  {!Path}: [namei].  {!Trunc}: [itrunc]
      and the last [iput].
    - {!File}, {!Exec}, {!Sysproc}, {!Sysfile}, {!Trap}: [file.c], [exec.c],
      [syscall.c] and [sysproc.c], [sysfile.c], [trap.c] and [plic.c].
    - {!Virtio}, {!VirtioSpec}: [virtio_disk.c].
    - {!Calm}, {!ProcSpec}, {!TrapSpec}: the process table under all system
      calls, traps and the scheduler.
    - {!Boot}, {!BootSpec}: [main.c].
    - {!Mkfs}, {!MkfsSpec}: [mkfs/mkfs.c], which builds the disk image.
    - {!Mount}: [mkfs], the boot sequence, [fsinit] and reading a file, in this
      order.
    - {!Usys}, {!Ulib}, {!Uio}: user programs as trees of system calls; the
      library [user/ulib.c] and [user/printf.c]; the class [io_kernel], which
      states what a program that reads and writes files relies on.
    - {!Grep}, {!Uprogs}, {!UprogsSpec}: the matcher of [user/grep.c]; [cat],
      [echo], [wc], [grep], [ls], [kill], [ln], [mkdir], [rm], [init] and
      small programs that exercise the kernel.  {!Grind}: [user/grind.c].
    - {!Umalloc}, {!UmallocSpec}: [user/umalloc.c].
    - {!Sh}, {!ShSpec}: the parser of [user/sh.c].  {!Shrun}, {!ShrunSpec}:
      [runcmd] and the main loop.

    * What is proved

    - Memory: [fork] shares every page copy-on-write with exact reference counts or
      fails without a trace; a store fault gives the process a private copy;
      [copyout] and [copyin] transfer exactly the bytes of the user's
      address space; growing and shrinking; the page allocator; the kernel's
      page table (what it maps, guard pages, nothing writable and executable).
    - Machine: [start] enters [main] in supervisor mode with traps, the clock and
      memory protection set up; the trampoline keeps every register of a
      user program; [swtch] resumes the thread it suspended; an interrupt in the
      kernel does not disturb what it interrupts.  The theorems quantify over
      the C code that runs in between and assume of it what the calling
      convention says.
    - Boot: the boot sequence ends with the invariants of all components and
      one runnable process.
    - Scheduling: which processes a round dispatches, that a boost lets every
      runnable process run, how ticks demote a process, [wakeup]; the process table
      invariant (distinct pids, live parents, zombies without children) is kept
      by every system call and trap; [kill].
    - Locks: mutual exclusion, the nesting of [push_off] and [pop_off], the panics.
    - Devices: line editing refines an abstract queue; [consoleread];
      [printint]; a pipe is a FIFO queue; the disk driver together with any
      device that follows the virtio protocol refines whole-block transfers.
    - File system: a commit is atomic under a crash at any point; the
      block allocator; [writei] and [readi] refine operations on byte
      sequences; directories; [namei] refines the walk along a path in the
      graph of inodes; the last [iput] of an unlinked file frees its inode and
      exactly its blocks.
    - Image: [mkfs] writes a disk that satisfies the assumptions of the
      theorems on the file system, with the files it was given.
    - The system: a kernel that boots from the image of [mkfs] mounts it and
      reads back every file by its name.
    - User programs: [cat], [wc] and [grep] write what they should on every
      kernel that implements [io_kernel], however it cuts the input into
      pieces; the matcher of [grep] decides the language of the expression;
      memory safety of [malloc] and [free]; totality and round trip of the
      shell's parser; the shell starts the processes a command means, with the
      right descriptors; the random numbers of [grind].

    A loop of a user program that ends with its input takes fuel, and the
    theorems show that more than the length of the input is enough; the loops
    of [init], [sh] and [grind] that never end run for as many turns as they are
    given.  In the theorem on the shell a process is a table of descriptors and the
    tree of processes it starts ([procs] in {!ShrunSpec}); whether a file can be
    opened and whether [exec] succeeds are parameters.

    Each property has a doc comment with its number and a witness on a concrete
    state ([Module]s such as [VmSpec.Small], [FsSpec.SmallDisk]).

    * Not modelled

    Memory ordering (fences) and the TLB: the model is sequentially
    consistent and page tables take effect at once.  The hart of {!Hart} runs
    the assembly files and [start.c] only; the C code of the kernel is modelled
    on its data and not compiled to instructions, so [trapinit] and
    [kvminithart] have no effect in {!Boot}.  A system call that sleeps in the
    middle of its work is modelled in resumable steps for the console, pipes,
    [wait] and [pause]; a sleep lock that is held is the outcome [Sleep].  User
    programs run over the interface of the system calls; that the kernel's
    own system calls implement [io_kernel] is not proved, only that a small
    file system does ([sim_kernel]).  The instructions of the stubs
    that [usys.pl] generates.  [usertests], which faults on purpose, and the
    demonstrations [cowdemo], [mlfqdemo] and [spin], which use memory or
    processor time and print. *)

From stdpp Require Export base list gmap strings.
From Stdlib Require Export ZArith Lia.

Global Open Scope Z_scope.

(** * Machine integers

    Every C integer is a [Z] kept in the range of its type; the conversions
    below are the implementation-defined reductions of the RISC-V LP64 ABI. *)

Definition u8 (x : Z) : Z := x mod 2 ^ 8.
Definition u16 (x : Z) : Z := x mod 2 ^ 16.
Definition u32 (x : Z) : Z := x mod 2 ^ 32.
Definition u64 (x : Z) : Z := x mod 2 ^ 64.

(** Conversion to a signed type: two's complement. *)
Definition i32 (x : Z) : Z := (x + 2 ^ 31) mod 2 ^ 32 - 2 ^ 31.
Definition i16 (x : Z) : Z := (x + 2 ^ 15) mod 2 ^ 16 - 2 ^ 15.

Lemma u8_range x : 0 ≤ u8 x < 256.
Proof. apply Z.mod_pos_bound. lia. Qed.
Lemma u16_range x : 0 ≤ u16 x < 65536.
Proof. apply Z.mod_pos_bound. lia. Qed.
Lemma u32_range x : 0 ≤ u32 x < 2 ^ 32.
Proof. apply Z.mod_pos_bound. lia. Qed.
Lemma u64_range x : 0 ≤ u64 x < 2 ^ 64.
Proof. apply Z.mod_pos_bound. lia. Qed.
Lemma u8_small x : 0 ≤ x < 256 → u8 x = x.
Proof. apply Z.mod_small. Qed.
Lemma u16_small x : 0 ≤ x < 65536 → u16 x = x.
Proof. apply Z.mod_small. Qed.
Lemma u32_small x : 0 ≤ x < 2 ^ 32 → u32 x = x.
Proof. apply Z.mod_small. Qed.
Lemma u64_small x : 0 ≤ x < 2 ^ 64 → u64 x = x.
Proof. apply Z.mod_small. Qed.
Lemma i32_range x : - 2 ^ 31 ≤ i32 x < 2 ^ 31.
Proof. unfold i32. pose proof (Z.mod_pos_bound (x + 2 ^ 31) (2 ^ 32)). lia. Qed.
Lemma i32_small x : - 2 ^ 31 ≤ x < 2 ^ 31 → i32 x = x.
Proof. intros H. unfold i32. rewrite Z.mod_small by lia. lia. Qed.

(** Wrapping subtraction of counters: the distance between two [uint]s is
    insensitive to where the counters wrapped. *)
Lemma u32_sub_u32 x y : u32 (u32 x - u32 y) = u32 (x - y).
Proof. unfold u32. by rewrite <-Zminus_mod. Qed.
Lemma u32_add_u32 x y : u32 (u32 x + y) = u32 (x + y).
Proof. unfold u32. by rewrite Zplus_mod_idemp_l. Qed.
Lemma u32_sub_u32_l x y : u32 (u32 x - y) = u32 (x - y).
Proof. unfold u32. by rewrite Zminus_mod_idemp_l. Qed.

(** * The kernel monad

    An operation of the kernel transforms the state of its component; it
    returns, calls [panic()] (the machine stops), does something C leaves
    undefined (a null dereference, an array index out of range), runs out of
    fuel (for a model of a loop that is not structural), or calls [sleep] on a
    channel and has to wait.  A theorem that an operation yields [Ok] rules the
    other four out.  Where the code sleeps half-way through its work, the model
    splits it into resumable steps instead. *)

Inductive res (A : Type) : Type :=
  | Ok (a : A)
  | Panic (msg : string)
  | UB
  | NoFuel
  | Sleep (chan : string * Z).
Arguments Ok {A} a.
Arguments Panic {A} msg.
Arguments UB {A}.
Arguments NoFuel {A}.
Arguments Sleep {A} chan.

Definition M (S A : Type) : Type := S → res (A * S).

#[export] Instance M_ret S : MRet (M S) := λ A a s, Ok (a, s).
#[export] Instance M_bind S : MBind (M S) := λ A B f m s,
  match m s with
  | Ok (a, s') => f a s'
  | Panic e => Panic e
  | UB => UB
  | NoFuel => NoFuel
  | Sleep c => Sleep c
  end.

Section ops.
Context {S : Type}.

Definition get : M S S := λ s, Ok (s, s).
Definition gets {A} (f : S → A) : M S A := λ s, Ok (f s, s).
Definition put (s : S) : M S unit := λ _, Ok (tt, s).
Definition modify (f : S → S) : M S unit := λ s, Ok (tt, f s).
Definition panic {A} (msg : string) : M S A := λ _, Panic msg.
Definition ub {A} : M S A := λ _, UB.
Definition nofuel {A} : M S A := λ _, NoFuel.
Definition sleep_on {A} (c : string * Z) : M S A := λ _, Sleep c.

(** [loop n body a]: iterate [body] on the loop variables [a] until it
    leaves the loop with [inr]. *)
Fixpoint loop {A R} (fuel : nat) (body : A → M S (A + R)) (a : A) : M S R :=
  match fuel with
  | O => nofuel
  | Datatypes.S n =>
      r ← body a;
      match r with
      | inl a' => loop n body a'
      | inr r => mret r
      end
  end.

(** [scan l f]: run [f] on the elements of a table in order; [Some r] is an
    early return out of the loop. *)
Fixpoint scan {A R} (l : list A) (f : A → M S (option R)) : M S (option R) :=
  match l with
  | [] => mret None
  | x :: l' =>
      r ← f x;
      match r with
      | Some v => mret (Some v)
      | None => scan l' f
      end
  end.

(** [foreach l f]: the same loop without an early return. *)
Fixpoint foreach {A} (l : list A) (f : A → M S unit) : M S unit :=
  match l with
  | [] => mret tt
  | x :: l' => f x ;; foreach l' f
  end.

Lemma bind_Ok {A B} (m : M S A) (f : A → M S B) s b s'' :
  (m ≫= f) s = Ok (b, s'') ↔ ∃ a s', m s = Ok (a, s') ∧ f a s' = Ok (b, s'').
Proof.
  unfold mbind, M_bind. split.
  - destruct (m s) as [[a s']| | | |]; intros H; [eauto|done..].
  - intros (a & s' & -> & ?). done.
Qed.

Lemma bind_Ok_1 {A B} (m : M S A) (f : A → M S B) s a s' :
  m s = Ok (a, s') → (m ≫= f) s = f a s'.
Proof. unfold mbind, M_bind. by intros ->. Qed.

Lemma bind_gets {A B} (g : S → A) (f : A → M S B) s : (gets g ≫= f) s = f (g s) s.
Proof. done. Qed.
Lemma bind_ret {A B} (a : A) (f : A → M S B) s : (mret a ≫= f) s = f a s.
Proof. done. Qed.
Lemma bind_modify {B} (g : S → S) (f : unit → M S B) s : (modify g ≫= f) s = f tt (g s).
Proof. done. Qed.

Lemma bind_assoc {A B C} (m : M S A) (f : A → M S B) (g : B → M S C) s :
  ((m ≫= f) ≫= g) s = (m ≫= λ a, f a ≫= g) s.
Proof. unfold mbind, M_bind. by destruct (m s) as [[a s']| | | |]. Qed.

Lemma loop_S {A R} n (body : A → M S (A + R)) a s :
  loop (Datatypes.S n) body a s =
    (r ← body a; match r with inl a' => loop n body a' | inr r => mret r end) s.
Proof. done. Qed.

Lemma loop_step {A R} n (body : A → M S (A + R)) a s a' s' :
  body a s = Ok (inl a', s') → loop (Datatypes.S n) body a s = loop n body a' s'.
Proof. intros Hb. by rewrite loop_S, (bind_Ok_1 _ _ _ _ _ Hb). Qed.

Lemma loop_done {A R} n (body : A → M S (A + R)) a s r s' :
  body a s = Ok (inr r, s') → loop (Datatypes.S n) body a s = Ok (r, s').
Proof. intros Hb. by rewrite loop_S, (bind_Ok_1 _ _ _ _ _ Hb). Qed.

(** Invariant rule for [loop]: a measure that decreases with every turn
    bounds the fuel, and [I] holds at the exit. *)
Lemma loop_rule {A R} (I : A → S → Prop) (Q : R → S → Prop) (μ : A → S → nat)
    (body : A → M S (A + R)) fuel a s :
  (∀ a s, I a s →
     (∃ a' s', body a s = Ok (inl a', s') ∧ I a' s' ∧ (μ a' s' < μ a s)%nat) ∨
     (∃ r s', body a s = Ok (inr r, s') ∧ Q r s')) →
  I a s → (μ a s < fuel)%nat →
  ∃ r s', loop fuel body a s = Ok (r, s') ∧ Q r s'.
Proof.
  intros Hstep. revert a s.
  induction fuel as [|n IH]; intros a s HI Hlt; [lia|].
  simpl. destruct (Hstep a s HI) as [(a' & s' & Hb & HI' & Hμ)|(r & s' & Hb & HQ)].
  - rewrite (bind_Ok_1 _ _ _ _ _ Hb). apply IH; [done|lia].
  - rewrite (bind_Ok_1 _ _ _ _ _ Hb). eauto.
Qed.
(** * Postconditions

    [wp m s Q]: from [s], [m] returns (it does not panic, block, run out of
    fuel or misbehave) and its result and final state satisfy [Q]. *)
Definition wp {A} (m : M S A) (s : S) (Q : A → S → Prop) : Prop :=
  match m s with
  | Ok (a, s') => Q a s'
  | _ => False
  end.

Lemma wp_Ok {A} (m : M S A) s a s' (Q : A → S → Prop) : m s = Ok (a, s') → Q a s' → wp m s Q.
Proof. unfold wp. by intros ->. Qed.

Lemma wp_elim {A} (m : M S A) s (Q : A → S → Prop) :
  wp m s Q → ∃ a s', m s = Ok (a, s') ∧ Q a s'.
Proof. unfold wp. destruct (m s) as [[a s']| | | |]; [eauto|done..]. Qed.

Lemma wp_unit (m : M S unit) s (Q : S → Prop) : wp m s (λ _, Q) → ∃ s', m s = Ok (tt, s') ∧ Q s'.
Proof. intros ([] & s' & ? & ?)%wp_elim. eauto. Qed.

Lemma wp_ret {A} (a : A) s (Q : A → S → Prop) : Q a s → wp (mret a) s Q.
Proof. done. Qed.

Lemma wp_mono {A} (m : M S A) s (Q Q' : A → S → Prop) :
  wp m s Q → (∀ a s', Q a s' → Q' a s') → wp m s Q'.
Proof. unfold wp. destruct (m s) as [[a s']| | | |]; auto. Qed.

Lemma wp_bind {A B} (m : M S A) (f : A → M S B) s (Q : B → S → Prop) :
  wp m s (λ a s', wp (f a) s' Q) → wp (m ≫= f) s Q.
Proof. unfold wp, mbind, M_bind. by destruct (m s) as [[a s']| | | |]. Qed.

Lemma wp_assoc {A B C} (m : M S A) (f : A → M S B) (g : B → M S C) s (Q : C → S → Prop) :
  wp ((m ≫= f) ≫= g) s Q → wp (m ≫= λ a, f a ≫= g) s Q.
Proof. unfold wp. by rewrite bind_assoc. Qed.

Lemma wp_gets {A} (g : S → A) s (Q : A → S → Prop) : Q (g s) s → wp (gets g) s Q.
Proof. done. Qed.

Lemma wp_modify (g : S → S) s (Q : unit → S → Prop) : Q tt (g s) → wp (modify g) s Q.
Proof. done. Qed.

Lemma wp_loop {A R} (I : A → S → Prop) (μ : A → nat) (body : A → M S (A + R)) fuel a s (Q : R → S → Prop) :
  (∀ a s, I a s → wp (body a) s (λ r s', match r with
                                         | inl a' => I a' s' ∧ (μ a' < μ a)%nat
                                         | inr v => Q v s'
                                         end)) →
  I a s → (μ a < fuel)%nat → wp (loop fuel body a) s Q.
Proof.
  intros Hbody. revert a s. induction fuel as [|n IH]; intros a s HI Hlt; [lia|].
  cbn [loop]. apply wp_bind. eapply wp_mono; [by apply Hbody|].
  intros [a'|v] s'; [|done]. intros [HI' Hμ]. apply IH; [done|lia].
Qed.

(** A scan of a list with an invariant on the elements still to come. *)
Lemma wp_foreach {A} (I : list A → S → Prop) (f : A → M S unit) l s (Q : unit → S → Prop) :
  I l s → (∀ x l' s, I (x :: l') s → wp (f x) s (λ _ s', I l' s')) →
  (∀ s, I [] s → Q tt s) → wp (foreach l f) s Q.
Proof.
  intros HI Hf HQ. revert s HI. induction l as [|x l IH]; intros s HI; [by apply HQ|].
  cbn [foreach]. apply wp_bind. eapply wp_mono; [by apply Hf|]. auto.
Qed.

(** The same for [for(i = 0; i < n; i++)]. *)
Lemma wp_foreach_seq (I : nat → S → Prop) (f : nat → M S unit) n s (Q : unit → S → Prop) :
  I O s → (∀ k s, (k < n)%nat → I k s → wp (f k) s (λ _ s', I (Datatypes.S k) s')) →
  (∀ s, I n s → Q tt s) → wp (foreach (seq 0 n) f) s Q.
Proof.
  intros HI Hf HQ.
  apply (wp_foreach (λ l s, ∃ k, (k ≤ n)%nat ∧ l = seq k (n - k) ∧ I k s)).
  - exists O. rewrite Nat.sub_0_r. split; [lia|done].
  - intros x l' s' (k & Hk & El & HIk). destruct (n - k)%nat as [|r] eqn:E; [done|].
    injection El as -> ->. eapply wp_mono; [apply Hf; [lia|done]|]. cbv beta. intros [] s'' HI'.
    exists (Datatypes.S k). split; [lia|]. split; [|done]. f_equal. lia.
  - intros s' (k & Hk & El & HIk). destruct (n - k)%nat as [|r] eqn:E; [|done].
    apply HQ. by replace n with k by lia.
Qed.
End ops.

(** Lifting an operation of a component to a state that contains it. *)
Record lens (S T : Type) := Lens { lget : S → T; lset : T → S → S }.
Arguments Lens {S T}.
Arguments lget {S T}.
Arguments lset {S T}.

Definition zoom {S T A} (l : lens S T) (m : M T A) : M S A := λ s,
  match m (lget l s) with
  | Ok (a, t) => Ok (a, lset l t s)
  | Panic e => Panic e
  | UB => UB
  | NoFuel => NoFuel
  | Sleep c => Sleep c
  end.

Lemma zoom_Ok {S T A} (l : lens S T) (m : M T A) s a s' :
  zoom l m s = Ok (a, s') ↔ ∃ t, m (lget l s) = Ok (a, t) ∧ s' = lset l t s.
Proof.
  unfold zoom. split.
  - destruct (m (lget l s)) as [[b t]| | | |]; intros [=]; subst; eauto.
  - by intros (t & -> & ->).
Qed.

Lemma wp_zoom {S T A} (l : lens S T) (m : M T A) s (Q : A → S → Prop) :
  wp m (lget l s) (λ a t, Q a (lset l t s)) → wp (zoom l m) s Q.
Proof. unfold wp, zoom. by destruct (m (lget l s)) as [[a t]| | | |]. Qed.

(** * Automation *)

(** Evaluate the monadic operations at a known state. *)
Ltac msimpl :=
  cbv beta iota delta [mbind mret M_bind M_ret get gets put modify panic ub nofuel sleep_on negb andb orb].

(** Split a successful run of a sequence into the runs of its parts. *)
Ltac minv H :=
  lazymatch type of H with
  | (_ ≫= _) _ = Ok _ =>
      apply bind_Ok in H;
      let a := fresh "a" in let s := fresh "s" in
      let H1 := fresh "Hrun" in
      destruct H as (a & s & H1 & H); minv H1; minv H
  | _ => try (unfold get, gets, put, modify, mret, M_ret in H; simplify_eq)
  end.

Ltac mstep_with H := rewrite (bind_Ok_1 _ _ _ _ _ H).

(** Case analysis on the boolean comparison that guards a branch. *)
Ltac case_bool :=
  match goal with
  | |- context [if ?b then _ else _] => let E := fresh "Eb" in destruct b eqn:E
  | |- context [match ?b with true => _ | false => _ end] =>
      let E := fresh "Eb" in destruct b eqn:E
  end.

Create HintDb xv6.
#[export] Hint Resolve u8_range u16_range u32_range u64_range i32_range : xv6.

(** * Arithmetic and bit lemmas shared by the components *)

Lemma land_pow2_testbit x k :
  0 ≤ k → Z.land x (2 ^ k) = if Z.testbit x k then 2 ^ k else 0.
Proof.
  intros Hk. apply Z.bits_inj'. intros n Hn.
  rewrite Z.land_spec, Z.pow2_bits_eqb by lia.
  destruct (Z.eqb_spec k n) as [->|Hne].
  - rewrite andb_true_r. destruct (Z.testbit x n) eqn:E.
    + by rewrite Z.pow2_bits_true by lia.
    + by rewrite Z.bits_0.
  - rewrite andb_false_r. destruct (Z.testbit x k).
    + by rewrite Z.pow2_bits_false by lia.
    + by rewrite Z.bits_0.
Qed.

Lemma land_pow2_eqb x k :
  0 ≤ k → (Z.land x (2 ^ k) =? 0) = negb (Z.testbit x k).
Proof.
  intros Hk. rewrite land_pow2_testbit by done.
  pose proof (Z.pow_pos_nonneg 2 k). destruct (Z.testbit x k); simpl.
  - apply Z.eqb_neq. lia.
  - done.
Qed.

(** Clearing the low [k] bits is rounding down to a multiple of [2^k]. *)
Lemma land_lnot_ones x k :
  0 ≤ k → Z.land x (Z.lnot (2 ^ k - 1)) = x - x mod 2 ^ k.
Proof.
  intros Hk.
  assert (2 ^ k - 1 = Z.ones k) as -> by (rewrite Z.ones_equiv; lia).
  rewrite <-Z.ldiff_land, Z.ldiff_ones_r by done.
  rewrite Z.shiftr_div_pow2, Z.shiftl_mul_pow2 by done.
  pose proof (Z.div_mod x (2 ^ k)). pose proof (Z.pow_pos_nonneg 2 k). lia.
Qed.

Lemma shiftr_shiftl_mod x k :
  0 ≤ k → Z.shiftl (Z.shiftr x k) k = x - x mod 2 ^ k.
Proof.
  intros Hk. rewrite Z.shiftr_div_pow2, Z.shiftl_mul_pow2 by done.
  pose proof (Z.div_mod x (2 ^ k)). pose proof (Z.pow_pos_nonneg 2 k). lia.
Qed.

Lemma mod_add_multiple a b m : m ≠ 0 → b mod m = 0 → (a + b) mod m = a mod m.
Proof. intros Hm Hb. by rewrite Z.add_mod, Hb, Z.add_0_r, Z.mod_mod by done. Qed.

(** Numbers [a, a+n) as a list, the index range of a C [for] loop. *)
Definition zseq (a : Z) (n : nat) : list Z := (λ i : nat, a + Z.of_nat i) <$> seq 0 n.

Lemma zseq_S a n : zseq a (S n) = a :: zseq (a + 1) n.
Proof.
  unfold zseq. simpl. f_equal; [lia|].
  rewrite <-fmap_S_seq, <-list_fmap_compose. apply list_fmap_ext. intros i x _. simpl. lia.
Qed.
Lemma length_zseq a n : length (zseq a n) = n.
Proof. unfold zseq. by rewrite length_fmap, length_seq. Qed.
Lemma elem_of_zseq x a n : x ∈ zseq a n ↔ a ≤ x < a + Z.of_nat n.
Proof.
  unfold zseq. rewrite list_elem_of_fmap. split.
  - intros (i & -> & ?%elem_of_seq). lia.
  - intros H. exists (Z.to_nat (x - a)). rewrite elem_of_seq. lia.
Qed.
Lemma NoDup_zseq a n : NoDup (zseq a n).
Proof. apply NoDup_fmap_2; [|apply NoDup_seq]. intros ???. lia. Qed.
