(* ===== verification/Riscv.v ===== *)
(** Constants and bit-level macros: [kernel/param.h], [kernel/memlayout.h] and
    the Sv39 part of [kernel/riscv.h], with the arithmetic facts about page
    rounding, page-table entries and page-table indices that the virtual
    memory proofs use. *)

From S2P Require Import Prelude.

(** * param.h *)
Definition NPROC : Z := 64.
Definition NCPU : Z := 8.
Definition NOFILE : Z := 16.
Definition NFILE : Z := 100.
Definition NINODE : Z := 50.
Definition NDEV : Z := 10.
Definition ROOTDEV : Z := 1.
Definition MAXARG : Z := 32.
Definition MAXOPBLOCKS : Z := 10.
Definition LOGBLOCKS : Z := MAXOPBLOCKS * 3.
Definition NBUF : Z := MAXOPBLOCKS * 3.
Definition FSSIZE : Z := 2000.
Definition MAXPATH : Z := 128.
Definition USERSTACK : Z := 1.
Definition LIMIT_Q0 : Z := 4.
Definition LIMIT_Q1 : Z := 8.
Definition BOOST_INTERVAL : Z := 100.

(** * Pages, page-table entries and indices (riscv.h) *)
Definition PGSIZE : Z := 4096.
Definition PGSHIFT : Z := 12.

Definition PGROUNDUP (sz : Z) : Z := Z.land (u64 (sz + PGSIZE - 1)) (Z.lnot (PGSIZE - 1)).
Definition PGROUNDDOWN (a : Z) : Z := Z.land a (Z.lnot (PGSIZE - 1)).

Definition PTE_V : Z := Z.shiftl 1 0.
Definition PTE_R : Z := Z.shiftl 1 1.
Definition PTE_W : Z := Z.shiftl 1 2.
Definition PTE_X : Z := Z.shiftl 1 3.
Definition PTE_U : Z := Z.shiftl 1 4.
Definition PTE_COW : Z := Z.shiftl 1 8.

Definition PA2PTE (pa : Z) : Z := u64 (Z.shiftl (Z.shiftr pa 12) 10).
Definition PTE2PA (pte : Z) : Z := u64 (Z.shiftl (Z.shiftr pte 10) 12).
Definition PTE_FLAGS (pte : Z) : Z := Z.land pte 0x3FF.

Definition PXMASK : Z := 0x1FF.
Definition PXSHIFT (level : Z) : Z := PGSHIFT + 9 * level.
Definition PX (level va : Z) : Z := Z.land (Z.shiftr va (PXSHIFT level)) PXMASK.

Definition MAXVA : Z := Z.shiftl 1 (9 + 9 + 9 + 12 - 1).

Definition SATP_SV39 : Z := Z.shiftl 8 60.
Definition MAKE_SATP (pagetable : Z) : Z := Z.lor SATP_SV39 (Z.shiftr pagetable 12).

(** * memlayout.h *)
Definition UART0 : Z := 0x10000000.
Definition UART0_IRQ : Z := 10.
Definition VIRTIO0 : Z := 0x10001000.
Definition VIRTIO0_IRQ : Z := 1.
Definition PLIC : Z := 0x0c000000.
Definition KERNBASE : Z := 0x80000000.
Definition PHYSTOP : Z := KERNBASE + 128 * 1024 * 1024.
Definition TRAMPOLINE : Z := MAXVA - PGSIZE.
Definition KSTACK (p : Z) : Z := TRAMPOLINE - (p + 1) * 2 * PGSIZE.
Definition TRAPFRAME : Z := TRAMPOLINE - PGSIZE.

(** * Page rounding *)

Lemma PGROUNDDOWN_eq a : PGROUNDDOWN a = a - a mod PGSIZE.
Proof. unfold PGROUNDDOWN, PGSIZE. apply (land_lnot_ones a 12). lia. Qed.

Lemma PGROUNDUP_eq sz : PGROUNDUP sz = u64 (sz + 4095) - u64 (sz + 4095) mod PGSIZE.
Proof.
  unfold PGROUNDUP, PGSIZE. replace (sz + 4096 - 1) with (sz + 4095) by lia.
  apply (land_lnot_ones _ 12). lia.
Qed.

Lemma PGROUNDUP_small sz :
  0 ≤ sz → sz + 4095 < 2 ^ 64 → PGROUNDUP sz = (sz + 4095) - (sz + 4095) mod PGSIZE.
Proof. intros. rewrite PGROUNDUP_eq, u64_small by lia. done. Qed.

Lemma PGROUNDDOWN_aligned a : PGROUNDDOWN a mod PGSIZE = 0.
Proof.
  rewrite PGROUNDDOWN_eq. unfold PGSIZE. pose proof (Z.div_mod a 4096).
  replace (a - a mod 4096) with ((a / 4096) * 4096) by lia. apply Z.mod_mul. lia.
Qed.

Lemma PGROUNDDOWN_bounds a : PGROUNDDOWN a ≤ a < PGROUNDDOWN a + PGSIZE.
Proof.
  rewrite PGROUNDDOWN_eq. unfold PGSIZE. pose proof (Z.mod_pos_bound a 4096). lia.
Qed.

Lemma PGROUNDDOWN_id a : a mod PGSIZE = 0 → PGROUNDDOWN a = a.
Proof. intros H. rewrite PGROUNDDOWN_eq, H. lia. Qed.

Lemma PGROUNDUP_aligned sz : PGROUNDUP sz mod PGSIZE = 0.
Proof.
  rewrite PGROUNDUP_eq. set (x := u64 _). unfold PGSIZE. pose proof (Z.div_mod x 4096).
  replace (x - x mod 4096) with ((x / 4096) * 4096) by lia. apply Z.mod_mul. lia.
Qed.

Lemma PGROUNDUP_bounds sz :
  0 ≤ sz → sz + 4095 < 2 ^ 64 → sz ≤ PGROUNDUP sz < sz + PGSIZE.
Proof.
  intros. rewrite PGROUNDUP_small by lia. unfold PGSIZE.
  pose proof (Z.mod_pos_bound (sz + 4095) 4096). lia.
Qed.

(** * Page-table entries *)

Lemma PTE2PA_eq pte : 0 ≤ pte < 2 ^ 54 → PTE2PA pte = pte / 1024 * 4096.
Proof.
  intros H. unfold PTE2PA. rewrite Z.shiftl_mul_pow2, Z.shiftr_div_pow2 by lia.
  apply u64_small. change (2 ^ 10) with 1024. change (2 ^ 12) with 4096.
  pose proof (Z.div_pos pte 1024).
  pose proof (Z.div_lt_upper_bound pte 1024 (2 ^ 44)). lia.
Qed.

Lemma PA2PTE_eq pa : 0 ≤ pa < 2 ^ 56 → PA2PTE pa = pa / 4096 * 1024.
Proof.
  intros H. unfold PA2PTE. rewrite Z.shiftl_mul_pow2, Z.shiftr_div_pow2 by lia.
  apply u64_small. change (2 ^ 10) with 1024. change (2 ^ 12) with 4096.
  pose proof (Z.div_pos pa 4096).
  pose proof (Z.div_lt_upper_bound pa 4096 (2 ^ 44)). lia.
Qed.

(** The flag bits and the page number of an entry do not overlap. *)
Lemma lor_PA2PTE pa flags :
  0 ≤ pa < 2 ^ 56 → 0 ≤ flags < 1024 →
  Z.lor (PA2PTE pa) flags = pa / 4096 * 1024 + flags.
Proof.
  intros Hpa Hf. rewrite PA2PTE_eq by done.
  rewrite <-Z.add_lor_land.
  assert (Z.land (pa / 4096 * 1024) flags = 0) as ->; [|lia].
  apply Z.bits_inj'. intros n Hn. rewrite Z.land_spec, Z.bits_0.
  change 1024 with (2 ^ 10). destruct (Z.lt_ge_cases n 10).
  - by rewrite Z.mul_pow2_bits_low by lia.
  - apply andb_false_iff. right. destruct (Z.eq_dec flags 0) as [->|]; [apply Z.bits_0|].
    apply Z.bits_above_log2; [lia|].
    assert (Z.log2 flags < 10) by (apply Z.log2_lt_pow2; lia). lia.
Qed.

Lemma PTE2PA_lor pa flags :
  0 ≤ pa < 2 ^ 56 → pa mod PGSIZE = 0 → 0 ≤ flags < 1024 →
  PTE2PA (Z.lor (PA2PTE pa) flags) = pa.
Proof.
  intros Hpa Hal Hf. rewrite lor_PA2PTE by done. unfold PGSIZE in *.
  assert (pa / 4096 < 2 ^ 44) by (apply Z.div_lt_upper_bound; lia).
  pose proof (Z.div_pos pa 4096).
  rewrite PTE2PA_eq by lia.
  rewrite Z.div_add_l, (Z.div_small flags) by lia.
  pose proof (Z.div_mod pa 4096). lia.
Qed.

Lemma PTE_FLAGS_lor pa flags :
  0 ≤ pa < 2 ^ 56 → 0 ≤ flags < 1024 →
  PTE_FLAGS (Z.lor (PA2PTE pa) flags) = flags.
Proof.
  intros Hpa Hf. unfold PTE_FLAGS. change 0x3FF with (Z.ones 10).
  rewrite Z.land_ones, lor_PA2PTE by lia. change (2 ^ 10) with 1024.
  rewrite Z.add_comm, Z.mod_add by lia. apply Z.mod_small. lia.
Qed.

Lemma PTE_FLAGS_range pte : 0 ≤ PTE_FLAGS pte < 1024.
Proof.
  unfold PTE_FLAGS. change 0x3FF with (Z.ones 10). rewrite Z.land_ones by lia.
  apply Z.mod_pos_bound. lia.
Qed.

Lemma lor_PA2PTE_range pa flags :
  0 ≤ pa < 2 ^ 56 → 0 ≤ flags < 1024 → 0 ≤ Z.lor (PA2PTE pa) flags < 2 ^ 54.
Proof.
  intros Hpa Hf. rewrite lor_PA2PTE by done.
  assert (pa / 4096 < 2 ^ 44) by (apply Z.div_lt_upper_bound; lia).
  pose proof (Z.div_pos pa 4096). lia.
Qed.

(** * Page-table indices *)

Lemma PX_eq level va : 0 ≤ level → PX level va = (va / 2 ^ PXSHIFT level) mod 512.
Proof.
  intros H. unfold PX, PXMASK, PXSHIFT, PGSHIFT. change 0x1FF with (Z.ones 9).
  rewrite Z.land_ones, Z.shiftr_div_pow2 by lia. done.
Qed.

Lemma PX_range level va : 0 ≤ level → 0 ≤ PX level va < 512.
Proof. intros H. rewrite PX_eq by done. apply Z.mod_pos_bound. lia. Qed.

(** The three indices determine the page number. *)
Lemma PX_decompose va :
  0 ≤ va < MAXVA → va / PGSIZE = PX 2 va * 262144 + PX 1 va * 512 + PX 0 va.
Proof.
  intros Hva. change MAXVA with 274877906944 in Hva.
  rewrite !PX_eq by lia. unfold PGSIZE.
  change (2 ^ PXSHIFT 2) with (4096 * (512 * 512)).
  change (2 ^ PXSHIFT 1) with (4096 * 512). change (2 ^ PXSHIFT 0) with 4096.
  rewrite <-!Z.div_div by lia.
  set (v := va / 4096).
  assert (0 ≤ v < 67108864).
  { split; [apply Z.div_pos; lia|apply Z.div_lt_upper_bound; lia]. }
  assert (v / 512 / 512 < 512).
  { apply Z.div_lt_upper_bound; [lia|]. apply Z.div_lt_upper_bound; lia. }
  assert (0 ≤ v / 512 / 512) by (apply Z.div_pos; [apply Z.div_pos|]; lia).
  rewrite (Z.mod_small (v / 512 / 512)) by lia.
  pose proof (Z.div_mod v 512). pose proof (Z.div_mod (v / 512) 512). lia.
Qed.

Lemma PX_inj va va' :
  0 ≤ va < MAXVA → 0 ≤ va' < MAXVA →
  PX 2 va = PX 2 va' → PX 1 va = PX 1 va' → PX 0 va = PX 0 va' →
  va / PGSIZE = va' / PGSIZE.
Proof. intros H H' E2 E1 E0. rewrite !PX_decompose by done. lia. Qed.

Lemma PX_page level va va' :
  0 ≤ level → va / PGSIZE = va' / PGSIZE → PX level va = PX level va'.
Proof.
  intros Hl E. rewrite !PX_eq by done. unfold PXSHIFT, PGSHIFT, PGSIZE in *.
  rewrite Z.pow_add_r, <-!Z.div_div by lia. change (2 ^ 12) with 4096. by rewrite E.
Qed.

Lemma MAXVA_val : MAXVA = 274877906944.
Proof. reflexivity. Qed.
Lemma PHYSTOP_val : PHYSTOP = 2281701376.
Proof. reflexivity. Qed.
