(* ===== verification/Mem.v ===== *)
(** Physical memory: a byte-addressed store with little-endian access to
    wider integers, as the RISC-V kernel sees RAM through its direct map. *)

From S2P Require Import Prelude Riscv.

Abbreviation memory := (gmap Z Z).

Definition ld8 (m : memory) (a : Z) : Z := u8 (default 0 (m !! a)).
Definition st8 (m : memory) (a v : Z) : memory := <[a := u8 v]> m.

(** Little-endian loads and stores of [n] bytes. *)
Fixpoint ldn (m : memory) (a : Z) (n : nat) : Z :=
  match n with
  | O => 0
  | S n' => ld8 m a + 256 * ldn m (a + 1) n'
  end.

Fixpoint stn (m : memory) (a : Z) (n : nat) (v : Z) : memory :=
  match n with
  | O => m
  | S n' => stn (st8 m a v) (a + 1) n' (v / 256)
  end.

Definition ld64 (m : memory) (a : Z) : Z := ldn m a 8.
Definition st64 (m : memory) (a v : Z) : memory := stn m a 8 v.
Definition ld32 (m : memory) (a : Z) : Z := ldn m a 4.
Definition st32 (m : memory) (a v : Z) : memory := stn m a 4 v.

(** Blocks of bytes. *)
Fixpoint ldbytes (m : memory) (a : Z) (n : nat) : list Z :=
  match n with
  | O => []
  | S n' => ld8 m a :: ldbytes m (a + 1) n'
  end.

Fixpoint stbytes (m : memory) (a : Z) (l : list Z) : memory :=
  match l with
  | [] => m
  | v :: l' => stbytes (st8 m a v) (a + 1) l'
  end.

(** * Single bytes *)

Lemma ld8_range m a : 0 ≤ ld8 m a < 256.
Proof. apply u8_range. Qed.

Lemma ld8_st8 m a b v : ld8 (st8 m a v) b = if decide (a = b) then u8 v else ld8 m b.
Proof.
  unfold ld8, st8. case_decide as E.
  - subst. rewrite lookup_insert_eq. simpl. apply u8_small, u8_range.
  - by rewrite lookup_insert_ne.
Qed.
Lemma ld8_st8_eq m a v : ld8 (st8 m a v) a = u8 v.
Proof. rewrite ld8_st8. by rewrite decide_True. Qed.
Lemma ld8_st8_ne m a b v : a ≠ b → ld8 (st8 m a v) b = ld8 m b.
Proof. intros. rewrite ld8_st8. by rewrite decide_False. Qed.

(** * Wider loads and stores *)

Lemma ldn_ext m m' a n :
  (∀ b, a ≤ b < a + Z.of_nat n → ld8 m b = ld8 m' b) → ldn m a n = ldn m' a n.
Proof.
  revert a. induction n as [|n IH]; intros a H; simpl; [done|].
  rewrite (H a) by lia. rewrite (IH (a + 1)); [done|]. intros b Hb. apply H. lia.
Qed.

Lemma ldn_zero m a n :
  (∀ b, a ≤ b < a + Z.of_nat n → ld8 m b = 0) → ldn m a n = 0.
Proof.
  revert a. induction n as [|n IH]; intros a H; simpl; [done|].
  rewrite (H a) by lia. rewrite (IH (a + 1)); [done|]. intros b Hb. apply H. lia.
Qed.

Lemma ldn_range m a n : 0 ≤ ldn m a n < 256 ^ Z.of_nat n.
Proof.
  revert a. induction n as [|n IH]; intros a; simpl ldn.
  - simpl. lia.
  - pose proof (ld8_range m a). specialize (IH (a + 1)).
    rewrite Nat2Z.inj_succ, Z.pow_succ_r by lia. lia.
Qed.

Lemma ld8_stn_ne m a n v b :
  ¬ (a ≤ b < a + Z.of_nat n) → ld8 (stn m a n v) b = ld8 m b.
Proof.
  revert m a v. induction n as [|n IH]; intros m a v H; simpl; [done|].
  rewrite IH by lia. apply ld8_st8_ne. lia.
Qed.

Lemma ldn_stn_eq m a n v : ldn (stn m a n v) a n = v mod 256 ^ Z.of_nat n.
Proof.
  revert m a v. induction n as [|n IH]; intros m a v; simpl ldn; simpl stn.
  - simpl. by rewrite Z.mod_1_r.
  - rewrite ld8_stn_ne, ld8_st8_eq, IH by lia.
    rewrite Nat2Z.inj_succ, Z.pow_succ_r by lia.
    pose proof (Z.pow_pos_nonneg 256 (Z.of_nat n)).
    rewrite Z.rem_mul_r by lia. unfold u8. change (2 ^ 8) with 256. lia.
Qed.

Lemma ldn_stn_ne m a n v b k :
  b + Z.of_nat k ≤ a ∨ a + Z.of_nat n ≤ b → ldn (stn m a n v) b k = ldn m b k.
Proof. intros H. apply ldn_ext. intros c Hc. apply ld8_stn_ne. lia. Qed.

Lemma ld64_range m a : 0 ≤ ld64 m a < 2 ^ 64.
Proof. apply (ldn_range m a 8). Qed.
Lemma ld64_st64_eq m a v : 0 ≤ v < 2 ^ 64 → ld64 (st64 m a v) a = v.
Proof. intros H. unfold ld64, st64. rewrite ldn_stn_eq. by apply Z.mod_small. Qed.
Lemma ld64_st64_ne m a b v : b + 8 ≤ a ∨ a + 8 ≤ b → ld64 (st64 m a v) b = ld64 m b.
Proof. intros H. unfold ld64, st64. apply ldn_stn_ne. lia. Qed.
Lemma ld8_st64_ne m a b v : b < a ∨ a + 8 ≤ b → ld8 (st64 m a v) b = ld8 m b.
Proof. intros H. apply ld8_stn_ne. lia. Qed.
Lemma ld64_ext m m' a :
  (∀ b, a ≤ b < a + 8 → ld8 m b = ld8 m' b) → ld64 m a = ld64 m' a.
Proof. intros H. apply ldn_ext. intros b Hb. apply H. lia. Qed.

(** * Blocks of bytes *)

Lemma length_ldbytes m a n : length (ldbytes m a n) = n.
Proof. revert a. induction n as [|n IH]; intros a; simpl; [done|]. by rewrite IH. Qed.

Lemma ldbytes_ext m m' a n :
  (∀ b, a ≤ b < a + Z.of_nat n → ld8 m b = ld8 m' b) → ldbytes m a n = ldbytes m' a n.
Proof.
  revert a. induction n as [|n IH]; intros a H; simpl; [done|].
  rewrite (H a) by lia. f_equal. apply IH. intros b Hb. apply H. lia.
Qed.

Lemma ldbytes_app m a n k :
  ldbytes m a (n + k) = ldbytes m a n ++ ldbytes m (a + Z.of_nat n) k.
Proof.
  revert a. induction n as [|n IH]; intros a; simpl.
  - by rewrite Z.add_0_r.
  - rewrite IH. do 3 f_equal. lia.
Qed.

Lemma lookup_ldbytes m a n i :
  (i < n)%nat → ldbytes m a n !! i = Some (ld8 m (a + Z.of_nat i)).
Proof.
  revert a i. induction n as [|n IH]; intros a i Hi; [lia|]. destruct i as [|i]; simpl.
  - by rewrite Z.add_0_r.
  - rewrite IH by lia. do 2 f_equal. lia.
Qed.

Lemma ld8_stbytes_ne m a l b :
  ¬ (a ≤ b < a + Z.of_nat (length l)) → ld8 (stbytes m a l) b = ld8 m b.
Proof.
  revert m a. induction l as [|v l IH]; intros m a H; simpl in *; [done|].
  rewrite IH by lia. apply ld8_st8_ne. lia.
Qed.

Lemma ld8_stbytes_eq m a l i v :
  l !! i = Some v → ld8 (stbytes m a l) (a + Z.of_nat i) = u8 v.
Proof.
  revert m a i. induction l as [|w l IH]; intros m a i H; [done|].
  destruct i as [|i]; simplify_eq/=.
  - rewrite ld8_stbytes_ne by lia. rewrite Z.add_0_r. apply ld8_st8_eq.
  - replace (a + Z.of_nat (S i)) with (a + 1 + Z.of_nat i) by lia. by apply IH.
Qed.

Definition bytes (l : list Z) : Prop := Forall (λ v, 0 ≤ v < 256) l.

Lemma bytes_ldbytes m a n : bytes (ldbytes m a n).
Proof.
  revert a. induction n as [|n IH]; intros a; constructor; [apply ld8_range|apply IH].
Qed.

Lemma ldbytes_stbytes m a l :
  bytes l → ldbytes (stbytes m a l) a (length l) = l.
Proof.
  intros Hl. apply list_eq. intros i.
  destruct (decide (i < length l)%nat) as [Hi|Hi].
  - rewrite lookup_ldbytes by done.
    destruct (lookup_lt_is_Some_2 l i Hi) as [v Hv]. rewrite Hv.
    rewrite (ld8_stbytes_eq _ _ _ _ v Hv). f_equal. apply u8_small.
    by apply (Forall_lookup_1 _ _ _ _ Hl Hv).
  - rewrite !lookup_ge_None_2; [done|lia|rewrite length_ldbytes; lia].
Qed.

(** * Pages *)

(** [in_page p a]: the byte address [a] lies in the page at [p]. *)
Definition in_page (p a : Z) : Prop := p ≤ a < p + PGSIZE.

(** Two memories that agree on a page. *)
Definition same_page (m m' : memory) (p : Z) : Prop :=
  ∀ a, in_page p a → ld8 m a = ld8 m' a.

Lemma same_page_refl m p : same_page m m p.
Proof. by intros a. Qed.
Lemma same_page_sym m m' p : same_page m m' p → same_page m' m p.
Proof. intros H a Ha. symmetry. by apply H. Qed.
Lemma same_page_trans m m' m'' p :
  same_page m m' p → same_page m' m'' p → same_page m m'' p.
Proof. intros H1 H2 a Ha. by rewrite H1, H2. Qed.

Lemma same_page_ld64 m m' p i :
  same_page m m' p → 0 ≤ i < 512 → ld64 m (p + 8 * i) = ld64 m' (p + 8 * i).
Proof. intros H Hi. apply ld64_ext. intros b Hb. apply H. unfold in_page, PGSIZE. lia. Qed.

Lemma same_page_ldbytes m m' p o n :
  same_page m m' p → 0 ≤ o → o + Z.of_nat n ≤ PGSIZE →
  ldbytes m (p + o) n = ldbytes m' (p + o) n.
Proof. intros H Ho Hn. apply ldbytes_ext. intros b Hb. apply H. unfold in_page. lia. Qed.

(** Distinct page-aligned pages do not overlap. *)
Lemma aligned_disjoint p q a :
  p mod PGSIZE = 0 → q mod PGSIZE = 0 → in_page p a → in_page q a → p = q.
Proof.
  unfold in_page, PGSIZE. intros Hp Hq H1 H2.
  pose proof (Z.div_mod p 4096). pose proof (Z.div_mod q 4096). lia.
Qed.

Lemma in_page_slot p i : 0 ≤ i < 512 → in_page p (p + 8 * i).
Proof. unfold in_page, PGSIZE. lia. Qed.

Lemma same_page_st64 m p q i v :
  p mod PGSIZE = 0 → q mod PGSIZE = 0 → p ≠ q → 0 ≤ i < 512 →
  same_page (st64 m (q + 8 * i) v) m p.
Proof.
  intros Hp Hq Hne Hi a Ha. apply ld8_st64_ne.
  destruct (Z.lt_ge_cases a (q + 8 * i)); [lia|].
  destruct (Z.lt_ge_cases a (q + 8 * i + 8)); [|lia].
  exfalso. apply Hne, (aligned_disjoint p q a); try done. unfold in_page, PGSIZE. lia.
Qed.
