(* ===== verification/Str.v ===== *)
(** [kernel/string.c]: memory and string routines.  The routines that write
    act on {!Mem}; a pointer that is only read is a function from the offset to
    the byte found there, so that the same definition serves kernel memory,
    user memory and the fixed-size arrays of the file system. *)

From S2P Require Import Prelude Riscv Mem.

(** ** memset *)
Fixpoint memset_loop (m : memory) (cdst c : Z) (n : nat) : memory :=
  match n with
  | O => m
  | S n' => memset_loop (st8 m cdst c) (cdst + 1) c n'
  end.

Definition memset (m : memory) (dst c n : Z) : memory := memset_loop m dst c (Z.to_nat n).

(** ** memcmp *)
Fixpoint memcmp (s1 s2 : Z → Z) (n : nat) : Z :=
  match n with
  | O => 0
  | S n' =>
      if negb (s1 0 =? s2 0) then s1 0 - s2 0
      else memcmp (λ i, s1 (i + 1)) (λ i, s2 (i + 1)) n'
  end.

(** ** memmove *)
Fixpoint copy_forward (m : memory) (d s : Z) (n : nat) : memory :=
  match n with
  | O => m
  | S n' => copy_forward (st8 m d (ld8 m s)) (d + 1) (s + 1) n'
  end.

(** [d] and [s] point one past the bytes still to be copied. *)
Fixpoint copy_backward (m : memory) (d s : Z) (n : nat) : memory :=
  match n with
  | O => m
  | S n' => copy_backward (st8 m (d - 1) (ld8 m (s - 1))) (d - 1) (s - 1) n'
  end.

Definition memmove (m : memory) (dst src n : Z) : memory :=
  if n =? 0 then m
  else if (src <? dst) && (dst <? src + n)
  then copy_backward m (dst + n) (src + n) (Z.to_nat n)
  else copy_forward m dst src (Z.to_nat n).

Definition memcpy (m : memory) (dst src n : Z) : memory := memmove m dst src n.

(** ** strncmp *)
Fixpoint strncmp (p q : Z → Z) (n : nat) : Z :=
  match n with
  | O => 0
  | S n' =>
      if negb (p 0 =? 0) && (p 0 =? q 0)
      then strncmp (λ i, p (i + 1)) (λ i, q (i + 1)) n'
      else u8 (p 0) - u8 (q 0)
  end.

(** ** strncpy, safestrcpy: the bytes stored at [s], [s + 1], ... *)
Fixpoint strncpy (t : Z → Z) (n : nat) : list Z :=
  match n with
  | O => []
  | S n' =>
      if negb (t 0 =? 0) then t 0 :: strncpy (λ i, t (i + 1)) n'
      else 0 :: replicate n' 0
  end.

Fixpoint safestrcpy_loop (t : Z → Z) (n : nat) : list Z :=
  match n with
  | O => [0]
  | S n' =>
      if negb (t 0 =? 0) then t 0 :: safestrcpy_loop (λ i, t (i + 1)) n'
      else [0; 0]
  end.

Definition safestrcpy (t : Z → Z) (n : Z) : list Z :=
  if n <=? 0 then [] else safestrcpy_loop t (Z.to_nat (n - 1)).

(** ** strlen *)
Fixpoint strlen (fuel : nat) (s : Z → Z) : option Z :=
  match fuel with
  | O => None
  | S f => if s 0 =? 0 then Some 0 else Z.succ <$> strlen f (λ i, s (i + 1))
  end.

(** Characters of a byte list, with the terminating NUL behind its end. *)
Definition chars (l : list Z) (i : Z) : Z := default 0 (l !! Z.to_nat i).

(** * Properties *)

Lemma ld8_memset_loop m d c n a :
  ld8 (memset_loop m d c n) a = if decide (d ≤ a < d + Z.of_nat n) then u8 c else ld8 m a.
Proof.
  revert m d. induction n as [|n IH]; intros m d; simpl memset_loop.
  - rewrite decide_False by lia. done.
  - rewrite IH, ld8_st8. repeat case_decide; try done; lia.
Qed.

Lemma ld8_memset m d c n a :
  0 ≤ n → ld8 (memset m d c n) a = if decide (d ≤ a < d + n) then u8 c else ld8 m a.
Proof. intros Hn. unfold memset. rewrite ld8_memset_loop, Z2Nat.id by done. done. Qed.

Lemma ld64_memset_0 m p n i :
  0 ≤ i → 8 * i + 8 ≤ n → ld64 (memset m p 0 n) (p + 8 * i) = 0.
Proof.
  intros Hi Hn. apply ldn_zero. intros b Hb.
  rewrite ld8_memset, decide_True by lia. done.
Qed.

(** A page-sized [memset] or copy leaves the other pages alone. *)
Lemma same_page_memset m p q c :
  p mod PGSIZE = 0 → q mod PGSIZE = 0 → p ≠ q → same_page (memset m q c PGSIZE) m p.
Proof.
  intros Hp Hq Hne a Ha. rewrite ld8_memset by done. case_decide as E; [|done].
  by destruct Hne; apply (aligned_disjoint p q a).
Qed.

Lemma ld8_copy_forward m d s n a :
  ¬ (s < d < s + Z.of_nat n) →
  ld8 (copy_forward m d s n) a =
  if decide (d ≤ a < d + Z.of_nat n) then ld8 m (s + (a - d)) else ld8 m a.
Proof.
  revert m d s. induction n as [|n IH]; intros m d s H; simpl copy_forward.
  - rewrite decide_False by lia. done.
  - rewrite IH by lia.
    destruct (decide (a = d)) as [->|Hne].
    + rewrite decide_False by lia. rewrite decide_True by lia.
      rewrite ld8_st8_eq, u8_small by apply ld8_range. f_equal. lia.
    + destruct (decide (d + 1 ≤ a < d + 1 + Z.of_nat n)).
      * rewrite (decide_True (P := d ≤ a < _)) by lia.
        rewrite ld8_st8. case_decide as E.
        -- rewrite u8_small by apply ld8_range. f_equal. lia.
        -- f_equal. lia.
      * rewrite (decide_False (P := d ≤ a < _)) by lia. by rewrite ld8_st8_ne by lia.
Qed.

Lemma ld8_copy_backward m d s n a :
  s < d →
  ld8 (copy_backward m d s n) a =
  if decide (d - Z.of_nat n ≤ a < d) then ld8 m (s + (a - d)) else ld8 m a.
Proof.
  revert m d s. induction n as [|n IH]; intros m d s H; simpl copy_backward.
  - rewrite decide_False by lia. done.
  - rewrite IH by lia.
    destruct (decide (a = d - 1)) as [->|Hne].
    + rewrite decide_False by lia. rewrite decide_True by lia.
      rewrite ld8_st8_eq, u8_small by apply ld8_range. f_equal. lia.
    + destruct (decide (d - 1 - Z.of_nat n ≤ a < d - 1)).
      * rewrite (decide_True (P := d - Z.of_nat (S n) ≤ a < _)) by lia.
        rewrite ld8_st8_ne by lia. f_equal. lia.
      * rewrite (decide_False (P := d - Z.of_nat (S n) ≤ a < _)) by lia.
        by rewrite ld8_st8_ne by lia.
Qed.

Lemma ld8_memmove m d s n a :
  0 ≤ n →
  ld8 (memmove m d s n) a = if decide (d ≤ a < d + n) then ld8 m (s + (a - d)) else ld8 m a.
Proof.
  intros Hn. unfold memmove.
  destruct (Z.eqb_spec n 0) as [->|Hn0]; [by rewrite decide_False by lia|].
  destruct (Z.ltb_spec s d), (Z.ltb_spec d (s + n)); simpl;
    first [rewrite ld8_copy_backward by lia | rewrite ld8_copy_forward by lia].
  - replace (d + n - Z.of_nat (Z.to_nat n)) with d by lia.
    case_decide; [|done]. f_equal. lia.
  - by rewrite Z2Nat.id by lia.
  - by rewrite Z2Nat.id by lia.
  - by rewrite Z2Nat.id by lia.
Qed.

Lemma ldbytes_memmove m d s n :
  0 ≤ n → ldbytes (memmove m d s n) d (Z.to_nat n) = ldbytes m s (Z.to_nat n).
Proof.
  intros Hn. apply list_eq. intros i. destruct (decide (i < Z.to_nat n)%nat) as [Hi|Hi].
  - rewrite !lookup_ldbytes, ld8_memmove, decide_True by lia. do 2 f_equal. lia.
  - rewrite !lookup_ge_None_2; [done|rewrite length_ldbytes; lia..].
Qed.

Lemma same_page_memmove m p q s :
  p mod PGSIZE = 0 → q mod PGSIZE = 0 → p ≠ q → same_page (memmove m q s PGSIZE) m p.
Proof.
  intros Hp Hq Hne a Ha. rewrite ld8_memmove by done. case_decide as E; [|done].
  by destruct Hne; apply (aligned_disjoint p q a).
Qed.

(** ** Strings *)

(** Two strings agree on their first [n] characters, the first NUL included. *)
Definition agree_upto (p q : Z → Z) (n : nat) : Prop :=
  ∀ i, 0 ≤ i < Z.of_nat n → (∀ j, 0 ≤ j < i → p j ≠ 0) → p i = q i.

Definition is_char (p : Z → Z) : Prop := ∀ i, 0 ≤ p i < 256.

Lemma is_char_tail p : is_char p → is_char (λ i, p (i + 1)).
Proof. intros H i. apply H. Qed.

Lemma strncmp_eq0 p q n :
  is_char p → is_char q → strncmp p q n = 0 ↔ agree_upto p q n.
Proof.
  revert p q. induction n as [|n IH]; intros p q Hp Hq; cbn [strncmp].
  { split; [|done]. intros _ i Hi. lia. }
  rewrite !u8_small by first [apply Hp|apply Hq].
  destruct (Z.eqb_spec (p 0) 0) as [E0|E0]; cbn [negb andb].
  - split.
    + intros H i Hi Hj. destruct (decide (i = 0)) as [->|]; [lia|].
      destruct (Hj 0); [lia|done].
    + intros H. rewrite (H 0) by lia. lia.
  - destruct (Z.eqb_spec (p 0) (q 0)) as [E|E].
    + rewrite IH by (by apply is_char_tail). split; intros H i Hi Hj.
      * destruct (decide (i = 0)) as [->|]; [done|].
        specialize (H (i - 1)). cbv beta in H. rewrite Z.sub_add in H. apply H; [lia|].
        intros j Hj'. apply Hj. lia.
      * apply H; [lia|]. intros j Hj'. destruct (decide (j = 0)) as [->|]; [done|].
        specialize (Hj (j - 1)). cbv beta in Hj. rewrite Z.sub_add in Hj. apply Hj. lia.
    + split; [lia|]. intros H. destruct E. apply H; lia.
Qed.

Lemma length_strncpy t n : length (strncpy t n) = n.
Proof.
  revert t. induction n as [|n IH]; intros t; simpl; [done|].
  destruct (negb _); simpl; [by rewrite IH|by rewrite length_replicate].
Qed.

Lemma bytes_strncpy t n : is_char t → bytes (strncpy t n).
Proof.
  revert t. induction n as [|n IH]; intros t Ht; simpl; [constructor|].
  destruct (negb _).
  - constructor; [apply Ht|]. apply IH. by apply is_char_tail.
  - constructor; [lia|]. apply Forall_replicate. lia.
Qed.

(** What is found at offset [i] after [strncpy]: the string, zero padded. *)
Lemma strncpy_agree t n : agree_upto t (chars (strncpy t n)) n.
Proof.
  revert t. induction n as [|n IH]; intros t i Hi Hj; simpl; [lia|].
  destruct (Z.eqb_spec (t 0) 0) as [E|E]; cbn [negb].
  - assert (i = 0) as ->; [|done].
    destruct (decide (i = 0)); [done|]. destruct (Hj 0); [lia|done].
  - destruct (decide (i = 0)) as [->|Hi0]; [done|].
    specialize (IH (λ i, t (i + 1)) (i - 1)). cbv beta in IH. rewrite Z.sub_add in IH.
    rewrite IH; [|lia|intros j Hj'; apply Hj; lia].
    unfold chars. replace (Z.to_nat i) with (S (Z.to_nat (i - 1))) by lia. done.
Qed.

Lemma safestrcpy_loop_length t n : (length (safestrcpy_loop t n) ≤ S n)%nat.
Proof.
  revert t. induction n as [|n IH]; intros t; simpl; [lia|].
  destruct (negb _); simpl; [|lia]. specialize (IH (λ i, t (i + 1))). lia.
Qed.

(** [safestrcpy] writes at most [n] bytes and always terminates the string. *)
Lemma safestrcpy_terminated t n :
  0 < n → (length (safestrcpy t n) ≤ Z.to_nat n)%nat ∧ last (safestrcpy t n) = Some 0.
Proof.
  intros Hn. unfold safestrcpy. destruct (Z.leb_spec n 0); [lia|]. split.
  - pose proof (safestrcpy_loop_length t (Z.to_nat (n - 1))). lia.
  - generalize (Z.to_nat (n - 1)) as k. intros k. revert t.
    induction k as [|k IH]; intros t; simpl; [done|]. destruct (negb _); [|done].
    rewrite last_cons. by rewrite IH.
Qed.

(** The copied characters are those of the source. *)
Lemma safestrcpy_prefix t n i c :
  safestrcpy t n !! i = Some c → c ≠ 0 → c = t (Z.of_nat i).
Proof.
  unfold safestrcpy. destruct (n <=? 0); [done|].
  generalize (Z.to_nat (n - 1)) as k. intros k. revert t i.
  induction k as [|k IH]; intros t i H Hc; simpl in H.
  - destruct i; simplify_eq/=.
  - destruct (negb _).
    + destruct i as [|i]; simplify_eq/=; [done|].
      specialize (IH _ _ H Hc). rewrite IH. f_equal. lia.
    + by destruct i as [|[|i]]; simplify_eq/=.
Qed.

Lemma strlen_spec fuel s n :
  strlen fuel s = Some n ↔
  0 ≤ n < Z.of_nat fuel ∧ s n = 0 ∧ (∀ i, 0 ≤ i < n → s i ≠ 0).
Proof.
  revert s n. induction fuel as [|f IH]; intros s n; cbn [strlen].
  { split; [done|lia]. }
  destruct (Z.eqb_spec (s 0) 0) as [E|E].
  - split.
    + intros [= <-]. split_and!; [lia..|done|]. intros. lia.
    + intros (Hn & Hs & Hi). f_equal. destruct (decide (n = 0)); [done|].
      destruct (Hi 0); [lia|done].
  - rewrite fmap_Some. split.
    + intros (k & (Hk & Hs & Hi)%IH & ->). split_and!; [lia..|done|].
      intros i Hr. destruct (decide (i = 0)) as [->|]; [done|].
      specialize (Hi (i - 1)). cbv beta in Hi. rewrite Z.sub_add in Hi. apply Hi. lia.
    + intros (Hn & Hs & Hi). exists (n - 1).
      assert (n ≠ 0) by (intros ->; done). split; [|lia].
      apply IH. rewrite Z.sub_add. split_and!; [lia..|done|]. intros i Hr. apply Hi. lia.
Qed.

(** * The specification *)

(** [memmove] copies [n] bytes as they were before the call, also when the
    two ranges overlap, and changes no other byte. *)
Theorem memmove_overlap m dst src n a :
  0 ≤ n →
  ld8 (memmove m dst src n) a =
    if decide (dst ≤ a < dst + n) then ld8 m (src + (a - dst)) else ld8 m a.
Proof. apply ld8_memmove. Qed.

Lemma memmove_overlap_witness :
  let m := stbytes ∅ 100 [1; 2; 3; 4] in
  ld8 (memmove m 102 100 4) 104 = 3 ∧ ld8 (memmove m 100 102 4) 101 = 4.
Proof.
  split.
  - rewrite (memmove_overlap (stbytes ∅ 100 [1; 2; 3; 4]) 102 100 4 104 ltac:(lia)). reflexivity.
  - rewrite (memmove_overlap (stbytes ∅ 100 [1; 2; 3; 4]) 100 102 4 101 ltac:(lia)). reflexivity.
Defined.

Lemma is_char_chars l : bytes l → is_char (chars l).
Proof.
  intros Hl i. unfold chars. destruct (l !! Z.to_nat i) eqn:E; simpl; [|lia].
  by eapply (proj1 (Forall_lookup _ _) Hl).
Qed.

(** [agree_upto] is symmetric and transitive. *)
Lemma agree_nonzero p q n k :
  agree_upto p q n → (k ≤ n)%nat → (∀ j, 0 ≤ j < Z.of_nat k → q j ≠ 0) →
  ∀ j, 0 ≤ j < Z.of_nat k → p j ≠ 0.
Proof.
  intros Ha. induction k as [|k IH]; intros Hk Hq j Hj; [lia|].
  assert (∀ j, 0 ≤ j < Z.of_nat k → p j ≠ 0) as Hp by (apply IH; [lia|]; intros; apply Hq; lia).
  destruct (decide (j = Z.of_nat k)) as [->|]; [|apply Hp; lia].
  rewrite Ha; [apply Hq; lia|lia|done].
Qed.

Lemma agree_sym p q n : agree_upto p q n → agree_upto q p n.
Proof.
  intros Ha i Hi Hj. symmetry. apply Ha; [done|]. rewrite <-(Z2Nat.id i) in Hj |- * by lia.
  apply (agree_nonzero p q n); [done|lia|done].
Qed.

Lemma agree_trans p q r n : agree_upto p q n → agree_upto q r n → agree_upto p r n.
Proof.
  intros H1 H2 i Hi Hj. rewrite (H1 i Hi Hj). apply H2; [done|].
  intros j Hjr. rewrite <-(H1 j); [by apply Hj|lia|]. intros k Hk. apply Hj. lia.
Qed.

(** a name stored in a fixed-size field with [strncpy] compares equal, with
    [strncmp], to exactly the names that agree with the original within the
    field. *)
Theorem strncpy_strncmp t u n :
  is_char t → is_char u →
  length (strncpy t n) = n ∧
  (strncmp u (chars (strncpy t n)) n = 0 ↔ agree_upto u t n).
Proof.
  intros Ht Hu. split; [apply length_strncpy|].
  assert (is_char (chars (strncpy t n))) as Hc by (by apply is_char_chars, bytes_strncpy).
  rewrite strncmp_eq0 by done. pose proof (strncpy_agree t n) as Ha.
  split; intros Hag; eapply agree_trans; try done. by apply agree_sym.
Qed.

Lemma strncpy_strncmp_witness :
  strncmp (chars [99; 97; 116]) (chars (strncpy (chars [99; 97; 116]) 14)) 14 = 0.
Proof.
  assert (is_char (chars [99; 97; 116])) as H by (apply is_char_chars; repeat constructor; lia).
  apply (strncpy_strncmp (chars [99; 97; 116]) (chars [99; 97; 116]) 14 H H).
  intros i _ _. reflexivity.
Defined.

(** [safestrcpy] never writes more than [n] bytes, always ends with a NUL,
    and what precedes it comes from the source string. *)
Theorem safestrcpy_safe t n :
  0 < n →
  (length (safestrcpy t n) ≤ Z.to_nat n)%nat ∧ last (safestrcpy t n) = Some 0 ∧
  (∀ i c, safestrcpy t n !! i = Some c → c ≠ 0 → c = t (Z.of_nat i)).
Proof.
  intros Hn. destruct (safestrcpy_terminated t n Hn) as [Hl Hz]. split; [done|]. split; [done|].
  intros i c. apply safestrcpy_prefix.
Qed.

Lemma safestrcpy_safe_witness : last (safestrcpy (chars [97; 98; 99; 100]) 3) = Some 0.
Proof. apply (safestrcpy_safe (chars [97; 98; 99; 100]) 3). lia. Defined.
