(* ===== verification/Kalloc.v ===== *)
(** [kernel/kalloc.c]: the physical page allocator with reference counts.

    The free list is threaded through the first word of every free page, as in
    the C code; [freelist] is the head pointer and 0 is the null pointer.  The
    critical sections under [kmem.lock] and [reflock] are atomic steps of the
    model (spinlock.c itself is the subject of {!Spinlock}).

    The contract of the allocator is [kinv s l]: the list threaded through
    memory is [l], and a page is free exactly when its reference count is 0. *)

From S2P Require Import Prelude Riscv Mem Str.

(** Addresses the linker script [kernel/kernel.ld] assigns. *)
Class KernelImage := {
  kernel_end : Z;         (* char end[]: first address after the kernel *)
  kernel_etext : Z;       (* char etext[]: end of the kernel's code *)
  kernel_trampoline : Z;  (* char trampoline[]: the trampoline page *)
}.

(** What kernel.ld guarantees about them. *)
Class KernelImageOk `{KernelImage} : Prop := {
  kernel_end_range : KERNBASE < kernel_end ≤ PHYSTOP;
  kernel_etext_range : KERNBASE < kernel_etext ≤ kernel_end;
  kernel_etext_aligned : kernel_etext mod PGSIZE = 0;
  kernel_trampoline_range : KERNBASE ≤ kernel_trampoline < kernel_etext;
  kernel_trampoline_aligned : kernel_trampoline mod PGSIZE = 0;
}.

(** * State and operations *)

Record kst := KState {
  kmem : memory;          (* RAM *)
  freelist : Z;           (* kmem.freelist *)
  ref_count : gmap Z Z;   (* uint16 ref_count[PHYSTOP / PGSIZE] *)
}.

Definition set_mem (m : memory) (s : kst) : kst := KState m (freelist s) (ref_count s).
Definition set_freelist (p : Z) (s : kst) : kst := KState (kmem s) p (ref_count s).
Definition set_ref (i v : Z) (s : kst) : kst :=
  KState (kmem s) (freelist s) (<[i := u16 v]> (ref_count s)).

(** [ref_count[i]], an array of [PHYSTOP / PGSIZE] counters, zero at boot. *)
Definition ref_at (s : kst) (i : Z) : Z := u16 (default 0 (ref_count s !! i)).
Definition ref_ok (i : Z) : bool := (0 <=? i) && (i <? PHYSTOP / PGSIZE).

Definition load_ref (i : Z) : M kst Z :=
  if ref_ok i then gets (λ s, ref_at s i) else ub.
Definition store_ref (i v : Z) : M kst unit :=
  if ref_ok i then modify (set_ref i v) else ub.

Section kalloc.
Context `{KernelImage}.

Definition kfree (pa : Z) : M kst unit :=
  if negb (pa mod PGSIZE =? 0) || (pa <? kernel_end) || (PHYSTOP <=? pa)
  then panic "kfree"
  else
    (* Decrement reference count *)
    c ← load_ref (pa / PGSIZE);
    let count := u16 (c - 1) in
    store_ref (pa / PGSIZE) count ;;
    (* Only free if count is 0 *)
    if 0 <? count then mret tt
    else
      (* Fill with junk to catch dangling refs. *)
      modify (λ s, set_mem (memset (kmem s) pa 1 PGSIZE) s) ;;
      modify (λ s, set_mem (st64 (kmem s) pa (freelist s)) s) ;;
      modify (set_freelist pa).

Definition kalloc : M kst Z :=
  r ← gets freelist;
  (if r =? 0 then mret tt else modify (λ s, set_freelist (ld64 (kmem s) r) s)) ;;
  (if r =? 0 then mret tt
   else
     modify (λ s, set_mem (memset (kmem s) r 5 PGSIZE) s) ;;
     store_ref (r / PGSIZE) 1) ;;
  mret r.

Definition krefinc (pa : Z) : M kst unit :=
  c ← load_ref (pa / PGSIZE);
  store_ref (pa / PGSIZE) (c + 1).

(** The list cannot be longer than the number of pages of RAM. *)
Definition kfreemem_fuel : nat := S (Z.to_nat (PHYSTOP / PGSIZE)).

Definition kfreemem : M kst Z :=
  r ← gets freelist;
  count ← loop kfreemem_fuel
    (λ '(r, count), s ← get;
       if r =? 0 then mret (inr count)
       else mret (inl (ld64 (kmem s) r, u64 (count + 1))))
    (r, 0);
  mret (u64 (count * PGSIZE)).

Definition freerange_fuel : nat := S (Z.to_nat (PHYSTOP / PGSIZE)).

Definition freerange (pa_start pa_end : Z) : M kst unit :=
  loop freerange_fuel
    (λ p,
       if p + PGSIZE <=? pa_end
       then
         (* Initialize reference count to 1 so kfree will actually free it *)
         store_ref (p / PGSIZE) 1 ;;
         kfree p ;;
         mret (inl (p + PGSIZE))
       else mret (inr tt))
    (PGROUNDUP pa_start).

Definition kinit : M kst unit := freerange kernel_end PHYSTOP.

(** * The contract *)

(** A page the allocator manages. *)
Definition valid_page (a : Z) : Prop :=
  a mod PGSIZE = 0 ∧ kernel_end ≤ a < PHYSTOP.

Definition refc (s : kst) (a : Z) : Z := ref_at s (a / PGSIZE).

Fixpoint fl_rep (m : memory) (p : Z) (l : list Z) : Prop :=
  match l with
  | [] => p = 0
  | a :: l' => p = a ∧ fl_rep m (ld64 m a) l'
  end.

(** The invariant for the pages that satisfy [P]; while the allocator is
    being initialised only the pages below the loop variable are covered. *)
Record kinv_on (P : Z → Prop) (s : kst) (l : list Z) : Prop := {
  kinv_list : fl_rep (kmem s) (freelist s) l;
  kinv_nodup : NoDup l;
  kinv_valid : Forall valid_page l;
  kinv_free : ∀ a, valid_page a → P a → (refc s a = 0 ↔ a ∈ l);
}.

Definition kinv : kst → list Z → Prop := kinv_on (λ _, True).

(** * Basic facts *)

Lemma valid_page_pos `{!KernelImageOk} a : valid_page a → KERNBASE < a < PHYSTOP.
Proof. intros [_ ?]. pose proof kernel_end_range. lia. Qed.

Lemma valid_page_ref_ok `{!KernelImageOk} a : valid_page a → ref_ok (a / PGSIZE) = true.
Proof.
  intros Ha. pose proof (valid_page_pos a Ha) as Hr. destruct Ha as [Hal _].
  unfold ref_ok. rewrite andb_true_iff, Z.leb_le, Z.ltb_lt.
  unfold KERNBASE in *. rewrite PHYSTOP_val in *. unfold PGSIZE in *.
  change (2281701376 / 4096) with 557056.
  split; [apply Z.div_pos; lia|]. apply Z.div_lt_upper_bound; lia.
Qed.

Lemma aligned_div_inj a b :
  a mod PGSIZE = 0 → b mod PGSIZE = 0 → a / PGSIZE = b / PGSIZE → a = b.
Proof.
  unfold PGSIZE. intros Ha Hb E.
  pose proof (Z.div_mod a 4096). pose proof (Z.div_mod b 4096). lia.
Qed.

Lemma refc_set_ref_eq a v s : refc (set_ref (a / PGSIZE) v s) a = u16 v.
Proof.
  unfold refc, ref_at, set_ref. simpl. rewrite lookup_insert_eq. simpl.
  apply u16_small, u16_range.
Qed.

Lemma refc_set_ref_ne a b v s :
  a mod PGSIZE = 0 → b mod PGSIZE = 0 → a ≠ b →
  refc (set_ref (a / PGSIZE) v s) b = refc s b.
Proof.
  intros Ha Hb Hne. unfold refc, ref_at, set_ref. simpl. rewrite lookup_insert_ne; [done|].
  intros E. by apply Hne, aligned_div_inj.
Qed.

Lemma refc_set_mem m s a : refc (set_mem m s) a = refc s a.
Proof. done. Qed.
Lemma refc_set_freelist p s a : refc (set_freelist p s) a = refc s a.
Proof. done. Qed.

Lemma refc_range s a : 0 ≤ refc s a < 65536.
Proof. apply u16_range. Qed.

Lemma fl_rep_ext m m' p l :
  (∀ a, a ∈ l → ld64 m a = ld64 m' a) → fl_rep m p l → fl_rep m' p l.
Proof.
  revert p. induction l as [|a l IH]; intros p Hext; simpl; [done|].
  intros [-> Hl]. split; [done|]. rewrite <-(Hext a) by set_solver.
  apply IH; [|done]. intros b Hb. apply Hext. set_solver.
Qed.

Lemma same_page_first m m' p : same_page m m' p → ld64 m p = ld64 m' p.
Proof.
  intros E. pose proof (same_page_ld64 m m' p 0 E ltac:(lia)) as E'.
  by rewrite Z.add_0_r in E'.
Qed.

Lemma same_page_st64_first m p q v :
  p mod PGSIZE = 0 → q mod PGSIZE = 0 → p ≠ q → same_page (st64 m q v) m p.
Proof.
  intros Hp Hq Hne. rewrite <-(Z.add_0_r q). by apply (same_page_st64 m p q 0).
Qed.

(** * kalloc *)

Lemma kalloc_nil s : kinv s [] → kalloc s = Ok (0, s).
Proof.
  intros [Hl _ _ _]. simpl in Hl. unfold kalloc. msimpl. rewrite Hl. simpl. done.
Qed.

(** The page [kalloc] hands out was free, is now referenced once and is filled
    with junk; every other page keeps its contents and its count. *)
Lemma kalloc_cons `{!KernelImageOk} s a l :
  kinv s (a :: l) →
  ∃ s', kalloc s = Ok (a, s') ∧ kinv s' l ∧ refc s' a = 1 ∧
    (∀ b, b mod PGSIZE = 0 → b ≠ a → refc s' b = refc s b) ∧
    (∀ p, p mod PGSIZE = 0 → p ≠ a → same_page (kmem s') (kmem s) p) ∧
    (∀ x, in_page a x → ld8 (kmem s') x = 5).
Proof.
  intros [Hl Hnd Hv Hf]. simpl in Hl. destruct Hl as [Hfl Hl].
  apply Forall_cons in Hv as [Ha Hv]. pose proof (valid_page_pos a Ha).
  apply NoDup_cons in Hnd as [Hnin Hnd].
  unfold kalloc. msimpl. rewrite Hfl.
  destruct (Z.eqb_spec a 0) as [->|_]; [unfold KERNBASE in *; lia|].
  msimpl. unfold store_ref. rewrite valid_page_ref_ok by done. msimpl.
  eexists. split; [reflexivity|].
  assert (∀ b, b mod PGSIZE = 0 → b ≠ a →
    same_page (memset (kmem s) a 5 PGSIZE) (kmem s) b) as Hsame.
  { intros b Hb Hne. apply same_page_memset; [done|apply Ha|done]. }
  assert (∀ b, b ∈ l → valid_page b ∧ b ≠ a) as Hin.
  { intros b Hb. split; [by eapply Forall_forall|]. intros ->. done. }
  split_and!.
  - split; simpl.
    + eapply fl_rep_ext; [|done]. intros b Hb. destruct (Hin b Hb) as [[Hbal _] Hne].
      symmetry. apply same_page_first. by apply Hsame.
    + done.
    + done.
    + intros b Hb _. destruct (decide (b = a)) as [->|Hne].
      * rewrite refc_set_ref_eq. change (u16 1) with 1. split; [done|]. intros ?. done.
      * rewrite refc_set_ref_ne by first [apply Ha|apply Hb|done].
        change (refc s b = 0 ↔ b ∈ l). rewrite Hf by done. set_solver.
  - by rewrite refc_set_ref_eq.
  - intros b Hb Hne. by rewrite refc_set_ref_ne by first [apply Ha|done].
  - intros p Hp Hne. simpl. by apply Hsame.
  - intros x Hx. simpl. rewrite ld8_memset by done. by rewrite decide_True.
Qed.

(** * kfree *)

Lemma kfree_guard `{!KernelImageOk} a :
  valid_page a →
  negb (a mod PGSIZE =? 0) || (a <? kernel_end) || (PHYSTOP <=? a) = false.
Proof.
  intros [Hal Hr]. rewrite Hal.
  rewrite !orb_false_iff, Z.ltb_ge, Z.leb_gt. simpl. lia.
Qed.

Lemma kfree_invalid a : ¬ valid_page a → ∀ s, kfree a s = Panic "kfree".
Proof.
  intros Hn s. unfold kfree.
  destruct (negb (a mod PGSIZE =? 0) || (a <? kernel_end) || (PHYSTOP <=? a)) eqn:E; [done|].
  destruct Hn. rewrite !orb_false_iff, negb_false_iff, Z.eqb_eq, Z.ltb_ge, Z.leb_gt in E.
  unfold valid_page. lia.
Qed.

(** A page with other references only loses one of them. *)
Lemma kfree_shared `{!KernelImageOk} s a :
  valid_page a → 1 < refc s a →
  kfree a s = Ok (tt, set_ref (a / PGSIZE) (refc s a - 1) s).
Proof.
  intros Ha Hc. unfold kfree. rewrite kfree_guard by done.
  unfold load_ref, store_ref. rewrite valid_page_ref_ok by done. msimpl.
  fold (refc s a). pose proof (refc_range s a).
  rewrite (u16_small (refc s a - 1)) by lia.
  destruct (Z.ltb_spec 0 (refc s a - 1)); [|lia]. done.
Qed.

Lemma kinv_set_ref s l a v :
  kinv s l → a mod PGSIZE = 0 → a ∉ l → u16 v ≠ 0 → kinv (set_ref (a / PGSIZE) v s) l.
Proof.
  intros [Hl Hnd Hv Hf] Hal Hnin Hnz. split; try done.
  intros b Hb _. destruct (decide (b = a)) as [->|Hne].
  - rewrite refc_set_ref_eq. done.
  - rewrite refc_set_ref_ne by first [done|apply Hb]. by apply Hf.
Qed.

Lemma kfree_last_on `{!KernelImageOk} P s l a :
  kinv_on P s l → valid_page a → a ∉ l → refc s a = 1 →
  ∃ s', kfree a s = Ok (tt, s') ∧ kinv_on (λ b, P b ∨ b = a) s' (a :: l) ∧
    (∀ b, b mod PGSIZE = 0 → b ≠ a → refc s' b = refc s b) ∧
    (∀ p, p mod PGSIZE = 0 → p ≠ a → same_page (kmem s') (kmem s) p).
Proof.
  intros [Hl Hnd Hv Hf] Ha Hnin Hc. unfold kfree. rewrite kfree_guard by done.
  unfold load_ref, store_ref. rewrite valid_page_ref_ok by done. msimpl.
  fold (refc s a). rewrite Hc. change (u16 (1 - 1)) with 0. simpl.
  eexists. split; [reflexivity|].
  set (m' := st64 _ _ _).
  assert (∀ b, b mod PGSIZE = 0 → b ≠ a → same_page m' (kmem s) b) as Hsame.
  { intros b Hb Hne. eapply same_page_trans.
    - apply same_page_st64_first; [done|apply Ha|done].
    - apply same_page_memset; [done|apply Ha|done]. }
  assert (0 ≤ freelist s < 2 ^ 64) as Hfr.
  { destruct l as [|b l]; simpl in Hl; [lia|]. destruct Hl as [-> _].
    apply Forall_cons in Hv as [Hb _]. apply valid_page_pos in Hb.
    rewrite PHYSTOP_val in *. unfold KERNBASE in *. lia. }
  split_and!.
  - split; simpl.
    + split; [done|]. unfold m'. rewrite ld64_st64_eq by done.
      eapply fl_rep_ext; [|done]. intros b Hb. symmetry. apply same_page_first, Hsame.
      * by eapply (Forall_forall valid_page l).
      * by intros ->.
    + by constructor.
    + by constructor.
    + intros b Hb HP. destruct (decide (b = a)) as [->|Hne].
      * split; [set_solver|]. intros _.
        change (refc (set_ref (a / PGSIZE) 0 s) a = 0). by rewrite refc_set_ref_eq.
      * change (refc (set_ref (a / PGSIZE) 0 s) b = 0 ↔ b ∈ a :: l).
        rewrite refc_set_ref_ne by first [done|apply Ha|apply Hb].
        rewrite Hf by naive_solver. set_solver.
  - intros b Hb Hne. change (refc (set_ref (a / PGSIZE) 0 s) b = refc s b).
    by rewrite refc_set_ref_ne by first [done|apply Ha].
  - done.
Qed.

Lemma kinv_notin s l a : kinv s l → valid_page a → refc s a ≠ 0 → a ∉ l.
Proof. intros [_ _ _ Hf] Ha Hc Hin. by apply Hc, Hf. Qed.

(** Dropping the last reference returns the page to the free list. *)
Lemma kfree_last `{!KernelImageOk} s l a :
  kinv s l → valid_page a → refc s a = 1 →
  ∃ s', kfree a s = Ok (tt, s') ∧ kinv s' (a :: l) ∧
    (∀ b, b mod PGSIZE = 0 → b ≠ a → refc s' b = refc s b) ∧
    (∀ p, p mod PGSIZE = 0 → p ≠ a → same_page (kmem s') (kmem s) p).
Proof.
  intros Hk Ha Hc. destruct (kfree_last_on _ s l a Hk Ha) as (s' & Hrun & Hk' & ?); [|done|].
  { eapply kinv_notin; [done..|lia]. }
  exists s'. split_and!; try naive_solver.
  destruct Hk'. split; naive_solver.
Qed.

(** A page whose count is already 0 is not returned a second time: the count
    wraps to 65535, so [kfree] takes it for a shared page. *)
Lemma kfree_zero `{!KernelImageOk} s a :
  valid_page a → refc s a = 0 → kfree a s = Ok (tt, set_ref (a / PGSIZE) 65535 s).
Proof.
  intros Ha Hc. unfold kfree. rewrite kfree_guard by done.
  unfold load_ref, store_ref. rewrite valid_page_ref_ok by done. msimpl.
  fold (refc s a). by rewrite Hc.
Qed.

(** ** krefinc *)
Lemma krefinc_ok `{!KernelImageOk} s a :
  valid_page a → krefinc a s = Ok (tt, set_ref (a / PGSIZE) (refc s a + 1) s).
Proof.
  intros Ha. unfold krefinc, load_ref, store_ref. by rewrite valid_page_ref_ok by done.
Qed.

Lemma krefinc_kinv `{!KernelImageOk} s l a :
  kinv s l → valid_page a → 0 < refc s a < 65535 →
  kinv (set_ref (a / PGSIZE) (refc s a + 1) s) l.
Proof.
  intros Hk Ha Hc. apply kinv_set_ref; [done|apply Ha| |].
  - eapply kinv_notin; [done..|lia].
  - rewrite u16_small by lia. lia.
Qed.

(** * kinit *)

(** The pages [p, p + PGSIZE, ...) below [PHYSTOP], latest first. *)
Fixpoint pages_down (p : Z) (n : nat) : list Z :=
  match n with
  | O => []
  | S n' => pages_down (p + PGSIZE) n' ++ [p]
  end.

Lemma elem_of_pages_down a p n :
  a ∈ pages_down p n ↔ ∃ k : nat, (k < n)%nat ∧ a = p + Z.of_nat k * PGSIZE.
Proof.
  revert p. induction n as [|n IH]; intros p; simpl.
  - split; [set_solver|]. intros (k & ? & _). lia.
  - rewrite elem_of_app, IH, list_elem_of_singleton. split.
    + intros [(k & Hk & ->)| ->]; [exists (S k)|exists 0%nat]; lia.
    + intros (k & Hk & ->). destruct k as [|k]; [right; lia|left]. exists k. lia.
Qed.

Lemma freerange_loop `{!KernelImageOk} n : ∀ fuel p s l,
  (n < fuel)%nat → p mod PGSIZE = 0 → kernel_end ≤ p →
  p + Z.of_nat n * PGSIZE = PHYSTOP →
  kinv_on (λ a, a < p) s l → (∀ a, a ∈ l → a < p) →
  ∃ s', loop fuel (λ p,
       if p + PGSIZE <=? PHYSTOP
       then store_ref (p / PGSIZE) 1 ;; kfree p ;; mret (inl (p + PGSIZE))
       else mret (inr tt)) p s = Ok (tt, s') ∧
    kinv_on (λ a, a < PHYSTOP) s' (pages_down p n ++ l).
Proof.
  induction n as [|n IH]; intros fuel p s l Hfuel Hal Hend Hp Hk Hlt;
    (destruct fuel as [|fuel]; [lia|]); simpl loop.
  - destruct (Z.leb_spec (p + PGSIZE) PHYSTOP); [unfold PGSIZE in *; lia|].
    exists s. split; [done|]. replace PHYSTOP with p by lia. done.
  - assert (p + PGSIZE ≤ PHYSTOP) as Hle by (unfold PGSIZE in *; lia).
    apply Z.leb_le in Hle. rewrite Hle. apply Z.leb_le in Hle.
    assert (valid_page p) as Hvp by (split; [done|]; unfold PGSIZE in *; lia).
    set (s1 := set_ref (p / PGSIZE) 1 s).
    assert (p ∉ l) as Hnin by (intros ?%Hlt; lia).
    destruct (kfree_last_on (λ a, a < p) s1 l p) as (s2 & Hrun & Hk2 & _); [|done|done| |].
    { destruct Hk as [H1 H2 H3 H4]. split; [done..|]. intros a Ha Hap.
      unfold s1. rewrite refc_set_ref_ne; [by apply H4|done|apply Ha|lia]. }
    { unfold s1. by rewrite refc_set_ref_eq. }
    destruct (IH fuel (p + PGSIZE) s2 (p :: l)) as (s' & Hrun' & Hk'); [lia|..].
    + rewrite mod_add_multiple by (unfold PGSIZE; lia || done). done.
    + unfold PGSIZE. lia.
    + unfold PGSIZE in *. lia.
    + destruct Hk2 as [H1 H2 H3 H4]. split; [done..|]. intros a Ha Hap. apply H4; [done|].
      destruct (decide (a = p)); [by right|left].
      destruct Ha as [Ha _]. unfold PGSIZE in *.
      pose proof (Z.div_mod a 4096). pose proof (Z.div_mod p 4096). lia.
    + intros a [->|Ha]%elem_of_cons; [unfold PGSIZE; lia|]. apply Hlt in Ha. unfold PGSIZE. lia.
    + exists s'. split.
      * unfold store_ref. rewrite valid_page_ref_ok by done.
        rewrite (bind_Ok_1 _ _ s (inl (p + PGSIZE)) s2); [done|].
        rewrite (bind_Ok_1 _ _ s tt s1) by done. by rewrite (bind_Ok_1 _ _ s1 tt s2).
      * simpl. by rewrite <-(assoc_L app).
Qed.

(** After [kinit] every page between the end of the kernel and the end of RAM
    is free. *)
Lemma kinit_ok `{!KernelImageOk} s :
  freelist s = 0 →
  ∃ s' l, kinit s = Ok (tt, s') ∧ kinv s' l ∧ ∀ a, a ∈ l ↔ valid_page a.
Proof.
  intros Hf. pose proof kernel_end_range as Hend. rewrite PHYSTOP_val in Hend.
  set (p := PGROUNDUP kernel_end).
  destruct (PGROUNDUP_bounds kernel_end) as [Hp1 Hp2]; [unfold KERNBASE in *; lia|lia|].
  pose proof (PGROUNDUP_aligned kernel_end) as Hal. fold p in Hp1, Hp2, Hal.
  assert (p = p / PGSIZE * PGSIZE) as Hdiv by (pose proof (Z.div_mod p PGSIZE ltac:(done)); lia).
  set (n := Z.to_nat (557056 - p / PGSIZE)).
  assert (p + Z.of_nat n * PGSIZE = PHYSTOP) as Hn
    by (rewrite PHYSTOP_val; subst n; unfold PGSIZE, KERNBASE in *; lia).
  assert (∀ a, valid_page a → p ≤ a) as Hlow.
  { intros a [Ha [Ha' _]]. pose proof (Z.div_mod a PGSIZE ltac:(done)). unfold PGSIZE in *. lia. }
  destruct (freerange_loop n freerange_fuel p s []) as (s' & Hrun & Hk); try done.
  - unfold freerange_fuel. change (PHYSTOP / PGSIZE) with 557056. subst n.
    unfold PGSIZE, KERNBASE in *. lia.
  - split; [done|constructor|constructor|]. intros a Ha Hlt. pose proof (Hlow a Ha). lia.
  - by intros a ?%elem_of_nil.
  - rewrite app_nil_r in Hk. exists s', (pages_down p n). split; [done|]. split.
    + destruct Hk as [H1 H2 H3 H4]. split; [done..|]. intros a Ha _. apply H4; [done|apply Ha].
    + intros a. split.
      * intros Ha. destruct Hk as [_ _ H3 _]. rewrite Forall_forall in H3. by apply H3.
      * intros Ha. pose proof (Hlow a Ha) as Hpa. destruct Ha as [Ha [_ Hs]].
        pose proof (Z.div_mod a PGSIZE ltac:(done)) as Ea. rewrite PHYSTOP_val in Hs.
        apply elem_of_pages_down. exists (Z.to_nat (a / PGSIZE - p / PGSIZE)).
        subst n. unfold PGSIZE, KERNBASE in *. lia.
Qed.

(** ** kfreemem *)
Lemma kfreemem_loop s l : ∀ fuel p c,
  (length l < fuel)%nat → fl_rep (kmem s) p l → Forall (λ a, a ≠ 0) l →
  0 ≤ c → c + Z.of_nat (length l) < 2 ^ 64 →
  loop fuel (λ '(r, count), s ← get;
       if r =? 0 then mret (inr count)
       else mret (inl (ld64 (kmem s) r, u64 (count + 1)))) (p, c) s
  = Ok (c + Z.of_nat (length l), s).
Proof.
  induction l as [|a l IH]; intros fuel p c Hfuel Hl Hnz Hc Hb;
    (destruct fuel as [|fuel]; [simpl in *; lia|]); simpl loop.
  - simpl in Hl. subst p. msimpl. simpl. do 2 f_equal. lia.
  - simpl in Hl. destruct Hl as [-> Hl]. apply Forall_cons in Hnz as [Ha Hnz].
    simpl length in *. msimpl. destruct (Z.eqb_spec a 0) as [|_]; [done|].
    rewrite u64_small by lia. rewrite IH by (done || lia). do 2 f_equal. lia.
Qed.

Lemma kinv_length `{!KernelImageOk} s l :
  kinv s l → (length l ≤ Z.to_nat (PHYSTOP / PGSIZE))%nat.
Proof.
  intros [_ Hnd Hv _].
  rewrite <-(length_zseq 0), <-(length_fmap (λ a, a / PGSIZE)).
  apply submseteq_length, NoDup_submseteq.
  - apply NoDup_fmap_2_strong; [|done]. intros a b Ha Hb.
    rewrite Forall_forall in Hv. apply aligned_div_inj; by apply Hv.
  - intros x (a & -> & Ha)%list_elem_of_fmap. rewrite Forall_forall in Hv.
    specialize (Hv a Ha). apply valid_page_ref_ok in Hv. unfold ref_ok in Hv.
    rewrite andb_true_iff, Z.leb_le, Z.ltb_lt in Hv. apply elem_of_zseq. lia.
Qed.

Lemma kfreemem_ok `{!KernelImageOk} s l :
  kinv s l → kfreemem s = Ok (Z.of_nat (length l) * PGSIZE, s).
Proof.
  intros Hk. pose proof (kinv_length s l Hk) as Hlen. destruct Hk as [Hl _ Hv _].
  assert (Z.of_nat (length l) ≤ 557056) as Hlen'.
  { change (PHYSTOP / PGSIZE) with 557056 in Hlen. lia. }
  unfold kfreemem. rewrite (bind_Ok_1 _ _ s (freelist s) s) by done.
  rewrite (bind_Ok_1 _ _ s (0 + Z.of_nat (length l)) s).
  - msimpl. rewrite u64_small by (unfold PGSIZE; lia). by rewrite Z.add_0_l.
  - apply kfreemem_loop; [|done| |lia..].
    + unfold kfreemem_fuel. lia.
    + eapply Forall_impl; [done|]. intros a Ha%valid_page_pos. unfold KERNBASE in *. lia.
Qed.
End kalloc.
