(* ===== verification/KallocSpec.v ===== *)
(** The specification of the page allocator [kernel/kalloc.c].

    The module [Machine] instantiates the linker-provided addresses with a
    machine that has twelve pages of free memory; the theorems of this file and
    of {!VmSpec} are exercised on it. *)

From S2P Require Import Prelude Riscv Mem Str Kalloc.

Section spec.
Context `{KernelImage} `{!KernelImageOk}.

(** after [kinit] the allocator's invariant holds and the free list is
    exactly the set of pages between the end of the kernel and the end of
    physical memory. *)
Theorem kinit_frees_all s :
  freelist s = 0 →
  ∃ s' l, kinit s = Ok (tt, s') ∧ kinv s' l ∧ ∀ a, a ∈ l ↔ valid_page a.
Proof. apply kinit_ok. Qed.

(** C31: [kalloc] returns null, changing nothing, when no page is free;
    otherwise it takes a page off the free list, which then has one reference
    and no other page's contents or count has changed. *)
Theorem kalloc_takes_free s l :
  kinv s l →
  match l with
  | [] => kalloc s = Ok (0, s)
  | a :: l' =>
      ∃ s', kalloc s = Ok (a, s') ∧ valid_page a ∧ refc s a = 0 ∧ refc s' a = 1 ∧ kinv s' l' ∧
        (∀ b, b mod PGSIZE = 0 → b ≠ a →
           refc s' b = refc s b ∧ same_page (kmem s') (kmem s) b)
  end.
Proof.
  intros Hk. destruct l as [|a l]; [by apply kalloc_nil|].
  destruct (kalloc_cons s a l Hk) as (s' & Hrun & Hk' & Hc & Hc' & Hm & _).
  pose proof Hk as [_ _ Hv Hf]. apply Forall_cons in Hv as [Ha _].
  exists s'. split; [done|]. split; [done|]. split; [apply Hf; [done|done|by left]|].
  split; [done|]. split; [done|]. intros b Hb Hne. split; [by apply Hc'|by apply Hm].
Qed.

(** C32: [kfree] on every branch: it panics exactly on addresses that are not
    pages of free memory; a page with several references loses one and keeps
    its contents; the last reference returns the page to the free list; and a
    page that is already free is not put on the list twice: its counter wraps
    around to 65535. *)
Theorem kfree_drops_reference s l a :
  kinv s l →
  (¬ valid_page a → kfree a s = Panic "kfree") ∧
  (valid_page a → 2 ≤ refc s a →
     ∃ s', kfree a s = Ok (tt, s') ∧ kinv s' l ∧ kmem s' = kmem s ∧
       refc s' a = refc s a - 1 ∧ (∀ b, b mod PGSIZE = 0 → b ≠ a → refc s' b = refc s b)) ∧
  (valid_page a → refc s a = 1 →
     ∃ s', kfree a s = Ok (tt, s') ∧ kinv s' (a :: l) ∧ refc s' a = 0 ∧
       (∀ b, b mod PGSIZE = 0 → b ≠ a →
          refc s' b = refc s b ∧ same_page (kmem s') (kmem s) b)) ∧
  (valid_page a → refc s a = 0 →
     ∃ s', kfree a s = Ok (tt, s') ∧ refc s' a = 65535 ∧ kmem s' = kmem s ∧
       freelist s' = freelist s).
Proof.
  intros Hk. split; [intros Ha; by apply kfree_invalid|]. split; [|split].
  - intros Ha Hc. pose proof (refc_range s a) as Hr. eexists. rewrite kfree_shared by (done || lia).
    split; [done|]. split; [|split; [done|split]].
    + apply kinv_set_ref; [done|apply Ha|eapply kinv_notin; [done..|lia]|].
      rewrite u16_small by lia. lia.
    + rewrite refc_set_ref_eq. apply u16_small. lia.
    + intros b Hb Hne. apply refc_set_ref_ne; [apply Ha|done|done].
  - intros Ha Hc. destruct (kfree_last s l a Hk Ha Hc) as (s' & Hrun & Hk' & Hc' & Hm).
    exists s'. split; [done|]. split; [done|]. split; [apply (kinv_free _ _ _ Hk'); [done|done|by left]|].
    intros b Hb Hne. split; [by apply Hc'|by apply Hm].
  - intros Ha Hc. eexists. rewrite kfree_zero by done. split; [done|].
    split; [by rewrite refc_set_ref_eq|done].
Qed.

(** [kfreemem] reports the number of free bytes, and terminates. *)
Lemma kfreemem_counts s l : kinv s l → kfreemem s = Ok (Z.of_nat (length l) * PGSIZE, s).
Proof. apply kfreemem_ok. Qed.
End spec.

(** ** A small machine *)
Module Machine.
#[export] Instance image : KernelImage := {|
  kernel_end := PHYSTOP - 12 * PGSIZE;
  kernel_etext := KERNBASE + 7 * PGSIZE;
  kernel_trampoline := KERNBASE + 6 * PGSIZE;
|}.

#[export] Instance image_ok : KernelImageOk.
Proof. split; by vm_compute. Qed.

Definition boot : kst := KState ∅ 0 ∅.

(** A state with two free pages, linked through memory; the others are in use. *)
Definition page_a : Z := PHYSTOP - 12 * PGSIZE.
Definition page_b : Z := PHYSTOP - 11 * PGSIZE.
Definition used_pages : list Z := (λ i, PHYSTOP - i * PGSIZE) <$> zseq 1 10.
Definition two_free : kst :=
  KState (st64 ∅ page_a page_b) page_a
    (foldr (λ p, <[p / PGSIZE := 1]>) ∅ used_pages).

Lemma valid_page_cases a :
  valid_page a → a = page_a ∨ a = page_b ∨ a ∈ used_pages.
Proof.
  intros [Ha [Hlo Hhi]]. unfold page_a, page_b, used_pages.
  change kernel_end with (PHYSTOP - 12 * PGSIZE) in Hlo. rewrite PHYSTOP_val in *.
  pose proof (Z.div_mod a PGSIZE ltac:(done)) as E. rewrite Ha in E.
  assert (557044 ≤ a / PGSIZE < 557056) as Hr by (unfold PGSIZE in *; lia).
  destruct (decide (a / PGSIZE = 557044)); [left; unfold PGSIZE in *; lia|].
  destruct (decide (a / PGSIZE = 557045)); [right; left; unfold PGSIZE in *; lia|].
  right. right. apply list_elem_of_fmap. exists (557056 - a / PGSIZE).
  split; [unfold PGSIZE in *; lia|]. apply elem_of_zseq. lia.
Qed.

Lemma two_free_refc a : a ∈ used_pages → refc two_free a = 1.
Proof.
  intros Ha. apply (proj1 (Forall_forall (λ a, refc two_free a = 1) used_pages)); [|done].
  repeat constructor.
Qed.

Lemma two_free_kinv : kinv two_free [page_a; page_b].
Proof.
  split.
  - vm_compute. done.
  - apply NoDup_cons. split; [|apply NoDup_singleton]. rewrite list_elem_of_singleton. by vm_compute.
  - repeat constructor; by vm_compute.
  - intros a Ha _. destruct (valid_page_cases a Ha) as [->|[->|Hu]].
    + split; [by left|by vm_compute].
    + split; [intros _; right; by left|by vm_compute].
    + rewrite (two_free_refc a Hu). split; [done|]. intros Hin. exfalso.
      assert (refc two_free a = 0) as E; [|by rewrite (two_free_refc a Hu) in E].
      apply elem_of_cons in Hin as [->|Hin]; [by vm_compute|].
      apply list_elem_of_singleton in Hin as ->. by vm_compute.
Qed.

(** ** The theorems on this machine *)
Lemma kinit_frees_all_witness :
  ∃ s l, kinit boot = Ok (tt, s) ∧ kinv s l ∧ page_a ∈ l.
Proof.
  destruct (kinit_frees_all boot eq_refl) as (s & l & Hrun & Hk & Hl).
  exists s, l. split; [exact Hrun|]. split; [exact Hk|]. apply Hl. split; by vm_compute.
Defined.

Lemma kalloc_takes_free_witness :
  ∃ s, kalloc two_free = Ok (page_a, s) ∧ refc s page_a = 1 ∧ kinv s [page_b].
Proof.
  destruct (kalloc_takes_free two_free [page_a; page_b] two_free_kinv)
    as (s & Hrun & _ & _ & Hc & Hk & _).
  exists s. split; [exact Hrun|]. split; [exact Hc|exact Hk].
Defined.

Lemma kfree_drops_reference_witness :
  kfree 0 two_free = Panic "kfree" ∧
  ∃ s, kfree (PHYSTOP - PGSIZE) two_free = Ok (tt, s) ∧
    kinv s [PHYSTOP - PGSIZE; page_a; page_b].
Proof.
  split.
  - apply (kfree_drops_reference two_free [page_a; page_b] 0 two_free_kinv).
    intros [_ [Hlo _]]. by vm_compute in Hlo.
  - destruct (kfree_drops_reference two_free [page_a; page_b] (PHYSTOP - PGSIZE) two_free_kinv)
      as (_ & _ & Hlast & _).
    destruct Hlast as (s & Hrun & Hk & _); [split; by vm_compute|by vm_compute|].
    exists s. split; [exact Hrun|exact Hk].
Defined.

Lemma kfreemem_counts_witness : kfreemem two_free = Ok (8192, two_free).
Proof. exact (kfreemem_counts two_free [page_a; page_b] two_free_kinv). Defined.
End Machine.
