(* ===== verification/Vm.v ===== *)
(** [kernel/vm.c]: page tables, user memory, copy-on-write.

    A page table is the physical address of its root page and lives in the
    memory of {!Kalloc.kst}; a [pte_t *] is the address of an entry, 0 the null
    pointer.  Kernel buffers ([char *src], [char *dst]) are the lists of their
    bytes.  The current process, which [vmfault] reads through [myproc()], is
    passed in as its [sz] and [pagetable] fields.  [sfence_vma] has no
    counterpart: the MMU is taken to see the entries in memory. *)

From S2P Require Import Prelude Riscv Mem Str Kalloc.

Definition load64 (a : Z) : M kst Z := gets (λ s, ld64 (kmem s) a).
Definition store64 (a v : Z) : M kst unit := modify (λ s, set_mem (st64 (kmem s) a v) s).
Definition memzero (a : Z) : M kst unit :=
  modify (λ s, set_mem (memset (kmem s) a 0 PGSIZE) s).

(** [*pte & flag] as a C condition. *)
Definition flag_set (pte flag : Z) : bool := negb (Z.land pte flag =? 0).

Section vm.
Context `{KernelImage}.

(** ** walk *)
Fixpoint walk_loop (levels : list Z) (pagetable va : Z) (alloc : bool) : M kst Z :=
  match levels with
  | [] => mret (pagetable + 8 * PX 0 va)
  | level :: levels' =>
      let pte := pagetable + 8 * PX level va in
      v ← load64 pte;
      if flag_set v PTE_V then walk_loop levels' (PTE2PA v) va alloc
      else if negb alloc then mret 0
      else
        page ← kalloc;
        if page =? 0 then mret 0
        else
          memzero page ;;
          store64 pte (Z.lor (PA2PTE page) PTE_V) ;;
          walk_loop levels' page va alloc
  end.

Definition walk (pagetable va : Z) (alloc : bool) : M kst Z :=
  if MAXVA <=? va then panic "walk" else walk_loop [2; 1] pagetable va alloc.

Definition walkaddr (pagetable va : Z) : M kst Z :=
  if MAXVA <=? va then mret 0
  else
    pte ← walk pagetable va false;
    if pte =? 0 then mret 0
    else
      v ← load64 pte;
      if negb (flag_set v PTE_V) then mret 0
      else if negb (flag_set v PTE_U) then mret 0
      else mret (PTE2PA v).

(** ** mappages *)
Definition mappages_body (pagetable last perm : Z) : Z * Z → M kst ((Z * Z) + Z) :=
  λ '(a, pa),
    pte ← walk pagetable a true;
    if pte =? 0 then mret (inr (-1))
    else
      v ← load64 pte;
      if flag_set v PTE_V then panic "mappages: remap"
      else
        store64 pte (Z.lor (Z.lor (PA2PTE pa) perm) PTE_V) ;;
        if a =? last then mret (inr 0)
        else mret (inl (u64 (a + PGSIZE), u64 (pa + PGSIZE))).

Definition mappages (pagetable va size pa perm : Z) : M kst Z :=
  if negb (va mod PGSIZE =? 0) then panic "mappages: va not aligned"
  else if negb (size mod PGSIZE =? 0) then panic "mappages: size not aligned"
  else if size =? 0 then panic "mappages: size"
  else
    let last := u64 (va + size - PGSIZE) in
    loop (Z.to_nat (size / PGSIZE)) (mappages_body pagetable last perm) (va, pa).

Definition kvmmap (kpgtbl va pa sz perm : Z) : M kst unit :=
  r ← mappages kpgtbl va sz pa perm;
  if negb (r =? 0) then panic "kvmmap" else mret tt.

(** ** uvmcreate, uvmunmap *)
Definition uvmcreate : M kst Z :=
  pagetable ← kalloc;
  if pagetable =? 0 then mret 0
  else memzero pagetable ;; mret pagetable.

Definition uvmunmap_body (pagetable bound : Z) (do_free : bool) (a : Z) : M kst (Z + unit) :=
  if a <? bound then
    pte ← walk pagetable a false;
    if pte =? 0 then mret (inl (u64 (a + PGSIZE)))
    else
      v ← load64 pte;
      if negb (flag_set v PTE_V) then mret (inl (u64 (a + PGSIZE)))
      else
        (if do_free then kfree (PTE2PA v) else mret tt) ;;
        store64 pte 0 ;;
        mret (inl (u64 (a + PGSIZE)))
  else mret (inr tt).

Definition uvmunmap (pagetable va npages : Z) (do_free : bool) : M kst unit :=
  if negb (va mod PGSIZE =? 0) then panic "uvmunmap: not aligned"
  else
    loop (S (Z.to_nat npages))
      (uvmunmap_body pagetable (u64 (va + u64 (npages * PGSIZE))) do_free) va.

(** ** uvmdealloc, uvmalloc *)
Definition uvmdealloc (pagetable oldsz newsz : Z) : M kst Z :=
  if oldsz <=? newsz then mret oldsz
  else
    (if PGROUNDUP newsz <? PGROUNDUP oldsz then
       let npages := i32 (u64 (PGROUNDUP oldsz - PGROUNDUP newsz) / PGSIZE) in
       uvmunmap pagetable (PGROUNDUP newsz) (u64 npages) true
     else mret tt) ;;
    mret newsz.

Definition uvmalloc_body (pagetable oldsz newsz xperm : Z) (a : Z) : M kst (Z + Z) :=
  if a <? newsz then
    mem ← kalloc;
    if mem =? 0 then
      uvmdealloc pagetable a oldsz ;;
      mret (inr 0)
    else
      memzero mem ;;
      r ← mappages pagetable a PGSIZE mem (Z.lor (Z.lor PTE_R PTE_U) xperm);
      if negb (r =? 0) then
        kfree mem ;;
        uvmdealloc pagetable a oldsz ;;
        mret (inr 0)
      else mret (inl (u64 (a + PGSIZE)))
  else mret (inr newsz).

Definition uvmalloc (pagetable oldsz newsz xperm : Z) : M kst Z :=
  if newsz <? oldsz then mret oldsz
  else
    let oldsz := PGROUNDUP oldsz in
    loop (S (Z.to_nat ((newsz - oldsz + PGSIZE - 1) / PGSIZE)))
      (uvmalloc_body pagetable oldsz newsz xperm) oldsz.

(** ** freewalk, uvmfree: Sv39 tables are three levels deep *)
Fixpoint freewalk (depth : nat) (pagetable : Z) : M kst unit :=
  match depth with
  | O => nofuel
  | S d =>
      foreach (zseq 0 512)
        (λ i,
           pte ← load64 (pagetable + 8 * i);
           if flag_set pte PTE_V && (Z.land pte (Z.lor (Z.lor PTE_R PTE_W) PTE_X) =? 0)
           then
             freewalk d (PTE2PA pte) ;;
             store64 (pagetable + 8 * i) 0
           else if flag_set pte PTE_V then panic "freewalk: leaf"
           else mret tt) ;;
      kfree pagetable
  end.

Definition uvmfree (pagetable sz : Z) : M kst unit :=
  (if 0 <? sz then uvmunmap pagetable 0 (PGROUNDUP sz / PGSIZE) true else mret tt) ;;
  freewalk 3 pagetable.

(** ** uvmcopy: fork shares the pages copy-on-write *)

(** The flags given to both sides of a shared page. *)
Definition cow_flags (flags : Z) : Z :=
  if flag_set flags PTE_W then Z.lor (Z.land flags (Z.lnot PTE_W)) PTE_COW else flags.

Definition uvmcopy_body (old new sz : Z) (i : Z) : M kst (Z + Z) :=
  if i <? sz then
    pte ← walk old i false;
    if pte =? 0 then mret (inl (u64 (i + PGSIZE)))
    else
      v ← load64 pte;
      if negb (flag_set v PTE_V) then mret (inl (u64 (i + PGSIZE)))
      else
        let pa := PTE2PA v in
        let flags := PTE_FLAGS v in
        (if flag_set flags PTE_W
         then store64 pte (Z.lor (Z.land v (Z.lnot PTE_W)) PTE_COW)
         else mret tt) ;;
        r ← mappages new i PGSIZE pa (cow_flags flags);
        if negb (r =? 0) then
          uvmunmap new 0 (i / PGSIZE) true ;;
          mret (inr (-1))
        else
          krefinc pa ;;
          mret (inl (u64 (i + PGSIZE)))
  else mret (inr 0).

Definition uvmcopy (old new sz : Z) : M kst Z :=
  loop (S (Z.to_nat ((sz + PGSIZE - 1) / PGSIZE))) (uvmcopy_body old new sz) 0.

Definition uvmclear (pagetable va : Z) : M kst unit :=
  pte ← walk pagetable va false;
  if pte =? 0 then panic "uvmclear"
  else
    v ← load64 pte;
    store64 pte (Z.land v (Z.lnot PTE_U)).

(** ** cowalloc *)
Definition cowalloc (pagetable va : Z) : M kst Z :=
  if MAXVA <=? va then mret (-1)
  else
    pte ← walk pagetable va false;
    if pte =? 0 then mret (-1)
    else
      v ← load64 pte;
      if negb (flag_set v PTE_V) then mret (-1)
      else if negb (flag_set v PTE_U) then mret (-1)
      (* If it's already writable, nothing to do (not CoW) *)
      else if flag_set v PTE_W then mret 0
      (* If NOT writable and NOT CoW, it's a true Read-Only page (segfault) *)
      else if negb (flag_set v PTE_COW) then mret (-1)
      else
        let pa := PTE2PA v in
        let flags := PTE_FLAGS v in
        mem ← kalloc;
        if mem =? 0 then mret (-1)
        else
          modify (λ s, set_mem (memmove (kmem s) mem pa PGSIZE) s) ;;
          let flags := Z.land (Z.lor flags PTE_W) (Z.lnot PTE_COW) in
          store64 pte (Z.lor (PA2PTE mem) flags) ;;
          kfree pa ;;
          mret 0.

(** ** vmfault *)
Definition ismapped (pagetable va : Z) : M kst bool :=
  pte ← walk pagetable va false;
  if pte =? 0 then mret false
  else
    v ← load64 pte;
    mret (flag_set v PTE_V).

(** [p_sz] and [p_pagetable] are [myproc()->sz] and [myproc()->pagetable]. *)
Definition vmfault (p_sz p_pagetable pagetable va : Z) : M kst Z :=
  if p_sz <=? va then mret 0
  else
    let va := PGROUNDDOWN va in
    mapped ← ismapped pagetable va;
    if mapped : bool then mret 0
    else
      mem ← kalloc;
      if mem =? 0 then mret 0
      else
        memzero mem ;;
        r ← mappages p_pagetable va PGSIZE mem (Z.lor (Z.lor PTE_W PTE_U) PTE_R);
        if negb (r =? 0) then kfree mem ;; mret 0
        else mret mem.

(** ** copyout, copyin, copyinstr *)

(** Number of pages a transfer of [len] bytes can touch. *)
Definition copy_fuel (len : Z) : nat := S (S (Z.to_nat (len / PGSIZE + 1))).

Definition copyout_body (p_sz p_pagetable pagetable : Z) :
    Z * list Z → M kst ((Z * list Z) + Z) :=
  λ '(dstva, src),
    let len := Z.of_nat (length src) in
    if 0 <? len then
      let va0 := PGROUNDDOWN dstva in
      if MAXVA <=? va0 then mret (inr (-1))
      else
        pa0 ← walkaddr pagetable va0;
        pa0 ← (if pa0 =? 0 then vmfault p_sz p_pagetable pagetable va0 else mret pa0);
        if pa0 =? 0 then mret (inr (-1))
        else
          pte ← walk pagetable va0 false;
          if pte =? 0 then ub
          else
            v ← load64 pte;
            (* Handle CoW page fault *)
            r ← (if negb (flag_set v PTE_W) then
                   if flag_set v PTE_COW then cowalloc pagetable va0
                   else (* True Read-Only page *) mret (-1)
                 else mret 0);
            if r <? 0 then mret (inr (-1))
            else
              (* Re-lookup pa0 in case cowalloc remapped the page *)
              pa0 ← walkaddr pagetable va0;
              if pa0 =? 0 then mret (inr (-1))
              else
                let n := Z.min (PGSIZE - (dstva - va0)) len in
                modify (λ s, set_mem (stbytes (kmem s) (pa0 + (dstva - va0))
                                              (take (Z.to_nat n) src)) s) ;;
                mret (inl (u64 (va0 + PGSIZE), drop (Z.to_nat n) src))
    else mret (inr 0).

Definition copyout (p_sz p_pagetable pagetable dstva : Z) (src : list Z) : M kst Z :=
  loop (copy_fuel (Z.of_nat (length src))) (copyout_body p_sz p_pagetable pagetable)
    (dstva, src).

(** The bytes read so far are the contents of the destination buffer. *)
Definition copyin_body (p_sz p_pagetable pagetable : Z) :
    Z * Z * list Z → M kst ((Z * Z * list Z) + (Z * list Z)) :=
  λ '(srcva, len, dst),
    if 0 <? len then
      let va0 := PGROUNDDOWN srcva in
      pa0 ← walkaddr pagetable va0;
      pa0 ← (if pa0 =? 0 then vmfault p_sz p_pagetable pagetable va0 else mret pa0);
      if pa0 =? 0 then mret (inr (-1, dst))
      else
        let n := Z.min (PGSIZE - (srcva - va0)) len in
        data ← gets (λ s, ldbytes (kmem s) (pa0 + (srcva - va0)) (Z.to_nat n));
        mret (inl (u64 (va0 + PGSIZE), len - n, dst ++ data))
    else mret (inr (0, dst)).

Definition copyin (p_sz p_pagetable pagetable srcva len : Z) : M kst (Z * list Z) :=
  loop (copy_fuel len) (copyin_body p_sz p_pagetable pagetable) (srcva, len, []).

(** The bytes of [p[0..n)] up to and including the first NUL. *)
Fixpoint until_nul (l : list Z) : list Z * bool :=
  match l with
  | [] => ([], false)
  | c :: l' =>
      if c =? 0 then ([0], true)
      else let '(l'', b) := until_nul l' in (c :: l'', b)
  end.

Definition copyinstr_body (pagetable : Z) :
    Z * Z * list Z * bool → M kst ((Z * Z * list Z * bool) + (Z * list Z)) :=
  λ '(srcva, max, dst, got_null),
    if negb got_null && (0 <? max) then
      let va0 := PGROUNDDOWN srcva in
      pa0 ← walkaddr pagetable va0;
      if pa0 =? 0 then mret (inr (-1, dst))
      else
        let n := Z.min (PGSIZE - (srcva - va0)) max in
        data ← gets (λ s, ldbytes (kmem s) (pa0 + (srcva - va0)) (Z.to_nat n));
        let '(str, got_null) := until_nul data in
        mret (inl (u64 (va0 + PGSIZE), max - n, dst ++ str, got_null))
    else mret (inr (if got_null : bool then (0, dst) else (-1, dst))).

Definition copyinstr (pagetable srcva max : Z) : M kst (Z * list Z) :=
  loop (copy_fuel max) (copyinstr_body pagetable) (srcva, max, [], false).

(** ** The kernel's own page table *)
Definition proc_mapstacks (kpgtbl : Z) : M kst unit :=
  foreach (zseq 0 (Z.to_nat NPROC))
    (λ p,
       pa ← kalloc;
       if pa =? 0 then panic "kalloc"
       else kvmmap kpgtbl (KSTACK p) pa PGSIZE (Z.lor PTE_R PTE_W)).

Definition kvmmake : M kst Z :=
  kpgtbl ← kalloc;
  (if kpgtbl =? 0 then ub else memzero kpgtbl) ;;
  kvmmap kpgtbl UART0 UART0 PGSIZE (Z.lor PTE_R PTE_W) ;;
  kvmmap kpgtbl VIRTIO0 VIRTIO0 PGSIZE (Z.lor PTE_R PTE_W) ;;
  kvmmap kpgtbl PLIC PLIC 0x4000000 (Z.lor PTE_R PTE_W) ;;
  kvmmap kpgtbl KERNBASE KERNBASE (kernel_etext - KERNBASE) (Z.lor PTE_R PTE_X) ;;
  kvmmap kpgtbl kernel_etext kernel_etext (PHYSTOP - kernel_etext) (Z.lor PTE_R PTE_W) ;;
  kvmmap kpgtbl TRAMPOLINE kernel_trampoline PGSIZE (Z.lor PTE_R PTE_X) ;;
  proc_mapstacks kpgtbl ;;
  mret kpgtbl.
End vm.
