(* ===== verification/VmTree.v ===== *)
(** Page tables as trees: the abstraction behind [kernel/vm.c].

    A page table is represented by the finite map from index paths to the
    page-table pages they lead to: the root at [[]], the level-1 pages at
    [[i]], the level-0 pages at [[i; j]].  [pt_rep m t] says that the bytes in
    memory encode [t]; [pte_of m t va] is the entry a virtual address selects.
    The lemmas give the effect of [walk] and of the stores into leaf entries on
    this abstraction. *)

From S2P Require Import Prelude Riscv Mem Str Kalloc Vm.

Abbreviation ptree := (gmap (list Z) Z).

Section tree.
Context `{KernelImage}.

Record pt_rep (m : memory) (t : ptree) : Prop := {
  pt_inj : ∀ x y p, t !! x = Some p → t !! y = Some p → x = y;
  pt_valid : ∀ x p, t !! x = Some p → valid_page p;
  pt_depth : ∀ x p, t !! x = Some p → (length x ≤ 2)%nat;
  pt_link : ∀ x p i, t !! x = Some p → (length x < 2)%nat → 0 ≤ i < 512 →
    match t !! (x ++ [i]) with
    | Some q => ld64 m (p + 8 * i) = Z.lor (PA2PTE q) PTE_V
    | None => flag_set (ld64 m (p + 8 * i)) PTE_V = false
    end;
  pt_closed : ∀ x i, is_Some (t !! (x ++ [i])) → is_Some (t !! x);
}.

(** The entry a virtual address selects: its address and its value. *)
Definition pt_slot (t : ptree) (va : Z) : option Z :=
  (λ p, p + 8 * PX 0 va) <$> t !! [PX 2 va; PX 1 va].
Definition pte_of (m : memory) (t : ptree) (va : Z) : Z :=
  match pt_slot t va with Some a => ld64 m a | None => 0 end.

(** A page of the tree. *)
Definition pt_page (t : ptree) (p : Z) : Prop := ∃ x, t !! x = Some p.

Lemma flag_set_PTE_V q : valid_page q → flag_set (Z.lor (PA2PTE q) PTE_V) PTE_V = true.
Proof.
  intros Hq. unfold flag_set. rewrite negb_true_iff, Z.eqb_neq. intros E.
  assert (Z.testbit (Z.land (Z.lor (PA2PTE q) PTE_V) PTE_V) 0 = true) as E'.
  { rewrite Z.land_spec, Z.lor_spec. by rewrite orb_true_r. }
  by rewrite E in E'.
Qed.

Lemma valid_page_pa `{!KernelImageOk} q : valid_page q → 0 ≤ q < 2 ^ 56.
Proof.
  intros Hq%valid_page_pos. rewrite PHYSTOP_val in *. unfold KERNBASE in *. lia.
Qed.

Lemma PTE2PA_link `{!KernelImageOk} q :
  valid_page q → PTE2PA (Z.lor (PA2PTE q) PTE_V) = q.
Proof.
  intros Hq. apply PTE2PA_lor; [by apply valid_page_pa|apply Hq|].
  change PTE_V with 1. lia.
Qed.

Lemma pt_slot_in_page t va a :
  pt_slot t va = Some a →
  ∃ p, t !! [PX 2 va; PX 1 va] = Some p ∧ a = p + 8 * PX 0 va ∧ 0 ≤ PX 0 va < 512.
Proof.
  unfold pt_slot. intros (p & Hp & ->)%fmap_Some.
  exists p. split_and!; [done|done|apply PX_range; lia..].
Qed.

Lemma pt_slot_nonzero `{!KernelImageOk} m t va a :
  pt_rep m t → pt_slot t va = Some a → a ≠ 0.
Proof.
  intros Hr (p & Hp & -> & Hi)%pt_slot_in_page. apply (pt_valid _ _ Hr) in Hp.
  apply valid_page_pos in Hp. unfold KERNBASE in *. lia.
Qed.

(** ** Frames *)

Lemma pt_rep_frame m m' t :
  (∀ p, pt_page t p → same_page m m' p) → pt_rep m t → pt_rep m' t.
Proof.
  intros Hs [H1 H2 H3 H4 H5]. split; try done.
  intros x p i Hx Hlen Hi. specialize (H4 x p i Hx Hlen Hi).
  rewrite <-(same_page_ld64 m m' p i); [done|apply Hs; by exists x|done].
Qed.

Lemma pte_of_frame m m' t va :
  (∀ p, pt_page t p → same_page m m' p) → pte_of m t va = pte_of m' t va.
Proof.
  intros Hs. unfold pte_of. destruct (pt_slot t va) as [a|] eqn:E; [|done].
  apply pt_slot_in_page in E as (p & Hp & -> & Hi).
  apply same_page_ld64; [apply Hs; by eexists|done].
Qed.

(** ** Storing into a leaf entry *)

Lemma pt_rep_store_leaf m t va a v :
  pt_rep m t → pt_slot t va = Some a → pt_rep (st64 m a v) t.
Proof.
  intros Hr Ha. destruct (pt_slot_in_page _ _ _ Ha) as (p0 & Hp0 & -> & Hi0).
  pose proof Hr as [H1 H2 H3 H4 H5]. split; try done.
  intros x p i Hx Hlen Hi. specialize (H4 x p i Hx Hlen Hi).
  assert (p ≠ p0) as Hne.
  { intros ->. pose proof (H1 _ _ _ Hx Hp0) as ->. simpl in Hlen. lia. }
  rewrite (same_page_ld64 _ m p i); [done| |done].
  apply same_page_st64; [by eapply H2|by eapply H2|done|done].
Qed.

Lemma pte_of_store_leaf m t va a v va' :
  pt_rep m t → pt_slot t va = Some a → 0 ≤ v < 2 ^ 64 →
  0 ≤ va < MAXVA → 0 ≤ va' < MAXVA →
  pte_of (st64 m a v) t va' =
    if decide (va' / PGSIZE = va / PGSIZE) then v else pte_of m t va'.
Proof.
  intros Hr Ha Hv Hva Hva'. unfold pte_of.
  destruct (pt_slot_in_page _ _ _ Ha) as (p0 & Hp0 & -> & Hi0).
  case_decide as E.
  - assert (pt_slot t va' = Some (p0 + 8 * PX 0 va)) as ->.
    { rewrite <-Ha. unfold pt_slot. by rewrite !(PX_page _ va' va) by lia. }
    by apply ld64_st64_eq.
  - destruct (pt_slot t va') as [a'|] eqn:Ha'; [|done].
    destruct (pt_slot_in_page _ _ _ Ha') as (p' & Hp' & -> & Hi').
    destruct (decide (p' = p0)) as [->|Hne].
    + apply ld64_st64_ne.
      assert (PX 0 va' ≠ PX 0 va); [|lia]. intros E0. apply E.
      pose proof (pt_inj _ _ Hr _ _ _ Hp' Hp0) as Epath. simplify_eq. by apply PX_inj.
    + apply (same_page_ld64 _ _ p'); [|done].
      apply same_page_st64; [by eapply pt_valid|by eapply pt_valid|done|done].
Qed.

(** ** walk without allocation *)

Lemma walk_loop_link `{!KernelImageOk} s t x p level levels va alloc :
  pt_rep (kmem s) t → t !! x = Some p → (length x < 2)%nat → 0 ≤ level →
  ∀ q, t !! (x ++ [PX level va]) = Some q →
  walk_loop (level :: levels) p va alloc s = walk_loop levels q va alloc s.
Proof.
  intros Hr Hx Hlen Hl q Hq. simpl. unfold load64. msimpl.
  pose proof (pt_link _ _ Hr _ _ _ Hx Hlen (PX_range level va Hl)) as Hlink.
  rewrite Hq in Hlink. rewrite Hlink.
  pose proof (pt_valid _ _ Hr _ _ Hq) as Hv.
  by rewrite flag_set_PTE_V, PTE2PA_link by done.
Qed.

Lemma walk_loop_missing s t x p level levels va :
  pt_rep (kmem s) t → t !! x = Some p → (length x < 2)%nat → 0 ≤ level →
  t !! (x ++ [PX level va]) = None →
  walk_loop (level :: levels) p va false s = Ok (0, s).
Proof.
  intros Hr Hx Hlen Hl Hq. simpl. unfold load64. msimpl.
  pose proof (pt_link _ _ Hr _ _ _ Hx Hlen (PX_range level va Hl)) as Hlink.
  rewrite Hq in Hlink. by rewrite Hlink.
Qed.

Lemma walk_false `{!KernelImageOk} s t root va :
  pt_rep (kmem s) t → t !! [] = Some root → va < MAXVA →
  walk root va false s = Ok (default 0 (pt_slot t va), s).
Proof.
  intros Hr Hroot Hva. unfold walk. destruct (Z.leb_spec MAXVA va); [lia|].
  unfold pt_slot. destruct (t !! [PX 2 va]) as [p1|] eqn:E1.
  - rewrite (walk_loop_link s t [] root 2 [1] va false Hr Hroot) with (q := p1);
      [|simpl; lia|lia|done].
    destruct (t !! [PX 2 va; PX 1 va]) as [p0|] eqn:E0; simpl default.
    + rewrite (walk_loop_link s t [PX 2 va] p1 1 [] va false Hr E1) with (q := p0);
        [|simpl; lia|lia|done]. done.
    + apply (walk_loop_missing s t [PX 2 va] p1); [done..|simpl; lia|lia|done].
  - rewrite (walk_loop_missing s t [] root 2 [1] va); [|done..|simpl; lia|lia|done].
    destruct (t !! [PX 2 va; PX 1 va]) as [p0|] eqn:E0; [|done].
    destruct (pt_closed _ _ Hr [PX 2 va] (PX 1 va)) as [? ?]; [by eexists|congruence].
Qed.

(** ** walk with allocation *)

(** The pages of the tree are owned by it: each is referenced once. *)
Definition pt_own (s : kst) (t : ptree) : Prop := ∀ q, pt_page t q → refc s q = 1.

Lemma pt_own_notin m s l t q :
  kinv s l → pt_rep m t → pt_own s t → pt_page t q → q ∉ l.
Proof.
  intros Hk Hr Ho Hq. destruct (Hq) as [x Hx]. eapply kinv_notin; [done| |].
  - by eapply pt_valid.
  - rewrite Ho by done. lia.
Qed.

(** [pt_step s l t s' l' t' g]: from [s] to [s'] the tree [t] grew to [t'] by
    pages taken from the free list [l], nothing leaked, and the entries are
    now those of [g]; no page outside [t] and [l] was touched. *)
Record pt_step (s : kst) (l : list Z) (t : ptree) (s' : kst) (l' : list Z) (t' : ptree)
    (g : Z → Z) : Prop := {
  ext_kinv : kinv s' l';
  ext_rep : pt_rep (kmem s') t';
  ext_sub : t ⊆ t';
  ext_new : ∀ q, pt_page t' q → pt_page t q ∨ (q ∈ l ∧ q ∉ l' ∧ refc s' q = 1);
  ext_free : ∀ q, q ∈ l' → q ∈ l;
  ext_noleak : ∀ q, q ∈ l → q ∈ l' ∨ pt_page t' q;
  ext_refc : ∀ q, q mod PGSIZE = 0 → q ∉ l → refc s' q = refc s q;
  ext_frame : ∀ q, q mod PGSIZE = 0 → ¬ pt_page t q → q ∉ l →
    same_page (kmem s') (kmem s) q;
  ext_pte : ∀ va, 0 ≤ va < MAXVA → pte_of (kmem s') t' va = g va;
}.

(** No mapping changed. *)
Definition pt_ext s l t s' l' t' : Prop := pt_step s l t s' l' t' (pte_of (kmem s) t).

Lemma pt_ext_refl s l t : kinv s l → pt_rep (kmem s) t → pt_ext s l t s l t.
Proof. intros. split; auto. intros. apply same_page_refl. Qed.

Lemma pt_page_mono (t t' : ptree) q : t ⊆ t' → pt_page t q → pt_page t' q.
Proof. intros Hs [x Hx]. exists x. by eapply lookup_weaken. Qed.

Lemma pt_page_aligned m t q : pt_rep m t → pt_page t q → q mod PGSIZE = 0.
Proof. intros Hr [x Hx]. by eapply pt_valid. Qed.

Lemma pt_ext_own s l t s' l' t' g :
  pt_step s l t s' l' t' g → kinv s l → pt_rep (kmem s) t → pt_own s t → pt_own s' t'.
Proof.
  intros He Hk Hr Ho q Hq. destruct (ext_new _ _ _ _ _ _ _ He q Hq) as [Hq'|(_ & _ & ?)]; [|done].
  rewrite (ext_refc _ _ _ _ _ _ _ He); [by apply Ho|by eapply pt_page_aligned|].
  by eapply pt_own_notin.
Qed.

Lemma pt_step_trans s l t s1 l1 t1 s2 l2 t2 g1 g2 :
  kinv s l → pt_rep (kmem s) t → pt_own s t →
  pt_step s l t s1 l1 t1 g1 → pt_step s1 l1 t1 s2 l2 t2 g2 → pt_step s l t s2 l2 t2 g2.
Proof.
  intros Hk Hr Ho E1 E2.
  pose proof (pt_ext_own _ _ _ _ _ _ _ E1 Hk Hr Ho) as Ho1.
  destruct E1 as [K1 R1 S1 N1 F1 L1 C1 M1 P1], E2 as [K2 R2 S2 N2 F2 L2 C2 M2 P2].
  split; [done|done|by etrans| | | | | |].
  - intros q Hq. destruct (N2 q Hq) as [Hq1|(? & ? & ?)].
    + destruct (N1 q Hq1) as [?|(? & Hn & ?)]; [by left|right]. split_and!; [done| |].
      * intros ?%F2. done.
      * rewrite C2; [done|by eapply pt_page_aligned|done].
    + right. auto.
  - auto.
  - intros q Hq. destruct (L1 q Hq) as [?%L2|?]; [done|right]. by eapply pt_page_mono.
  - intros q Hal Hn. rewrite C2; [by apply C1|done|]. intros ?%F1. done.
  - intros q Hal Ht Hn. eapply same_page_trans; [apply M2|by apply M1]; [done| |].
    + intros Hq. destruct (N1 q Hq) as [?|(? & _)]; done.
    + intros ?%F1. done.
  - done.
Qed.

(** The entries are only compared on the addresses below [MAXVA]. *)
Lemma pt_step_proper s l t s' l' t' g g' :
  (∀ va, 0 ≤ va < MAXVA → g va = g' va) →
  pt_step s l t s' l' t' g → pt_step s l t s' l' t' g'.
Proof. intros Hg []. split; try done. intros va Hva. rewrite <-Hg by done. auto. Qed.

Lemma pt_ext_trans s l t s1 l1 t1 s2 l2 t2 :
  kinv s l → pt_rep (kmem s) t → pt_own s t →
  pt_ext s l t s1 l1 t1 → pt_ext s1 l1 t1 s2 l2 t2 → pt_ext s l t s2 l2 t2.
Proof.
  intros Hk Hr Ho E1 E2. eapply pt_step_proper; [|by eapply pt_step_trans].
  intros va Hva. cbv beta. apply (ext_pte _ _ _ _ _ _ _ E1 va Hva).
Qed.

(** Entering a zeroed page [a] into the tree at path [x ++ [i]]. *)
Lemma pt_rep_insert `{!KernelImageOk} m m0 t x p i a :
  pt_rep m t → t !! x = Some p → (length x < 2)%nat → 0 ≤ i < 512 →
  t !! (x ++ [i]) = None → valid_page a → ¬ pt_page t a →
  (∀ q, pt_page t q → same_page m0 m q) →
  (∀ j, 0 ≤ j < 512 → ld64 m0 (a + 8 * j) = 0) →
  pt_rep (st64 m0 (p + 8 * i) (Z.lor (PA2PTE a) PTE_V)) (<[x ++ [i] := a]> t).
Proof.
  intros Hr Hx Hlen Hi Hnone Hva Hna Hsame Hzero.
  pose proof Hr as [H1 H2 H3 H4 H5].
  assert (p ≠ a) as Hpa by (intros ->; apply Hna; by exists x).
  assert (∀ y, t !! y ≠ Some a) as Hna' by (intros y Hy; apply Hna; by exists y).
  assert (x ≠ x ++ [i]) as Hxx by (intros E; apply (f_equal length) in E; rewrite length_app in E; simpl in E; lia).
  assert (∀ j, t !! ((x ++ [i]) ++ [j]) = None) as Hnochild.
  { intros j. destruct (t !! ((x ++ [i]) ++ [j])) as [q|] eqn:E; [|done].
    destruct (H5 (x ++ [i]) j) as [? ?]; [by eexists|congruence]. }
  assert (0 ≤ Z.lor (PA2PTE a) PTE_V < 2 ^ 64) as Hrange.
  { pose proof (lor_PA2PTE_range a PTE_V (valid_page_pa a Hva)).
    change PTE_V with 1 in *. lia. }
  split.
  - intros y z q Hy Hz. rewrite lookup_insert in Hy, Hz.
    do 2 case_decide; simplify_eq; try done; try (by apply Hna' in Hy); try (by apply Hna' in Hz).
    by eapply H1.
  - intros y q Hy. rewrite lookup_insert in Hy. case_decide; simplify_eq; [done|eauto].
  - intros y q Hy. rewrite lookup_insert in Hy. case_decide as E; simplify_eq; [|eauto].
    rewrite length_app. simpl. lia.
  - intros y q j Hy Hylen Hj. rewrite lookup_insert in Hy. case_decide as E.
    + simplify_eq. rewrite lookup_insert_ne, Hnochild.
      2:{ intros E. apply (f_equal length) in E. rewrite !length_app in E. simpl in E. lia. }
      rewrite (same_page_ld64 _ m0); [by rewrite Hzero|..|done].
      apply same_page_st64; [apply Hva|by eapply H2|done|done].
    + destruct (decide (x ++ [i] = y ++ [j])) as [Eyj|Eyj].
      * apply app_inj_2 in Eyj as [-> [= ->]]; [|done]. rewrite lookup_insert_eq.
        simplify_eq. by rewrite ld64_st64_eq.
      * rewrite lookup_insert_ne by done.
        specialize (H4 y q j Hy Hylen Hj).
        assert (ld64 (st64 m0 (p + 8 * i) (Z.lor (PA2PTE a) PTE_V)) (q + 8 * j)
                = ld64 m (q + 8 * j)) as ->; [|done].
        rewrite <-(same_page_ld64 m0 m q j); [|apply Hsame; by exists y|done].
        destruct (decide (q = p)) as [->|Hqp].
        -- apply ld64_st64_ne. assert (i ≠ j); [|lia]. intros ->.
           apply Eyj. f_equal. by eapply H1.
        -- apply (same_page_ld64 _ _ q); [|done].
           apply same_page_st64; [by eapply H2|by eapply H2|done|done].
  - intros y j. rewrite !lookup_insert. case_decide as E.
    + intros _. apply app_inj_2 in E as [-> _]; [|done]. rewrite decide_False by done. by exists p.
    + case_decide; [by eexists|]. apply H5.
Qed.

(** A page table that is a single zeroed page. *)
Lemma pt_rep_root m r :
  valid_page r → (∀ i, 0 ≤ i < 512 → ld64 m (r + 8 * i) = 0) → pt_rep m {[ [] := r ]}.
Proof.
  intros Hr Hz. split.
  - intros x y p [<- _]%lookup_singleton_Some [<- _]%lookup_singleton_Some. done.
  - intros x p [_ <-]%lookup_singleton_Some. done.
  - intros x p [<- _]%lookup_singleton_Some. simpl. lia.
  - intros x p i [<- <-]%lookup_singleton_Some _ Hi. simpl. rewrite lookup_singleton_ne, Hz by done. done.
  - intros x i [p [Hx _]%lookup_singleton_Some]. by destruct x.
Qed.

(** One allocating turn of the loop in [walk]. *)
Lemma walk_grow `{!KernelImageOk} s a l t x p i :
  kinv s (a :: l) → pt_rep (kmem s) t → pt_own s t →
  t !! x = Some p → (length x < 2)%nat → 0 ≤ i < 512 → t !! (x ++ [i]) = None →
  ∃ s1, kalloc s = Ok (a, s1) ∧
    pt_ext s (a :: l) t
      (set_mem (st64 (memset (kmem s1) a 0 PGSIZE) (p + 8 * i) (Z.lor (PA2PTE a) PTE_V)) s1)
      l (<[x ++ [i] := a]> t).
Proof.
  intros Hk Hr Ho Hx Hlen Hi Hnone.
  destruct (kalloc_cons s a l Hk) as (s1 & Hrun & Hk1 & Hc1 & Hcne & Hm1 & _).
  exists s1. split; [done|].
  pose proof Hk as [_ Hnd Hval _]. apply Forall_cons in Hval as [Hva Hval].
  apply NoDup_cons in Hnd as [Hal _].
  assert (¬ pt_page t a) as Hna.
  { intros Hq. eapply (pt_own_notin _ s (a :: l) t a); [done..|]. set_solver. }
  assert (∀ q, q mod PGSIZE = 0 → q ≠ a →
    same_page (memset (kmem s1) a 0 PGSIZE) (kmem s) q) as Hm2.
  { intros q Hq Hne. eapply same_page_trans; [|by apply Hm1].
    apply same_page_memset; [done|apply Hva|done]. }
  assert (p ≠ a) as Hpa by (intros ->; apply Hna; by exists x).
  assert (∀ q v, q mod PGSIZE = 0 → q ≠ a → q ≠ p →
    same_page (st64 (memset (kmem s1) a 0 PGSIZE) (p + 8 * i) v) (kmem s) q) as Hm3.
  { intros q v Hq Hne Hne'. eapply same_page_trans; [|by apply Hm2].
    apply same_page_st64; [done|by eapply pt_valid|done|done]. }
  assert (∀ j, 0 ≤ j < 512 → ld64 (memset (kmem s1) a 0 PGSIZE) (a + 8 * j) = 0) as Hz.
  { intros j Hj. apply ld64_memset_0; unfold PGSIZE; lia. }
  split; simpl.
  - destruct Hk1 as [K1 K2 K3 K4]. split; [|done..]. simpl.
    eapply fl_rep_ext; [|exact K1]. intros q Hq. symmetry. apply same_page_first.
    assert (valid_page q) as Hvq by (by eapply (Forall_forall valid_page l)).
    assert (q ≠ p).
    { intros ->. eapply (pt_own_notin _ s (a :: l) t p); [done..|by exists x|]. set_solver. }
    assert (q ≠ a) by (by intros ->).
    eapply same_page_trans; [apply Hm3; [apply Hvq|done|done]|].
    apply same_page_sym, Hm1; [apply Hvq|done].
  - apply (pt_rep_insert (kmem s)); try done. intros q Hq. apply Hm2.
    + by eapply pt_page_aligned.
    + by intros ->.
  - by apply insert_subseteq.
  - intros q [y Hy]. rewrite lookup_insert in Hy. case_decide; simplify_eq.
    + right. split_and!; [set_solver|done|done].
    + left. by exists y.
  - set_solver.
  - intros q [->|Hq]%elem_of_cons; [|by left]. right. exists (x ++ [i]). apply lookup_insert_eq.
  - intros q Hq Hn. apply Hcne; [done|]. set_solver.
  - intros q Hq Ht Hn. apply Hm3; [done|set_solver|]. intros ->. apply Ht. by exists x.
  - intros va _. unfold pte_of, pt_slot.
    destruct (decide (x ++ [i] = [PX 2 va; PX 1 va])) as [E|E].
    + rewrite <-E, lookup_insert_eq, Hnone. simpl.
      assert (0 ≤ PX 0 va < 512) by (apply PX_range; lia).
      rewrite (same_page_ld64 _ (memset (kmem s1) a 0 PGSIZE)); [by apply Hz| |done].
      apply same_page_st64; [apply Hva|by eapply pt_valid|done|done].
    + rewrite lookup_insert_ne by done.
      destruct (t !! [PX 2 va; PX 1 va]) as [p0|] eqn:E0; [|done]. simpl.
      apply (same_page_ld64 _ _ p0); [|apply PX_range; lia]. apply Hm3.
      * by eapply pt_valid.
      * intros ->. apply Hna. by eexists.
      * intros ->. assert (x = [PX 2 va; PX 1 va]) as -> by (by eapply (pt_inj _ _ Hr)).
        simpl in Hlen. lia.
Qed.

Lemma walk_loop_alloc `{!KernelImageOk} levels : ∀ s l t x p va,
  kinv s l → pt_rep (kmem s) t → pt_own s t → t !! x = Some p →
  (length x + length levels = 2)%nat → Forall (λ k, 0 ≤ k) levels →
  ∃ r s' l' t', walk_loop levels p va true s = Ok (r, s') ∧ pt_ext s l t s' l' t' ∧
    (∀ y, is_Some (t' !! y) → is_Some (t !! y) ∨ ∃ n, y = x ++ take n ((λ k, PX k va) <$> levels)) ∧
    ((r = 0 ∧ l' = []) ∨
     ∃ q, t' !! (x ++ ((λ k, PX k va) <$> levels)) = Some q ∧ r = q + 8 * PX 0 va).
Proof.
  induction levels as [|k levels IH]; intros s l t x p va Hk Hr Ho Hx Hlen Hpos.
  - exists (p + 8 * PX 0 va), s, l, t. split; [done|]. split; [by apply pt_ext_refl|]. split; [by left|].
    right. exists p. rewrite app_nil_r. done.
  - apply Forall_cons in Hpos as [Hk0 Hpos]. simpl in Hlen.
    pose proof (PX_range k va Hk0) as Hi.
    destruct (t !! (x ++ [PX k va])) as [q|] eqn:Eq.
    + rewrite (walk_loop_link s t x p k levels va true Hr Hx) with (q := q); [|lia|done|done].
      destruct (IH s l t (x ++ [PX k va]) q va) as (r & s' & l' & t' & Hrun & He & Hdom & Hres);
        [done..|rewrite length_app; simpl; lia|done|].
      exists r, s', l', t'. split; [done|]. split; [done|]. split; [|by rewrite <-app_assoc in Hres].
      intros y [?|[n ->]]%Hdom; [by left|right]. exists (S n). by rewrite <-app_assoc.
    + pose proof (pt_link _ _ Hr x p (PX k va) Hx ltac:(lia) Hi) as Hlink. rewrite Eq in Hlink.
      simpl. unfold load64, memzero, store64. msimpl. rewrite Hlink. simpl negb. cbv iota.
      destruct l as [|a l].
      * rewrite kalloc_nil by done. simpl. exists 0, s, [], t. split; [done|].
        split; [by apply pt_ext_refl|]. split; by left.
      * destruct (walk_grow s a l t x p (PX k va)) as (s1 & Hrun & He); [done..|lia|done|done|].
        rewrite Hrun.
        assert (a ≠ 0) as Ha.
        { destruct Hk as [_ _ Hv _]. apply Forall_cons in Hv as [Hv _].
          apply valid_page_pos in Hv. unfold KERNBASE in *. lia. }
        destruct (Z.eqb_spec a 0); [done|]. simpl set_mem.
        set (s2 := set_mem _ s1) in He. change (set_mem _ (set_mem _ s1)) with s2.
        set (t2 := <[x ++ [PX k va] := a]> t) in *.
        destruct (IH s2 l t2 (x ++ [PX k va]) a va) as (r & s' & l' & t' & Hrun' & He' & Hdom & Hres).
        -- apply He.
        -- apply He.
        -- by eapply pt_ext_own.
        -- apply lookup_insert_eq.
        -- rewrite length_app. simpl. lia.
        -- done.
        -- exists r, s', l', t'. split; [done|]. split; [by eapply pt_ext_trans|].
           split; [|by rewrite <-app_assoc in Hres].
           intros y [[w Hw]|[j ->]]%Hdom; [|right; exists (S j); by rewrite <-app_assoc].
           unfold t2 in Hw. rewrite lookup_insert in Hw. case_decide as E; [right; exists 1%nat; by subst y|left; by exists w].
Qed.

(** [walk(..., 1)] finds or creates the entry, and fails only when no free
    page is left; it adds no pages but those on the path. *)
Lemma walk_true `{!KernelImageOk} s l t root va :
  kinv s l → pt_rep (kmem s) t → pt_own s t → t !! [] = Some root → va < MAXVA →
  ∃ r s' l' t', walk root va true s = Ok (r, s') ∧ pt_ext s l t s' l' t' ∧
    (∀ y, is_Some (t' !! y) → is_Some (t !! y) ∨ ∃ n, y = take n [PX 2 va; PX 1 va]) ∧
    ((r = 0 ∧ l' = []) ∨ pt_slot t' va = Some r).
Proof.
  intros Hk Hr Ho Hroot Hva. unfold walk. destruct (Z.leb_spec MAXVA va); [lia|].
  destruct (walk_loop_alloc [2; 1] s l t [] root va) as (r & s' & l' & t' & Hrun & He & Hdom & Hres);
    [done..|repeat constructor; lia|].
  exists r, s', l', t'. split_and!; [done..|].
  destruct Hres as [?|(q & Hq & ->)]; [by left|right].
  unfold pt_slot. simpl in Hq. by rewrite Hq.
Qed.

(** ** Writing an entry after the walk *)

Lemma kinv_set_mem_tree s l t m' :
  kinv s l → pt_rep (kmem s) t → pt_own s t →
  (∀ q, q mod PGSIZE = 0 → ¬ pt_page t q → same_page m' (kmem s) q) →
  kinv (set_mem m' s) l.
Proof.
  intros Hk Hr Ho Hs. pose proof Hk as [K1 K2 K3 K4]. split; [|done..]. simpl.
  eapply fl_rep_ext; [|exact K1]. intros q Hq. symmetry. apply same_page_first, Hs.
  - by eapply (Forall_forall valid_page l).
  - intros Hp. by eapply (pt_own_notin (kmem s) s l t q).
Qed.

Lemma same_page_store_slot m m0 t va a v q :
  pt_rep m t → pt_slot t va = Some a → q mod PGSIZE = 0 → ¬ pt_page t q →
  same_page (st64 m0 a v) m0 q.
Proof.
  intros Hr Ha Hq Hn. destruct (pt_slot_in_page _ _ _ Ha) as (p & Hp & -> & Hi).
  apply same_page_st64; [done|by eapply pt_valid| |done]. intros ->. apply Hn. by eexists.
Qed.

Lemma pt_step_store s l t s1 l1 t1 g va a v :
  pt_step s l t s1 l1 t1 g → pt_own s1 t1 →
  pt_slot t1 va = Some a → 0 ≤ v < 2 ^ 64 → 0 ≤ va < MAXVA →
  pt_step s l t (set_mem (st64 (kmem s1) a v) s1) l1 t1
    (λ va', if decide (va' / PGSIZE = va / PGSIZE) then v else g va').
Proof.
  intros [K R S N F L C M P] Ho Ha Hv Hva. split; try done.
  - eapply kinv_set_mem_tree; [done..|]. intros q Hq Hn. by eapply same_page_store_slot.
  - by eapply pt_rep_store_leaf.
  - intros q Hq Ht Hl. eapply same_page_trans; [|by apply M].
    eapply same_page_store_slot; [done..|]. intros Hq'.
    destruct (N q Hq') as [?|(? & _)]; done.
  - intros va' Hva'. simpl. rewrite (pte_of_store_leaf _ _ va) by done.
    case_decide; [done|by apply P].
Qed.

(** ** mappages of one page *)

Definition perm_ok (perm : Z) : Prop := 0 ≤ perm < 1024.

Definition leaf_pte (pa perm : Z) : Z := Z.lor (Z.lor (PA2PTE pa) perm) PTE_V.

Definition map_page (g : Z → Z) (va v : Z) : Z → Z :=
  λ va', if decide (va' / PGSIZE = va / PGSIZE) then v else g va'.

Lemma lor_lt_1024 x y : 0 ≤ x < 1024 → 0 ≤ y < 1024 → 0 ≤ Z.lor x y < 1024.
Proof.
  intros Hx Hy. split; [apply Z.lor_nonneg; lia|].
  destruct (Z.eq_dec (Z.lor x y) 0) as [->|]; [lia|].
  change 1024 with (2 ^ 10). apply Z.log2_lt_cancel. rewrite Z.log2_pow2 by lia.
  rewrite Z.log2_lor by lia.
  assert (∀ z, 0 ≤ z < 1024 → Z.log2 z < 10) as Hl.
  { intros z Hz. destruct (Z.eq_dec z 0) as [->|]; [done|]. apply Z.log2_lt_pow2; lia. }
  pose proof (Hl x Hx). pose proof (Hl y Hy). lia.
Qed.

Lemma leaf_pte_flags pa perm : leaf_pte pa perm = Z.lor (PA2PTE pa) (Z.lor perm PTE_V).
Proof. unfold leaf_pte. by rewrite Z.lor_assoc. Qed.

Lemma leaf_pte_range pa perm :
  0 ≤ pa < 2 ^ 56 → perm_ok perm → 0 ≤ leaf_pte pa perm < 2 ^ 64.
Proof.
  intros Hpa Hp. rewrite leaf_pte_flags.
  pose proof (lor_lt_1024 perm PTE_V Hp) as Hl. change PTE_V with 1 in *.
  pose proof (lor_PA2PTE_range pa (Z.lor perm 1) Hpa). lia.
Qed.

(** [mappages] of one page is a walk followed by a store into the entry. *)
Lemma mappages_run `{!KernelImageOk} s l t root va pa perm :
  kinv s l → pt_rep (kmem s) t → pt_own s t → t !! [] = Some root →
  0 ≤ va < MAXVA → va mod PGSIZE = 0 →
  flag_set (pte_of (kmem s) t va) PTE_V = false →
  ∃ s1 l1 t1, pt_ext s l t s1 l1 t1 ∧
    ((l1 = [] ∧ mappages root va PGSIZE pa perm s = Ok (-1, s1)) ∨
     ∃ slot, pt_slot t1 va = Some slot ∧
       mappages root va PGSIZE pa perm s =
         Ok (0, set_mem (st64 (kmem s1) slot (leaf_pte pa perm)) s1)).
Proof.
  intros Hk Hr Ho Hroot Hva Hal Hv. unfold mappages. rewrite Hal.
  change (Z.to_nat (PGSIZE / PGSIZE)) with 1%nat. simpl.
  destruct (walk_true s l t root va) as (r & s1 & l1 & t1 & Hrun & He & _ & Hres); [done..|lia|].
  exists s1, l1, t1. split; [done|]. msimpl. rewrite Hrun.
  destruct Hres as [[-> ->]|Hslot]; [by left|right].
  exists r. split; [done|].
  pose proof (ext_rep _ _ _ _ _ _ _ He) as Hr1.
  destruct (Z.eqb_spec r 0) as [E|_]; [by eapply pt_slot_nonzero in E|].
  pose proof (ext_pte _ _ _ _ _ _ _ He va Hva) as Hpte.
  unfold pte_of in Hpte at 1. rewrite Hslot in Hpte.
  unfold load64, store64. msimpl. rewrite Hpte, Hv.
  rewrite u64_small by (rewrite MAXVA_val in *; unfold PGSIZE; lia).
  replace (va + PGSIZE - PGSIZE) with va by lia. by rewrite Z.eqb_refl.
Qed.

Lemma mappages_one `{!KernelImageOk} s l t root va pa perm :
  kinv s l → pt_rep (kmem s) t → pt_own s t → t !! [] = Some root →
  0 ≤ va < MAXVA → va mod PGSIZE = 0 → 0 ≤ pa < 2 ^ 56 → perm_ok perm →
  flag_set (pte_of (kmem s) t va) PTE_V = false →
  ∃ r s' l' t', mappages root va PGSIZE pa perm s = Ok (r, s') ∧
    ((r = -1 ∧ l' = [] ∧ pt_ext s l t s' l' t') ∨
     (r = 0 ∧ pt_step s l t s' l' t' (map_page (pte_of (kmem s) t) va (leaf_pte pa perm)))).
Proof.
  intros Hk Hr Ho Hroot Hva Hal Hpa Hperm Hv.
  destruct (mappages_run s l t root va pa perm) as (s1 & l1 & t1 & He & [[-> Hrun]|(slot & Hs & Hrun)]);
    [done..| |].
  - exists (-1), s1, [], t1. split; [done|]. left. auto.
  - eexists 0, _, l1, t1. split; [done|]. right. split; [done|].
    apply (pt_step_store _ _ _ _ _ _ _ va slot); try done.
    + by eapply pt_ext_own.
    + by apply leaf_pte_range.
Qed.
End tree.
