(* ===== verification/VmSpace.v ===== *)
(** Address spaces and reference counts.

    [vinv s l sp maps own] is the invariant that ties the pieces of the virtual
    memory system together: [sp] gives the page-table tree of every pagetable
    (by the address of its root), [maps] is the user part of all of them, as a
    map from (pagetable, virtual page number) to physical page, and every page
    is referenced as often as it is mapped plus [own] times by the kernel.  A
    C statement that changes one side of this balance is matched by a change
    of [own]; the lemmas below give that change for every primitive that
    [vm.c] is built from. *)

From stdpp Require Import functions.
From S2P Require Import Prelude Riscv Mem Str Kalloc Vm VmTree.

(** Virtual page numbers of user memory: below the trapframe page. *)
Definition UVPN : Z := TRAPFRAME / PGSIZE.

Lemma UVPN_val : UVPN = 67108862.
Proof. reflexivity. Qed.

(** How often a physical page is mapped. *)
Definition cnt (maps : gmap (Z * Z) Z) (a : Z) : Z :=
  Z.of_nat (size (filter (λ kv : (Z * Z) * Z, kv.2 = a) maps)).

Lemma cnt_nonneg maps a : 0 ≤ cnt maps a.
Proof. unfold cnt. lia. Qed.

Lemma cnt_insert_None maps k b a :
  maps !! k = None →
  cnt (<[k := b]> maps) a = cnt maps a + if decide (a = b) then 1 else 0.
Proof.
  intros Hk. unfold cnt. rewrite map_filter_insert. simpl. case_decide as E.
  - subst. rewrite decide_True by done.
    rewrite map_size_insert_None; [lia|]. rewrite map_lookup_filter, Hk. done.
  - rewrite decide_False by done. rewrite delete_id by done. lia.
Qed.

Lemma cnt_delete maps k b a :
  maps !! k = Some b →
  cnt (delete k maps) a = cnt maps a - if decide (a = b) then 1 else 0.
Proof.
  intros Hk. rewrite <-(insert_delete_id maps k b Hk) at 2.
  rewrite cnt_insert_None by apply lookup_delete_eq. lia.
Qed.

Lemma cnt_pos maps k a : maps !! k = Some a → 1 ≤ cnt maps a.
Proof.
  intros Hk. pose proof (cnt_delete maps k a a Hk) as E. rewrite decide_True in E by done.
  pose proof (cnt_nonneg (delete k maps) a). lia.
Qed.

Lemma cnt_unique maps k k' a :
  cnt maps a = 1 → maps !! k = Some a → maps !! k' = Some a → k = k'.
Proof.
  intros Hc Hk Hk'. destruct (decide (k = k')) as [|Hne]; [done|exfalso].
  pose proof (cnt_delete maps k a a Hk) as E. rewrite decide_True in E by done.
  pose proof (cnt_pos (delete k maps) k' a). rewrite lookup_delete_ne in * by done.
  specialize (H Hk'). lia.
Qed.

(** Update of an entry of [maps] by the value a page-table entry has. *)
Definition pte_target (v : Z) : option Z := if flag_set v PTE_V then Some (PTE2PA v) else None.
Definition set_map (k : Z * Z) (o : option Z) (maps : gmap (Z * Z) Z) : gmap (Z * Z) Z :=
  match o with Some a => <[k := a]> maps | None => delete k maps end.

Definition delta (o : option Z) (a : Z) : Z := if decide (o = Some a) then 1 else 0.

Lemma lookup_set_map k o maps k' :
  set_map k o maps !! k' = if decide (k = k') then o else maps !! k'.
Proof.
  unfold set_map. destruct o; [apply lookup_insert|].
  rewrite lookup_delete. by repeat case_decide.
Qed.

Lemma cnt_set_map k o maps a :
  cnt (set_map k o maps) a = cnt maps a - delta (maps !! k) a + delta o a.
Proof.
  unfold set_map, delta. destruct o as [b|].
  - rewrite <-insert_delete_eq, cnt_insert_None by apply lookup_delete_eq.
    destruct (maps !! k) as [c|] eqn:E.
    + rewrite (cnt_delete _ _ c) by done. repeat case_decide; simplify_eq; lia.
    + rewrite delete_id by done. repeat case_decide; simplify_eq; lia.
  - destruct (maps !! k) as [c|] eqn:E.
    + rewrite (cnt_delete _ _ c) by done. repeat case_decide; simplify_eq; lia.
    + rewrite delete_id by done. repeat case_decide; simplify_eq; lia.
Qed.

Section space.
Context `{KernelImage}.

Record vinv (s : kst) (l : list Z) (sp : gmap Z ptree) (maps : gmap (Z * Z) Z)
    (own : Z → Z) : Prop := {
  vi_kinv : kinv s l;
  vi_rep : ∀ r t, sp !! r = Some t → pt_rep (kmem s) t;
  vi_root : ∀ r t, sp !! r = Some t → t !! [] = Some r;
  vi_tree : ∀ r t q, sp !! r = Some t → pt_page t q → refc s q = 1 ∧ own q = 1;
  vi_disj : ∀ r r' t t' q, sp !! r = Some t → sp !! r' = Some t' →
    pt_page t q → pt_page t' q → r = r';
  vi_maps : ∀ r t n, sp !! r = Some t → 0 ≤ n < UVPN →
    maps !! (r, n) = pte_target (pte_of (kmem s) t (n * PGSIZE));
  vi_dom : ∀ r n a, maps !! (r, n) = Some a → is_Some (sp !! r) ∧ 0 ≤ n < UVPN;
  vi_valid : ∀ k a, maps !! k = Some a → valid_page a;
  vi_count : ∀ a, valid_page a → refc s a = cnt maps a + own a;
}.

(** Page-table pages of all address spaces. *)
Definition tree_page (sp : gmap Z ptree) (q : Z) : Prop :=
  ∃ r t, sp !! r = Some t ∧ pt_page t q.

Lemma vinv_own s l sp maps own r t :
  vinv s l sp maps own → sp !! r = Some t → pt_own s t.
Proof. intros Hv Ht q Hq. by eapply (vi_tree _ _ _ _ _ Hv). Qed.

Lemma tree_page_valid s l sp maps own q :
  vinv s l sp maps own → tree_page sp q → valid_page q.
Proof. intros Hv (r & t & Ht & x & Hx). eapply pt_valid; [by eapply vi_rep|done]. Qed.

(** Page-table pages are never mapped into user memory. *)
Lemma vinv_tree_unmapped s l sp maps own k q :
  vinv s l sp maps own → tree_page sp q → maps !! k ≠ Some q.
Proof.
  intros Hv Hq Hk. pose proof (tree_page_valid _ _ _ _ _ _ Hv Hq) as Hval.
  destruct Hq as (r & t & Ht & Hp). destruct (vi_tree _ _ _ _ _ Hv r t q Ht Hp) as [Hc Ho].
  pose proof (vi_count _ _ _ _ _ Hv q Hval). pose proof (cnt_pos _ _ _ Hk). lia.
Qed.

Lemma vinv_tree_notin s l sp maps own q :
  vinv s l sp maps own → tree_page sp q → q ∉ l.
Proof.
  intros Hv (r & t & Ht & Hp).
  eapply pt_own_notin; [by eapply vi_kinv|by eapply vi_rep|by eapply vinv_own|done].
Qed.

Lemma cnt_free s l sp maps own a :
  vinv s l sp maps own → 0 ≤ own a → a ∈ l → cnt maps a = 0 ∧ own a = 0.
Proof.
  intros Hv Ho Ha. pose proof (vi_kinv _ _ _ _ _ Hv) as [_ _ Hval Hf].
  rewrite Forall_forall in Hval. specialize (Hval a Ha).
  apply Hf in Ha; [|done..]. pose proof (vi_count _ _ _ _ _ Hv a Hval).
  pose proof (cnt_nonneg maps a). lia.
Qed.

(** ** Memory writes outside the page tables and the free list *)
Lemma vinv_write s l sp maps own m' :
  vinv s l sp maps own →
  (∀ q, q mod PGSIZE = 0 → tree_page sp q ∨ q ∈ l → same_page m' (kmem s) q) →
  vinv (set_mem m' s) l sp maps own.
Proof.
  intros Hv Hs. pose proof Hv as [K R T TR D MA DO V C].
  assert (∀ r t, sp !! r = Some t → ∀ q, pt_page t q → same_page (kmem s) m' q) as Hs'.
  { intros r t Ht q Hq. apply same_page_sym, Hs.
    - eapply pt_page_aligned; [by eapply R|done].
    - left. by exists r, t. }
  split; try done.
  - destruct K as [K1 K2 K3 K4]. split; [|done..]. simpl. eapply fl_rep_ext; [|exact K1].
    intros q Hq. symmetry. apply same_page_first, Hs; [|by right].
    by eapply (Forall_forall valid_page l).
  - intros r t Ht. simpl. eapply pt_rep_frame; [by eapply Hs'|by eapply R].
  - intros r t n Ht Hn. simpl. rewrite (MA r t n Ht Hn).
    by rewrite (pte_of_frame (kmem s) m') by (by eapply Hs').
Qed.

(** ** kalloc: a free page becomes owned by the kernel *)
Lemma vinv_kalloc `{!KernelImageOk} s a l sp maps own :
  vinv s (a :: l) sp maps own → own a = 0 →
  ∃ s', kalloc s = Ok (a, s') ∧ vinv s' l sp maps (<[a := 1]> own) ∧
    (∀ q, q mod PGSIZE = 0 → q ≠ a → same_page (kmem s') (kmem s) q) ∧
    (∀ q, q mod PGSIZE = 0 → q ≠ a → refc s' q = refc s q) ∧ refc s' a = 1.
Proof.
  intros Hv Hoa. pose proof Hv as [K R T TR D MA DO V C].
  destruct (kalloc_cons s a l K) as (s' & Hrun & Hk' & Hc & Hcne & Hm & _).
  exists s'. split_and!; [done| |done|done|done].
  assert (a ∈ a :: l) as Ha by set_solver.
  destruct (cnt_free _ _ _ _ _ a Hv ltac:(lia) Ha) as [Hca _].
  assert (∀ q, tree_page sp q → q ≠ a) as Hta.
  { intros q Hq ->. by eapply vinv_tree_notin. }
  assert (∀ r t, sp !! r = Some t → ∀ q, pt_page t q → same_page (kmem s) (kmem s') q) as Hs'.
  { intros r t Ht q Hq. apply same_page_sym, Hm.
    - eapply pt_page_aligned; [by eapply R|done].
    - apply Hta. by exists r, t. }
  split; try done.
  - intros r t Ht. eapply pt_rep_frame; [by eapply Hs'|by eapply R].
  - intros r t q Ht Hq. assert (q ≠ a) by (apply Hta; by exists r, t).
    rewrite fn_lookup_insert_ne by done. rewrite Hcne; [by eapply TR| |done].
    eapply pt_page_aligned; [by eapply R|done].
  - intros r t n Ht Hn. rewrite (MA r t n Ht Hn).
    by rewrite (pte_of_frame (kmem s) (kmem s')) by (by eapply Hs').
  - intros b Hb. destruct (decide (b = a)) as [->|Hne].
    + rewrite fn_lookup_insert. lia.
    + rewrite fn_lookup_insert_ne by done. rewrite Hcne; [by apply C|apply Hb|done].
Qed.

(** ** kfree: the kernel gives up one reference *)
Lemma vinv_kfree `{!KernelImageOk} s l sp maps own a :
  vinv s l sp maps own → valid_page a → 1 ≤ refc s a → ¬ tree_page sp a →
  ∃ s' l', kfree a s = Ok (tt, s') ∧ vinv s' l' sp maps (<[a := own a - 1]> own) ∧
    (if decide (refc s a = 1) then l' = a :: l else l' = l ∧ kmem s' = kmem s) ∧
    (∀ q, q mod PGSIZE = 0 → q ≠ a → same_page (kmem s') (kmem s) q) ∧
    (∀ q, q mod PGSIZE = 0 → q ≠ a → refc s' q = refc s q).
Proof.
  intros Hv Hva Hc Hnt. pose proof Hv as [K R T TR D MA DO V C].
  assert (∀ r t q, sp !! r = Some t → pt_page t q → q ≠ a ∧ q mod PGSIZE = 0) as Htree.
  { intros r t q Ht Hq. split.
    - intros ->. apply Hnt. by exists r, t.
    - eapply pt_page_aligned; [by eapply R|done]. }
  assert (∀ s' l', kinv s' l' →
    (∀ b, b mod PGSIZE = 0 → b ≠ a → refc s' b = refc s b) →
    refc s' a = refc s a - 1 →
    (∀ p, p mod PGSIZE = 0 → p ≠ a → same_page (kmem s') (kmem s) p) →
    vinv s' l' sp maps (<[a := own a - 1]> own)) as Hgen.
  { intros s' l' Hk' Hcne Hca Hm.
    assert (∀ r t, sp !! r = Some t → ∀ q, pt_page t q → same_page (kmem s) (kmem s') q) as Hs'.
    { intros r t Ht q Hq. destruct (Htree r t q Ht Hq). by apply same_page_sym, Hm. }
    split; try done.
    - intros r t Ht. eapply pt_rep_frame; [by eapply Hs'|by eapply R].
    - intros r t q Ht Hq. destruct (Htree r t q Ht Hq) as [Hne Hal].
      rewrite fn_lookup_insert_ne by done. rewrite Hcne by done. by eapply TR.
    - intros r t n Ht Hn. rewrite (MA r t n Ht Hn).
      by rewrite (pte_of_frame (kmem s) (kmem s')) by (by eapply Hs').
    - intros b Hb. specialize (C b Hb). destruct (decide (b = a)) as [->|Hne].
      + rewrite fn_lookup_insert. lia.
      + rewrite fn_lookup_insert_ne by done. rewrite Hcne; [done|apply Hb|done]. }
  case_decide as E.
  - destruct (kfree_last s l a K Hva E) as (s' & Hrun & Hk' & Hcne & Hm).
    exists s', (a :: l). split_and!; try done. apply Hgen; try done.
    rewrite E. apply (kinv_free _ _ _ Hk'); [done|done|set_solver].
  - pose proof (refc_range s a).
    eexists _, l. split_and!; [apply kfree_shared; [done|lia]| |done|done| |].
    + apply Hgen; try done.
      * apply kinv_set_ref; [done|apply Hva| |].
        -- eapply kinv_notin; [done|done|lia].
        -- rewrite u16_small by lia. lia.
      * intros b Hb Hne. apply refc_set_ref_ne; [apply Hva|done|done].
      * rewrite refc_set_ref_eq. apply u16_small. lia.
    + intros. apply same_page_refl.
    + intros q Hq Hne. apply refc_set_ref_ne; [apply Hva|done|done].
Qed.

(** ** krefinc *)
Lemma vinv_krefinc `{!KernelImageOk} s l sp maps own a :
  vinv s l sp maps own → valid_page a → 1 ≤ refc s a < 65535 → ¬ tree_page sp a →
  ∃ s', krefinc a s = Ok (tt, s') ∧ kmem s' = kmem s ∧
    vinv s' l sp maps (<[a := own a + 1]> own) ∧
    (∀ q, q mod PGSIZE = 0 → q ≠ a → refc s' q = refc s q) ∧ refc s' a = refc s a + 1.
Proof.
  intros Hv Hva Hc Hnt. pose proof Hv as [K R T TR D MA DO V C].
  eexists. split; [by apply krefinc_ok|]. split; [done|].
  assert (refc (set_ref (a / PGSIZE) (refc s a + 1) s) a = refc s a + 1) as Hca.
  { rewrite refc_set_ref_eq. apply u16_small. lia. }
  split; [|split; [|done]].
  - split; try done.
    + apply krefinc_kinv; [done..|lia].
    + intros r t q Ht Hq.
      assert (q ≠ a) by (intros ->; apply Hnt; by exists r, t).
      rewrite fn_lookup_insert_ne by done. rewrite refc_set_ref_ne; [by eapply TR|apply Hva| |done].
      eapply pt_page_aligned; [by eapply R|done].
    + intros b Hb. specialize (C b Hb). destruct (decide (b = a)) as [->|Hne].
      * rewrite fn_lookup_insert. lia.
      * rewrite fn_lookup_insert_ne by done.
        rewrite refc_set_ref_ne; [done|apply Hva|apply Hb|done].
  - intros q Hq Hne. apply refc_set_ref_ne; [apply Hva|done|done].
Qed.

(** ** Storing into an entry of user memory *)
Definition own_store (own : Z → Z) (old new : option Z) : Z → Z :=
  λ a, own a + delta old a - delta new a.

Lemma TRAPFRAME_lt_MAXVA : TRAPFRAME < MAXVA.
Proof. reflexivity. Qed.

Lemma vpn_div n : n * PGSIZE / PGSIZE = n.
Proof. apply Z.div_mul. done. Qed.

Lemma vpn_lt_MAXVA n : 0 ≤ n < UVPN → 0 ≤ n * PGSIZE < MAXVA.
Proof. rewrite UVPN_val, MAXVA_val. unfold PGSIZE. lia. Qed.

Lemma vinv_store s l sp maps own r t n slot v :
  vinv s l sp maps own → sp !! r = Some t → 0 ≤ n < UVPN →
  pt_slot t (n * PGSIZE) = Some slot → 0 ≤ v < 2 ^ 64 →
  (∀ a, pte_target v = Some a → valid_page a ∧ ¬ tree_page sp a) →
  vinv (set_mem (st64 (kmem s) slot v) s) l sp (set_map (r, n) (pte_target v) maps)
    (own_store own (maps !! (r, n)) (pte_target v)).
Proof.
  intros Hv Ht Hn Hslot Hvr Htarget. pose proof Hv as [K R T TR D MA DO V C].
  assert (pt_own s t) as Ho by (by eapply vinv_own).
  pose proof (R r t Ht) as Hrep.
  assert (∀ q, q mod PGSIZE = 0 → ¬ pt_page t q →
    same_page (st64 (kmem s) slot v) (kmem s) q) as Hm.
  { intros q Hq Hnp. by eapply same_page_store_slot. }
  assert (∀ r' t', sp !! r' = Some t' → r' ≠ r →
    ∀ q, pt_page t' q → same_page (kmem s) (st64 (kmem s) slot v) q) as Hother.
  { intros r' t' Ht' Hne q Hq. apply same_page_sym, Hm.
    - eapply pt_page_aligned; [by eapply R|done].
    - intros Hq'. apply Hne. by eapply D. }
  split; simpl.
  - by eapply kinv_set_mem_tree.
  - intros r' t' Ht'. destruct (decide (r' = r)) as [->|Hne]; simplify_eq.
    + by eapply pt_rep_store_leaf.
    + eapply pt_rep_frame; [by eapply Hother|by eapply R].
  - done.
  - intros r' t' q Ht' Hq. destruct (TR r' t' q Ht' Hq) as [Hc Hoq]. split; [done|].
    assert (tree_page sp q) as Htq by (by exists r', t'). unfold own_store, delta.
    rewrite decide_False by (by eapply vinv_tree_unmapped).
    rewrite decide_False; [lia|]. intros Ea. by apply Htarget in Ea as [_ Ea].
  - done.
  - intros r' t' n' Ht' Hn'. rewrite lookup_set_map.
    destruct (decide ((r, n) = (r', n'))) as [E|E].
    + simplify_eq. rewrite (pte_of_store_leaf _ _ (n' * PGSIZE)); try done.
      * by rewrite decide_True.
      * by apply vpn_lt_MAXVA.
      * by apply vpn_lt_MAXVA.
    + rewrite (MA r' t' n' Ht' Hn'). f_equal.
      destruct (decide (r' = r)) as [->|Hne]; simplify_eq.
      * rewrite (pte_of_store_leaf _ _ (n * PGSIZE)); try done; try by apply vpn_lt_MAXVA.
        rewrite !vpn_div, decide_False by congruence. done.
      * by apply pte_of_frame, (Hother r' t').
  - intros r' n' a. rewrite lookup_set_map. case_decide as E; [|apply DO].
    simplify_eq. intros _. split; [by eexists|done].
  - intros [r' n'] a. rewrite lookup_set_map. case_decide as E; [|apply V].
    intros Ea. by apply Htarget in Ea as [? _].
  - intros a Ha. unfold own_store. rewrite cnt_set_map.
    change (refc s a = cnt maps a - delta (maps !! (r, n)) a + delta (pte_target v) a +
      (own a + delta (maps !! (r, n)) a - delta (pte_target v) a)).
    rewrite (C a Ha). lia.
Qed.

(** ** Growing a page table *)
Definition own_grow (l l' : list Z) (own : Z → Z) : Z → Z :=
  λ q, if decide (q ∈ l ∧ q ∉ l') then 1 else own q.

Lemma vinv_ext s l sp maps own r t s' l' t' :
  vinv s l sp maps own → (∀ q, q ∈ l → own q = 0) → sp !! r = Some t →
  pt_ext s l t s' l' t' →
  vinv s' l' (<[r := t']> sp) maps (own_grow l l' own).
Proof.
  intros Hv Hfree Ht He. pose proof Hv as [K R T TR D MA DO V C].
  assert (pt_own s t) as Ho by (by eapply vinv_own).
  assert (pt_own s' t') as Ho' by (eapply pt_ext_own; [done..|by eapply R|done]).
  destruct He as [K' R' S' N' F' L' C' M' P'].
  assert (∀ q, q ∈ l → valid_page q) as Hlval.
  { intros q Hq. destruct K as [_ _ Hval _]. by eapply (Forall_forall valid_page l). }
  assert (∀ r' t1 q, sp !! r' = Some t1 → pt_page t1 q → q ∉ l ∧ q mod PGSIZE = 0) as Hnl.
  { intros r' t1 q Ht1 Hq. split.
    - eapply vinv_tree_notin; [done|]. by exists r', t1.
    - eapply pt_page_aligned; [by eapply R|done]. }
  assert (∀ r' t1, sp !! r' = Some t1 → r' ≠ r →
    ∀ q, pt_page t1 q → same_page (kmem s) (kmem s') q) as Hother.
  { intros r' t1 Ht1 Hne q Hq. destruct (Hnl r' t1 q Ht1 Hq). apply same_page_sym, M'; try done.
    intros Hq'. apply Hne. by eapply D. }
  split.
  - done.
  - intros r' t1. rewrite lookup_insert. case_decide as E; intros; simplify_eq; [done|].
    eapply pt_rep_frame; [eapply Hother; [done|done]|by eapply R].
  - intros r' t1. rewrite lookup_insert. case_decide as E; intros; simplify_eq; [|by eapply T].
    eapply lookup_weaken; [by eapply T|done].
  - intros r' t1 q Ht1 Hq. unfold own_grow. rewrite lookup_insert in Ht1.
    case_decide as E; simplify_eq.
    + split; [by apply Ho'|]. case_decide as E'; [done|].
      destruct (N' q Hq) as [Hq'|(? & ? & _)]; [by eapply TR|tauto].
    + destruct (Hnl r' t1 q Ht1 Hq). rewrite C' by done.
      rewrite decide_False by tauto. by eapply TR.
  - intros r1 r2 t1 t2 q. rewrite !lookup_insert. intros H1 H2 Hq1 Hq2.
    do 2 case_decide; simplify_eq; [done| | |by eapply D].
    + destruct (N' q Hq2) as [?|(? & _)]; [by eapply D|]. by destruct (Hnl r1 t1 q H1 Hq1).
    + destruct (N' q Hq1) as [?|(? & _)]; [by eapply D|]. by destruct (Hnl r2 t2 q H2 Hq2).
  - intros r' t1 n Ht1 Hn. rewrite lookup_insert in Ht1. case_decide as E; simplify_eq.
    + rewrite P' by (by apply vpn_lt_MAXVA). by eapply MA.
    + rewrite (MA r' t1 n Ht1 Hn). f_equal. apply pte_of_frame. by apply (Hother r').
  - intros r' n a Ha. destruct (DO r' n a Ha) as [[t1 Ht1] ?]. split; [|done].
    rewrite lookup_insert. case_decide; by eexists.
  - done.
  - intros a Ha. unfold own_grow. destruct (decide (a ∈ l)) as [Hal|Hal].
    + destruct (cnt_free _ _ _ _ _ a Hv) as [Hc0 Ho0]; [by rewrite Hfree|done|].
      case_decide as E.
      * destruct (L' a Hal) as [?|Hp]; [tauto|]. rewrite (Ho' a Hp). lia.
      * assert (a ∈ l') as Hal' by (destruct (decide (a ∈ l')); tauto).
        rewrite (proj2 (kinv_free _ _ _ K' a Ha I)) by done. lia.
    + rewrite C'; [|apply Ha|done]. rewrite decide_False by tauto. by apply C.
Qed.

(** The balance only depends on [own] pointwise. *)
#[export] Instance vinv_proper s l sp maps :
  Proper (pointwise_relation Z (=) ==> iff) (vinv s l sp maps).
Proof.
  assert (∀ o o', pointwise_relation Z (=) o o' → vinv s l sp maps o → vinv s l sp maps o') as Himp.
  { intros o o' E [K R T TR D MA DO V C]. split; try done.
    - intros r t q Ht Hq. rewrite <-(E q). eauto.
    - intros a Ha. rewrite <-(E a). auto. }
  intros o o' E. split; apply Himp; [done|by symmetry].
Qed.

Lemma vinv_own_ext s l sp maps own own' :
  (∀ a, own a = own' a) → vinv s l sp maps own → vinv s l sp maps own'.
Proof. intros E. apply (vinv_proper s l sp maps own own' E). Qed.

(** Nothing is owed: at the boundaries of the operations the kernel's share of
    the references is nonnegative, so free pages are neither mapped nor owned. *)
Definition settled (own : Z → Z) : Prop := ∀ a, 0 ≤ own a.

Lemma settled_free s l sp maps own :
  vinv s l sp maps own → settled own → ∀ q, q ∈ l → own q = 0.
Proof. intros Hv Ho q Hq. by eapply cnt_free. Qed.

Lemma settled_grow l l' own : settled own → settled (own_grow l l' own).
Proof. intros Ho a. unfold own_grow. case_decide; [lia|apply Ho]. Qed.

Lemma mapped_refc s l sp maps own k a :
  vinv s l sp maps own → settled own → maps !! k = Some a → 1 ≤ refc s a.
Proof.
  intros Hv Ho Hk. rewrite (vi_count _ _ _ _ _ Hv) by (by eapply vi_valid).
  pose proof (cnt_pos _ _ _ Hk). pose proof (Ho a). lia.
Qed.

Lemma mapped_notin s l sp maps own k a :
  vinv s l sp maps own → settled own → maps !! k = Some a → a ∉ l.
Proof.
  intros Hv Ho Hk. eapply kinv_notin; [by eapply vi_kinv|by eapply vi_valid|].
  pose proof (mapped_refc _ _ _ _ _ _ _ Hv Ho Hk). lia.
Qed.

(** Pages that an operation on page tables must leave alone. *)
Definition wframe (s : kst) (l : list Z) (sp : gmap Z ptree) (s' : kst) : Prop :=
  ∀ q, q mod PGSIZE = 0 → ¬ tree_page sp q → q ∉ l → same_page (kmem s') (kmem s) q.

Lemma walk_space `{!KernelImageOk} s l sp maps own r t va :
  vinv s l sp maps own → sp !! r = Some t → va < MAXVA →
  walk r va false s = Ok (default 0 (pt_slot t va), s).
Proof. intros Hv Ht Hva. apply walk_false; [by eapply vi_rep|by eapply vi_root|done]. Qed.

Lemma slot_eqb_0 `{!KernelImageOk} s l sp maps own r t va slot :
  vinv s l sp maps own → sp !! r = Some t → pt_slot t va = Some slot → (slot =? 0) = false.
Proof.
  intros Hv Ht Hs. apply Z.eqb_neq. eapply pt_slot_nonzero; [by eapply vi_rep|done].
Qed.

Lemma tree_page_insert (sp : gmap Z ptree) r t t' q :
  sp !! r = Some t → (∀ q, pt_page t' q → pt_page t q) →
  tree_page (<[r := t']> sp) q → tree_page sp q.
Proof.
  intros Ht Hsub (r' & t1 & Ht1 & Hq). rewrite lookup_insert in Ht1.
  case_decide; simplify_eq; [exists r', t|exists r', t1]; auto.
Qed.
End space.
