(* ===== verification/VmOps.v ===== *)
(** The operations of [kernel/vm.c] on address spaces: each of them keeps the
    reference counts exact (invariant {!VmSpace.vinv}) and changes the page
    tables and the contents of memory as stated. *)

From stdpp Require Import functions.
From S2P Require Import Prelude Riscv Mem Str Kalloc Vm VmTree VmSpace.

Section ops.
Context `{KernelImage} `{!KernelImageOk}.

(** Entries of the other address spaces are untouched. *)
Definition other_ptes (s s' : kst) (sp : gmap Z ptree) (r : Z) : Prop :=
  ∀ r' t va, sp !! r' = Some t → r' ≠ r → pte_of (kmem s') t va = pte_of (kmem s) t va.

Lemma user_va n : 0 ≤ n < UVPN → 0 ≤ n * PGSIZE < 2 ^ 38.
Proof. intros Hn%vpn_lt_MAXVA. rewrite MAXVA_val in Hn. lia. Qed.

Lemma flag_set_0 f : flag_set 0 f = false.
Proof. unfold flag_set. by rewrite Z.land_0_l. Qed.

Lemma pte_of_slot m t va a : pt_slot t va = Some a → pte_of m t va = ld64 m a.
Proof. intros E. unfold pte_of. by rewrite E. Qed.
Lemma pte_of_page m t n va : va / PGSIZE = n → pte_of m t va = pte_of m t (n * PGSIZE).
Proof.
  intros E. unfold pte_of, pt_slot.
  rewrite !(PX_page _ va (n * PGSIZE)); try done; by rewrite E, vpn_div.
Qed.

Lemma pte_of_None m t va : pt_slot t va = None → pte_of m t va = 0.
Proof. intros E. unfold pte_of. by rewrite E. Qed.

Lemma other_ptes_frame s s' l sp maps own r t :
  vinv s l sp maps own → sp !! r = Some t →
  (∀ q, q mod PGSIZE = 0 → tree_page sp q → ¬ pt_page t q → same_page (kmem s') (kmem s) q) →
  other_ptes s s' sp r.
Proof.
  intros Hv Ht Hs r' t' va Ht' Hne. symmetry. apply pte_of_frame. intros q Hq.
  apply same_page_sym, Hs.
  - eapply pt_page_aligned; [by eapply vi_rep|done].
  - by exists r', t'.
  - intros Hq'. apply Hne. by eapply vi_disj.
Qed.

(** ** uvmunmap *)

(** The entry after [uvmunmap] has visited it. *)
Definition unmap_pte (v : Z) : Z := if flag_set v PTE_V then 0 else v.

Lemma unmap_pte_mapped v a : pte_target v = Some a → unmap_pte v = 0.
Proof. unfold pte_target, unmap_pte. by destruct (flag_set v PTE_V). Qed.

Lemma uvmunmap_body_ok s l sp maps own r t n bound :
  vinv s l sp maps own → settled own → sp !! r = Some t → 0 ≤ n < UVPN →
  n * PGSIZE < bound →
  ∃ s' l', uvmunmap_body r bound true (n * PGSIZE) s = Ok (inl ((n + 1) * PGSIZE), s') ∧
    vinv s' l' sp (delete (r, n) maps) own ∧
    (∀ q, q ∈ l → q ∈ l') ∧
    (∀ q, q mod PGSIZE = 0 → ¬ tree_page sp q → q ∉ l' → same_page (kmem s') (kmem s) q) ∧
    (∀ va, 0 ≤ va < MAXVA → pte_of (kmem s') t va =
       if decide (va / PGSIZE = n) then unmap_pte (pte_of (kmem s) t va)
       else pte_of (kmem s) t va) ∧
    other_ptes s s' sp r.
Proof.
  intros Hv Ho Ht Hn Hb. pose proof (user_va n Hn) as Hva.
  assert (n * PGSIZE < MAXVA) as HM by (rewrite MAXVA_val; lia).
  assert (u64 (n * PGSIZE + PGSIZE) = (n + 1) * PGSIZE) as Hnext.
  { rewrite u64_small; unfold PGSIZE in *; lia. }
  pose proof (vi_maps _ _ _ _ _ Hv r t n Ht Hn) as Hmaps.
  unfold uvmunmap_body. destruct (Z.ltb_spec (n * PGSIZE) bound); [|lia].
  msimpl. rewrite (walk_space s l sp maps own r t) by done.
  pose proof (pte_of_page (kmem s) t n) as Hsame.
  destruct (decide (flag_set (pte_of (kmem s) t (n * PGSIZE)) PTE_V = true)) as [HV|HV].
  - (* the page is mapped *)
    unfold pte_target in Hmaps. rewrite HV in Hmaps.
    destruct (pt_slot t (n * PGSIZE)) as [slot|] eqn:Es; cycle 1.
    { rewrite (pte_of_None _ _ _ Es), flag_set_0 in HV. done. }
    rewrite (pte_of_slot _ _ _ _ Es) in HV, Hmaps. change (default 0 (Some slot)) with slot.
    rewrite (slot_eqb_0 s l sp maps own r t (n * PGSIZE)) by done.
    unfold load64, store64. msimpl.
    rewrite HV. msimpl.
    set (pa := PTE2PA (ld64 (kmem s) slot)) in *.
    assert (valid_page pa) as Hpa by (by eapply vi_valid).
    assert (¬ tree_page sp pa) as Hnt by (intros ?; by eapply vinv_tree_unmapped).
    destruct (vinv_kfree s l sp maps own pa) as (s1 & l1 & Hrun & Hv1 & Hl1 & Hm1 & Hc1);
      [done|done|by eapply mapped_refc|done|].
    rewrite Hrun. rewrite Hnext.
    assert (∀ q, pt_page t q → q mod PGSIZE = 0 ∧ q ≠ pa) as Htp.
    { intros q Hq. split; [eapply pt_page_aligned; [by eapply vi_rep|done]|].
      intros ->. apply Hnt. by exists r, t. }
    eexists _, l1. split; [done|]. split_and!.
    + eapply vinv_own_ext; [|eapply (vinv_store s1 l1 sp maps _ r t n slot 0); try done].
      * intros a. unfold own_store, pte_target. rewrite flag_set_0, Hmaps. unfold delta.
        destruct (decide (a = pa)) as [->|Hne].
        -- rewrite fn_lookup_insert. rewrite !decide_True by done.
           rewrite decide_False by done. lia.
        -- rewrite fn_lookup_insert_ne by done. rewrite !decide_False by congruence. lia.
    + intros q Hq. case_decide; [subst l1; by right|]. by destruct Hl1 as [-> _].
    + intros q Hq Hnq Hnl. simpl. eapply same_page_trans.
      * eapply (same_page_store_slot (kmem s) _ t); [by eapply vi_rep|done|done|].
        intros ?. apply Hnq. by exists r, t.
      * case_decide as Ec.
        -- apply Hm1; [done|]. intros ->. apply Hnl. subst l1. by left.
        -- destruct Hl1 as [_ ->]. apply same_page_refl.
    + intros va Hvar. simpl. rewrite (pte_of_store_leaf _ _ (n * PGSIZE));
        [|by eapply vi_rep|done|done|by apply vpn_lt_MAXVA|done].
      rewrite vpn_div. destruct (decide (va / PGSIZE = n)) as [Ed|Ed].
      * rewrite (Hsame va Ed), (pte_of_slot _ _ _ _ Es). unfold unmap_pte. by rewrite HV.
      * symmetry. apply pte_of_frame. intros q Hq. destruct (Htp q Hq).
        by apply same_page_sym, Hm1.
    + clear Hl1. eapply other_ptes_frame; [done..|]. intros q Hq Hqt Hqn. simpl.
      eapply same_page_trans.
      * eapply (same_page_store_slot (kmem s) _ t); [by eapply vi_rep|done|done|done].
      * apply Hm1; [done|]. by intros ->.
  - (* nothing to do *)
    assert (maps !! (r, n) = None) as Hnone.
    { rewrite Hmaps. unfold pte_target. by destruct (flag_set _ PTE_V). }
    exists s, l. split.
    { destruct (pt_slot t (n * PGSIZE)) as [slot|] eqn:Es; [|by rewrite Hnext].
      change (default 0 (Some slot)) with slot.
      rewrite (pte_of_slot _ _ _ _ Es) in HV.
      rewrite (slot_eqb_0 s l sp maps own r t (n * PGSIZE)) by done.
      unfold load64. msimpl. destruct (flag_set _ PTE_V); [done|]. by rewrite Hnext. }
    split_and!.
    + by rewrite delete_id.
    + auto.
    + intros. apply same_page_refl.
    + intros va Hvar. case_decide as Ed; [|done]. rewrite (Hsame va Ed). unfold unmap_pte.
      by destruct (flag_set _ PTE_V).
    + intros r' t' va Ht' Hne. reflexivity.
Qed.

(** [uvmunmap] with [do_free] drops the user mappings of a range of pages and
    gives up one reference for each; pages still referenced keep their
    contents. *)
Lemma uvmunmap_loop k : ∀ fuel s l sp maps own r t n,
  (k < fuel)%nat → vinv s l sp maps own → settled own → sp !! r = Some t →
  0 ≤ n → n + Z.of_nat k ≤ UVPN →
  ∃ s' l' maps',
    loop fuel (uvmunmap_body r ((n + Z.of_nat k) * PGSIZE) true) (n * PGSIZE) s = Ok (tt, s') ∧
    vinv s' l' sp maps' own ∧
    (∀ r' i, maps' !! (r', i) =
       if decide (r' = r ∧ n ≤ i < n + Z.of_nat k) then None else maps !! (r', i)) ∧
    (∀ q, q ∈ l → q ∈ l') ∧
    (∀ q, q mod PGSIZE = 0 → ¬ tree_page sp q → q ∉ l' → same_page (kmem s') (kmem s) q) ∧
    (∀ va, 0 ≤ va < MAXVA → pte_of (kmem s') t va =
       if decide (n ≤ va / PGSIZE < n + Z.of_nat k) then unmap_pte (pte_of (kmem s) t va)
       else pte_of (kmem s) t va) ∧
    other_ptes s s' sp r.
Proof.
  induction k as [|k IH]; intros fuel s l sp maps own r t n Hfuel Hv Ho Ht Hn Hk;
    (destruct fuel as [|fuel]; [lia|]); cbn [loop].
  - exists s, l, maps. split.
    { unfold uvmunmap_body. rewrite Z.add_0_r, Z.ltb_irrefl. done. }
    split_and!; [done| |auto| | |].
    + intros r' i. rewrite decide_False by lia. done.
    + intros. apply same_page_refl.
    + intros va Hva. rewrite decide_False by lia. done.
    + intros r' t' va Ht' Hne. reflexivity.
  - destruct (uvmunmap_body_ok s l sp maps own r t n ((n + Z.of_nat (S k)) * PGSIZE))
      as (s1 & l1 & Hrun & Hv1 & Hl1 & Hm1 & Hp1 & Hot1); [done..|lia|unfold PGSIZE; lia|].
    rewrite (bind_Ok_1 _ _ _ _ _ Hrun).
    destruct (IH fuel s1 l1 sp (delete (r, n) maps) own r t (n + 1))
      as (s2 & l2 & maps2 & Hrun2 & Hv2 & Hmaps2 & Hl2 & Hm2 & Hp2 & Hot2); [lia|done..|lia|lia|].
    replace (n + Z.of_nat (S k)) with (n + 1 + Z.of_nat k) by lia.
    exists s2, l2, maps2. split; [done|]. split_and!; [done| | | | |].
    + intros r' i. rewrite Hmaps2, lookup_delete.
      destruct (decide (r' = r)) as [->|]; [destruct (decide (i = n)) as [->|]|];
        repeat case_decide; simplify_eq; try done; lia.
    + auto.
    + intros q Hq Hnt Hnl. eapply same_page_trans; [by apply Hm2|]. apply Hm1; auto.
    + intros va Hva. rewrite Hp2, Hp1 by done. repeat case_decide; try done; lia.
    + intros r' t' va Ht' Hne. rewrite (Hot2 r' t') by done. by apply (Hot1 r' t').
Qed.

Lemma uvmunmap_space s l sp maps own r t n k :
  vinv s l sp maps own → settled own → sp !! r = Some t → 0 ≤ n → 0 ≤ k → n + k ≤ UVPN →
  ∃ s' l' maps', uvmunmap r (n * PGSIZE) k true s = Ok (tt, s') ∧
    vinv s' l' sp maps' own ∧
    (∀ r' i, maps' !! (r', i) =
       if decide (r' = r ∧ n ≤ i < n + k) then None else maps !! (r', i)) ∧
    (∀ q, q ∈ l → q ∈ l') ∧
    (∀ q, q mod PGSIZE = 0 → ¬ tree_page sp q → q ∉ l' → same_page (kmem s') (kmem s) q) ∧
    (∀ va, 0 ≤ va < MAXVA → pte_of (kmem s') t va =
       if decide (n ≤ va / PGSIZE < n + k) then unmap_pte (pte_of (kmem s) t va)
       else pte_of (kmem s) t va) ∧
    other_ptes s s' sp r.
Proof.
  intros Hv Ho Ht Hn Hk Hnk.
  destruct (uvmunmap_loop (Z.to_nat k) (S (Z.to_nat k)) s l sp maps own r t n)
    as (s' & l' & maps' & Hrun & Hrest); [lia|done..|lia|].
  rewrite Z2Nat.id in Hrun, Hrest by done.
  exists s', l', maps'. split; [|exact Hrest].
  unfold uvmunmap. rewrite Z.mod_mul by done. cbn [negb Z.eqb].
  rewrite UVPN_val in Hnk.
  rewrite (u64_small (k * PGSIZE)), u64_small by (unfold PGSIZE; lia).
  by rewrite <-Z.mul_add_distr_r.
Qed.

(** ** mappages of a user page *)

(** What [mappages] leaves unchanged outside the page table it extends. *)
Record map_frame (s : kst) (l : list Z) (sp : gmap Z ptree) (r : Z) (t : ptree)
    (s' : kst) (l' : list Z) (t' : ptree) : Prop := {
  mf_page : wframe s l sp s';
  mf_pte : other_ptes s s' sp r;
  mf_free : ∀ q, q ∈ l' → q ∈ l;
  mf_refc : ∀ q, q mod PGSIZE = 0 → q ∉ l → refc s' q = refc s q;
  mf_tree : ∀ q, pt_page t' q → pt_page t q ∨ q ∈ l;
  mf_sub : t ⊆ t';
  mf_noleak : ∀ q, q ∈ l → q ∈ l' ∨ pt_page t' q;
}.

Lemma pt_ext_map_frame s l sp maps own r t s' l' t' :
  vinv s l sp maps own → sp !! r = Some t → pt_ext s l t s' l' t' →
  map_frame s l sp r t s' l' t'.
Proof.
  intros Hv Ht [K' R' S' N' F' L' C' M' P']. split; [| |done|done| |done|done].
  - intros q Hq Hnt Hl. apply M'; [done| |done]. intros Hp. apply Hnt. by exists r, t.
  - eapply other_ptes_frame; [done..|]. intros q Hq Hqt Hqn. apply M'; [done..|].
    by eapply vinv_tree_notin.
  - intros q Hq. destruct (N' q Hq) as [?|(? & _)]; auto.
Qed.

Lemma map_frame_store s l sp maps own r t s1 l1 t1 va slot v :
  vinv s l sp maps own → sp !! r = Some t → pt_ext s l t s1 l1 t1 →
  pt_slot t1 va = Some slot →
  map_frame s l sp r t (set_mem (st64 (kmem s1) slot v) s1) l1 t1.
Proof.
  intros Hv Ht He Hslot.
  pose proof (pt_ext_map_frame _ _ _ _ _ _ _ _ _ _ Hv Ht He) as [M1 M2 M3 M4 M5 M6 M7].
  pose proof (ext_rep _ _ _ _ _ _ _ He) as Hr1.
  split; [| |done|done|done|done|done].
  - intros q Hq Hnt Hl. simpl. eapply same_page_trans; [|by apply M1].
    eapply same_page_store_slot; [done..|]. intros Hp.
    destruct (M5 q Hp); [|done]. apply Hnt. by exists r, t.
  - intros r' t' va' Ht' Hne. simpl. rewrite <-(M2 r' t' va' Ht' Hne). symmetry.
    apply pte_of_frame. intros q Hq. apply same_page_sym.
    eapply same_page_store_slot; [done|done| |].
    + eapply pt_page_aligned; [by eapply vi_rep|done].
    + intros Hp. destruct (M5 q Hp) as [Hp'|Hp'].
      * apply Hne. by eapply vi_disj.
      * eapply vinv_tree_notin; [done| |done]. by exists r', t'.
Qed.

Lemma leaf_pte_target pa perm :
  valid_page pa → perm_ok perm → pte_target (leaf_pte pa perm) = Some pa.
Proof.
  intros Hpa Hperm. unfold pte_target. rewrite leaf_pte_flags.
  assert (0 ≤ Z.lor perm PTE_V < 1024) by (apply lor_lt_1024; [done|by compute]).
  rewrite PTE2PA_lor; [|by apply valid_page_pa|apply Hpa|done].
  assert (flag_set (Z.lor (PA2PTE pa) (Z.lor perm PTE_V)) PTE_V = true) as ->; [|done].
  unfold flag_set. rewrite negb_true_iff, Z.eqb_neq. intros E.
  assert (Z.testbit (Z.land (Z.lor (PA2PTE pa) (Z.lor perm PTE_V)) PTE_V) 0 = true) as E'.
  { rewrite Z.land_spec, !Z.lor_spec. by rewrite !orb_true_r. }
  by rewrite E in E'.
Qed.

Lemma vinv_mappages s l sp maps own r t n pa perm :
  vinv s l sp maps own → settled own → sp !! r = Some t → 0 ≤ n < UVPN →
  maps !! (r, n) = None → valid_page pa → ¬ tree_page sp pa → pa ∉ l → perm_ok perm →
  ∃ s' l' t', map_frame s l sp r t s' l' t' ∧
    ((mappages r (n * PGSIZE) PGSIZE pa perm s = Ok (-1, s') ∧ l' = [] ∧
      vinv s' [] (<[r := t']> sp) maps (own_grow l [] own) ∧
      (∀ va, 0 ≤ va < MAXVA → pte_of (kmem s') t' va = pte_of (kmem s) t va)) ∨
     (mappages r (n * PGSIZE) PGSIZE pa perm s = Ok (0, s') ∧
      vinv s' l' (<[r := t']> sp) (<[(r, n) := pa]> maps)
        (own_store (own_grow l l' own) None (Some pa)) ∧
      (∀ va, 0 ≤ va < MAXVA → pte_of (kmem s') t' va =
         map_page (pte_of (kmem s) t) (n * PGSIZE) (leaf_pte pa perm) va))).
Proof.
  intros Hv Ho Ht Hn Hnone Hpa Hnt Hnl Hperm.
  pose proof (vpn_lt_MAXVA n Hn) as Hva.
  pose proof (valid_page_pa pa Hpa) as Hpar.
  assert (flag_set (pte_of (kmem s) t (n * PGSIZE)) PTE_V = false) as HV.
  { pose proof (vi_maps _ _ _ _ _ Hv r t n Ht Hn) as E. rewrite Hnone in E.
    unfold pte_target in E. by destruct (flag_set _ PTE_V). }
  destruct (mappages_run s l t r (n * PGSIZE) pa perm)
    as (s1 & l1 & t1 & He & [[-> Hrun]|(slot & Hs & Hrun)]).
  - by eapply vi_kinv.
  - by eapply vi_rep.
  - by eapply vinv_own.
  - by eapply vi_root.
  - done.
  - by apply Z.mod_mul.
  - done.
  - exists s1, [], t1. split; [by eapply pt_ext_map_frame|]. left. split; [done|]. split; [done|].
    split; [|apply He]. eapply vinv_ext; try done. by eapply settled_free.
  - eexists _, l1, t1. split; [by eapply map_frame_store|]. right. split; [done|].
    assert (vinv s1 l1 (<[r := t1]> sp) maps (own_grow l l1 own)) as Hv1.
    { eapply vinv_ext; try done. by eapply settled_free. }
    pose proof (leaf_pte_target pa perm Hpa Hperm) as Htarget.
    split.
    + pose proof (vinv_store s1 l1 (<[r := t1]> sp) maps (own_grow l l1 own) r t1 n slot
        (leaf_pte pa perm) Hv1) as Hst.
      rewrite Htarget, Hnone in Hst. apply Hst; [apply lookup_insert_eq|done|done| |].
      * by apply leaf_pte_range.
      * intros a [= <-]. split; [done|]. intros (r' & t' & Ht' & Hp).
        rewrite lookup_insert in Ht'. case_decide; simplify_eq.
        -- destruct (ext_new _ _ _ _ _ _ _ He pa Hp) as [?|(? & _)]; [|done].
           apply Hnt. by exists r', t.
        -- apply Hnt. by exists r', t'.
    + intros va Hvar. simpl. unfold map_page.
      rewrite (pte_of_store_leaf _ _ (n * PGSIZE)); [|apply He|done| |done|done].
      * case_decide; [done|]. by apply (ext_pte _ _ _ _ _ _ _ He).
      * by apply leaf_pte_range.
Qed.

(** ** uvmcopy *)

(** The parent's entry after [uvmcopy] has visited it, and the child's. *)
Definition cow_pte (v : Z) : Z :=
  if flag_set v PTE_V && flag_set (PTE_FLAGS v) PTE_W
  then Z.lor (Z.land v (Z.lnot PTE_W)) PTE_COW else v.
Definition child_pte (v : Z) : Z := leaf_pte (PTE2PA v) (cow_flags (PTE_FLAGS v)).

Lemma flag_set_spec v k : 0 ≤ k → flag_set v (2 ^ k) = Z.testbit v k.
Proof.
  intros Hk. unfold flag_set. rewrite land_pow2_eqb by done. by rewrite negb_involutive.
Qed.

Lemma mark_testbit v k : 0 ≤ k →
  Z.testbit (Z.lor (Z.land v (Z.lnot PTE_W)) PTE_COW) k =
    if decide (k = 2) then false else if decide (k = 8) then true else Z.testbit v k.
Proof.
  intros Hk. rewrite Z.lor_spec, Z.land_spec, Z.lnot_spec by done.
  change PTE_W with (2 ^ 2). change PTE_COW with (2 ^ 8). rewrite !Z.pow2_bits_eqb by lia.
  destruct (decide (k = 2)) as [->|]; [by rewrite andb_false_r|].
  destruct (decide (k = 8)) as [->|]; [by rewrite orb_true_r|].
  rewrite !(proj2 (Z.eqb_neq _ _)) by lia. by rewrite andb_true_r, orb_false_r.
Qed.

Lemma bits_below x n : 0 ≤ n → (∀ k, n ≤ k → Z.testbit x k = false) → 0 ≤ x < 2 ^ n.
Proof.
  intros Hn Hk. assert (x = x mod 2 ^ n) as ->; [|apply Z.mod_pos_bound; lia].
  apply Z.bits_inj'. intros k Hk0. destruct (decide (k < n)).
  - by rewrite Z.mod_pow2_bits_low by lia.
  - rewrite Z.mod_pow2_bits_high by lia. apply Hk. lia.
Qed.

Lemma bits_above x n k : 0 ≤ x < 2 ^ n → n ≤ k → Z.testbit x k = false.
Proof.
  intros Hx Hk. destruct (decide (n < 0)); [rewrite Z.pow_neg_r in Hx by done; lia|].
  rewrite <-(Z.mod_small x (2 ^ n)) by done. apply Z.mod_pow2_bits_high. lia.
Qed.

Lemma cow_pte_range v : 0 ≤ v < 2 ^ 64 → 0 ≤ cow_pte v < 2 ^ 64.
Proof.
  intros Hv. unfold cow_pte. destruct (_ && _); [|done]. apply bits_below; [done|].
  intros k Hk. rewrite mark_testbit by lia. rewrite !decide_False by lia. by eapply bits_above.
Qed.

Lemma flag_set_flags v k : 0 ≤ k < 10 → flag_set (PTE_FLAGS v) (2 ^ k) = flag_set v (2 ^ k).
Proof.
  intros Hk. rewrite !flag_set_spec by lia. unfold PTE_FLAGS. change 0x3FF with (Z.ones 10).
  rewrite Z.land_spec, Z.ones_spec_low by lia. apply andb_true_r.
Qed.

Lemma cow_pte_flag v k : 0 ≤ k → k ≠ 2 → k ≠ 8 → flag_set (cow_pte v) (2 ^ k) = flag_set v (2 ^ k).
Proof.
  intros Hk H2 H8. unfold cow_pte. destruct (_ && _); [|done].
  rewrite !flag_set_spec, mark_testbit by done. by rewrite !decide_False by done.
Qed.

Lemma cow_pte_target v : pte_target (cow_pte v) = pte_target v.
Proof.
  unfold pte_target. change PTE_V with (2 ^ 0). rewrite cow_pte_flag by done.
  destruct (flag_set v (2 ^ 0)); [|done]. f_equal. unfold PTE2PA. do 2 f_equal.
  apply Z.bits_inj'. intros k Hk. rewrite !Z.shiftr_spec by done.
  unfold cow_pte. destruct (_ && _); [|done]. rewrite mark_testbit by lia.
  by rewrite !decide_False by lia.
Qed.

(** A shared page is writable on neither side, and marked if it was writable. *)
Lemma cow_pte_valid v :
  flag_set v PTE_V = true → flag_set (cow_pte v) PTE_W = false ∧
  (flag_set v PTE_W = true → flag_set (cow_pte v) PTE_COW = true).
Proof.
  intros HV. unfold cow_pte. rewrite HV. change PTE_W with (2 ^ 2). change PTE_COW with (2 ^ 8).
  rewrite flag_set_flags by lia. cbn [andb].
  destruct (flag_set v (2 ^ 2)) eqn:E; [|done]. rewrite !flag_set_spec, !mark_testbit by lia. done.
Qed.

Lemma cow_pte_idemp v : cow_pte (cow_pte v) = cow_pte v.
Proof.
  destruct (flag_set v PTE_V) eqn:HV; cycle 1.
  { unfold cow_pte at 2 3. rewrite HV. cbn [andb]. unfold cow_pte. by rewrite HV. }
  unfold cow_pte at 1. change (PTE_FLAGS (cow_pte v)) with (PTE_FLAGS (cow_pte v)).
  change PTE_W with (2 ^ 2) at 1. rewrite flag_set_flags by lia.
  destruct (cow_pte_valid v HV) as [HW _]. change PTE_W with (2 ^ 2) in HW.
  by rewrite HW, andb_false_r.
Qed.

Lemma cow_flags_range f : 0 ≤ f < 1024 → 0 ≤ cow_flags f < 1024.
Proof.
  intros Hf. unfold cow_flags. destruct (flag_set f PTE_W); [|done].
  apply (bits_below _ 10); [done|]. intros k Hk. rewrite mark_testbit by lia.
  rewrite !decide_False by lia. by apply (bits_above f 10).
Qed.

(** Both sides end up with the same flags. *)
Lemma child_pte_flags v k : 0 ≤ k < 10 → flag_set v PTE_V = true →
  valid_page (PTE2PA v) → flag_set (child_pte v) (2 ^ k) = flag_set (cow_pte v) (2 ^ k).
Proof.
  intros Hk HV Hpa. pose proof (valid_page_pa _ Hpa).
  pose proof (cow_flags_range _ (PTE_FLAGS_range v)) as Hr.
  assert (0 ≤ Z.lor (cow_flags (PTE_FLAGS v)) PTE_V < 1024) by (apply lor_lt_1024; [done|by compute]).
  rewrite <-(flag_set_flags (child_pte v)) by done.
  unfold child_pte. rewrite leaf_pte_flags, PTE_FLAGS_lor by done.
  rewrite !flag_set_spec by lia. rewrite Z.lor_spec. change PTE_V with (2 ^ 0).
  rewrite Z.pow2_bits_eqb by lia. unfold cow_flags, cow_pte. rewrite HV. cbn [andb].
  assert (Z.testbit (PTE_FLAGS v) k = Z.testbit v k) as Hf
    by (rewrite <-!flag_set_spec by lia; apply flag_set_flags; lia).
  assert (k = 0 → Z.testbit v k = true) as Hk0
    by (intros ->; by rewrite <-flag_set_spec).
  destruct (flag_set (PTE_FLAGS v) PTE_W); rewrite ?mark_testbit, ?Hf by lia;
    destruct (Z.eqb_spec 0 k); subst; rewrite ?orb_false_r, ?orb_true_r; try done.
  - rewrite !decide_False by lia. by rewrite Hk0.
  - by rewrite Hk0.
Qed.

Lemma child_pte_target v : valid_page (PTE2PA v) → pte_target (child_pte v) = Some (PTE2PA v).
Proof.
  intros Hpa. unfold child_pte. rewrite leaf_pte_target; [done|done|].
  apply cow_flags_range, PTE_FLAGS_range.
Qed.
End ops.
