(* ===== verification/VmCopy.v ===== *)
(** Copy-on-write fork: [uvmcopy] of [kernel/vm.c].

    The loop over the parent's pages is followed page by page; the invariant
    carries the exact reference counts, so both the success and the failure
    path (which unmaps what was shared so far) end in a balanced state. *)

From stdpp Require Import functions.
From S2P Require Import Prelude Riscv Mem Str Kalloc Vm VmTree VmSpace VmOps.

Section copy.
Context `{KernelImage} `{!KernelImageOk}.

(** Clearing the parent's write permission. *)
Lemma cow_mark s l sp maps own r t n slot pa :
  vinv s l sp maps own → sp !! r = Some t → 0 ≤ n < UVPN →
  pt_slot t (n * PGSIZE) = Some slot → maps !! (r, n) = Some pa →
  ∃ s1, (if flag_set (PTE_FLAGS (ld64 (kmem s) slot)) PTE_W
         then store64 slot (Z.lor (Z.land (ld64 (kmem s) slot) (Z.lnot PTE_W)) PTE_COW)
         else mret tt) s = Ok (tt, s1) ∧
    vinv s1 l sp maps own ∧ wframe s l sp s1 ∧ (∀ q, refc s1 q = refc s q) ∧
    (∀ va, 0 ≤ va < MAXVA → pte_of (kmem s1) t va =
       if decide (va / PGSIZE = n) then cow_pte (pte_of (kmem s) t va)
       else pte_of (kmem s) t va) ∧
    other_ptes s s1 sp r.
Proof.
  intros Hv Ht Hn Hs Hpa. pose proof (pte_of_page (kmem s) t n) as Hsame.
  rewrite (pte_of_slot _ _ _ _ Hs) in Hsame.
  pose proof (vi_maps _ _ _ _ _ Hv r t n Ht Hn) as Hm.
  rewrite (pte_of_slot _ _ _ _ Hs), Hpa in Hm. set (v := ld64 (kmem s) slot) in *.
  assert (flag_set v PTE_V = true) as HV by (unfold pte_target in Hm; by destruct (flag_set v PTE_V)).
  destruct (flag_set (PTE_FLAGS v) PTE_W) eqn:HW; cycle 1.
  { assert (cow_pte v = v) as Hid by (unfold cow_pte; by rewrite HV, HW).
    exists s. split; [done|]. split; [done|]. split; [intros ? _ _ _; apply same_page_refl|].
    split; [done|]. split; [|intros ? ? ? _ _; reflexivity].
    intros va Hva. destruct (decide _) as [Ed|]; [|done]. by rewrite (Hsame va Ed), Hid. }
  assert (Z.lor (Z.land v (Z.lnot PTE_W)) PTE_COW = cow_pte v) as ->
    by (unfold cow_pte; by rewrite HV, HW).
  assert (0 ≤ v < 2 ^ 64) as Hvr by apply ld64_range.
  unfold store64. msimpl. eexists. split; [done|].
  assert (wframe s l sp (set_mem (st64 (kmem s) slot (cow_pte v)) s)) as Hw.
  { intros q Hq Hnt _. simpl. eapply same_page_store_slot; [by eapply vi_rep|done|done|].
    intros Hp. apply Hnt. by exists r, t. }
  split; [|split; [done|split; [done|split]]].
  - pose proof (vinv_store s l sp maps own r t n slot (cow_pte v) Hv Ht Hn Hs) as Hst.
    rewrite cow_pte_target, Hpa, <-Hm in Hst. simpl in Hst. rewrite insert_id in Hst by done.
    eapply vinv_own_ext; [|apply Hst].
    + intros a. unfold own_store. lia.
    + by apply cow_pte_range.
    + intros a [= <-]. split; [by eapply vi_valid|]. intros Htp. by eapply vinv_tree_unmapped.
  - intros va Hva. simpl. rewrite (pte_of_store_leaf _ _ (n * PGSIZE));
      [|by eapply vi_rep|done|by apply cow_pte_range|by apply vpn_lt_MAXVA|done].
    rewrite vpn_div. destruct (decide (va / PGSIZE = n)) as [Ed|]; [|done].
    by rewrite (Hsame va Ed).
  - eapply other_ptes_frame; [done..|]. intros q Hq Hqt Hqn. simpl.
    eapply same_page_store_slot; [by eapply vi_rep|done|done|done].
Qed.

(** What sharing the pages in [n..m) leaves unchanged: every page that is not
    a page-table page or free, and all the other page tables. *)
Record copy_frame (s : kst) (l : list Z) (sp : gmap Z ptree) (old new : Z)
    (t : ptree) (s' : kst) (l' : list Z) (t' : ptree) : Prop := {
  cf_page : wframe s l sp s';
  cf_free : ∀ q, q ∈ l' → q ∈ l;
  cf_pte : ∀ r t va, sp !! r = Some t → r ≠ old → r ≠ new →
    pte_of (kmem s') t va = pte_of (kmem s) t va;
  cf_tree : ∀ q, pt_page t' q → pt_page t q ∨ q ∈ l;
}.

Lemma copy_frame_refl s l sp old new t : copy_frame s l sp old new t s l t.
Proof. split; [intros ? _ _ _; apply same_page_refl|done|done|by left]. Qed.

Lemma copy_tree_page (sp : gmap Z ptree) (l : list Z) new t t' q :
  sp !! new = Some t → (∀ q, pt_page t' q → pt_page t q ∨ q ∈ l) →
  tree_page (<[new := t']> sp) q → tree_page sp q ∨ q ∈ l.
Proof.
  intros Ht Hsub (r & u & Hr & Hp). rewrite lookup_insert in Hr.
  destruct (decide (new = r)) as [<-|]; [injection Hr as <-|].
  - destruct (Hsub q Hp); [left; by exists new, t|by right].
  - left. by exists r, u.
Qed.

Lemma copy_frame_trans s l sp old new t s1 l1 t1 s2 l2 t2 :
  sp !! new = Some t → copy_frame s l sp old new t s1 l1 t1 →
  copy_frame s1 l1 (<[new := t1]> sp) old new t1 s2 l2 t2 →
  copy_frame s l sp old new t s2 l2 t2.
Proof.
  intros Ht [A1 A2 A3 A4] [B1 B2 B3 B4]. split.
  - intros q Hq Hnt Hnl. eapply same_page_trans; [|by apply A1].
    apply B1; [done| |by intros ?%A2].
    intros Htp. by destruct (copy_tree_page _ _ _ _ _ _ Ht A4 Htp).
  - auto.
  - intros r u va Hr H1 H2. rewrite (B3 r u); [by apply (A3 r u)| |done|done].
    by rewrite lookup_insert_ne.
  - intros q Hq. destruct (B4 q Hq); [by apply A4|right; by apply A2].
Qed.

Lemma own_grow_trans (l l1 l2 : list Z) own q :
  (∀ q, q ∈ l1 → q ∈ l) → (∀ q, q ∈ l2 → q ∈ l1) →
  own_grow l1 l2 (own_grow l l1 own) q = own_grow l l2 own q.
Proof.
  intros H1 H2. unfold own_grow.
  destruct (decide (q ∈ l1 ∧ q ∉ l2)) as [[? ?]|Hn];
    destruct (decide (q ∈ l ∧ q ∉ l1)) as [[? ?]|Hn1];
    destruct (decide (q ∈ l ∧ q ∉ l2)) as [[? ?]|Hn2]; try done; exfalso.
  - naive_solver.
  - naive_solver.
  - destruct (decide (q ∈ l1)); naive_solver.
Qed.

Lemma uvmcopy_body_skip s l sp maps own old t new n sz :
  vinv s l sp maps own → sp !! old = Some t → 0 ≤ n < UVPN → n * PGSIZE < sz →
  maps !! (old, n) = None →
  uvmcopy_body old new sz (n * PGSIZE) s = Ok (inl ((n + 1) * PGSIZE), s).
Proof.
  intros Hv Ht Hn Hsz Hnone. pose proof (vpn_lt_MAXVA n Hn) as Hva.
  assert (u64 (n * PGSIZE + PGSIZE) = (n + 1) * PGSIZE) as Hnext.
  { rewrite MAXVA_val in Hva. rewrite u64_small; unfold PGSIZE in *; lia. }
  pose proof (vi_maps _ _ _ _ _ Hv old t n Ht Hn) as Hm. rewrite Hnone in Hm.
  unfold uvmcopy_body. destruct (Z.ltb_spec (n * PGSIZE) sz); [|lia].
  msimpl. rewrite (walk_space s l sp maps own old t) by (done || lia).
  destruct (pt_slot t (n * PGSIZE)) as [slot|] eqn:Es; [|by rewrite Hnext].
  change (default 0 (Some slot)) with slot.
  rewrite (slot_eqb_0 s l sp maps own old t (n * PGSIZE)) by done.
  unfold load64. msimpl. rewrite (pte_of_slot _ _ _ _ Es) in Hm. unfold pte_target in Hm.
  destruct (flag_set _ PTE_V); [done|]. by rewrite Hnext.
Qed.

Lemma uvmcopy_body_mapped s l sp maps own old told new tnew n sz pa :
  vinv s l sp maps own → settled own → old ≠ new →
  sp !! old = Some told → sp !! new = Some tnew → 0 ≤ n < UVPN → n * PGSIZE < sz →
  maps !! (old, n) = Some pa → maps !! (new, n) = None → refc s pa < 65535 →
  ∃ s' l' tnew',
    copy_frame s l sp old new tnew s' l' tnew' ∧
    (∀ va, 0 ≤ va < MAXVA → pte_of (kmem s') told va =
       if decide (va / PGSIZE = n) then cow_pte (pte_of (kmem s) told va)
       else pte_of (kmem s) told va) ∧
    ((uvmcopy_body old new sz (n * PGSIZE) s =
        (uvmunmap new 0 n true ;; mret (inr (-1))) s' ∧ l' = [] ∧
      vinv s' [] (<[new := tnew']> sp) maps (own_grow l [] own)) ∨
     (uvmcopy_body old new sz (n * PGSIZE) s = Ok (inl ((n + 1) * PGSIZE), s') ∧
      vinv s' l' (<[new := tnew']> sp) (<[(new, n) := pa]> maps) (own_grow l l' own) ∧
      (∀ va, 0 ≤ va < MAXVA → pte_of (kmem s') tnew' va =
         if decide (va / PGSIZE = n) then child_pte (pte_of (kmem s) told va)
         else pte_of (kmem s) tnew va) ∧
      (∀ q, valid_page q → q ∉ l →
         refc s' q = refc s q + if decide (q = pa) then 1 else 0))).
Proof.
  intros Hv Ho Hne Ht Htn Hn Hsz Hpa Hnew Hrc. pose proof (vpn_lt_MAXVA n Hn) as Hva.
  assert (u64 (n * PGSIZE + PGSIZE) = (n + 1) * PGSIZE) as Hnext.
  { rewrite MAXVA_val in Hva. rewrite u64_small; unfold PGSIZE in *; lia. }
  pose proof (vi_maps _ _ _ _ _ Hv old told n Ht Hn) as Hm. rewrite Hpa in Hm.
  unfold uvmcopy_body. destruct (Z.ltb_spec (n * PGSIZE) sz); [|lia].
  msimpl. rewrite (walk_space s l sp maps own old told) by (done || lia).
  destruct (pt_slot told (n * PGSIZE)) as [slot|] eqn:Es; cycle 1.
  { rewrite (pte_of_None _ _ _ Es) in Hm. unfold pte_target in Hm. by rewrite flag_set_0 in Hm. }
  change (default 0 (Some slot)) with slot.
  rewrite (slot_eqb_0 s l sp maps own old told (n * PGSIZE)) by done.
  unfold load64. msimpl.
  destruct (cow_mark s l sp maps own old told n slot pa Hv Ht Hn Es Hpa)
    as (s1 & Hrun1 & Hv1 & Hw1 & Hc1 & Hp1 & Hot1).
  pose proof (pte_of_page (kmem s) told n) as Hsame.
  rewrite (pte_of_slot _ _ _ _ Es) in Hm, Hsame. set (v := ld64 (kmem s) slot) in *.
  unfold pte_target in Hm. destruct (flag_set v PTE_V) eqn:HV; [|done]. injection Hm as Hm.
  cbv [mret M_ret] in Hrun1. msimpl. rewrite Hrun1. rewrite <-Hm.
  assert (valid_page pa) as Hval by (by eapply vi_valid).
  assert (¬ tree_page sp pa) as Hnt by (intros ?; by eapply (vinv_tree_unmapped s)).
  assert (pa ∉ l) as Hnl by (by eapply mapped_notin).
  destruct (vinv_mappages s1 l sp maps own new tnew n pa (cow_flags (PTE_FLAGS v)))
    as (s2 & l2 & t2 & [F1 F2 F3 F4 F5 F6 _] & Hcase); try done.
  { apply cow_flags_range, PTE_FLAGS_range. }
  assert (∀ r t va, sp !! r = Some t → r ≠ old → r ≠ new →
    pte_of (kmem s2) t va = pte_of (kmem s) t va) as Hpo.
  { intros r t va Hr Hr1 Hr2. rewrite (F2 r t) by done. by apply (Hot1 r t). }
  assert (wframe s l sp s2) as Hw2.
  { intros q Hq Hqt Hql. eapply same_page_trans; [by apply F1|by apply Hw1]. }
  assert (∀ va, 0 ≤ va < MAXVA → pte_of (kmem s2) told va =
       if decide (va / PGSIZE = n) then cow_pte (pte_of (kmem s) told va)
       else pte_of (kmem s) told va) as Hpold.
  { intros va Hvar. rewrite (F2 old told) by done. by apply Hp1. }
  destruct Hcase as [(Hrun2 & -> & Hv2 & _)|(Hrun2 & Hv2 & Hp2)]; rewrite Hrun2.
  - exists s2, [], t2. split; [by split|]. split; [done|]. left. split; [|done].
    change (-1 =? 0) with false. cbv iota. rewrite vpn_div. reflexivity.
  - destruct (vinv_krefinc s2 l2 (<[new := t2]> sp) (<[(new, n) := pa]> maps)
      (own_store (own_grow l l2 own) None (Some pa)) pa)
      as (s3 & Hrun3 & Hm3 & Hv3 & Hc3 & Hc3'); [done|done| | |].
    { rewrite F4, Hc1 by (apply Hval || done). split; [|done]. by eapply mapped_refc. }
    { intros (r & t & Hr & Hp). rewrite lookup_insert in Hr.
      destruct (decide (new = r)) as [<-|]; [injection Hr as <-|].
      - destruct (F5 pa Hp); [|done]. apply Hnt. by exists new, tnew.
      - apply Hnt. by exists r, t. }
    exists s3, l2, t2. split; [|split; [|right; split; [|split; [|split]]]].
    + split; [|done| |done]; unfold wframe; by rewrite ?Hm3.
    + by rewrite Hm3.
    + change (0 =? 0) with true. cbv beta iota. by rewrite Hrun3, Hnext.
    + eapply vinv_own_ext; [|exact Hv3]. intros a. unfold own_store, delta.
      destruct (decide (a = pa)) as [->|Hna].
      * rewrite fn_lookup_insert, decide_False, decide_True by done. lia.
      * rewrite fn_lookup_insert_ne, !decide_False by congruence. lia.
    + intros va Hvar. rewrite Hm3, Hp2 by done. unfold map_page. rewrite vpn_div.
      destruct (decide (va / PGSIZE = n)) as [Ed|].
      * rewrite (Hsame va Ed). unfold child_pte. by rewrite <-Hm.
      * by apply (Hot1 new tnew).
    + intros q Hq Hql. destruct (decide (q = pa)) as [->|Hnq].
      * by rewrite Hc3', F4, Hc1 by (apply Hval || done).
      * rewrite Hc3, F4, Hc1 by (apply Hq || done). lia.
Qed.

(** The outcomes of the loop from page [n] on: it ran out of memory and
    unmapped the child again, or it shared all the pages of [n..m). *)
Record copy_failed (s : kst) (l : list Z) (sp : gmap Z ptree) (maps : gmap (Z * Z) Z)
    (own : Z → Z) (old : Z) (told : ptree) (new : Z) (s' : kst) (l' : list Z)
    (tnew' : ptree) (maps' : gmap (Z * Z) Z) : Prop := {
  fail_vinv : vinv s' l' (<[new := tnew']> sp) maps' (own_grow l [] own);
  fail_maps : ∀ r i, maps' !! (r, i) = if decide (r = new) then None else maps !! (r, i);
  fail_page : ∀ q, q mod PGSIZE = 0 → ¬ tree_page sp q → q ∉ l → q ∉ l' →
    same_page (kmem s') (kmem s) q;
  fail_old : ∀ va, 0 ≤ va < MAXVA → pte_of (kmem s') told va = pte_of (kmem s) told va ∨
    pte_of (kmem s') told va = cow_pte (pte_of (kmem s) told va);
  fail_pte : ∀ r t va, sp !! r = Some t → r ≠ old → r ≠ new →
    pte_of (kmem s') t va = pte_of (kmem s) t va;
}.

Record copy_done (s : kst) (l : list Z) (sp : gmap Z ptree) (maps : gmap (Z * Z) Z)
    (own : Z → Z) (old : Z) (told : ptree) (new : Z) (tnew : ptree) (n m : Z)
    (s' : kst) (l' : list Z) (tnew' : ptree) (maps' : gmap (Z * Z) Z) : Prop := {
  done_vinv : vinv s' l' (<[new := tnew']> sp) maps' (own_grow l l' own);
  done_frame : copy_frame s l sp old new tnew s' l' tnew';
  done_maps : ∀ r i, maps' !! (r, i) =
    if decide (r = new ∧ n ≤ i < m) then maps !! (old, i) else maps !! (r, i);
  done_old : ∀ va, 0 ≤ va < MAXVA → pte_of (kmem s') told va =
    if decide (n ≤ va / PGSIZE < m) then cow_pte (pte_of (kmem s) told va)
    else pte_of (kmem s) told va;
  done_new : ∀ va, 0 ≤ va < MAXVA → pte_of (kmem s') tnew' va =
    if decide (n ≤ va / PGSIZE < m ∧ flag_set (pte_of (kmem s) told va) PTE_V = true)
    then child_pte (pte_of (kmem s) told va) else pte_of (kmem s) tnew va;
  done_refc : ∀ q i, n ≤ i < m → maps !! (old, i) = Some q → refc s' q = refc s q + 1;
  done_refc_ne : ∀ q, valid_page q → q ∉ l → (∀ i, n ≤ i < m → maps !! (old, i) ≠ Some q) →
    refc s' q = refc s q;
}.

Lemma copy_done_nil s l sp maps own old told new tnew n :
  vinv s l sp maps own → sp !! new = Some tnew →
  copy_done s l sp maps own old told new tnew n n s l tnew maps.
Proof.
  intros Hv Ht. split.
  - rewrite insert_id by done. eapply vinv_own_ext; [|done].
    intros q. unfold own_grow. by destruct (decide _) as [[? ?]|].
  - apply copy_frame_refl.
  - intros r i. by rewrite decide_False by lia.
  - intros va Hva. by rewrite decide_False by lia.
  - intros va Hva. by rewrite decide_False by lia.
  - intros q i Hi. lia.
  - done.
Qed.

(** Undoing a partial copy. *)
Lemma copy_undo s l sp maps own old told new tnew n s1 tnew1 :
  vinv s l sp maps own → settled own → old ≠ new → sp !! old = Some told →
  sp !! new = Some tnew → 0 ≤ n < UVPN → (∀ i, n ≤ i → maps !! (new, i) = None) →
  vinv s1 [] (<[new := tnew1]> sp) maps (own_grow l [] own) →
  copy_frame s l sp old new tnew s1 [] tnew1 →
  (∀ va, 0 ≤ va < MAXVA → pte_of (kmem s1) told va =
       if decide (va / PGSIZE = n) then cow_pte (pte_of (kmem s) told va)
       else pte_of (kmem s) told va) →
  ∃ s' l' maps', (uvmunmap new 0 n true ;; mret (inr (-1) : Z + Z)) s1 = Ok (inr (-1), s') ∧
    copy_failed s l sp maps own old told new s' l' tnew1 maps'.
Proof.
  intros Hv Ho Hne Ht Htn Hn Hnone Hv1 [F1 F2 F3 F4] Hold.
  assert (<[new := tnew1]> sp !! old = Some told) as Ht1 by (by rewrite lookup_insert_ne).
  destruct (uvmunmap_space s1 [] (<[new := tnew1]> sp) maps (own_grow l [] own) new tnew1 0 n)
    as (s2 & l2 & maps2 & Hrun & Hv2 & Hm2 & Hl2 & Hf2 & _ & Hot2);
    [done|by apply settled_grow|by rewrite lookup_insert_eq|lia|lia|lia|].
  exists s2, l2, maps2. split; [by rewrite (bind_Ok_1 _ _ _ _ _ Hrun)|]. split; [done|..].
  - intros r i. rewrite Hm2. destruct (decide (r = new)) as [->|]; [|by rewrite decide_False by naive_solver].
    destruct (decide (new = new ∧ 0 ≤ i < 0 + n)) as [|Hni]; [done|].
    destruct (decide (n ≤ i)); [by apply Hnone|].
    destruct (maps !! (new, i)) as [a|] eqn:E; [|done].
    destruct (vi_dom _ _ _ _ _ Hv _ _ _ E) as [_ ?]. exfalso. apply Hni. split; [done|lia].
  - intros q Hq Hnt Hnl Hnl2. eapply same_page_trans; [apply Hf2|by apply F1]; try done.
    intros Htp. by destruct (copy_tree_page _ _ _ _ _ _ Htn F4 Htp).
  - intros va Hva. rewrite (Hot2 old told) by done. rewrite Hold by done. case_decide; auto.
  - intros r t va Hr H1 H2. rewrite (Hot2 r t); [by apply (F3 r t)| |done].
    by rewrite lookup_insert_ne.
Qed.

(** The pages of an address space are distinct. *)
Definition inj_space (maps : gmap (Z * Z) Z) (r : Z) : Prop :=
  ∀ i j a, maps !! (r, i) = Some a → maps !! (r, j) = Some a → i = j.

Lemma copy_done_trans s l sp maps own old told new tnew n m k s1 l1 t1 maps1 s2 l2 t2 maps2 :
  vinv s l sp maps own → settled own → inj_space maps old → old ≠ new →
  sp !! new = Some tnew → n ≤ m → m ≤ k →
  copy_done s l sp maps own old told new tnew n m s1 l1 t1 maps1 →
  copy_done s1 l1 (<[new := t1]> sp) maps1 (own_grow l l1 own) old told new t1 m k s2 l2 t2 maps2 →
  copy_done s l sp maps own old told new tnew n k s2 l2 t2 maps2.
Proof.
  intros Hv Ho Hinj Hne Htn Hnm Hmk [A1 A2 A3 A4 A5 A6 A7] [B1 B2 B3 B4 B5 B6 B7].
  pose proof (cf_free _ _ _ _ _ _ _ _ _ A2) as L1. pose proof (cf_free _ _ _ _ _ _ _ _ _ B2) as L2.
  assert (∀ i, maps1 !! (old, i) = maps !! (old, i)) as Hold1.
  { intros i. rewrite A3. by rewrite decide_False by naive_solver. }
  split.
  - rewrite insert_insert_eq in B1. eapply vinv_own_ext; [|exact B1].
    intros q. by apply own_grow_trans.
  - by eapply copy_frame_trans.
  - intros r i. rewrite B3, Hold1, A3. repeat case_decide; try done; naive_solver lia.
  - intros va Hva. rewrite B4, A4 by done. repeat case_decide; try done; lia.
  - intros va Hva. rewrite B5, A5, A4 by done.
    destruct (decide (n ≤ va / PGSIZE < m)) as [Hin|Hout].
    + rewrite (decide_False (P := m ≤ va / PGSIZE < k ∧ _)) by lia.
      destruct (decide (flag_set (pte_of (kmem s) told va) PTE_V = true)) as [Hf|Hf].
      * by rewrite !decide_True by (repeat split; (done || lia)).
      * by rewrite !decide_False by naive_solver.
    + destruct (decide (m ≤ va / PGSIZE < k ∧ flag_set (pte_of (kmem s) told va) PTE_V = true))
        as [[? ?]|Hn].
      * by rewrite decide_True by (repeat split; (done || lia)).
      * rewrite !decide_False; [done| |]; intros [? ?]; apply Hn; split; (done || lia).
  - intros q i Hi Hq. destruct (decide (i < m)) as [Hlt|Hge].
    + rewrite <-(A6 q i) by (done || lia). apply B7.
      * exact (vi_valid _ _ _ _ _ Hv _ _ Hq).
      * intros Hl1. apply (mapped_notin _ _ _ _ _ _ _ Hv Ho Hq). by apply L1.
      * intros j Hj Hqj. rewrite Hold1 in Hqj. pose proof (Hinj _ _ _ Hq Hqj). lia.
    + rewrite <-(A7 q), (B6 q i); [done|lia|by rewrite Hold1|exact (vi_valid _ _ _ _ _ Hv _ _ Hq)| |].
      * exact (mapped_notin _ _ _ _ _ _ _ Hv Ho Hq).
      * intros j Hj Hqj. pose proof (Hinj _ _ _ Hq Hqj). lia.
  - intros q Hq Hnl Hnm'. rewrite <-(A7 q), B7; [done|done|by intros ?%L1| |done|done|].
    + intros i Hi. rewrite Hold1. apply Hnm'. lia.
    + intros i Hi. apply Hnm'. lia.
Qed.

Lemma copy_failed_trans s l sp maps own old told new tnew n m s1 l1 t1 maps1 s2 l2 t2 maps2 :
  vinv s l sp maps own → old ≠ new → sp !! new = Some tnew →
  copy_done s l sp maps own old told new tnew n m s1 l1 t1 maps1 →
  copy_failed s1 l1 (<[new := t1]> sp) maps1 (own_grow l l1 own) old told new s2 l2 t2 maps2 →
  copy_failed s l sp maps own old told new s2 l2 t2 maps2.
Proof.
  intros Hv Hne Htn [A1 A2 A3 A4 A5 A6 A7] [B1 B2 B3 B4 B5].
  destruct A2 as [F1 F2 F3 F4]. split.
  - rewrite insert_insert_eq in B1. eapply vinv_own_ext; [|exact B1].
    intros q. apply own_grow_trans; [done|]. intros ? ?%elem_of_nil. done.
  - intros r i. rewrite B2, A3. repeat case_decide; try done; naive_solver.
  - intros q Hq Hnt Hnl Hnl2. eapply same_page_trans; [|by apply F1].
    apply B3; [done| |by intros ?%F2|done].
    intros Htp. by destruct (copy_tree_page _ _ _ _ _ _ Htn F4 Htp).
  - intros va Hva. specialize (B4 va Hva). rewrite A4 in B4 by done.
    destruct (decide _); [|done]. rewrite cow_pte_idemp in B4. right. by destruct B4.
  - intros r t va Hr H1 H2. rewrite (B5 r t); [by apply (F3 r t)| |done|done].
    by rewrite lookup_insert_ne.
Qed.

Lemma uvmcopy_step s l sp maps own old told new tnew n sz :
  vinv s l sp maps own → settled own → old ≠ new →
  sp !! old = Some told → sp !! new = Some tnew → 0 ≤ n < UVPN → n * PGSIZE < sz →
  (∀ i, n ≤ i → maps !! (new, i) = None) →
  (∀ pa, maps !! (old, n) = Some pa → refc s pa < 65535) →
  ∃ s' l' tnew' maps',
    (uvmcopy_body old new sz (n * PGSIZE) s = Ok (inr (-1), s') ∧
     copy_failed s l sp maps own old told new s' l' tnew' maps') ∨
    (uvmcopy_body old new sz (n * PGSIZE) s = Ok (inl ((n + 1) * PGSIZE), s') ∧
     copy_done s l sp maps own old told new tnew n (n + 1) s' l' tnew' maps').
Proof.
  intros Hv Ho Hne Ht Htn Hn Hsz Hnone Hrc.
  pose proof (vi_maps _ _ _ _ _ Hv old told n Ht Hn) as Hm.
  pose proof (pte_of_page (kmem s) told n) as Hsame.
  destruct (maps !! (old, n)) as [pa|] eqn:Hpa; cycle 1.
  - (* not mapped: skipped *)
    exists s, l, tnew, maps. right. split; [by eapply uvmcopy_body_skip|].
    pose proof (copy_done_nil s l sp maps own old told new tnew n Hv Htn) as [D1 D2 D3 D4 D5 D6 D7].
    assert (∀ va, va / PGSIZE = n → flag_set (pte_of (kmem s) told va) PTE_V = false) as HV.
    { intros va E. rewrite (Hsame va E). unfold pte_target in Hm. by destruct (flag_set _ PTE_V). }
    split; [done|done|..].
    + intros r i. destruct (decide _) as [[-> ?]|]; [|done].
      replace i with n by lia. by rewrite Hpa, Hnone.
    + intros va Hva. destruct (decide _); [|done]. unfold cow_pte.
      by rewrite HV by lia.
    + intros va Hva. destruct (decide _) as [[? E]|]; [|done]. by rewrite HV in E by lia.
    + intros q i Hi Hq. replace i with n in Hq by lia. congruence.
    + done.
  - specialize (Hrc pa eq_refl).
    assert (flag_set (pte_of (kmem s) told (n * PGSIZE)) PTE_V = true) as HV.
    { unfold pte_target in Hm. by destruct (flag_set _ PTE_V). }
    destruct (uvmcopy_body_mapped s l sp maps own old told new tnew n sz pa)
      as (s1 & l1 & t1 & F & Hold & [(Hrun & -> & Hv1)|(Hrun & Hv1 & Hp1 & Hc1)]);
      try done; [by apply Hnone| |].
    + destruct (copy_undo s l sp maps own old told new tnew n s1 t1)
        as (s2 & l2 & maps2 & Hrun2 & Hf); try done.
      exists s2, l2, t1, maps2. left. split; [|done]. by rewrite Hrun.
    + exists s1, l1, t1, (<[(new, n) := pa]> maps). right. split; [done|]. split; [done|done|..].
      * intros r i. destruct (decide _) as [[-> ?]|Hni].
        -- replace i with n by lia. by rewrite lookup_insert_eq, Hpa.
        -- apply lookup_insert_ne. intros [= <- <-]. apply Hni. lia.
      * intros va Hva. rewrite Hold by done. repeat case_decide; try done; lia.
      * intros va Hva. rewrite Hp1 by done. destruct (decide (va / PGSIZE = n)) as [E|E].
        -- rewrite decide_True; [done|]. rewrite (Hsame va E). split; [lia|done].
        -- rewrite decide_False by lia. done.
      * intros q i Hi Hq. replace i with n in Hq by lia. rewrite Hpa in Hq. injection Hq as <-.
        rewrite Hc1; [by rewrite decide_True| |].
        -- exact (vi_valid _ _ _ _ _ Hv _ _ Hpa).
        -- exact (mapped_notin _ _ _ _ _ _ _ Hv Ho Hpa).
      * intros q Hq Hql Hno. rewrite Hc1 by done. rewrite decide_False; [lia|].
        intros ->. apply (Hno n); [lia|done].
Qed.

Lemma uvmcopy_loop k : ∀ fuel s l sp maps own old told new tnew n sz,
  (k < fuel)%nat → vinv s l sp maps own → settled own → old ≠ new →
  sp !! old = Some told → sp !! new = Some tnew → 0 ≤ n → n + Z.of_nat k ≤ UVPN →
  (n + Z.of_nat k - 1) * PGSIZE < sz ≤ (n + Z.of_nat k) * PGSIZE →
  (∀ i, n ≤ i → maps !! (new, i) = None) → inj_space maps old →
  (∀ i pa, n ≤ i → maps !! (old, i) = Some pa → refc s pa < 65535) →
  ∃ s' l' tnew' maps',
    (loop fuel (uvmcopy_body old new sz) (n * PGSIZE) s = Ok (-1, s') ∧
     copy_failed s l sp maps own old told new s' l' tnew' maps') ∨
    (loop fuel (uvmcopy_body old new sz) (n * PGSIZE) s = Ok (0, s') ∧
     copy_done s l sp maps own old told new tnew n (n + Z.of_nat k) s' l' tnew' maps').
Proof.
  induction k as [|k IH];
    intros fuel s l sp maps own old told new tnew n sz Hfuel Hv Ho Hne Ht Htn Hn Hk Hsz Hnone Hinj Hrc;
    (destruct fuel as [|fuel]; [lia|]); cbn [loop].
  - exists s, l, tnew, maps. right. rewrite Z.add_0_r in *. split; [|by apply copy_done_nil].
    unfold uvmcopy_body. msimpl. destruct (Z.ltb_spec (n * PGSIZE) sz); [lia|done].
  - destruct (uvmcopy_step s l sp maps own old told new tnew n sz)
      as (s1 & l1 & t1 & maps1 & [(Hrun & Hf)|(Hrun & Hd)]); try done.
    { lia. }
    { unfold PGSIZE in *. lia. }
    { intros pa. apply Hrc. lia. }
    { exists s1, l1, t1, maps1. left. split; [|done]. by rewrite (bind_Ok_1 _ _ _ _ _ Hrun). }
    rewrite (bind_Ok_1 _ _ _ _ _ Hrun).
    assert (∀ i, maps1 !! (old, i) = maps !! (old, i)) as Hold1.
    { intros i. rewrite (done_maps _ _ _ _ _ _ _ _ _ _ _ _ _ _ _ Hd).
      by rewrite decide_False by naive_solver. }
    destruct (IH fuel s1 l1 (<[new := t1]> sp) maps1 (own_grow l l1 own) old told new t1 (n + 1) sz)
      as (s2 & l2 & t2 & maps2 & Hcase); try done.
    { lia. }
    { apply Hd. }
    { by apply settled_grow. }
    { by rewrite lookup_insert_ne. }
    { apply lookup_insert_eq. }
    { lia. }
    { lia. }
    { unfold PGSIZE in *. lia. }
    { intros i Hi. rewrite (done_maps _ _ _ _ _ _ _ _ _ _ _ _ _ _ _ Hd).
      rewrite decide_False by lia. apply Hnone. lia. }
    { intros i j a. rewrite !Hold1. apply Hinj. }
    { intros i pa Hi. rewrite Hold1. intros Hpa.
      rewrite (done_refc_ne _ _ _ _ _ _ _ _ _ _ _ _ _ _ _ Hd).
      - apply (Hrc i); [lia|done].
      - exact (vi_valid _ _ _ _ _ Hv _ _ Hpa).
      - exact (mapped_notin _ _ _ _ _ _ _ Hv Ho Hpa).
      - intros j Hj Hpj. pose proof (Hinj _ _ _ Hpa Hpj). lia. }
    exists s2, l2, t2, maps2. destruct Hcase as [(Hrun2 & Hf)|(Hrun2 & Hd2)].
    + left. split; [done|]. by eapply copy_failed_trans.
    + right. split; [done|]. replace (n + Z.of_nat (S k)) with (n + 1 + Z.of_nat k) by lia.
      eapply (copy_done_trans _ _ _ _ _ _ _ _ _ n (n + 1)); try done; lia.
Qed.
End copy.
