(* ===== verification/VmGrow.v ===== *)
(** Growing and shrinking user memory: [uvmcreate], [uvmalloc], [uvmdealloc]
    and [vmfault] of [kernel/vm.c].

    [grown] is what these operations have in common: they take pages from the
    free list for one address space, and every page taken is either mapped or
    part of its page table. *)

From stdpp Require Import functions.
From S2P Require Import Prelude Riscv Mem Str Kalloc Vm VmTree VmSpace VmOps VmCopy.

(** User addresses: below the trapframe page. *)
Definition uaddr (va : Z) : Prop := 0 ≤ va < TRAPFRAME.

Lemma uaddr_vpn va : uaddr va → 0 ≤ va / PGSIZE < UVPN ∧ 0 ≤ va < MAXVA.
Proof.
  unfold uaddr, UVPN. change TRAPFRAME with (67108862 * PGSIZE). rewrite MAXVA_val.
  rewrite vpn_div. intros Hva. split.
  - split; [apply Z.div_pos; [lia|done]|]. apply Z.div_lt_upper_bound; [done|lia].
  - unfold PGSIZE in *. lia.
Qed.

Section grow.
Context `{KernelImage} `{!KernelImageOk}.

Record grown (s : kst) (l : list Z) (sp : gmap Z ptree) (own : Z → Z)
    (r : Z) (t : ptree) (s' : kst) (l' : list Z) (t' : ptree) (maps' : gmap (Z * Z) Z)
    (own' : Z → Z) : Prop := {
  gr_vinv : vinv s' l' (<[r := t']> sp) maps' own';
  gr_settled : settled own';
  gr_own : ∀ q, own' q = own q ∨ (pt_page t' q ∧ q ∈ l);
  gr_page : wframe s l sp s';
  gr_pte : other_ptes s s' sp r;
  gr_tree : ∀ q, pt_page t' q → pt_page t q ∨ q ∈ l;
  gr_sub : t ⊆ t';
  gr_free : ∀ q, q ∈ l' → q ∈ l;
}.

Lemma grown_refl s l sp maps own r t :
  vinv s l sp maps own → settled own → sp !! r = Some t →
  grown s l sp own r t s l t maps own.
Proof.
  intros Hv Ho Ht. split; [by rewrite insert_id|done|by left| | |by left|done|done].
  - intros q _ _ _. apply same_page_refl.
  - intros r' t' va _ _. reflexivity.
Qed.

Lemma grown_trans s l sp own r t s1 l1 t1 maps1 own1 s2 l2 t2 maps2 own2 :
  sp !! r = Some t → grown s l sp own r t s1 l1 t1 maps1 own1 →
  grown s1 l1 (<[r := t1]> sp) own1 r t1 s2 l2 t2 maps2 own2 →
  grown s l sp own r t s2 l2 t2 maps2 own2.
Proof.
  intros Ht [A1 A2 A3 A4 A5 A6 A7 A8] [B1 B2 B3 B4 B5 B6 B7 B8]. split.
  - by rewrite insert_insert_eq in B1.
  - done.
  - intros q. destruct (B3 q) as [->|[? ?]]; [|right; auto].
    destruct (A3 q) as [->|[? ?]]; [by left|right]. split; [by eapply pt_page_mono|done].
  - intros q Hq Hnt Hnl. eapply same_page_trans; [|by apply A4].
    apply B4; [done| |by intros ?%A8].
    intros Htp. by destruct (copy_tree_page _ _ _ _ _ _ Ht A6 Htp).
  - intros r' t' va Hr' Hne. rewrite (B5 r' t'); [by apply (A5 r' t')| |done].
    by rewrite lookup_insert_ne.
  - intros q Hq. destruct (B6 q Hq); [by apply A6|right; by apply A8].
  - by etrans.
  - auto.
Qed.

(** ** uvmcreate *)
Lemma uvmcreate_nil s sp maps own : vinv s [] sp maps own → uvmcreate s = Ok (0, s).
Proof. intros Hv. unfold uvmcreate. msimpl. rewrite kalloc_nil by (by eapply vi_kinv). done. Qed.

Lemma uvmcreate_cons s r l sp maps own :
  vinv s (r :: l) sp maps own → settled own →
  ∃ s', uvmcreate s = Ok (r, s') ∧
    vinv s' l (<[r := {[ [] := r ]}]> sp) maps (<[r := 1]> own) ∧
    (∀ q, q mod PGSIZE = 0 → q ≠ r → same_page (kmem s') (kmem s) q) ∧
    (∀ va, pte_of (kmem s') {[ [] := r ]} va = 0).
Proof.
  intros Hv Ho. assert (own r = 0) as Hor by (eapply settled_free; [done..|by left]).
  destruct (vinv_kalloc s r l sp maps own Hv Hor) as (s1 & Hrun & Hv1 & Hm1 & Hc1 & Hcr).
  assert (valid_page r) as Hr.
  { pose proof (vi_kinv _ _ _ _ _ Hv) as [_ _ Hval _]. by apply Forall_cons in Hval as [? _]. }
  assert (r ∉ l) as Hrl.
  { pose proof (vi_kinv _ _ _ _ _ Hv) as [_ Hnd _ _]. by apply NoDup_cons in Hnd as [? _]. }
  assert (r ≠ 0) as Hr0 by (pose proof (valid_page_pos _ Hr); unfold KERNBASE in *; lia).
  assert (¬ tree_page sp r) as Hnt by (intros ?; eapply (vinv_tree_notin s); [done|done|by left]).
  set (m2 := memset (kmem s1) r 0 PGSIZE).
  assert (∀ q, q mod PGSIZE = 0 → q ≠ r → same_page m2 (kmem s1) q) as Hm2.
  { intros q Hq Hne. apply same_page_memset; [done|apply Hr|done]. }
  assert (vinv (set_mem m2 s1) l sp maps (<[r := 1]> own)) as Hv2.
  { apply vinv_write; [done|]. intros q Hq Hcase. apply Hm2; [done|].
    intros ->. by destruct Hcase. }
  exists (set_mem m2 s1). split.
  { unfold uvmcreate. msimpl. rewrite Hrun. rewrite (proj2 (Z.eqb_neq r 0) Hr0). done. }
  assert (∀ va, pte_of m2 {[ [] := r ]} va = 0) as Hpte.
  { intros va. unfold pte_of, pt_slot. by rewrite lookup_singleton_ne. }
  split; [|split; [intros q Hq Hne; eapply same_page_trans; [by apply Hm2|by apply Hm1]|done]].
  assert (sp !! r = None) as Hspr.
  { destruct (sp !! r) as [t|] eqn:E; [|done]. exfalso. apply Hnt. exists r, t.
    split; [done|]. exists []. by eapply vi_root. }
  assert (∀ q, pt_page {[ [] := r ]} q → q = r) as Hone.
  { intros q [x Hx]. by apply lookup_singleton_Some in Hx as [_ ->]. }
  destruct Hv2 as [K R T TR D MA DO V C]. split; try done.
  - intros r' t Ht. rewrite lookup_insert in Ht. destruct (decide (r = r')) as [<-|]; [|by eapply R].
    injection Ht as <-. apply pt_rep_root; [done|]. intros i Hi. change (kmem (set_mem m2 s1)) with m2.
    apply ld64_memset_0; [lia|unfold PGSIZE; lia].
  - intros r' t Ht. rewrite lookup_insert in Ht. destruct (decide (r = r')) as [<-|]; [|by apply T].
    injection Ht as <-. apply lookup_singleton_eq.
  - intros r' t q Ht Hq. rewrite lookup_insert in Ht.
    destruct (decide (r = r')) as [<-|]; [|by eapply TR].
    injection Ht as <-. apply Hone in Hq as ->. split; [done|apply fn_lookup_insert].
  - assert (∀ r' t', sp !! r' = Some t' → ¬ pt_page t' r) as Hno.
    { intros r' t' Ht' Hp. apply Hnt. by exists r', t'. }
    intros r1 r2 t1 t2 q H1 H2 Hq1 Hq2. rewrite lookup_insert in H1, H2.
    destruct (decide (r = r1)) as [<-|], (decide (r = r2)) as [<-|]; [done|..|by eapply D].
    + injection H1 as <-. apply Hone in Hq1 as ->. by destruct (Hno _ _ H2).
    + injection H2 as <-. apply Hone in Hq2 as ->. by destruct (Hno _ _ H1).
  - intros r' t n Ht Hn. rewrite lookup_insert in Ht.
    destruct (decide (r = r')) as [<-|]; [|by eapply MA].
    injection Ht as <-. change (kmem (set_mem m2 s1)) with m2. rewrite Hpte.
    unfold pte_target. rewrite flag_set_0. destruct (maps !! (r, n)) as [a|] eqn:E; [|done].
    destruct (DO r n a E) as [[? Hx] _]. congruence.
  - intros r' n a Ha. destruct (DO r' n a Ha) as [Hs ?]. split; [|done].
    rewrite lookup_insert. by destruct (decide (r = r')).
Qed.

(** ** A zeroed page for an unmapped user address *)
Definition page_zero (m : memory) (p : Z) : Prop := ∀ a, in_page p a → ld8 m a = 0.

Lemma page_zero_same m m' p : same_page m m' p → page_zero m' p → page_zero m p.
Proof. intros Hs Hz a Ha. rewrite Hs by done. by apply Hz. Qed.

Lemma page_zero_memset m p : page_zero (memset m p 0 PGSIZE) p.
Proof. intros a Ha. rewrite ld8_memset by done. by rewrite decide_True by done. Qed.

Lemma kalloc_zero s mem l sp maps own :
  vinv s (mem :: l) sp maps own → settled own →
  ∃ s1, kalloc s = Ok (mem, s1) ∧ (mem =? 0) = false ∧ valid_page mem ∧ mem ∉ l ∧
    ¬ tree_page sp mem ∧ own mem = 0 ∧
    let s2 := set_mem (memset (kmem s1) mem 0 PGSIZE) s1 in
    vinv s2 l sp maps (<[mem := 1]> own) ∧ settled (<[mem := 1]> own) ∧
    (∀ q, q mod PGSIZE = 0 → q ≠ mem → same_page (kmem s2) (kmem s) q) ∧
    refc s2 mem = 1.
Proof.
  intros Hv Ho. assert (own mem = 0) as Hom by (eapply settled_free; [done..|by left]).
  destruct (vinv_kalloc s mem l sp maps own Hv Hom) as (s1 & Hrun & Hv1 & Hm1 & Hc1 & Hcm).
  assert (mem ∉ l ∧ valid_page mem) as [Hml Hmv].
  { pose proof (vi_kinv _ _ _ _ _ Hv) as [_ Hnd Hval _].
    apply NoDup_cons in Hnd as [? _]. by apply Forall_cons in Hval as [? _]. }
  assert (¬ tree_page sp mem) as Hnt
    by (intros ?; eapply (vinv_tree_notin s); [done|done|by left]).
  assert (∀ q, q mod PGSIZE = 0 → q ≠ mem →
    same_page (memset (kmem s1) mem 0 PGSIZE) (kmem s1) q) as Hm2.
  { intros q Hq Hne. apply same_page_memset; [done|apply Hmv|done]. }
  exists s1. split; [done|]. split.
  { rewrite Z.eqb_neq. pose proof (valid_page_pos _ Hmv). unfold KERNBASE in *. lia. }
  split; [done|]. split; [done|]. split; [done|]. split; [done|]. split; [|split; [|split]].
  - apply vinv_write; [done|]. intros q Hq Hcase. apply Hm2; [done|].
    intros ->. by destruct Hcase.
  - intros q. destruct (decide (q = mem)) as [->|].
    + by rewrite fn_lookup_insert.
    + rewrite fn_lookup_insert_ne by done. apply Ho.
  - intros q Hq Hne. eapply same_page_trans; [by apply Hm2|by apply Hm1].
  - done.
Qed.

(** The balance after a page has been taken from the free list and mapped. *)
Lemma own_page_in l l' own mem q : own mem = 0 → mem ∉ l →
  own_store (own_grow l l' (<[mem := 1]> own)) None (Some mem) q = own_grow l l' own q.
Proof.
  intros Hom Hml. unfold own_store, own_grow, delta. rewrite (decide_False (P := None = _)) by done.
  destruct (decide (q = mem)) as [->|Hne].
  - rewrite !(decide_False (P := mem ∈ l ∧ mem ∉ l')) by naive_solver.
    rewrite decide_True, fn_lookup_insert by done. lia.
  - rewrite (decide_False (P := Some mem = _)) by congruence.
    rewrite fn_lookup_insert_ne by done. lia.
Qed.

Lemma own_page_out l l' own mem q : own mem = 0 → mem ∉ l →
  (<[mem := own_grow l l' (<[mem := 1]> own) mem - 1]> (own_grow l l' (<[mem := 1]> own))) q =
  own_grow l l' own q.
Proof.
  intros Hom Hml. unfold own_grow. destruct (decide (q = mem)) as [->|Hne].
  - rewrite fn_lookup_insert, !(decide_False (P := mem ∈ l ∧ mem ∉ l')) by naive_solver.
    rewrite fn_lookup_insert. lia.
  - rewrite fn_lookup_insert_ne by done. case_decide; [done|].
    by rewrite fn_lookup_insert_ne by done.
Qed.

Lemma own_grow_tree (l l' : list Z) (own : Z → Z) (t' : ptree) (mem q : Z) :
  (∀ q, q ∈ l → q ∈ l' ∨ pt_page t' q) →
  own_grow l l' own q = own q ∨ (pt_page t' q ∧ q ∈ mem :: l).
Proof.
  intros Hl. unfold own_grow. destruct (decide _) as [[Hq Hq']|]; [right|by left].
  split; [by destruct (Hl q Hq)|by right].
Qed.

Lemma page_in s mem l sp maps own r t n perm :
  vinv s (mem :: l) sp maps own → settled own → sp !! r = Some t → 0 ≤ n < UVPN →
  maps !! (r, n) = None → perm_ok perm →
  ∃ s1, kalloc s = Ok (mem, s1) ∧ (mem =? 0) = false ∧
    let s2 := set_mem (memset (kmem s1) mem 0 PGSIZE) s1 in
    ∃ s3 l3 t3 own3,
      (mappages r (n * PGSIZE) PGSIZE mem perm s2 = Ok (-1, s3) ∧
       ∃ s4, kfree mem s3 = Ok (tt, s4) ∧ grown s (mem :: l) sp own r t s4 l3 t3 maps own3 ∧
         (∀ va, 0 ≤ va < MAXVA → pte_of (kmem s4) t3 va = pte_of (kmem s) t va)) ∨
      (mappages r (n * PGSIZE) PGSIZE mem perm s2 = Ok (0, s3) ∧
       grown s (mem :: l) sp own r t s3 l3 t3 (<[(r, n) := mem]> maps) own3 ∧
       (∀ va, 0 ≤ va < MAXVA → pte_of (kmem s3) t3 va =
          map_page (pte_of (kmem s) t) (n * PGSIZE) (leaf_pte mem perm) va) ∧
       page_zero (kmem s3) mem ∧ valid_page mem).
Proof.
  intros Hv Ho Ht Hn Hnone Hperm.
  destruct (kalloc_zero s mem l sp maps own Hv Ho)
    as (s1 & Hrun & Hm0 & Hmv & Hml & Hnt & Hom & Hv2 & Ho2 & Hm2 & Hc2).
  exists s1. split; [done|]. split; [done|]. intros s2. fold s2 in Hv2, Hm2, Hc2.
  assert (∀ q, pt_page t q → q mod PGSIZE = 0 ∧ q ≠ mem) as Htp.
  { intros q Hq. split; [eapply pt_page_aligned; [by eapply vi_rep|done]|].
    intros ->. apply Hnt. by exists r, t. }
  assert (∀ va, pte_of (kmem s2) t va = pte_of (kmem s) t va) as Hpte2.
  { intros va. apply pte_of_frame. intros q Hq. destruct (Htp q Hq). by apply Hm2. }
  assert (other_ptes s s2 sp r) as Hot2.
  { eapply other_ptes_frame; [done..|]. intros q Hq Hqt _. apply Hm2; [done|]. by intros ->. }
  destruct (vinv_mappages s2 l sp maps (<[mem := 1]> own) r t n mem perm)
    as (s3 & l3 & t3 & [F1 F2 F3 F4 F5 F6 F7] & Hcase); try done.
  assert (∀ s', (∀ q, q mod PGSIZE = 0 → q ≠ mem → same_page (kmem s') (kmem s3) q) →
    wframe s (mem :: l) sp s') as Hwf.
  { intros s' Hs' q Hq Hnq Hql. apply not_elem_of_cons in Hql as [? ?].
    eapply same_page_trans; [by apply Hs'|]. eapply same_page_trans; [by apply F1|by apply Hm2]. }
  assert (∀ q, pt_page t3 q → pt_page t q ∨ q ∈ mem :: l) as Htree.
  { intros q Hq. destruct (F5 q Hq); [by left|right; by right]. }
  assert (other_ptes s s3 sp r) as Hot3.
  { intros r' t' va Hr' Hne. rewrite (F2 r' t') by done. by apply (Hot2 r' t'). }
  destruct Hcase as [(Hrun3 & -> & Hv3 & Hp3)|(Hrun3 & Hv3 & Hp3)].
  - assert (¬ tree_page (<[r := t3]> sp) mem) as Hnt3.
    { intros Htp3. by destruct (copy_tree_page _ _ _ _ _ _ Ht F5 Htp3). }
    assert (refc s3 mem = 1) as Hc3 by (rewrite F4; [done|apply Hmv|done]).
    destruct (vinv_kfree _ _ _ _ _ mem Hv3 Hmv) as (s4 & l4 & Hrun4 & Hv4 & Hl4 & Hm4 & _);
      [lia|done|]. rewrite decide_True in Hl4 by done. subst l4.
    exists s3, [mem], t3, (own_grow l [] own). left. split; [done|]. exists s4. split; [done|].
    split; [split|].
    + eapply vinv_own_ext; [|exact Hv4]. intros q. by apply own_page_out.
    + by apply settled_grow.
    + intros q. by apply own_grow_tree.
    + by apply Hwf.
    + intros r' t' va Hr' Hne. rewrite <-(Hot3 r' t') by done. symmetry. apply pte_of_frame.
      intros q Hq. apply same_page_sym, Hm4.
      * eapply pt_page_aligned; [exact (vi_rep _ _ _ _ _ Hv _ _ Hr')|done].
      * intros ->. apply Hnt. by exists r', t'.
    + done.
    + done.
    + intros q ->%list_elem_of_singleton. by left.
    + intros va Hva. rewrite <-Hpte2, <-Hp3 by done. symmetry. apply pte_of_frame.
      intros q Hq. apply same_page_sym, Hm4.
      * eapply pt_page_aligned; [|done]. apply (vi_rep _ _ _ _ _ Hv3 r). apply lookup_insert_eq.
      * intros ->. apply Hnt3. exists r, t3. split; [apply lookup_insert_eq|done].
  - exists s3, l3, t3, (own_grow l l3 own). right. split; [done|].
    split; [split|split; [|split]].
    + eapply vinv_own_ext; [|exact Hv3]. intros q. by apply own_page_in.
    + by apply settled_grow.
    + intros q. by apply own_grow_tree.
    + apply Hwf. intros q _ _. apply same_page_refl.
    + done.
    + done.
    + done.
    + intros q Hq. right. by apply F3.
    + intros va Hva. rewrite Hp3 by done. unfold map_page. by rewrite Hpte2.
    + eapply page_zero_same; [apply F1; [apply Hmv|done|done]|]. apply page_zero_memset.
    + done.
Qed.

(** ** Sizes in pages *)
Definition npages (sz : Z) : Z := (sz + PGSIZE - 1) / PGSIZE.

Lemma npages_bounds sz : 0 ≤ sz ≤ TRAPFRAME →
  0 ≤ npages sz ≤ UVPN ∧ (npages sz - 1) * PGSIZE < sz ≤ npages sz * PGSIZE ∧
  PGROUNDUP sz = npages sz * PGSIZE.
Proof.
  intros Hsz. change TRAPFRAME with (67108862 * PGSIZE) in Hsz.
  pose proof (Z.div_mod (sz + PGSIZE - 1) PGSIZE ltac:(done)) as E.
  pose proof (Z.mod_pos_bound (sz + PGSIZE - 1) PGSIZE ltac:(done)). fold (npages sz) in E.
  assert ((npages sz - 1) * PGSIZE < sz ≤ npages sz * PGSIZE) as Hm by (unfold PGSIZE in *; lia).
  split; [|split; [done|]].
  - rewrite UVPN_val. unfold PGSIZE in *. lia.
  - rewrite PGROUNDUP_small by (unfold PGSIZE in *; lia).
    replace (sz + 4095) with (sz + PGSIZE - 1) by (unfold PGSIZE; lia). lia.
Qed.

Lemma npages_mul n : npages (n * PGSIZE) = n.
Proof.
  unfold npages. replace (n * PGSIZE + PGSIZE - 1) with (n * PGSIZE + 4095) by (unfold PGSIZE; lia).
  rewrite Z.div_add_l by done. change (4095 / PGSIZE) with 0. lia.
Qed.

(** ** uvmdealloc *)
Lemma uvmdealloc_space s l sp maps own r t oldsz newsz :
  vinv s l sp maps own → settled own → sp !! r = Some t →
  0 ≤ newsz < oldsz → oldsz ≤ TRAPFRAME →
  ∃ s' l' maps', uvmdealloc r oldsz newsz s = Ok (newsz, s') ∧
    vinv s' l' sp maps' own ∧
    (∀ r' i, maps' !! (r', i) =
       if decide (r' = r ∧ npages newsz ≤ i < npages oldsz) then None else maps !! (r', i)) ∧
    (∀ q, q ∈ l → q ∈ l') ∧
    (∀ q, q mod PGSIZE = 0 → ¬ tree_page sp q → q ∉ l' → same_page (kmem s') (kmem s) q) ∧
    (∀ va, 0 ≤ va < MAXVA → pte_of (kmem s') t va =
       if decide (npages newsz ≤ va / PGSIZE < npages oldsz) then unmap_pte (pte_of (kmem s) t va)
       else pte_of (kmem s) t va) ∧
    other_ptes s s' sp r.
Proof.
  intros Hv Ho Ht Hsz Hmax.
  destruct (npages_bounds newsz ltac:(lia)) as (Hn1 & Hn2 & Hn3).
  destruct (npages_bounds oldsz ltac:(lia)) as (Ho1 & Ho2 & Ho3).
  unfold uvmdealloc. destruct (Z.leb_spec oldsz newsz); [lia|].
  rewrite Hn3, Ho3. rewrite UVPN_val in Hn1, Ho1.
  destruct (Z.ltb_spec (npages newsz * PGSIZE) (npages oldsz * PGSIZE)) as [Hlt|Hge].
  - assert (0 < npages oldsz - npages newsz) by (unfold PGSIZE in *; lia).
    rewrite (u64_small (npages oldsz * PGSIZE - npages newsz * PGSIZE)) by (unfold PGSIZE in *; lia).
    replace (npages oldsz * PGSIZE - npages newsz * PGSIZE)
      with ((npages oldsz - npages newsz) * PGSIZE) by lia.
    rewrite vpn_div, i32_small, u64_small by lia.
    destruct (uvmunmap_space s l sp maps own r t (npages newsz) (npages oldsz - npages newsz))
      as (s' & l' & maps' & Hrun & Hrest); [done|done|done|lia|lia|rewrite UVPN_val; lia|].
    replace (npages newsz + (npages oldsz - npages newsz)) with (npages oldsz) in Hrest by lia.
    exists s', l', maps'. split; [by rewrite (bind_Ok_1 _ _ _ _ _ Hrun)|exact Hrest].
  - exists s, l, maps. assert (npages oldsz ≤ npages newsz) by (unfold PGSIZE in *; lia).
    split; [done|]. split; [done|]. split; [intros r' i; by rewrite decide_False by lia|].
    split; [done|]. split; [intros q _ _ _; apply same_page_refl|].
    split; [intros va _; by rewrite decide_False by lia|]. intros r' t' va _ _. reflexivity.
Qed.

(** ** uvmalloc *)

(** Pages [n..j) of the address space [r] have been added: fresh, zeroed and
    with permissions [perm]; the rest is as before. *)
Record added (s : kst) (l : list Z) (sp : gmap Z ptree) (maps : gmap (Z * Z) Z) (own : Z → Z)
    (r : Z) (t : ptree) (perm n j : Z) (s' : kst) (l' : list Z) (t' : ptree)
    (maps' : gmap (Z * Z) Z) (own' : Z → Z) : Prop := {
  ad_grown : grown s l sp own r t s' l' t' maps' own';
  ad_maps : ∀ r' i, r' ≠ r ∨ ¬ (n ≤ i < j) → maps' !! (r', i) = maps !! (r', i);
  ad_new : ∀ i, n ≤ i < j → ∃ a, maps' !! (r, i) = Some a ∧ a ∈ l ∧
    page_zero (kmem s') a ∧ pte_of (kmem s') t' (i * PGSIZE) = leaf_pte a perm;
  ad_pte : ∀ va, 0 ≤ va < MAXVA → ¬ (n ≤ va / PGSIZE < j) →
    pte_of (kmem s') t' va = pte_of (kmem s) t va;
  ad_once : ∀ i a, n ≤ i < j → maps' !! (r, i) = Some a → cnt maps' a = 1;
  ad_cnt : ∀ a, a ∉ l → cnt maps' a = cnt maps a;
}.

Lemma added_nil s l sp maps own r t perm n :
  vinv s l sp maps own → settled own → sp !! r = Some t →
  added s l sp maps own r t perm n n s l t maps own.
Proof. intros Hv Ho Ht. split; [by apply grown_refl|done|lia|done|lia|done]. Qed.

Lemma added_one s mem l sp maps own r t perm n s' l' t' own' :
  vinv s (mem :: l) sp maps own → settled own → 0 ≤ n < UVPN → maps !! (r, n) = None →
  grown s (mem :: l) sp own r t s' l' t' (<[(r, n) := mem]> maps) own' →
  (∀ va, 0 ≤ va < MAXVA → pte_of (kmem s') t' va =
     map_page (pte_of (kmem s) t) (n * PGSIZE) (leaf_pte mem perm) va) →
  page_zero (kmem s') mem →
  added s (mem :: l) sp maps own r t perm n (n + 1) s' l' t' (<[(r, n) := mem]> maps) own'.
Proof.
  intros Hv Ho Hn Hnone Hg Hp Hz. pose proof (vpn_lt_MAXVA n Hn) as Hva. split.
  - done.
  - intros r' i Hi. apply lookup_insert_ne. intros [= <- <-]. lia.
  - intros i Hi. replace i with n by lia. exists mem. rewrite lookup_insert_eq.
    split; [done|]. split; [by left|]. split; [done|]. rewrite Hp by done.
    unfold map_page. by rewrite decide_True.
  - intros va Hvar Hni. rewrite Hp by done. unfold map_page. rewrite vpn_div.
    by rewrite decide_False by lia.
  - intros i a Hi. replace i with n by lia. rewrite lookup_insert_eq. intros [= <-].
    rewrite cnt_insert_None, decide_True by done.
    destruct (cnt_free s (mem :: l) sp maps own mem Hv (Ho mem) ltac:(by left)). lia.
  - intros a Ha. rewrite cnt_insert_None by done. rewrite decide_False; [lia|].
    intros ->. apply Ha. by left.
Qed.

Lemma added_trans s l sp maps own r t perm n j k s1 l1 t1 maps1 own1 s2 l2 t2 maps2 own2 :
  vinv s l sp maps own → sp !! r = Some t → 0 ≤ n ≤ j → j ≤ k → k ≤ UVPN →
  added s l sp maps own r t perm n j s1 l1 t1 maps1 own1 →
  added s1 l1 (<[r := t1]> sp) maps1 own1 r t1 perm j k s2 l2 t2 maps2 own2 →
  added s l sp maps own r t perm n k s2 l2 t2 maps2 own2.
Proof.
  intros Hv Ht Hnj Hjk Hk [A1 A2 A3 A4 A5 A6] [B1 B2 B3 B4 B5 B6]. split.
  - by eapply grown_trans.
  - intros r' i Hi. rewrite B2, A2; [done|lia|lia].
  - intros i Hi. destruct (decide (i < j)) as [Hlt|Hge].
    + destruct (A3 i ltac:(lia)) as (a & Ha & Hal & Hz & Hp).
      pose proof (gr_vinv _ _ _ _ _ _ _ _ _ _ _ A1) as Hv1.
      pose proof (gr_settled _ _ _ _ _ _ _ _ _ _ _ A1) as Ho1.
      exists a. split; [by rewrite B2 by lia|]. split; [done|]. split.
      * eapply page_zero_same; [|done]. apply (gr_page _ _ _ _ _ _ _ _ _ _ _ B1).
        -- apply (vi_valid _ _ _ _ _ Hv1 _ _ Ha).
        -- intros Htp. exact (vinv_tree_unmapped _ _ _ _ _ _ _ Hv1 Htp Ha).
        -- exact (mapped_notin _ _ _ _ _ _ _ Hv1 Ho1 Ha).
      * rewrite B4, Hp; [done|apply vpn_lt_MAXVA; lia|]. rewrite vpn_div. lia.
    + destruct (B3 i ltac:(lia)) as (a & Ha & Hal & Hz & Hp).
      exists a. split_and!; try done. by apply (gr_free _ _ _ _ _ _ _ _ _ _ _ A1).
  - intros va Hva Hn. rewrite B4, A4; [done|done|lia|done|lia].
  - intros i a Hi Ha. destruct (decide (i < j)) as [Hlt|Hge].
    + rewrite B2 in Ha by lia. rewrite B6; [apply (A5 i); [lia|done]|].
      exact (mapped_notin _ _ _ _ _ _ _ (gr_vinv _ _ _ _ _ _ _ _ _ _ _ A1)
        (gr_settled _ _ _ _ _ _ _ _ _ _ _ A1) Ha).
    + apply (B5 i); [lia|done].
  - intros a Ha. rewrite B6, A6; [done|done|].
    intros ?%(gr_free _ _ _ _ _ _ _ _ _ _ _ A1). done.
Qed.

(** One round of the loop of [uvmalloc]. *)
Lemma uvmalloc_step s l sp maps own r t n oldsz newsz xperm :
  vinv s l sp maps own → settled own → sp !! r = Some t → 0 ≤ n < UVPN →
  n * PGSIZE < newsz → maps !! (r, n) = None →
  perm_ok (Z.lor (Z.lor PTE_R PTE_U) xperm) →
  ∃ s' l' t' maps' own',
    (uvmalloc_body r oldsz newsz xperm (n * PGSIZE) s =
       (uvmdealloc r (n * PGSIZE) oldsz ;; mret (inr 0)) s' ∧
     added s l sp maps own r t (Z.lor (Z.lor PTE_R PTE_U) xperm) n n s' l' t' maps' own') ∨
    (uvmalloc_body r oldsz newsz xperm (n * PGSIZE) s = Ok (inl ((n + 1) * PGSIZE), s') ∧
     added s l sp maps own r t (Z.lor (Z.lor PTE_R PTE_U) xperm) n (n + 1) s' l' t' maps' own').
Proof.
  intros Hv Ho Ht Hn Hsz Hnone Hperm. pose proof (vpn_lt_MAXVA n Hn) as Hva.
  assert (u64 (n * PGSIZE + PGSIZE) = (n + 1) * PGSIZE) as Hnext.
  { rewrite MAXVA_val in Hva. rewrite u64_small; unfold PGSIZE in *; lia. }
  unfold uvmalloc_body. destruct (Z.ltb_spec (n * PGSIZE) newsz); [|lia].
  destruct l as [|mem l].
  { exists s, [], t, maps, own. left. split; [|by apply added_nil].
    rewrite (bind_Ok_1 _ _ _ _ _ (kalloc_nil s (vi_kinv _ _ _ _ _ Hv))). done. }
  destruct (page_in s mem l sp maps own r t n _ Hv Ho Ht Hn Hnone Hperm)
    as (s1 & Hrun & Hm0 & s3 & l3 & t3 & own3 & Hcase).
  rewrite (bind_Ok_1 _ _ _ _ _ Hrun). rewrite Hm0. unfold memzero. msimpl.
  destruct Hcase as [(Hrun3 & s4 & Hrun4 & Hg & Hp)|(Hrun3 & Hg & Hp & Hz & Hmv)].
  - exists s4, l3, t3, maps, own3. left. rewrite Hrun3. change (-1 =? 0) with false.
    cbv beta iota. rewrite Hrun4. split; [done|]. split; [done|done|lia| |lia|done].
    intros va Hvar _. by apply Hp.
  - exists s3, l3, t3, (<[(r, n) := mem]> maps), own3. right. rewrite Hrun3.
    change (0 =? 0) with true. cbv iota. rewrite Hnext. split; [done|]. by apply added_one.
Qed.

Lemma uvmalloc_loop k : ∀ fuel s l sp maps own r t n oldsz newsz xperm,
  (k < fuel)%nat → vinv s l sp maps own → settled own → sp !! r = Some t →
  0 ≤ n → n + Z.of_nat k ≤ UVPN →
  (n + Z.of_nat k - 1) * PGSIZE < newsz ≤ (n + Z.of_nat k) * PGSIZE →
  (∀ i, n ≤ i < n + Z.of_nat k → maps !! (r, i) = None) →
  perm_ok (Z.lor (Z.lor PTE_R PTE_U) xperm) →
  ∃ s' l' t' maps' own' j, n ≤ j ≤ n + Z.of_nat k ∧
    added s l sp maps own r t (Z.lor (Z.lor PTE_R PTE_U) xperm) n j s' l' t' maps' own' ∧
    loop fuel (uvmalloc_body r oldsz newsz xperm) (n * PGSIZE) s =
      if decide (j = n + Z.of_nat k) then Ok (newsz, s')
      else (uvmdealloc r (j * PGSIZE) oldsz ;; mret 0) s'.
Proof.
  induction k as [|k IH]; intros fuel s l sp maps own r t n oldsz newsz xperm Hfuel Hv Ho Ht Hn Hk
    Hsz Hnone Hperm; (destruct fuel as [|fuel]; [lia|]); cbn [loop].
  - exists s, l, t, maps, own, n. split; [lia|]. split; [by apply added_nil|].
    rewrite decide_True by lia. unfold uvmalloc_body. msimpl.
    destruct (Z.ltb_spec (n * PGSIZE) newsz); [unfold PGSIZE in *; lia|done].
  - destruct (uvmalloc_step s l sp maps own r t n oldsz newsz xperm)
      as (s1 & l1 & t1 & maps1 & own1 & [(Hrun & Ha)|(Hrun & Ha)]);
      [done|done|done|lia|unfold PGSIZE in *; lia|apply Hnone; lia|done|..].
    { exists s1, l1, t1, maps1, own1, n. split; [lia|]. split; [done|].
      rewrite decide_False by lia. unfold mbind, M_bind at 1. rewrite Hrun. unfold mbind, M_bind.
      by destruct (uvmdealloc _ _ _ s1) as [[? ?]| | | |]. }
    rewrite (bind_Ok_1 _ _ _ _ _ Hrun).
    pose proof Ha as [Hg Hm _ _ _ _].
    destruct (IH fuel s1 l1 (<[r := t1]> sp) maps1 own1 r t1 (n + 1) oldsz newsz xperm)
      as (s2 & l2 & t2 & maps2 & own2 & j & Hj & Ha2 & Hrun2).
    { lia. }
    { apply Hg. }
    { apply Hg. }
    { apply lookup_insert_eq. }
    { lia. }
    { lia. }
    { unfold PGSIZE in *. lia. }
    { intros i Hi. rewrite Hm by lia. apply Hnone. lia. }
    { done. }
    exists s2, l2, t2, maps2, own2, j. split; [lia|].
    replace (n + 1 + Z.of_nat k) with (n + Z.of_nat (S k)) in Hrun2 by lia.
    split; [|done]. eapply (added_trans _ _ _ _ _ _ _ _ n (n + 1)); try done; lia.
Qed.

(** A page in use before is still in use if it is mapped as often as before. *)
Lemma vinv_still_used s l sp maps own s' l' sp' own' q :
  vinv s l sp maps own → vinv s' l' sp' maps own' → own' q = own q → q ∉ l → q ∉ l'.
Proof.
  intros Hv Hv' Ho Hq Hq'. pose proof (vi_kinv _ _ _ _ _ Hv') as [_ _ Hval Hf'].
  rewrite Forall_forall in Hval. pose proof (Hval q Hq') as Hqv.
  pose proof (vi_kinv _ _ _ _ _ Hv) as [_ _ _ Hf].
  apply Hf' in Hq'; [|done..]. apply Hq, Hf; [done..|].
  rewrite (vi_count _ _ _ _ _ Hv q Hqv). rewrite (vi_count _ _ _ _ _ Hv' q Hqv) in Hq'. lia.
Qed.

(** Nothing was added to the address space, but its page table may have grown. *)
Record not_added (s : kst) (l : list Z) (sp : gmap Z ptree) (maps : gmap (Z * Z) Z) (own : Z → Z)
    (r : Z) (t : ptree) (s' : kst) (l' : list Z) (t' : ptree) (own' : Z → Z) : Prop := {
  na_grown : grown s l sp own r t s' l' t' maps own';
  na_pte : ∀ va, uaddr va → pte_of (kmem s') t' va = pte_of (kmem s) t va ∨
    flag_set (pte_of (kmem s') t' va) PTE_V = false ∧
    flag_set (pte_of (kmem s) t va) PTE_V = false;
}.

(** Undoing a partial [uvmalloc]. *)
Lemma uvmalloc_undo s l sp maps own r t perm o j s1 l1 t1 maps1 own1 :
  vinv s l sp maps own → settled own → sp !! r = Some t →
  0 ≤ o ≤ j → j ≤ UVPN → (∀ i, o ≤ i < j → maps !! (r, i) = None) →
  added s l sp maps own r t perm o j s1 l1 t1 maps1 own1 →
  ∃ s' l', (uvmdealloc r (j * PGSIZE) (o * PGSIZE) ;; mret 0) s1 = Ok (0, s') ∧
    not_added s l sp maps own r t s' l' t1 own1.
Proof.
  intros Hv Ho Ht Hoj Hj Hnone [G Hm Hnew Hp _ _]. pose proof G as [G1 G2 G3 G4 G5 G6 G7 G8].
  destruct (decide (o = j)) as [<-|Hne].
  { assert (maps1 = maps) as -> by (apply map_eq; intros [r' i]; apply Hm; lia).
    exists s1, l1. split.
    - unfold uvmdealloc. rewrite Z.leb_refl. done.
    - split; [done|]. intros va Hu. left. apply Hp; [by apply uaddr_vpn|lia]. }
  destruct (uvmdealloc_space s1 l1 (<[r := t1]> sp) maps1 own1 r t1 (j * PGSIZE) (o * PGSIZE))
    as (s2 & l2 & maps2 & Hrun & Hv2 & Hm2 & Hl2 & Hf2 & Hp2 & Hot2);
    [done|done|apply lookup_insert_eq|unfold PGSIZE in *; lia| |].
  { change TRAPFRAME with (67108862 * PGSIZE). rewrite UVPN_val in Hj. unfold PGSIZE in *. lia. }
  rewrite !npages_mul in Hm2, Hp2.
  assert (maps2 = maps) as ->.
  { apply map_eq. intros [r' i]. rewrite Hm2. destruct (decide _) as [[-> Hi]|Hi].
    - symmetry. by apply Hnone.
    - apply Hm. destruct (decide (r' = r)); [right|by left]. naive_solver. }
  assert (∀ q, q ∉ l → q ∉ l2) as Hl2'.
  { intros q Hq. eapply (vinv_still_used s l); [done|exact Hv2| |done].
    destruct (G3 q) as [?|[_ ?]]; done. }
  exists s2, l2. split; [by rewrite (bind_Ok_1 _ _ _ _ _ Hrun)|]. split; [split; try done|].
  - intros q Hq Hnt Hnl. eapply same_page_trans; [|by apply G4]. apply Hf2; [done| |by apply Hl2'].
    intros Htp. by destruct (copy_tree_page _ _ _ _ _ _ Ht G6 Htp).
  - intros r' t' va Hr' Hrn. rewrite (Hot2 r' t'); [by apply (G5 r' t')| |done].
    by rewrite lookup_insert_ne.
  - intros q Hq. destruct (decide (q ∈ l)); [done|]. by destruct (Hl2' q).
  - intros va Hu. destruct (uaddr_vpn va Hu) as [Hi Hva]. rewrite Hp2 by done.
    destruct (decide (o ≤ va / PGSIZE < j)) as [Hin|Hout]; [right|left; by apply Hp].
    split.
    + unfold unmap_pte. destruct (flag_set (pte_of (kmem s1) t1 va) PTE_V) eqn:E;
        [apply flag_set_0|done].
    + pose proof (vi_maps _ _ _ _ _ Hv r t _ Ht Hi) as E. rewrite (Hnone _ Hin) in E.
      rewrite <-(pte_of_page _ _ _ va eq_refl) in E. unfold pte_target in E.
      by destruct (flag_set _ PTE_V).
Qed.

Lemma uvmalloc_space s l sp maps own r t oldsz newsz xperm :
  vinv s l sp maps own → settled own → sp !! r = Some t →
  0 ≤ oldsz ≤ newsz → newsz ≤ TRAPFRAME →
  (∀ i, npages oldsz ≤ i < npages newsz → maps !! (r, i) = None) →
  perm_ok (Z.lor (Z.lor PTE_R PTE_U) xperm) →
  ∃ s' l' t' maps' own',
    (uvmalloc r oldsz newsz xperm s = Ok (newsz, s') ∧
     added s l sp maps own r t (Z.lor (Z.lor PTE_R PTE_U) xperm)
       (npages oldsz) (npages newsz) s' l' t' maps' own') ∨
    (uvmalloc r oldsz newsz xperm s = Ok (0, s') ∧
     not_added s l sp maps own r t s' l' t' own').
Proof.
  intros Hv Ho Ht Hsz Hmax Hnone Hperm.
  destruct (npages_bounds oldsz ltac:(lia)) as (Ho1 & Ho2 & Ho3).
  destruct (npages_bounds newsz ltac:(lia)) as (Hn1 & Hn2 & Hn3).
  assert (npages oldsz ≤ npages newsz) as Hle by (unfold PGSIZE in *; lia).
  unfold uvmalloc. destruct (Z.ltb_spec newsz oldsz); [lia|]. rewrite Ho3. cbv zeta.
  assert ((newsz - npages oldsz * PGSIZE + PGSIZE - 1) / PGSIZE = npages newsz - npages oldsz) as ->.
  { replace (newsz - npages oldsz * PGSIZE + PGSIZE - 1)
      with (newsz + PGSIZE - 1 + - npages oldsz * PGSIZE) by lia.
    rewrite Z.div_add by done. unfold npages. lia. }
  set (k := Z.to_nat (npages newsz - npages oldsz)).
  assert (npages oldsz + Z.of_nat k = npages newsz) as Hk by lia.
  destruct (uvmalloc_loop k (S k) s l sp maps own r t (npages oldsz) (npages oldsz * PGSIZE)
    newsz xperm) as (s1 & l1 & t1 & maps1 & own1 & j & Hj & Ha & Hrun);
    rewrite ?Hk; [lia|done|done|done|lia|lia|done|done|done|].
  rewrite Hk in Hj, Hrun. rewrite Hrun. destruct (decide _) as [->|Hjn].
  - exists s1, l1, t1, maps1, own1. by left.
  - destruct (uvmalloc_undo s l sp maps own r t (Z.lor (Z.lor PTE_R PTE_U) xperm) (npages oldsz) j
      s1 l1 t1 maps1 own1) as (s2 & l2 & Hrun2 & Hna); [done|done|done|lia|lia| |done|].
    { intros i Hi. apply Hnone. lia. }
    exists s2, l2, t1, maps, own1. right. by rewrite Hrun2.
Qed.

(** ** vmfault *)
Definition lazy_perm : Z := Z.lor (Z.lor PTE_W PTE_U) PTE_R.

Lemma PGROUNDDOWN_vpn va : 0 ≤ va → PGROUNDDOWN va = va / PGSIZE * PGSIZE.
Proof.
  intros Hva. rewrite PGROUNDDOWN_eq. pose proof (Z.div_mod va PGSIZE ltac:(done)). lia.
Qed.

Lemma ismapped_space s l sp maps own r t va :
  vinv s l sp maps own → sp !! r = Some t → va < MAXVA →
  ismapped r va s = Ok (flag_set (pte_of (kmem s) t va) PTE_V, s).
Proof.
  intros Hv Ht Hva. unfold ismapped. msimpl.
  rewrite (walk_space s l sp maps own r t) by done.
  destruct (pt_slot t va) as [slot|] eqn:Es.
  - change (default 0 (Some slot)) with slot.
    rewrite (slot_eqb_0 s l sp maps own r t va) by done.
    unfold load64. msimpl. by rewrite (pte_of_slot _ _ _ _ Es).
  - by rewrite (pte_of_None _ _ _ Es), flag_set_0.
Qed.

Lemma vmfault_space s l sp maps own r t p_sz va :
  vinv s l sp maps own → settled own → sp !! r = Some t → uaddr va →
  ∃ c s' l' t' maps' own', vmfault p_sz r r va s = Ok (c, s') ∧
    ((c = 0 ∧ not_added s l sp maps own r t s' l' t' own' ∧ maps' = maps) ∨
     (va < p_sz ∧ valid_page c ∧ maps !! (r, va / PGSIZE) = None ∧
      maps' !! (r, va / PGSIZE) = Some c ∧
      added s l sp maps own r t lazy_perm (va / PGSIZE) (va / PGSIZE + 1) s' l' t' maps' own')).
Proof.
  intros Hv Ho Ht Hu. destruct (uaddr_vpn va Hu) as [Hn Hva].
  pose proof (vpn_lt_MAXVA _ Hn) as Hnva. set (n := va / PGSIZE) in *.
  assert (not_added s l sp maps own r t s l t own) as Hid.
  { split; [by apply grown_refl|by left]. }
  unfold vmfault. destruct (Z.leb_spec p_sz va).
  { exists 0, s, l, t, maps, own. split; [done|]. by left. }
  rewrite PGROUNDDOWN_vpn by lia. fold n. cbv zeta.
  rewrite (bind_Ok_1 _ _ _ _ _ (ismapped_space s l sp maps own r t (n * PGSIZE) Hv Ht (proj2 Hnva))).
  pose proof (vi_maps _ _ _ _ _ Hv r t n Ht Hn) as Hm. unfold pte_target in Hm.
  destruct (flag_set (pte_of (kmem s) t (n * PGSIZE)) PTE_V).
  { exists 0, s, l, t, maps, own. split; [done|]. by left. }
  destruct l as [|mem l].
  { exists 0, s, [], t, maps, own. split; [|by left].
    rewrite (bind_Ok_1 _ _ _ _ _ (kalloc_nil s (vi_kinv _ _ _ _ _ Hv))). done. }
  destruct (page_in s mem l sp maps own r t n lazy_perm Hv Ho Ht Hn Hm ltac:(by compute))
    as (s1 & Hrun & Hm0 & s3 & l3 & t3 & own3 & Hcase).
  rewrite (bind_Ok_1 _ _ _ _ _ Hrun). rewrite Hm0. unfold memzero. msimpl. fold lazy_perm.
  destruct Hcase as [(Hrun3 & s4 & Hrun4 & Hg & Hp)|(Hrun3 & Hg & Hp & Hz & Hmv)].
  - exists 0, s4, l3, t3, maps, own3. rewrite Hrun3. change (-1 =? 0) with false.
    cbv beta iota. rewrite Hrun4. split; [done|]. left. split; [done|]. split; [|done].
    split; [done|]. intros va' Hu'. left. apply Hp. by apply uaddr_vpn.
  - exists mem, s3, l3, t3, (<[(r, n) := mem]> maps), own3. rewrite Hrun3.
    change (0 =? 0) with true. cbv iota. split; [done|]. right. split; [done|].
    split; [done|]. split; [done|]. rewrite lookup_insert_eq. split; [done|]. by apply added_one.
Qed.
End grow.
