(* ===== verification/VmCow.v ===== *)
(** Copy-on-write faults: [cowalloc] of [kernel/vm.c].

    [cowalloc] gives the faulting address space a private writable copy of a
    shared page.  The lemmas below give its result on every branch and its
    effect on the entries, the reference counts and the contents of memory. *)

From stdpp Require Import functions.
From S2P Require Import Prelude Riscv Mem Str Kalloc Vm VmTree VmSpace VmOps.

Section cow.
Context `{KernelImage} `{!KernelImageOk}.

(** The entry of a page after its copy [mem] has been made. *)
Definition private_pte (v mem : Z) : Z :=
  Z.lor (PA2PTE mem) (Z.land (Z.lor (PTE_FLAGS v) PTE_W) (Z.lnot PTE_COW)).

(** Is this the entry of a copy-on-write user page? *)
Definition is_cow (v : Z) : bool :=
  flag_set v PTE_V && flag_set v PTE_U && negb (flag_set v PTE_W) && flag_set v PTE_COW.

Lemma private_flags_testbit f k : 0 ≤ k →
  Z.testbit (Z.land (Z.lor f PTE_W) (Z.lnot PTE_COW)) k =
    if decide (k = 8) then false else if decide (k = 2) then true else Z.testbit f k.
Proof.
  intros Hk. rewrite Z.land_spec, Z.lor_spec, Z.lnot_spec by done.
  change PTE_W with (2 ^ 2). change PTE_COW with (2 ^ 8). rewrite !Z.pow2_bits_eqb by lia.
  destruct (decide (k = 8)) as [->|]; [by rewrite andb_false_r|].
  destruct (decide (k = 2)) as [->|]; [by rewrite orb_true_r|].
  rewrite !(proj2 (Z.eqb_neq _ _)) by lia. by rewrite andb_true_r, orb_false_r.
Qed.

Lemma private_flags_range v :
  0 ≤ Z.land (Z.lor (PTE_FLAGS v) PTE_W) (Z.lnot PTE_COW) < 1024.
Proof.
  apply (bits_below _ 10); [done|]. intros k Hk. rewrite private_flags_testbit by lia.
  rewrite !decide_False by lia. apply (bits_above _ 10); [apply PTE_FLAGS_range|done].
Qed.

Lemma private_pte_flag v mem k : valid_page mem → 0 ≤ k < 10 →
  flag_set (private_pte v mem) (2 ^ k) =
    if decide (k = 8) then false else if decide (k = 2) then true else flag_set v (2 ^ k).
Proof.
  intros Hmem Hk. rewrite <-(flag_set_flags (private_pte v mem)) by done.
  unfold private_pte. rewrite PTE_FLAGS_lor; [|by apply valid_page_pa|apply private_flags_range].
  rewrite flag_set_spec, private_flags_testbit by lia.
  by rewrite <-(flag_set_flags v), flag_set_spec by lia.
Qed.

Lemma private_pte_target v mem :
  valid_page mem → flag_set v PTE_V = true → pte_target (private_pte v mem) = Some mem.
Proof.
  intros Hmem HV. unfold pte_target. change PTE_V with (2 ^ 0) in *.
  rewrite private_pte_flag by done. rewrite !decide_False by lia. rewrite HV.
  unfold private_pte. rewrite PTE2PA_lor; [done|by apply valid_page_pa|apply Hmem|].
  apply private_flags_range.
Qed.

Lemma private_pte_range v mem : valid_page mem → 0 ≤ private_pte v mem < 2 ^ 64.
Proof.
  intros Hmem. unfold private_pte.
  pose proof (lor_PA2PTE_range mem _ (valid_page_pa _ Hmem) (private_flags_range v)). lia.
Qed.

(** The contents of a page. *)
Definition page_bytes (m : memory) (p : Z) (m' : memory) (p' : Z) : Prop :=
  ∀ i, 0 ≤ i < PGSIZE → ld8 m (p + i) = ld8 m' (p' + i).

Lemma same_page_bytes m m' p : same_page m m' p → page_bytes m p m' p.
Proof. intros Hs i Hi. apply Hs. unfold in_page. lia. Qed.

(** The branches on which nothing happens. *)
Lemma cowalloc_noop s l sp maps own r t va :
  vinv s l sp maps own → sp !! r = Some t → 0 ≤ va < MAXVA →
  let v := pte_of (kmem s) t va in
  is_cow v = false ∨ l = [] →
  cowalloc r va s = Ok (if flag_set v PTE_V && flag_set v PTE_U && flag_set v PTE_W
                        then 0 else -1, s).
Proof.
  intros Hv Ht Hva v Hc. unfold cowalloc. destruct (Z.leb_spec MAXVA va); [lia|].
  msimpl. rewrite (walk_space s l sp maps own r t) by (done || lia).
  destruct (pt_slot t va) as [slot|] eqn:Es; cycle 1.
  { subst v. rewrite (pte_of_None _ _ _ Es). by rewrite flag_set_0. }
  change (default 0 (Some slot)) with slot.
  rewrite (slot_eqb_0 s l sp maps own r t va) by done.
  unfold load64. msimpl. rewrite <-(pte_of_slot _ _ _ _ Es). fold v.
  unfold is_cow in Hc.
  destruct (flag_set v PTE_V); [|done]. destruct (flag_set v PTE_U); [|done].
  destruct (flag_set v PTE_W); [done|]. destruct (flag_set v PTE_COW); [|done].
  destruct Hc as [?| ->]; [done|].
  rewrite kalloc_nil by (by eapply vi_kinv). done.
Qed.

(** The copy itself. *)
Record cow_copied (s : kst) (l : list Z) (sp : gmap Z ptree) (maps : gmap (Z * Z) Z)
    (own : Z → Z) (r : Z) (t : ptree) (n pa mem : Z) (s' : kst) (l' : list Z) : Prop := {
  cc_vinv : vinv s' l' sp (<[(r, n) := mem]> maps) own;
  cc_pte : ∀ va, 0 ≤ va < MAXVA → pte_of (kmem s') t va =
    if decide (va / PGSIZE = n) then private_pte (pte_of (kmem s) t va) mem
    else pte_of (kmem s) t va;
  cc_other : other_ptes s s' sp r;
  cc_copy : page_bytes (kmem s') mem (kmem s) pa;
  cc_free : l' = if decide (refc s pa = 1) then pa :: l else l;
  cc_page : ∀ q, q mod PGSIZE = 0 → ¬ tree_page sp q → q ≠ mem → q ∉ l' →
    same_page (kmem s') (kmem s) q;
  cc_refc : refc s' pa = refc s pa - 1 ∧ refc s' mem = 1;
  cc_refc_ne : ∀ q, q mod PGSIZE = 0 → q ≠ pa → q ≠ mem → refc s' q = refc s q;
}.

Lemma cow_own_balance own pa mem a : own mem = 0 → mem ≠ pa →
  (<[pa := own_store (<[mem := 1]> own) (Some pa) (Some mem) pa - 1]>
     (own_store (<[mem := 1]> own) (Some pa) (Some mem))) a = own a.
Proof.
  intros Hm Hne. unfold own_store, delta. destruct (decide (a = pa)) as [->|Ha].
  - rewrite fn_lookup_insert, fn_lookup_insert_ne by done.
    rewrite decide_True, decide_False by congruence. lia.
  - rewrite fn_lookup_insert_ne by done. rewrite decide_False by congruence.
    destruct (decide (a = mem)) as [->|Ham].
    + rewrite fn_lookup_insert, decide_True by done. lia.
    + rewrite fn_lookup_insert_ne, decide_False by congruence. lia.
Qed.

Lemma cowalloc_run s mem l sp maps own r t va :
  vinv s (mem :: l) sp maps own → settled own → sp !! r = Some t →
  0 ≤ va / PGSIZE < UVPN → is_cow (pte_of (kmem s) t va) = true →
  ∃ pa s' l', maps !! (r, va / PGSIZE) = Some pa ∧ cowalloc r va s = Ok (0, s') ∧
    cow_copied s l sp maps own r t (va / PGSIZE) pa mem s' l'.
Proof.
  intros Hv Ho Ht Hn Hcow. set (n := va / PGSIZE) in *.
  pose proof (pte_of_page (kmem s) t n va eq_refl) as Hpg.
  pose proof (vi_maps _ _ _ _ _ Hv r t n Ht Hn) as Hpa. rewrite <-Hpg in Hpa.
  assert (0 ≤ va < MAXVA) as Hva.
  { subst n. rewrite UVPN_val in Hn. rewrite MAXVA_val.
    pose proof (Z.div_mod va PGSIZE ltac:(done)). pose proof (Z.mod_pos_bound va PGSIZE ltac:(done)).
    unfold PGSIZE in *. lia. }
  unfold cowalloc. destruct (Z.leb_spec MAXVA va); [lia|].
  msimpl. rewrite (walk_space s _ sp maps own r t) by (done || lia).
  destruct (pt_slot t va) as [slot|] eqn:Es; cycle 1.
  { rewrite (pte_of_None _ _ _ Es) in Hcow. unfold is_cow in Hcow. by rewrite flag_set_0 in Hcow. }
  assert (pt_slot t (n * PGSIZE) = Some slot) as Esn.
  { rewrite <-Es. unfold pt_slot.
    rewrite !(PX_page _ va (n * PGSIZE)); try done; by rewrite vpn_div. }
  change (default 0 (Some slot)) with slot.
  rewrite (slot_eqb_0 s _ sp maps own r t va) by done.
  rewrite (pte_of_slot _ _ _ _ Es) in Hcow, Hpa. unfold load64, store64. msimpl.
  set (v := ld64 (kmem s) slot) in *. unfold is_cow in Hcow.
  destruct (flag_set v PTE_V) eqn:HV; [|done]. destruct (flag_set v PTE_U) eqn:HU; [|done].
  destruct (flag_set v PTE_W) eqn:HW; [done|]. destruct (flag_set v PTE_COW) eqn:HC; [|done].
  unfold pte_target in Hpa. rewrite HV in Hpa. set (pa := PTE2PA v) in *. clearbody pa.
  (* the new page *)
  assert (own mem = 0) as Hom by (eapply settled_free; [done..|by left]).
  destruct (vinv_kalloc s mem l sp maps own Hv Hom) as (s1 & Hrun1 & Hv1 & Hm1 & Hc1 & Hc1m).
  assert (mem ∉ l ∧ valid_page mem) as [Hml Hmv].
  { pose proof (vi_kinv _ _ _ _ _ Hv) as [_ Hnd Hval _].
    apply NoDup_cons in Hnd as [? _]. by apply Forall_cons in Hval as [? _]. }
  assert (mem ≠ 0) as Hm0 by (pose proof (valid_page_pos _ Hmv); unfold KERNBASE in *; lia).
  assert (pa ∉ mem :: l) as Hpl by (by eapply mapped_notin).
  assert (valid_page pa) as Hpv by (by eapply vi_valid).
  assert (mem ≠ pa) as Hmp by (intros ->; apply Hpl; by left).
  assert (¬ tree_page sp mem) as Hmt.
  { intros Htp. eapply (vinv_tree_notin s); [done|done|by left]. }
  assert (¬ tree_page sp pa) as Hpt by (intros ?; by eapply (vinv_tree_unmapped s)).
  rewrite Hrun1. rewrite (proj2 (Z.eqb_neq mem 0) Hm0). msimpl.
  (* its contents *)
  set (m2 := memmove (kmem s1) mem pa PGSIZE).
  assert (∀ q, q mod PGSIZE = 0 → q ≠ mem → same_page m2 (kmem s1) q) as Hm2.
  { intros q Hq Hqm. apply same_page_memmove; [done|apply Hmv|done]. }
  assert (vinv (set_mem m2 s1) l sp maps (<[mem := 1]> own)) as Hv2.
  { apply vinv_write; [done|]. intros q Hq Hcase. apply Hm2; [done|].
    intros ->. by destruct Hcase. }
  (* the entry *)
  change (kmem (set_mem m2 s1)) with m2.
  change (Z.lor (PA2PTE mem) _) with (private_pte v mem).
  pose proof (vinv_store _ _ _ _ _ r t n slot (private_pte v mem) Hv2 Ht Hn Esn
    (private_pte_range v mem Hmv)) as Hv3.
  rewrite private_pte_target, Hpa in Hv3 by done.
  specialize (Hv3 ltac:(by intros a [= <-])). change (kmem (set_mem m2 s1)) with m2 in Hv3.
  set (s3 := set_mem (st64 m2 slot (private_pte v mem)) (set_mem m2 s1)) in *.
  change (set_map (r, n) (Some mem) maps) with (<[(r, n) := mem]> maps) in Hv3.
  assert (refc s3 pa = refc s pa) as Hrpa by (apply Hc1; [apply Hpv|done]).
  destruct (vinv_kfree s3 l sp (<[(r, n) := mem]> maps) _ pa Hv3 Hpv)
    as (s4 & l4 & Hrun4 & Hv4 & Hl4 & Hm4 & Hc4); [by rewrite Hrpa; eapply mapped_refc|done|].
  assert (∀ q, q mod PGSIZE = 0 → ¬ pt_page t q → same_page (kmem s3) m2 q) as Hm3.
  { intros q Hq Hqt. eapply (same_page_store_slot m2); [|done|done|done].
    by apply (vi_rep _ _ _ _ _ Hv2 r t). }
  exists pa, s4, l4. split; [done|]. split; [by rewrite Hrun4|].
  assert (vinv s4 l4 sp (<[(r, n) := mem]> maps) own) as Hv5
    by (eapply vinv_own_ext; [|exact Hv4]; intros a; by apply cow_own_balance).
  assert (∀ q, pt_page t q → q mod PGSIZE = 0 ∧ q ≠ pa ∧ q ≠ mem) as Htp.
  { intros q Hq. split; [eapply pt_page_aligned; [by eapply vi_rep|done]|].
    split; intros ->; [apply Hpt|apply Hmt]; by exists r, t. }
  split; [done|..].
  - intros va' Hva'.
    rewrite <-(pte_of_frame (kmem s3)); cycle 1.
    { intros q Hq. destruct (Htp q Hq) as (? & ? & ?). by apply same_page_sym, Hm4. }
    unfold s3 at 1. cbn [kmem set_mem]. rewrite (pte_of_store_leaf _ _ (n * PGSIZE));
      [|by apply (vi_rep _ _ _ _ _ Hv2 r t)|done|by apply private_pte_range
       |by apply vpn_lt_MAXVA|done].
    rewrite vpn_div. destruct (decide (va' / PGSIZE = n)) as [E|].
    + by rewrite (pte_of_page _ _ n va' E), (pte_of_slot _ _ _ _ Esn).
    + symmetry. apply pte_of_frame. intros q Hq. destruct (Htp q Hq) as (? & ? & ?).
      apply same_page_sym. eapply same_page_trans; [by apply Hm2|by apply Hm1].
  - eapply other_ptes_frame; [done..|]. intros q Hq Hqt Hqn.
    assert (q ≠ pa ∧ q ≠ mem) as [? ?] by (split; by intros ->).
    eapply same_page_trans; [by apply Hm4|]. eapply same_page_trans; [by apply Hm3|].
    eapply same_page_trans; [by apply Hm2|by apply Hm1].
  - intros i Hi. pose proof (proj1 Hmv) as Hma. pose proof (proj1 Hpv) as Hpaa.
    rewrite (same_page_bytes _ _ _ (Hm4 mem Hma Hmp) i Hi).
    rewrite (same_page_bytes _ _ _ (Hm3 mem Hma ltac:(intros ?; apply Hmt; by exists r, t)) i Hi).
    unfold m2. rewrite ld8_memmove, decide_True by (unfold PGSIZE in *; lia).
    replace (mem + i - mem) with i by lia.
    exact (same_page_bytes _ _ _ (Hm1 pa Hpaa ltac:(done)) i Hi).
  - rewrite Hrpa in Hl4. destruct (decide (refc s pa = 1)); [done|]. apply Hl4.
  - intros q Hq Hqt Hqm Hql.
    assert (same_page (kmem s4) (kmem s3) q) as Hs4.
    { rewrite Hrpa in Hl4. destruct (decide (refc s pa = 1)).
      - apply Hm4; [done|]. intros ->. apply Hql. subst l4. by left.
      - destruct Hl4 as [_ ->]. apply same_page_refl. }
    eapply same_page_trans; [exact Hs4|].
    eapply same_page_trans; [apply Hm3; [done|]; intros ?; apply Hqt; by exists r, t|].
    eapply same_page_trans; [by apply Hm2|by apply Hm1].
  - split; [|by rewrite Hc4 by (apply Hmv || done)].
    rewrite (vi_count _ _ _ _ _ Hv5 pa Hpv), (vi_count _ _ _ _ _ Hv pa Hpv).
    change (<[(r, n) := mem]> maps) with (set_map (r, n) (Some mem) maps).
    rewrite cnt_set_map, Hpa. unfold delta.
    rewrite decide_True, decide_False by congruence. lia.
  - intros q Hq Hqp Hqm. rewrite Hc4 by done. by apply Hc1.
Qed.
End cow.
