(* ===== verification/VmUser.v ===== *)
(** What user programs see of the virtual memory system.

    [user_byte s t va] is the byte a user-mode load at [va] returns with the
    page table [t]; [private] is the copy-on-write discipline: a page that some
    address space can write is mapped nowhere else.  The theorems state fork
    and copy-on-write faults at this level. *)

From stdpp Require Import functions.
From S2P Require Import Prelude Riscv Mem Str Kalloc Vm VmTree VmSpace VmOps VmCopy VmGrow VmCow.

(** The address a user-mode access at [va] goes to. *)
Definition user_pa (m : memory) (t : ptree) (va : Z) : option Z :=
  let v := pte_of m t va in
  if flag_set v PTE_V && flag_set v PTE_U then Some (PTE2PA v + va mod PGSIZE) else None.

Definition user_byte (s : kst) (t : ptree) (va : Z) : option Z :=
  ld8 (kmem s) <$> user_pa (kmem s) t va.

(** May user code store at [va]? *)
Definition user_writable (m : memory) (t : ptree) (va : Z) : bool :=
  let v := pte_of m t va in flag_set v PTE_V && flag_set v PTE_U && flag_set v PTE_W.

Section user.
Context `{KernelImage} `{!KernelImageOk}.

(** Writable pages are not shared. *)
Definition private (s : kst) (sp : gmap Z ptree) (maps : gmap (Z * Z) Z) : Prop :=
  ∀ r t n a, sp !! r = Some t → 0 ≤ n < UVPN → maps !! (r, n) = Some a →
    flag_set (pte_of (kmem s) t (n * PGSIZE)) PTE_W = true → cnt maps a = 1.

Lemma user_pa_page s l sp maps own r t va a :
  vinv s l sp maps own → settled own → sp !! r = Some t → uaddr va →
  user_pa (kmem s) t va = Some a →
  ∃ p, maps !! (r, va / PGSIZE) = Some p ∧ p = PTE2PA (pte_of (kmem s) t va) ∧
    a = p + va mod PGSIZE ∧ valid_page p ∧ ¬ tree_page sp p ∧ p ∉ l.
Proof.
  intros Hv Ho Ht Hu Ha. destruct (uaddr_vpn va Hu) as [Hn Hva].
  pose proof (vi_maps _ _ _ _ _ Hv r t _ Ht Hn) as Hm.
  rewrite <-(pte_of_page _ _ _ va eq_refl) in Hm.
  unfold user_pa in Ha. unfold pte_target in Hm. destruct (flag_set _ PTE_V); [|done].
  destruct (flag_set _ PTE_U); [|done]. injection Ha as <-.
  eexists. split; [exact Hm|]. split; [done|]. split; [done|]. split; [by eapply vi_valid|].
  split; [intros ?; by eapply vinv_tree_unmapped|by eapply mapped_notin].
Qed.

(** The page an address falls into. *)
Lemma page_addr p va : in_page p (p + va mod PGSIZE).
Proof. pose proof (Z.mod_pos_bound va PGSIZE ltac:(done)). unfold in_page. lia. Qed.

Lemma user_byte_frame s l sp maps own s' r t t' va :
  vinv s l sp maps own → settled own → sp !! r = Some t → uaddr va →
  user_pa (kmem s') t' va = user_pa (kmem s) t va →
  (∀ p, maps !! (r, va / PGSIZE) = Some p → ¬ tree_page sp p → p ∉ l →
     same_page (kmem s') (kmem s) p) →
  user_byte s' t' va = user_byte s t va.
Proof.
  intros Hv Ho Ht Hu Hpa Hsame. unfold user_byte. rewrite Hpa.
  destruct (user_pa (kmem s) t va) as [a|] eqn:E; [|done].
  destruct (user_pa_page _ _ _ _ _ _ _ _ _ Hv Ho Ht Hu E) as (p & Hp & _ & -> & _ & Hnt & Hnl).
  simpl. f_equal. apply (Hsame p Hp Hnt Hnl), page_addr.
Qed.

Lemma cow_pte_user_pa m m' t t' va :
  pte_of m' t' va = cow_pte (pte_of m t va) → user_pa m' t' va = user_pa m t va.
Proof.
  intros E. unfold user_pa. rewrite E. pose proof (cow_pte_target (pte_of m t va)) as Ht.
  unfold pte_target in Ht. change PTE_V with (2 ^ 0) in *. change PTE_U with (2 ^ 4).
  rewrite !cow_pte_flag in * by done. destruct (flag_set _ (2 ^ 0)); [|done].
  by injection Ht as ->.
Qed.

Lemma child_pte_user_pa m m' t t' va :
  flag_set (pte_of m t va) PTE_V = true → valid_page (PTE2PA (pte_of m t va)) →
  pte_of m' t' va = child_pte (pte_of m t va) → user_pa m' t' va = user_pa m t va.
Proof.
  intros HV Hval E. unfold user_pa. rewrite E.
  pose proof (child_pte_target (pte_of m t va) Hval) as Ht. unfold pte_target in Ht.
  change PTE_V with (2 ^ 0) in *. change PTE_U with (2 ^ 4).
  rewrite !child_pte_flags, !cow_pte_flag in * by (done || lia).
  rewrite HV in *. by injection Ht as ->.
Qed.

(** ** fork *)
Lemma copy_done_count s l sp maps own old told new tnew m s' l' tnew' maps' k a :
  vinv s l sp maps own → settled own →
  copy_done s l sp maps own old told new tnew 0 m s' l' tnew' maps' →
  maps !! k = Some a → (∀ i, 0 ≤ i < m → maps !! (old, i) ≠ Some a) →
  cnt maps' a = cnt maps a.
Proof.
  intros Hv Ho Hd Hk Hnot.
  pose proof (vi_valid _ _ _ _ _ Hv _ _ Hk) as Hval.
  pose proof (mapped_notin _ _ _ _ _ _ _ Hv Ho Hk) as Hnl.
  pose proof (done_refc_ne _ _ _ _ _ _ _ _ _ _ _ _ _ _ _ Hd a Hval Hnl Hnot) as Hrc.
  pose proof (vi_count _ _ _ _ _ (done_vinv _ _ _ _ _ _ _ _ _ _ _ _ _ _ _ Hd) a Hval) as E'.
  pose proof (vi_count _ _ _ _ _ Hv a Hval) as E.
  unfold own_grow in E'. rewrite decide_False in E' by naive_solver. lia.
Qed.

Lemma copy_done_private s l sp maps own old told new tnew m s' l' tnew' maps' :
  vinv s l sp maps own → settled own → private s sp maps → old ≠ new →
  sp !! old = Some told → (∀ i, maps !! (new, i) = None) →
  copy_done s l sp maps own old told new tnew 0 m s' l' tnew' maps' →
  private s' (<[new := tnew']> sp) maps'.
Proof.
  intros Hv Ho Hp Hne Ht Hnone Hd r t n a Hr Hn Ha HW.
  pose proof (vpn_lt_MAXVA n Hn) as Hva.
  pose proof Hd as [D1 [_ _ Dp _] Dm Dold Dnew _ _].
  assert (∀ v, flag_set v PTE_V = true → flag_set (cow_pte v) PTE_W = false) as Hcow
    by (intros v HV; by apply cow_pte_valid).
  rewrite lookup_insert in Hr. rewrite Dm in Ha.
  destruct (decide (new = r)) as [<-|Hnr]; [injection Hr as <-|].
  - exfalso. destruct (decide (new = new ∧ 0 ≤ n < m)) as [[_ Hnm]|_]; [|by rewrite Hnone in Ha].
    pose proof (vi_maps _ _ _ _ _ Hv old told n Ht Hn) as Hm. rewrite Ha in Hm.
    assert (flag_set (pte_of (kmem s) told (n * PGSIZE)) PTE_V = true) as HV
      by (unfold pte_target in Hm; by destruct (flag_set _ PTE_V)).
    assert (valid_page (PTE2PA (pte_of (kmem s) told (n * PGSIZE)))) as Hval.
    { unfold pte_target in Hm. rewrite HV in Hm. injection Hm as <-. exact (vi_valid _ _ _ _ _ Hv _ _ Ha). }
    rewrite Dnew, vpn_div, decide_True in HW by done.
    change PTE_W with (2 ^ 2) in *. rewrite child_pte_flags in HW by (done || lia).
    by rewrite Hcow in HW.
  - rewrite decide_False in Ha by naive_solver.
    assert (flag_set (pte_of (kmem s) t (n * PGSIZE)) PTE_W = true ∧
            (r = old → ¬ 0 ≤ n < m)) as [HW0 Hout].
    { destruct (decide (r = old)) as [->|Hro].
      - replace t with told in * by congruence. rewrite Dold, vpn_div in HW by done.
        destruct (decide (0 ≤ n < m)); [|done].
        pose proof (vi_maps _ _ _ _ _ Hv old told n Ht Hn) as Hm. rewrite Ha in Hm.
        unfold pte_target in Hm. destruct (flag_set _ PTE_V) eqn:HV; [|done].
        by rewrite Hcow in HW.
      - split; [|done]. rewrite <-(Dp r t (n * PGSIZE)); done. }
    pose proof (Hp r t n a Hr Hn Ha HW0) as Hc.
    rewrite (copy_done_count _ _ _ _ _ _ _ _ _ _ _ _ _ _ _ _ Hv Ho Hd Ha); [done|].
    intros i Hi Hi'. pose proof (cnt_unique _ _ _ _ Hc Ha Hi'). naive_solver.
Qed.

Lemma copy_done_child_byte s l sp maps own old told new tnew m s' l' tnew' maps' va :
  vinv s l sp maps own → settled own → sp !! old = Some told → sp !! new = Some tnew →
  maps !! (new, va / PGSIZE) = None →
  copy_done s l sp maps own old told new tnew 0 m s' l' tnew' maps' →
  uaddr va → va / PGSIZE < m → user_byte s' tnew' va = user_byte s told va.
Proof.
  intros Hv Ho Ht Htn Hnone Hd Hu Hm. destruct (uaddr_vpn va Hu) as [Hn Hva].
  destruct Hd as [D1 [Dw _ _ _] _ _ Dnew _ _].
  eapply user_byte_frame; [exact Hv|done|exact Ht|done| |].
  - destruct (flag_set (pte_of (kmem s) told va) PTE_V) eqn:HV.
    + pose proof (vi_maps _ _ _ _ _ Hv old told _ Ht Hn) as Hp.
      rewrite <-(pte_of_page _ _ _ va eq_refl) in Hp. unfold pte_target in Hp. rewrite HV in Hp.
      apply child_pte_user_pa; [done|exact (vi_valid _ _ _ _ _ Hv _ _ Hp)|].
      rewrite Dnew by done. rewrite decide_True by (split; [lia|done]). done.
    + pose proof (vi_maps _ _ _ _ _ Hv new tnew _ Htn Hn) as Hp.
      rewrite <-(pte_of_page _ _ _ va eq_refl), Hnone in Hp. unfold pte_target in Hp.
      unfold user_pa. rewrite Dnew by done. rewrite decide_False by (rewrite HV; by intros [_ ?]).
      rewrite HV. by destruct (flag_set (pte_of (kmem s) tnew va) PTE_V).
  - intros p Hp Hnt Hnl. apply Dw; [|done|done]. apply (vi_valid _ _ _ _ _ Hv _ _ Hp).
Qed.

Lemma copy_done_byte s l sp maps own old told new tnew m s' l' tnew' maps' r t va :
  vinv s l sp maps own → settled own → sp !! old = Some told →
  copy_done s l sp maps own old told new tnew 0 m s' l' tnew' maps' →
  sp !! r = Some t → r ≠ new → uaddr va → user_byte s' t va = user_byte s t va.
Proof.
  intros Hv Ho Ht Hd Hr Hrn Hu. destruct (uaddr_vpn va Hu) as [Hn Hva].
  destruct Hd as [D1 [Dw _ Dp _] _ Dold _ _ _].
  eapply user_byte_frame; [exact Hv|done|exact Hr|done| |].
  - destruct (decide (r = old)) as [->|].
    + replace t with told in * by congruence. specialize (Dold va Hva).
      destruct (decide _); [by apply cow_pte_user_pa|]. unfold user_pa. by rewrite Dold.
    + unfold user_pa. by rewrite (Dp r t va).
  - intros p Hp Hnt Hnl. apply Dw; [|done|done]. apply (vi_valid _ _ _ _ _ Hv _ _ Hp).
Qed.

Lemma copy_failed_maps s l sp maps own old told new s' l' tnew' maps' :
  vinv s l sp maps own → (∀ i, maps !! (new, i) = None) →
  copy_failed s l sp maps own old told new s' l' tnew' maps' →
  vinv s' l' (<[new := tnew']> sp) maps (own_grow l [] own).
Proof.
  intros Hv Hnone [F1 F2 _ _ _]. replace maps with maps'; [done|].
  apply map_eq. intros [r i]. rewrite F2. case_decide; [|done]. subst. by rewrite Hnone.
Qed.

Lemma copy_failed_byte s l sp maps own old told new s' l' tnew' maps' r t va :
  vinv s l sp maps own → settled own → sp !! old = Some told →
  (∀ i, maps !! (new, i) = None) →
  copy_failed s l sp maps own old told new s' l' tnew' maps' →
  sp !! r = Some t → r ≠ new → uaddr va → user_byte s' t va = user_byte s t va.
Proof.
  intros Hv Ho Ht Hnone Hf Hr Hrn Hu. destruct (uaddr_vpn va Hu) as [Hn Hva].
  pose proof (copy_failed_maps _ _ _ _ _ _ _ _ _ _ _ _ Hv Hnone Hf) as Hv'.
  destruct Hf as [_ _ Fw Fold Fp].
  eapply user_byte_frame; [exact Hv|done|exact Hr|done| |].
  - destruct (decide (r = old)) as [->|].
    + replace t with told in * by congruence.
      destruct (Fold va Hva) as [E|E]; [unfold user_pa; by rewrite E|by apply cow_pte_user_pa].
    + unfold user_pa. by rewrite (Fp r t va).
  - intros p Hp Hnt Hnl. apply Fw; [|done|done|].
    + apply (vi_valid _ _ _ _ _ Hv _ _ Hp).
    + exact (mapped_notin _ _ _ _ _ _ _ Hv' (settled_grow _ _ _ Ho) Hp).
Qed.

Lemma copy_failed_private s l sp maps own old told new s' l' tnew' maps' :
  private s sp maps → sp !! old = Some told → (∀ i, maps !! (new, i) = None) → vinv s l sp maps own →
  copy_failed s l sp maps own old told new s' l' tnew' maps' →
  private s' (<[new := tnew']> sp) maps.
Proof.
  intros Hp Ht Hnone Hv [_ _ _ Fold Fp] r t n a Hr Hn Ha HW.
  pose proof (vpn_lt_MAXVA n Hn) as Hva.
  assert (r ≠ new) as Hrn by (intros ->; by rewrite Hnone in Ha).
  rewrite lookup_insert_ne in Hr by done. apply (Hp r t n a Hr Hn Ha).
  destruct (decide (r = old)) as [->|]; [|by rewrite <-(Fp r t (n * PGSIZE))].
  replace t with told in * by congruence.
  destruct (Fold (n * PGSIZE) Hva) as [E|E]; [by rewrite <-E|]. rewrite E in HW.
  pose proof (vi_maps _ _ _ _ _ Hv old told n Ht Hn) as Hm. rewrite Ha in Hm.
  unfold pte_target in Hm. destruct (flag_set _ PTE_V) eqn:HV; [|done].
  destruct (cow_pte_valid _ HV) as [HW' _]. congruence.
Qed.

(** A forked address space. *)
Record forked (s : kst) (l : list Z) (sp : gmap Z ptree) (maps : gmap (Z * Z) Z) (own : Z → Z)
    (old : Z) (told : ptree) (new sz : Z) (s' : kst) (l' : list Z) (tnew' : ptree)
    (maps' : gmap (Z * Z) Z) : Prop := {
  fk_vinv : vinv s' l' (<[new := tnew']> sp) maps' (own_grow l l' own);
  fk_private : private s' (<[new := tnew']> sp) maps';
  fk_child : ∀ va, uaddr va → va < PGROUNDUP sz → user_byte s' tnew' va = user_byte s told va;
  fk_others : ∀ r t va, sp !! r = Some t → r ≠ new → uaddr va →
    user_byte s' t va = user_byte s t va;
  fk_cow : ∀ va, uaddr va → va < PGROUNDUP sz → user_writable (kmem s) told va = true →
    is_cow (pte_of (kmem s') told va) = true ∧ is_cow (pte_of (kmem s') tnew' va) = true;
  fk_maps : ∀ r i, maps' !! (r, i) =
    if decide (r = new ∧ 0 ≤ i < PGROUNDUP sz / PGSIZE) then maps !! (old, i) else maps !! (r, i);
  fk_refc : ∀ i pa, 0 ≤ i < PGROUNDUP sz / PGSIZE → maps !! (old, i) = Some pa →
    refc s' pa = refc s pa + 1;
}.

Lemma writable_is_cow v :
  flag_set v PTE_V = true → flag_set v PTE_U = true → flag_set v PTE_W = true →
  is_cow (cow_pte v) = true.
Proof.
  intros HV HU HW. destruct (cow_pte_valid v HV) as [HW' HC]. specialize (HC HW).
  unfold is_cow. rewrite HW', HC. change PTE_V with (2 ^ 0) in *. change PTE_U with (2 ^ 4) in *.
  by rewrite !cow_pte_flag, HV, HU by done.
Qed.

Lemma child_is_cow v :
  flag_set v PTE_V = true → valid_page (PTE2PA v) → is_cow (child_pte v) = is_cow (cow_pte v).
Proof.
  intros HV Hval. unfold is_cow. change PTE_V with (2 ^ 0) in *. change PTE_U with (2 ^ 4).
  change PTE_W with (2 ^ 2). change PTE_COW with (2 ^ 8).
  by rewrite !child_pte_flags by (done || lia).
Qed.

Lemma copy_done_cow s l sp maps own old told new tnew m s' l' tnew' maps' va :
  vinv s l sp maps own → sp !! old = Some told →
  copy_done s l sp maps own old told new tnew 0 m s' l' tnew' maps' →
  uaddr va → va / PGSIZE < m → user_writable (kmem s) told va = true →
  is_cow (pte_of (kmem s') told va) = true ∧ is_cow (pte_of (kmem s') tnew' va) = true.
Proof.
  intros Hv Ht Hd Hu Hm Hw. destruct (uaddr_vpn va Hu) as [Hn Hva].
  unfold user_writable in Hw. rewrite !andb_true_iff in Hw. destruct Hw as [[HV HU] HW].
  pose proof (vi_maps _ _ _ _ _ Hv old told _ Ht Hn) as Hp.
  rewrite <-(pte_of_page _ _ _ va eq_refl) in Hp. unfold pte_target in Hp. rewrite HV in Hp.
  rewrite (done_old _ _ _ _ _ _ _ _ _ _ _ _ _ _ _ Hd va Hva), decide_True by lia.
  rewrite (done_new _ _ _ _ _ _ _ _ _ _ _ _ _ _ _ Hd va Hva), decide_True by (split; [lia|done]).
  rewrite child_is_cow by (done || exact (vi_valid _ _ _ _ _ Hv _ _ Hp)).
  split; by apply writable_is_cow.
Qed.

Lemma uvmcopy_forks s l sp maps own old told new tnew sz :
  vinv s l sp maps own → settled own → private s sp maps → old ≠ new →
  sp !! old = Some told → sp !! new = Some tnew → 0 ≤ sz ≤ TRAPFRAME →
  (∀ i, maps !! (new, i) = None) → inj_space maps old →
  (∀ i pa, maps !! (old, i) = Some pa → refc s pa < 65535) →
  ∃ s' l' tnew' maps',
    (uvmcopy old new sz s = Ok (0, s') ∧
     forked s l sp maps own old told new sz s' l' tnew' maps') ∨
    (uvmcopy old new sz s = Ok (-1, s') ∧
     copy_failed s l sp maps own old told new s' l' tnew' maps').
Proof.
  intros Hv Ho Hp Hne Ht Htn Hsz Hnone Hinj Hrc.
  destruct (npages_bounds sz Hsz) as (Hm & Hmsz & Hup). unfold uvmcopy.
  change ((sz + PGSIZE - 1) / PGSIZE) with (npages sz). set (m := npages sz) in *.
  destruct (uvmcopy_loop (Z.to_nat m) (S (Z.to_nat m)) s l sp maps own old told new tnew 0 sz)
    as (s' & l' & tnew' & maps' & Hcase);
    [lia|done|done|done|done|done|lia|lia|rewrite Z2Nat.id by lia; lia
    |by intros i _|done|by intros i pa _; apply Hrc|].
  exists s', l', tnew', maps'. destruct Hcase as [(Hrun & Hf)|(Hrun & Hd)]; [by right|left].
  split; [done|]. rewrite Z2Nat.id in Hd by lia. rewrite Z.add_0_l in Hd.
  split.
  - apply Hd.
  - by eapply copy_done_private.
  - intros va Hu Hlt. eapply copy_done_child_byte; try done.
    apply Z.div_lt_upper_bound; [done|]. lia.
  - intros r t va Hr Hrn Hu. exact (copy_done_byte _ _ _ _ _ _ _ _ _ _ _ _ _ _ _ _ _ Hv Ho Ht Hd Hr Hrn Hu).
  - intros va Hu Hlt. eapply copy_done_cow; [exact Hv|exact Ht|exact Hd|done|].
    apply Z.div_lt_upper_bound; [done|]. lia.
  - rewrite Hup, vpn_div. apply Hd.
  - rewrite Hup, vpn_div. intros i pa Hi Hpa. by apply (done_refc _ _ _ _ _ _ _ _ _ _ _ _ _ _ _ Hd pa i).
Qed.

(** ** Copy-on-write faults *)
Section cow_fault.
Variables (s : kst) (mem : Z) (l : list Z) (sp : gmap Z ptree) (maps : gmap (Z * Z) Z)
  (own : Z → Z) (r : Z) (t : ptree) (n pa : Z) (s' : kst) (l' : list Z).
Hypotheses (Hv : vinv s (mem :: l) sp maps own) (Ho : settled own) (Ht : sp !! r = Some t)
  (Hn : 0 ≤ n < UVPN) (Hpa : maps !! (r, n) = Some pa)
  (Hcow : is_cow (pte_of (kmem s) t (n * PGSIZE)) = true)
  (Hc : cow_copied s l sp maps own r t n pa mem s' l').

Lemma cow_mem_unmapped k : maps !! k ≠ Some mem.
Proof. intros Hk. apply (mapped_notin _ _ _ _ _ _ _ Hv Ho Hk). by left. Qed.

Lemma cow_mem_valid : valid_page mem.
Proof. pose proof (vi_kinv _ _ _ _ _ Hv) as [_ _ Hval _]. by apply Forall_cons in Hval as [? _]. Qed.

(** Another mapping of the page keeps it allocated. *)
Lemma cow_other_page k p :
  k ≠ (r, n) → maps !! k = Some p → p ≠ mem ∧ p ∉ l'.
Proof.
  intros Hk Hp. pose proof (mapped_notin _ _ _ _ _ _ _ Hv Ho Hp) as Hnl.
  split; [intros ->; apply Hnl; by left|].
  rewrite (cc_free _ _ _ _ _ _ _ _ _ _ _ _ Hc). case_decide as E; [|set_solver].
  intros [->|?]%elem_of_cons; [|apply Hnl; by right].
  apply Hk. symmetry. eapply (cnt_unique maps); [|done|done].
  pose proof (vi_valid _ _ _ _ _ Hv _ _ Hp) as Hval.
  pose proof (vi_count _ _ _ _ _ Hv pa Hval). pose proof (cnt_pos _ _ _ Hp). pose proof (Ho pa). lia.
Qed.

Lemma cow_flags_VU va : va / PGSIZE = n →
  flag_set (pte_of (kmem s) t va) PTE_V = true ∧ flag_set (pte_of (kmem s) t va) PTE_U = true ∧
  PTE2PA (pte_of (kmem s) t va) = pa.
Proof.
  intros E. rewrite (pte_of_page _ _ _ va E). pose proof (vi_maps _ _ _ _ _ Hv r t n Ht Hn) as Hm.
  rewrite Hpa in Hm. unfold pte_target in Hm. unfold is_cow in Hcow.
  destruct (flag_set _ PTE_V); [|done]. destruct (flag_set _ PTE_U); [|done].
  by injection Hm as <-.
Qed.

Lemma cow_fault_pa va : va / PGSIZE = n → 0 ≤ va < MAXVA →
  user_pa (kmem s') t va = Some (mem + va mod PGSIZE) ∧
  user_pa (kmem s) t va = Some (pa + va mod PGSIZE) ∧ user_writable (kmem s') t va = true.
Proof.
  intros E Hva. destruct (cow_flags_VU va E) as (HV & HU & Hp).
  unfold user_pa, user_writable. rewrite HV, HU, Hp.
  rewrite (cc_pte _ _ _ _ _ _ _ _ _ _ _ _ Hc va Hva), decide_True by done.
  pose proof (private_pte_target (pte_of (kmem s) t va) mem cow_mem_valid HV) as Htg.
  unfold pte_target in Htg. change PTE_V with (2 ^ 0) in *. change PTE_U with (2 ^ 4) in *.
  change PTE_W with (2 ^ 2).
  rewrite !private_pte_flag in * by (apply cow_mem_valid || lia).
  repeat first [rewrite decide_False by lia | rewrite decide_True by lia].
  rewrite !decide_False in Htg by lia.
  rewrite HV, HU in *. injection Htg as ->. done.
Qed.

Lemma cow_fault_byte r' t' va : sp !! r' = Some t' → uaddr va →
  user_byte s' t' va = user_byte s t' va.
Proof.
  intros Hr' Hu. destruct (uaddr_vpn va Hu) as [Hi Hva].
  destruct (decide (r' = r ∧ va / PGSIZE = n)) as [[-> E]|Hne].
  - replace t' with t in * by congruence. unfold user_byte.
    destruct (cow_fault_pa va E Hva) as (-> & -> & _). simpl. f_equal.
    apply (cc_copy _ _ _ _ _ _ _ _ _ _ _ _ Hc). by apply Z.mod_pos_bound.
  - assert ((r', va / PGSIZE) ≠ (r, n)) as Hk by (intros [= Hr Hq]; by apply Hne).
    eapply user_byte_frame; [exact Hv|done|exact Hr'|done| |].
    + unfold user_pa. destruct (decide (r' = r)) as [->|].
      * replace t' with t in * by congruence.
        rewrite (cc_pte _ _ _ _ _ _ _ _ _ _ _ _ Hc va Hva), decide_False; [done|naive_solver].
      * by rewrite (cc_other _ _ _ _ _ _ _ _ _ _ _ _ Hc r' t').
    + intros p Hp Hnt _. destruct (cow_other_page _ _ Hk Hp).
      apply (cc_page _ _ _ _ _ _ _ _ _ _ _ _ Hc); try done.
      apply (vi_valid _ _ _ _ _ Hv _ _ Hp).
Qed.

Lemma cow_count_mem : cnt (<[(r, n) := mem]> maps) mem = 1.
Proof.
  change (<[(r, n) := mem]> maps) with (set_map (r, n) (Some mem) maps).
  rewrite cnt_set_map, Hpa. unfold delta.
  assert (pa ≠ mem) by (intros E; apply (cow_mem_unmapped (r, n)); congruence).
  rewrite decide_False, decide_True by congruence.
  destruct (cnt_free s (mem :: l) sp maps own mem Hv (Ho mem) ltac:(by left)). lia.
Qed.

Lemma cow_fault_private : private s sp maps → private s' sp (<[(r, n) := mem]> maps).
Proof.
  intros Hp r' t' i a Hr' Hi Ha HW. destruct (decide ((r, n) = (r', i))) as [Hk|Hk].
  - rewrite <-Hk, lookup_insert_eq in Ha. injection Ha as <-. apply cow_count_mem.
  - rewrite lookup_insert_ne in Ha by done.
    assert (flag_set (pte_of (kmem s) t' (i * PGSIZE)) PTE_W = true) as HW0.
    { destruct (decide (r' = r)) as [->|].
      - replace t' with t in * by congruence.
        rewrite (cc_pte _ _ _ _ _ _ _ _ _ _ _ _ Hc) in HW by (by apply vpn_lt_MAXVA).
        rewrite vpn_div, decide_False in HW; [done|congruence].
      - by rewrite <-(cc_other _ _ _ _ _ _ _ _ _ _ _ _ Hc r' t'). }
    pose proof (Hp r' t' i a Hr' Hi Ha HW0) as Hc1.
    change (<[(r, n) := mem]> maps) with (set_map (r, n) (Some mem) maps).
    rewrite cnt_set_map, Hpa. unfold delta.
    rewrite !decide_False; [lia| |]; intros E.
    + apply (cow_mem_unmapped (r', i)). congruence.
    + apply Hk. eapply (cnt_unique maps); [done|congruence|done].
Qed.
End cow_fault.
End user.
