(* ===== verification/VmXfer.v ===== *)
(** Transfers between kernel and user memory: [walkaddr], [copyout], [copyin]
    of [kernel/vm.c].

    A transfer may fault pages in ([vmfault]) and break copy-on-write sharing
    ([cowalloc]) on the way.  [seen] says that such a step is invisible to
    user programs, except that unmapped memory may become zero-filled. *)

From stdpp Require Import functions.
From S2P Require Import Prelude Riscv Mem Str Kalloc Vm VmTree VmSpace VmOps VmCopy VmGrow VmCow VmUser.

Section xfer.
Context `{KernelImage} `{!KernelImageOk}.

Record world (s : kst) (l : list Z) (sp : gmap Z ptree) (maps : gmap (Z * Z) Z)
    (own : Z → Z) : Prop := {
  w_vinv : vinv s l sp maps own;
  w_settled : settled own;
  w_private : private s sp maps;
}.

(** A page of lazily allocated memory of a process of size [p_sz]. *)
Definition lazy_zero (p_sz : Z) (s : kst) (t : ptree) (s' : kst) (t' : ptree) (va : Z) : Prop :=
  user_byte s t va = None ∧ user_byte s' t' va = Some 0 ∧ va / PGSIZE * PGSIZE < p_sz.

Record seen (p_sz : Z) (s : kst) (sp : gmap Z ptree) (r : Z) (t : ptree) (s' : kst)
    (t' : ptree) : Prop := {
  sn_other : ∀ r' u va, sp !! r' = Some u → r' ≠ r → uaddr va →
    user_byte s' u va = user_byte s u va;
  sn_self : ∀ va, uaddr va → user_byte s' t' va = user_byte s t va ∨ lazy_zero p_sz s t s' t' va;
}.

Lemma walkaddr_space s l sp maps own r t va :
  vinv s l sp maps own → sp !! r = Some t → va < MAXVA →
  walkaddr r va s =
    Ok (if flag_set (pte_of (kmem s) t va) PTE_V && flag_set (pte_of (kmem s) t va) PTE_U
        then PTE2PA (pte_of (kmem s) t va) else 0, s).
Proof.
  intros Hv Ht Hva. unfold walkaddr. destruct (Z.leb_spec MAXVA va); [lia|].
  msimpl. rewrite (walk_space s l sp maps own r t) by done.
  destruct (pt_slot t va) as [slot|] eqn:Es.
  - change (default 0 (Some slot)) with slot.
    rewrite (slot_eqb_0 s l sp maps own r t va) by done.
    unfold load64. msimpl. rewrite (pte_of_slot _ _ _ _ Es).
    by destruct (flag_set (ld64 (kmem s) slot) PTE_V), (flag_set (ld64 (kmem s) slot) PTE_U).
  - by rewrite (pte_of_None _ _ _ Es), flag_set_0.
Qed.

(** ** Faulting a page in *)
Lemma grown_other_byte s l sp maps own r t s' l' t' maps' own' r' u va :
  vinv s l sp maps own → settled own → grown s l sp own r t s' l' t' maps' own' →
  sp !! r' = Some u → r' ≠ r → uaddr va → user_byte s' u va = user_byte s u va.
Proof.
  intros Hv Ho Hg Hr' Hne Hu. eapply user_byte_frame; [exact Hv|done|exact Hr'|done| |].
  - unfold user_pa. by rewrite (gr_pte _ _ _ _ _ _ _ _ _ _ _ Hg r' u).
  - intros p Hp Hnt Hnl. apply (gr_page _ _ _ _ _ _ _ _ _ _ _ Hg); [|done|done].
    apply (vi_valid _ _ _ _ _ Hv _ _ Hp).
Qed.

Lemma grown_self_byte s l sp maps own r t s' l' t' maps' own' va :
  vinv s l sp maps own → settled own → sp !! r = Some t →
  grown s l sp own r t s' l' t' maps' own' → uaddr va →
  user_pa (kmem s') t' va = user_pa (kmem s) t va → user_byte s' t' va = user_byte s t va.
Proof.
  intros Hv Ho Ht Hg Hu Hpa. eapply user_byte_frame; [exact Hv|done|exact Ht|done|done|].
  intros p Hp Hnt Hnl. apply (gr_page _ _ _ _ _ _ _ _ _ _ _ Hg); [|done|done].
  apply (vi_valid _ _ _ _ _ Hv _ _ Hp).
Qed.

(** Entries of other address spaces, or of pages outside the change, keep
    their write permission. *)
Lemma grown_pte_other s l sp maps own r t s' l' t' maps' own' r' u va :
  grown s l sp own r t s' l' t' maps' own' → vinv s l sp maps own →
  <[r := t']> sp !! r' = Some u → r' ≠ r → pte_of (kmem s') u va = pte_of (kmem s) u va.
Proof.
  intros Hg Hv Hr' Hne. rewrite lookup_insert_ne in Hr' by done.
  by apply (gr_pte _ _ _ _ _ _ _ _ _ _ _ Hg r' u).
Qed.

Lemma not_added_world s l sp maps own r t p_sz s' l' t' own' :
  world s l sp maps own → sp !! r = Some t →
  not_added s l sp maps own r t s' l' t' own' →
  world s' l' (<[r := t']> sp) maps own' ∧ seen p_sz s sp r t s' t'.
Proof.
  intros [Hv Ho Hp] Ht [Hg Hpte]. split; split.
  - apply Hg.
  - apply Hg.
  - intros r' u n a Hr' Hn Ha HW. pose proof (vpn_lt_MAXVA n Hn) as Hva.
    destruct (decide (r' = r)) as [->|Hne].
    + rewrite lookup_insert_eq in Hr'. injection Hr' as <-. apply (Hp r t n a Ht Hn Ha).
      destruct (Hpte (n * PGSIZE)) as [E|[E _]].
      * unfold uaddr. rewrite UVPN_val in Hn. change TRAPFRAME with (67108862 * PGSIZE).
        unfold PGSIZE in *. lia.
      * by rewrite <-E.
      * pose proof (vi_maps _ _ _ _ _ (gr_vinv _ _ _ _ _ _ _ _ _ _ _ Hg) r t' n
          (lookup_insert_eq _ _ _) Hn) as Hm.
        unfold pte_target in Hm. rewrite E in Hm. congruence.
    + rewrite (grown_pte_other _ _ _ _ _ _ _ _ _ _ _ _ _ _ _ Hg Hv Hr' Hne) in HW.
      rewrite lookup_insert_ne in Hr' by done. by apply (Hp r' u n a).
  - intros r' u va Hr' Hne Hu. by eapply grown_other_byte.
  - intros va Hu. left. eapply grown_self_byte; try done.
    unfold user_pa. destruct (Hpte va Hu) as [->|[-> ->]]; done.
Qed.

Lemma leaf_pte_flag a perm k : valid_page a → perm_ok perm → 0 ≤ k < 10 →
  flag_set (leaf_pte a perm) (2 ^ k) = flag_set (Z.lor perm PTE_V) (2 ^ k).
Proof.
  intros Ha Hp Hk. rewrite <-(flag_set_flags (leaf_pte a perm)) by done.
  rewrite leaf_pte_flags, PTE_FLAGS_lor; [done|by apply valid_page_pa|].
  apply lor_lt_1024; [done|by compute].
Qed.

Lemma leaf_pte_user_pa m t va a perm :
  valid_page a → perm_ok perm → flag_set perm PTE_U = true →
  pte_of m t va = leaf_pte a perm → user_pa m t va = Some (a + va mod PGSIZE).
Proof.
  intros Ha Hp HU E. unfold user_pa. rewrite E.
  pose proof (leaf_pte_target a perm Ha Hp) as Ht. unfold pte_target in Ht.
  destruct (flag_set (leaf_pte a perm) PTE_V); [|done]. injection Ht as ->.
  change PTE_U with (2 ^ 4) in *. rewrite leaf_pte_flag by (done || lia).
  rewrite flag_set_spec in * by done. rewrite Z.lor_spec, HU. done.
Qed.

Lemma unmapped_byte s l sp maps own r t va :
  vinv s l sp maps own → sp !! r = Some t → uaddr va → maps !! (r, va / PGSIZE) = None →
  user_byte s t va = None.
Proof.
  intros Hv Ht Hu Hnone. destruct (uaddr_vpn va Hu) as [Hn _].
  pose proof (vi_maps _ _ _ _ _ Hv r t _ Ht Hn) as Hm.
  rewrite <-(pte_of_page _ _ _ va eq_refl), Hnone in Hm. unfold user_byte, user_pa.
  unfold pte_target in Hm. by destruct (flag_set (pte_of (kmem s) t va) PTE_V).
Qed.

Lemma added_private s l sp maps own r t perm n j s' l' t' maps' own' :
  world s l sp maps own → sp !! r = Some t →
  added s l sp maps own r t perm n j s' l' t' maps' own' →
  private s' (<[r := t']> sp) maps'.
Proof.
  intros [Hv Ho Hp] Ht [Hg Hm Hnew Hpte Honce Hcnt] r' u i a Hr' Hi Ha HW.
  pose proof (vpn_lt_MAXVA i Hi) as Hva.
  destruct (decide (r' = r ∧ n ≤ i < j)) as [[-> Hin]|Hout]; [by apply (Honce i)|].
  rewrite Hm in Ha by (destruct (decide (r' = r)); naive_solver).
  rewrite Hcnt by exact (mapped_notin _ _ _ _ _ _ _ Hv Ho Ha).
  destruct (decide (r' = r)) as [->|Hne].
  - rewrite lookup_insert_eq in Hr'. injection Hr' as <-. apply (Hp r t i a Ht Hi Ha).
    rewrite <-Hpte; [done|done|]. rewrite vpn_div. naive_solver.
  - rewrite (grown_pte_other _ _ _ _ _ _ _ _ _ _ _ _ _ _ _ Hg Hv Hr' Hne) in HW.
    rewrite lookup_insert_ne in Hr' by done. by apply (Hp r' u i a).
Qed.

Lemma added_byte s l sp maps own r t perm n j s' l' t' maps' own' va :
  world s l sp maps own → sp !! r = Some t → perm_ok perm → flag_set perm PTE_U = true →
  added s l sp maps own r t perm n j s' l' t' maps' own' → uaddr va →
  user_byte s' t' va = if decide (n ≤ va / PGSIZE < j) then Some 0 else user_byte s t va.
Proof.
  intros [Hv Ho Hp] Ht Hperm HU [Hg Hm Hnew Hpte _ _] Hu. destruct (uaddr_vpn va Hu) as [Hn Hva].
  destruct (decide (n ≤ va / PGSIZE < j)) as [Hin|Hout].
  - destruct (Hnew _ Hin) as (a & Ha & _ & Hz & Hp').
    rewrite <-(pte_of_page _ _ _ va eq_refl) in Hp'.
    unfold user_byte. rewrite (leaf_pte_user_pa _ _ _ a perm); [|..|done]; [|  |done|done].
    + simpl. f_equal. apply Hz, page_addr.
    + exact (vi_valid _ _ _ _ _ (gr_vinv _ _ _ _ _ _ _ _ _ _ _ Hg) _ _ Ha).
  - eapply grown_self_byte; try done. unfold user_pa. by rewrite Hpte.
Qed.

(** [vmfault] keeps the world in order and only adds zeroed memory. *)
Lemma vmfault_world s l sp maps own r t p_sz va :
  world s l sp maps own → sp !! r = Some t → uaddr va →
  ∃ c s' l' t' maps' own', vmfault p_sz r r va s = Ok (c, s') ∧
    world s' l' (<[r := t']> sp) maps' own' ∧ seen p_sz s sp r t s' t' ∧
    (c = 0 ∨ valid_page c ∧ user_pa (kmem s') t' va = Some (c + va mod PGSIZE) ∧
             user_writable (kmem s') t' va = true).
Proof.
  intros Hw Ht Hu. destruct (uaddr_vpn va Hu) as [Hn Hva].
  destruct (vmfault_space s l sp maps own r t p_sz va)
    as (c & s' & l' & t' & maps' & own' & Hrun & Hcase); [apply Hw|apply Hw|done|done|].
  exists c, s', l', t', maps', own'. split; [done|].
  destruct Hcase as [(-> & Hna & ->)|(Hlt & Hcv & Hnone & Hc & Ha)].
  - destruct (not_added_world s l sp maps own r t p_sz s' l' t' own') as [? ?]; try done.
    split; [done|]. split; [done|]. by left.
  - pose proof Hw as [Hv Ho Hp]. pose proof Ha as [Hg Hm Hnew Hpte _ _].
    split; [|split].
    + split; [apply Hg|apply Hg|by eapply added_private].
    + split.
      * intros r' u va' Hr' Hne Hu'. by eapply grown_other_byte.
      * intros va' Hu'.
        assert (perm_ok lazy_perm) as Hperm by (by compute).
        pose proof (added_byte _ _ _ _ _ _ _ _ _ _ _ _ _ _ _ va' Hw Ht Hperm eq_refl Ha Hu') as Hb.
        destruct (decide _) as [Hin|]; [right|by left].
        assert (va' / PGSIZE = va / PGSIZE) as E by lia.
        split; [|split].
        -- eapply unmapped_byte; [exact Hv|exact Ht|done|]. by rewrite E.
        -- done.
        -- rewrite E. pose proof (Z.mul_div_le va PGSIZE ltac:(done)). lia.
    + right. split; [done|]. destruct (Hnew (va / PGSIZE) ltac:(lia)) as (a & Ha' & _ & _ & Hp').
      assert (a = c) as -> by congruence. rewrite <-(pte_of_page _ _ _ va eq_refl) in Hp'.
      split; [by eapply (leaf_pte_user_pa _ _ _ c lazy_perm)|].
      unfold user_writable. rewrite Hp'.
      change PTE_V with (2 ^ 0). change PTE_U with (2 ^ 4). change PTE_W with (2 ^ 2).
      by rewrite !(leaf_pte_flag c lazy_perm) by (done || lia).
Qed.

Lemma seen_refl p_sz s sp r t : seen p_sz s sp r t s t.
Proof. split; [done|by left]. Qed.

Lemma seen_trans p_sz s sp r t s1 t1 s2 t2 :
  seen p_sz s sp r t s1 t1 → seen p_sz s1 (<[r := t1]> sp) r t1 s2 t2 →
  seen p_sz s sp r t s2 t2.
Proof.
  intros [A1 A2] [B1 B2]. split.
  - intros r' u va Hr' Hne Hu. rewrite (B1 r' u); [by apply (A1 r' u)| |done|done].
    by rewrite lookup_insert_ne.
  - intros va Hu. destruct (B2 va Hu) as [E2|(E2 & E2' & Hlt)].
    + destruct (A2 va Hu) as [E1|(E1 & E1' & Hlt)]; [left; congruence|right].
      split; [done|]. split; [congruence|done].
    + destruct (A2 va Hu) as [E1|(E1 & E1' & _)]; [right|congruence].
      split; [congruence|done].
Qed.

(** ** Breaking the sharing *)
Lemma cowalloc_world s l sp maps own r t p_sz va :
  world s l sp maps own → sp !! r = Some t → uaddr va →
  is_cow (pte_of (kmem s) t va) = true →
  ∃ c s' l' maps', cowalloc r va s = Ok (c, s') ∧
    world s' l' sp maps' own ∧ seen p_sz s sp r t s' t ∧
    (c = -1 ∨ c = 0 ∧ user_writable (kmem s') t va = true).
Proof.
  intros [Hv Ho Hp] Ht Hu Hcow. destruct (uaddr_vpn va Hu) as [Hn Hva].
  destruct l as [|mem l].
  - exists (-1), s, [], maps. rewrite (cowalloc_noop s [] sp maps own r t va Hv Ht Hva (or_intror eq_refl)).
    unfold is_cow in Hcow. rewrite !andb_true_iff, negb_true_iff in Hcow.
    destruct Hcow as [[_ ->] _]. rewrite andb_false_r. split; [done|]. split; [done|].
    split; [apply seen_refl|by left].
  - destruct (cowalloc_run s mem l sp maps own r t va Hv Ho Ht Hn Hcow)
      as (pa & s' & l' & Hpa & Hrun & Hc).
    rewrite (pte_of_page _ _ _ va eq_refl) in Hcow.
    exists 0, s', l', (<[(r, va / PGSIZE) := mem]> maps). split; [done|]. split.
    { split; [apply Hc|done|by eapply cow_fault_private]. }
    split.
    + pose proof (cow_fault_byte _ _ _ _ _ _ _ _ _ _ _ _ Hv Ho Ht Hn Hpa Hcow Hc) as Hb.
      split; [intros r' u va' Hr' _ Hu'; by apply (Hb r')|].
      intros va' Hu'. left. by apply (Hb r).
    + right. split; [done|].
      by apply (cow_fault_pa _ _ _ _ _ _ _ _ _ _ _ _ Hv Ht Hn Hpa Hcow Hc va).
Qed.

(** ** The write *)
Definition hit (dstva : Z) (data : list Z) (va : Z) : option Z :=
  if decide (dstva ≤ va) then data !! Z.to_nat (va - dstva) else None.

Record wrote (p_sz : Z) (s : kst) (sp : gmap Z ptree) (r : Z) (t : ptree) (dstva : Z)
    (data : list Z) (s' : kst) (t' : ptree) : Prop := {
  wr_other : ∀ r' u va, sp !! r' = Some u → r' ≠ r → uaddr va →
    user_byte s' u va = user_byte s u va;
  wr_self : ∀ va, uaddr va →
    match hit dstva data va with
    | Some v => user_byte s' t' va = Some (u8 v)
    | None => user_byte s' t' va = user_byte s t va ∨ lazy_zero p_sz s t s' t' va
    end;
}.

Lemma seen_wrote p_sz s sp r t s' t' dstva : seen p_sz s sp r t s' t' → wrote p_sz s sp r t dstva [] s' t'.
Proof.
  intros [A1 A2]. split; [done|]. intros va Hu. unfold hit.
  destruct (decide _); [rewrite lookup_nil|]; by apply A2.
Qed.

Lemma wrote_seen p_sz s sp r t dstva data s1 t1 s2 t2 :
  seen p_sz s sp r t s1 t1 → wrote p_sz s1 (<[r := t1]> sp) r t1 dstva data s2 t2 →
  wrote p_sz s sp r t dstva data s2 t2.
Proof.
  intros [A1 A2] [B1 B2]. split.
  - intros r' u va Hr' Hne Hu. rewrite (B1 r' u); [by apply (A1 r' u)| |done|done].
    by rewrite lookup_insert_ne.
  - intros va Hu. specialize (B2 va Hu). destruct (hit dstva data va); [done|].
    destruct B2 as [E2|(E2 & E2' & Hlt)].
    + destruct (A2 va Hu) as [E1|(E1 & E1' & Hlt)]; [left; congruence|right].
      split; [done|]. split; [congruence|done].
    + destruct (A2 va Hu) as [E1|(E1 & E1' & _)]; [right|congruence].
      split; [congruence|done].
Qed.

Lemma hit_app dstva d1 d2 va :
  hit dstva (d1 ++ d2) va =
    match hit dstva d1 va with
    | Some v => Some v
    | None => hit (dstva + Z.of_nat (length d1)) d2 va
    end.
Proof.
  unfold hit. destruct (decide (dstva ≤ va)); [|by rewrite decide_False by lia].
  rewrite lookup_app. destruct (d1 !! Z.to_nat (va - dstva)) eqn:E; [done|].
  apply lookup_ge_None in E. rewrite decide_True by lia. f_equal. lia.
Qed.

Lemma hit_disjoint dstva d1 d2 va v :
  hit dstva d1 va = Some v → hit (dstva + Z.of_nat (length d1)) d2 va = None.
Proof.
  unfold hit. destruct (decide (dstva ≤ va)); [|done]. intros E%lookup_lt_Some.
  by rewrite decide_False by lia.
Qed.

Lemma wrote_trans p_sz s sp r t dstva d1 d2 s1 t1 s2 t2 :
  wrote p_sz s sp r t dstva d1 s1 t1 →
  wrote p_sz s1 (<[r := t1]> sp) r t1 (dstva + Z.of_nat (length d1)) d2 s2 t2 →
  wrote p_sz s sp r t dstva (d1 ++ d2) s2 t2.
Proof.
  intros [A1 A2] [B1 B2]. split.
  - intros r' u va Hr' Hne Hu. rewrite (B1 r' u); [by apply (A1 r' u)| |done|done].
    by rewrite lookup_insert_ne.
  - intros va Hu. specialize (A2 va Hu). specialize (B2 va Hu). rewrite hit_app.
    destruct (hit dstva d1 va) as [v|] eqn:E1.
    + rewrite (hit_disjoint _ _ _ _ _ E1) in B2. destruct B2 as [B2|(B2 & _)]; congruence.
    + destruct (hit _ d2 va); [done|]. destruct B2 as [E2|(E2 & E2' & Hlt)].
      * destruct A2 as [A2|(? & ? & ?)]; [left; congruence|right].
        split; [done|]. split; [congruence|done].
      * destruct A2 as [A2|(? & ? & ?)]; [right|congruence]. split; [congruence|done].
Qed.

Lemma stbytes_same_page m p off data q :
  p mod PGSIZE = 0 → q mod PGSIZE = 0 → q ≠ p →
  0 ≤ off → off + Z.of_nat (length data) ≤ PGSIZE →
  same_page (stbytes m (p + off) data) m q.
Proof.
  intros Hp Hq Hne Ho Hlen a Ha. apply ld8_stbytes_ne. intros Ha'. apply Hne.
  apply (aligned_disjoint q p a); try done. unfold in_page. lia.
Qed.

Lemma user_pa_pte_eq m m' t va : pte_of m' t va = pte_of m t va → user_pa m' t va = user_pa m t va.
Proof. intros E. unfold user_pa. by rewrite E. Qed.

Lemma user_write s l sp maps own r t p_sz va data :
  world s l sp maps own → sp !! r = Some t → uaddr va →
  user_writable (kmem s) t va = true → va mod PGSIZE + Z.of_nat (length data) ≤ PGSIZE →
  let s' := set_mem (stbytes (kmem s) (PTE2PA (pte_of (kmem s) t va) + va mod PGSIZE) data) s in
  world s' l sp maps own ∧ wrote p_sz s sp r t va data s' t.
Proof.
  intros [Hv Ho Hp] Ht Hu Hw Hlen. destruct (uaddr_vpn va Hu) as [Hn Hva].
  unfold user_writable in Hw. rewrite !andb_true_iff in Hw. destruct Hw as [[HV HU] HW].
  destruct (user_pa_page s l sp maps own r t va (PTE2PA (pte_of (kmem s) t va) + va mod PGSIZE))
    as (p & Hpm & Hpe & _ & Hpv & Hnt & Hnl); try done.
  { unfold user_pa. by rewrite HV, HU. }
  rewrite <-Hpe. intros s'.
  pose proof (Z.mod_pos_bound va PGSIZE ltac:(done)) as Hoff.
  assert (∀ q, q mod PGSIZE = 0 → q ≠ p → same_page (kmem s') (kmem s) q) as Hsame.
  { intros q Hq Hne. apply stbytes_same_page; [apply Hpv|done|done|lia|done]. }
  assert (∀ r' u va', sp !! r' = Some u → pte_of (kmem s') u va' = pte_of (kmem s) u va') as Hpte.
  { intros r' u va' Hr'. apply pte_of_frame. intros q Hq. apply Hsame.
    - eapply pt_page_aligned; [exact (vi_rep _ _ _ _ _ Hv _ _ Hr')|done].
    - intros ->. apply Hnt. by exists r', u. }
  assert (cnt maps p = 1) as Hc1.
  { apply (Hp r t (va / PGSIZE)); try done. by rewrite <-(pte_of_page _ _ _ va eq_refl). }
  assert (∀ r' u va', sp !! r' = Some u → uaddr va' → (r', va' / PGSIZE) ≠ (r, va / PGSIZE) →
    user_byte s' u va' = user_byte s u va') as Hother.
  { intros r' u va' Hr' Hu' Hne. eapply user_byte_frame; [exact Hv|done|exact Hr'|done| |].
    - by apply user_pa_pte_eq, (Hpte r').
    - intros p' Hp' _ _. apply Hsame; [apply (vi_valid _ _ _ _ _ Hv _ _ Hp')|].
      intros ->. apply Hne. by eapply (cnt_unique maps). }
  split; [split; [|done|]|split].
  - apply vinv_write; [done|]. intros q Hq Hcase. apply Hsame; [done|].
    intros ->. by destruct Hcase.
  - intros r' u n a Hr' Hn' Ha HW'. rewrite (Hpte r') in HW' by done. by apply (Hp r' u n a).
  - intros r' u va' Hr' Hne Hu'. apply (Hother r'); [done|done|congruence].
  - intros va' Hu'. destruct (decide (va' / PGSIZE = va / PGSIZE)) as [E|E]; cycle 1.
    { assert (hit va data va' = None) as ->.
      - unfold hit. destruct (decide _) as [Hle|]; [|done]. apply lookup_ge_None_2.
        pose proof (Z.div_mod va PGSIZE ltac:(done)). pose proof (Z.div_mod va' PGSIZE ltac:(done)).
        pose proof (Z.mod_pos_bound va' PGSIZE ltac:(done)).
        assert (va / PGSIZE ≤ va' / PGSIZE) by (apply Z.div_le_mono; done).
        unfold PGSIZE in *. lia.
      - left. apply (Hother r); [done|done|congruence]. }
    assert (va' mod PGSIZE = va mod PGSIZE + (va' - va)) as Emod.
    { pose proof (Z.div_mod va PGSIZE ltac:(done)). pose proof (Z.div_mod va' PGSIZE ltac:(done)). lia. }
    pose proof (Z.mod_pos_bound va' PGSIZE ltac:(done)) as Hoff'.
    assert (user_pa (kmem s) t va' = Some (p + va' mod PGSIZE)) as Hpa.
    { unfold user_pa. rewrite (pte_of_page _ _ _ va' E), <-(pte_of_page _ _ _ va eq_refl).
      by rewrite HV, HU, <-Hpe. }
    unfold user_byte. rewrite (user_pa_pte_eq (kmem s) (kmem s')) by (by apply (Hpte r)).
    rewrite Hpa. simpl. unfold hit. destruct (decide (va ≤ va')) as [Hle|Hgt].
    + destruct (data !! Z.to_nat (va' - va)) as [v|] eqn:Ed.
      * f_equal. rewrite <-(ld8_stbytes_eq (kmem s) (p + va mod PGSIZE) data _ v Ed). f_equal. lia.
      * left. f_equal. apply ld8_stbytes_ne. apply lookup_ge_None in Ed. lia.
    + left. f_equal. apply ld8_stbytes_ne. lia.
Qed.

(** ** copyout *)
Lemma uaddr_page va : uaddr va → uaddr (va / PGSIZE * PGSIZE).
Proof.
  unfold uaddr. intros Hva. pose proof (Z.mul_div_le va PGSIZE ltac:(done)).
  pose proof (Z.div_pos va PGSIZE). unfold PGSIZE in *. lia.
Qed.

(** The page is user-accessible, possibly after a fault. *)
Lemma fault_in s l sp maps own r t p_sz va :
  world s l sp maps own → sp !! r = Some t → uaddr va →
  ∃ c s' l' t' maps' own',
    (pa0 ← walkaddr r va; if pa0 =? 0 then vmfault p_sz r r va else mret pa0) s = Ok (c, s') ∧
    world s' l' (<[r := t']> sp) maps' own' ∧ seen p_sz s sp r t s' t' ∧
    (c = 0 ∨ c ≠ 0 ∧ user_pa (kmem s') t' va = Some (c + va mod PGSIZE)).
Proof.
  intros Hw Ht Hu. pose proof Hw as [Hv Ho Hp]. destruct (uaddr_vpn va Hu) as [Hn Hva].
  rewrite (bind_Ok_1 _ _ _ _ _ (walkaddr_space s l sp maps own r t va Hv Ht (proj2 Hva))).
  assert (∀ c, valid_page c → c ≠ 0) as Hnz.
  { intros c Hc%valid_page_pos. unfold KERNBASE in *. lia. }
  destruct (flag_set (pte_of (kmem s) t va) PTE_V && flag_set (pte_of (kmem s) t va) PTE_U) eqn:E.
  - assert (user_pa (kmem s) t va = Some (PTE2PA (pte_of (kmem s) t va) + va mod PGSIZE)) as Hpa
      by (unfold user_pa; by rewrite E).
    destruct (user_pa_page _ _ _ _ _ _ _ _ _ Hv Ho Ht Hu Hpa) as (p & _ & Hpe & _ & Hpv & _).
    rewrite <-Hpe in *. rewrite (proj2 (Z.eqb_neq p 0) (Hnz p Hpv)).
    exists p, s, l, t, maps, own. rewrite insert_id by done. split; [done|]. split; [done|].
    split; [apply seen_refl|]. right. split; [by apply Hnz|done].
  - rewrite Z.eqb_refl.
    destruct (vmfault_world s l sp maps own r t p_sz va Hw Ht Hu)
      as (c & s' & l' & t' & maps' & own' & Hrun & Hw' & Hs & Hcase).
    exists c, s', l', t', maps', own'. split; [done|]. split; [done|]. split; [done|].
    destruct Hcase as [?|(? & ? & _)]; [by left|]. right. split; [by apply Hnz|done].
Qed.

(** What the page table entry says about a user-accessible address. *)
Lemma user_pa_flags m t va a : user_pa m t va = Some a →
  flag_set (pte_of m t va) PTE_V = true ∧ flag_set (pte_of m t va) PTE_U = true ∧
  a = PTE2PA (pte_of m t va) + va mod PGSIZE.
Proof.
  unfold user_pa. destruct (flag_set _ PTE_V), (flag_set _ PTE_U); naive_solver.
Qed.

Lemma page_mod va : (va / PGSIZE * PGSIZE) mod PGSIZE = 0.
Proof. by apply Z.mod_mul. Qed.

(** The check of write permission, with copy-on-write. *)
Definition make_writable (pagetable va0 v : Z) : M kst Z :=
  if negb (flag_set v PTE_W) then
    if flag_set v PTE_COW then cowalloc pagetable va0 else mret (-1)
  else mret 0.

Lemma make_writable_world s l sp maps own r t p_sz va :
  world s l sp maps own → sp !! r = Some t → uaddr va →
  is_Some (user_pa (kmem s) t va) →
  ∃ c s' l' maps', make_writable r va (pte_of (kmem s) t va) s = Ok (c, s') ∧
    world s' l' sp maps' own ∧ seen p_sz s sp r t s' t ∧
    (c = -1 ∨ c = 0 ∧ user_writable (kmem s') t va = true).
Proof.
  intros Hw Ht Hu [a (HV & HU & _)%user_pa_flags]. unfold make_writable.
  destruct (flag_set (pte_of (kmem s) t va) PTE_W) eqn:HW; cbn [negb].
  - exists 0, s, l, maps. split; [done|]. split; [done|]. split; [apply seen_refl|].
    right. split; [done|]. unfold user_writable. by rewrite HV, HU, HW.
  - destruct (flag_set (pte_of (kmem s) t va) PTE_COW) eqn:HC.
    + eapply cowalloc_world; try done. unfold is_cow. by rewrite HV, HU, HW, HC.
    + exists (-1), s, l, maps. split; [done|]. split; [done|]. split; [apply seen_refl|by left].
Qed.

Lemma copyout_body_eq p_sz r dstva src s :
  copyout_body p_sz r r (dstva, src) s =
    (if 0 <? Z.of_nat (length src) then
      let va0 := PGROUNDDOWN dstva in
      if MAXVA <=? va0 then mret (inr (-1))
      else
        pa0 ← (pa0 ← walkaddr r va0; if pa0 =? 0 then vmfault p_sz r r va0 else mret pa0);
        if pa0 =? 0 then mret (inr (-1))
        else
          pte ← walk r va0 false;
          if pte =? 0 then ub
          else
            v ← load64 pte;
            c ← make_writable r va0 v;
            if c <? 0 then mret (inr (-1))
            else
              pa0 ← walkaddr r va0;
              if pa0 =? 0 then mret (inr (-1))
              else
                let n := Z.min (PGSIZE - (dstva - va0)) (Z.of_nat (length src)) in
                modify (λ s, set_mem (stbytes (kmem s) (pa0 + (dstva - va0))
                                              (take (Z.to_nat n) src)) s) ;;
                mret (inl (u64 (va0 + PGSIZE), drop (Z.to_nat n) src))
    else mret (inr 0)) s.
Proof.
  unfold copyout_body. destruct (0 <? _); [|done]. cbv zeta.
  destruct (MAXVA <=? _); [done|]. by rewrite bind_assoc.
Qed.

Lemma copyout_step s l sp maps own r t p_sz dstva src :
  world s l sp maps own → sp !! r = Some t → uaddr dstva → src ≠ [] →
  let n := Z.to_nat (Z.min (PGSIZE - dstva mod PGSIZE) (Z.of_nat (length src))) in
  ∃ s' l' t' maps' own', world s' l' (<[r := t']> sp) maps' own' ∧
    ((copyout_body p_sz r r (dstva, src) s = Ok (inr (-1), s') ∧ seen p_sz s sp r t s' t') ∨
     (copyout_body p_sz r r (dstva, src) s =
        Ok (inl ((dstva / PGSIZE + 1) * PGSIZE, drop n src), s') ∧
      wrote p_sz s sp r t dstva (take n src) s' t')).
Proof.
  intros Hw Ht Hu Hsrc n. destruct (uaddr_vpn dstva Hu) as [Hn Hva].
  assert (length src ≠ 0%nat) as Hlen by (by destruct src).
  pose proof (Z.mod_pos_bound dstva PGSIZE ltac:(done)) as Hoff.
  assert (dstva - dstva / PGSIZE * PGSIZE = dstva mod PGSIZE) as Hmod
    by (pose proof (Z.div_mod dstva PGSIZE ltac:(done)); lia).
  pose proof (uaddr_page dstva Hu) as Hu0. set (va0 := dstva / PGSIZE * PGSIZE) in *.
  destruct (uaddr_vpn va0 Hu0) as [Hn0 Hva0].
  rewrite copyout_body_eq. destruct (Z.ltb_spec 0 (Z.of_nat (length src))); [|lia]. cbv zeta.
  rewrite PGROUNDDOWN_vpn by lia. fold va0. destruct (Z.leb_spec MAXVA va0); [lia|].
  rewrite Hmod. fold n.
  assert (u64 (va0 + PGSIZE) = (dstva / PGSIZE + 1) * PGSIZE) as ->.
  { rewrite MAXVA_val in Hva0. subst va0. rewrite u64_small; unfold PGSIZE in *; lia. }
  (* the page is there *)
  destruct (fault_in s l sp maps own r t p_sz va0 Hw Ht Hu0)
    as (pa0 & s1 & l1 & t1 & maps1 & own1 & Hrun1 & Hw1 & Hs1 & Hcase1).
  rewrite (bind_Ok_1 _ _ _ _ _ Hrun1).
  destruct Hcase1 as [->|(Hpa0 & Hpa1)].
  { exists s1, l1, t1, maps1, own1. split; [done|]. by left. }
  rewrite (proj2 (Z.eqb_neq pa0 0) Hpa0).
  assert (<[r := t1]> sp !! r = Some t1) as Ht1 by apply lookup_insert_eq.
  destruct (user_pa_flags _ _ _ _ Hpa1) as (HV1 & HU1 & _).
  rewrite (bind_Ok_1 _ _ _ _ _ (walk_space s1 l1 _ maps1 own1 r t1 va0 (w_vinv _ _ _ _ _ Hw1) Ht1
    (proj2 Hva0))).
  destruct (pt_slot t1 va0) as [slot|] eqn:Es; cycle 1.
  { rewrite (pte_of_None _ _ _ Es), flag_set_0 in HV1. done. }
  change (default 0 (Some slot)) with slot.
  rewrite (slot_eqb_0 s1 l1 _ maps1 own1 r t1 va0 slot (w_vinv _ _ _ _ _ Hw1) Ht1 Es).
  unfold load64. rewrite (bind_Ok_1 _ _ s1 (ld64 (kmem s1) slot) s1 eq_refl).
  rewrite <-(pte_of_slot _ _ _ _ Es).
  (* and writable *)
  destruct (make_writable_world s1 l1 _ maps1 own1 r t1 p_sz va0 Hw1 Ht1 Hu0 (mk_is_Some _ _ Hpa1))
    as (c & s2 & l2 & maps2 & Hrun2 & Hw2 & Hs2 & Hcase2).
  rewrite (bind_Ok_1 _ _ _ _ _ Hrun2).
  assert (seen p_sz s sp r t s2 t1) as Hs12 by (by eapply seen_trans).
  destruct Hcase2 as [->|(-> & HW2)].
  { exists s2, l2, t1, maps2, own1. split; [done|]. by left. }
  change (0 <? 0) with false. cbv iota.
  rewrite (bind_Ok_1 _ _ _ _ _ (walkaddr_space s2 l2 _ maps2 own1 r t1 va0 (w_vinv _ _ _ _ _ Hw2) Ht1
    (proj2 Hva0))).
  pose proof HW2 as HW2'. unfold user_writable in HW2. rewrite !andb_true_iff in HW2.
  destruct HW2 as [[HV2 HU2] HW2]. rewrite HV2, HU2. cbn [andb].
  destruct (user_pa_page s2 l2 (<[r := t1]> sp) maps2 own1 r t1 va0 (PTE2PA (pte_of (kmem s2) t1 va0) + va0 mod PGSIZE))
    as (p & _ & Hpe & _ & Hpv & _); [apply Hw2|apply Hw2|done|done| |].
  { unfold user_pa. by rewrite HV2, HU2. }
  assert (p ≠ 0) as Hp0 by (pose proof (valid_page_pos _ Hpv); unfold KERNBASE in *; lia).
  rewrite <-Hpe, (proj2 (Z.eqb_neq p 0) Hp0). msimpl.
  destruct (user_write s2 l2 _ maps2 own1 r t1 p_sz dstva (take n src) Hw2 Ht1 Hu) as [Hw3 Hwr].
  { unfold user_writable in *. rewrite (pte_of_page _ _ _ dstva eq_refl). done. }
  { rewrite length_take. lia. }
  rewrite (pte_of_page _ _ _ dstva eq_refl) in Hw3, Hwr. fold va0 in Hw3, Hwr.
  rewrite <-Hpe in Hw3, Hwr.
  eexists _, l2, t1, maps2, own1. split; [exact Hw3|]. right. split; [done|].
  eapply wrote_seen; [exact Hs12|]. exact Hwr.
Qed.

Lemma npages_0 : npages 0 = 0.
Proof. reflexivity. Qed.

(** Pages touched by the rest of a transfer. *)
Lemma npages_next va len : 0 ≤ va → 0 < len →
  let n := Z.min (PGSIZE - va mod PGSIZE) len in
  0 < n ≤ len ∧ va + n ≤ (va / PGSIZE + 1) * PGSIZE ∧
  (n < len → va + n = (va / PGSIZE + 1) * PGSIZE) ∧
  npages (((va / PGSIZE + 1) * PGSIZE) mod PGSIZE + (len - n)) + 1 ≤ npages (va mod PGSIZE + len).
Proof.
  intros Hva Hlen n. pose proof (Z.mod_pos_bound va PGSIZE ltac:(done)) as Hm.
  pose proof (Z.div_mod va PGSIZE ltac:(done)) as Hd.
  split; [lia|]. split; [unfold PGSIZE in *; lia|]. split; [unfold PGSIZE in *; lia|].
  rewrite Z.mod_mul by done. rewrite Z.add_0_l. unfold npages.
  destruct (decide (n = len)) as [->|Hne].
  - rewrite Z.sub_diag. change ((0 + PGSIZE - 1) / PGSIZE) with 0.
    apply Z.div_le_lower_bound; [done|]. unfold PGSIZE in *. lia.
  - replace (va mod PGSIZE + len + PGSIZE - 1) with (len - n + PGSIZE - 1 + 1 * PGSIZE)
      by (unfold PGSIZE in *; lia).
    rewrite Z.div_add by done. lia.
Qed.

Lemma npages_mono a b : a ≤ b → npages a ≤ npages b.
Proof. intros. unfold npages. apply Z.div_le_mono; [done|lia]. Qed.

Lemma copy_fuel_enough va len : 0 ≤ va → 0 ≤ len →
  npages (va mod PGSIZE + len) < Z.of_nat (copy_fuel len).
Proof.
  intros Hva Hlen. unfold copy_fuel. pose proof (Z.mod_pos_bound va PGSIZE ltac:(done)) as Hm.
  pose proof (Z.div_pos len PGSIZE ltac:(lia) ltac:(done)).
  rewrite !Nat2Z.inj_succ, Z2Nat.id by lia.
  assert (npages (va mod PGSIZE + len) ≤ len / PGSIZE + 2); [|lia].
  unfold npages. apply Z.lt_succ_r, Z.div_lt_upper_bound; [done|].
  pose proof (Z.div_mod len PGSIZE ltac:(done)).
  pose proof (Z.mod_pos_bound len PGSIZE ltac:(done)). unfold PGSIZE in *. lia.
Qed.

Lemma copyout_loop k : ∀ fuel s l sp maps own r t p_sz dstva src,
  npages (dstva mod PGSIZE + Z.of_nat (length src)) ≤ Z.of_nat k → (k < fuel)%nat →
  world s l sp maps own → sp !! r = Some t →
  0 ≤ dstva → dstva + Z.of_nat (length src) ≤ TRAPFRAME →
  ∃ c s' l' t' maps' own' j,
    loop fuel (copyout_body p_sz r r) (dstva, src) s = Ok (c, s') ∧
    world s' l' (<[r := t']> sp) maps' own' ∧
    wrote p_sz s sp r t dstva (take j src) s' t' ∧
    (c = 0 ∧ j = length src ∨ c = -1 ∧ (j < length src)%nat).
Proof.
  induction k as [|k IH]; intros fuel s l sp maps own r t p_sz dstva src Hk Hfuel Hw Ht Hd Hend;
    (destruct fuel as [|fuel]; [lia|]); cbn [loop];
    (destruct (decide (src = [])) as [->|Hne];
     [exists 0, s, l, t, maps, own, 0%nat; rewrite insert_id by done; split; [done|];
      split; [done|]; split; [apply seen_wrote, seen_refl|by left]|]).
  - exfalso. assert (length src ≠ 0%nat) by (by destruct src).
    pose proof (npages_next dstva (Z.of_nat (length src)) ltac:(done) ltac:(lia)) as (Hn & _ & _ & Hle).
    pose proof (npages_mono 0 (((dstva / PGSIZE + 1) * PGSIZE) mod PGSIZE +
      (Z.of_nat (length src) - Z.min (PGSIZE - dstva mod PGSIZE) (Z.of_nat (length src))))) as Hm.
    rewrite npages_0, Z.mod_mul in * by done. lia.
  - assert (length src ≠ 0%nat) by (by destruct src).
    destruct (npages_next dstva (Z.of_nat (length src)) ltac:(done) ltac:(lia))
      as (Hn & Hle & Hnext & Hpg).
    set (n := Z.min (PGSIZE - dstva mod PGSIZE) (Z.of_nat (length src))) in *.
    assert (uaddr dstva) as Hu by (unfold uaddr; lia).
    destruct (copyout_step s l sp maps own r t p_sz dstva src Hw Ht Hu Hne)
      as (s1 & l1 & t1 & maps1 & own1 & Hw1 & [(Hrun1 & Hs1)|(Hrun1 & Hwr1)]).
    { exists (-1), s1, l1, t1, maps1, own1, 0%nat. rewrite (bind_Ok_1 _ _ _ _ _ Hrun1).
      split; [done|]. split; [done|]. split; [by apply seen_wrote|right; split; [done|lia]]. }
    fold n in Hrun1, Hwr1. rewrite (bind_Ok_1 _ _ _ _ _ Hrun1).
    destruct (IH fuel s1 l1 (<[r := t1]> sp) maps1 own1 r t1 p_sz ((dstva / PGSIZE + 1) * PGSIZE)
      (drop (Z.to_nat n) src)) as (c & s2 & l2 & t2 & maps2 & own2 & j & Hrun2 & Hw2 & Hwr2 & Hc).
    { rewrite length_drop, Nat2Z.inj_sub, Z2Nat.id by lia. lia. }
    { lia. }
    { done. }
    { apply lookup_insert_eq. }
    { unfold PGSIZE in *. lia. }
    { rewrite length_drop. destruct (decide (n = Z.of_nat (length src))).
      - pose proof (uaddr_vpn dstva Hu) as [[_ Hvpn] _]. rewrite UVPN_val in Hvpn.
        change TRAPFRAME with (67108862 * PGSIZE). unfold PGSIZE in *. lia.
      - rewrite Nat2Z.inj_sub, Z2Nat.id by lia. lia. }
    exists c, s2, l2, t2, maps2, own2, (Z.to_nat n + j)%nat.
    rewrite insert_insert_eq in Hw2. split; [done|]. split; [done|]. split.
    + rewrite <-take_take_drop. eapply wrote_trans; [exact Hwr1|].
      destruct (decide (n = Z.of_nat (length src))) as [E|E].
      * rewrite drop_ge in Hwr2 |- * by lia. rewrite take_nil in *.
        split; [apply Hwr2|]. intros va Hu'. pose proof (wr_self _ _ _ _ _ _ _ _ _ Hwr2 va Hu') as Hself.
        unfold hit in *. rewrite lookup_nil in *. by repeat case_decide.
      * rewrite length_take, Nat.min_l by lia. rewrite Z2Nat.id by lia. by rewrite Hnext by lia.
    + rewrite length_drop in Hc. destruct Hc as [[-> ->]|[-> Hj]]; [left|right]; split; try done; lia.
Qed.

(** ** copyin *)

(** The bytes user code would read from [va] on. *)
Definition reads (s : kst) (t : ptree) (va : Z) (data : list Z) : Prop :=
  ∀ i v, data !! i = Some v → user_byte s t (va + Z.of_nat i) = Some v.

Lemma reads_seen p_sz s sp r t s' t' va data :
  seen p_sz s sp r t s' t' → 0 ≤ va → va + Z.of_nat (length data) ≤ TRAPFRAME →
  reads s t va data → reads s' t' va data.
Proof.
  intros [_ Hs] Hva Hend Hr i v Hi. specialize (Hr i v Hi). apply lookup_lt_Some in Hi.
  destruct (Hs (va + Z.of_nat i)) as [->|(E & _)]; [unfold uaddr; lia|done|congruence].
Qed.

Lemma reads_app s t va d1 d2 :
  reads s t va d1 → reads s t (va + Z.of_nat (length d1)) d2 → reads s t va (d1 ++ d2).
Proof.
  intros H1 H2 i v. rewrite lookup_app. destruct (d1 !! i) eqn:E.
  - intros [= <-]. by apply H1.
  - intros Hi. apply lookup_ge_None in E. rewrite <-(H2 _ _ Hi). f_equal. lia.
Qed.

Lemma reads_page m t va a n : user_pa m t va = Some a →
  va mod PGSIZE + Z.of_nat n ≤ PGSIZE → 0 ≤ va →
  ∀ i, (i < n)%nat → user_pa m t (va + Z.of_nat i) = Some (a + Z.of_nat i).
Proof.
  intros Hpa Hn Hva i Hi. destruct (user_pa_flags _ _ _ _ Hpa) as (HV & HU & ->).
  pose proof (Z.mod_pos_bound va PGSIZE ltac:(done)). pose proof (Z.div_mod va PGSIZE ltac:(done)).
  assert ((va + Z.of_nat i) / PGSIZE = va / PGSIZE ∧
          (va + Z.of_nat i) mod PGSIZE = va mod PGSIZE + Z.of_nat i) as [Ed Em].
  { replace (va + Z.of_nat i) with (va mod PGSIZE + Z.of_nat i + va / PGSIZE * PGSIZE) by lia.
    rewrite Z.div_add, Z.mod_add by done. rewrite Z.div_small, Z.mod_small by lia.
    split; lia. }
  unfold user_pa in *. rewrite (pte_of_page _ _ _ _ Ed), Em, <-(pte_of_page _ _ _ va eq_refl).
  rewrite HV, HU. cbn [andb]. f_equal. lia.
Qed.

Lemma copyin_step s l sp maps own r t p_sz srcva len dst :
  world s l sp maps own → sp !! r = Some t → uaddr srcva → 0 < len →
  let n := Z.min (PGSIZE - srcva mod PGSIZE) len in
  ∃ s' l' t' maps' own', world s' l' (<[r := t']> sp) maps' own' ∧ seen p_sz s sp r t s' t' ∧
    (copyin_body p_sz r r (srcva, len, dst) s = Ok (inr (-1, dst), s') ∨
     ∃ data, length data = Z.to_nat n ∧ reads s' t' srcva data ∧
       copyin_body p_sz r r (srcva, len, dst) s =
         Ok (inl ((srcva / PGSIZE + 1) * PGSIZE, len - n, dst ++ data), s')).
Proof.
  intros Hw Ht Hu Hlen n. destruct (uaddr_vpn srcva Hu) as [Hn Hva].
  pose proof (Z.mod_pos_bound srcva PGSIZE ltac:(done)) as Hoff.
  assert (srcva - srcva / PGSIZE * PGSIZE = srcva mod PGSIZE) as Hmod
    by (pose proof (Z.div_mod srcva PGSIZE ltac:(done)); lia).
  pose proof (uaddr_page srcva Hu) as Hu0. set (va0 := srcva / PGSIZE * PGSIZE) in *.
  destruct (uaddr_vpn va0 Hu0) as [Hn0 Hva0].
  destruct (fault_in s l sp maps own r t p_sz va0 Hw Ht Hu0)
    as (pa0 & s1 & l1 & t1 & maps1 & own1 & Hrun1 & Hw1 & Hs1 & Hcase1).
  exists s1, l1, t1, maps1, own1. split; [done|]. split; [done|].
  unfold copyin_body. destruct (Z.ltb_spec 0 len); [|lia]. cbv zeta.
  rewrite PGROUNDDOWN_vpn by lia. fold va0. rewrite <-bind_assoc.
  rewrite (bind_Ok_1 _ _ _ _ _ Hrun1).
  destruct Hcase1 as [->|(Hpa0 & Hpa1)]; [by left|right].
  rewrite (proj2 (Z.eqb_neq pa0 0) Hpa0). rewrite Hmod. fold n. msimpl.
  eexists. split; [apply length_ldbytes|]. split; cycle 1.
  { assert (u64 (va0 + PGSIZE) = (srcva / PGSIZE + 1) * PGSIZE) as ->; [|done].
    rewrite MAXVA_val in Hva0. subst va0. rewrite u64_small; unfold PGSIZE in *; lia. }
  assert (user_pa (kmem s1) t1 srcva = Some (pa0 + srcva mod PGSIZE)) as Hpa.
  { destruct (user_pa_flags _ _ _ _ Hpa1) as (HV & HU & E).
    unfold user_pa. rewrite (pte_of_page _ _ _ srcva eq_refl). fold va0. rewrite HV, HU.
    cbn [andb]. f_equal. lia. }
  intros i v Hi. pose proof (lookup_lt_Some _ _ _ Hi) as Hlt. rewrite length_ldbytes in Hlt.
  unfold user_byte. rewrite (reads_page _ _ _ _ (Z.to_nat n) Hpa) by lia. simpl.
  by rewrite lookup_ldbytes in Hi by done.
Qed.

Lemma copyin_loop k : ∀ fuel s l sp maps own r t p_sz srcva len dst,
  npages (srcva mod PGSIZE + len) ≤ Z.of_nat k → (k < fuel)%nat →
  world s l sp maps own → sp !! r = Some t →
  0 ≤ srcva → 0 ≤ len → srcva + len ≤ TRAPFRAME →
  ∃ c s' l' t' maps' own' data,
    loop fuel (copyin_body p_sz r r) (srcva, len, dst) s = Ok ((c, dst ++ data), s') ∧
    world s' l' (<[r := t']> sp) maps' own' ∧ seen p_sz s sp r t s' t' ∧
    reads s' t' srcva data ∧ (c = 0 ∧ Z.of_nat (length data) = len ∨ c = -1).
Proof.
  induction k as [|k IH]; intros fuel s l sp maps own r t p_sz srcva len dst Hk Hfuel Hw Ht Hd Hl Hend;
    (destruct fuel as [|fuel]; [lia|]); cbn [loop];
    (destruct (decide (len = 0)) as [->|Hne];
     [exists 0, s, l, t, maps, own, []; rewrite insert_id, app_nil_r by done; split; [done|];
      split; [done|]; split; [apply seen_refl|]; split; [by intros i v|by left]|]).
  - exfalso. pose proof (npages_next srcva len ltac:(done) ltac:(lia)) as (Hn & _ & _ & Hle).
    pose proof (npages_mono 0 (((srcva / PGSIZE + 1) * PGSIZE) mod PGSIZE +
      (len - Z.min (PGSIZE - srcva mod PGSIZE) len))) as Hm.
    rewrite npages_0, Z.mod_mul in * by done. lia.
  - destruct (npages_next srcva len ltac:(done) ltac:(lia)) as (Hn & Hle & Hnext & Hpg).
    set (n := Z.min (PGSIZE - srcva mod PGSIZE) len) in *.
    assert (uaddr srcva) as Hu by (unfold uaddr; lia).
    destruct (copyin_step s l sp maps own r t p_sz srcva len dst Hw Ht Hu ltac:(lia))
      as (s1 & l1 & t1 & maps1 & own1 & Hw1 & Hs1 & [Hrun1|(d1 & Hd1 & Hr1 & Hrun1)]).
    { exists (-1), s1, l1, t1, maps1, own1, []. rewrite (bind_Ok_1 _ _ _ _ _ Hrun1), app_nil_r.
      split; [done|]. split; [done|]. split; [done|]. split; [by intros i v|by right]. }
    fold n in Hrun1, Hd1. rewrite (bind_Ok_1 _ _ _ _ _ Hrun1).
    destruct (IH fuel s1 l1 (<[r := t1]> sp) maps1 own1 r t1 p_sz ((srcva / PGSIZE + 1) * PGSIZE)
      (len - n) (dst ++ d1)) as (c & s2 & l2 & t2 & maps2 & own2 & d2 & Hrun2 & Hw2 & Hs2 & Hr2 & Hc).
    { lia. }
    { lia. }
    { done. }
    { apply lookup_insert_eq. }
    { unfold PGSIZE in *. lia. }
    { lia. }
    { destruct (decide (n = len)) as [->|].
      - pose proof (uaddr_vpn srcva Hu) as [[_ Hvpn] _]. rewrite UVPN_val in Hvpn.
        change TRAPFRAME with (67108862 * PGSIZE). unfold PGSIZE in *. lia.
      - lia. }
    rewrite insert_insert_eq in Hw2. exists c, s2, l2, t2, maps2, own2, (d1 ++ d2).
    rewrite app_assoc. split; [done|]. split; [done|]. split; [by eapply seen_trans|]. split.
    + assert (reads s2 t2 srcva d1) as Hr12 by (eapply reads_seen; [exact Hs2|lia|lia|done]).
      apply reads_app; [done|]. rewrite Hd1, Z2Nat.id by lia.
      destruct (decide (n = len)) as [E|E]; [|by rewrite Hnext by lia].
      destruct Hc as [[_ Hc]|Hc].
      * assert (d2 = []) as -> by (destruct d2; [done|simpl in *; lia]). by intros i v.
      * (* nothing left to read: the loop cannot fail *)
        exfalso. rewrite E in Hrun2. destruct fuel as [|fuel]; [lia|].
        cbn [loop] in Hrun2. unfold copyin_body at 1 in Hrun2. rewrite Z.sub_diag in Hrun2.
        change (0 <? 0) with false in Hrun2. cbv in Hrun2. subst c. congruence.
    + rewrite length_app. destruct Hc as [[-> Hc]| ->]; [left|by right]. split; [done|lia].
Qed.

(** The transfers with the fuel the code's bounds give. *)
Lemma copyout_world s l sp maps own r t p_sz dstva src :
  world s l sp maps own → sp !! r = Some t →
  0 ≤ dstva → dstva + Z.of_nat (length src) ≤ TRAPFRAME →
  ∃ c s' l' t' maps' own' j,
    copyout p_sz r r dstva src s = Ok (c, s') ∧
    world s' l' (<[r := t']> sp) maps' own' ∧
    wrote p_sz s sp r t dstva (take j src) s' t' ∧
    (c = 0 ∧ j = length src ∨ c = -1 ∧ (j < length src)%nat).
Proof.
  intros Hw Ht Hd Hend.
  pose proof (copy_fuel_enough dstva (Z.of_nat (length src)) Hd ltac:(lia)) as Hf.
  assert (0 < copy_fuel (Z.of_nat (length src)))%nat by (unfold copy_fuel; lia).
  apply (copyout_loop (Z.to_nat (npages (dstva mod PGSIZE + Z.of_nat (length src)))) _ s l sp maps own);
    [lia|lia|done..].
Qed.

Lemma copyin_world s l sp maps own r t p_sz srcva len :
  world s l sp maps own → sp !! r = Some t → 0 ≤ srcva → 0 ≤ len → srcva + len ≤ TRAPFRAME →
  ∃ c s' l' t' maps' own' data,
    copyin p_sz r r srcva len s = Ok ((c, data), s') ∧
    world s' l' (<[r := t']> sp) maps' own' ∧ seen p_sz s sp r t s' t' ∧
    reads s' t' srcva data ∧ (c = 0 ∧ Z.of_nat (length data) = len ∨ c = -1).
Proof.
  intros Hw Ht Hd Hl Hend. pose proof (copy_fuel_enough srcva len Hd Hl) as Hf.
  assert (0 < copy_fuel len)%nat by (unfold copy_fuel; lia).
  apply (copyin_loop (Z.to_nat (npages (srcva mod PGSIZE + len))) (copy_fuel len) s l sp maps own
    r t p_sz srcva len []); [lia|lia|done..].
Qed.
End xfer.
