(* ===== verification/VmSpec.v ===== *)
(** The specification of the virtual memory system: the theorems about
    [kernel/kalloc.c] and [kernel/vm.c] in terms of the invariant [world] and of
    what user programs see.

    The module [Small] boots the machine of {!KallocSpec} and creates two
    address spaces, which gives the states at which the theorems are
    exercised. *)

From stdpp Require Import functions.
From S2P Require Import Prelude Riscv Mem Str Kalloc KallocSpec Vm VmTree VmSpace VmOps VmCopy VmGrow VmCow VmUser VmXfer.

Section spec.
Context `{KernelImage} `{!KernelImageOk}.

(** ** Reaching the invariant *)
Lemma world_boot s l : kinv s l → (∀ a, a ∈ l ↔ valid_page a) → world s l ∅ ∅ (λ _, 0).
Proof.
  intros Hk Hl. split; [split|done|]; try (intros; rewrite lookup_empty in *; done).
  - done.
  - intros a Ha. apply (kinv_free _ _ _ Hk); [done|done|]. by apply Hl.
  - intros r t n a Hr. by rewrite lookup_empty in Hr.
Qed.

Lemma uvmcreate_world s r l sp maps own :
  world s (r :: l) sp maps own →
  ∃ s', uvmcreate s = Ok (r, s') ∧
    world s' l (<[r := {[ [] := r ]}]> sp) maps (<[r := 1]> own) ∧
    sp !! r = None ∧ (∀ n, maps !! (r, n) = None).
Proof.
  intros [Hv Ho Hp]. destruct (uvmcreate_cons s r l sp maps own Hv Ho) as (s' & Hrun & Hv' & Hm & Hpte).
  assert (¬ tree_page sp r) as Hnt by (intros ?; eapply (vinv_tree_notin s); [done|done|by left]).
  assert (sp !! r = None) as Hspr.
  { destruct (sp !! r) as [t|] eqn:E; [|done]. exfalso. apply Hnt. exists r, t.
    split; [done|]. exists []. exact (vi_root _ _ _ _ _ Hv _ _ E). }
  exists s'. split; [done|]. split; [split; [done| |]|split; [done|]].
  - intros q. destruct (decide (q = r)) as [->|].
    + by rewrite fn_lookup_insert.
    + rewrite fn_lookup_insert_ne by done. apply Ho.
  - intros r' t n a Hr' Hn Ha HW. rewrite lookup_insert in Hr'.
    destruct (decide (r = r')) as [<-|].
    + injection Hr' as <-. by rewrite Hpte, flag_set_0 in HW.
    + apply (Hp r' t n a); try done. rewrite <-HW. f_equal. apply pte_of_frame.
      intros q Hq. apply same_page_sym, Hm.
      * eapply pt_page_aligned; [exact (vi_rep _ _ _ _ _ Hv _ _ Hr')|done].
      * intros ->. apply Hnt. by exists r', t.
  - intros n. destruct (maps !! (r, n)) as [a|] eqn:E; [|done].
    destruct (vi_dom _ _ _ _ _ Hv _ _ _ E) as [[? ?] _]. congruence.
Qed.

Lemma leaf_pte_writable m t va a perm :
  valid_page a → perm_ok perm → flag_set perm PTE_U = true → flag_set perm PTE_W = true →
  pte_of m t va = leaf_pte a perm → user_writable m t va = true.
Proof.
  intros Ha Hp HU HW E. unfold user_writable. rewrite E. change PTE_V with (2 ^ 0).
  change PTE_U with (2 ^ 4) in *. change PTE_W with (2 ^ 2) in *.
  rewrite !(leaf_pte_flag a perm) by (done || lia).
  rewrite !flag_set_spec in * by done. rewrite !Z.lor_spec, HU, HW. cbn [orb].
  change PTE_V with (2 ^ 0). rewrite Z.pow2_bits_true by done. by rewrite orb_true_r.
Qed.

Lemma added_inj s l sp maps own r t perm n j s' l' t' maps' own' :
  world s l sp maps own → added s l sp maps own r t perm n j s' l' t' maps' own' →
  (∀ i, maps !! (r, i) = None) → inj_space maps' r.
Proof.
  intros Hw Ha Hnone i i' a Hi Hi'.
  assert (cnt maps' a = 1) as Hc.
  { destruct (decide (n ≤ i < j)); [by eapply (ad_once _ _ _ _ _ _ _ _ _ _ _ _ _ _ _ Ha)|].
    rewrite (ad_maps _ _ _ _ _ _ _ _ _ _ _ _ _ _ _ Ha), Hnone in Hi by (by right). done. }
  by pose proof (cnt_unique _ _ _ _ Hc Hi Hi') as [= ->].
Qed.

(** ** The theorems *)

(** C1: fork's [uvmcopy] either gives the child the parent's memory, byte for
    byte up to the rounded size, with every writable page turned copy-on-write
    on both sides, one more reference for every shared page and no byte of any
    other address space changed; or it runs out of memory, returns -1, and
    leaves all mappings and all user memory as they were.  In both cases the
    invariant (page tables, exact reference counts, no writable page shared)
    holds again. *)
Theorem uvmcopy_fork s l sp maps own old told new tnew sz :
  world s l sp maps own → old ≠ new → sp !! old = Some told → sp !! new = Some tnew →
  0 ≤ sz ≤ TRAPFRAME → (∀ i, maps !! (new, i) = None) → inj_space maps old →
  (∀ i pa, maps !! (old, i) = Some pa → refc s pa < 65535) →
  ∃ s' l' tnew' maps',
    (uvmcopy old new sz s = Ok (0, s') ∧
     forked s l sp maps own old told new sz s' l' tnew' maps') ∨
    (uvmcopy old new sz s = Ok (-1, s') ∧
     world s' l' (<[new := tnew']> sp) maps (own_grow l [] own) ∧
     (∀ r t va, sp !! r = Some t → r ≠ new → uaddr va → user_byte s' t va = user_byte s t va)).
Proof.
  intros [Hv Ho Hp] Hne Ht Htn Hsz Hnone Hinj Hrc.
  destruct (uvmcopy_forks s l sp maps own old told new tnew sz)
    as (s' & l' & tnew' & maps' & [(Hrun & Hf)|(Hrun & Hf)]); try done.
  - exists s', l', tnew', maps'. by left.
  - exists s', l', tnew', maps. right. split; [done|]. split; [split|].
    + exact (copy_failed_maps _ _ _ _ _ _ _ _ _ _ _ _ Hv Hnone Hf).
    + by apply settled_grow.
    + exact (copy_failed_private _ _ _ _ _ _ _ _ _ _ _ _ Hp Ht Hnone Hv Hf).
    + intros r t va Hr Hrn Hu.
      exact (copy_failed_byte _ _ _ _ _ _ _ _ _ _ _ _ _ _ _ Hv Ho Ht Hnone Hf Hr Hrn Hu).
Qed.

(** C2: a store fault on a copy-on-write page gives the faulting address space
    a private writable copy: no user byte of any address space changes, the
    page becomes writable, the old page loses one reference (and is freed if
    it was the last) and the new one has exactly one.  Without a free page, and
    for every other kind of entry, nothing changes and the result is -1, or 0
    if the page was writable all along. *)
Theorem cowalloc_private_copy s l sp maps own r t va :
  world s l sp maps own → sp !! r = Some t → uaddr va →
  match l with
  | mem :: l1 =>
      is_cow (pte_of (kmem s) t va) = true →
      ∃ pa s' l', maps !! (r, va / PGSIZE) = Some pa ∧ cowalloc r va s = Ok (0, s') ∧
        world s' l' sp (<[(r, va / PGSIZE) := mem]> maps) own ∧
        (∀ r' t' va', sp !! r' = Some t' → uaddr va' → user_byte s' t' va' = user_byte s t' va') ∧
        user_writable (kmem s') t va = true ∧
        l' = (if decide (refc s pa = 1) then pa :: l1 else l1) ∧
        refc s' pa = refc s pa - 1 ∧ refc s' mem = 1
  | [] => True
  end ∧
  (is_cow (pte_of (kmem s) t va) = false ∨ l = [] →
   cowalloc r va s = Ok (if user_writable (kmem s) t va then 0 else -1, s)).
Proof.
  intros [Hv Ho Hp] Ht Hu. destruct (uaddr_vpn va Hu) as [Hn Hva]. split; cycle 1.
  { intros Hc. by apply (cowalloc_noop s l sp maps own). }
  destruct l as [|mem l]; [done|]. intros Hcow.
  destruct (cowalloc_run s mem l sp maps own r t va Hv Ho Ht Hn Hcow)
    as (pa & s' & l' & Hpa & Hrun & Hc).
  rewrite (pte_of_page _ _ _ va eq_refl) in Hcow.
  exists pa, s', l'. split; [done|]. split; [done|]. split; [|split; [|split; [|split]]].
  - split; [apply Hc|done|by eapply cow_fault_private].
  - exact (cow_fault_byte _ _ _ _ _ _ _ _ _ _ _ _ Hv Ho Ht Hn Hpa Hcow Hc).
  - by apply (cow_fault_pa _ _ _ _ _ _ _ _ _ _ _ _ Hv Ht Hn Hpa Hcow Hc va).
  - apply Hc.
  - apply Hc.
Qed.


(** C21: [copyin] returns, when it succeeds, exactly the bytes the user program
    would read at the source addresses, and changes nothing a user program can
    see beyond zero-filling lazily allocated memory. *)
Theorem copyin_reads s l sp maps own r t p_sz srcva len :
  world s l sp maps own → sp !! r = Some t → 0 ≤ srcva → 0 ≤ len → srcva + len ≤ TRAPFRAME →
  ∃ c s' l' t' maps' own' data,
    copyin p_sz r r srcva len s = Ok ((c, data), s') ∧
    world s' l' (<[r := t']> sp) maps' own' ∧ seen p_sz s sp r t s' t' ∧
    reads s' t' srcva data ∧ (c = 0 ∧ Z.of_nat (length data) = len ∨ c = -1).
Proof. apply copyin_world. Qed.

(** C29: [uvmalloc] either extends the address space to [newsz] with zeroed
    pages that nobody else maps, or returns 0 with every mapping as before and
    all pages given back that are not part of the page table; no other user
    byte changes. *)
Theorem uvmalloc_grows s l sp maps own r t oldsz newsz xperm :
  world s l sp maps own → sp !! r = Some t → 0 ≤ oldsz ≤ newsz → newsz ≤ TRAPFRAME →
  (∀ i, npages oldsz ≤ i < npages newsz → maps !! (r, i) = None) →
  perm_ok (Z.lor (Z.lor PTE_R PTE_U) xperm) →
  ∃ c s' l' t' maps' own', uvmalloc r oldsz newsz xperm s = Ok (c, s') ∧
    world s' l' (<[r := t']> sp) maps' own' ∧
    (∀ q, own' q = own q ∨ pt_page t' q) ∧
    (∀ r' u va, sp !! r' = Some u → r' ≠ r → uaddr va → user_byte s' u va = user_byte s u va) ∧
    (c = newsz ∧
     (∀ va, uaddr va → user_byte s' t' va =
        if decide (npages oldsz ≤ va / PGSIZE < npages newsz) then Some 0 else user_byte s t va) ∨
     c = 0 ∧ maps' = maps ∧ ∀ va, uaddr va → user_byte s' t' va = user_byte s t va).
Proof.
  intros Hw Ht Hsz Hmax Hnone Hperm. pose proof Hw as [Hv Ho Hp].
  destruct (uvmalloc_space s l sp maps own r t oldsz newsz xperm)
    as (s' & l' & t' & maps' & own' & [(Hrun & Ha)|(Hrun & Hna)]); try done.
  - exists newsz, s', l', t', maps', own'. pose proof (ad_grown _ _ _ _ _ _ _ _ _ _ _ _ _ _ _ Ha) as Hg.
    split; [done|]. split; [split; [apply Hg|apply Hg|by eapply added_private]|].
    split; [intros q; destruct (gr_own _ _ _ _ _ _ _ _ _ _ _ Hg q) as [?|[? _]]; auto|].
    split; [intros r' u va Hr' Hne Hu; by eapply grown_other_byte|]. left. split; [done|].
    intros va Hu. eapply added_byte; try done. change PTE_U with (2 ^ 4).
    rewrite flag_set_spec, !Z.lor_spec by done. done.
  - exists 0, s', l', t', maps, own'. pose proof (na_grown _ _ _ _ _ _ _ _ _ _ _ Hna) as Hg.
    destruct (not_added_world s l sp maps own r t (-1) s' l' t' own' Hw Ht Hna) as [Hw' Hs].
    split; [done|]. split; [done|].
    split; [intros q; destruct (gr_own _ _ _ _ _ _ _ _ _ _ _ Hg q) as [?|[? _]]; auto|].
    split; [apply Hs|]. right. split; [done|]. split; [done|]. intros va Hu.
    destruct (sn_self _ _ _ _ _ _ _ Hs va Hu) as [?|(_ & _ & Hlt)]; [done|].
    destruct (uaddr_vpn va Hu). unfold PGSIZE in *. lia.
Qed.

(** C30: [uvmdealloc] shrinks an address space: the pages between the rounded
    sizes are unmapped, each unmapping gives up one reference, and a page that
    is still mapped elsewhere keeps its contents. *)
Theorem uvmdealloc_shrinks s l sp maps own r t oldsz newsz :
  world s l sp maps own → sp !! r = Some t → 0 ≤ newsz < oldsz → oldsz ≤ TRAPFRAME →
  ∃ s' l' maps', uvmdealloc r oldsz newsz s = Ok (newsz, s') ∧
    world s' l' sp maps' own ∧
    (∀ r' i, maps' !! (r', i) =
       if decide (r' = r ∧ npages newsz ≤ i < npages oldsz) then None else maps !! (r', i)) ∧
    (∀ a, valid_page a → refc s' a = refc s a - (cnt maps a - cnt maps' a)) ∧
    (∀ r' t' va, sp !! r' = Some t' → uaddr va → user_byte s' t' va =
       if decide (r' = r ∧ npages newsz ≤ va / PGSIZE < npages oldsz) then None
       else user_byte s t' va).
Proof.
  intros [Hv Ho Hp] Ht Hsz Hmax.
  destruct (uvmdealloc_space s l sp maps own r t oldsz newsz Hv Ho Ht Hsz Hmax)
    as (s' & l' & maps' & Hrun & Hv' & Hm & Hl & Hf & Hpte & Hot).
  exists s', l', maps'. split; [done|].
  assert (∀ r' t' va, sp !! r' = Some t' → 0 ≤ va < MAXVA →
    ¬ (r' = r ∧ npages newsz ≤ va / PGSIZE < npages oldsz) →
    pte_of (kmem s') t' va = pte_of (kmem s) t' va) as Hsame.
  { intros r' t' va Hr' Hva Hn. destruct (decide (r' = r)) as [->|]; [|by apply (Hot r')].
    assert (t' = t) as -> by congruence. rewrite Hpte by done. rewrite decide_False; [done|]. naive_solver. }
  assert (∀ a, cnt maps' a ≤ cnt maps a) as Hle.
  { intros a. unfold cnt. apply inj_le, map_subseteq_size, map_filter_subseteq_mono.
    apply map_subseteq_spec. intros [r' i] b. rewrite Hm. by destruct (decide _). }
  split; [split; [done|done|]|].
  - intros r' t' i a Hr' Hi Ha HW. rewrite Hm in Ha. destruct (decide _) as [|Hni]; [done|].
    rewrite (Hsame r') in HW; [|done|by apply vpn_lt_MAXVA|by rewrite vpn_div].
    pose proof (Hp r' t' i a Hr' Hi Ha HW) as Hc. pose proof (Hle a).
    pose proof (cnt_pos maps' (r', i) a). rewrite Hm, decide_False in * by done. naive_solver lia.
  - split; [done|]. split.
    + intros a Ha. rewrite (vi_count _ _ _ _ _ Hv a Ha), (vi_count _ _ _ _ _ Hv' a Ha). lia.
    + intros r' t' va Hr' Hu. destruct (uaddr_vpn va Hu) as [Hi Hva].
      destruct (decide (r' = r ∧ _)) as [[-> Hin]|Hni].
      * eapply unmapped_byte; [exact Hv'|done|done|]. rewrite Hm. by rewrite decide_True.
      * eapply user_byte_frame; [exact Hv|done|exact Hr'|done| |].
        -- by apply user_pa_pte_eq, (Hsame r').
        -- intros p Hpm Hnt Hnl. apply Hf; [|done|].
           ++ apply (vi_valid _ _ _ _ _ Hv _ _ Hpm).
           ++ eapply (mapped_notin s' l' sp maps' own (r', va / PGSIZE)); [done|done|].
              rewrite Hm. by rewrite decide_False.
Qed.
End spec.

(** ** Two address spaces on a small machine *)
Module Small.
Import Machine.
(** Two address spaces, one of them with two pages of writable memory. *)
Definition two_spaces : M kst (Z * Z * Z) :=
  kinit ;;
  old ← uvmcreate;
  new ← uvmcreate;
  sz ← uvmalloc old 0 8192 PTE_W;
  mret (old, new, sz).

Definition size_of (x : res (Z * Z * Z * kst)) : option Z :=
  match x with Ok ((_, _, sz), _) => Some sz | _ => None end.

Lemma two_spaces_size : size_of (two_spaces boot) = Some 8192.
Proof. vm_compute. reflexivity. Qed.

(** The state the example ends in. *)
Record ready (s : kst) (l : list Z) (sp : gmap Z ptree) (maps : gmap (Z * Z) Z) (own : Z → Z)
    (old new : Z) (told tnew : ptree) : Prop := {
  rd_world : world s l sp maps own;
  rd_ne : old ≠ new;
  rd_old : sp !! old = Some told;
  rd_new : sp !! new = Some tnew;
  rd_none : ∀ i, maps !! (new, i) = None;
  rd_top : ∀ i, 2 ≤ i → maps !! (old, i) = None;
  rd_inj : inj_space maps old;
  rd_refc : ∀ i pa, maps !! (old, i) = Some pa → refc s pa < 65535;
  rd_zero : ∀ va, 0 ≤ va < 8192 → user_byte s told va = Some 0;
  rd_writable : ∀ va, 0 ≤ va < 8192 → user_writable (kmem s) told va = true;
}.

Lemma uaddr_small va : 0 ≤ va < 8192 → uaddr va.
Proof. unfold uaddr. change TRAPFRAME with 274877898752. lia. Qed.

Lemma size_fits : 8192 ≤ TRAPFRAME.
Proof. by vm_compute. Qed.

Lemma big_fits : 12288 ≤ TRAPFRAME.
Proof. by vm_compute. Qed.

Lemma perm_RUW : perm_ok (Z.lor (Z.lor PTE_R PTE_U) PTE_W).
Proof. by vm_compute. Qed.

Lemma two_pages l : (∀ a, a ∈ l ↔ valid_page a) → ∃ a b l', l = a :: b :: l'.
Proof.
  intros Hl. assert (PHYSTOP - PGSIZE ∈ l) as Ha by (apply Hl; split; by vm_compute).
  assert (PHYSTOP - 2 * PGSIZE ∈ l) as Hb by (apply Hl; split; by vm_compute).
  destruct l as [|a [|b l']]; [by apply elem_of_nil in Ha| |by exists a, b, l'].
  apply list_elem_of_singleton in Ha, Hb. by rewrite <-Ha in Hb.
Qed.

Lemma two_spaces_ready : ∃ old new s l sp maps own told tnew,
  two_spaces boot = Ok ((old, new, 8192), s) ∧ ready s l sp maps own old new told tnew.
Proof.
  destruct (kinit_ok boot eq_refl) as (s1 & l1 & Hrun1 & Hk1 & Hl1).
  pose proof (world_boot s1 l1 Hk1 Hl1) as Hw1. destruct (two_pages l1 Hl1) as (old & new & l & ->).
  destruct (uvmcreate_world s1 old _ ∅ ∅ _ Hw1) as (s2 & Hrun2 & Hw2 & _ & Hnone2).
  destruct (uvmcreate_world s2 new l _ ∅ _ Hw2) as (s3 & Hrun3 & Hw3 & Hfresh & Hnone3).
  assert (∀ sz s4, uvmalloc old 0 8192 PTE_W s3 = Ok (sz, s4) →
    two_spaces boot = Ok ((old, new, sz), s4)) as Hrun.
  { intros sz s4 Hrun4. unfold two_spaces. rewrite (bind_Ok_1 _ _ _ _ _ Hrun1).
    rewrite (bind_Ok_1 _ _ _ _ _ Hrun2). rewrite (bind_Ok_1 _ _ _ _ _ Hrun3).
    by rewrite (bind_Ok_1 _ _ _ _ _ Hrun4). }
  assert (old ≠ new) as Hne by (intros ->; by rewrite lookup_insert_eq in Hfresh).
  assert ((<[new := {[[] := new]}]> (<[old := {[[] := old]}]> ∅) : gmap Z ptree) !! old =
    Some {[[] := old]}) as Hold by (by rewrite lookup_insert_ne, lookup_insert_eq).
  destruct (uvmalloc_space s3 l _ ∅ _ old _ 0 8192 PTE_W (w_vinv _ _ _ _ _ Hw3)
    (w_settled _ _ _ _ _ Hw3) Hold) as (s4 & l4 & t4 & maps4 & own4 & [(Hrun4 & Ha)|(Hrun4 & _)]).
  { lia. }
  { exact size_fits. }
  { intros i _. apply lookup_empty. }
  { exact perm_RUW. }
  2: { exfalso. pose proof two_spaces_size as Hsz. by rewrite (Hrun _ _ Hrun4) in Hsz. }
  change (npages 8192) with 2 in Ha. change (npages 0) with 0 in Ha.
  pose proof Ha as [Hg Hm Hnew Hpte Honce Hcnt].
  pose proof (Hrun _ _ Hrun4) as Hres. clear Hrun1 Hrun2 Hrun3 Hrun4 Hrun.
  eexists old, new, s4, l4, _, maps4, own4, t4, {[[] := new]}. split; [exact Hres|]. clear Hres.
  assert (∀ i, maps4 !! (new, i) = None) as Hn4 by (intros i; rewrite Hm by (left; congruence); done).
  split.
  - split; [apply Hg|apply Hg|]. by eapply added_private.
  - done.
  - apply lookup_insert_eq.
  - by rewrite lookup_insert_ne, lookup_insert_eq.
  - done.
  - intros i Hi. rewrite Hm by lia. done.
  - by eapply added_inj.
  - intros i pa Hpa.
    assert (0 ≤ i < 2) as Hi.
    { destruct (decide (0 ≤ i < 2)); [done|]. by rewrite Hm in Hpa by lia. }
    pose proof (gr_vinv _ _ _ _ _ _ _ _ _ _ _ Hg) as Hv4.
    rewrite (vi_count _ _ _ _ _ Hv4 pa (vi_valid _ _ _ _ _ Hv4 _ _ Hpa)), (Honce i pa Hi Hpa).
    destruct (Hnew i Hi) as (a & Ha' & Hal & _). assert (a = pa) as -> by congruence.
    destruct (gr_own _ _ _ _ _ _ _ _ _ _ _ Hg pa) as [->|[Htp _]].
    + rewrite (settled_free _ _ _ _ _ (w_vinv _ _ _ _ _ Hw3) (w_settled _ _ _ _ _ Hw3) pa Hal). lia.
    + exfalso. eapply (vinv_tree_unmapped _ _ _ _ _ (old, i) pa Hv4); [|done].
      exists old, t4. split; [apply lookup_insert_eq|done].
  - intros va Hva. rewrite (added_byte _ _ _ _ _ _ _ _ _ _ _ _ _ _ _ va Hw3 Hold
      perm_RUW eq_refl Ha (uaddr_small va Hva)).
    rewrite decide_True; [done|]. split; [apply Z.div_pos; [lia|done]|].
    apply Z.div_lt_upper_bound; [done|]. unfold PGSIZE. lia.
  - intros va Hva. assert (0 ≤ va / PGSIZE < 2) as Hi.
    { split; [apply Z.div_pos; [lia|done]|]. apply Z.div_lt_upper_bound; [done|]. unfold PGSIZE. lia. }
    destruct (Hnew _ Hi) as (a & Ha' & _ & _ & Hp'). rewrite <-(pte_of_page _ _ _ va eq_refl) in Hp'.
    pose proof (vi_valid _ _ _ _ _ (gr_vinv _ _ _ _ _ _ _ _ _ _ _ Hg) _ _ Ha') as Hav.
    exact (leaf_pte_writable _ _ _ _ _ Hav perm_RUW eq_refl eq_refl Hp').
Qed.

(** The example goes on: fork, then a store by the parent. *)
Definition fork_and_store : M kst (Z * Z) :=
  x ← two_spaces;
  let '(old, new, sz) := x in
  c ← uvmcopy old new sz;
  c' ← cowalloc old 0;
  mret (c, c').

Definition codes_of (x : res (Z * Z * kst)) : option (Z * Z) :=
  match x with Ok (c, _) => Some c | _ => None end.

Lemma fork_and_store_codes : codes_of (fork_and_store boot) = Some (0, 0).
Proof. vm_compute. reflexivity. Qed.

Lemma fork_and_store_run old new sz s0 c1 s1 c c' :
  two_spaces boot = Ok ((old, new, sz), s0) → uvmcopy old new sz s0 = Ok (c1, s1) →
  codes_of (fork_and_store boot) = Some (c, c') → c1 = c ∧ ∃ s', cowalloc old 0 s1 = Ok (c', s').
Proof.
  unfold fork_and_store. generalize two_spaces boot. intros m b H0 H1.
  unfold mbind, M_bind. rewrite H0, H1. destruct (cowalloc old 0 s1) as [[c2 s2]| | | |]; [|done..].
  intros [= -> ->]. split; [done|]. by exists s2.
Qed.

Lemma forked_ready : ∃ old new s0 s mem l sp maps own told tnew,
  two_spaces boot = Ok ((old, new, 8192), s0) ∧ uvmcopy old new 8192 s0 = Ok (0, s) ∧
  world s (mem :: l) sp maps own ∧ sp !! old = Some told ∧ sp !! new = Some tnew ∧
  is_cow (pte_of (kmem s) told 0) = true ∧ is_cow (pte_of (kmem s) tnew 0) = true.
Proof.
  destruct two_spaces_ready as (old & new & s0 & l0 & sp & maps & own & told & tnew & Hrun0 & Hr).
  destruct Hr as [[Hv Ho Hp] R2 R3 R4 R5 R6 R7 R8 R9 R10].
  pose proof (conj (Z.le_refl 0) size_fits) as Hsz.
  destruct (uvmcopy_forks s0 l0 sp maps own old told new tnew 8192 Hv Ho Hp R2 R3 R4
    ltac:(lia) R5 R7 R8) as (s & l & tnew' & maps' & [(Hrun & Hf)|(Hrun & Hf)]).
  - destruct (fk_cow _ _ _ _ _ _ _ _ _ _ _ _ _ Hf 0) as [Hc1 Hc2].
    { apply uaddr_small. lia. }
    { change (PGROUNDUP 8192) with 8192. lia. }
    { apply R10. lia. }
    pose proof (fk_vinv _ _ _ _ _ _ _ _ _ _ _ _ _ Hf) as Hv'.
    assert (<[new := tnew']> sp !! old = Some told) as Hold by (by rewrite lookup_insert_ne).
    destruct l as [|mem l].
    + exfalso. destruct (fork_and_store_run _ _ _ _ _ _ _ _ Hrun0 Hrun fork_and_store_codes)
        as (_ & s' & Hcow).
      rewrite (cowalloc_noop s [] _ _ _ old told 0 Hv' Hold ltac:(rewrite MAXVA_val; lia)
        (or_intror eq_refl)) in Hcow.
      unfold is_cow in Hc1. rewrite !andb_true_iff, negb_true_iff in Hc1.
      destruct Hc1 as [[_ HW] _]. rewrite HW, andb_false_r in Hcow. discriminate Hcow.
    + exists old, new, s0, s, mem, l, (<[new := tnew']> sp), maps', (own_grow l0 (mem :: l) own), told, tnew'.
      split; [exact Hrun0|]. split; [exact Hrun|].
      split; [split; [exact Hv'|by apply settled_grow|apply Hf]|].
      split; [exact Hold|]. split; [apply lookup_insert_eq|]. split; [exact Hc1|exact Hc2].
  - exfalso. destruct (fork_and_store_run _ _ _ _ _ _ _ _ Hrun0 Hrun fork_and_store_codes) as [E _].
    discriminate E.
Qed.

(** ** The theorems at these states *)
Lemma uvmcopy_fork_witness : ∃ old new s0 l0 sp maps own told s l tnew' maps',
  two_spaces boot = Ok ((old, new, 8192), s0) ∧ user_byte s0 told 100 = Some 0 ∧
  (uvmcopy old new 8192 s0 = Ok (0, s) ∧
   forked s0 l0 sp maps own old told new 8192 s l tnew' maps' ∨
   uvmcopy old new 8192 s0 = Ok (-1, s) ∧
   world s l (<[new := tnew']> sp) maps (own_grow l0 [] own)).
Proof.
  destruct two_spaces_ready as (old & new & s0 & l0 & sp & maps & own & told & tnew & Hrun0 & Hr).
  destruct (uvmcopy_fork s0 l0 sp maps own old told new tnew 8192 (rd_world _ _ _ _ _ _ _ _ _ Hr)
    (rd_ne _ _ _ _ _ _ _ _ _ Hr) (rd_old _ _ _ _ _ _ _ _ _ Hr) (rd_new _ _ _ _ _ _ _ _ _ Hr)
    ltac:(split; [lia|exact size_fits]) (rd_none _ _ _ _ _ _ _ _ _ Hr)
    (rd_inj _ _ _ _ _ _ _ _ _ Hr) (rd_refc _ _ _ _ _ _ _ _ _ Hr))
    as (s & l & tnew' & maps' & Hcase).
  exists old, new, s0, l0, sp, maps, own, told, s, l, tnew'.
  destruct Hcase as [(Hrun & Hf)|(Hrun & Hw & _)].
  - exists maps'. split; [exact Hrun0|]. split; [apply (rd_zero _ _ _ _ _ _ _ _ _ Hr); lia|].
    left. split; [exact Hrun|exact Hf].
  - exists maps'. split; [exact Hrun0|]. split; [apply (rd_zero _ _ _ _ _ _ _ _ _ Hr); lia|].
    right. split; [exact Hrun|exact Hw].
Defined.

Lemma cowalloc_private_copy_witness : ∃ old s mem l sp maps own told s',
  world s (mem :: l) sp maps own ∧ sp !! old = Some told ∧
  is_cow (pte_of (kmem s) told 0) = true ∧ cowalloc old 0 s = Ok (0, s') ∧
  user_writable (kmem s') told 0 = true ∧ refc s' mem = 1.
Proof.
  destruct forked_ready as (old & new & s0 & s & mem & l & sp & maps & own & told & tnew &
    _ & _ & Hw & Hold & _ & Hcow & _).
  destruct (cowalloc_private_copy s (mem :: l) sp maps own old told 0 Hw Hold
    (uaddr_small 0 ltac:(lia))) as [Hc _].
  destruct (Hc Hcow) as (pa & s' & l' & _ & Hrun & _ & _ & Hwr & _ & _ & Hrc).
  exists old, s, mem, l, sp, maps, own, told, s'.
  split; [exact Hw|]. split; [exact Hold|]. split; [exact Hcow|]. split; [exact Hrun|].
  split; [exact Hwr|exact Hrc].
Defined.


Lemma copyin_reads_witness : ∃ old s (sp : gmap Z ptree) told c s' t' data,
  sp !! old = Some told ∧ user_byte s told 4095 = Some 0 ∧
  copyin 8192 old old 4095 3 s = Ok ((c, data), s') ∧ reads s' t' 4095 data ∧
  (c = 0 ∧ Z.of_nat (length data) = 3 ∨ c = -1).
Proof.
  destruct two_spaces_ready as (old & new & s & l & sp & maps & own & told & tnew & _ & Hr).
  destruct (copyin_reads s l sp maps own old told 8192 4095 3
    (rd_world _ _ _ _ _ _ _ _ _ Hr) (rd_old _ _ _ _ _ _ _ _ _ Hr) ltac:(lia) ltac:(lia)
    ltac:(pose proof size_fits; lia))
    as (c & s' & l' & t' & maps' & own' & data & Hrun & _ & _ & Hrd & Hc).
  exists old, s, sp, told, c, s', t', data. split; [exact (rd_old _ _ _ _ _ _ _ _ _ Hr)|].
  split; [apply (rd_zero _ _ _ _ _ _ _ _ _ Hr); lia|]. split; [exact Hrun|].
  split; [exact Hrd|exact Hc].
Defined.

Lemma uvmalloc_grows_witness : ∃ old s c s' l' sp' maps' own',
  uvmalloc old 8192 12288 PTE_W s = Ok (c, s') ∧ world s' l' sp' maps' own' ∧
  (c = 12288 ∨ c = 0).
Proof.
  destruct two_spaces_ready as (old & new & s & l & sp & maps & own & told & tnew & _ & Hr).
  destruct (uvmalloc_grows s l sp maps own old told 8192 12288 PTE_W
    (rd_world _ _ _ _ _ _ _ _ _ Hr) (rd_old _ _ _ _ _ _ _ _ _ Hr) ltac:(lia) big_fits
    ltac:(intros i Hi; change (npages 8192) with 2 in Hi; apply (rd_top _ _ _ _ _ _ _ _ _ Hr); lia)
    perm_RUW) as (c & s' & l' & t' & maps' & own' & Hrun & Hw & _ & _ & Hc).
  exists old, s, c, s', l', (<[old := t']> sp), maps', own'. split; [exact Hrun|].
  split; [exact Hw|]. destruct Hc as [[-> _]|[-> _]]; [by left|by right].
Defined.

Lemma uvmdealloc_shrinks_witness : ∃ old s s' (sp : gmap Z ptree) told,
  sp !! old = Some told ∧ user_byte s told 4096 = Some 0 ∧
  uvmdealloc old 8192 4096 s = Ok (4096, s') ∧ user_byte s' told 4096 = None.
Proof.
  destruct two_spaces_ready as (old & new & s & l & sp & maps & own & told & tnew & _ & Hr).
  destruct (uvmdealloc_shrinks s l sp maps own old told 8192 4096
    (rd_world _ _ _ _ _ _ _ _ _ Hr) (rd_old _ _ _ _ _ _ _ _ _ Hr) ltac:(lia) size_fits)
    as (s' & l' & maps' & Hrun & _ & _ & _ & Hb).
  exists old, s, s', sp, told. split; [exact (rd_old _ _ _ _ _ _ _ _ _ Hr)|].
  split; [apply (rd_zero _ _ _ _ _ _ _ _ _ Hr); lia|]. split; [exact Hrun|].
  rewrite (Hb old told 4096 (rd_old _ _ _ _ _ _ _ _ _ Hr) (uaddr_small 4096 ltac:(lia))).
  rewrite decide_True; [done|]. split; [done|]. by vm_compute.
Defined.
End Small.
