(* ===== verification/Kvm.v ===== *)
(** The kernel's page table, [kvmmake] of [kernel/vm.c].

    [mappages] of a range of pages extends the tree of a page table by the
    entries of the range, or runs out of memory.  The paths of the tree that
    [kvmmake] builds are a fixed finite set, which bounds the memory it needs, so
    on a machine with enough memory it cannot fail. *)

From S2P Require Import Prelude Riscv Mem Str Kalloc Vm VmTree VmSpace VmOps.

(** Arithmetic with the addresses of the memory layout. *)
Ltac kvm_lia := unfold UART0, VIRTIO0, PLIC, KERNBASE, TRAMPOLINE, PGSIZE in *; rewrite ?PHYSTOP_val, ?MAXVA_val in *; lia.

Section kvm.
Context `{KernelImage} `{!KernelImageOk}.

(** The entries with [n] pages from [va] mapped to the pages from [pa]. *)
Definition map_range (g : Z → Z) (va n pa perm : Z) : Z → Z :=
  λ va', let i := va' / PGSIZE - va / PGSIZE in
         if bool_decide (0 ≤ i < n) then leaf_pte (pa + i * PGSIZE) perm else g va'.

(** The paths to the pages that map [va]. *)
Definition on_path (P : list Z → Prop) (va : Z) : Prop := ∀ n, P (take n [PX 2 va; PX 1 va]).

Definition within (P : list Z → Prop) (t : ptree) : Prop := ∀ y, is_Some (t !! y) → P y.

Section range.
Context (P : list Z → Prop).

(** What a turn of the loop has done. *)
Lemma mappages_body_run s l t root a pa last perm :
  kinv s l → pt_rep (kmem s) t → pt_own s t → t !! [] = Some root → within P t → on_path P a →
  0 ≤ a < MAXVA → 0 ≤ pa < 2 ^ 56 → perm_ok perm → flag_set (pte_of (kmem s) t a) PTE_V = false →
  ∃ r s' l' t', mappages_body root last perm (a, pa) s = Ok (r, s') ∧ within P t' ∧
    ((r = inr (-1) ∧ l' = [] ∧ pt_ext s l t s' l' t') ∨
     (r = (if a =? last then inr 0 else inl (u64 (a + PGSIZE), u64 (pa + PGSIZE))) ∧
      pt_step s l t s' l' t' (map_page (pte_of (kmem s) t) a (leaf_pte pa perm)))).
Proof.
  intros Hk Hr Ho Hroot Hp Hpa Ha Hpar Hperm Hv. unfold mappages_body.
  destruct (walk_true s l t root a) as (r & s1 & l1 & t1 & Hrun & He & Hdom & Hres); [done..|lia|].
  assert (within P t1) as Hp1 by (intros y [?|[n ->]]%Hdom; [by apply Hp|apply Hpa]).
  rewrite (bind_Ok_1 _ _ _ _ _ Hrun). pose proof (ext_rep _ _ _ _ _ _ _ He) as Hr1.
  destruct Hres as [[-> ->]|Hslot]; [exists (inr (-1)), s1, [], t1; split; [done|]; split; [done|by left]|].
  destruct (Z.eqb_spec r 0) as [E|_]; [by eapply pt_slot_nonzero in E|].
  pose proof (ext_pte _ _ _ _ _ _ _ He a Ha) as Hpte. unfold pte_of in Hpte at 1. rewrite Hslot in Hpte.
  unfold load64, store64. msimpl. rewrite Hpte, Hv.
  exists (if a =? last then inr 0 else inl (u64 (a + PGSIZE), u64 (pa + PGSIZE))).
  exists (set_mem (st64 (kmem s1) r (leaf_pte pa perm)) s1), l1, t1. split; [by destruct (a =? last)|]. split; [done|].
  right. split; [done|]. apply (pt_step_store _ _ _ _ _ _ _ a r); try done.
  - by eapply pt_ext_own.
  - by apply leaf_pte_range.
Qed.

Lemma map_page_valid g a v va : flag_set (map_page g a v va) PTE_V = false → va / PGSIZE ≠ a / PGSIZE → flag_set (g va) PTE_V = false.
Proof. unfold map_page. intros Hf Hn. by rewrite decide_False in Hf. Qed.

(** The loop. *)
Definition range_post s l t root (perm a pa n : Z) (r : res (Z * kst)) : Prop :=
  ∃ v s' l' t', r = Ok (v, s') ∧ within P t' ∧ t' !! [] = Some root ∧
    ((v = -1 ∧ l' = [] ∧ ∃ g, pt_step s l t s' l' t' g) ∨
     (v = 0 ∧ pt_step s l t s' l' t' (map_range (pte_of (kmem s) t) a n pa perm))).

Lemma map_range_one g a pa perm va : map_page g a (leaf_pte pa perm) va = map_range g a 1 pa perm va.
Proof.
  unfold map_page, map_range. destruct (decide (va / PGSIZE = a / PGSIZE)) as [E|E].
  - rewrite bool_decide_eq_true_2 by lia. f_equal. lia.
  - by rewrite bool_decide_eq_false_2 by lia.
Qed.

Lemma map_range_S g a pa perm n va : 0 ≤ n →
  map_range (map_page g a (leaf_pte pa perm)) (a + PGSIZE) n (pa + PGSIZE) perm va = map_range g a (n + 1) pa perm va.
Proof.
  intros Hn. unfold map_page, map_range. assert ((a + PGSIZE) / PGSIZE = a / PGSIZE + 1) as -> by (rewrite <-(Z.mul_1_l PGSIZE) at 1; by rewrite Z.div_add).
  destruct (decide (0 ≤ va / PGSIZE - (a / PGSIZE + 1) < n)) as [E|E].
  - rewrite !bool_decide_eq_true_2 by lia. f_equal. lia.
  - rewrite (bool_decide_eq_false_2 (0 ≤ va / PGSIZE - (a / PGSIZE + 1) < n)) by done.
    destruct (decide (va / PGSIZE = a / PGSIZE)) as [E1|E1].
    + rewrite bool_decide_eq_true_2 by lia. f_equal. lia.
    + by rewrite bool_decide_eq_false_2 by lia.
Qed.

Lemma mappages_loop n : ∀ s l t root a pa perm,
  kinv s l → pt_rep (kmem s) t → pt_own s t → t !! [] = Some root → within P t →
  0 ≤ a → a + Z.of_nat (S n) * PGSIZE ≤ MAXVA → 0 ≤ pa → pa + Z.of_nat (S n) * PGSIZE ≤ 2 ^ 56 → perm_ok perm →
  (∀ i, 0 ≤ i < Z.of_nat (S n) → on_path P (a + i * PGSIZE) ∧ flag_set (pte_of (kmem s) t (a + i * PGSIZE)) PTE_V = false) →
  range_post s l t root perm a pa (Z.of_nat (S n)) (loop (S n) (mappages_body root (a + Z.of_nat n * PGSIZE) perm) (a, pa) s).
Proof.
  induction n as [|n IH]; intros s l t root a pa perm Hk Hr Ho Hroot Hp Ha0 Hmax Hp0 Hpmax Hperm Hfree;
    pose proof (Hfree 0 ltac:(lia)) as [F1 F2]; rewrite Z.add_0_r in F1, F2.
  - destruct (mappages_body_run s l t root a pa (a + Z.of_nat 0 * PGSIZE) perm) as (r & s1 & l1 & t1 & Hb & Hp1 & Hres);
      [done..|unfold PGSIZE in *; lia|unfold PGSIZE in *; lia|done|done|].
    rewrite Z.add_0_r, Z.eqb_refl in Hres. destruct Hres as [(-> & -> & He)|(-> & He)]; rewrite (loop_done _ _ _ _ _ _ Hb).
    + exists (-1), s1, [], t1. split_and!; [done|done|by eapply lookup_weaken, (ext_sub _ _ _ _ _ _ _ He)|]. left. split_and!; [done|done|by eexists].
    + exists 0, s1, l1, t1. split_and!; [done|done|by eapply lookup_weaken, (ext_sub _ _ _ _ _ _ _ He)|]. right. split; [done|].
      eapply pt_step_proper; [|exact He]. intros va _. apply map_range_one.
  - destruct (mappages_body_run s l t root a pa (a + Z.of_nat (S n) * PGSIZE) perm) as (r & s1 & l1 & t1 & Hb & Hp1 & Hres);
      [done..|unfold PGSIZE in *; lia|unfold PGSIZE in *; lia|done|done|].
    destruct (Z.eqb_spec a (a + Z.of_nat (S n) * PGSIZE)); [unfold PGSIZE in *; lia|].
    destruct Hres as [(-> & -> & He)|(-> & He)].
    { rewrite (loop_done _ _ _ _ _ _ Hb). exists (-1), s1, [], t1.
      split_and!; [done|done|by eapply lookup_weaken, (ext_sub _ _ _ _ _ _ _ He)|]. left. split_and!; [done|done|by eexists]. }
    rewrite (loop_step _ _ _ _ _ _ Hb). rewrite MAXVA_val in Hmax. rewrite !u64_small by (unfold PGSIZE in *; lia).
    replace (a + Z.of_nat (S n) * PGSIZE) with (a + PGSIZE + Z.of_nat n * PGSIZE) by lia.
    destruct (IH s1 l1 t1 root (a + PGSIZE) (pa + PGSIZE) perm) as (v & s2 & l2 & t2 & Hl & Hp2 & Hroot2 & Hres);
      [apply He|apply He|by eapply pt_ext_own|by eapply lookup_weaken, (ext_sub _ _ _ _ _ _ _ He)|done|unfold PGSIZE in *; lia|
       rewrite MAXVA_val; unfold PGSIZE in *; lia|unfold PGSIZE in *; lia|unfold PGSIZE in *; lia|done| |].
    { intros i Hi. destruct (Hfree (i + 1) ltac:(lia)) as [G1 G2].
      replace (a + (i + 1) * PGSIZE) with (a + PGSIZE + i * PGSIZE) in G1, G2 by lia. split; [done|].
      rewrite (ext_pte _ _ _ _ _ _ _ He) by (rewrite MAXVA_val; unfold PGSIZE in *; lia).
      unfold map_page. rewrite decide_False; [done|]. replace (a + PGSIZE + i * PGSIZE) with (a + (i + 1) * PGSIZE) by lia. rewrite Z.div_add by done. lia. }
    exists v, s2, l2, t2. split_and!; [done|done|done|]. destruct Hres as [(-> & -> & g & Hg)|(-> & Hg)].
    + left. split_and!; [done|done|]. eexists. by eapply pt_step_trans.
    + right. split; [done|]. eapply pt_step_proper; [|by eapply pt_step_trans]. intros va Hva. cbv beta.
      replace (Z.of_nat (S (S n))) with (Z.of_nat (S n) + 1) by lia. rewrite <-map_range_S by lia.
      unfold map_range at 1 2. case_bool_decide; [done|]. by rewrite (ext_pte _ _ _ _ _ _ _ He).
Qed.
End range.

(** * The paths of the kernel's page table *)

Definition kpaths : list (list Z) :=
  [] :: [0] :: [2] :: [255] :: [255; 511] :: ((λ i, [0; i]) <$> zseq 96 33) ++ ((λ i, [2; i]) <$> zseq 0 64).

Definition kpath (y : list Z) : Prop := y ∈ kpaths.

Lemma on_kpath va a b : PX 2 va = a → PX 1 va = b → kpath [a] → kpath [a; b] → on_path kpath va.
Proof. intros <- <- Ha Hb [|[|[|n]]]; cbn [take]; [by left|done|done|done]. Qed.

Lemma PX2 va : PX 2 va = (va / 2 ^ 30) mod 512.
Proof. by rewrite PX_eq. Qed.
Lemma PX1 va : PX 1 va = (va / 2 ^ 21) mod 512.
Proof. by rewrite PX_eq. Qed.

Lemma kpath_low va : PLIC ≤ va < VIRTIO0 + PGSIZE → on_path kpath va.
Proof.
  intros Hv. unfold PLIC, VIRTIO0, PGSIZE in Hv. eapply on_kpath; [done|done| |]; rewrite ?PX2, ?PX1.
  - replace ((va / 2 ^ 30) mod 512) with 0; [right; by left|]. Z.to_euclidean_division_equations. lia.
  - replace ((va / 2 ^ 30) mod 512) with 0 by (Z.to_euclidean_division_equations; lia).
    do 5 right. apply elem_of_app. left. apply list_elem_of_fmap. eexists. split; [done|]. apply elem_of_zseq.
    Z.to_euclidean_division_equations. lia.
Qed.

Lemma kpath_ram va : KERNBASE ≤ va < PHYSTOP → on_path kpath va.
Proof.
  intros Hv. rewrite PHYSTOP_val in Hv. unfold KERNBASE in Hv. eapply on_kpath; [done|done| |]; rewrite ?PX2, ?PX1.
  - replace ((va / 2 ^ 30) mod 512) with 2; [right; right; by left|]. Z.to_euclidean_division_equations. lia.
  - replace ((va / 2 ^ 30) mod 512) with 2 by (Z.to_euclidean_division_equations; lia).
    do 5 right. apply elem_of_app. right. apply list_elem_of_fmap. eexists. split; [done|]. apply elem_of_zseq.
    Z.to_euclidean_division_equations. lia.
Qed.

Lemma kpath_high va : KSTACK (NPROC - 1) ≤ va < MAXVA → on_path kpath va.
Proof.
  intros Hv. unfold KSTACK, TRAMPOLINE, NPROC, PGSIZE in Hv. rewrite MAXVA_val in Hv. eapply on_kpath; [done|done| |]; rewrite ?PX2, ?PX1.
  - replace ((va / 2 ^ 30) mod 512) with 255; [do 3 right; by left|]. Z.to_euclidean_division_equations. lia.
  - replace ((va / 2 ^ 30) mod 512) with 255 by (Z.to_euclidean_division_equations; lia).
    replace ((va / 2 ^ 21) mod 512) with 511 by (Z.to_euclidean_division_equations; lia). do 4 right. by left.
Qed.

(** A tree on these paths has at most 102 pages. *)
Lemma kpaths_size t (l : list Z) ps :
  within kpath t → NoDup l → (∀ q, q ∈ l → pt_page t q ∨ q ∈ ps) → (length l ≤ 102 + length ps)%nat.
Proof.
  intros Hw Hnd Hl. assert (size t ≤ 102)%nat as Hs.
  { rewrite <-length_map_to_list, <-(length_fmap fst). change 102%nat with (length kpaths). apply submseteq_length, NoDup_submseteq.
    - apply NoDup_fst_map_to_list.
    - intros y Hy. apply list_elem_of_fmap in Hy as ([y' q] & -> & Hy%elem_of_map_to_list). apply Hw. by exists q. }
  assert (length l ≤ length ((map_to_list t).*2 ++ ps))%nat; [|rewrite length_app, length_fmap, length_map_to_list in *; lia].
  apply submseteq_length, NoDup_submseteq; [done|]. intros q [[x Hx]|Hq]%Hl; apply elem_of_app; [left|by right].
  apply list_elem_of_fmap. exists (x, q). split; [done|]. by apply elem_of_map_to_list.
Qed.

(** * Building the table *)

(** The page table [t] at [root] has the entries [g]; the pages of the free
    list [l0] at the start are still free, or in the table, or the kernel stacks
    [ps]. *)
Record kvm (l0 : list Z) (s : kst) (l : list Z) (t : ptree) (root : Z) (ps : list Z) (g : Z → Z) : Prop := {
  kv_kinv : kinv s l;
  kv_rep : pt_rep (kmem s) t;
  kv_own : pt_own s t;
  kv_root : t !! [] = Some root;
  kv_path : within kpath t;
  kv_pte : ∀ va, 0 ≤ va < MAXVA → pte_of (kmem s) t va = g va;
  kv_noleak : ∀ q, q ∈ l0 → q ∈ l ∨ pt_page t q ∨ q ∈ ps;
  kv_stack : ∀ q, q ∈ ps → valid_page q ∧ refc s q = 1 ∧ ¬ pt_page t q;
}.

Lemma kvm_proper l0 s l t root ps g g' :
  (∀ va, 0 ≤ va < MAXVA → g va = g' va) → kvm l0 s l t root ps g → kvm l0 s l t root ps g'.
Proof. intros Hg []. split; try done. intros va Hva. rewrite <-Hg by done. auto. Qed.

Lemma kvm_step l0 s l t root ps g s' l' t' g' :
  kvm l0 s l t root ps g → pt_step s l t s' l' t' g' → within kpath t' → kvm l0 s' l' t' root ps g'.
Proof.
  intros [K R Ow T W P N St] He Hw. split; [apply He|apply He|by eapply pt_ext_own| |done|apply He| |].
  - by eapply lookup_weaken, (ext_sub _ _ _ _ _ _ _ He).
  - intros q [Hq|[Hq|Hq]]%N; [|right; left; by eapply pt_page_mono, Hq; apply He|by right; right].
    destruct (ext_noleak _ _ _ _ _ _ _ He q Hq); [by left|right; by left].
  - intros q Hq. destruct (St q Hq) as (Hv & Hc & Hn). assert (q ∉ l) as Hql by (eapply kinv_notin; [done|done|lia]).
    split_and!; [done| |].
    + rewrite (ext_refc _ _ _ _ _ _ _ He); [done|apply Hv|done].
    + intros Hp. destruct (ext_new _ _ _ _ _ _ _ He q Hp) as [?|(? & _)]; done.
Qed.

Section build.
Context (l0 : list Z) (Hnd : NoDup l0).

(** Memory cannot run out. *)
Lemma kvm_enough s l t root ps g : kvm l0 s l t root ps g → (102 + length ps < length l0)%nat → l ≠ [].
Proof.
  intros [K R Ow T W P N St] Hlt ->. pose proof (kpaths_size t l0 ps W Hnd) as Hs.
  assert (length l0 ≤ 102 + length ps)%nat; [|lia]. apply Hs. intros q Hq. destruct (N q Hq) as [?%not_elem_of_nil|?]; done.
Qed.

Lemma mappages_fit s l t root ps g va pa n perm :
  kvm l0 s l t root ps g → (102 + length ps < length l0)%nat → 0 < n →
  va mod PGSIZE = 0 → 0 ≤ va → va + n * PGSIZE ≤ MAXVA → 0 ≤ pa → pa + n * PGSIZE ≤ 2 ^ 56 → perm_ok perm →
  (∀ a, va ≤ a < va + n * PGSIZE → on_path kpath a) →
  (∀ a, va ≤ a < va + n * PGSIZE → g a = 0) →
  ∃ s' l' t', mappages root va (n * PGSIZE) pa perm s = Ok (0, s') ∧ kvm l0 s' l' t' root ps (map_range g va n pa perm) ∧
    pt_step s l t s' l' t' (map_range g va n pa perm).
Proof.
  intros Hkv Hlt Hn Hal Hva Hmax Hpa Hpmax Hperm Hpath Hg. pose proof Hkv as [K R Ow T W P N St].
  destruct (mappages_loop kpath (Z.to_nat (n - 1)) s l t root va pa perm) as (v & s' & l' & t' & Hl & Hw & Ht & Hres); try done.
  { unfold PGSIZE in *. lia. } { unfold PGSIZE in *. lia. }
  { intros i Hi. split; [apply Hpath; unfold PGSIZE; lia|]. rewrite P, Hg by (unfold PGSIZE in *; lia). done. }
  replace (Z.of_nat (S (Z.to_nat (n - 1)))) with n in Hres by lia.
  replace (va + Z.of_nat (Z.to_nat (n - 1)) * PGSIZE) with (va + n * PGSIZE - PGSIZE) in Hl by (unfold PGSIZE; lia).
  assert (mappages root va (n * PGSIZE) pa perm s = Ok (v, s')) as Hm.
  { unfold mappages. rewrite Hal, Z.mod_mul by done. destruct (Z.eqb_spec (n * PGSIZE) 0); [unfold PGSIZE in *; lia|]. cbn [negb Z.eqb].
    rewrite u64_small by (rewrite MAXVA_val in *; unfold PGSIZE in *; lia). rewrite Z.div_mul by done.
    replace (Z.to_nat n) with (S (Z.to_nat (n - 1))) by lia. exact Hl. }
  destruct Hres as [(-> & -> & g' & He)|(-> & He)].
  - exfalso. by eapply (kvm_enough s' [] t' root ps g'); [eapply kvm_step| |].
  - assert (pt_step s l t s' l' t' (map_range g va n pa perm)) as He'.
    { eapply pt_step_proper; [|exact He]. intros a Ha. unfold map_range. case_bool_decide; [done|by apply P]. }
    exists s', l', t'. split_and!; [done|by eapply kvm_step|done].
Qed.

Lemma kvmmap_run s l t root ps g va pa n perm :
  kvm l0 s l t root ps g → (102 + length ps < length l0)%nat → 0 < n →
  va mod PGSIZE = 0 → 0 ≤ va → va + n * PGSIZE ≤ MAXVA → 0 ≤ pa → pa + n * PGSIZE ≤ 2 ^ 56 → perm_ok perm →
  (∀ a, va ≤ a < va + n * PGSIZE → on_path kpath a) →
  (∀ a, va ≤ a < va + n * PGSIZE → g a = 0) →
  ∃ s' l' t', kvmmap root va pa (n * PGSIZE) perm s = Ok (tt, s') ∧ kvm l0 s' l' t' root ps (map_range g va n pa perm).
Proof.
  intros. destruct (mappages_fit s l t root ps g va pa n perm) as (s' & l' & t' & Hm & Hk & _); [done..|].
  exists s', l', t'. split; [unfold kvmmap; by rewrite (bind_Ok_1 _ _ _ _ _ Hm)|done].
Qed.

(** The root. *)
Lemma kvm_root s a l : kinv s (a :: l) → l0 = a :: l → ∃ s', kalloc s = Ok (a, s') ∧ a ≠ 0 ∧
  kvm l0 (set_mem (memset (kmem s') a 0 PGSIZE) s') l {[ [] := a ]} a [] (λ _, 0) ∧
  (∀ q, q mod PGSIZE = 0 → q ≠ a → refc s' q = refc s q ∧ same_page (memset (kmem s') a 0 PGSIZE) (kmem s) q).
Proof.
  intros Hk E0. destruct (kalloc_cons s a l Hk) as (s' & Hrun & Hk1 & Hc & Hcb & Hm & _).
  pose proof Hk as [_ Hd Hv _]. apply Forall_cons in Hv as [Ha Hv]. apply NoDup_cons in Hd as [Hal _].
  exists s'. split; [done|]. split; [pose proof (valid_page_pos _ Ha); unfold KERNBASE in *; lia|]. split; [split|].
  - destruct Hk1 as [K1 K2 K3 K4]. split; [|done..]. cbn. eapply fl_rep_ext; [|exact K1]. intros q Hq. symmetry.
    apply same_page_first, same_page_memset; [by apply (proj1 (Forall_forall _ _) K3 q Hq)|apply Ha|by intros ->].
  - apply pt_rep_root; [done|]. intros i Hi. apply ld64_memset_0; unfold PGSIZE; lia.
  - intros q [x [_ <-]%lookup_singleton_Some]. done.
  - apply lookup_singleton_eq.
  - intros y [q [<- _]%lookup_singleton_Some]. by left.
  - intros va _. unfold pte_of, pt_slot. by rewrite lookup_singleton_ne.
  - intros q Hq. rewrite E0 in Hq. apply elem_of_cons in Hq as [->|Hq]; [right; left; exists []; apply lookup_singleton_eq|by left].
  - intros q Hq. by apply not_elem_of_nil in Hq.
  - intros q Hq Hne. split; [by apply Hcb|]. eapply same_page_trans; [|by apply Hm].
    apply same_page_memset; [done|apply Ha|done].
Qed.

(** A page for a kernel stack. *)
Lemma kvm_kalloc s l t root ps g : kvm l0 s l t root ps g → (102 + length ps < length l0)%nat →
  ∃ a s' l', kalloc s = Ok (a, s') ∧ a ≠ 0 ∧ a ∉ ps ∧ valid_page a ∧ kvm l0 s' l' t root (ps ++ [a]) g.
Proof.
  intros Hkv Hlt. pose proof (kvm_enough s l t root ps g Hkv Hlt) as Hne. destruct l as [|a l]; [done|].
  pose proof Hkv as [K R Ow T W P N St]. destruct (kalloc_cons s a l K) as (s' & Hrun & Hk1 & Hc & Hcb & Hm & _).
  pose proof K as [_ _ Hv _]. apply Forall_cons in Hv as [Ha _].
  assert (¬ pt_page t a) as Hna by (intros Hp; eapply (pt_own_notin _ s (a :: l) t a); [done..|by left]).
  assert (a ∉ ps) as Hnp by (intros (_ & Hc' & _)%St; eapply (kinv_notin s (a :: l) a); [done|done|lia|by left]).
  assert (∀ q, pt_page t q → q ≠ a) as Hqa by (by intros q Hq ->).
  assert (∀ q, pt_page t q → same_page (kmem s') (kmem s) q) as Hsame.
  { intros q Hq. apply Hm; [by eapply pt_page_aligned|by apply Hqa]. }
  exists a, s', l. split_and!; [done|pose proof (valid_page_pos _ Ha); unfold KERNBASE in *; lia|done|done|]. split; [done| | |done|done| | |].
  - eapply pt_rep_frame; [|exact R]. intros q Hq. by apply same_page_sym, Hsame.
  - intros q Hq. rewrite Hcb; [by apply Ow|by eapply pt_page_aligned|by apply Hqa].
  - intros va Hva. rewrite <-P by done. apply pte_of_frame. done.
  - intros q [Hq|[Hq|Hq]]%N; [|by right; left|right; right; apply elem_of_app; by left].
    apply elem_of_cons in Hq as [->|Hq]; [right; right; apply elem_of_app; right; by left|by left].
  - intros q [Hq| ->%list_elem_of_singleton]%elem_of_app; [|done]. destruct (St q Hq) as (Hvq & Hcq & Hnq).
    split_and!; [done| |done]. rewrite Hcb; [done|apply Hvq|by intros ->].
Qed.
End build.

(** * The map *)

Definition RW : Z := Z.lor PTE_R PTE_W.
Definition RX : Z := Z.lor PTE_R PTE_X.

(** The addresses that are mapped to themselves: devices, code and data. *)
Definition direct_perm (va : Z) : option Z :=
  if bool_decide (UART0 ≤ va < UART0 + PGSIZE ∨ VIRTIO0 ≤ va < VIRTIO0 + PGSIZE ∨ PLIC ≤ va < PLIC + 0x4000000) then Some RW
  else if bool_decide (KERNBASE ≤ va < kernel_etext) then Some RX
  else if bool_decide (kernel_etext ≤ va < PHYSTOP) then Some RW
  else None.

(** The stack page of an address: the stacks are the second, fourth, ... page
    below the trampoline. *)
Definition stack_at (ps : list Z) (va : Z) : option Z :=
  let k := TRAMPOLINE / PGSIZE - va / PGSIZE in
  if (0 <? k) && (k mod 2 =? 0) then ps !! Z.to_nat (k / 2 - 1) else None.

Definition kernel_map (ps : list Z) (va : Z) : Z :=
  match direct_perm va with
  | Some perm => leaf_pte (va / PGSIZE * PGSIZE) perm
  | None =>
      if TRAMPOLINE <=? va then leaf_pte kernel_trampoline RX
      else match stack_at ps va with Some pa => leaf_pte pa RW | None => 0 end
  end.

Lemma in_range base n va : base mod PGSIZE = 0 → 0 ≤ va / PGSIZE - base / PGSIZE < n ↔ base ≤ va < base + n * PGSIZE.
Proof. intros Hb. unfold PGSIZE in *. Z.to_euclidean_division_equations. lia. Qed.

Lemma map_range_direct g base n perm va : base mod PGSIZE = 0 →
  map_range g base n base perm va = if bool_decide (base ≤ va < base + n * PGSIZE) then leaf_pte (va / PGSIZE * PGSIZE) perm else g va.
Proof.
  intros Hb. unfold map_range. rewrite (bool_decide_ext _ _ (in_range base n va Hb)). case_bool_decide; [|done]. f_equal.
  unfold PGSIZE in *. Z.to_euclidean_division_equations. lia.
Qed.

(** One region that is mapped to itself. *)
Definition add_direct (base n perm : Z) (g : Z → Z) (va : Z) : Z :=
  if bool_decide (base ≤ va < base + n * PGSIZE) then leaf_pte (va / PGSIZE * PGSIZE) perm else g va.

Lemma kvmmap_direct l0 s l t root g base n perm :
  NoDup l0 → kvm l0 s l t root [] g → (102 < length l0)%nat → 0 < n → base mod PGSIZE = 0 → 0 ≤ base → base + n * PGSIZE ≤ PHYSTOP →
  perm_ok perm → (∀ a, base ≤ a < base + n * PGSIZE → on_path kpath a) → (∀ a, base ≤ a < base + n * PGSIZE → g a = 0) →
  ∃ s' l' t', kvmmap root base base (n * PGSIZE) perm s = Ok (tt, s') ∧ kvm l0 s' l' t' root [] (add_direct base n perm g).
Proof.
  intros Hnd Hkv Hlt Hn Hb H0' Hmax Hperm Hp Hg. rewrite PHYSTOP_val in Hmax.
  destruct (kvmmap_run l0 Hnd s l t root [] g base base n perm) as (s' & l' & t' & E & Hkv'); try done; [rewrite MAXVA_val; unfold PGSIZE in *; lia|unfold PGSIZE in *; lia|].
  exists s', l', t'. split; [done|]. eapply kvm_proper; [|exact Hkv']. intros va _. by apply map_range_direct.
Qed.

Definition fixed_map : Z → Z :=
  add_direct kernel_etext ((PHYSTOP - kernel_etext) / PGSIZE) RW
    (add_direct KERNBASE ((kernel_etext - KERNBASE) / PGSIZE) RX
       (add_direct PLIC 16384 RW (add_direct VIRTIO0 1 RW (add_direct UART0 1 RW (λ _, 0))))).

Lemma add_direct_out base n perm g va : ¬ (base ≤ va < base + n * PGSIZE) → add_direct base n perm g va = g va.
Proof. intros Hn. unfold add_direct. by rewrite bool_decide_eq_false_2. Qed.

Lemma text_pages : (kernel_etext - KERNBASE) / PGSIZE * PGSIZE = kernel_etext - KERNBASE ∧ 0 < (kernel_etext - KERNBASE) / PGSIZE.
Proof.
  pose proof kernel_etext_aligned. pose proof kernel_etext_range. unfold PGSIZE, KERNBASE in *. Z.to_euclidean_division_equations. lia.
Qed.
Lemma data_pages : kernel_etext < PHYSTOP →
  (PHYSTOP - kernel_etext) / PGSIZE * PGSIZE = PHYSTOP - kernel_etext ∧ 0 < (PHYSTOP - kernel_etext) / PGSIZE.
Proof.
  pose proof kernel_etext_aligned. pose proof kernel_etext_range. rewrite PHYSTOP_val. unfold PGSIZE, KERNBASE in *.
  Z.to_euclidean_division_equations. lia.
Qed.

Ltac kvm_zero := intros; unfold fixed_map; rewrite !add_direct_out by kvm_lia; done.

Lemma kvmmake_fixed l0 s l t root :
  NoDup l0 → kvm l0 s l t root [] (λ _, 0) → (102 < length l0)%nat → kernel_etext < PHYSTOP → ∃ s' l' t',
  (kvmmap root UART0 UART0 PGSIZE RW ;; kvmmap root VIRTIO0 VIRTIO0 PGSIZE RW ;; kvmmap root PLIC PLIC 0x4000000 RW ;;
   kvmmap root KERNBASE KERNBASE (kernel_etext - KERNBASE) RX ;;
   kvmmap root kernel_etext kernel_etext (PHYSTOP - kernel_etext) RW) s = Ok (tt, s') ∧ kvm l0 s' l' t' root [] fixed_map.
Proof.
  intros Hnd Hk Hlt He. destruct text_pages as [Et Ht], (data_pages He) as [Ed Hd]. pose proof kernel_etext_range as Hr.
  destruct (kvmmap_direct l0 s l t root _ UART0 1 RW Hnd Hk Hlt) as (s1 & l1 & t1 & E1 & K1);
    [done|done|done|done|done|intros; apply kpath_low; kvm_lia|done|].
  destruct (kvmmap_direct l0 s1 l1 t1 root _ VIRTIO0 1 RW Hnd K1 Hlt) as (s2 & l2 & t2 & E2 & K2);
    [done|done|done|done|done|intros; apply kpath_low; kvm_lia|kvm_zero|].
  destruct (kvmmap_direct l0 s2 l2 t2 root _ PLIC 16384 RW Hnd K2 Hlt) as (s3 & l3 & t3 & E3 & K3);
    [done|done|done|done|done|intros; apply kpath_low; kvm_lia|kvm_zero|].
  destruct (kvmmap_direct l0 s3 l3 t3 root _ KERNBASE ((kernel_etext - KERNBASE) / PGSIZE) RX Hnd K3 Hlt) as (s4 & l4 & t4 & E4 & K4);
    [done|done|done|lia|done|rewrite Et; intros; apply kpath_ram; lia|rewrite Et; kvm_zero|].
  destruct (kvmmap_direct l0 s4 l4 t4 root _ kernel_etext ((PHYSTOP - kernel_etext) / PGSIZE) RW Hnd K4 Hlt) as (s5 & l5 & t5 & E5 & K5);
    [done|apply kernel_etext_aligned|kvm_lia|lia|done|rewrite Ed; intros; apply kpath_ram; lia| |].
  { rewrite Ed. intros a Ha. rewrite add_direct_out by (rewrite Et; lia). rewrite !add_direct_out by kvm_lia. done. }
  exists s5, l5, t5. split; [|exact K5]. rewrite Et in E4. rewrite Ed in E5.
  change (1 * PGSIZE) with PGSIZE in E1, E2. change (16384 * PGSIZE) with 0x4000000 in E3.
  mstep_with E1. mstep_with E2. mstep_with E3. mstep_with E4. exact E5.
Qed.

(** The trampoline and the stacks lie above everything that is mapped
    directly. *)
Lemma direct_high va : PHYSTOP ≤ va → direct_perm va = None.
Proof.
  intros Hv. pose proof kernel_etext_range. pose proof kernel_end_range. unfold direct_perm.
  rewrite !bool_decide_eq_false_2 by kvm_lia. done.
Qed.

Lemma fixed_map_direct va : kernel_etext < PHYSTOP →
  fixed_map va = match direct_perm va with Some perm => leaf_pte (va / PGSIZE * PGSIZE) perm | None => 0 end.
Proof.
  intros He. destruct text_pages as [Et _], (data_pages He) as [Ed _]. pose proof kernel_etext_range as Hr.
  unfold fixed_map, add_direct, direct_perm. rewrite Et, Ed. change (16384 * PGSIZE) with 0x4000000. rewrite !Z.mul_1_l.
  repeat case_bool_decide; try done; kvm_lia.
Qed.

Lemma kernel_map_start va : kernel_etext < PHYSTOP → 0 ≤ va < MAXVA →
  map_range fixed_map TRAMPOLINE 1 kernel_trampoline RX va = kernel_map [] va.
Proof.
  intros He Hv. unfold map_range, kernel_map. rewrite fixed_map_direct by done.
  rewrite (bool_decide_ext _ _ (in_range TRAMPOLINE 1 va eq_refl)). case_bool_decide as Ht.
  - rewrite direct_high by kvm_lia. destruct (Z.leb_spec TRAMPOLINE va); [|lia]. f_equal.
    assert (va / PGSIZE = TRAMPOLINE / PGSIZE) as ->; [|lia]. unfold TRAMPOLINE, PGSIZE in *. rewrite MAXVA_val in *.
    Z.to_euclidean_division_equations. lia.
  - destruct (direct_perm va); [done|]. destruct (Z.leb_spec TRAMPOLINE va); [unfold TRAMPOLINE, PGSIZE in *; lia|].
    unfold stack_at. by destruct (_ && _).
Qed.

Lemma KSTACK_page p : KSTACK p / PGSIZE = TRAMPOLINE / PGSIZE - 2 * (p + 1).
Proof. unfold KSTACK. replace (TRAMPOLINE - (p + 1) * 2 * PGSIZE) with (TRAMPOLINE + - (2 * (p + 1)) * PGSIZE) by lia. rewrite Z.div_add by done. lia. Qed.

Lemma kernel_map_stack ps a va : Z.of_nat (length ps) < NPROC → 0 ≤ va < MAXVA →
  map_range (kernel_map ps) (KSTACK (Z.of_nat (length ps))) 1 a RW va = kernel_map (ps ++ [a]) va.
Proof.
  intros Hn Hv. set (p := Z.of_nat (length ps)) in *. unfold map_range. rewrite KSTACK_page.
  set (k := TRAMPOLINE / PGSIZE - va / PGSIZE). replace (va / PGSIZE - (TRAMPOLINE / PGSIZE - 2 * (p + 1))) with (2 * (p + 1) - k) by lia.
  unfold kernel_map, stack_at. fold k. case_bool_decide as Hk.
  - assert (k = 2 * (p + 1)) as Ek by lia. unfold NPROC in Hn.
    assert (PHYSTOP ≤ va < TRAMPOLINE) as Hhi.
    { rewrite PHYSTOP_val. unfold k, TRAMPOLINE, PGSIZE in *. rewrite MAXVA_val in *. Z.to_euclidean_division_equations. lia. }
    rewrite direct_high by lia. destruct (Z.leb_spec TRAMPOLINE va); [lia|].
    replace (k mod 2) with 0 by (rewrite Ek, Z.mul_comm; symmetry; by apply Z.mod_mul).
    rewrite (proj2 (Z.ltb_lt 0 k)) by lia. cbn [andb Z.eqb].
    replace (k / 2 - 1) with p by (rewrite Ek; clear; Z.to_euclidean_division_equations; lia).
    unfold p. rewrite Nat2Z.id, lookup_app_r, Nat.sub_diag by lia. cbn. f_equal. lia.
  - destruct (direct_perm va); [done|]. destruct (TRAMPOLINE <=? va); [done|].
    destruct (Z.ltb_spec 0 k) as [H1|], (Z.eqb_spec (k mod 2) 0) as [H2|]; cbn [andb]; [|done..].
    destruct (decide (k / 2 - 1 < p)) as [Hl|Hl]; [rewrite lookup_app_l by (clearbody k; Z.to_euclidean_division_equations; lia); done|].
    clearbody k.
    rewrite !lookup_ge_None_2; [done|rewrite length_app; cbn|]; Z.to_euclidean_division_equations; lia.
Qed.

Lemma KSTACK_range p : 0 ≤ p < NPROC →
  KSTACK (NPROC - 1) ≤ KSTACK p ∧ KSTACK p + PGSIZE ≤ TRAMPOLINE - PGSIZE ∧ KSTACK p mod PGSIZE = 0 ∧ PHYSTOP ≤ KSTACK p.
Proof.
  intros Hp. rewrite PHYSTOP_val. unfold KSTACK, TRAMPOLINE, NPROC, PGSIZE in *. rewrite MAXVA_val in *.
  Z.to_euclidean_division_equations. lia.
Qed.

Lemma kernel_map_none ps a : Z.of_nat (length ps) < NPROC →
  KSTACK (Z.of_nat (length ps)) ≤ a < KSTACK (Z.of_nat (length ps)) + PGSIZE → kernel_map ps a = 0.
Proof.
  intros Hn Ha. set (p := Z.of_nat (length ps)) in *. destruct (KSTACK_range p) as (_ & R1 & R2 & R3); [lia|].
  assert (a / PGSIZE = KSTACK p / PGSIZE) as Ea.
  { unfold PGSIZE in *. Z.to_euclidean_division_equations. lia. }
  unfold kernel_map, stack_at. rewrite direct_high by lia. destruct (Z.leb_spec TRAMPOLINE a); [unfold PGSIZE in *; lia|].
  rewrite Ea, KSTACK_page. replace (TRAMPOLINE / PGSIZE - (TRAMPOLINE / PGSIZE - 2 * (p + 1))) with ((p + 1) * 2) by lia.
  rewrite Z.mod_mul, Z.div_mul by done. rewrite (proj2 (Z.ltb_lt _ _)) by lia. cbn [andb Z.eqb].
  by rewrite lookup_ge_None_2 by lia.
Qed.

Section run.
Context (l0 : list Z) (Hnd : NoDup l0) (Hlen : (166 < length l0)%nat).

Lemma mapstacks_run root n : ∀ s l t ps,
  kvm l0 s l t root ps (kernel_map ps) → NoDup ps → (length ps + n = Z.to_nat NPROC)%nat →
  ∃ s' l' t' ps', foreach (zseq (Z.of_nat (length ps)) n)
      (λ p, pa ← kalloc; if pa =? 0 then panic "kalloc" else kvmmap root (KSTACK p) pa PGSIZE RW) s = Ok (tt, s') ∧
    kvm l0 s' l' t' root ps' (kernel_map ps') ∧ NoDup ps' ∧ length ps' = Z.to_nat NPROC.
Proof.
  induction n as [|n IH]; intros s l t ps Hk Hps Hl.
  - exists s, l, t, ps. split_and!; [done..|lia].
  - assert (Z.to_nat NPROC = 64%nat) as E64 by done. assert (NPROC = 64) as EN by done.
    rewrite zseq_S. cbn [foreach]. set (p := Z.of_nat (length ps)) in *.
    destruct (kvm_kalloc l0 Hnd s l t root ps _ Hk) as (a & s1 & l1 & E1 & Ha0 & Hna & Hv & K1); [lia|].
    destruct (KSTACK_range p) as (R1 & R2 & R3 & R4); [lia|]. pose proof (valid_page_pa a Hv).
    pose proof (valid_page_pos a Hv) as Hpos. rewrite PHYSTOP_val in Hpos, R4.
    destruct (kvmmap_run l0 Hnd s1 l1 t root (ps ++ [a]) (kernel_map ps) (KSTACK p) a 1 RW) as (s2 & l2 & t2 & E2 & K2);
      [done|rewrite length_app; cbn; lia|done|done|lia|kvm_lia|lia|unfold PGSIZE; lia|done| | |].
    { intros b Hb. apply kpath_high. kvm_lia. }
    { intros b Hb. apply kernel_map_none; [lia|fold p; lia]. }
    destruct (IH s2 l2 t2 (ps ++ [a])) as (s' & l' & t' & ps' & E3 & K3 & R).
    + eapply kvm_proper; [|exact K2]. intros va Hva. apply kernel_map_stack; [lia|done].
    + apply NoDup_app. split_and!; [done| |apply NoDup_singleton]. intros q Hq ->%list_elem_of_singleton. done.
    + rewrite length_app. cbn. lia.
    + exists s', l', t', ps'. split; [|done]. rewrite Z.mul_1_l in E2.
      erewrite bind_Ok_1; [|rewrite (bind_Ok_1 _ _ _ _ _ E1); destruct (Z.eqb_spec a 0); [done|exact E2]].
      replace (p + 1) with (Z.of_nat (length (ps ++ [a]))) by (rewrite length_app; cbn; lia). exact E3.
Qed.
End run.

Lemma kvmmake_high l0 s l t root :
  NoDup l0 → kvm l0 s l t root [] fixed_map → (166 < length l0)%nat → kernel_etext < PHYSTOP → ∃ s' l' t' ps,
  (kvmmap root TRAMPOLINE kernel_trampoline PGSIZE RX ;; proc_mapstacks root) s = Ok (tt, s') ∧
  kvm l0 s' l' t' root ps (kernel_map ps) ∧ NoDup ps ∧ length ps = Z.to_nat NPROC.
Proof.
  intros Hnd Hk Hlen He. pose proof kernel_trampoline_range as Ht. pose proof kernel_etext_range as Hr.
  destruct (kvmmap_run l0 Hnd s l t root [] fixed_map TRAMPOLINE kernel_trampoline 1 RX Hk) as (s1 & l1 & t1 & E1 & K1);
    [change (length (@nil Z)) with 0%nat; lia|lia|by vm_compute|by vm_compute|rewrite Z.mul_1_l; kvm_lia|unfold KERNBASE in *; lia|kvm_lia|done| | |].
  { intros b Hb. apply kpath_high. unfold KSTACK, NPROC. kvm_lia. }
  { intros b Hb. rewrite fixed_map_direct, direct_high by (done || kvm_lia). done. }
  rewrite Z.mul_1_l in E1.
  destruct (mapstacks_run l0 Hnd Hlen root (Z.to_nat NPROC) s1 l1 t1 []) as (s2 & l2 & t2 & ps & E2 & R).
  { eapply kvm_proper; [|exact K1]. intros va Hva. by apply kernel_map_start. } { constructor. } { done. }
  exists s2, l2, t2, ps. split; [|done]. mstep_with E1. exact E2.
Qed.

Lemma kvmmake_run s l : kinv s l → (166 < length l)%nat → kernel_etext < PHYSTOP →
  ∃ root s' l' t ps, kvmmake s = Ok (root, s') ∧ kvm l s' l' t root ps (kernel_map ps) ∧ NoDup ps ∧ length ps = Z.to_nat NPROC.
Proof.
  intros Hk Hlen He. pose proof Hk as [_ Hnd _ _]. destruct l as [|a l]; [cbn in Hlen; lia|].
  destruct (kvm_root (a :: l) s a l Hk eq_refl) as (s1 & E1 & Ha & K1 & _).
  destruct (kvmmake_fixed (a :: l) _ l _ a Hnd K1) as (s3 & l3 & t3 & E3 & K3); [lia|done|].
  destruct (kvmmake_high (a :: l) s3 l3 t3 a Hnd K3 Hlen He) as (s4 & l4 & t4 & ps & E4 & R).
  exists a, s4, l4, t4, ps. split; [|exact R]. unfold kvmmake. fold RW RX. mstep_with E1. rewrite (proj2 (Z.eqb_neq a 0) Ha).
  erewrite bind_Ok_1 by reflexivity. clear E1 K1.
  apply bind_Ok in E3 as ([] & s31 & X1 & E3). mstep_with X1. apply bind_Ok in E3 as ([] & s32 & X2 & E3). mstep_with X2.
  apply bind_Ok in E3 as ([] & s33 & X3 & E3). mstep_with X3. apply bind_Ok in E3 as ([] & s34 & X4 & E3). mstep_with X4. mstep_with E3.
  apply bind_Ok in E4 as ([] & s41 & X5 & E4). mstep_with X5. mstep_with E4. reflexivity.
Qed.

(** * Permissions *)

Lemma leaf_perm_bit pa perm k : 0 < k < 10 → flag_set (leaf_pte pa perm) (2 ^ k) = Z.testbit perm k.
Proof.
  intros Hk. rewrite flag_set_spec by lia. unfold leaf_pte, PA2PTE, u64.
  rewrite !Z.lor_spec, Z.mod_pow2_bits_low, Z.shiftl_spec_low by lia.
  change PTE_V with (2 ^ 0). rewrite (Z.pow2_bits_false 0 k) by lia. by rewrite orb_false_r.
Qed.

(** No address is open to user programs, and none is both writable and
    executable. *)
Lemma kernel_map_flags ps va :
  flag_set (kernel_map ps va) PTE_U = false ∧ flag_set (kernel_map ps va) PTE_W && flag_set (kernel_map ps va) PTE_X = false.
Proof.
  change PTE_U with (2 ^ 4). change PTE_W with (2 ^ 2). change PTE_X with (2 ^ 3).
  assert (∀ pa perm, perm = RW ∨ perm = RX → flag_set (leaf_pte pa perm) (2 ^ 4) = false ∧
    flag_set (leaf_pte pa perm) (2 ^ 2) && flag_set (leaf_pte pa perm) (2 ^ 3) = false) as Hl.
  { intros pa perm Hp. rewrite !leaf_perm_bit by lia. by destruct Hp as [-> | ->]. }
  unfold kernel_map. destruct (direct_perm va) as [perm|] eqn:Ed.
  - apply Hl. unfold direct_perm in Ed. repeat case_bool_decide; simplify_eq; auto.
  - case_match; [apply Hl; by right|]. case_match; [apply Hl; by left|]. done.
Qed.

(** The page below each stack is not mapped. *)
Lemma kernel_map_guard ps p : 0 ≤ p < NPROC → kernel_map ps (KSTACK p - PGSIZE) = 0.
Proof.
  intros Hp. destruct (KSTACK_range p Hp) as (_ & R1 & R2 & R3). unfold kernel_map, stack_at.
  assert (PHYSTOP ≤ KSTACK p - PGSIZE) as Hhi.
  { unfold KSTACK, TRAMPOLINE, NPROC, PGSIZE in *. rewrite PHYSTOP_val, MAXVA_val in *. lia. }
  rewrite direct_high by done. destruct (Z.leb_spec TRAMPOLINE (KSTACK p - PGSIZE)); [unfold PGSIZE in *; lia|].
  replace ((KSTACK p - PGSIZE) / PGSIZE) with (KSTACK p / PGSIZE - 1).
  2: { replace (KSTACK p - PGSIZE) with (KSTACK p + (-1) * PGSIZE) by lia. by rewrite Z.div_add. }
  rewrite KSTACK_page. replace (TRAMPOLINE / PGSIZE - _) with (1 + (p + 1) * 2) by lia. rewrite Z.mod_add by done.
  by rewrite andb_false_r.
Qed.

(** The number of pages that are free at the start. *)
Lemma free_pages (n : nat) l : kernel_end + Z.of_nat n * PGSIZE ≤ PHYSTOP → (∀ a, a ∈ l ↔ valid_page a) → (n ≤ length l)%nat.
Proof.
  intros Hn Hl. rewrite <-(length_zseq 1 n), <-(length_fmap (λ i, PHYSTOP - i * PGSIZE)).
  apply submseteq_length, NoDup_submseteq.
  - apply NoDup_fmap_2; [|apply NoDup_zseq]. intros i j E. unfold PGSIZE in E. lia.
  - intros a Ha. apply list_elem_of_fmap in Ha as (i & -> & Hi%elem_of_zseq). apply Hl. split; [|split; unfold PGSIZE in *; lia].
    rewrite PHYSTOP_val. unfold PGSIZE. Z.to_euclidean_division_equations. lia.
Qed.
End kvm.

(** C19: on a machine with at least 200 pages of memory behind the kernel,
    [kinit] followed by [kvmmake] builds the kernel's page table: devices,
    code and data are mapped to themselves (code read-only, data not executable), the
    trampoline at the top, and for each process a stack in a page of its own
    with an unmapped guard page below it; everything else is unmapped, no
    entry is open to user programs or both writable and executable, and
    every page is free, or part of the table, or a stack. *)
Theorem kernel_page_table `{KernelImage} `{!KernelImageOk} (s : kst) :
  freelist s = 0 → kernel_end + 200 * PGSIZE ≤ PHYSTOP →
  ∃ root s' l t ps, (kinit ;; kvmmake) s = Ok (root, s') ∧
    kinv s' l ∧ pt_rep (kmem s') t ∧ t !! [] = Some root ∧
    (∀ va, 0 ≤ va < MAXVA → pte_of (kmem s') t va = kernel_map ps va) ∧
    Z.of_nat (length ps) = NPROC ∧ NoDup ps ∧
    (∀ q, valid_page q → q ∈ l ∨ pt_page t q ∨ q ∈ ps) ∧
    (∀ q, q ∈ ps → valid_page q ∧ q ∉ l ∧ ¬ pt_page t q) ∧
    (∀ va, flag_set (kernel_map ps va) PTE_U = false ∧
           flag_set (kernel_map ps va) PTE_W && flag_set (kernel_map ps va) PTE_X = false) ∧
    (∀ p, 0 ≤ p < NPROC → kernel_map ps (KSTACK p - PGSIZE) = 0).
Proof.
  intros Hf Hend. destruct (kinit_ok s Hf) as (s1 & l1 & E1 & K1 & Hl).
  pose proof (free_pages 200 l1 Hend Hl) as Hlen. pose proof kernel_etext_range.
  destruct (kvmmake_run s1 l1 K1) as (root & s2 & l2 & t & ps & E2 & Hk & Hnd & Hps); [lia|unfold PGSIZE in *; lia|].
  exists root, s2, l2, t, ps. split; [by mstep_with E1|]. destruct Hk as [K R Ow T W P N St].
  split_and!; [done|done|done|exact P|by rewrite Hps|done| | |apply kernel_map_flags|apply kernel_map_guard].
  - intros q Hq. by apply N, Hl.
  - intros q Hq. destruct (St q Hq) as (Hv & Hc & Hn). split_and!; [done| |done]. eapply kinv_notin; [done|done|lia].
Qed.

(** A machine with 500 free pages. *)
Module Roomy.
#[export] Instance image : KernelImage := {|
  kernel_end := PHYSTOP - 500 * PGSIZE;
  kernel_etext := KERNBASE + 7 * PGSIZE;
  kernel_trampoline := KERNBASE + 6 * PGSIZE;
|}.
#[export] Instance image_ok : KernelImageOk.
Proof. split; by vm_compute. Qed.

Lemma kernel_page_table_witness : ∃ root s' l t (ps : list Z), (kinit ;; kvmmake) (KState ∅ 0 ∅) = Ok (root, s') ∧ kinv s' l ∧
  pte_of (kmem s') t UART0 = leaf_pte UART0 RW ∧ pte_of (kmem s') t (KSTACK 0 - PGSIZE) = 0 ∧ length ps = 64%nat.
Proof.
  assert (kernel_end + 200 * PGSIZE ≤ PHYSTOP) as Hroom by (vm_compute; discriminate).
  assert (freelist (KState ∅ 0 ∅) = 0) as Hfree by reflexivity.
  assert (0 ≤ UART0 < MAXVA ∧ 0 ≤ KSTACK 0 - PGSIZE < MAXVA ∧ 0 ≤ 0 < NPROC) as (H1 & H2 & H3) by (by vm_compute).
  assert (∀ ps, kernel_map ps UART0 = leaf_pte UART0 RW) as H4 by (intros ps; vm_compute; reflexivity).
  destruct (kernel_page_table (KState ∅ 0 ∅) Hfree Hroom)
    as (root & s' & l & t & ps & E & K & _ & _ & P & L & _ & _ & _ & _ & G).
  exists root, s', l, t, ps. split; [exact E|]. split; [exact K|]. split; [exact (eq_trans (P _ H1) (H4 ps))|].
  split; [exact (eq_trans (P _ H2) (G 0 H3))|]. apply Nat2Z.inj. exact L.
Defined.
End Roomy.
