(* ===== verification/Hart.v ===== *)
(** A RISC-V hart, as far as the kernel's assembly files and [kernel/start.c]
    use one: the integer registers, the control and status registers, address
    translation, the instructions of those files, and the accessors of
    [kernel/riscv.h].

    The rules are those of the RISC-V privileged architecture.  What it leaves
    to the implementation, the bits of a control register that can be written,
    is the parameter [keep]. *)

From S2P Require Import Prelude Riscv Mem Str Kalloc Vm.

Module Gpr.
Inductive reg :=
  | zero | ra | sp | gp | tp | t0 | t1 | t2 | s0 | s1
  | a0 | a1 | a2 | a3 | a4 | a5 | a6 | a7
  | s2 | s3 | s4 | s5 | s6 | s7 | s8 | s9 | s10 | s11 | t3 | t4 | t5 | t6.
End Gpr.
Abbreviation reg := Gpr.reg.

Module Csr.
Inductive csr :=
  | mhartid | mstatus | mepc | medeleg | mideleg | mie | menvcfg | mcounteren | pmpcfg0 | pmpaddr0
  | sstatus | sip | sie | sepc | stvec | sscratch | scause | stval | satp | stimecmp | time.
End Csr.
Abbreviation csr := Csr.csr.

#[export] Instance reg_eq_dec : EqDecision reg.
Proof. solve_decision. Defined.
#[export] Instance csr_eq_dec : EqDecision csr.
Proof. solve_decision. Defined.

(** Privilege levels. *)
Definition PRV_U : Z := 0.
Definition PRV_S : Z := 1.
Definition PRV_M : Z := 3.

Record core := Core {
  c_x : reg → Z;
  c_csr : csr → Z;
  c_priv : Z;
  c_pc : Z;
  c_ram : memory;
}.

Definition upd {A} `{EqDecision A} (f : A → Z) (a : A) (v : Z) : A → Z := λ b, if decide (a = b) then v else f b.

Lemma upd_eq {A} `{EqDecision A} (f : A → Z) a v : upd f a v a = v.
Proof. unfold upd. by rewrite decide_True. Qed.
Lemma upd_ne {A} `{EqDecision A} (f : A → Z) a b v : a ≠ b → upd f a v b = f b.
Proof. intros. unfold upd. by rewrite decide_False. Qed.

Definition set_x (r : reg) (v : Z) (c : core) : core :=
  if decide (r = Gpr.zero) then c else Core (upd (c_x c) r (u64 v)) (c_csr c) (c_priv c) (c_pc c) (c_ram c).
Definition set_csr (k : csr) (v : Z) (c : core) : core :=
  Core (c_x c) (upd (c_csr c) k v) (c_priv c) (c_pc c) (c_ram c).
Definition set_priv (v : Z) (c : core) : core := Core (c_x c) (c_csr c) v (c_pc c) (c_ram c).
Definition set_pc (v : Z) (c : core) : core := Core (c_x c) (c_csr c) (c_priv c) (u64 v) (c_ram c).
Definition set_ram (m : memory) (c : core) : core := Core (c_x c) (c_csr c) (c_priv c) (c_pc c) m.

(** * Control and status registers *)

(** The bits of [mstatus] that [sstatus] shows. *)
Definition SSTATUS_BITS : Z := 0x80000003000DE762.

(** Bit fields of [mstatus]. *)
Definition SIE_BIT : Z := 1.
Definition SPIE_BIT : Z := 5.
Definition MIE_BIT : Z := 3.
Definition MPIE_BIT : Z := 7.
Definition SPP_BIT : Z := 8.

Definition set_bit (b : Z) (v : bool) (x : Z) : Z := if v then Z.setbit x b else Z.clearbit x b.

Lemma set_bit_eq b v x : 0 ≤ b → Z.testbit (set_bit b v x) b = v.
Proof. intros. destruct v; [by apply Z.setbit_eq|apply Z.clearbit_eq]. Qed.
Lemma set_bit_ne b n v x : 0 ≤ b → n ≠ b → Z.testbit (set_bit b v x) n = Z.testbit x n.
Proof. intros. destruct v; [by apply Z.setbit_neq|by apply Z.clearbit_neq]. Qed.

(** The lowest privilege level that may access a register. *)
Definition csr_level (k : csr) : Z :=
  match k with
  | Csr.mhartid | Csr.mstatus | Csr.mepc | Csr.medeleg | Csr.mideleg | Csr.mie | Csr.menvcfg
  | Csr.mcounteren | Csr.pmpcfg0 | Csr.pmpaddr0 => PRV_M
  | Csr.time => PRV_U
  | _ => PRV_S
  end.

Section hart.
Context (keep : csr → Z → Z).

(** [sstatus] and [sie] are windows on the machine-mode registers. *)
Definition csr_read (k : csr) (c : core) : Z :=
  match k with
  | Csr.sstatus => Z.land (c_csr c Csr.mstatus) SSTATUS_BITS
  | Csr.sie => Z.land (c_csr c Csr.mie) (c_csr c Csr.mideleg)
  | _ => c_csr c k
  end.

Definition merge (mask old new : Z) : Z := Z.lor (Z.land old (Z.lnot mask)) (Z.land new mask).

Definition csr_write (k : csr) (v : Z) (c : core) : core :=
  match k with
  | Csr.sstatus => set_csr Csr.mstatus (merge SSTATUS_BITS (c_csr c Csr.mstatus) v) c
  | Csr.sie => set_csr Csr.mie (merge (c_csr c Csr.mideleg) (c_csr c Csr.mie) v) c
  | _ => set_csr k (keep k v) c
  end.

(** * Address translation *)

Inductive access := Load | Store.

Definition canonical (va : Z) : bool := (Z.shiftr va 38 =? 0) || (Z.shiftr va 38 =? 2 ^ 26 - 1).

(** A pointer to the next level, or [None]. *)
Definition sv39_step (m : memory) (level va page : Z) : option Z :=
  let pte := ld64 m (page + 8 * PX level va) in
  if flag_set pte PTE_V && (Z.land pte (Z.lor (Z.lor PTE_R PTE_W) PTE_X) =? 0) then Some (PTE2PA pte) else None.

(** The leaf entry of a virtual address. *)
Definition sv39 (m : memory) (root va : Z) : option Z :=
  page1 ← sv39_step m 2 va root;
  page0 ← sv39_step m 1 va page1;
  Some (ld64 m (page0 + 8 * PX 0 va)).

Definition permits (priv : Z) (a : access) (pte : Z) : bool :=
  flag_set pte PTE_V && flag_set pte (match a with Load => PTE_R | Store => PTE_W end) &&
  Bool.eqb (flag_set pte PTE_U) (priv =? PRV_U).

Definition translate (c : core) (a : access) (va : Z) : option Z :=
  let satp := c_csr c Csr.satp in
  if (c_priv c =? PRV_M) || (Z.shiftr satp 60 =? 0) then Some va
  else if negb (Z.shiftr satp 60 =? 8) || negb (canonical va) then None
  else
    pte ← sv39 (c_ram c) (Z.land satp (Z.ones 44) * PGSIZE) va;
    if permits (c_priv c) a pte then Some (PTE2PA pte + va mod PGSIZE) else None.

(** * Instructions *)

Inductive instr :=
  | Sd (rs : reg) (off : Z) (base : reg)
  | Ld (rd : reg) (off : Z) (base : reg)
  | Csrw (k : csr) (rs : reg)
  | Csrr (rd : reg) (k : csr)
  | Li (rd : reg) (imm : Z)
  | Addi (rd rs : reg) (imm : Z)
  | Add (rd rs rt : reg)
  | Mul (rd rs rt : reg)
  | Sfence_vma
  | Jalr (rs : reg) (link : Z)  (* the address behind the instruction *)
  | Call (target link : Z)
  | Ret
  | Sret
  | Mret
  | Ecall.

Definition load (va : Z) (c : core) : option Z :=
  if va mod 8 =? 0 then pa ← translate c Load va; Some (ld64 (c_ram c) pa) else None.
Definition store (va v : Z) (c : core) : option core :=
  if va mod 8 =? 0 then pa ← translate c Store va; Some (set_ram (st64 (c_ram c) pa v) c) else None.

(** Taking a trap in supervisor mode, and the two returns. *)
Definition trap (cause tval : Z) (c : core) : core :=
  let ms := c_csr c Csr.mstatus in
  let ms := set_bit SPP_BIT (negb (c_priv c =? PRV_U)) (set_bit SPIE_BIT (Z.testbit ms SIE_BIT) ms) in
  set_pc (c_csr c Csr.stvec)
    (set_priv PRV_S (set_csr Csr.mstatus (set_bit SIE_BIT false ms)
      (set_csr Csr.stval tval (set_csr Csr.scause cause (set_csr Csr.sepc (c_pc c) c))))).

Definition sret_insn (c : core) : core :=
  let ms := c_csr c Csr.mstatus in
  let ms' := set_bit SPP_BIT false (set_bit SPIE_BIT true (set_bit SIE_BIT (Z.testbit ms SPIE_BIT) ms)) in
  set_pc (c_csr c Csr.sepc) (set_priv (if Z.testbit ms SPP_BIT then PRV_S else PRV_U) (set_csr Csr.mstatus ms' c)).

Definition mret_insn (c : core) : core :=
  let ms := c_csr c Csr.mstatus in
  let ms' := set_bit 12 false (set_bit 11 false (set_bit MPIE_BIT true (set_bit MIE_BIT (Z.testbit ms MPIE_BIT) ms))) in
  set_pc (c_csr c Csr.mepc) (set_priv (Z.land (Z.shiftr ms 11) 3) (set_csr Csr.mstatus ms' c)).

(** One instruction; [None] is an exception. *)
Definition step (i : instr) (c : core) : option core :=
  match i with
  | Sd rs off base => store (u64 (c_x c base + off)) (c_x c rs) c
  | Ld rd off base => v ← load (u64 (c_x c base + off)) c; Some (set_x rd v c)
  | Csrw k rs => if csr_level k <=? c_priv c then Some (csr_write k (c_x c rs) c) else None
  | Csrr rd k => if csr_level k <=? c_priv c then Some (set_x rd (csr_read k c) c) else None
  | Li rd imm => Some (set_x rd imm c)
  | Addi rd rs imm => Some (set_x rd (c_x c rs + imm) c)
  | Add rd rs rt => Some (set_x rd (c_x c rs + c_x c rt) c)
  | Mul rd rs rt => Some (set_x rd (c_x c rs * c_x c rt) c)
  | Sfence_vma => if PRV_S <=? c_priv c then Some c else None
  | Jalr rs link => Some (set_x Gpr.ra link (set_pc (c_x c rs) c))
  | Call target link => Some (set_x Gpr.ra link (set_pc target c))
  | Ret => Some (set_pc (c_x c Gpr.ra) c)
  | Sret => if PRV_S <=? c_priv c then Some (sret_insn c) else None
  | Mret => if PRV_M <=? c_priv c then Some (mret_insn c) else None
  | Ecall => if c_priv c =? PRV_U then Some (trap 8 0 c) else None
  end.

(** Code without branches. *)
Fixpoint exec (l : list instr) (c : core) : option core :=
  match l with
  | [] => Some c
  | i :: l => step i c ≫= exec l
  end.
End hart.
