(* ===== verification/Asm.v ===== *)
(** The assembly files of the kernel: [entry.S], [swtch.S], [trampoline.S] and
    [kernelvec.S], instruction by instruction, on the hart of {!Hart}.

    A file is cut at its calls: the code up to a call ends in the jump, and the
    code behind the call runs when the callee returns there. *)

From S2P Require Import Prelude Riscv Mem Str Kalloc Vm VmTree Hart.
Import Gpr Csr.

(** * entry.S *)

Definition entry (stack0 start link : Z) : list instr :=
  [Li sp stack0;
   Li a0 (1024 * 4);
   Csrr a1 mhartid;
   Addi a1 a1 1;
   Mul a0 a0 a1;
   Add sp sp a0;
   Call start link].

(** * swtch.S *)

Definition swtch_save : list instr :=
  [Sd ra 0 a0; Sd sp 8 a0; Sd s0 16 a0; Sd s1 24 a0; Sd s2 32 a0; Sd s3 40 a0; Sd s4 48 a0;
   Sd s5 56 a0; Sd s6 64 a0; Sd s7 72 a0; Sd s8 80 a0; Sd s9 88 a0; Sd s10 96 a0; Sd s11 104 a0].

Definition swtch_load : list instr :=
  [Ld ra 0 a1; Ld sp 8 a1; Ld s0 16 a1; Ld s1 24 a1; Ld s2 32 a1; Ld s3 40 a1; Ld s4 48 a1;
   Ld s5 56 a1; Ld s6 64 a1; Ld s7 72 a1; Ld s8 80 a1; Ld s9 88 a1; Ld s10 96 a1; Ld s11 104 a1].

Definition swtch : list instr := swtch_save ++ swtch_load ++ [Ret].

(** * trampoline.S *)

Definition uservec_save : list instr :=
  [Sd ra 40 a0; Sd sp 48 a0; Sd gp 56 a0; Sd tp 64 a0; Sd t0 72 a0; Sd t1 80 a0; Sd t2 88 a0;
   Sd s0 96 a0; Sd s1 104 a0; Sd a1 120 a0; Sd a2 128 a0; Sd a3 136 a0; Sd a4 144 a0; Sd a5 152 a0;
   Sd a6 160 a0; Sd a7 168 a0; Sd s2 176 a0; Sd s3 184 a0; Sd s4 192 a0; Sd s5 200 a0; Sd s6 208 a0;
   Sd s7 216 a0; Sd s8 224 a0; Sd s9 232 a0; Sd s10 240 a0; Sd s11 248 a0; Sd t3 256 a0; Sd t4 264 a0;
   Sd t5 272 a0; Sd t6 280 a0].

Definition uservec_kernel (userret : Z) : list instr :=
  [Csrr t0 sscratch;
   Sd t0 112 a0;
   Ld sp 8 a0;
   Ld tp 32 a0;
   Ld t0 16 a0;
   Ld t1 0 a0;
   Sfence_vma;
   Csrw satp t1;
   Sfence_vma;
   Jalr t0 userret].

(** [userret] is the address behind the last instruction. *)
Definition uservec (userret : Z) : list instr :=
  [Csrw sscratch a0; Li a0 TRAPFRAME] ++ uservec_save ++ uservec_kernel userret.

Definition userret_load : list instr :=
  [Ld ra 40 a0; Ld sp 48 a0; Ld gp 56 a0; Ld tp 64 a0; Ld t0 72 a0; Ld t1 80 a0; Ld t2 88 a0;
   Ld s0 96 a0; Ld s1 104 a0; Ld a1 120 a0; Ld a2 128 a0; Ld a3 136 a0; Ld a4 144 a0; Ld a5 152 a0;
   Ld a6 160 a0; Ld a7 168 a0; Ld s2 176 a0; Ld s3 184 a0; Ld s4 192 a0; Ld s5 200 a0; Ld s6 208 a0;
   Ld s7 216 a0; Ld s8 224 a0; Ld s9 232 a0; Ld s10 240 a0; Ld s11 248 a0; Ld t3 256 a0; Ld t4 264 a0;
   Ld t5 272 a0; Ld t6 280 a0].

Definition userret : list instr :=
  [Sfence_vma; Csrw satp a0; Sfence_vma; Li a0 TRAPFRAME] ++ userret_load ++ [Ld a0 112 a0; Sret].

(** * kernelvec.S *)

Definition kernelvec_save : list instr :=
  [Sd ra 0 sp; Sd gp 16 sp; Sd tp 24 sp; Sd t0 32 sp; Sd t1 40 sp; Sd t2 48 sp;
   Sd a0 72 sp; Sd a1 80 sp; Sd a2 88 sp; Sd a3 96 sp; Sd a4 104 sp; Sd a5 112 sp; Sd a6 120 sp; Sd a7 128 sp;
   Sd t3 216 sp; Sd t4 224 sp; Sd t5 232 sp; Sd t6 240 sp].

Definition kernelvec (kerneltrap link : Z) : list instr :=
  [Addi sp sp (-256)] ++ kernelvec_save ++ [Call kerneltrap link].

Definition kernelvec_load : list instr :=
  [Ld ra 0 sp; Ld gp 16 sp; Ld t0 32 sp; Ld t1 40 sp; Ld t2 48 sp;
   Ld a0 72 sp; Ld a1 80 sp; Ld a2 88 sp; Ld a3 96 sp; Ld a4 104 sp; Ld a5 112 sp; Ld a6 120 sp; Ld a7 128 sp;
   Ld t3 216 sp; Ld t4 224 sp; Ld t5 232 sp; Ld t6 240 sp].

(** Behind the call. *)
Definition kernelvec_return : list instr := kernelvec_load ++ [Addi sp sp 256; Sret].
