(* ===== verification/Start.v ===== *)
(** [kernel/start.c], with the accessors of [kernel/riscv.h] it uses: what runs
    on a hart in machine mode before [main]. *)

From S2P Require Import Prelude Riscv Mem Str Kalloc Vm Hart.

Section start.
Context (keep : csr → Z → Z).

(** * Register accessors of riscv.h *)

(** [csrr] and [csrw]; an access without the privilege is an exception. *)
Definition csrr (k : csr) : M core Z :=
  c ← get;
  if csr_level k <=? c_priv c then mret (csr_read k c) else ub.
Definition csrw (k : csr) (v : Z) : M core unit :=
  c ← get;
  if csr_level k <=? c_priv c then put (csr_write keep k (u64 v) c) else ub.

Definition r_mhartid : M core Z := csrr Csr.mhartid.
Definition r_mstatus : M core Z := csrr Csr.mstatus.
Definition w_mstatus (x : Z) : M core unit := csrw Csr.mstatus x.
Definition w_mepc (x : Z) : M core unit := csrw Csr.mepc x.
Definition r_sie : M core Z := csrr Csr.sie.
Definition w_sie (x : Z) : M core unit := csrw Csr.sie x.
Definition r_mie : M core Z := csrr Csr.mie.
Definition w_mie (x : Z) : M core unit := csrw Csr.mie x.
Definition w_medeleg (x : Z) : M core unit := csrw Csr.medeleg x.
Definition w_mideleg (x : Z) : M core unit := csrw Csr.mideleg x.
Definition w_stimecmp (x : Z) : M core unit := csrw Csr.stimecmp x.
Definition r_menvcfg : M core Z := csrr Csr.menvcfg.
Definition w_menvcfg (x : Z) : M core unit := csrw Csr.menvcfg x.
Definition w_pmpcfg0 (x : Z) : M core unit := csrw Csr.pmpcfg0 x.
Definition w_pmpaddr0 (x : Z) : M core unit := csrw Csr.pmpaddr0 x.
Definition w_satp (x : Z) : M core unit := csrw Csr.satp x.
Definition r_mcounteren : M core Z := csrr Csr.mcounteren.
Definition w_mcounteren (x : Z) : M core unit := csrw Csr.mcounteren x.
Definition r_time : M core Z := csrr Csr.time.
Definition w_tp (x : Z) : M core unit := modify (set_x Gpr.tp x).

Definition MSTATUS_MPP_MASK : Z := Z.shiftl 3 11.
Definition MSTATUS_MPP_S : Z := Z.shiftl 1 11.
Definition SIE_SEIE : Z := Z.shiftl 1 9.
Definition SIE_STIE : Z := Z.shiftl 1 5.
Definition MIE_STIE : Z := Z.shiftl 1 5.

(** * start.c *)

Definition timerinit : M core unit :=
  (* enable supervisor-mode timer interrupts. *)
  x ← r_mie;
  w_mie (Z.lor x MIE_STIE) ;;
  (* enable the sstc extension (i.e. stimecmp). *)
  x ← r_menvcfg;
  w_menvcfg (Z.lor x (Z.shiftl 1 63)) ;;
  (* allow supervisor to use stimecmp and time. *)
  x ← r_mcounteren;
  w_mcounteren (Z.lor x 2) ;;
  (* ask for the very first timer interrupt. *)
  t ← r_time;
  w_stimecmp (t + 1000000).

Definition start (main : Z) : M core unit :=
  (* set M Previous Privilege mode to Supervisor, for mret. *)
  x ← r_mstatus;
  let x := Z.land x (Z.lnot MSTATUS_MPP_MASK) in
  let x := Z.lor x MSTATUS_MPP_S in
  w_mstatus x ;;
  (* set M Exception Program Counter to main, for mret. *)
  w_mepc main ;;
  (* disable paging for now. *)
  w_satp 0 ;;
  (* delegate all interrupts and exceptions to supervisor mode. *)
  w_medeleg 0xffff ;;
  w_mideleg 0xffff ;;
  x ← r_sie;
  w_sie (Z.lor (Z.lor x SIE_SEIE) SIE_STIE) ;;
  (* configure Physical Memory Protection. *)
  w_pmpaddr0 0x3fffffffffffff ;;
  w_pmpcfg0 0xf ;;
  (* ask for clock interrupts. *)
  timerinit ;;
  (* keep each CPU's hartid in its tp register, for cpuid(). *)
  id ← r_mhartid;
  w_tp (i32 id) ;;
  (* switch to supervisor mode and jump to main(). *)
  modify mret_insn.

(** * What the hart looks like in [main] *)

(** What the architecture says about the fields that [start] writes. *)
Record implements : Prop := {
  im_mstatus : ∀ v b, b ∈ [1; 11; 12] → Z.testbit (keep Csr.mstatus v) b = Z.testbit v b;
  im_mepc : ∀ v, v mod 4 = 0 → 0 ≤ v < 2 ^ 64 → keep Csr.mepc v = v;
  im_satp : keep Csr.satp 0 = 0;
  im_medeleg : ∀ v b, b ∈ [2; 3; 8; 12; 13; 15] → Z.testbit (keep Csr.medeleg v) b = Z.testbit v b;
  im_mideleg : ∀ v b, b ∈ [1; 5; 9] → Z.testbit (keep Csr.mideleg v) b = Z.testbit v b;
  im_mie : ∀ v b, b ∈ [1; 5; 9] → Z.testbit (keep Csr.mie v) b = Z.testbit v b;
  im_menvcfg : ∀ v, Z.testbit (keep Csr.menvcfg v) 63 = Z.testbit v 63;
  im_mcounteren : ∀ v, Z.testbit (keep Csr.mcounteren v) 1 = Z.testbit v 1;
  im_stimecmp : ∀ v, 0 ≤ v < 2 ^ 64 → keep Csr.stimecmp v = v;
  im_pmpaddr : ∀ v, 0 ≤ v < 2 ^ 54 → keep Csr.pmpaddr0 v = v;
  im_pmpcfg : keep Csr.pmpcfg0 0xf = 0xf;
}.

(** The first entry of the physical memory protection, in the mode that covers
    the addresses below [pmpaddr0], gives all access to [a]. *)
Definition pmp_allows (c : core) (a : Z) : bool :=
  let cfg := Z.land (c_csr c Csr.pmpcfg0) 0xff in
  (Z.land (Z.shiftr cfg 3) 3 =? 1) && (Z.land cfg 7 =? 7) && (0 <=? a) && (a <? Z.shiftl (c_csr c Csr.pmpaddr0) 2).

Record in_main (c0 : core) (main : Z) (c : core) : Prop := {
  st_pc : c_pc c = main;
  st_priv : c_priv c = PRV_S;
  st_bare : ∀ a va, translate c a va = Some va;
  st_tp : c_x c Gpr.tp = c_csr c0 Csr.mhartid;
  st_regs : ∀ r, r ≠ Gpr.tp → c_x c r = c_x c0 r;
  st_ram : c_ram c = c_ram c0;
  st_exceptions : ∀ b, b ∈ [2; 3; 8; 12; 13; 15] → Z.testbit (c_csr c Csr.medeleg) b = true;
  st_interrupts : ∀ b, b ∈ [1; 5; 9] → Z.testbit (c_csr c Csr.mideleg) b = true;
  st_enabled : ∀ b, b = 5 ∨ b = 9 → Z.testbit (csr_read Csr.sie c) b = true;
  st_masked : Z.testbit (c_csr c Csr.mstatus) SIE_BIT = Z.testbit (c_csr c0 Csr.mstatus) SIE_BIT;
  st_timer : c_csr c Csr.stimecmp = u64 (c_csr c0 Csr.time + 1000000) ∧ Z.testbit (c_csr c Csr.menvcfg) 63 = true ∧
    Z.testbit (c_csr c Csr.mcounteren) 1 = true;
  st_memory : ∀ a, 0 ≤ a < 2 ^ 56 - 4 → pmp_allows c a = true;
}.

(** The registers [start] leaves, before [mret]. *)
Definition started (main : Z) (c : core) (k : csr) : Z :=
  let mideleg := keep Csr.mideleg (u64 0xffff) in
  let sie := Z.lor (Z.lor (Z.land (c_csr c Csr.mie) mideleg) SIE_SEIE) SIE_STIE in
  match k with
  | Csr.mstatus => keep Csr.mstatus (u64 (Z.lor (Z.land (c_csr c Csr.mstatus) (Z.lnot MSTATUS_MPP_MASK)) MSTATUS_MPP_S))
  | Csr.mepc => keep Csr.mepc (u64 main)
  | Csr.satp => keep Csr.satp (u64 0)
  | Csr.medeleg => keep Csr.medeleg (u64 0xffff)
  | Csr.mideleg => mideleg
  | Csr.mie => keep Csr.mie (u64 (Z.lor (merge mideleg (c_csr c Csr.mie) (u64 sie)) MIE_STIE))
  | Csr.pmpaddr0 => keep Csr.pmpaddr0 (u64 0x3fffffffffffff)
  | Csr.pmpcfg0 => keep Csr.pmpcfg0 (u64 0xf)
  | Csr.menvcfg => keep Csr.menvcfg (u64 (Z.lor (c_csr c Csr.menvcfg) (Z.shiftl 1 63)))
  | Csr.mcounteren => keep Csr.mcounteren (u64 (Z.lor (c_csr c Csr.mcounteren) 2))
  | Csr.stimecmp => keep Csr.stimecmp (u64 (c_csr c Csr.time + 1000000))
  | k => c_csr c k
  end.

Lemma csrr_run {B} k c (f : Z → M core B) : c_priv c = PRV_M → (csrr k ≫= f) c = f (csr_read k c) c.
Proof. destruct c as [x j p pc m]. cbn [c_priv]. intros ->. by destruct k. Qed.

Lemma csrw_run {B} k v c (f : unit → M core B) : c_priv c = PRV_M →
  ∃ c', (csrw k v ≫= f) c = f tt c' ∧ c' = csr_write keep k (u64 v) c ∧ c_priv c' = PRV_M ∧ c_x c' = c_x c ∧ c_ram c' = c_ram c.
Proof.
  intros Hp. exists (csr_write keep k (u64 v) c). destruct c as [x j p pc m]. cbn [c_priv] in Hp. subst p. by destruct k.
Qed.

(** The registers after a write, for one that is not a window. *)
Lemma csr_write_plain k v c c' : c' = csr_write keep k v c → k ≠ Csr.sstatus → k ≠ Csr.sie → c_csr c' = upd (c_csr c) k (keep k v).
Proof. by intros -> H1 H2; destruct k. Qed.
Lemma csr_write_sie v c c' : c' = csr_write keep Csr.sie v c → c_csr c' = upd (c_csr c) Csr.mie (merge (c_csr c Csr.mideleg) (c_csr c Csr.mie) v).
Proof. by intros ->. Qed.

Ltac csr_step :=
  match goal with
  | |- context [(csrr ?k ≫= ?f) ?c] => rewrite (csrr_run k c f) by assumption; cbv beta zeta
  | |- context [(csrw ?k ?v ≫= ?f) ?c] =>
      let E := fresh "E" in let Ec := fresh "Ec" in
      destruct (csrw_run k v c f) as (? & E & Ec & ? & ? & ?); [assumption|]; rewrite E; clear E; cbv beta zeta;
      first [apply csr_write_sie in Ec | apply csr_write_plain in Ec; [|discriminate..]]
  end.

(** Looks a register up through the writes in the context. *)
Ltac csr_lookup :=
  cbn [csr_read];
  repeat match goal with
  | E : c_csr ?x = upd _ _ _ |- context [c_csr ?x ?k] =>
      let L := fresh in pose proof (f_equal (λ f, f k) E) as L; cbv beta in L;
      first [rewrite upd_eq in L | rewrite upd_ne in L by discriminate]; rewrite L; clear L; cbn [csr_read]
  end; reflexivity.

Lemma start_exec main c : c_priv c = PRV_M →
  ∃ c', start main c = Ok (tt, mret_insn c') ∧ (∀ k, c_csr c' k = started main c k) ∧ c_ram c' = c_ram c ∧
    c_x c' Gpr.tp = u64 (i32 (c_csr c Csr.mhartid)) ∧ ∀ r, r ≠ Gpr.tp → c_x c' r = c_x c r.
Proof.
  intros Hp. unfold start, timerinit, r_mstatus, w_mstatus, w_mepc, w_satp, w_medeleg, w_mideleg, r_sie, w_sie, w_pmpaddr0, w_pmpcfg0,
    r_mie, w_mie, r_menvcfg, w_menvcfg, r_mcounteren, w_mcounteren, r_time, w_stimecmp, r_mhartid.
  repeat (rewrite ?bind_assoc; csr_step).
  eexists (set_x Gpr.tp _ _). split; [reflexivity|]. split_and!.
  - intros k. change (c_csr (set_x Gpr.tp ?v ?x) k) with (c_csr x k). destruct k; unfold started; csr_lookup.
  - change (c_ram (set_x Gpr.tp ?v ?x)) with (c_ram x). congruence.
  - unfold set_x. rewrite decide_False by done. cbn [c_x]. rewrite upd_eq. do 2 f_equal. csr_lookup.
  - intros r Hr. unfold set_x. rewrite decide_False by done. cbn [c_x]. rewrite upd_ne by done. congruence.
Qed.

Lemma mret_priv c : Z.testbit (c_csr c Csr.mstatus) 11 = true → Z.testbit (c_csr c Csr.mstatus) 12 = false → c_priv (mret_insn c) = PRV_S.
Proof.
  intros H1 H2. change (Z.land (Z.shiftr (c_csr c Csr.mstatus) 11) 3 = 1). apply Z.bits_inj'. intros n Hn.
  rewrite Z.land_spec, Z.shiftr_spec by done. change 3 with (Z.ones 2). rewrite Z.testbit_ones_nonneg by lia.
  destruct (Z.ltb_spec n 2) as [H|H].
  - rewrite andb_true_r. assert (n = 0 ∨ n = 1) as [-> | ->] by lia; [exact H1|exact H2].
  - rewrite andb_false_r. symmetry. apply Z.bits_above_log2; [lia|]. change (Z.log2 1) with 0. lia.
Qed.

Lemma u64_bit v b : 0 ≤ b < 64 → Z.testbit (u64 v) b = Z.testbit v b.
Proof. intros Hb. apply Z.mod_pow2_bits_low. lia. Qed.

(** Bits of the registers that other fields of [mstatus] do not disturb. *)
Lemma mret_mstatus c b : b ∉ [MIE_BIT; MPIE_BIT; 11; 12] → Z.testbit (c_csr (mret_insn c) Csr.mstatus) b = Z.testbit (c_csr c Csr.mstatus) b.
Proof.
  intros Hb. rewrite !not_elem_of_cons in Hb. destruct Hb as (B1 & B2 & B3 & B4 & _).
  assert (∀ i v x, 0 ≤ i → b ≠ i → Z.testbit (set_bit i v x) b = Z.testbit x b) as H.
  { intros i v x Hi Hn. destruct v; [by apply Z.setbit_neq|by apply Z.clearbit_neq]. }
  unfold mret_insn. cbn [set_pc set_priv set_csr c_csr]. unfold upd. rewrite decide_True by done. by rewrite !H.
Qed.

Lemma mret_csr c k : k ≠ Csr.mstatus → c_csr (mret_insn c) k = c_csr c k.
Proof. intros Hk. unfold mret_insn. cbn [set_pc set_priv set_csr c_csr]. unfold upd. by rewrite decide_False. Qed.

(** The interrupt enables: what [start] writes through [sie] and [mie]. *)
Lemma started_sie main c b : implements → b = 5 ∨ b = 9 →
  Z.testbit (started main c Csr.mie) b = true ∧ Z.testbit (started main c Csr.mideleg) b = true.
Proof.
  intros Hi Hb. assert (b ∈ [1; 5; 9]) as Hin by (rewrite !elem_of_cons; tauto). assert (0 ≤ b < 64) as Hr by lia.
  assert (Z.testbit (keep Csr.mideleg (u64 0xffff)) b = true) as Hd.
  { rewrite (im_mideleg Hi), u64_bit by done. by destruct Hb as [-> | ->]. }
  split; [|exact Hd]. unfold started. rewrite (im_mie Hi), u64_bit, Z.lor_spec by done. apply orb_true_iff. left.
  unfold merge. rewrite Z.lor_spec, (Z.land_spec (u64 _)), u64_bit, Hd, andb_true_r by done.
  apply orb_true_iff. right. rewrite !Z.lor_spec. destruct Hb as [-> | ->]; [apply orb_true_r|].
  change (Z.testbit SIE_SEIE 9) with true. by rewrite orb_true_r.
Qed.

(** C23: [start] hands the hart over to [main] as the kernel needs it.  Coming from
    reset in machine mode, whatever the registers hold, the hart arrives at [main] in
    supervisor mode, without address translation, with its number in [tp] and
    all other registers and memory unchanged; the exceptions and interrupts the kernel
    handles are delegated to supervisor mode, timer and device interrupts are
    enabled in [sie] but still masked by [sstatus] if they were, the first timer
    interrupt is due a million ticks from now, and the physical memory
    protection lets the kernel use all of memory. *)
Theorem start_enters_main main c : implements → c_priv c = PRV_M → 0 ≤ c_csr c Csr.mhartid < NCPU → 0 ≤ main < 2 ^ 64 → main mod 4 = 0 →
  ∃ c', start main c = Ok (tt, c') ∧ in_main c main c'.
Proof.
  intros Hi Hp Hh Hm Hal. destruct (start_exec main c Hp) as (c1 & E & C & R & T & X). unfold NCPU in Hh.
  exists (mret_insn c1). split; [exact E|].
  assert (∀ b, b = 1 ∨ b = 11 ∨ b = 12 → Z.testbit (c_csr c1 Csr.mstatus) b =
    Z.testbit (Z.lor (Z.land (c_csr c Csr.mstatus) (Z.lnot MSTATUS_MPP_MASK)) MSTATUS_MPP_S) b) as Hms.
  { intros b Hb. rewrite C. unfold started. rewrite (im_mstatus Hi), u64_bit by (lia || (rewrite !elem_of_cons; tauto)). done. }
  assert (c_priv (mret_insn c1) = PRV_S) as Hpriv.
  { apply mret_priv; rewrite Hms, Z.lor_spec, Z.land_spec by tauto; [apply orb_true_r|].
    change (Z.testbit (Z.lnot MSTATUS_MPP_MASK) 12) with false. by rewrite andb_false_r. }
  split.
  - change (u64 (c_csr c1 Csr.mepc) = main). rewrite C. unfold started. rewrite (u64_small main), (im_mepc Hi) by done. by apply u64_small.
  - exact Hpriv.
  - intros a va. unfold translate. rewrite mret_csr, C by done. unfold started. change (u64 0) with 0. rewrite (im_satp Hi). cbn.
    by rewrite orb_true_r.
  - change (c_x c1 Gpr.tp = c_csr c Csr.mhartid). rewrite T, i32_small, u64_small by lia. done.
  - exact X.
  - exact R.
  - intros b Hb. rewrite mret_csr, C by done. unfold started. rewrite (im_medeleg Hi) by done.
    revert b Hb. apply Forall_forall. by repeat constructor.
  - intros b Hb. rewrite mret_csr, C by done. unfold started. rewrite (im_mideleg Hi) by done.
    revert b Hb. apply Forall_forall. by repeat constructor.
  - intros b Hb. destruct (started_sie main c b Hi Hb) as [B1 B2]. cbn [csr_read]. by rewrite Z.land_spec, !mret_csr, !C, B1, B2.
  - rewrite mret_mstatus, (Hms SIE_BIT) by (by left || (apply (bool_decide_unpack _); vm_compute; exact I)).
    rewrite Z.lor_spec, Z.land_spec. change (Z.testbit (Z.lnot MSTATUS_MPP_MASK) SIE_BIT) with true.
    change (Z.testbit MSTATUS_MPP_S SIE_BIT) with false. by rewrite andb_true_r, orb_false_r.
  - rewrite !mret_csr, !C by done. unfold started. rewrite (im_stimecmp Hi), (im_menvcfg Hi), (im_mcounteren Hi) by apply u64_range.
    rewrite !u64_bit, !Z.lor_spec by lia. split_and!; [done|apply orb_true_r..].
  - intros a Ha. unfold pmp_allows. rewrite !mret_csr, !C by done. unfold started.
    change (u64 0xf) with 0xf. change (u64 0x3fffffffffffff) with 0x3fffffffffffff. rewrite (im_pmpcfg Hi), (im_pmpaddr Hi) by lia.
    change (Z.shiftl 0x3fffffffffffff 2) with (2 ^ 56 - 4).
    change (Z.land 15 255) with 15. change (Z.land (Z.shiftr 15 3) 3 =? 1) with true. change (Z.land 15 7 =? 7) with true. cbn [andb]. lia.
Qed.
End start.

(** The hart after reset, with registers that keep what they are given. *)
Module Reset.
Definition hart1 : core := Core (λ _, 0) (λ k, match k with Csr.mhartid => 1 | Csr.time => 42 | _ => 0 end) PRV_M 0x80000000 ∅.

Lemma start_enters_main_witness : ∃ c', start (λ _ v, v) 0x80000e00 hart1 = Ok (tt, c') ∧ c_pc c' = 0x80000e00 ∧ c_x c' Gpr.tp = 1.
Proof.
  assert (implements (λ _ v, v)) as Hi by (split; reflexivity).
  assert (0 ≤ c_csr hart1 Csr.mhartid < NCPU ∧ 0 ≤ 0x80000e00 < 2 ^ 64) as [H1 H2] by (by vm_compute).
  destruct (start_enters_main (λ _ v, v) 0x80000e00 hart1 Hi eq_refl H1 H2 eq_refl) as (c' & E & S).
  exists c'. split; [exact E|]. split; [exact (st_pc _ _ _ S)|exact (st_tp _ _ _ S)].
Defined.
End Reset.
