(* ===== verification/Devinit.v ===== *)
(** Setting up the serial port and the interrupt controller: [uartinit] of
    [kernel/uart.c], [plicinit] and [plicinithart] of [kernel/plic.c].

    A device is the registers that the code writes.  What a write to a register
    of the 16550 does, and where the controller has its registers, is as their
    manuals say. *)

From S2P Require Import Prelude Riscv.

(** * uart.c *)

Definition THR : Z := 0.
Definition IER : Z := 1.
Definition IER_RX_ENABLE : Z := Z.shiftl 1 0.
Definition IER_TX_ENABLE : Z := Z.shiftl 1 1.
Definition FCR : Z := 2.
Definition FCR_FIFO_ENABLE : Z := Z.shiftl 1 0.
Definition FCR_FIFO_CLEAR : Z := Z.shiftl 3 1.
Definition LCR : Z := 3.
Definition LCR_EIGHT_BITS : Z := Z.shiftl 3 0.
Definition LCR_BAUD_LATCH : Z := Z.shiftl 1 7.

(** The 16550: with the latch bit of [LCR] set, the first two registers are the
    divisor of the baud rate.  The bits of [FCR] that clear the queues reset
    themselves. *)
Record uart16550 := Uart16550 {
  ua_ier : Z;
  ua_fcr : Z;
  ua_lcr : Z;
  ua_divisor : Z;
  ua_sent : list Z;  (* what went to the transmitter, latest first *)
}.

Definition uart_write (reg v : Z) (u : uart16550) : uart16550 :=
  let latch := Z.testbit (ua_lcr u) 7 in
  if reg =? THR then
    if latch then Uart16550 (ua_ier u) (ua_fcr u) (ua_lcr u) (ua_divisor u / 256 * 256 + u8 v) (ua_sent u)
    else Uart16550 (ua_ier u) (ua_fcr u) (ua_lcr u) (ua_divisor u) (u8 v :: ua_sent u)
  else if reg =? IER then
    if latch then Uart16550 (ua_ier u) (ua_fcr u) (ua_lcr u) (u8 v * 256 + ua_divisor u mod 256) (ua_sent u)
    else Uart16550 (u8 v) (ua_fcr u) (ua_lcr u) (ua_divisor u) (ua_sent u)
  else if reg =? FCR then Uart16550 (ua_ier u) (Z.land (u8 v) (Z.lnot FCR_FIFO_CLEAR)) (ua_lcr u) (ua_divisor u) (ua_sent u)
  else if reg =? LCR then Uart16550 (ua_ier u) (ua_fcr u) (u8 v) (ua_divisor u) (ua_sent u)
  else u.

Definition WriteReg (reg v : Z) : M uart16550 unit := modify (uart_write reg v).

(** Without the [initlock] of [tx_lock]. *)
Definition uartinit : M uart16550 unit :=
  (* disable interrupts. *)
  WriteReg IER 0x00 ;;
  (* special mode to set baud rate. *)
  WriteReg LCR LCR_BAUD_LATCH ;;
  (* LSB for baud rate of 38.4K. *)
  WriteReg 0 0x03 ;;
  (* MSB for baud rate of 38.4K. *)
  WriteReg 1 0x00 ;;
  (* leave set-baud mode, and set word length to 8 bits, no parity. *)
  WriteReg LCR LCR_EIGHT_BITS ;;
  (* reset and enable FIFOs. *)
  WriteReg FCR (Z.lor FCR_FIFO_ENABLE FCR_FIFO_CLEAR) ;;
  (* enable transmit and receive interrupts. *)
  WriteReg IER (Z.lor IER_TX_ENABLE IER_RX_ENABLE).

(** * plic.c *)

Definition PLIC_SENABLE (hart : Z) : Z := PLIC + 0x2080 + hart * 0x100.
Definition PLIC_SPRIORITY (hart : Z) : Z := PLIC + 0x201000 + hart * 0x2000.

(** The registers of the controller by address. *)
Abbreviation plic := (gmap Z Z).
Definition plic_write (a v : Z) : M plic unit := modify (λ p : plic, <[a := u32 v]> p).

Definition plicinit : M plic unit :=
  (* set desired IRQ priorities non-zero (otherwise disabled). *)
  plic_write (PLIC + UART0_IRQ * 4) 1 ;;
  plic_write (PLIC + VIRTIO0_IRQ * 4) 1.

Definition plicinithart (hart : Z) : M plic unit :=
  plic_write (PLIC_SENABLE hart) (Z.lor (Z.shiftl 1 UART0_IRQ) (Z.shiftl 1 VIRTIO0_IRQ)) ;;
  plic_write (PLIC_SPRIORITY hart) 0.

(** The controller signals source [irq] to a context when the source is enabled
    there and its priority is above the threshold of the context; supervisor mode of
    hart [h] is context [2 * h + 1]. *)
Definition plic_reg (p : plic) (a : Z) : Z := default 0 (p !! a).
Definition plic_signals (p : plic) (context irq : Z) : bool :=
  Z.testbit (plic_reg p (PLIC + 0x2000 + 0x80 * context + 4 * (irq / 32))) (irq mod 32) &&
  (plic_reg p (PLIC + 0x200000 + 0x1000 * context) <? plic_reg p (PLIC + 4 * irq)).

(** * Properties *)

Lemma uart_write_latch v u : Z.testbit (ua_lcr u) 7 = true →
  uart_write 0 v u = Uart16550 (ua_ier u) (ua_fcr u) (ua_lcr u) (ua_divisor u / 256 * 256 + u8 v) (ua_sent u) ∧
  uart_write 1 v u = Uart16550 (ua_ier u) (ua_fcr u) (ua_lcr u) (u8 v * 256 + ua_divisor u mod 256) (ua_sent u).
Proof. intros E. unfold uart_write. by rewrite E. Qed.
Lemma uart_write_ier v u : ∃ ier d, uart_write IER v u = Uart16550 ier (ua_fcr u) (ua_lcr u) d (ua_sent u) ∧
  (Z.testbit (ua_lcr u) 7 = false → ier = u8 v ∧ d = ua_divisor u).
Proof. unfold uart_write. cbn [Z.eqb THR IER Pos.eqb]. destruct (Z.testbit (ua_lcr u) 7); by do 2 eexists. Qed.
Lemma uart_write_lcr v u : uart_write LCR v u = Uart16550 (ua_ier u) (ua_fcr u) (u8 v) (ua_divisor u) (ua_sent u).
Proof. reflexivity. Qed.
Lemma uart_write_fcr v u :
  uart_write FCR v u = Uart16550 (ua_ier u) (Z.land (u8 v) (Z.lnot FCR_FIFO_CLEAR)) (ua_lcr u) (ua_divisor u) (ua_sent u).
Proof. reflexivity. Qed.

(** [uartinit] leaves a port at 38400 baud (divisor 3) with 8 bits, queues on and
    both interrupts enabled, and sends nothing. *)
Lemma uartinit_ready u : uartinit u = Ok (tt, Uart16550 3 1 3 3 (ua_sent u)).
Proof.
  unfold uartinit, WriteReg. rewrite !bind_modify. unfold modify. do 2 f_equal.
  destruct (uart_write_ier 0 u) as (ier & d & -> & _). rewrite (uart_write_lcr LCR_BAUD_LATCH). cbn [ua_ier ua_fcr ua_lcr ua_divisor ua_sent].
  rewrite (proj1 (uart_write_latch 3 (Uart16550 ier (ua_fcr u) (u8 LCR_BAUD_LATCH) d (ua_sent u)) eq_refl)).
  cbn [ua_ier ua_fcr ua_lcr ua_divisor ua_sent].
  rewrite (proj2 (uart_write_latch 0 (Uart16550 ier (ua_fcr u) (u8 LCR_BAUD_LATCH) (d / 256 * 256 + u8 3) (ua_sent u)) eq_refl)).
  rewrite uart_write_lcr, uart_write_fcr. cbn [ua_ier ua_fcr ua_lcr ua_divisor ua_sent].
  destruct (uart_write_ier (Z.lor IER_TX_ENABLE IER_RX_ENABLE) (Uart16550 ier (Z.land (u8 (Z.lor FCR_FIFO_ENABLE FCR_FIFO_CLEAR)) (Z.lnot FCR_FIFO_CLEAR))
    (u8 LCR_EIGHT_BITS) (u8 0 * 256 + (d / 256 * 256 + u8 3) mod 256) (ua_sent u))) as (ier' & d' & -> & Hr).
  destruct (Hr eq_refl) as [-> ->]. cbn [ua_divisor ua_fcr ua_lcr ua_sent].
  rewrite (Z.add_comm (d / 256 * 256)), Z.mod_add by lia. reflexivity.
Qed.

(** After [plicinit] and [plicinithart] a hart is signalled the serial port and
    the disk, and no other of the first 32 sources. *)
Lemma plic_routes p hart irq : 0 ≤ hart < NCPU → 0 < irq < 32 →
  ∃ p', (plicinit ;; plicinithart hart) p = Ok (tt, p') ∧
    plic_signals p' (2 * hart + 1) irq = bool_decide (irq = UART0_IRQ ∨ irq = VIRTIO0_IRQ).
Proof.
  intros Hh Hi. unfold NCPU in Hh. eexists. split; [reflexivity|]. unfold plic_signals, plic_reg.
  rewrite Z.div_small, Z.mod_small by lia.
  replace (PLIC + 0x2000 + 0x80 * (2 * hart + 1) + 4 * 0) with (PLIC_SENABLE hart) by (unfold PLIC_SENABLE; lia).
  replace (PLIC + 0x200000 + 0x1000 * (2 * hart + 1)) with (PLIC_SPRIORITY hart) by (unfold PLIC_SPRIORITY; lia).
  rewrite lookup_insert_eq, (lookup_insert_ne _ (PLIC_SPRIORITY hart) (PLIC_SENABLE hart)), lookup_insert_eq by (unfold PLIC_SENABLE, PLIC_SPRIORITY; lia).
  rewrite !(lookup_insert_ne _ _ (PLIC + 4 * irq)) by (unfold PLIC_SENABLE, PLIC_SPRIORITY; lia).
  change (u32 _) with (2 ^ 10 + 2) at 1. cbn [default from_option].
  case_bool_decide as E.
  - destruct E as [-> | ->].
    + rewrite (lookup_insert_ne _ _ (PLIC + 4 * UART0_IRQ)) by done. change (PLIC + 4 * UART0_IRQ) with (PLIC + UART0_IRQ * 4).
      rewrite lookup_insert_eq. reflexivity.
    + change (PLIC + 4 * VIRTIO0_IRQ) with (PLIC + VIRTIO0_IRQ * 4). rewrite lookup_insert_eq. reflexivity.
  - unfold UART0_IRQ, VIRTIO0_IRQ in E. apply andb_false_iff. left.
    assert (Z.testbit (2 ^ 10 + 2) irq = false) as H; [|exact H].
    change (2 ^ 10 + 2) with (Z.lor (2 ^ 10) (2 ^ 1)). rewrite Z.lor_spec, !Z.pow2_bits_false by lia. done.
Qed.
