(* ===== verification/Spinlock.v ===== *)
(** Spin locks, [kernel/spinlock.c], on several cpus.

    The operations of one cpu are functions of the state of all cpus and
    locks.  [acquire] and [release] are composed of the parts other cpus can
    run in between: the atomic swap is one of them.  The step relation
    interleaves the parts of all cpus; mutual exclusion is an invariant of it.
    This is what lets the other files treat a critical section as one step. *)

From stdpp Require Import functions.
From S2P Require Import Prelude.

(** * State and operations *)

(** [struct cpu], the fields for interrupts, and the SIE bit of [sstatus]. *)
Record cpu := Cpu {
  noff : Z;        (* depth of push_off() nesting *)
  intena : bool;   (* were interrupts enabled before push_off()? *)
  sie : bool;      (* are they now? *)
}.

(** [struct spinlock]. *)
Record spinlock := Spinlock {
  lk_locked : bool;
  lk_cpu : option nat;
}.

Record locks := Locks {
  cpus : nat → cpu;
  lks : nat → spinlock;
}.

Definition upd_cpu (c : nat) (f : cpu → cpu) : M locks unit :=
  modify (λ s, Locks (<[c := f (cpus s c)]> (cpus s)) (lks s)).
Definition upd_lk (k : nat) (f : spinlock → spinlock) : M locks unit :=
  modify (λ s, Locks (cpus s) (<[k := f (lks s k)]> (lks s))).

Definition set_sie (b : bool) (x : cpu) : cpu := Cpu (noff x) (intena x) b.
Definition set_noff (n : Z) (x : cpu) : cpu := Cpu n (intena x) (sie x).
Definition set_intena (b : bool) (x : cpu) : cpu := Cpu (noff x) b (sie x).

Definition intr_get (c : nat) : M locks bool := gets (λ s, sie (cpus s c)).
Definition intr_on (c : nat) : M locks unit := upd_cpu c (set_sie true).
Definition intr_off (c : nat) : M locks unit := upd_cpu c (set_sie false).

Definition initlock (k : nat) : M locks unit := upd_lk k (λ _, Spinlock false None).

Definition push_off (c : nat) : M locks unit :=
  old ← intr_get c;
  intr_off c ;;
  x ← gets (λ s, cpus s c);
  (if noff x =? 0 then upd_cpu c (set_intena old) else mret tt) ;;
  upd_cpu c (λ x, set_noff (noff x + 1) x).

Definition pop_off (c : nat) : M locks unit :=
  on ← intr_get c;
  if on : bool then panic "pop_off - interruptible"
  else
    x ← gets (λ s, cpus s c);
    if noff x <? 1 then panic "pop_off"
    else
      upd_cpu c (λ x, set_noff (noff x - 1) x) ;;
      x ← gets (λ s, cpus s c);
      if (noff x =? 0) && intena x then intr_on c else mret tt.

Definition holding (c k : nat) : M locks bool :=
  l ← gets (λ s, lks s k);
  mret (lk_locked l && bool_decide (lk_cpu l = Some c)).

(** [acquire] up to the loop, one atomic swap of the loop, and the rest. *)
Definition acquire_enter (c k : nat) : M locks unit :=
  push_off c ;;
  h ← holding c k;
  if h : bool then panic "acquire" else mret tt.
Definition acquire_swap (k : nat) : M locks bool :=
  l ← gets (λ s, lks s k);
  upd_lk k (λ l, Spinlock true (lk_cpu l)) ;;
  mret (lk_locked l).
Definition acquire_record (c k : nat) : M locks unit :=
  upd_lk k (λ l, Spinlock (lk_locked l) (Some c)).

Definition acquire (fuel c k : nat) : M locks unit :=
  acquire_enter c k ;;
  loop fuel (λ _, old ← acquire_swap k; mret (if old : bool then inl tt else inr tt)) tt ;;
  acquire_record c k.

(** [release] up to the store that opens the lock, and the rest. *)
Definition release_enter (c k : nat) : M locks unit :=
  h ← holding c k;
  if negb h then panic "release"
  else upd_lk k (λ l, Spinlock (lk_locked l) None).
Definition release_leave (c k : nat) : M locks unit :=
  upd_lk k (λ l, Spinlock false (lk_cpu l)) ;;
  pop_off c.

Definition release (c k : nat) : M locks unit :=
  release_enter c k ;;
  release_leave c k.

(** * Interleaving *)

(** Where a cpu is in [acquire] or [release] of a lock. *)
Inductive pc := Idle | Spinning (k : nat) | Got (k : nat) | Releasing (k : nat).

(** [held c] are the locks whose critical section cpu [c] is in. *)
Record config := Config {
  st : locks;
  at_pc : nat → pc;
  held : nat → list nat;
}.

Inductive lstep : config → config → Prop :=
  | step_acquire_enter s pcs h c k s' :
      pcs c = Idle → acquire_enter c k s = Ok (tt, s') →
      lstep (Config s pcs h) (Config s' (<[c := Spinning k]> pcs) h)
  | step_acquire_spin s pcs h c k s' :
      pcs c = Spinning k → acquire_swap k s = Ok (true, s') →
      lstep (Config s pcs h) (Config s' pcs h)
  | step_acquire_swap s pcs h c k s' :
      pcs c = Spinning k → acquire_swap k s = Ok (false, s') →
      lstep (Config s pcs h) (Config s' (<[c := Got k]> pcs) h)
  | step_acquire_record s pcs h c k s' :
      pcs c = Got k → acquire_record c k s = Ok (tt, s') →
      lstep (Config s pcs h) (Config s' (<[c := Idle]> pcs) (<[c := k :: h c]> h))
  | step_release_enter s pcs h c k s' :
      pcs c = Idle → release_enter c k s = Ok (tt, s') →
      lstep (Config s pcs h) (Config s' (<[c := Releasing k]> pcs) (<[c := filter (λ x, x ≠ k) (h c)]> h))
  | step_release_leave s pcs h c k s' :
      pcs c = Releasing k → release_leave c k s = Ok (tt, s') →
      lstep (Config s pcs h) (Config s' (<[c := Idle]> pcs) h)
  (* code outside critical sections turns interrupts on and off *)
  | step_intr s pcs h c b :
      pcs c = Idle → noff (cpus s c) = 0 →
      lstep (Config s pcs h) (Config (Locks (<[c := set_sie b (cpus s c)]> (cpus s)) (lks s)) pcs h).

(** After boot: all locks open, no cpu in a critical section. *)
Definition booted (b : nat → bool) : config :=
  Config (Locks (λ c, Cpu 0 false (b c)) (λ _, Spinlock false None)) (λ _, Idle) (λ _, []).

Inductive reachable (b : nat → bool) : config → Prop :=
  | reach_boot : reachable b (booted b)
  | reach_step x y : reachable b x → lstep x y → reachable b y.

(** * The invariant *)

Definition owns (x : config) (c k : nat) : Prop :=
  k ∈ held x c ∨ at_pc x c = Got k ∨ at_pc x c = Releasing k.

Definition pending (p : pc) : Z := match p with Idle => 0 | _ => 1 end.

Record inv (x : config) : Prop := {
  inv_locked : ∀ k, lk_locked (lks (st x) k) = true ↔ ∃ c, owns x c k;
  inv_mutex : ∀ c c' k, owns x c k → owns x c' k → c = c';
  inv_cpu : ∀ c k, lk_cpu (lks (st x) k) = Some c ↔ k ∈ held x c;
  inv_nodup : ∀ c, NoDup (held x c);
  inv_pc : ∀ c k, at_pc x c = Got k ∨ at_pc x c = Releasing k → k ∉ held x c;
  inv_noff : ∀ c, noff (cpus (st x) c) = Z.of_nat (length (held x c)) + pending (at_pc x c);
  inv_intr : ∀ c, 0 < noff (cpus (st x) c) → sie (cpus (st x) c) = false;
}.

(** What the parts do, cpu by cpu and lock by lock. *)
Lemma push_off_run c s :
  ∃ s', push_off c s = Ok (tt, s') ∧ lks s' = lks s ∧ (∀ c', c' ≠ c → cpus s' c' = cpus s c') ∧
    cpus s' c = Cpu (noff (cpus s c) + 1)
                    (if noff (cpus s c) =? 0 then sie (cpus s c) else intena (cpus s c)) false.
Proof.
  unfold push_off, intr_get, intr_off. rewrite bind_gets. unfold upd_cpu. rewrite bind_modify, bind_gets.
  cbn [cpus lks]. rewrite fn_lookup_insert. cbn [noff set_sie].
  destruct (noff (cpus s c) =? 0); [rewrite bind_modify|rewrite bind_ret];
    (eexists; split; [done|]; split; [done|]; split;
     [intros c' Hne; cbn; by rewrite !fn_lookup_insert_ne by done|cbn; by rewrite ?fn_lookup_insert]).
Qed.

Lemma pop_off_run c s :
  sie (cpus s c) = false → 1 ≤ noff (cpus s c) →
  ∃ s', pop_off c s = Ok (tt, s') ∧ lks s' = lks s ∧ (∀ c', c' ≠ c → cpus s' c' = cpus s c') ∧
    cpus s' c = Cpu (noff (cpus s c) - 1) (intena (cpus s c))
                    (bool_decide (noff (cpus s c) = 1) && intena (cpus s c)).
Proof.
  intros Hs Hn. unfold pop_off, intr_get. rewrite bind_gets, Hs, bind_gets.
  destruct (Z.ltb_spec (noff (cpus s c)) 1); [lia|]. unfold upd_cpu. rewrite bind_modify, bind_gets.
  cbn [cpus lks]. rewrite fn_lookup_insert. cbn [noff intena set_noff].
  destruct (Z.eqb_spec (noff (cpus s c) - 1) 0) as [E|E];
    [rewrite bool_decide_true by lia|rewrite bool_decide_false by lia];
    [destruct (intena (cpus s c)) eqn:Ei|]; cbn [andb];
    (eexists; split; [done|]; split; [done|]; split;
     [intros c' Hne; cbn; by rewrite !fn_lookup_insert_ne by done|
      cbn; rewrite ?fn_lookup_insert; unfold set_sie, set_noff; cbn; by rewrite ?Hs, ?Ei]).
Qed.

Lemma acquire_enter_inv c k s s' :
  acquire_enter c k s = Ok (tt, s') →
  lks s' = lks s ∧ (∀ c', c' ≠ c → cpus s' c' = cpus s c') ∧
  noff (cpus s' c) = noff (cpus s c) + 1 ∧ sie (cpus s' c) = false ∧
  ¬ (lk_locked (lks s k) = true ∧ lk_cpu (lks s k) = Some c).
Proof.
  unfold acquire_enter. destruct (push_off_run c s) as (s1 & Hrun & Hl & Hc & Hx).
  rewrite (bind_Ok_1 _ _ _ _ _ Hrun). unfold holding. rewrite bind_assoc, bind_gets, bind_ret, Hl.
  destruct (lk_locked (lks s k) && bool_decide (lk_cpu (lks s k) = Some c)) eqn:E; [done|].
  intros [= <-]. rewrite Hx. split_and!; try done. intros [E1 E2].
  rewrite E1, bool_decide_true in E by done. done.
Qed.

Lemma release_enter_inv c k s s' :
  release_enter c k s = Ok (tt, s') →
  lk_locked (lks s k) = true ∧ lk_cpu (lks s k) = Some c ∧
  s' = Locks (cpus s) (<[k := Spinlock true None]> (lks s)).
Proof.
  unfold release_enter, holding. rewrite bind_assoc, bind_gets, bind_ret.
  destruct (lk_locked (lks s k)) eqn:E1; [|done].
  destruct (decide (lk_cpu (lks s k) = Some c)) as [E2|E2].
  - rewrite bool_decide_true by done. cbn. unfold upd_lk, modify. rewrite E1. naive_solver.
  - rewrite bool_decide_false by done. done.
Qed.

(** An owner of a lock after a step of cpu [c]. *)
Lemma owns_other s s' pcs h c p l c' k :
  c' ≠ c → owns (Config s' (<[c := p]> pcs) (<[c := l]> h)) c' k ↔ owns (Config s pcs h) c' k.
Proof. intros Hne. unfold owns. cbn. by rewrite !fn_lookup_insert_ne. Qed.

Lemma owns_self s pcs h c p l k :
  owns (Config s (<[c := p]> pcs) (<[c := l]> h)) c k ↔ k ∈ l ∨ p = Got k ∨ p = Releasing k.
Proof. unfold owns. cbn. by rewrite !fn_lookup_insert. Qed.

(** A step of cpu [c] on lock [k] keeps the invariant if it keeps it for this
    cpu and this lock. *)
Section one_step.
Context (x y : config) (c k : nat).
Local Abbreviation mine z := (k ∈ held z c ∨ at_pc z c = Got k ∨ at_pc z c = Releasing k).

Record local_step : Prop := {
  ls_pc : ∀ c', c' ≠ c → at_pc y c' = at_pc x c';
  ls_held : ∀ c', c' ≠ c → held y c' = held x c';
  ls_cpus : ∀ c', c' ≠ c → cpus (st y) c' = cpus (st x) c';
  ls_lks : ∀ k', k' ≠ k → lks (st y) k' = lks (st x) k';
  ls_others : ∀ k', k' ≠ k → owns y c k' ↔ owns x c k';
  ls_others_held : ∀ k', k' ≠ k → k' ∈ held y c ↔ k' ∈ held x c;
  ls_locked : lk_locked (lks (st y) k) = true ↔ mine y ∨ ∃ c', c' ≠ c ∧ owns x c' k;
  ls_mutex : mine y → ∀ c', c' ≠ c → ¬ owns x c' k;
  ls_cpu : lk_cpu (lks (st y) k) = Some c ↔ k ∈ held y c;
  ls_cpu_other : ∀ c', c' ≠ c → lk_cpu (lks (st y) k) = Some c' ↔ k ∈ held x c';
  ls_nodup : NoDup (held y c);
  ls_notin : ∀ k', at_pc y c = Got k' ∨ at_pc y c = Releasing k' → k' ∉ held y c;
  ls_noff : noff (cpus (st y) c) = Z.of_nat (length (held y c)) + pending (at_pc y c);
  ls_intr : 0 < noff (cpus (st y) c) → sie (cpus (st y) c) = false;
}.

Lemma local_step_owns : local_step → ∀ c' k', c' ≠ c → owns y c' k' ↔ owns x c' k'.
Proof. intros L c' k' Hne. unfold owns. by rewrite (ls_pc L), (ls_held L). Qed.

Lemma local_step_inv : inv x → local_step → inv y.
Proof.
  intros I L. pose proof (local_step_owns L) as Ho. destruct I as [I1 I2 I3 I4 I5 I6 I7].
  constructor.
  - intros k'. destruct (decide (k' = k)) as [->|Hk].
    + rewrite (ls_locked L). split.
      * intros [Hm|(c' & Hc & Hown)]; [by exists c|exists c'; by apply Ho].
      * intros (c' & Hown). destruct (decide (c' = c)) as [->|Hc]; [by left|right].
        exists c'. split; [done|]. by apply Ho.
    + rewrite (ls_lks L) by done. rewrite I1. split; intros (c' & Hown); exists c';
        (destruct (decide (c' = c)) as [->|Hc]; [by apply (ls_others L)|by apply Ho]).
  - intros c1 c2 k' H1 H2. destruct (decide (k' = k)) as [->|Hk].
    + destruct (decide (c1 = c)) as [->|Hc1], (decide (c2 = c)) as [->|Hc2]; [done| | |].
      * by destruct (ls_mutex L H1 c2 Hc2), (Ho c2 k Hc2); auto.
      * by destruct (ls_mutex L H2 c1 Hc1), (Ho c1 k Hc1); auto.
      * apply (I2 c1 c2 k); by apply Ho.
    + assert (∀ c', owns y c' k' → owns x c' k') as Hx.
      { intros c' Hown. destruct (decide (c' = c)) as [->|Hc]; [by apply (ls_others L)|by apply Ho]. }
      apply (I2 c1 c2 k'); by apply Hx.
  - intros c' k'. destruct (decide (c' = c)) as [->|Hc], (decide (k' = k)) as [->|Hk].
    + apply (ls_cpu L).
    + rewrite (ls_lks L), (ls_others_held L) by done. apply I3.
    + rewrite (ls_held L) by done. by apply (ls_cpu_other L).
    + rewrite (ls_lks L), (ls_held L) by done. apply I3.
  - intros c'. destruct (decide (c' = c)) as [->|Hc]; [apply (ls_nodup L)|]. by rewrite (ls_held L).
  - intros c' k'. destruct (decide (c' = c)) as [->|Hc]; [apply (ls_notin L)|].
    rewrite (ls_held L), (ls_pc L) by done. apply I5.
  - intros c'. destruct (decide (c' = c)) as [->|Hc]; [apply (ls_noff L)|].
    rewrite (ls_held L), (ls_pc L), (ls_cpus L) by done. apply I6.
  - intros c'. destruct (decide (c' = c)) as [->|Hc]; [apply (ls_intr L)|].
    rewrite (ls_cpus L) by done. apply I7.
Qed.
End one_step.

(** A step after which everybody owns the same locks. *)
Lemma same_owner_inv x y :
  inv x → (∀ k, lks (st y) k = lks (st x) k) → held y = held x →
  (∀ c k, at_pc y c = Got k ∨ at_pc y c = Releasing k ↔ at_pc x c = Got k ∨ at_pc x c = Releasing k) →
  (∀ c, noff (cpus (st y) c) = Z.of_nat (length (held x c)) + pending (at_pc y c)) →
  (∀ c, 0 < noff (cpus (st y) c) → sie (cpus (st y) c) = false) → inv y.
Proof.
  intros [I1 I2 I3 I4 I5 I6 I7] Hl Hh Hp Hn Hi.
  assert (∀ c k, owns y c k ↔ owns x c k) as Ho by (intros c k; unfold owns; by rewrite Hh, Hp).
  constructor; try done.
  - intros k. rewrite Hl, I1. by setoid_rewrite Ho.
  - intros c c' k. rewrite !Ho. apply I2.
  - intros c k. rewrite Hl, Hh. apply I3.
  - intros c. rewrite Hh. apply I4.
  - intros c k. rewrite Hp, Hh. apply I5.
  - intros c. rewrite Hh. apply Hn.
Qed.

Section steps.
Context (s : locks) (pcs : nat → pc) (h : nat → list nat) (c k : nat).
Hypothesis Hinv : inv (Config s pcs h).

Lemma acquire_enter_step s' :
  pcs c = Idle → acquire_enter c k s = Ok (tt, s') → inv (Config s' (<[c := Spinning k]> pcs) h).
Proof.
  intros Hpc (Hl & Hc & Hn & Hs & _)%acquire_enter_inv.
  pose proof (inv_noff _ Hinv) as I6. pose proof (inv_intr _ Hinv) as I7. cbn in I6, I7.
  apply (same_owner_inv _ _ Hinv); cbn; [by rewrite Hl|done| | |].
  - intros c' k'. destruct (decide (c' = c)) as [->|Hne].
    + rewrite fn_lookup_insert, Hpc. naive_solver.
    + by rewrite fn_lookup_insert_ne.
  - intros c'. destruct (decide (c' = c)) as [->|Hne].
    + rewrite fn_lookup_insert, Hn, I6, Hpc. cbn. lia.
    + rewrite fn_lookup_insert_ne, Hc by done. apply I6.
  - intros c'. destruct (decide (c' = c)) as [->|Hne]; [done|]. rewrite Hc by done. apply I7.
Qed.

Lemma acquire_spin_step s' :
  acquire_swap k s = Ok (true, s') → inv (Config s' pcs h).
Proof.
  unfold acquire_swap. rewrite bind_gets. intros [= E <-].
  apply (same_owner_inv _ _ Hinv); cbn; [|done|done|apply (inv_noff _ Hinv)|apply (inv_intr _ Hinv)].
  intros k'. destruct (decide (k' = k)) as [->|Hne]; [|by rewrite fn_lookup_insert_ne].
  rewrite fn_lookup_insert. destruct (lks s k) as [l o]. cbn in E. by rewrite E.
Qed.

Lemma acquire_swap_step s' :
  pcs c = Spinning k → acquire_swap k s = Ok (false, s') → inv (Config s' (<[c := Got k]> pcs) h).
Proof.
  intros Hpc. unfold acquire_swap. rewrite bind_gets. intros [= E <-]. cbn.
  pose proof (inv_locked _ Hinv k) as Hfree. cbn in Hfree. rewrite E in Hfree.
  assert (∀ c', ¬ owns (Config s pcs h) c' k) as Hno by (intros c' Ho; discriminate (proj2 Hfree (ex_intro _ c' Ho))).
  apply (local_step_inv (Config s pcs h) _ c k Hinv). constructor; cbn.
  - intros. by rewrite fn_lookup_insert_ne.
  - done.
  - done.
  - intros. by rewrite fn_lookup_insert_ne.
  - intros k' Hk. unfold owns. cbn. rewrite fn_lookup_insert, Hpc. naive_solver.
  - done.
  - rewrite !fn_lookup_insert. cbn. naive_solver.
  - intros _ c' _. apply Hno.
  - rewrite fn_lookup_insert. apply (inv_cpu _ Hinv).
  - intros c' _. rewrite fn_lookup_insert. apply (inv_cpu _ Hinv).
  - apply (inv_nodup _ Hinv).
  - intros k'. rewrite fn_lookup_insert. intros [[= <-]|?] Hin; [|done]. by destruct (Hno c); left.
  - rewrite fn_lookup_insert. pose proof (inv_noff _ Hinv c) as E6. cbn in E6. by rewrite E6, Hpc.
  - apply (inv_intr _ Hinv).
Qed.

Lemma acquire_record_step s' :
  pcs c = Got k → acquire_record c k s = Ok (tt, s') →
  inv (Config s' (<[c := Idle]> pcs) (<[c := k :: h c]> h)).
Proof.
  intros Hpc [= <-]. assert (owns (Config s pcs h) c k) as Hown by (right; by left).
  apply (local_step_inv (Config s pcs h) _ c k Hinv). constructor; cbn; rewrite ?fn_lookup_insert.
  - intros. by rewrite fn_lookup_insert_ne.
  - intros. by rewrite fn_lookup_insert_ne.
  - done.
  - intros. by rewrite fn_lookup_insert_ne.
  - intros k' Hk. unfold owns. cbn. rewrite !fn_lookup_insert, Hpc, elem_of_cons. naive_solver.
  - intros k' Hk. rewrite elem_of_cons. naive_solver.
  - rewrite (inv_locked _ Hinv k), elem_of_cons. cbn. naive_solver.
  - intros _ c' Hne Ho. apply Hne. by apply (inv_mutex _ Hinv c' c k).
  - cbn. rewrite elem_of_cons. naive_solver.
  - intros c' Hne. cbn. split; [congruence|]. intros Hin. destruct Hne.
    apply (inv_mutex _ Hinv c' c k); [by left|done].
  - constructor; [|apply (inv_nodup _ Hinv)]. apply (inv_pc _ Hinv c k). by left.
  - intros k'. naive_solver.
  - pose proof (inv_noff _ Hinv c) as E6. cbn in E6. rewrite E6, Hpc. cbn. lia.
  - apply (inv_intr _ Hinv).
Qed.
Lemma filter_ne_id (l : list nat) : k ∉ l → filter (λ x, x ≠ k) l = l.
Proof.
  induction l as [|x l IH]; intros Hk; [done|]. rewrite not_elem_of_cons in Hk.
  rewrite filter_cons_True by (intros ->; tauto). by rewrite IH by tauto.
Qed.

Lemma filter_ne_length (l : list nat) :
  NoDup l → k ∈ l → length l = S (length (filter (λ x, x ≠ k) l)).
Proof.
  induction 1 as [|x l Hx Hnd IH]; [by intros ?%not_elem_of_nil|].
  intros [Hkx|Hin]%elem_of_cons.
  - rewrite filter_cons_False by (rewrite Hkx; tauto). cbn. rewrite filter_ne_id; [done|by rewrite Hkx].
  - rewrite filter_cons_True by (intros ->; done). cbn. by rewrite IH.
Qed.

Lemma release_enter_step s' :
  pcs c = Idle → release_enter c k s = Ok (tt, s') →
  inv (Config s' (<[c := Releasing k]> pcs) (<[c := filter (λ x, x ≠ k) (h c)]> h)).
Proof.
  intros Hpc (Hl & Hc & ->)%release_enter_inv.
  assert (k ∈ h c) as Hin by (by apply (inv_cpu _ Hinv c k)).
  apply (local_step_inv (Config s pcs h) _ c k Hinv). constructor; cbn; rewrite ?fn_lookup_insert.
  - intros. by rewrite fn_lookup_insert_ne.
  - intros. by rewrite fn_lookup_insert_ne.
  - done.
  - intros. by rewrite fn_lookup_insert_ne.
  - intros k' Hk. unfold owns. cbn. rewrite !fn_lookup_insert, Hpc, list_elem_of_filter. naive_solver.
  - intros k' Hk. rewrite list_elem_of_filter. naive_solver.
  - cbn. naive_solver.
  - intros _ c' Hne Ho. apply Hne. apply (inv_mutex _ Hinv c' c k); [done|by left].
  - cbn. rewrite list_elem_of_filter. naive_solver.
  - intros c' Hne. cbn. split; [done|]. intros Hin'. destruct Hne.
    apply (inv_mutex _ Hinv c' c k); by left.
  - apply NoDup_filter, (inv_nodup _ Hinv).
  - intros k'. rewrite list_elem_of_filter. naive_solver.
  - pose proof (inv_noff _ Hinv c) as E6. cbn in E6. rewrite E6, Hpc. cbn.
    pose proof (filter_ne_length (h c) (inv_nodup _ Hinv c) Hin). lia.
  - apply (inv_intr _ Hinv).
Qed.

Lemma release_leave_step s' :
  pcs c = Releasing k → release_leave c k s = Ok (tt, s') → inv (Config s' (<[c := Idle]> pcs) h).
Proof.
  intros Hpc Hrun. unfold release_leave, upd_lk in Hrun. rewrite bind_modify in Hrun.
  pose proof (inv_noff _ Hinv c) as E6. cbn in E6. rewrite Hpc in E6. cbn in E6.
  set (s1 := Locks _ _) in Hrun.
  destruct (pop_off_run c s1) as (s2 & Hrun2 & Hl & Hc & Hx);
    [apply (inv_intr _ Hinv); cbn; lia|cbn; lia|].
  rewrite Hrun2 in Hrun. injection Hrun as <-. cbn in Hl, Hx.
  assert (owns (Config s pcs h) c k) as Hown by (right; by right).
  assert (k ∉ h c) as Hnin by (apply (inv_pc _ Hinv c k); by right).
  apply (local_step_inv (Config s pcs h) _ c k Hinv). constructor; cbn; rewrite ?fn_lookup_insert, ?Hl, ?Hx.
  - intros. by rewrite fn_lookup_insert_ne.
  - done.
  - intros c' Hne. by rewrite Hc.
  - intros. by rewrite fn_lookup_insert_ne.
  - intros k' Hk. unfold owns. cbn. rewrite fn_lookup_insert, Hpc. naive_solver.
  - done.
  - rewrite fn_lookup_insert. cbn. split; [done|]. intros [[?|[?|?]]|(c' & Hne & Ho)]; try done.
    destruct Hne. by apply (inv_mutex _ Hinv c' c k).
  - naive_solver.
  - rewrite fn_lookup_insert. cbn. apply (inv_cpu _ Hinv).
  - intros c' _. rewrite fn_lookup_insert. cbn. apply (inv_cpu _ Hinv).
  - apply (inv_nodup _ Hinv).
  - intros k'. naive_solver.
  - cbn. lia.
  - cbn. intros Hpos. rewrite bool_decide_false by lia. done.
Qed.

Lemma intr_step b :
  pcs c = Idle → noff (cpus s c) = 0 →
  inv (Config (Locks (<[c := set_sie b (cpus s c)]> (cpus s)) (lks s)) pcs h).
Proof.
  intros Hpc Hn. apply (same_owner_inv _ _ Hinv); cbn; try done; intros c';
    (destruct (decide (c' = c)) as [->|Hne]; [rewrite fn_lookup_insert; cbn|rewrite fn_lookup_insert_ne by done]).
  - apply (inv_noff _ Hinv).
  - apply (inv_noff _ Hinv).
  - lia.
  - apply (inv_intr _ Hinv).
Qed.
End steps.

Lemma booted_inv b : inv (booted b).
Proof.
  constructor; cbn; try done.
  - intros k. split; [done|]. intros (c & [?%not_elem_of_nil|[?|?]]); done.
  - intros c c' k [?%not_elem_of_nil|[?|?]]; done.
  - intros c k. rewrite elem_of_nil. naive_solver.
  - intros c. constructor.
  - naive_solver.
Qed.

Lemma reachable_inv b x : reachable b x → inv x.
Proof.
  induction 1 as [|x y Hr IH Hs]; [apply booted_inv|]. destruct Hs.
  - by eapply acquire_enter_step.
  - by eapply acquire_spin_step.
  - by eapply acquire_swap_step.
  - by eapply acquire_record_step.
  - by eapply release_enter_step.
  - by eapply release_leave_step.
  - by apply intr_step.
Qed.


(** * Theorems *)

Lemma holding_run c k s :
  holding c k s = Ok (lk_locked (lks s k) && bool_decide (lk_cpu (lks s k) = Some c), s).
Proof. done. Qed.

(** C11: Mutual exclusion.  However the cpus interleave their calls, at most
    one cpu is in the critical section of a lock; [holding] tells exactly
    whether the calling cpu is; interrupts are off on a cpu that is in a
    critical section; and a cpu that spins on an open lock gets it with its
    next swap. *)
Theorem spinlock_mutual_exclusion (b : nat → bool) (x : config) :
  reachable b x →
  (∀ c c' k, k ∈ held x c → k ∈ held x c' → c = c') ∧
  (∀ c k, holding c k (st x) = Ok (bool_decide (k ∈ held x c), st x)) ∧
  (∀ c k, k ∈ held x c → sie (cpus (st x) c) = false) ∧
  (∀ k, (∀ c, ¬ owns x c k) → ∃ s', acquire_swap k (st x) = Ok (false, s')).
Proof.
  intros I%reachable_inv. split_and!.
  - intros c c' k H1 H2. apply (inv_mutex _ I c c' k); by left.
  - intros c k. rewrite holding_run. f_equal. f_equal.
    destruct (decide (k ∈ held x c)) as [Hin|Hn].
    + rewrite (bool_decide_true _ Hin), (proj2 (inv_cpu _ I c k) Hin), bool_decide_true by done.
      by rewrite (proj2 (inv_locked _ I k) (ex_intro _ c (or_introl Hin))).
    + rewrite (bool_decide_false _ Hn), bool_decide_false, andb_false_r by (by rewrite (inv_cpu _ I)). done.
  - intros c k Hin. apply (inv_intr _ I). rewrite (inv_noff _ I).
    assert (length (held x c) ≠ 0)%nat by (destruct (held x c); [by apply not_elem_of_nil in Hin|done]).
    destruct (at_pc x c); cbn; lia.
  - intros k Hno. unfold acquire_swap. rewrite bind_gets. eexists.
    assert (lk_locked (lks (st x) k) = false) as E.
    { apply not_true_is_false. rewrite (inv_locked _ I). naive_solver. }
    unfold upd_lk. rewrite bind_modify, E. done.
Qed.

Fixpoint times (n : nat) (m : M locks unit) : M locks unit :=
  match n with
  | O => mret tt
  | S n => m ;; times n m
  end.

Lemma times_push n c s :
  ∃ s', times n (push_off c) s = Ok (tt, s') ∧ noff (cpus s' c) = noff (cpus s c) + Z.of_nat n ∧
    (0 ≤ noff (cpus s c) → (0 < n)%nat → sie (cpus s' c) = false ∧
      intena (cpus s' c) = if noff (cpus s c) =? 0 then sie (cpus s c) else intena (cpus s c)).
Proof.
  revert s. induction n as [|n IH]; intros s.
  { exists s. split_and!; [done|lia|lia]. }
  cbn [times]. destruct (push_off_run c s) as (s1 & Hrun & _ & _ & Hx).
  rewrite (bind_Ok_1 _ _ _ _ _ Hrun). destruct (IH s1) as (s' & Hrun' & Hn & Hs).
  rewrite Hx in Hn, Hs. cbn in Hn, Hs. exists s'. split_and!; [done|lia|].
  intros H0 _. destruct n as [|n].
  - injection Hrun' as <-. rewrite Hx. done.
  - destruct Hs as [Hs1 Hs2]; [lia|lia|]. rewrite Hs1, Hs2.
    by rewrite (proj2 (Z.eqb_neq (noff (cpus s c) + 1) 0)) by lia.
Qed.

Lemma times_pop n c s :
  Z.of_nat (S n) = noff (cpus s c) → sie (cpus s c) = false →
  ∃ s', times (S n) (pop_off c) s = Ok (tt, s') ∧ noff (cpus s' c) = 0 ∧
    sie (cpus s' c) = intena (cpus s c).
Proof.
  revert s. induction n as [|n IH]; intros s Hn Hs.
  - destruct (pop_off_run c s) as (s1 & Hrun & _ & _ & Hx); [done|lia|].
    cbn [times]. rewrite (bind_Ok_1 _ _ _ _ _ Hrun). exists s1.
    rewrite Hx, bool_decide_true by lia. cbn. split_and!; [done|lia|done].
  - destruct (pop_off_run c s) as (s1 & Hrun & _ & _ & Hx); [done|lia|].
    cbn [times]. rewrite (bind_Ok_1 _ _ _ _ _ Hrun).
    rewrite bool_decide_false in Hx by lia. cbn in Hx.
    destruct (IH s1) as (s' & Hrun' & Hn' & Hs'); [rewrite Hx; cbn; lia|by rewrite Hx|].
    exists s'. rewrite Hx in Hs'. done.
Qed.

(** [push_off] and [pop_off] are matched: after any number of nested
    [push_off]s interrupts are off, and only the same number of [pop_off]s
    turns them back to what they were before the first one. *)
Theorem push_pop_restores (n : nat) (c : nat) (s : locks) :
  noff (cpus s c) = 0 →
  ∃ s1 s2, times (S n) (push_off c) s = Ok (tt, s1) ∧ sie (cpus s1 c) = false ∧
    (∀ m s', (0 < m ≤ n)%nat → times m (pop_off c) s1 = Ok (tt, s') → sie (cpus s' c) = false) ∧
    times (S n) (pop_off c) s1 = Ok (tt, s2) ∧
    noff (cpus s2 c) = 0 ∧ sie (cpus s2 c) = sie (cpus s c).
Proof.
  intros H0. destruct (times_push (S n) c s) as (s1 & Hpush & Hn1 & Hs1).
  destruct Hs1 as [Hs1 Hi1]; [lia|lia|]. rewrite H0, Z.eqb_refl in Hi1.
  destruct (times_pop n c s1) as (s2 & Hpop & Hn2 & Hs2); [lia|done|].
  exists s1, s2. split_and!; try done; [|congruence].
  rewrite H0 in Hn1. clear Hpush Hpop Hs2 Hn2 s2. clear H0 Hi1 s.
  intros m s' Hm. revert n s1 Hn1 Hs1 Hm. induction m as [|m IH]; intros n s1 Hn1 Hs1 Hm; [lia|].
  cbn [times]. destruct (pop_off_run c s1) as (s2 & Hrun & _ & _ & Hx); [done|lia|].
  rewrite (bind_Ok_1 _ _ _ _ _ Hrun), bool_decide_false in * by lia. cbn in Hx.
  destruct m as [|m]; [intros [= <-]; by rewrite Hx|].
  apply (IH (pred n)); [rewrite Hx; cbn; lia|by rewrite Hx|lia].
Qed.

(** One critical section.  Taking an open lock succeeds with the first
    swap and makes the cpu its holder, with interrupts off; releasing it opens
    the lock again and restores the nesting depth and the interrupt state.
    Taking a lock the cpu already holds panics instead of spinning forever,
    and so does releasing a lock the cpu does not hold. *)
Theorem acquire_release (fuel c k : nat) (s : locks) :
  0 ≤ noff (cpus s c) → (0 < noff (cpus s c) → sie (cpus s c) = false) →
  (lk_locked (lks s k) = false →
     ∃ s1 s2, acquire (S fuel) c k s = Ok (tt, s1) ∧
       holding c k s1 = Ok (true, s1) ∧ sie (cpus s1 c) = false ∧
       acquire (S fuel) c k s1 = Panic "acquire" ∧
       release c k s1 = Ok (tt, s2) ∧ lks s2 k = Spinlock false None ∧
       noff (cpus s2 c) = noff (cpus s c) ∧ sie (cpus s2 c) = sie (cpus s c)) ∧
  (lk_cpu (lks s k) ≠ Some c → release c k s = Panic "release").
Proof.
  intros Hn Hi. split.
  2: { intros Hc. unfold release, release_enter. rewrite bind_assoc.
       rewrite (bind_Ok_1 _ _ _ _ _ (holding_run c k s)), bool_decide_false, andb_false_r by done. done. }
  intros Hfree. destruct (push_off_run c s) as (s0 & Hpush & Hl & _ & Hx).
  assert (acquire (S fuel) c k s = Ok (tt, Locks (cpus s0)
    (<[k := Spinlock true (Some c)]> (<[k := Spinlock true (lk_cpu (lks s k))]> (lks s))))) as Hacq.
  { unfold acquire, acquire_enter. rewrite !bind_assoc, (bind_Ok_1 _ _ _ _ _ Hpush), bind_assoc.
    rewrite (bind_Ok_1 _ _ _ _ _ (holding_run c k s0)), Hl, Hfree. cbn [andb]. rewrite bind_ret.
    rewrite (bind_Ok_1 _ _ s0 tt (Locks (cpus s0) (<[k := Spinlock true (lk_cpu (lks s k))]> (lks s)))).
    - unfold acquire_record, upd_lk, modify. cbn. by rewrite fn_lookup_insert.
    - apply loop_done. unfold acquire_swap. rewrite bind_assoc, bind_gets, Hl, bind_assoc.
      unfold upd_lk. by rewrite bind_modify, bind_ret, Hfree, Hl. }
  eexists. set (s1 := Locks _ _) in Hacq.
  assert (lks s1 k = Spinlock true (Some c)) as Hk by (cbn; by rewrite fn_lookup_insert).
  assert (holding c k s1 = Ok (true, s1)) as Hhold by (rewrite holding_run, Hk; cbn; by rewrite bool_decide_true).
  destruct (push_off_run c s1) as (s1' & Hpush1 & Hl1 & _).
  set (s2 := Locks (cpus s1) (<[k := Spinlock false None]> (<[k := Spinlock true None]> (lks s1)))).
  destruct (pop_off_run c s2) as (s3 & Hpop & Hl3 & _ & Hx3).
  { cbn. by rewrite Hx. } { cbn. rewrite Hx. cbn. lia. }
  cbn in Hl3, Hx3. rewrite Hx in Hx3. cbn in Hx3.
  eexists. split_and!; [exact Hacq|exact Hhold|cbn; by rewrite Hx| | | | |].
  - unfold acquire, acquire_enter. rewrite !bind_assoc, (bind_Ok_1 _ _ _ _ _ Hpush1), bind_assoc.
    rewrite (bind_Ok_1 _ _ _ _ _ (holding_run c k s1')), Hl1, Hk. cbn. by rewrite bool_decide_true.
  - unfold release, release_enter. rewrite bind_assoc, (bind_Ok_1 _ _ _ _ _ Hhold). cbn [negb].
    unfold upd_lk. rewrite bind_modify, Hk. unfold release_leave, upd_lk. rewrite bind_modify. cbn [cpus lks].
    rewrite fn_lookup_insert. exact Hpop.
  - rewrite Hl3. by rewrite fn_lookup_insert.
  - rewrite Hx3. cbn. lia.
  - rewrite Hx3. cbn. destruct (Z.eqb_spec (noff (cpus s c)) 0) as [E|E].
    + by rewrite bool_decide_true by lia.
    + rewrite bool_decide_false by lia. cbn. symmetry. apply Hi. lia.
Qed.

(** * Example: two cpus and one lock *)
Module TwoCpus.
Definition on (_ : nat) : bool := true.

Lemma first_holds : ∃ x, reachable on x ∧ 7%nat ∈ held x 0 ∧ at_pc x 1 = Spinning 7.
Proof.
  eexists. split; [|split].
  - eapply reach_step; [eapply reach_step; [eapply reach_step; [eapply reach_step; [apply reach_boot|]|]|]|].
    + apply (step_acquire_enter _ _ _ 0 7); reflexivity.
    + apply (step_acquire_enter _ _ _ 1 7); reflexivity.
    + eapply (step_acquire_swap _ _ _ 0 7); reflexivity.
    + eapply (step_acquire_record _ _ _ 0 7); reflexivity.
  - cbn. rewrite fn_lookup_insert. left.
  - reflexivity.
Qed.

Lemma spinlock_mutual_exclusion_witness :
  ∃ x, reachable on x ∧ 7%nat ∈ held x 0 ∧ 7%nat ∉ held x 1 ∧ sie (cpus (st x) 0) = false.
Proof.
  destruct first_holds as (x & Hr & Hin & _).
  destruct (spinlock_mutual_exclusion on x Hr) as (H1 & _ & H3 & _).
  exists x. split; [exact Hr|]. split; [exact Hin|]. split; [|exact (H3 _ _ Hin)].
  intros Hin'. discriminate (H1 0%nat 1%nat 7%nat Hin Hin').
Defined.

Lemma push_pop_restores_witness :
  ∃ s1 s2, times 3 (push_off 0) (st (booted on)) = Ok (tt, s1) ∧
    times 3 (pop_off 0) s1 = Ok (tt, s2) ∧ sie (cpus s2 0%nat) = true.
Proof.
  destruct (push_pop_restores 2 0 (st (booted on)) eq_refl) as (s1 & s2 & H1 & _ & _ & H2 & _ & H3).
  exists s1, s2. split; [exact H1|]. split; [exact H2|exact H3].
Defined.

Lemma acquire_release_witness :
  ∃ s1 s2, acquire 1 0 7 (st (booted on)) = Ok (tt, s1) ∧ release 0 7 s1 = Ok (tt, s2) ∧
    sie (cpus s2 0%nat) = true.
Proof.
  destruct (acquire_release 0 0 7 (st (booted on))) as [H _]; [discriminate|intros H; discriminate H|].
  destruct (H eq_refl) as (s1 & s2 & H1 & _ & _ & _ & H2 & _ & _ & H3).
  exists s1, s2. split; [exact H1|]. split; [exact H2|exact H3].
Defined.
End TwoCpus.
