(* ===== verification/State.v ===== *)
(** The data structures of the kernel: [proc.h], [file.h], [buf.h], [fs.h],
    [sleeplock.h] and the structures private to [pipe.c], [log.c], [bio.c] and
    [console.c], together with the record of all kernel state.

    A pointer to an entry of a table is the index of the entry; the null
    pointer is [None].  Spin locks do not appear in these records: a critical
    section is an atomic step of the model (see {!Spinlock}).  A sleep channel,
    in C the address of some object, is a pair of a kind and an index. *)

From S2P Require Import Prelude Riscv Mem Str Kalloc Vm.

(** * Processes *)

Inductive procstate := UNUSED | USED | SLEEPING | RUNNABLE | RUNNING | ZOMBIE.
#[export] Instance procstate_eq_dec : EqDecision procstate.
Proof. solve_decision. Defined.

Definition channel : Type := string * Z.

(** [struct proc]. *)
Record proc := Proc {
  p_state : procstate;  (* enum procstate state *)
  p_chan : option channel;  (* if non-zero, sleeping on chan *)
  p_killed : Z;
  p_xstate : Z;  (* exit status *)
  p_pid : Z;
  p_parent : option nat;
  p_priority : Z;  (* 0 = high, 1 = medium, 2 = low *)
  p_ticks_count : Z;  (* ticks used in the current priority level *)
  p_ticks_in_q : list Z;  (* int ticks_in_q[3] *)
  p_kstack : Z;
  p_sz : Z;
  p_pagetable : Z;
  p_trapframe : Z;  (* page with the saved user registers *)
  p_context : Z * Z;  (* ra and sp of struct context *)
  p_ofile : list (option nat);  (* struct file *ofile[NOFILE] *)
  p_cwd : option nat;  (* struct inode *cwd *)
  p_name : list Z;  (* char name[16] *)
}.

Definition set_p_state (v : procstate) (x : proc) : proc :=
  Proc v (p_chan x) (p_killed x) (p_xstate x) (p_pid x) (p_parent x) (p_priority x) (p_ticks_count x) (p_ticks_in_q x) (p_kstack x) (p_sz x) (p_pagetable x) (p_trapframe x) (p_context x) (p_ofile x) (p_cwd x) (p_name x).
Definition set_p_chan (v : option channel) (x : proc) : proc :=
  Proc (p_state x) v (p_killed x) (p_xstate x) (p_pid x) (p_parent x) (p_priority x) (p_ticks_count x) (p_ticks_in_q x) (p_kstack x) (p_sz x) (p_pagetable x) (p_trapframe x) (p_context x) (p_ofile x) (p_cwd x) (p_name x).
Definition set_p_killed (v : Z) (x : proc) : proc :=
  Proc (p_state x) (p_chan x) v (p_xstate x) (p_pid x) (p_parent x) (p_priority x) (p_ticks_count x) (p_ticks_in_q x) (p_kstack x) (p_sz x) (p_pagetable x) (p_trapframe x) (p_context x) (p_ofile x) (p_cwd x) (p_name x).
Definition set_p_xstate (v : Z) (x : proc) : proc :=
  Proc (p_state x) (p_chan x) (p_killed x) v (p_pid x) (p_parent x) (p_priority x) (p_ticks_count x) (p_ticks_in_q x) (p_kstack x) (p_sz x) (p_pagetable x) (p_trapframe x) (p_context x) (p_ofile x) (p_cwd x) (p_name x).
Definition set_p_pid (v : Z) (x : proc) : proc :=
  Proc (p_state x) (p_chan x) (p_killed x) (p_xstate x) v (p_parent x) (p_priority x) (p_ticks_count x) (p_ticks_in_q x) (p_kstack x) (p_sz x) (p_pagetable x) (p_trapframe x) (p_context x) (p_ofile x) (p_cwd x) (p_name x).
Definition set_p_parent (v : option nat) (x : proc) : proc :=
  Proc (p_state x) (p_chan x) (p_killed x) (p_xstate x) (p_pid x) v (p_priority x) (p_ticks_count x) (p_ticks_in_q x) (p_kstack x) (p_sz x) (p_pagetable x) (p_trapframe x) (p_context x) (p_ofile x) (p_cwd x) (p_name x).
Definition set_p_priority (v : Z) (x : proc) : proc :=
  Proc (p_state x) (p_chan x) (p_killed x) (p_xstate x) (p_pid x) (p_parent x) v (p_ticks_count x) (p_ticks_in_q x) (p_kstack x) (p_sz x) (p_pagetable x) (p_trapframe x) (p_context x) (p_ofile x) (p_cwd x) (p_name x).
Definition set_p_ticks_count (v : Z) (x : proc) : proc :=
  Proc (p_state x) (p_chan x) (p_killed x) (p_xstate x) (p_pid x) (p_parent x) (p_priority x) v (p_ticks_in_q x) (p_kstack x) (p_sz x) (p_pagetable x) (p_trapframe x) (p_context x) (p_ofile x) (p_cwd x) (p_name x).
Definition set_p_ticks_in_q (v : list Z) (x : proc) : proc :=
  Proc (p_state x) (p_chan x) (p_killed x) (p_xstate x) (p_pid x) (p_parent x) (p_priority x) (p_ticks_count x) v (p_kstack x) (p_sz x) (p_pagetable x) (p_trapframe x) (p_context x) (p_ofile x) (p_cwd x) (p_name x).
Definition set_p_kstack (v : Z) (x : proc) : proc :=
  Proc (p_state x) (p_chan x) (p_killed x) (p_xstate x) (p_pid x) (p_parent x) (p_priority x) (p_ticks_count x) (p_ticks_in_q x) v (p_sz x) (p_pagetable x) (p_trapframe x) (p_context x) (p_ofile x) (p_cwd x) (p_name x).
Definition set_p_sz (v : Z) (x : proc) : proc :=
  Proc (p_state x) (p_chan x) (p_killed x) (p_xstate x) (p_pid x) (p_parent x) (p_priority x) (p_ticks_count x) (p_ticks_in_q x) (p_kstack x) v (p_pagetable x) (p_trapframe x) (p_context x) (p_ofile x) (p_cwd x) (p_name x).
Definition set_p_pagetable (v : Z) (x : proc) : proc :=
  Proc (p_state x) (p_chan x) (p_killed x) (p_xstate x) (p_pid x) (p_parent x) (p_priority x) (p_ticks_count x) (p_ticks_in_q x) (p_kstack x) (p_sz x) v (p_trapframe x) (p_context x) (p_ofile x) (p_cwd x) (p_name x).
Definition set_p_trapframe (v : Z) (x : proc) : proc :=
  Proc (p_state x) (p_chan x) (p_killed x) (p_xstate x) (p_pid x) (p_parent x) (p_priority x) (p_ticks_count x) (p_ticks_in_q x) (p_kstack x) (p_sz x) (p_pagetable x) v (p_context x) (p_ofile x) (p_cwd x) (p_name x).
Definition set_p_context (v : Z * Z) (x : proc) : proc :=
  Proc (p_state x) (p_chan x) (p_killed x) (p_xstate x) (p_pid x) (p_parent x) (p_priority x) (p_ticks_count x) (p_ticks_in_q x) (p_kstack x) (p_sz x) (p_pagetable x) (p_trapframe x) v (p_ofile x) (p_cwd x) (p_name x).
Definition set_p_ofile (v : list (option nat)) (x : proc) : proc :=
  Proc (p_state x) (p_chan x) (p_killed x) (p_xstate x) (p_pid x) (p_parent x) (p_priority x) (p_ticks_count x) (p_ticks_in_q x) (p_kstack x) (p_sz x) (p_pagetable x) (p_trapframe x) (p_context x) v (p_cwd x) (p_name x).
Definition set_p_cwd (v : option nat) (x : proc) : proc :=
  Proc (p_state x) (p_chan x) (p_killed x) (p_xstate x) (p_pid x) (p_parent x) (p_priority x) (p_ticks_count x) (p_ticks_in_q x) (p_kstack x) (p_sz x) (p_pagetable x) (p_trapframe x) (p_context x) (p_ofile x) v (p_name x).
Definition set_p_name (v : list Z) (x : proc) : proc :=
  Proc (p_state x) (p_chan x) (p_killed x) (p_xstate x) (p_pid x) (p_parent x) (p_priority x) (p_ticks_count x) (p_ticks_in_q x) (p_kstack x) (p_sz x) (p_pagetable x) (p_trapframe x) (p_context x) (p_ofile x) (p_cwd x) v.

Definition proc0 : proc :=
  Proc UNUSED None 0 0 0 None 0 0 [0; 0; 0] 0 0 0 0 (0, 0) (replicate (Z.to_nat NOFILE) None) None
    (replicate 16 0).

(** * Files, inodes, pipes *)

Inductive filetype := FD_NONE | FD_PIPE | FD_INODE | FD_DEVICE.
#[export] Instance filetype_eq_dec : EqDecision filetype.
Proof. solve_decision. Defined.

(** [struct file]. *)
Record file := File {
  f_type : filetype;
  f_ref : Z;  (* reference count *)
  f_readable : bool;
  f_writable : bool;
  f_pipe : Z;  (* FD_PIPE: the page of the pipe *)
  f_ip : option nat;  (* FD_INODE and FD_DEVICE *)
  f_off : Z;  (* FD_INODE *)
  f_major : Z;  (* FD_DEVICE *)
}.

Definition set_f_type (v : filetype) (x : file) : file :=
  File v (f_ref x) (f_readable x) (f_writable x) (f_pipe x) (f_ip x) (f_off x) (f_major x).
Definition set_f_ref (v : Z) (x : file) : file :=
  File (f_type x) v (f_readable x) (f_writable x) (f_pipe x) (f_ip x) (f_off x) (f_major x).
Definition set_f_readable (v : bool) (x : file) : file :=
  File (f_type x) (f_ref x) v (f_writable x) (f_pipe x) (f_ip x) (f_off x) (f_major x).
Definition set_f_writable (v : bool) (x : file) : file :=
  File (f_type x) (f_ref x) (f_readable x) v (f_pipe x) (f_ip x) (f_off x) (f_major x).
Definition set_f_pipe (v : Z) (x : file) : file :=
  File (f_type x) (f_ref x) (f_readable x) (f_writable x) v (f_ip x) (f_off x) (f_major x).
Definition set_f_ip (v : option nat) (x : file) : file :=
  File (f_type x) (f_ref x) (f_readable x) (f_writable x) (f_pipe x) v (f_off x) (f_major x).
Definition set_f_off (v : Z) (x : file) : file :=
  File (f_type x) (f_ref x) (f_readable x) (f_writable x) (f_pipe x) (f_ip x) v (f_major x).
Definition set_f_major (v : Z) (x : file) : file :=
  File (f_type x) (f_ref x) (f_readable x) (f_writable x) (f_pipe x) (f_ip x) (f_off x) v.

Definition file0 : file := File FD_NONE 0 false false 0 None 0 0.

(** [struct sleeplock]. *)
Record sleeplock := Sleeplock {
  sl_locked : bool;
  sl_pid : Z;  (* process holding the lock *)
}.

Definition set_sl_locked (v : bool) (x : sleeplock) : sleeplock :=
  Sleeplock v (sl_pid x).
Definition set_sl_pid (v : Z) (x : sleeplock) : sleeplock :=
  Sleeplock (sl_locked x) v.

Definition sleeplock0 : sleeplock := Sleeplock false 0.

Definition NDIRECT : Z := 12.
Definition BSIZE : Z := 1024.

(** [struct inode], the in-memory copy. *)
Record inode := Inode {
  i_dev : Z;
  i_inum : Z;
  i_ref : Z;
  i_lock : sleeplock;
  i_valid : bool;  (* read from disk? *)
  i_type : Z;
  i_major : Z;
  i_minor : Z;
  i_nlink : Z;
  i_size : Z;
  i_addrs : list Z;  (* uint addrs[NDIRECT+1] *)
}.

Definition set_i_dev (v : Z) (x : inode) : inode :=
  Inode v (i_inum x) (i_ref x) (i_lock x) (i_valid x) (i_type x) (i_major x) (i_minor x) (i_nlink x) (i_size x) (i_addrs x).
Definition set_i_inum (v : Z) (x : inode) : inode :=
  Inode (i_dev x) v (i_ref x) (i_lock x) (i_valid x) (i_type x) (i_major x) (i_minor x) (i_nlink x) (i_size x) (i_addrs x).
Definition set_i_ref (v : Z) (x : inode) : inode :=
  Inode (i_dev x) (i_inum x) v (i_lock x) (i_valid x) (i_type x) (i_major x) (i_minor x) (i_nlink x) (i_size x) (i_addrs x).
Definition set_i_lock (v : sleeplock) (x : inode) : inode :=
  Inode (i_dev x) (i_inum x) (i_ref x) v (i_valid x) (i_type x) (i_major x) (i_minor x) (i_nlink x) (i_size x) (i_addrs x).
Definition set_i_valid (v : bool) (x : inode) : inode :=
  Inode (i_dev x) (i_inum x) (i_ref x) (i_lock x) v (i_type x) (i_major x) (i_minor x) (i_nlink x) (i_size x) (i_addrs x).
Definition set_i_type (v : Z) (x : inode) : inode :=
  Inode (i_dev x) (i_inum x) (i_ref x) (i_lock x) (i_valid x) v (i_major x) (i_minor x) (i_nlink x) (i_size x) (i_addrs x).
Definition set_i_major (v : Z) (x : inode) : inode :=
  Inode (i_dev x) (i_inum x) (i_ref x) (i_lock x) (i_valid x) (i_type x) v (i_minor x) (i_nlink x) (i_size x) (i_addrs x).
Definition set_i_minor (v : Z) (x : inode) : inode :=
  Inode (i_dev x) (i_inum x) (i_ref x) (i_lock x) (i_valid x) (i_type x) (i_major x) v (i_nlink x) (i_size x) (i_addrs x).
Definition set_i_nlink (v : Z) (x : inode) : inode :=
  Inode (i_dev x) (i_inum x) (i_ref x) (i_lock x) (i_valid x) (i_type x) (i_major x) (i_minor x) v (i_size x) (i_addrs x).
Definition set_i_size (v : Z) (x : inode) : inode :=
  Inode (i_dev x) (i_inum x) (i_ref x) (i_lock x) (i_valid x) (i_type x) (i_major x) (i_minor x) (i_nlink x) v (i_addrs x).
Definition set_i_addrs (v : list Z) (x : inode) : inode :=
  Inode (i_dev x) (i_inum x) (i_ref x) (i_lock x) (i_valid x) (i_type x) (i_major x) (i_minor x) (i_nlink x) (i_size x) v.

Definition inode0 : inode := Inode 0 0 0 sleeplock0 false 0 0 0 0 0 (replicate 13 0).

Definition PIPESIZE : Z := 512.

(** [struct pipe]. *)
Record pipe := Pipe {
  pi_data : list Z;  (* char data[PIPESIZE] *)
  pi_nread : Z;  (* uint: number of bytes read *)
  pi_nwrite : Z;  (* uint: number of bytes written *)
  pi_readopen : bool;
  pi_writeopen : bool;
}.

Definition set_pi_data (v : list Z) (x : pipe) : pipe :=
  Pipe v (pi_nread x) (pi_nwrite x) (pi_readopen x) (pi_writeopen x).
Definition set_pi_nread (v : Z) (x : pipe) : pipe :=
  Pipe (pi_data x) v (pi_nwrite x) (pi_readopen x) (pi_writeopen x).
Definition set_pi_nwrite (v : Z) (x : pipe) : pipe :=
  Pipe (pi_data x) (pi_nread x) v (pi_readopen x) (pi_writeopen x).
Definition set_pi_readopen (v : bool) (x : pipe) : pipe :=
  Pipe (pi_data x) (pi_nread x) (pi_nwrite x) v (pi_writeopen x).
Definition set_pi_writeopen (v : bool) (x : pipe) : pipe :=
  Pipe (pi_data x) (pi_nread x) (pi_nwrite x) (pi_readopen x) v.

(** * Console *)

Definition INPUT_BUF_SIZE : Z := 128.

(** [cons] of [console.c]. *)
Record console := Cons {
  c_buf : list Z;  (* char buf[INPUT_BUF_SIZE] *)
  c_r : Z;  (* read index *)
  c_w : Z;  (* write index *)
  c_e : Z;  (* edit index *)
  c_out : list Z;  (* characters sent to the uart, latest first *)
  c_tx_busy : bool;  (* static int tx_busy of uart.c *)
  c_tx_idle : bool;  (* the device: LSR_TX_IDLE *)
  c_rx : list Z;  (* the device: characters waiting in RHR *)
}.

Definition set_c_buf (v : list Z) (x : console) : console :=
  Cons v (c_r x) (c_w x) (c_e x) (c_out x) (c_tx_busy x) (c_tx_idle x) (c_rx x).
Definition set_c_r (v : Z) (x : console) : console :=
  Cons (c_buf x) v (c_w x) (c_e x) (c_out x) (c_tx_busy x) (c_tx_idle x) (c_rx x).
Definition set_c_w (v : Z) (x : console) : console :=
  Cons (c_buf x) (c_r x) v (c_e x) (c_out x) (c_tx_busy x) (c_tx_idle x) (c_rx x).
Definition set_c_e (v : Z) (x : console) : console :=
  Cons (c_buf x) (c_r x) (c_w x) v (c_out x) (c_tx_busy x) (c_tx_idle x) (c_rx x).
Definition set_c_out (v : list Z) (x : console) : console :=
  Cons (c_buf x) (c_r x) (c_w x) (c_e x) v (c_tx_busy x) (c_tx_idle x) (c_rx x).
Definition set_c_tx_busy (v : bool) (x : console) : console :=
  Cons (c_buf x) (c_r x) (c_w x) (c_e x) (c_out x) v (c_tx_idle x) (c_rx x).
Definition set_c_tx_idle (v : bool) (x : console) : console :=
  Cons (c_buf x) (c_r x) (c_w x) (c_e x) (c_out x) (c_tx_busy x) v (c_rx x).
Definition set_c_rx (v : list Z) (x : console) : console :=
  Cons (c_buf x) (c_r x) (c_w x) (c_e x) (c_out x) (c_tx_busy x) (c_tx_idle x) v.

Definition cons0 : console := Cons (replicate (Z.to_nat INPUT_BUF_SIZE) 0) 0 0 0 [] false true [].

(** * Disk blocks *)

Abbreviation block := (list Z) (only parsing).
Definition zero_block : block := replicate (Z.to_nat BSIZE) 0.

(** [struct buf]; [bcache.head] is the entry after the last buffer. *)
Record buf := Buf {
  b_valid : bool;  (* has data been read from disk? *)
  b_disk : bool;  (* does disk own buf? *)
  b_dev : Z;
  b_blockno : Z;
  b_lock : sleeplock;
  b_refcnt : Z;
  b_prev : nat;  (* LRU cache list *)
  b_next : nat;
  b_data : block;  (* uchar data[BSIZE] *)
}.

Definition set_b_valid (v : bool) (x : buf) : buf :=
  Buf v (b_disk x) (b_dev x) (b_blockno x) (b_lock x) (b_refcnt x) (b_prev x) (b_next x) (b_data x).
Definition set_b_disk (v : bool) (x : buf) : buf :=
  Buf (b_valid x) v (b_dev x) (b_blockno x) (b_lock x) (b_refcnt x) (b_prev x) (b_next x) (b_data x).
Definition set_b_dev (v : Z) (x : buf) : buf :=
  Buf (b_valid x) (b_disk x) v (b_blockno x) (b_lock x) (b_refcnt x) (b_prev x) (b_next x) (b_data x).
Definition set_b_blockno (v : Z) (x : buf) : buf :=
  Buf (b_valid x) (b_disk x) (b_dev x) v (b_lock x) (b_refcnt x) (b_prev x) (b_next x) (b_data x).
Definition set_b_lock (v : sleeplock) (x : buf) : buf :=
  Buf (b_valid x) (b_disk x) (b_dev x) (b_blockno x) v (b_refcnt x) (b_prev x) (b_next x) (b_data x).
Definition set_b_refcnt (v : Z) (x : buf) : buf :=
  Buf (b_valid x) (b_disk x) (b_dev x) (b_blockno x) (b_lock x) v (b_prev x) (b_next x) (b_data x).
Definition set_b_prev (v : nat) (x : buf) : buf :=
  Buf (b_valid x) (b_disk x) (b_dev x) (b_blockno x) (b_lock x) (b_refcnt x) v (b_next x) (b_data x).
Definition set_b_next (v : nat) (x : buf) : buf :=
  Buf (b_valid x) (b_disk x) (b_dev x) (b_blockno x) (b_lock x) (b_refcnt x) (b_prev x) v (b_data x).
Definition set_b_data (v : block) (x : buf) : buf :=
  Buf (b_valid x) (b_disk x) (b_dev x) (b_blockno x) (b_lock x) (b_refcnt x) (b_prev x) (b_next x) v.

Definition buf0 : buf := Buf false false 0 0 sleeplock0 0 0 0 zero_block.

(** [struct log] with [struct logheader lh] inside it. *)
Record log := Log {
  l_start : Z;
  l_outstanding : Z;  (* how many FS sys calls are executing *)
  l_committing : bool;
  l_dev : Z;
  l_n : Z;  (* lh.n *)
  l_block : list Z;  (* lh.block[LOGBLOCKS] *)
}.

Definition set_l_start (v : Z) (x : log) : log :=
  Log v (l_outstanding x) (l_committing x) (l_dev x) (l_n x) (l_block x).
Definition set_l_outstanding (v : Z) (x : log) : log :=
  Log (l_start x) v (l_committing x) (l_dev x) (l_n x) (l_block x).
Definition set_l_committing (v : bool) (x : log) : log :=
  Log (l_start x) (l_outstanding x) v (l_dev x) (l_n x) (l_block x).
Definition set_l_dev (v : Z) (x : log) : log :=
  Log (l_start x) (l_outstanding x) (l_committing x) v (l_n x) (l_block x).
Definition set_l_n (v : Z) (x : log) : log :=
  Log (l_start x) (l_outstanding x) (l_committing x) (l_dev x) v (l_block x).
Definition set_l_block (v : list Z) (x : log) : log :=
  Log (l_start x) (l_outstanding x) (l_committing x) (l_dev x) (l_n x) v.

Definition log0 : log := Log 0 0 false 0 0 (replicate (Z.to_nat LOGBLOCKS) 0).

(** [struct superblock]. *)
Record superblock := Superblock {
  sb_magic : Z;
  sb_size : Z;
  sb_nblocks : Z;
  sb_ninodes : Z;
  sb_nlog : Z;
  sb_logstart : Z;
  sb_inodestart : Z;
  sb_bmapstart : Z;
}.

Definition set_sb_magic (v : Z) (x : superblock) : superblock :=
  Superblock v (sb_size x) (sb_nblocks x) (sb_ninodes x) (sb_nlog x) (sb_logstart x) (sb_inodestart x) (sb_bmapstart x).
Definition set_sb_size (v : Z) (x : superblock) : superblock :=
  Superblock (sb_magic x) v (sb_nblocks x) (sb_ninodes x) (sb_nlog x) (sb_logstart x) (sb_inodestart x) (sb_bmapstart x).
Definition set_sb_nblocks (v : Z) (x : superblock) : superblock :=
  Superblock (sb_magic x) (sb_size x) v (sb_ninodes x) (sb_nlog x) (sb_logstart x) (sb_inodestart x) (sb_bmapstart x).
Definition set_sb_ninodes (v : Z) (x : superblock) : superblock :=
  Superblock (sb_magic x) (sb_size x) (sb_nblocks x) v (sb_nlog x) (sb_logstart x) (sb_inodestart x) (sb_bmapstart x).
Definition set_sb_nlog (v : Z) (x : superblock) : superblock :=
  Superblock (sb_magic x) (sb_size x) (sb_nblocks x) (sb_ninodes x) v (sb_logstart x) (sb_inodestart x) (sb_bmapstart x).
Definition set_sb_logstart (v : Z) (x : superblock) : superblock :=
  Superblock (sb_magic x) (sb_size x) (sb_nblocks x) (sb_ninodes x) (sb_nlog x) v (sb_inodestart x) (sb_bmapstart x).
Definition set_sb_inodestart (v : Z) (x : superblock) : superblock :=
  Superblock (sb_magic x) (sb_size x) (sb_nblocks x) (sb_ninodes x) (sb_nlog x) (sb_logstart x) v (sb_bmapstart x).
Definition set_sb_bmapstart (v : Z) (x : superblock) : superblock :=
  Superblock (sb_magic x) (sb_size x) (sb_nblocks x) (sb_ninodes x) (sb_nlog x) (sb_logstart x) (sb_inodestart x) v.

Definition sb0 : superblock := Superblock 0 0 0 0 0 0 0 0.

(** * All of it *)

(** The state of the kernel. *)
Record kernel := Kernel {
  k_mem : kst;  (* RAM and the page allocator *)
  k_proc : list proc;  (* struct proc proc[NPROC] *)
  k_initproc : option nat;
  k_nextpid : Z;
  k_ticks : Z;  (* uint ticks *)
  k_last_boost : Z;  (* static uint last_boost_ticks *)
  k_cproc : option nat;  (* c->proc of the running cpu *)
  k_file : list file;  (* ftable.file[NFILE] *)
  k_inode : list inode;  (* itable.inode[NINODE] *)
  k_pipe : gmap Z pipe;  (* pipes by the address of their page *)
  k_cons : console;
  k_devsw : list bool;  (* devsw[NDEV]: are the functions of a device set? *)
  k_buf : list buf;  (* bcache.buf[NBUF], then bcache.head *)
  k_disk : gmap Z block;  (* the disk; a block not in the map is zero *)
  k_writes : list (Z * block);  (* the writes the disk has completed, latest first *)
  k_log : log;
  k_sb : superblock;
}.

Definition set_k_mem (v : kst) (x : kernel) : kernel :=
  Kernel v (k_proc x) (k_initproc x) (k_nextpid x) (k_ticks x) (k_last_boost x) (k_cproc x) (k_file x) (k_inode x) (k_pipe x) (k_cons x) (k_devsw x) (k_buf x) (k_disk x) (k_writes x) (k_log x) (k_sb x).
Definition set_k_proc (v : list proc) (x : kernel) : kernel :=
  Kernel (k_mem x) v (k_initproc x) (k_nextpid x) (k_ticks x) (k_last_boost x) (k_cproc x) (k_file x) (k_inode x) (k_pipe x) (k_cons x) (k_devsw x) (k_buf x) (k_disk x) (k_writes x) (k_log x) (k_sb x).
Definition set_k_initproc (v : option nat) (x : kernel) : kernel :=
  Kernel (k_mem x) (k_proc x) v (k_nextpid x) (k_ticks x) (k_last_boost x) (k_cproc x) (k_file x) (k_inode x) (k_pipe x) (k_cons x) (k_devsw x) (k_buf x) (k_disk x) (k_writes x) (k_log x) (k_sb x).
Definition set_k_nextpid (v : Z) (x : kernel) : kernel :=
  Kernel (k_mem x) (k_proc x) (k_initproc x) v (k_ticks x) (k_last_boost x) (k_cproc x) (k_file x) (k_inode x) (k_pipe x) (k_cons x) (k_devsw x) (k_buf x) (k_disk x) (k_writes x) (k_log x) (k_sb x).
Definition set_k_ticks (v : Z) (x : kernel) : kernel :=
  Kernel (k_mem x) (k_proc x) (k_initproc x) (k_nextpid x) v (k_last_boost x) (k_cproc x) (k_file x) (k_inode x) (k_pipe x) (k_cons x) (k_devsw x) (k_buf x) (k_disk x) (k_writes x) (k_log x) (k_sb x).
Definition set_k_last_boost (v : Z) (x : kernel) : kernel :=
  Kernel (k_mem x) (k_proc x) (k_initproc x) (k_nextpid x) (k_ticks x) v (k_cproc x) (k_file x) (k_inode x) (k_pipe x) (k_cons x) (k_devsw x) (k_buf x) (k_disk x) (k_writes x) (k_log x) (k_sb x).
Definition set_k_cproc (v : option nat) (x : kernel) : kernel :=
  Kernel (k_mem x) (k_proc x) (k_initproc x) (k_nextpid x) (k_ticks x) (k_last_boost x) v (k_file x) (k_inode x) (k_pipe x) (k_cons x) (k_devsw x) (k_buf x) (k_disk x) (k_writes x) (k_log x) (k_sb x).
Definition set_k_file (v : list file) (x : kernel) : kernel :=
  Kernel (k_mem x) (k_proc x) (k_initproc x) (k_nextpid x) (k_ticks x) (k_last_boost x) (k_cproc x) v (k_inode x) (k_pipe x) (k_cons x) (k_devsw x) (k_buf x) (k_disk x) (k_writes x) (k_log x) (k_sb x).
Definition set_k_inode (v : list inode) (x : kernel) : kernel :=
  Kernel (k_mem x) (k_proc x) (k_initproc x) (k_nextpid x) (k_ticks x) (k_last_boost x) (k_cproc x) (k_file x) v (k_pipe x) (k_cons x) (k_devsw x) (k_buf x) (k_disk x) (k_writes x) (k_log x) (k_sb x).
Definition set_k_pipe (v : gmap Z pipe) (x : kernel) : kernel :=
  Kernel (k_mem x) (k_proc x) (k_initproc x) (k_nextpid x) (k_ticks x) (k_last_boost x) (k_cproc x) (k_file x) (k_inode x) v (k_cons x) (k_devsw x) (k_buf x) (k_disk x) (k_writes x) (k_log x) (k_sb x).
Definition set_k_cons (v : console) (x : kernel) : kernel :=
  Kernel (k_mem x) (k_proc x) (k_initproc x) (k_nextpid x) (k_ticks x) (k_last_boost x) (k_cproc x) (k_file x) (k_inode x) (k_pipe x) v (k_devsw x) (k_buf x) (k_disk x) (k_writes x) (k_log x) (k_sb x).
Definition set_k_devsw (v : list bool) (x : kernel) : kernel :=
  Kernel (k_mem x) (k_proc x) (k_initproc x) (k_nextpid x) (k_ticks x) (k_last_boost x) (k_cproc x) (k_file x) (k_inode x) (k_pipe x) (k_cons x) v (k_buf x) (k_disk x) (k_writes x) (k_log x) (k_sb x).
Definition set_k_buf (v : list buf) (x : kernel) : kernel :=
  Kernel (k_mem x) (k_proc x) (k_initproc x) (k_nextpid x) (k_ticks x) (k_last_boost x) (k_cproc x) (k_file x) (k_inode x) (k_pipe x) (k_cons x) (k_devsw x) v (k_disk x) (k_writes x) (k_log x) (k_sb x).
Definition set_k_disk (v : gmap Z block) (x : kernel) : kernel :=
  Kernel (k_mem x) (k_proc x) (k_initproc x) (k_nextpid x) (k_ticks x) (k_last_boost x) (k_cproc x) (k_file x) (k_inode x) (k_pipe x) (k_cons x) (k_devsw x) (k_buf x) v (k_writes x) (k_log x) (k_sb x).
Definition set_k_writes (v : list (Z * block)) (x : kernel) : kernel :=
  Kernel (k_mem x) (k_proc x) (k_initproc x) (k_nextpid x) (k_ticks x) (k_last_boost x) (k_cproc x) (k_file x) (k_inode x) (k_pipe x) (k_cons x) (k_devsw x) (k_buf x) (k_disk x) v (k_log x) (k_sb x).
Definition set_k_log (v : log) (x : kernel) : kernel :=
  Kernel (k_mem x) (k_proc x) (k_initproc x) (k_nextpid x) (k_ticks x) (k_last_boost x) (k_cproc x) (k_file x) (k_inode x) (k_pipe x) (k_cons x) (k_devsw x) (k_buf x) (k_disk x) (k_writes x) v (k_sb x).
Definition set_k_sb (v : superblock) (x : kernel) : kernel :=
  Kernel (k_mem x) (k_proc x) (k_initproc x) (k_nextpid x) (k_ticks x) (k_last_boost x) (k_cproc x) (k_file x) (k_inode x) (k_pipe x) (k_cons x) (k_devsw x) (k_buf x) (k_disk x) (k_writes x) (k_log x) v.

(** The state before the kernel has run: C zeroes all static data. *)
Definition kernel0 : kernel :=
  Kernel (KState ∅ 0 ∅) (replicate (Z.to_nat NPROC) proc0) None 1 0 0 None
    (replicate (Z.to_nat NFILE) file0) (replicate (Z.to_nat NINODE) inode0) ∅ cons0
    (replicate (Z.to_nat NDEV) false) (replicate (S (Z.to_nat NBUF)) buf0) ∅ [] log0 sb0.

(** The parts of the state other components work on. *)
Definition mem_lens : lens kernel kst := Lens k_mem set_k_mem.
Definition cons_lens : lens kernel console := Lens k_cons set_k_cons.

(** Table entries; an index out of range is undefined behaviour. *)
Definition get_proc (i : nat) : M kernel proc := λ s,
  match k_proc s !! i with Some p => Ok (p, s) | None => UB end.
Definition upd_proc (i : nat) (f : proc → proc) : M kernel unit := λ s,
  match k_proc s !! i with
  | Some p => Ok (tt, set_k_proc (<[i := f p]> (k_proc s)) s)
  | None => UB
  end.
Definition get_file (i : nat) : M kernel file := λ s,
  match k_file s !! i with Some f => Ok (f, s) | None => UB end.
Definition upd_file (i : nat) (g : file → file) : M kernel unit := λ s,
  match k_file s !! i with
  | Some f => Ok (tt, set_k_file (<[i := g f]> (k_file s)) s)
  | None => UB
  end.
Definition get_inode (i : nat) : M kernel inode := λ s,
  match k_inode s !! i with Some f => Ok (f, s) | None => UB end.
Definition upd_inode (i : nat) (g : inode → inode) : M kernel unit := λ s,
  match k_inode s !! i with
  | Some f => Ok (tt, set_k_inode (<[i := g f]> (k_inode s)) s)
  | None => UB
  end.

Definition get_buf (i : nat) : M kernel buf := λ s,
  match k_buf s !! i with Some b => Ok (b, s) | None => UB end.
Definition upd_buf (i : nat) (g : buf → buf) : M kernel unit := λ s,
  match k_buf s !! i with
  | Some b => Ok (tt, set_k_buf (<[i := g b]> (k_buf s)) s)
  | None => UB
  end.
Definition get_pipe (a : Z) : M kernel pipe := λ s,
  match k_pipe s !! a with Some p => Ok (p, s) | None => UB end.
Definition upd_pipe (a : Z) (g : pipe → pipe) : M kernel unit := λ s,
  match k_pipe s !! a with
  | Some p => Ok (tt, set_k_pipe (<[a := g p]> (k_pipe s)) s)
  | None => UB
  end.
Definition upd_log (g : log → log) : M kernel unit := modify (λ s, set_k_log (g (k_log s)) s).
Definition upd_cons (g : console → console) : M kernel unit :=
  modify (λ s, set_k_cons (g (k_cons s)) s).

(** Signed overflow is undefined in C. *)
Definition add_int (x y : Z) {S} : M S Z :=
  if decide (- 2 ^ 31 ≤ x + y < 2 ^ 31) then mret (x + y) else ub.

(** The indices of the process table, in the order the kernel scans it. *)
Definition proc_indices : list nat := seq 0 (Z.to_nat NPROC).

Lemma bind_upd_cons {B} g (f : unit → M kernel B) s :
  (upd_cons g ≫= f) s = f tt (set_k_cons (g (k_cons s)) s).
Proof. done. Qed.
