(* ===== verification/Sched.v ===== *)
(** The multi-level feedback queue scheduler: [scheduler], [sched], [yield],
    [sleep], [wakeup] of [kernel/proc.c] and the accounting of clock ticks in
    [kernel/trap.c].

    The code a process runs between being dispatched and calling [swtch] again
    is a parameter [run]: [run i] is that code for process [i].  [scheduler_iter]
    is one round of the endless loop in [scheduler]; it returns the processes
    dispatched, in order. *)

From S2P Require Import Prelude Riscv Mem Str Kalloc Vm State.

(** * sleep and wakeup *)

(** [for(p = proc; p < &proc[NPROC]; p++) if(p != myproc()) ...] *)
Definition wakeup (me : option nat) (chan : channel) : M kernel unit :=
  foreach proc_indices (λ i,
    if decide (Some i = me) then mret tt
    else
      p ← get_proc i;
      if decide (p_state p = SLEEPING ∧ p_chan p = Some chan)
      then upd_proc i (set_p_state RUNNABLE)
      else mret tt).

(** [sched] up to the [swtch]; what follows runs when the process is
    dispatched again. *)
Definition sched (me : nat) : M kernel unit :=
  p ← get_proc me;
  if decide (p_state p = RUNNING) then panic "sched RUNNING" else mret tt.

Definition yield (me : nat) : M kernel unit :=
  upd_proc me (set_p_state RUNNABLE) ;;
  sched me.

(** [sleep] up to the [swtch], and the rest of it. *)
Definition sleep_enter (me : nat) (chan : channel) : M kernel unit :=
  upd_proc me (set_p_chan (Some chan)) ;;
  upd_proc me (set_p_state SLEEPING) ;;
  sched me.
Definition sleep_leave (me : nat) : M kernel unit := upd_proc me (set_p_chan None).

(** * Accounting of clock ticks *)

(** [p->ticks_in_q[p->priority]++; p->ticks_count++;] *)
Definition count_tick (me : nat) : M kernel unit :=
  p ← get_proc me;
  if decide (0 ≤ p_priority p) then
    match p_ticks_in_q p !! Z.to_nat (p_priority p) with
    | None => ub
    | Some c =>
        c' ← add_int c 1;
        upd_proc me (set_p_ticks_in_q (<[Z.to_nat (p_priority p) := c']> (p_ticks_in_q p))) ;;
        n ← add_int (p_ticks_count p) 1;
        upd_proc me (set_p_ticks_count n)
    end
  else ub.

(** The timer branch at the end of [usertrap]. *)
Definition usertrap_tick (me : nat) : M kernel unit :=
  count_tick me ;;
  p ← get_proc me;
  if p_priority p =? 0 then
    (* If in Q0 and used more than LIMIT_Q0 ticks -> Demote to Q1 *)
    if LIMIT_Q0 <=? p_ticks_count p then
      upd_proc me (set_p_priority 1) ;;
      upd_proc me (set_p_ticks_count 0) ;;
      yield me
    else yield me
  else if p_priority p =? 1 then
    (* If in Q1 and used more than LIMIT_Q1 ticks -> Demote to Q2 *)
    if LIMIT_Q1 <=? p_ticks_count p then
      upd_proc me (set_p_priority 2) ;;
      upd_proc me (set_p_ticks_count 0) ;;
      yield me
    else yield me
  else yield me.

(** The timer branch at the end of [kerneltrap]; it only applies to a process
    that is [RUNNING]. *)
Definition kerneltrap_tick (me : option nat) : M kernel unit :=
  match me with
  | None => mret tt
  | Some me =>
      p ← get_proc me;
      if decide (p_state p = RUNNING) then
        count_tick me ;;
        p ← get_proc me;
        if p_priority p =? 0 then
          if LIMIT_Q0 <=? p_ticks_count p then
            upd_proc me (set_p_priority 1) ;;
            upd_proc me (set_p_ticks_count 0) ;;
            yield me
          else yield me
        else if p_priority p =? 1 then
          if LIMIT_Q1 <=? p_ticks_count p then
            upd_proc me (set_p_priority 2) ;;
            upd_proc me (set_p_ticks_count 0) ;;
            yield me
          else yield me
        else yield me
      else mret tt
  end.

(** * The scheduler *)

(** Every BOOST_INTERVAL ticks, move everyone to Q0. *)
Definition boost_all : M kernel unit :=
  foreach proc_indices (λ i,
    p ← get_proc i;
    if decide (p_state p ≠ UNUSED) then
      upd_proc i (set_p_priority 0) ;;
      upd_proc i (set_p_ticks_count 0)
    else mret tt).

Definition boost_due (s : kernel) : bool :=
  BOOST_INTERVAL <=? u32 (k_ticks s - k_last_boost s).

Definition boost : M kernel unit :=
  s ← get;
  if boost_due s then
    boost_all ;;
    modify (set_k_last_boost (k_ticks s))
  else mret tt.

Section scheduler.
Variable run : nat → M kernel unit.

(** One entry of the scan of a level. *)
Definition sched_slot (prio : Z) (i : nat) : M kernel (list nat) :=
  p ← get_proc i;
  if decide (p_state p = RUNNABLE ∧ p_priority p = prio) then
    upd_proc i (set_p_state RUNNING) ;;
    modify (set_k_cproc (Some i)) ;;
    run i ;;
    modify (set_k_cproc None) ;;
    mret [i]
  else mret [].

Fixpoint sched_scan (prio : Z) (l : list nat) : M kernel (list nat) :=
  match l with
  | [] => mret []
  | i :: l' =>
      d ← sched_slot prio i;
      d' ← sched_scan prio l';
      mret (d ++ d')
  end.

Definition sched_level (prio : Z) : M kernel (list nat) := sched_scan prio proc_indices.

(** [for (int prio = 0; prio < 3; prio++) ... if(found == 1) break;] *)
Fixpoint sched_levels (prios : list Z) : M kernel (list nat) :=
  match prios with
  | [] => mret []
  | prio :: prios' =>
      found ← sched_level prio;
      match found with
      | [] => sched_levels prios'
      | _ :: _ => mret found
      end
  end.

(** One round; an empty result means the cpu executes [wfi]. *)
Definition scheduler_iter : M kernel (list nat) :=
  boost ;;
  sched_levels [0; 1; 2].
End scheduler.

(** * wakeup *)

(** The processes that satisfy a condition are updated, the others not. *)
Definition map_procs (P : nat → proc → bool) (f : proc → proc) (l : list proc) : list proc :=
  imap (λ i p, if P i p then f p else p) l.

Lemma lookup_map_procs P f l i :
  map_procs P f l !! i = (λ p, if P i p then f p else p) <$> l !! i.
Proof. unfold map_procs. by rewrite list_lookup_imap. Qed.

Lemma length_map_procs P f l : length (map_procs P f l) = length l.
Proof. unfold map_procs. by rewrite length_imap. Qed.

Lemma set_k_proc_id s : set_k_proc (k_proc s) s = s.
Proof. by destruct s. Qed.

(** A scan of the process table that changes each entry depending on that
    entry only is a map over the table. *)
Lemma foreach_procs (P : nat → proc → bool) (f : proc → proc) (body : nat → M kernel unit) s :
  length (k_proc s) = Z.to_nat NPROC →
  (∀ i s p, k_proc s !! i = Some p →
     body i s = Ok (tt, if P i p then set_k_proc (<[i := f p]> (k_proc s)) s else s)) →
  foreach proc_indices body s = Ok (tt, set_k_proc (map_procs P f (k_proc s)) s).
Proof.
  intros Hlen Hbody.
  assert (∀ n k s, (k + n = length (k_proc s))%nat →
    foreach (seq k n) body s =
      Ok (tt, set_k_proc (map_procs (λ i p, bool_decide (k ≤ i)%nat && P i p) f (k_proc s)) s)) as Hgen.
  { clear s Hlen. induction n as [|n IH]; intros k s Hk; cbn [seq foreach].
    - msimpl. do 2 f_equal. rewrite <-(set_k_proc_id s) at 1. f_equal. apply list_eq. intros i.
      rewrite lookup_map_procs. destruct (k_proc s !! i) as [p|] eqn:E; [|done]. simpl.
      apply lookup_lt_Some in E. by rewrite bool_decide_false by lia.
    - destruct (lookup_lt_is_Some_2 (k_proc s) k) as [p Hp]; [lia|].
      rewrite (bind_Ok_1 _ _ _ _ _ (Hbody k s p Hp)). rewrite IH.
      2: { destruct (P k p); cbn; rewrite ?length_insert; lia. }
      do 2 f_equal. transitivity (set_k_proc (map_procs (λ i p, bool_decide (S k ≤ i)%nat && P i p) f
        (k_proc (if P k p then set_k_proc (<[k := f p]> (k_proc s)) s else s))) s);
        [by destruct (P k p)|].
      f_equal. apply list_eq. intros i. rewrite !lookup_map_procs.
      destruct (decide (i = k)) as [->|Hne].
      + rewrite Hp, (bool_decide_true (k ≤ k)%nat), bool_decide_false by lia. cbn.
        destruct (P k p) eqn:EP; cbn.
        * rewrite list_lookup_insert_eq by (by eapply lookup_lt_Some). done.
        * by rewrite Hp.
      + assert (k_proc (if P k p then set_k_proc (<[k := f p]> (k_proc s)) s else s) !! i =
          k_proc s !! i) as -> by (destruct (P k p); [cbn; by apply list_lookup_insert_ne|done]).
        destruct (k_proc s !! i) as [q|]; [|done]. cbn. f_equal.
        assert (bool_decide (S k ≤ i)%nat = bool_decide (k ≤ i)%nat) as ->; [|done].
        apply bool_decide_ext. lia. }
  unfold proc_indices. rewrite Hgen by lia. do 3 f_equal.
Qed.

Definition woken (me : option nat) (chan : channel) (i : nat) (p : proc) : bool :=
  bool_decide (Some i ≠ me ∧ p_state p = SLEEPING ∧ p_chan p = Some chan).

Lemma wakeup_map me chan s :
  length (k_proc s) = Z.to_nat NPROC →
  wakeup me chan s =
    Ok (tt, set_k_proc (map_procs (woken me chan) (set_p_state RUNNABLE) (k_proc s)) s).
Proof.
  intros Hlen. apply foreach_procs; [done|]. intros i s' p Hp. unfold woken.
  destruct (decide (Some i = me)) as [E|E].
  { by rewrite bool_decide_false by naive_solver. }
  unfold get_proc, upd_proc. msimpl. rewrite Hp.
  destruct (decide (p_state p = SLEEPING ∧ p_chan p = Some chan)).
  - by rewrite bool_decide_true, Hp by done.
  - by rewrite bool_decide_false by naive_solver.
Qed.

(** * boost *)
Definition boosted (p : proc) : proc := set_p_ticks_count 0 (set_p_priority 0 p).
Definition in_use (i : nat) (p : proc) : bool := bool_decide (p_state p ≠ UNUSED).

Lemma boost_all_map s :
  length (k_proc s) = Z.to_nat NPROC →
  boost_all s = Ok (tt, set_k_proc (map_procs in_use boosted (k_proc s)) s).
Proof.
  intros Hlen. apply foreach_procs; [done|]. intros i s' p Hp. unfold in_use.
  unfold get_proc, upd_proc. msimpl. rewrite Hp.
  destruct (decide (p_state p ≠ UNUSED)).
  - rewrite bool_decide_true by done. rewrite Hp. cbn.
    rewrite list_lookup_insert_eq by (by eapply lookup_lt_Some).
    by rewrite list_insert_insert_eq.
  - by rewrite bool_decide_false by done.
Qed.

Definition after_boost (s : kernel) : kernel :=
  if boost_due s
  then set_k_last_boost (k_ticks s) (set_k_proc (map_procs in_use boosted (k_proc s)) s)
  else s.

Lemma boost_run s :
  length (k_proc s) = Z.to_nat NPROC → boost s = Ok (tt, after_boost s).
Proof.
  intros Hlen. unfold boost, after_boost. rewrite (bind_Ok_1 _ _ s s s eq_refl).
  destruct (boost_due s); [|done]. by rewrite (bind_Ok_1 _ _ _ _ _ (boost_all_map s Hlen)).
Qed.

Lemma after_boost_length s : length (k_proc (after_boost s)) = length (k_proc s).
Proof. unfold after_boost. destruct (boost_due s); cbn; [apply length_map_procs|done]. Qed.

(** * Ticks *)

(** What one clock tick does to the process that is running. *)
Definition tick_level (prio count : Z) : Z * Z :=
  if prio =? 0 then if LIMIT_Q0 <=? count + 1 then (1, 0) else (0, count + 1)
  else if prio =? 1 then if LIMIT_Q1 <=? count + 1 then (2, 0) else (1, count + 1)
  else (prio, count + 1).

Definition tick_proc (p : proc) : proc :=
  let '(prio, count) := tick_level (p_priority p) (p_ticks_count p) in
  set_p_state RUNNABLE
    (set_p_ticks_count count
      (set_p_priority prio
        (set_p_ticks_in_q (alter (λ c, c + 1) (Z.to_nat (p_priority p)) (p_ticks_in_q p)) p))).

(** The fields the accounting relies on. *)
Record mlfq_ok (p : proc) : Prop := {
  mq_priority : 0 ≤ p_priority p ≤ 2;
  mq_length : length (p_ticks_in_q p) = 3%nat;
  mq_count : 0 ≤ p_ticks_count p;
  mq_q0 : p_priority p = 0 → p_ticks_count p < LIMIT_Q0;
  mq_q1 : p_priority p = 1 → p_ticks_count p < LIMIT_Q1;
  mq_stats : Forall (λ c, 0 ≤ c) (p_ticks_in_q p);
}.

(** No counter is at the end of its range. *)
Definition no_overflow (p : proc) : Prop :=
  p_ticks_count p < 2 ^ 31 - 1 ∧ Forall (λ c, c < 2 ^ 31 - 1) (p_ticks_in_q p).

(** The state with the entry of process [i] replaced; every step of a process
    on its own entry is a step on this entry. *)
Definition with_proc (i : nat) (p : proc) (s : kernel) : kernel :=
  set_k_proc (<[i := p]> (k_proc s)) s.

Lemma with_proc_self i p s : k_proc s !! i = Some p → with_proc i p s = s.
Proof. intros Hp. unfold with_proc. rewrite list_insert_id by done. apply set_k_proc_id. Qed.

Lemma with_proc_lookup i p s : (i < length (k_proc s))%nat → k_proc (with_proc i p s) !! i = Some p.
Proof. intros Hi. cbn. by apply list_lookup_insert_eq. Qed.

Lemma with_proc_lookup_ne i j p s : i ≠ j → k_proc (with_proc i p s) !! j = k_proc s !! j.
Proof. intros Hne. cbn. by apply list_lookup_insert_ne. Qed.

Lemma with_proc_length i p s : length (k_proc (with_proc i p s)) = length (k_proc s).
Proof. cbn. apply length_insert. Qed.

Lemma with_proc_twice i p q s : with_proc i q (with_proc i p s) = with_proc i q s.
Proof. unfold with_proc. cbn. by rewrite list_insert_insert_eq. Qed.

Lemma add_int_Ok a b (s : kernel) : - 2 ^ 31 ≤ a + b < 2 ^ 31 → add_int a b s = Ok (a + b, s).
Proof. intros H. unfold add_int. by rewrite decide_True. Qed.

Section on_proc.
Variables (i : nat) (s : kernel).
Hypothesis Hi : (i < length (k_proc s))%nat.

Lemma get_with p : get_proc i (with_proc i p s) = Ok (p, with_proc i p s).
Proof. unfold get_proc. by rewrite with_proc_lookup. Qed.

Lemma upd_with f p : upd_proc i f (with_proc i p s) = Ok (tt, with_proc i (f p) s).
Proof. unfold upd_proc. rewrite with_proc_lookup by done. f_equal. f_equal. apply with_proc_twice. Qed.

Lemma yield_with p : yield i (with_proc i p s) = Ok (tt, with_proc i (set_p_state RUNNABLE p) s).
Proof.
  unfold yield, sched. rewrite (bind_Ok_1 _ _ _ _ _ (upd_with _ _)).
  rewrite (bind_Ok_1 _ _ _ _ _ (get_with _)). done.
Qed.

Lemma count_tick_with p :
  mlfq_ok p → no_overflow p →
  count_tick i (with_proc i p s) =
    Ok (tt, with_proc i (set_p_ticks_count (p_ticks_count p + 1)
      (set_p_ticks_in_q (alter (λ c, c + 1) (Z.to_nat (p_priority p)) (p_ticks_in_q p)) p)) s).
Proof.
  intros [Hp Hl Hc _ _ Hs] [Ho Hov]. unfold count_tick.
  rewrite (bind_Ok_1 _ _ _ _ _ (get_with _)). rewrite decide_True by lia.
  destruct (lookup_lt_is_Some_2 (p_ticks_in_q p) (Z.to_nat (p_priority p))) as [c Hcq]; [lia|].
  rewrite Hcq. pose proof (proj1 (Forall_lookup _ _) Hs _ _ Hcq) as Hc0.
  pose proof (proj1 (Forall_lookup _ _) Hov _ _ Hcq) as Hc1. cbv beta in Hc0, Hc1.
  rewrite (bind_Ok_1 _ _ _ _ _ (add_int_Ok c 1 _ ltac:(lia))).
  rewrite (bind_Ok_1 _ _ _ _ _ (upd_with _ _)).
  rewrite (bind_Ok_1 _ _ _ _ _ (add_int_Ok (p_ticks_count p) 1 _ ltac:(lia))). rewrite upd_with. cbn.
  assert (<[Z.to_nat (p_priority p) := c + 1]> (p_ticks_in_q p) =
    alter (λ c, c + 1) (Z.to_nat (p_priority p)) (p_ticks_in_q p)) as ->; [|done].
  apply list_eq. intros j. rewrite list_lookup_alter.
  destruct (decide (Z.to_nat (p_priority p) = j)) as [<-|Hne].
  - by rewrite Hcq, list_lookup_insert_eq by lia.
  - by rewrite list_lookup_insert_ne.
Qed.

Lemma usertrap_tick_with p :
  mlfq_ok p → no_overflow p → usertrap_tick i (with_proc i p s) = Ok (tt, with_proc i (tick_proc p) s).
Proof.
  intros Hp Ho. unfold usertrap_tick, tick_proc, tick_level.
  rewrite (bind_Ok_1 _ _ _ _ _ (count_tick_with p Hp Ho)). rewrite (bind_Ok_1 _ _ _ _ _ (get_with _)).
  cbn [p_priority set_p_ticks_count set_p_ticks_in_q p_ticks_count].
  destruct (p_priority p =? 0) eqn:E0; [destruct (LIMIT_Q0 <=? p_ticks_count p + 1)|
    destruct (p_priority p =? 1) eqn:E1; [destruct (LIMIT_Q1 <=? p_ticks_count p + 1)|]];
    rewrite ?(bind_Ok_1 _ _ _ _ _ (upd_with _ _)), ?(bind_Ok_1 _ _ _ _ _ (upd_with _ _)), ?yield_with;
    rewrite ?Z.eqb_eq in *; do 3 f_equal; destruct p; cbn in *; subst; done.
Qed.
End on_proc.

Lemma upd_proc_run i f p s : k_proc s !! i = Some p → upd_proc i f s = Ok (tt, with_proc i (f p) s).
Proof. intros Hp. unfold upd_proc. by rewrite Hp. Qed.

Lemma get_proc_run i p s : k_proc s !! i = Some p → get_proc i s = Ok (p, s).
Proof. intros Hp. unfold get_proc. by rewrite Hp. Qed.
