(* ===== verification/SchedSpec.v ===== *)
(** Theorems about the scheduler: which processes a round dispatches, that a
    priority boost lets every runnable process run, how clock ticks move a
    process through the three queues, and that [wakeup] loses nobody. *)

From Stdlib Require Import Sorting.Sorted.
From S2P Require Import Prelude Riscv Mem Str Kalloc Vm State Sched.

(** * What a round dispatches *)

Definition table_ok (s : kernel) : Prop := length (k_proc s) = Z.to_nat NPROC.

Definition runnable_at (s : kernel) (prio : Z) (i : nat) : Prop :=
  ∃ p, k_proc s !! i = Some p ∧ p_state p = RUNNABLE ∧ p_priority p = prio.

(** What the code of a process may do between two calls of [swtch]: anything
    that terminates, keeps the size of the table, and leaves the other
    runnable processes runnable at their priority. *)
Definition run_ok (run : nat → M kernel unit) : Prop :=
  ∀ i s, (i < Z.to_nat NPROC)%nat → table_ok s →
    ∃ s', run i s = Ok (tt, s') ∧ table_ok s' ∧
      ∀ j prio, j ≠ i → runnable_at s prio j → runnable_at s' prio j.

Lemma runnable_at_cproc v s prio j : runnable_at (set_k_cproc v s) prio j ↔ runnable_at s prio j.
Proof. done. Qed.

Section dispatch.
Variable run : nat → M kernel unit.
Hypothesis Hrun : run_ok run.

Lemma sched_slot_run prio i s :
  (i < Z.to_nat NPROC)%nat → table_ok s →
  ∃ d s', sched_slot run prio i s = Ok (d, s') ∧ table_ok s' ∧
    ((d = [i] ∧ runnable_at s prio i) ∨ (d = [] ∧ s' = s ∧ ¬ runnable_at s prio i)) ∧
    ∀ j prio', j ≠ i → runnable_at s prio' j → runnable_at s' prio' j.
Proof.
  intros Hi Ht. destruct (lookup_lt_is_Some_2 (k_proc s) i) as [p Hp]; [rewrite Ht; lia|].
  unfold sched_slot. rewrite (bind_Ok_1 _ _ _ _ _ (get_proc_run i p s Hp)).
  destruct (decide (p_state p = RUNNABLE ∧ p_priority p = prio)) as [[Hr Hq]|Hno].
  2: { exists [], s. split_and!; [done|done| |done]. right. split_and!; [done..|].
       intros (q & Hq & ? & ?). naive_solver. }
  rewrite (bind_Ok_1 _ _ _ _ _ (upd_proc_run i _ p s Hp)).
  set (s1 := with_proc i (set_p_state RUNNING p) s).
  rewrite (bind_Ok_1 _ _ _ tt (set_k_cproc (Some i) s1) eq_refl).
  destruct (Hrun i (set_k_cproc (Some i) s1)) as (s2 & Hr2 & Ht2 & Hk); [done| |].
  { unfold table_ok. cbn. by rewrite length_insert. }
  rewrite (bind_Ok_1 _ _ _ _ _ Hr2). exists [i], (set_k_cproc None s2).
  split_and!; [done|done| |].
  - left. split; [done|]. by exists p.
  - intros j prio' Hne (q & Hq' & ?). apply (Hk j prio' Hne). exists q.
    split; [|done]. cbn. by rewrite list_lookup_insert_ne.
Qed.

Lemma sched_scan_run prio n k s :
  (k + n = Z.to_nat NPROC)%nat → table_ok s →
  ∃ ds s', sched_scan run prio (seq k n) s = Ok (ds, s') ∧ table_ok s' ∧
    (ds = [] → s' = s) ∧ Forall (λ j, k ≤ j)%nat ds ∧ NoDup ds ∧
    (∀ j, (k ≤ j)%nat → runnable_at s prio j → j ∈ ds) ∧
    (∀ i ds', ds = i :: ds' → runnable_at s prio i ∧ Forall (λ j, i < j)%nat ds').
Proof.
  revert k s. induction n as [|n IH]; intros k s Hk Ht; cbn [seq sched_scan].
  { exists [], s. split_and!; try done; [constructor..|].
    intros j Hj (p & Hp & _). apply lookup_lt_Some in Hp. rewrite Ht in Hp. lia. }
  destruct (sched_slot_run prio k s) as (d & s1 & Hd & Ht1 & Hcase & Hkeep); [lia|done|].
  rewrite (bind_Ok_1 _ _ _ _ _ Hd).
  destruct (IH (S k) s1) as (ds & s2 & Hds & Ht2 & Hnil & Hge & Hnd & Hall & Hhd); [lia|done|].
  rewrite (bind_Ok_1 _ _ _ _ _ Hds). exists (d ++ ds), s2.
  assert (Forall (λ j, k ≤ j)%nat ds) as Hge' by (eapply Forall_impl; [exact Hge|]; intros ? ?; cbn beta in *; lia).
  assert (k ∉ ds) as Hk_ds by (intros Hin; apply (proj1 (Forall_forall _ _) Hge) in Hin; lia).
  assert (∀ j, (k ≤ j)%nat → runnable_at s prio j → j = k ∨ j ∈ ds) as Hin.
  { intros j Hj Hr. destruct (decide (j = k)); [by left|right].
    apply Hall; [lia|]. by apply Hkeep. }
  destruct Hcase as [[-> Hr]|(-> & -> & Hno)]; cbn [app].
  - split_and!; try done.
    + by constructor.
    + by constructor.
    + intros j Hj Hrj. destruct (Hin j Hj Hrj) as [->|]; [by apply elem_of_cons; left|by apply elem_of_cons; right].
    + intros i ds' [= <- <-]. split; [done|]. eapply Forall_impl; [exact Hge|]. intros ? ?; cbn beta in *; lia.
  - split_and!; try done. intros j Hj Hrj. by destruct (Hin j Hj Hrj) as [->|].
Qed.

(** The outcome of the scan of the levels [prios] that starts in [s]. *)
Definition dispatched (s : kernel) (prios : list Z) (ds : list nat) : Prop :=
  match ds with
  | [] => ∀ prio j, prio ∈ prios → ¬ runnable_at s prio j
  | i :: ds' =>
      ∃ prio, prio ∈ prios ∧ runnable_at s prio i ∧
        (∀ prio' j, prio' ∈ prios → runnable_at s prio' j → prio ≤ prio') ∧
        (∀ j, runnable_at s prio j → j ∈ i :: ds') ∧
        Forall (λ j, i < j)%nat ds' ∧ NoDup (i :: ds')
  end.

Lemma sched_levels_run prios s :
  StronglySorted Z.lt prios → table_ok s →
  ∃ ds s', sched_levels run prios s = Ok (ds, s') ∧ table_ok s' ∧ dispatched s prios ds.
Proof.
  intros Hsort Ht. induction Hsort as [|prio prios Hsort IH Hlt]; cbn [sched_levels].
  { exists [], s. split_and!; [done..|]. intros ? ? ?%not_elem_of_nil. done. }
  destruct (sched_scan_run prio (Z.to_nat NPROC) 0 s) as (ds & s1 & Hds & Ht1 & Hnil & _ & Hnd & Hall & Hhd);
    [lia|done|].
  unfold sched_level, proc_indices. rewrite (bind_Ok_1 _ _ _ _ _ Hds). destruct ds as [|i ds].
  - rewrite (Hnil eq_refl). destruct IH as (ds & s2 & Hrun2 & Ht2 & Hd). exists ds, s2.
    split_and!; [done..|].
    assert (∀ j, ¬ runnable_at s prio j) as Hnone by (intros j Hj; by apply (not_elem_of_nil j), Hall; [lia|]).
    destruct ds as [|i ds]; cbn in Hd |- *.
    + intros q j [->|Hq]%elem_of_cons; [apply Hnone|by apply Hd].
    + destruct Hd as (q & Hq & Hr & Hbest & Hrest). exists q.
      split_and!; [by apply elem_of_cons; right|done| |apply Hrest..].
      intros q' j [->|Hq']%elem_of_cons Hj; [by destruct (Hnone j)|by apply (Hbest q' j)].
  - exists (i :: ds), s1. destruct (Hhd i ds eq_refl) as [Hr Hgt]. split_and!; [done..|].
    exists prio.
    split_and!; [by apply elem_of_cons; left|done| |intros j; apply Hall; lia|done|done].
    intros q j [->|Hq]%elem_of_cons _; [done|].
    pose proof (proj1 (Forall_forall _ _) Hlt q Hq). cbn in *. lia.
Qed.

Lemma scheduler_iter_run s :
  table_ok s →
  ∃ ds s', scheduler_iter run s = Ok (ds, s') ∧ table_ok s' ∧ dispatched (after_boost s) [0; 1; 2] ds.
Proof.
  intros Ht. unfold scheduler_iter. rewrite (bind_Ok_1 _ _ _ _ _ (boost_run s Ht)).
  apply sched_levels_run; [|unfold table_ok; by rewrite after_boost_length].
  repeat constructor; lia.
Qed.
End dispatch.

(** C5: A round of the scheduler terminates.  After the boost that may be due,
    it dispatches nobody only if no process is runnable at priority 0, 1 or 2;
    otherwise the first process it dispatches has the best priority among all
    runnable ones and the lowest table index at that priority, and every
    process that is runnable at that priority gets dispatched in the round. *)
Theorem mlfq_dispatch (run : nat → M kernel unit) (s : kernel) :
  run_ok run → table_ok s →
  ∃ ds s', scheduler_iter run s = Ok (ds, s') ∧ table_ok s' ∧
    match ds with
    | [] => ∀ prio j, 0 ≤ prio ≤ 2 → ¬ runnable_at (after_boost s) prio j
    | i :: ds' =>
        ∃ prio, 0 ≤ prio ≤ 2 ∧ runnable_at (after_boost s) prio i ∧
          (∀ prio' j, 0 ≤ prio' → runnable_at (after_boost s) prio' j → prio ≤ prio') ∧
          (∀ j, runnable_at (after_boost s) prio j → (i ≤ j)%nat ∧ j ∈ ds) ∧ NoDup ds
    end.
Proof.
  intros Hrun Ht. destruct (scheduler_iter_run run Hrun s Ht) as (ds & s' & Hr & Ht' & Hd).
  exists ds, s'. split_and!; [done..|].
  assert (∀ q, q ∈ [0; 1; 2] ↔ 0 ≤ q ≤ 2) as Hq by (intros q; rewrite !elem_of_cons, elem_of_nil; lia).
  destruct ds as [|i ds]; cbn in Hd.
  - intros q j ?%Hq. by apply Hd.
  - destruct Hd as (q & ?%Hq & Hrq & Hbest & Hall & Hgt & Hnd). exists q. split_and!; try done; [lia..| |].
    + intros q' j Hq' Hj. destruct (decide (q' ≤ 2)); [|lia]. apply (Hbest q' j); [apply Hq; lia|done].
    + intros j Hj. specialize (Hall j Hj). split; [|done].
      apply elem_of_cons in Hall as [->|Hin]; [lia|].
      apply (proj1 (Forall_forall _ _) Hgt) in Hin. lia.
Qed.

Lemma runnable_after_boost s i p :
  boost_due s = true → k_proc s !! i = Some p → p_state p = RUNNABLE → runnable_at (after_boost s) 0 i.
Proof.
  intros Hb Hp Hr. unfold after_boost. rewrite Hb. exists (boosted p). split; [|done]. cbn.
  rewrite lookup_map_procs, Hp. cbn. unfold in_use. by rewrite bool_decide_true by (by rewrite Hr).
Qed.

(** C13: No starvation.  When at least BOOST_INTERVAL ticks have passed since
    the last boost, the next round of the scheduler dispatches every process
    that is runnable, whatever queue it was demoted to. *)
Theorem boost_no_starvation (run : nat → M kernel unit) (s : kernel) :
  run_ok run → table_ok s → boost_due s = true →
  ∃ ds s', scheduler_iter run s = Ok (ds, s') ∧
    ∀ i p, k_proc s !! i = Some p → p_state p = RUNNABLE → i ∈ ds.
Proof.
  intros Hrun Ht Hb. destruct (scheduler_iter_run run Hrun s Ht) as (ds & s' & Hr & _ & Hd).
  exists ds, s'. split; [done|]. intros i p Hp Hi.
  pose proof (runnable_after_boost s i p Hb Hp Hi) as H0. destruct ds as [|k ds]; cbn in Hd.
  - destruct (Hd 0 i); [by apply elem_of_cons; left|done].
  - destruct Hd as (q & Hq & _ & Hbest & Hall & _). apply Hall.
    specialize (Hbest 0 i ltac:(by apply elem_of_cons; left) H0).
    rewrite !elem_of_cons, elem_of_nil in Hq. assert (q = 0) as -> by lia. done.
Qed.

(** * Clock ticks *)

Lemma kerneltrap_is_usertrap me p s :
  k_proc s !! me = Some p → p_state p = RUNNING → kerneltrap_tick (Some me) s = usertrap_tick me s.
Proof.
  intros Hp Hr. unfold kerneltrap_tick. rewrite (bind_Ok_1 _ _ _ _ _ (get_proc_run _ _ _ Hp)).
  by rewrite decide_True by done.
Qed.

Lemma usertrap_tick_run me p s :
  k_proc s !! me = Some p → mlfq_ok p → no_overflow p →
  usertrap_tick me s = Ok (tt, with_proc me (tick_proc p) s).
Proof.
  intros Hp Hm Ho. pose proof (usertrap_tick_with me s (lookup_lt_Some _ _ _ Hp) p Hm Ho) as E.
  by rewrite with_proc_self in E.
Qed.

Lemma tick_proc_ok p : mlfq_ok p → mlfq_ok (tick_proc p).
Proof.
  intros [Hp Hl Hc H0 H1 Hs]. unfold LIMIT_Q0, LIMIT_Q1 in *.
  assert (Forall (λ c, 0 ≤ c) (alter (λ c, c + 1) (Z.to_nat (p_priority p)) (p_ticks_in_q p))) as Hs'.
  { apply Forall_alter; [done|]. intros. cbn in *. lia. }
  assert (length (alter (λ c, c + 1) (Z.to_nat (p_priority p)) (p_ticks_in_q p)) = 3%nat) as Hl'.
  { by rewrite length_alter. }
  unfold tick_proc, tick_level, LIMIT_Q0, LIMIT_Q1.
  destruct (Z.eqb_spec (p_priority p) 0); [|destruct (Z.eqb_spec (p_priority p) 1)].
  - destruct (Z.leb_spec 4 (p_ticks_count p + 1)); constructor; cbn; unfold LIMIT_Q0; try done; lia.
  - destruct (Z.leb_spec 8 (p_ticks_count p + 1)); constructor; cbn; unfold LIMIT_Q1; try done; lia.
  - constructor; cbn; try done; lia.
Qed.

(** C38: A clock tick.  Both the tick taken in user space and the one taken in
    the kernel charge the running process one tick in its queue, demote it
    exactly when it has used up its slice of 4 (queue 0) or 8 (queue 1) ticks,
    and leave it RUNNABLE; a tick in the kernel while the process is not
    RUNNING, or while there is none, changes nothing.  The bounds on priority
    and slice are preserved. *)
Theorem tick_accounting (me : nat) (p : proc) (s : kernel) :
  k_proc s !! me = Some p → mlfq_ok p → no_overflow p →
  usertrap_tick me s = Ok (tt, with_proc me (tick_proc p) s) ∧
  kerneltrap_tick (Some me) s =
    Ok (tt, if decide (p_state p = RUNNING) then with_proc me (tick_proc p) s else s) ∧
  kerneltrap_tick None s = Ok (tt, s) ∧
  mlfq_ok (tick_proc p) ∧ p_state (tick_proc p) = RUNNABLE ∧
  p_ticks_in_q (tick_proc p) = alter (λ c, c + 1) (Z.to_nat (p_priority p)) (p_ticks_in_q p) ∧
  (p_priority (tick_proc p), p_ticks_count (tick_proc p)) =
    (if decide (p_priority p = 0 ∧ p_ticks_count p = LIMIT_Q0 - 1) then (1, 0)
     else if decide (p_priority p = 1 ∧ p_ticks_count p = LIMIT_Q1 - 1) then (2, 0)
     else (p_priority p, p_ticks_count p + 1)).
Proof.
  intros Hp Hm Ho. split_and!; [by apply usertrap_tick_run| |done|by apply tick_proc_ok| | |].
  - case_decide as Hr.
    + by rewrite (kerneltrap_is_usertrap _ p), (usertrap_tick_run _ p).
    + unfold kerneltrap_tick. rewrite (bind_Ok_1 _ _ _ _ _ (get_proc_run _ _ _ Hp)).
      by rewrite decide_False.
  - unfold tick_proc. by destruct (tick_level _ _).
  - unfold tick_proc. by destruct (tick_level _ _).
  - destruct Hm as [Hq _ Hc H0 H1 _]. unfold tick_proc, tick_level, LIMIT_Q0, LIMIT_Q1 in *.
    destruct (Z.eqb_spec (p_priority p) 0); [|destruct (Z.eqb_spec (p_priority p) 1)].
    + destruct (Z.leb_spec 4 (p_ticks_count p + 1)); cbn; repeat case_decide; try lia; f_equal; lia.
    + destruct (Z.leb_spec 8 (p_ticks_count p + 1)); cbn; repeat case_decide; try lia; f_equal; lia.
    + cbn. repeat case_decide; try lia. done.
Qed.

(** [n] times: the process is dispatched, computes, and is preempted by the
    clock. *)
Fixpoint quanta (n : nat) (me : nat) : M kernel unit :=
  match n with
  | O => mret tt
  | S n =>
      quanta n me ;;
      upd_proc me (set_p_state RUNNING) ;;
      usertrap_tick me
  end.

(** The scheduling fields of a process that has computed for [n] ticks. *)
Definition after_ticks (n : Z) (p : proc) : Prop :=
  p_priority p = (if decide (n < 4) then 0 else if decide (n < 12) then 1 else 2) ∧
  p_ticks_count p = (if decide (n < 4) then n else if decide (n < 12) then n - 4 else n - 12) ∧
  p_ticks_in_q p = [Z.min n 4; Z.max 0 (Z.min n 12 - 4); Z.max 0 (n - 12)].

Lemma after_ticks_ok n p : 0 ≤ n → after_ticks n p → mlfq_ok p.
Proof.
  intros Hn (Hp & Hc & Hq).
  constructor; rewrite ?Hp, ?Hc, ?Hq; unfold LIMIT_Q0, LIMIT_Q1; try done;
    repeat case_decide; try lia; repeat constructor; lia.
Qed.

Lemma triple_eq (a b c a' b' c' : Z) : a = a' → b = b' → c = c' → [a; b; c] = [a'; b'; c'].
Proof. congruence. Qed.
Ltac ticks := first [lia | apply triple_eq; lia].

Lemma after_ticks_step n p :
  0 ≤ n → after_ticks n p → after_ticks (n + 1) (tick_proc (set_p_state RUNNING p)).
Proof.
  intros Hn (Hp & Hc & Hq). unfold after_ticks, tick_proc, tick_level. cbn.
  rewrite Hp, Hc, Hq. unfold LIMIT_Q0, LIMIT_Q1.
  destruct (decide (n < 4)); [|destruct (decide (n < 12))]; cbn.
  - destruct (Z.leb_spec 4 (n + 1)); cbn; split_and!; repeat case_decide; ticks.
  - destruct (Z.leb_spec 8 (n - 4 + 1)); cbn; split_and!; repeat case_decide; ticks.
  - split_and!; repeat case_decide; ticks.
Qed.

Lemma after_ticks_fits n p : 0 ≤ n < 2 ^ 31 - 1 → after_ticks n p → no_overflow p.
Proof.
  intros Hn (Hp & Hc & Hq). split; rewrite ?Hc, ?Hq; [repeat case_decide; lia|].
  repeat constructor; lia.
Qed.


(** [wakeup(chan)] makes exactly the processes that sleep on [chan], the
    caller apart, RUNNABLE, and changes nothing else: afterwards nobody but
    the caller sleeps on that channel. *)
Theorem wakeup_wakes (me : option nat) (chan : channel) (s : kernel) :
  table_ok s →
  ∃ s', wakeup me chan s = Ok (tt, s') ∧ s' = set_k_proc (k_proc s') s ∧
    (∀ i p, k_proc s !! i = Some p →
       k_proc s' !! i = Some (if decide (Some i ≠ me ∧ p_state p = SLEEPING ∧ p_chan p = Some chan)
                              then set_p_state RUNNABLE p else p)) ∧
    (∀ i p, k_proc s' !! i = Some p → p_state p = SLEEPING → p_chan p = Some chan → Some i = me).
Proof.
  intros Ht. eexists. split; [by apply wakeup_map|]. split; [done|].
  assert (∀ i p, k_proc s !! i = Some p → map_procs (woken me chan) (set_p_state RUNNABLE) (k_proc s) !! i =
    Some (if decide (Some i ≠ me ∧ p_state p = SLEEPING ∧ p_chan p = Some chan)
          then set_p_state RUNNABLE p else p)) as Hlook.
  { intros i p Hp. rewrite lookup_map_procs, Hp. cbn. unfold woken. f_equal.
    case_decide; [by rewrite bool_decide_true|by rewrite bool_decide_false]. }
  split; [exact Hlook|]. cbn. intros i p Hp Hs Hc.
  destruct (k_proc s !! i) as [q|] eqn:Hq.
  2: { rewrite lookup_map_procs, Hq in Hp. done. }
  rewrite (Hlook i q Hq) in Hp. injection Hp as <-. destruct (decide (Some i = me)); [done|].
  case_decide as Hd; [done|]. naive_solver.
Qed.

(** * Example runs *)

Module Three.
(** Three runnable processes in queues 2, 0 and 1 and a sleeping one that
    process 1 wakes. *)
Definition p_at (st : procstate) (prio : Z) : proc := set_p_state st (set_p_priority prio proc0).
Definition table : list proc :=
  [p_at RUNNABLE 2; p_at RUNNABLE 0; p_at RUNNABLE 1; set_p_chan (Some ("ticks", 0)) (p_at SLEEPING 0)] ++
  replicate 60 proc0.
Definition st (ticks : Z) : kernel := set_k_ticks ticks (set_k_proc table kernel0).

Definition compute (i : nat) : M kernel unit := usertrap_tick i.

Definition outcome (r : res (list nat * kernel)) : option (list nat * list (procstate * Z)) :=
  match r with
  | Ok (ds, s) => Some (ds, take 4 ((λ p, (p_state p, p_priority p)) <$> k_proc s))
  | _ => None
  end.

Lemma yield_run_ok : run_ok yield.
Proof.
  intros i s Hi Ht. destruct (lookup_lt_is_Some_2 (k_proc s) i) as [p Hp]; [rewrite Ht; lia|].
  pose proof (yield_with i s (lookup_lt_Some _ _ _ Hp) p) as E. rewrite with_proc_self in E by done.
  eexists. split; [exact E|]. split; [unfold table_ok; by rewrite with_proc_length|].
  intros j prio Hne (q & Hq & ?). exists q. by rewrite with_proc_lookup_ne.
Qed.

(** The scan of a level goes on after a process of a better level was woken:
    here process 0 (queue 1) wakes process 3 (queue 0), and process 2 (queue 1)
    still runs before it. *)
Definition waker (i : nat) : M kernel unit :=
  (if decide (i = 0%nat) then wakeup (Some 0%nat) ("ticks", 0) else mret tt) ;; yield i.
Definition st1 : kernel :=
  set_k_proc ([p_at RUNNABLE 1; proc0; p_at RUNNABLE 1; set_p_chan (Some ("ticks", 0)) (p_at SLEEPING 0)] ++
    replicate 60 proc0) kernel0.

Theorem level_scan_not_restarted :
  outcome (sched_slot waker 1 0 st1) =
    Some ([0%nat], [(RUNNABLE, 1); (UNUSED, 0); (RUNNABLE, 1); (RUNNABLE, 0)]) ∧
  outcome (scheduler_iter waker st1) =
    Some ([0; 2]%nat, [(RUNNABLE, 1); (UNUSED, 0); (RUNNABLE, 1); (RUNNABLE, 0)]).
Proof. vm_compute. done. Qed.

Example one_round : outcome (scheduler_iter compute (st 5)) = Some ([1%nat], [(RUNNABLE, 2); (RUNNABLE, 0); (RUNNABLE, 1); (SLEEPING, 0)]).
Proof. vm_compute. reflexivity. Qed.

Lemma mlfq_dispatch_witness : ∃ ds s', scheduler_iter yield (st 5) = Ok (ds, s') ∧ ds = [1%nat].
Proof.
  destruct (mlfq_dispatch yield (st 5) yield_run_ok eq_refl) as (ds & s' & H & _).
  exists ds, s'. split; [exact H|]. 
  assert (outcome (scheduler_iter yield (st 5)) = Some ([1%nat], [(RUNNABLE, 2); (RUNNABLE, 0); (RUNNABLE, 1); (SLEEPING, 0)])) as E
    by (vm_compute; reflexivity).
  rewrite H in E. cbn in E. by injection E.
Defined.

Lemma boost_no_starvation_witness :
  ∃ ds s', scheduler_iter yield (st 100) = Ok (ds, s') ∧ 0%nat ∈ ds.
Proof.
  destruct (boost_no_starvation yield (st 100) yield_run_ok eq_refl eq_refl) as (ds & s' & H & Hin).
  exists ds, s'. split; [exact H|]. by apply (Hin 0%nat (p_at RUNNABLE 2)).
Defined.

Lemma tick_accounting_witness :
  usertrap_tick 1%nat (st 5) = Ok (tt, with_proc 1 (tick_proc (p_at RUNNABLE 0)) (st 5)).
Proof.
  refine (proj1 (tick_accounting 1 (p_at RUNNABLE 0) (st 5) eq_refl _ _)).
  - constructor; cbn; try done; repeat constructor; done.
  - split; [done|]. repeat constructor.
Defined.


Lemma wakeup_wakes_witness :
  ∃ s', wakeup None ("ticks", 0) (st 5) = Ok (tt, s') ∧ k_proc s' !! 3%nat = Some (set_p_chan (Some ("ticks", 0)) (p_at RUNNABLE 0)).
Proof.
  destruct (wakeup_wakes None ("ticks", 0) (st 5) eq_refl) as (s' & H & _ & Hl & _).
  exists s'. split; [exact H|]. by apply (Hl 3%nat (set_p_chan (Some ("ticks", 0)) (p_at SLEEPING 0))).
Defined.
End Three.
