(* ===== verification/Ring.v ===== *)
(** Circular buffers with free-running [uint] indices, as the console and the
    pipes use them.  The index is reduced only when the buffer is accessed, so
    it counts all bytes ever stored; [ring N b a n] are the [n] bytes whose
    (unbounded) positions start at [a]. *)

From S2P Require Import Prelude.

Definition slot (N x : Z) : nat := Z.to_nat (x mod N).

Definition ring (N : Z) (b : list Z) (a : Z) (n : nat) : list Z :=
  (λ i, default 0 (b !! slot N i)) <$> zseq a n.

Section ring.
Context (N : Z) (Hpos : 0 < N) (Hdiv : (N | 2 ^ 32)).

Lemma slot_u32 x : slot N (u32 x) = slot N x.
Proof.
  unfold slot, u32. f_equal. destruct Hdiv as [k Hk]. rewrite Hk.
  rewrite Z.mul_comm. rewrite Z.rem_mul_r by (nia || lia).
  rewrite Z.add_mod, (Z.mul_comm N), Z_mod_mult, Z.add_0_r, !Z.mod_mod by lia. done.
Qed.

Lemma slot_lt x (b : list Z) : length b = Z.to_nat N → (slot N x < length b)%nat.
Proof. intros ->. unfold slot. pose proof (Z.mod_pos_bound x N Hpos). lia. Qed.

Lemma slot_ne x y : x ≠ y → Z.abs (x - y) < N → slot N x ≠ slot N y.
Proof.
  intros Hne Hab E. unfold slot in E.
  pose proof (Z.mod_pos_bound x N Hpos). pose proof (Z.mod_pos_bound y N Hpos).
  apply Z2Nat.inj in E; [|lia..].
  pose proof (Z.div_mod x N ltac:(lia)). pose proof (Z.div_mod y N ltac:(lia)).
  assert (x - y = N * (x / N - y / N)) by nia.
  assert (x / N - y / N = 0) by nia. nia.
Qed.

Lemma length_ring b a n : length (ring N b a n) = n.
Proof. unfold ring. by rewrite length_fmap, length_zseq. Qed.

Lemma ring_S b a n : ring N b a (S n) = default 0 (b !! slot N a) :: ring N b (a + 1) n.
Proof. unfold ring. by rewrite zseq_S. Qed.

Lemma ring_app b a n m : ring N b a (n + m) = ring N b a n ++ ring N b (a + Z.of_nat n) m.
Proof.
  revert a. induction n as [|n IH]; intros a; cbn [Nat.add].
  - change (Z.of_nat 0) with 0. by rewrite Z.add_0_r.
  - rewrite !ring_S, IH, <-app_comm_cons. replace (a + 1 + Z.of_nat n) with (a + Z.of_nat (S n)) by lia. done.
Qed.

Lemma ring_snoc b a n :
  ring N b a (S n) = ring N b a n ++ [default 0 (b !! slot N (a + Z.of_nat n))].
Proof. rewrite <-Nat.add_1_r, ring_app. by rewrite (ring_S _ (a + Z.of_nat n)). Qed.

Lemma ring_insert_out b a n x v :
  Z.of_nat n ≤ N → a + Z.of_nat n ≤ x → x < a + N ∨ n = O →
  ring N (<[slot N x := v]> b) a n = ring N b a n.
Proof.
  intros Hn Hx Hlt. unfold ring. apply list_fmap_ext. intros i y Hy.
  apply list_elem_of_lookup_2 in Hy. apply elem_of_zseq in Hy.
  rewrite list_lookup_insert_ne; [done|]. apply slot_ne; lia.
Qed.

Lemma ring_push b a n v :
  length b = Z.to_nat N → Z.of_nat n < N →
  ring N (<[slot N (a + Z.of_nat n) := v]> b) a (S n) = ring N b a n ++ [v].
Proof.
  intros Hb Hn. rewrite ring_snoc, ring_insert_out by lia.
  rewrite list_lookup_insert_eq by (by apply slot_lt). done.
Qed.
End ring.
