(* ===== verification/Procmem.v ===== *)
(** The small operations of [kernel/proc.c] other components rest on:
    [killed], [setkilled], [either_copyout] and [either_copyin]; and the two
    outcomes of code that may have to sleep. *)

From S2P Require Import Prelude Riscv Mem Str Kalloc Vm State.

(** A step of a function that sleeps: it returns, or it is about to call
    [sleep] on a channel with its local variables [l] and will go on from
    there. *)
Inductive step (L R : Type) : Type :=
  | Return (r : R)
  | Block (chan : channel) (l : L).
Arguments Return {L R} r.
Arguments Block {L R} chan l.

(** The callers that do not resume: blocking is an outcome of its own. *)
Definition wait_for {L R} (m : M kernel (step L R)) : M kernel R :=
  r ← m;
  match r with
  | Return v => mret v
  | Block chan _ => sleep_on chan
  end.

Definition setkilled (p : nat) : M kernel unit := upd_proc p (set_p_killed 1).
Definition killed (p : nat) : M kernel Z := x ← get_proc p; mret (p_killed x).

(** Where a transfer goes: the memory of the current process, an address of
    RAM, or a local variable of the caller, whose bytes are passed as values. *)
Inductive place := User (va : Z) | Ram (pa : Z) | Local.

Definition advance (d : place) (m : Z) : place :=
  match d with
  | User va => User (u64 (va + m))
  | Ram pa => Ram (u64 (pa + m))
  | Local => Local
  end.

Section copy.
Context `{KernelImage}.

Definition either_copyout (me : nat) (dst : place) (src : list Z) : M kernel Z :=
  match dst with
  | User va =>
      p ← get_proc me;
      zoom mem_lens (copyout (p_sz p) (p_pagetable p) (p_pagetable p) va src)
  | Ram pa =>
      zoom mem_lens (modify (λ s, set_mem (stbytes (kmem s) pa src) s)) ;;
      mret 0
  | Local => mret 0
  end.

(** [local] is the value of the caller's variable when [src] is one. *)
Definition either_copyin (me : nat) (src : place) (local : list Z) (len : Z) : M kernel (Z * list Z) :=
  match src with
  | User va =>
      p ← get_proc me;
      zoom mem_lens (copyin (p_sz p) (p_pagetable p) (p_pagetable p) va len)
  | Ram pa => data ← gets (λ s, ldbytes (kmem (k_mem s)) pa (Z.to_nat len)); mret (0, data)
  | Local => mret (0, take (Z.to_nat len) local)
  end.
End copy.
