(* ===== verification/Console.v ===== *)
(** Console input and output: [kernel/console.c], the 16550a driver
    [kernel/uart.c], [kernel/printf.c], and [procdump] of [kernel/proc.c].

    Characters are [Z]; everything written to the transmit register is kept in
    [c_out], latest first.  [consoleread], [consolewrite] and [uartwrite] sleep;
    they are steps that run until they return or block. *)

From S2P Require Import Prelude Riscv Mem Str Kalloc Vm State Sched Ring Procmem.

Definition BACKSPACE : Z := 0x100.
(** [C('X')] *)
Definition Ctrl (x : Z) : Z := x - 64.
Definition CONSOLE : Z := 1.
Abbreviation cons_chan := ("cons.r", 0 : Z).
Abbreviation tx_chan := ("tx_chan", 0 : Z).

(** * uart.c *)

Definition uart_put (c : Z) : M kernel unit := upd_cons (λ x, set_c_out (u8 c :: c_out x) x).

Definition uartputc_sync (c : Z) : M kernel unit := uart_put c.

(** -1 if no character is waiting. *)
Definition uartgetc : M kernel Z :=
  x ← gets k_cons;
  match c_rx x with
  | [] => mret (-1)
  | c :: rx => upd_cons (set_c_rx rx) ;; mret (u8 c)
  end.

(** Transmit [buf[i..n)]; blocks with the index reached. *)
Definition uartwrite_body (buf : list Z) (n : Z) (i : Z) : M kernel (Z + step Z unit) :=
  if i <? n then
    x ← gets k_cons;
    if c_tx_busy x then mret (inr (Block tx_chan i))
    else
      match buf !! Z.to_nat i with
      | None => ub
      | Some c =>
          uart_put c ;;
          upd_cons (set_c_tx_busy true) ;;
          mret (inl (i + 1))
      end
  else mret (inr (Return tt)).

Definition uartwrite (buf : list Z) (n i : Z) : M kernel (step Z unit) :=
  loop (S (Z.to_nat n)) (uartwrite_body buf n) i.

(** * printf.c *)

Definition consputc (c : Z) : M kernel unit :=
  if c =? BACKSPACE then uartputc_sync 8 ;; uartputc_sync 32 ;; uartputc_sync 8
  else uartputc_sync c.

(** digits[] = "0123456789abcdef" *)
Definition digit (d : Z) : Z := if d <? 10 then 48 + d else 87 + d.

(** The [do ... while] loop of [printint]; [buf] holds [buf[0..i)], last
    character first.  Writing behind the 20 bytes of the buffer is undefined. *)
Fixpoint printint_digits (fuel : nat) (base x : Z) (buf : list Z) : option (list Z) :=
  match fuel with
  | O => None
  | S f =>
      let buf := digit (x mod base) :: buf in
      if x / base =? 0 then Some buf else printint_digits f base (x / base) buf
  end.

Definition printint (xx base : Z) (sign : bool) : M kernel unit :=
  let neg := sign && (xx <? 0) in
  if neg && (xx =? - 2 ^ 63) then ub
  else
    match printint_digits 20 base (if neg then u64 (- xx) else u64 xx) [] with
    | None => ub
    | Some buf =>
        if neg then
          if decide (length buf < 20)%nat then foreach (45 :: buf) consputc else ub
        else foreach buf consputc
    end.

(** [x <<= 4] sixteen times. *)
Definition printptr (x : Z) : M kernel unit :=
  consputc 48 ;; consputc 120 ;;
  foreach (zseq 0 16) (λ i, consputc (digit (Z.shiftr (u64 (Z.shiftl x (4 * i))) 60))).

(** Variable arguments: a 64-bit register, or a string (null is [None]). *)
Inductive arg := Num (x : Z) | Str (s : option (list Z)).

Definition va_num (ap : list arg) : M kernel (Z * list arg) :=
  match ap with
  | Num x :: ap' => mret (x, ap')
  | _ => ub
  end.

Definition char_at (l : list Z) (i : nat) : Z := u8 (default 0 (l !! i)).

Definition null_str : list Z := [40; 110; 117; 108; 108; 41].

Fixpoint printf_loop (fuel : nat) (fmt : list Z) (ap : list arg) : M kernel unit :=
  match fuel with
  | O => nofuel
  | S f =>
      let cx := char_at fmt 0 in
      if cx =? 0 then mret tt
      else if negb (cx =? 37) then consputc cx ;; printf_loop f (drop 1 fmt) ap
      else
        let c0 := char_at fmt 1 in
        let c1 := if negb (c0 =? 0) then char_at fmt 2 else 0 in
        let c2 := if negb (c1 =? 0) then char_at fmt 3 else 0 in
        let num (conv : Z → Z) (base : Z) (sign : bool) (skip : nat) :=
          '(x, ap') ← va_num ap;
          printint (conv x) base sign ;;
          printf_loop f (drop skip fmt) ap' in
        let long (x : Z) := u64 (x + 2 ^ 63) - 2 ^ 63 in
        if c0 =? 100 then num i32 10 true 2%nat
        else if (c0 =? 108) && (c1 =? 100) then num long 10 true 3%nat
        else if (c0 =? 108) && (c1 =? 108) && (c2 =? 100) then num long 10 true 4%nat
        else if c0 =? 117 then num u32 10 false 2%nat
        else if (c0 =? 108) && (c1 =? 117) then num long 10 false 3%nat
        else if (c0 =? 108) && (c1 =? 108) && (c2 =? 117) then num long 10 false 4%nat
        else if c0 =? 120 then num u32 16 false 2%nat
        else if (c0 =? 108) && (c1 =? 120) then num long 16 false 3%nat
        else if (c0 =? 108) && (c1 =? 108) && (c2 =? 120) then num long 16 false 4%nat
        else if c0 =? 112 then
          '(x, ap') ← va_num ap;
          printptr (u64 x) ;;
          printf_loop f (drop 2 fmt) ap'
        else if c0 =? 99 then
          '(x, ap') ← va_num ap;
          consputc (u32 x) ;;
          printf_loop f (drop 2 fmt) ap'
        else if c0 =? 115 then
          match ap with
          | Str s :: ap' =>
              foreach (default null_str s) consputc ;;
              printf_loop f (drop 2 fmt) ap'
          | _ => ub
          end
        else if c0 =? 37 then consputc 37 ;; printf_loop f (drop 2 fmt) ap
        else if c0 =? 0 then mret tt
        else (* Print unknown % sequence to draw attention. *)
          consputc 37 ;; consputc c0 ;; printf_loop f (drop 2 fmt) ap
  end.

Definition printf_fuel (fmt : list Z) : nat := S (length fmt).
Definition printf (fmt : list Z) (ap : list arg) : M kernel unit :=
  printf_loop (printf_fuel fmt) fmt ap.

(** Characters of a string constant. *)
Definition str (s : string) : list Z := (λ c, Z.of_N (Ascii.N_of_ascii c)) <$> String.list_ascii_of_string s.

(** * procdump *)

Definition state_name (st : procstate) : list Z :=
  match st with
  | UNUSED => str "unused"
  | USED => str "used"
  | SLEEPING => str "sleep "
  | RUNNABLE => str "runble"
  | RUNNING => str "run   "
  | ZOMBIE => str "zombie"
  end.

Fixpoint c_string (l : list Z) : list Z :=
  match l with
  | [] => []
  | c :: l' => if c =? 0 then [] else c :: c_string l'
  end.

Definition nl : list Z := [10].
Definition tab : list Z := [9].
Definition row_fmt : list Z :=
  str "%d" ++ tab ++ str "%s" ++ tab ++ str "%d" ++ tab ++ str "%d" ++ tab ++ str "%d" ++ tab ++
  str "%d" ++ tab ++ str "%s" ++ nl.
Definition header_fmt : list Z :=
  nl ++ str "PID" ++ tab ++ str "State" ++ tab ++ str "Prio" ++ tab ++ str "Q0" ++ tab ++ str "Q1" ++ tab ++
  str "Q2" ++ tab ++ str "Name" ++ nl.

Definition procdump_row (i : nat) : M kernel unit :=
  p ← get_proc i;
  if decide (p_state p = UNUSED) then mret tt
  else
    let state := if decide (p_state p = RUNNING) then str "*RUN* " else state_name (p_state p) in
    match p_ticks_in_q p with
    | [q0; q1; q2] =>
        printf row_fmt [Num (p_pid p); Str (Some state); Num (p_priority p); Num q0; Num q1; Num q2;
                        Str (Some (c_string (p_name p)))]
    | _ => ub
    end.

(** The inner loop runs the variable [p] of both loops to the end of the
    table, so the outer one stops at the first process in use. *)
Definition procdump : M kernel unit :=
  printf nl [] ;;
  used ← scan proc_indices (λ i,
    p ← get_proc i;
    if decide (p_state p = UNUSED) then mret None
    else
      printf header_fmt [] ;;
      foreach proc_indices procdump_row ;;
      mret (Some tt));
  mret tt.

(** * console.c *)

Definition cons_idx (x : Z) : nat := slot INPUT_BUF_SIZE x.

Definition kill_line_body (_ : unit) : M kernel (unit + unit) :=
  x ← gets k_cons;
  if c_e x =? c_w x then mret (inr tt)
  else
    match c_buf x !! cons_idx (u32 (c_e x - 1)) with
    | None => ub
    | Some c =>
        if negb (c =? 10) then
          upd_cons (set_c_e (u32 (c_e x - 1))) ;;
          consputc BACKSPACE ;;
          mret (inl tt)
        else mret (inr tt)
    end.

Definition kill_line : M kernel unit :=
  x ← gets k_cons;
  loop (S (Z.to_nat (u32 (c_e x - c_w x)))) kill_line_body tt.

(** The [default] case: echo, store, and wake the reader at the end of a line. *)
Definition accept_char (me : option nat) (c : Z) : M kernel unit :=
  x ← gets k_cons;
  if negb (c =? 0) && (u32 (c_e x - c_r x) <? INPUT_BUF_SIZE) then
    let c := if c =? 13 then 10 else c in
    consputc c ;;
    x ← gets k_cons;
    upd_cons (set_c_buf (<[cons_idx (c_e x) := u8 c]> (c_buf x))) ;;
    upd_cons (set_c_e (u32 (c_e x + 1))) ;;
    x ← gets k_cons;
    if (c =? 10) || (c =? Ctrl 68) || (u32 (c_e x - c_r x) =? INPUT_BUF_SIZE) then
      upd_cons (set_c_w (c_e x)) ;;
      wakeup me cons_chan
    else mret tt
  else mret tt.

Definition consoleintr (me : option nat) (c : Z) : M kernel unit :=
  if c =? Ctrl 80 then procdump
  else if c =? Ctrl 85 then kill_line
  else if (c =? Ctrl 72) || (c =? 0x7f) then
    x ← gets k_cons;
    if negb (c_e x =? c_w x) then
      upd_cons (set_c_e (u32 (c_e x - 1))) ;;
      consputc BACKSPACE
    else mret tt
  else accept_char me c.

(** [n] is the count still wanted, [target] the one asked for. *)
Section read.
Context `{KernelImage}.

Definition consoleread_body (me : nat) (target : Z) (l : place * Z) :
    M kernel ((place * Z) + step (place * Z) Z) :=
  let '(dst, n) := l in
  if 0 <? n then
    x ← gets k_cons;
    if c_r x =? c_w x then
      k ← killed me;
      if negb (k =? 0) then mret (inr (Return (-1)))
      else mret (inr (Block cons_chan l))
    else
      match c_buf x !! cons_idx (c_r x) with
      | None => ub
      | Some c =>
          upd_cons (set_c_r (u32 (c_r x + 1))) ;;
          if c =? Ctrl 68 then (* end-of-file *)
            (* Save ^D for next time, to make sure caller gets a 0-byte result. *)
            (if n <? target then upd_cons (set_c_r (c_r x)) else mret tt) ;;
            mret (inr (Return (i32 (target - n))))
          else
            r ← either_copyout me dst [c];
            if r =? -1 then mret (inr (Return (i32 (target - n))))
            else
              let n := n - 1 in
              if c =? 10 then mret (inr (Return (i32 (target - n))))
              else mret (inl (advance dst 1, n))
      end
  else mret (inr (Return (i32 (target - n)))).

Definition consoleread (me : nat) (target : Z) (l : place * Z) : M kernel (step (place * Z) Z) :=
  loop (S (Z.to_nat (snd l))) (consoleread_body me target) l.

(** Blocks in [uartwrite] with the batch being sent and the index in it. *)
Definition consolewrite_body (me : nat) (src : place) (n : Z) (l : Z * option (list Z * Z)) :
    M kernel ((Z * option (list Z * Z)) + step (Z * option (list Z * Z)) Z) :=
  let '(i, pending) := l in
  match pending with
  | Some (b, j) =>
      r ← uartwrite b (Z.of_nat (length b)) j;
      match r with
      | Block ch j' => mret (inr (Block ch (i, Some (b, j'))))
      | Return _ => mret (inl (i + Z.of_nat (length b), None))
      end
  | None =>
      if i <? n then
        let nn := if n - i <? 32 then n - i else 32 in
        '(r, b) ← either_copyin me (advance src i) [] nn;
        if r =? -1 then mret (inr (Return i))
        else mret (inl (i, Some (b, 0)))
      else mret (inr (Return i))
  end.

Definition consolewrite (me : nat) (src : place) (n : Z) (l : Z * option (list Z * Z)) :
    M kernel (step (Z * option (list Z * Z)) Z) :=
  loop (S (2 * Z.to_nat n)) (consolewrite_body me src n) l.
End read.

Definition uartintr_body (me : option nat) (_ : unit) : M kernel (unit + unit) :=
  c ← uartgetc;
  if c =? -1 then mret (inr tt) else consoleintr me c ;; mret (inl tt).

Definition uartintr (me : option nat) : M kernel unit :=
  x ← gets k_cons;
  (if c_tx_idle x then
     upd_cons (set_c_tx_busy false) ;;
     wakeup me tx_chan
   else mret tt) ;;
  loop (S (length (c_rx x))) (uartintr_body me) tt.

(** The register writes of [uartinit] only program the device. *)
Definition consoleinit : M kernel unit :=
  modify (λ s, set_k_devsw (<[Z.to_nat CONSOLE := true]> (k_devsw s)) s).
