(* ===== verification/ConsoleSpec.v ===== *)
(** Correctness of the console: the interrupt handler implements line editing
    on an abstract pair of a queue of finished lines and the line being typed,
    and [consoleread] delivers lines. *)

From S2P Require Import Prelude Riscv Mem Str Kalloc Vm State Sched SchedSpec Ring Procmem Console.

(** * Output *)

(** Code that only prints. *)
Definition quiet (m : M kernel unit) : Prop :=
  ∀ s, ∃ out, m s = Ok (tt, set_k_cons (set_c_out out (k_cons s)) s).

Lemma quiet_ret : quiet (mret tt).
Proof. intros s. exists (c_out (k_cons s)). by destruct s as [? ? ? ? ? ? ? ? ? ? [] ? ? ? ? ?]. Qed.

Lemma quiet_bind m (f : unit → M kernel unit) : quiet m → quiet (f tt) → quiet (m ≫= f).
Proof.
  intros Hm Hf s. destruct (Hm s) as [o1 H1].
  destruct (Hf (set_k_cons (set_c_out o1 (k_cons s)) s)) as [o2 H2].
  exists o2. rewrite (bind_Ok_1 _ _ _ _ _ H1), H2. done.
Qed.

Lemma quiet_ret_bind {A} (a : A) (f : A → M kernel unit) : quiet (f a) → quiet (mret a ≫= f).
Proof. done. Qed.

Lemma quiet_foreach {A} (l : list A) f : (∀ x, quiet (f x)) → quiet (foreach l f).
Proof. intros Hf. induction l; cbn [foreach]; [apply quiet_ret|by apply quiet_bind]. Qed.

Lemma quiet_uart_put c : quiet (uart_put c).
Proof. intros s. by eexists. Qed.

Lemma quiet_consputc c : quiet (consputc c).
Proof.
  unfold consputc, uartputc_sync. destruct (c =? BACKSPACE); [|apply quiet_uart_put].
  repeat apply quiet_bind; apply quiet_uart_put.
Qed.

(** ** printint *)

(** The number a list of digits denotes, first digit first. *)
Definition undigit (c : Z) : Z := if c <? 58 then c - 48 else c - 87.
Definition numeral (base : Z) (l : list Z) : Z := foldl (λ n c, n * base + undigit c) 0 l.

Lemma undigit_digit d : 0 ≤ d < 16 → undigit (digit d) = d.
Proof.
  intros Hd. unfold undigit, digit. destruct (Z.ltb_spec d 10).
  - destruct (Z.ltb_spec (48 + d) 58); lia.
  - destruct (Z.ltb_spec (87 + d) 58); lia.
Qed.

(** Enough digits for [x]: the buffer has room for [n] more. *)
Lemma printint_digits_run n base x buf :
  2 ≤ base ≤ 16 → 0 ≤ x < base ^ Z.of_nat n → (0 < n)%nat →
  ∃ ds, printint_digits n base x buf = Some (ds ++ buf) ∧ numeral base ds = x ∧
    Forall (λ c, ∃ d, 0 ≤ d < base ∧ c = digit d) ds ∧
    ∀ k, (0 < k)%nat → x < base ^ Z.of_nat k → (length ds ≤ k)%nat.
Proof.
  intros Hb. revert x buf. induction n as [|n IH]; intros x buf Hx Hn; [lia|].
  cbn [printint_digits]. pose proof (Z.mod_pos_bound x base ltac:(lia)) as Hm.
  pose proof (Z.div_mod x base ltac:(lia)) as Hdm.
  destruct (Z.eqb_spec (x / base) 0) as [H0|H0].
  - exists [digit (x mod base)]. split_and!; [done| |repeat constructor; eauto|cbn; lia].
    cbn. rewrite undigit_digit by lia. lia.
  - assert (0 < x / base). { pose proof (Z.div_pos x base). lia. }
    destruct (IH (x / base) (digit (x mod base) :: buf)) as (ds & Hd & Hv & Hall & Hl).
    + split; [lia|]. apply Z.div_lt_upper_bound; [lia|].
      rewrite <-Z.pow_succ_r by lia. replace (Z.succ (Z.of_nat n)) with (Z.of_nat (S n)) by lia. lia.
    + destruct n; [|lia]. change (Z.of_nat 1) with 1 in Hx. rewrite Z.pow_1_r in Hx.
      rewrite Z.div_small in H0 by lia. done.
    + exists (ds ++ [digit (x mod base)]). rewrite Hd, <-app_assoc. split_and!; [done| | |].
      * unfold numeral in *. rewrite foldl_app, Hv. cbn. rewrite undigit_digit by lia. lia.
      * apply Forall_app. split; [done|]. repeat constructor; eauto.
      * intros k Hk Hlt. rewrite length_app. cbn. destruct k as [|k]; [lia|].
        replace (Z.of_nat (S k)) with (Z.succ (Z.of_nat k)) in Hlt by lia.
        rewrite Z.pow_succ_r in Hlt by lia.
        assert (x / base < base ^ Z.of_nat k) as Hlt' by (apply Z.div_lt_upper_bound; lia).
        destruct k as [|k]; [cbn in Hlt'; lia|]. specialize (Hl (S k) ltac:(lia) Hlt'). lia.
Qed.

(** The state after printing the characters [l]. *)
Definition emit (l : list Z) (s : kernel) : kernel :=
  set_k_cons (set_c_out (reverse l ++ c_out (k_cons s)) (k_cons s)) s.

Lemma emit_app l l' s : emit l' (emit l s) = emit (l ++ l') s.
Proof. unfold emit. cbn. by rewrite reverse_app, <-app_assoc. Qed.

Lemma emit_nil s : emit [] s = s.
Proof. unfold emit. by destruct s as [? ? ? ? ? ? ? ? ? ? [] ? ? ? ? ?]. Qed.

Lemma consputc_emit c s : 0 ≤ c < 256 → consputc c s = Ok (tt, emit [c] s).
Proof.
  intros Hc. unfold consputc, BACKSPACE. destruct (Z.eqb_spec c 256); [lia|].
  unfold uartputc_sync, uart_put, upd_cons, modify, emit. rewrite u8_small by lia. done.
Qed.

Lemma foreach_consputc l s : bytes l → foreach l consputc s = Ok (tt, emit l s).
Proof.
  intros Hl. revert s. induction Hl as [|c l Hc Hl IH]; intros s; cbn [foreach].
  - by rewrite emit_nil.
  - rewrite (bind_Ok_1 _ _ _ _ _ (consputc_emit c s Hc)), IH. by rewrite emit_app.
Qed.

Lemma digit_byte base l :
  2 ≤ base ≤ 16 → Forall (λ c, ∃ d, 0 ≤ d < base ∧ c = digit d) l → bytes l.
Proof.
  intros Hb Hl. eapply Forall_impl; [exact Hl|]. intros c (d & Hd & ->). unfold digit. destruct (Z.ltb_spec d 10); lia.
Qed.

Lemma printint_run xx base sign s :
  10 ≤ base ≤ 16 → - 2 ^ 63 < xx < 2 ^ 63 →
  ∃ ds, printint xx base sign s = Ok (tt, emit (if sign && (xx <? 0) then 45 :: ds else ds) s) ∧
    numeral base ds = (if sign && (xx <? 0) then - xx else u64 xx) ∧
    (length ds ≤ 20)%nat ∧ Forall (λ c, ∃ d, 0 ≤ d < base ∧ c = digit d) ds.
Proof.
  intros Hb Hx. unfold printint. set (neg := sign && (xx <? 0)).
  assert (neg && (xx =? - 2 ^ 63) = false) as ->.
  { destruct (Z.eqb_spec xx (- 2 ^ 63)); [lia|]. apply andb_false_r. }
  assert (neg = true → xx < 0) as Hneg by (unfold neg; intros [_ ?%Z.ltb_lt]%andb_prop; done).
  set (x := if neg then u64 (- xx) else u64 xx).
  assert (10 ^ 20 ≤ base ^ 20) as H20 by (apply Z.pow_le_mono_l; lia).
  assert (10 ^ 19 ≤ base ^ 19) as H19 by (apply Z.pow_le_mono_l; lia).
  assert (x = if neg then - xx else u64 xx) as Ex.
  { unfold x. destruct neg; [|done]. apply u64_small. lia. }
  destruct (printint_digits_run 20 base x []) as (ds & Hd & Hv & Hall & Hl).
  { lia. } { change (Z.of_nat 20) with 20. unfold x. destruct neg; pose proof (u64_range (- xx)); pose proof (u64_range xx); lia. }
  { lia. }
  rewrite app_nil_r in Hd. rewrite Hd. pose proof (digit_byte base ds ltac:(lia) Hall) as Hby.
  exists ds. rewrite <-Ex. split_and!; [|done| |done].
  2: { apply (Hl 20%nat); [lia|]. change (Z.of_nat 20) with 20. unfold x. destruct neg; pose proof (u64_range (- xx)); pose proof (u64_range xx); lia. }
  destruct neg; [|by apply foreach_consputc].
  rewrite decide_True; [by apply foreach_consputc; constructor; [lia|]|].
  assert (length ds ≤ 19)%nat; [|lia]. apply Hl; [lia|]. change (Z.of_nat 19) with 19. lia.
Qed.

Lemma quiet_printint xx sign : - 2 ^ 63 < xx < 2 ^ 63 → quiet (printint xx 10 sign).
Proof.
  intros Hx s. destruct (printint_run xx 10 sign s ltac:(lia) Hx) as (ds & H & _). by eexists.
Qed.

(** [printint] prints the number it is given: the digits written denote
    the magnitude in the base, preceded by a minus sign exactly for a negative
    number printed signed, and they fit the 20 bytes of its buffer.  The most
    negative 64-bit integer, whose negation overflows, is excluded. *)
Theorem printint_prints (xx base : Z) (sign : bool) (s : kernel) :
  10 ≤ base ≤ 16 → - 2 ^ 63 < xx < 2 ^ 63 →
  ∃ ds, printint xx base sign s = Ok (tt, emit (if sign && (xx <? 0) then 45 :: ds else ds) s) ∧
    numeral base ds = (if sign && (xx <? 0) then - xx else u64 xx) ∧ (length ds ≤ 20)%nat.
Proof.
  intros Hb Hx. destruct (printint_run xx base sign s Hb Hx) as (ds & H1 & H2 & H3 & _). by exists ds.
Qed.

Lemma printint_prints_witness :
  ∃ ds, printint (-123) 10 true kernel0 = Ok (tt, emit (45 :: ds) kernel0) ∧ numeral 10 ds = 123.
Proof.
  destruct (printint_prints (-123) 10 true kernel0) as (ds & H1 & H2 & _); [lia|lia|].
  exists ds. split; [exact H1|exact H2].
Defined.

(** ** procdump *)

Definition int_fields (p : proc) : Prop :=
  ∃ q0 q1 q2, p_ticks_in_q p = [q0; q1; q2].

(** One conversion of [printf] at a time. *)
Lemma quiet_printf_end f ap : quiet (printf_loop (S f) [] ap).
Proof. apply quiet_ret. Qed.

Lemma quiet_printf_char f c fmt ap :
  bool_decide (0 < c < 256 ∧ c ≠ 37) → quiet (printf_loop f fmt ap) → quiet (printf_loop (S f) (c :: fmt) ap).
Proof.
  intros [Hc H37]%bool_decide_unpack Hq. cbn [printf_loop].
  assert (char_at (c :: fmt) 0 = c) as -> by (unfold char_at; cbn; by apply u8_small; lia).
  destruct (Z.eqb_spec c 0); [lia|]. destruct (Z.eqb_spec c 37); [done|].
  apply quiet_bind; [apply quiet_consputc|done].
Qed.

Lemma quiet_printf_d f x fmt ap :
  quiet (printf_loop f fmt ap) → quiet (printf_loop (S f) (37 :: 100 :: fmt) (Num x :: ap)).
Proof.
  intros Hq. cbn [printf_loop]. change (char_at (37 :: 100 :: fmt) 0) with 37.
  change (char_at (37 :: 100 :: fmt) 1) with 100. cbv beta iota zeta delta [Z.eqb Pos.eqb negb va_num].
  apply quiet_ret_bind. apply quiet_bind; [|exact Hq].
  apply quiet_printint. pose proof (i32_range x). lia.
Qed.

Lemma quiet_printf_s f l fmt ap :
  quiet (printf_loop f fmt ap) → quiet (printf_loop (S f) (37 :: 115 :: fmt) (Str (Some l) :: ap)).
Proof.
  intros Hq. cbn [printf_loop]. change (char_at (37 :: 115 :: fmt) 0) with 37.
  change (char_at (37 :: 115 :: fmt) 1) with 115. cbv beta iota zeta delta [Z.eqb Pos.eqb negb andb].
  apply quiet_bind; [|exact Hq]. apply quiet_foreach. intros c. apply quiet_consputc.
Qed.

Ltac quiet_fmt :=
  unfold printf, printf_fuel;
  lazymatch goal with
  | |- quiet (printf_loop (S (length ?fmt)) ?fmt _) =>
      let l := eval vm_compute in fmt in
      change fmt with l; cbn [length]
  end;
  repeat lazymatch goal with
  | |- quiet (printf_loop _ [] _) => apply quiet_printf_end
  | |- quiet (printf_loop _ (37 :: 100 :: _) _) => apply quiet_printf_d
  | |- quiet (printf_loop _ (37 :: 115 :: _) _) => apply quiet_printf_s
  | |- quiet (printf_loop _ (_ :: _) _) => apply quiet_printf_char; [exact I|]
  end.

Lemma quiet_printf_row pid st prio q0 q1 q2 name :
  quiet (printf row_fmt [Num pid; Str (Some st); Num prio; Num q0; Num q1; Num q2; Str (Some name)]).
Proof. quiet_fmt. Qed.
Lemma quiet_printf_header : quiet (printf header_fmt []).
Proof. quiet_fmt. Qed.
Lemma quiet_printf_nl : quiet (printf nl []).
Proof. quiet_fmt. Qed.

(** Printing that reads the process table. *)
Definition prints (m : M kernel unit) (s : kernel) : Prop :=
  ∃ out, m s = Ok (tt, set_k_cons (set_c_out out (k_cons s)) s).

Lemma prints_bind m (f : unit → M kernel unit) s :
  prints m s → (∀ s', k_proc s' = k_proc s → prints (f tt) s') → prints (m ≫= f) s.
Proof.
  intros [o1 H1] Hf. destruct (Hf (set_k_cons (set_c_out o1 (k_cons s)) s) eq_refl) as [o2 H2].
  exists o2. rewrite (bind_Ok_1 _ _ _ _ _ H1), H2. done.
Qed.

Lemma prints_foreach {A} (l : list A) f s :
  (∀ x s', x ∈ l → k_proc s' = k_proc s → prints (f x) s') → prints (foreach l f) s.
Proof.
  revert s. induction l as [|x l IH]; intros s Hf; cbn [foreach]; [apply quiet_ret|].
  apply prints_bind; [by apply Hf; [left|]|].
  intros s' Hs. apply IH. intros y s'' Hy Hs'. apply Hf; [by right|congruence].
Qed.

Definition dump_ok (s : kernel) : Prop :=
  table_ok s ∧ ∀ i p, k_proc s !! i = Some p → int_fields p.

Lemma dump_ok_proc s s' : k_proc s' = k_proc s → dump_ok s → dump_ok s'.
Proof. unfold dump_ok, table_ok. by intros ->. Qed.

Lemma proc_index s i : table_ok s → i ∈ proc_indices → ∃ p, k_proc s !! i = Some p.
Proof.
  intros Ht Hi. apply elem_of_seq in Hi. apply lookup_lt_is_Some_2. unfold table_ok in Ht. lia.
Qed.

Lemma procdump_row_prints i s : dump_ok s → i ∈ proc_indices → prints (procdump_row i) s.
Proof.
  intros [Ht Hf] Hi. destruct (proc_index s i Ht Hi) as [p Hp]. unfold procdump_row.
  unfold prints. rewrite (bind_Ok_1 _ _ _ _ _ (get_proc_run _ _ _ Hp)).
  case_decide; [apply quiet_ret|]. destruct (Hf i p Hp) as (q0 & q1 & q2 & ->).
  apply quiet_printf_row.
Qed.

(** The outer loop of [procdump]. *)
Lemma procdump_prints s : dump_ok s → prints procdump s.
Proof.
  intros Hd. unfold procdump. apply prints_bind; [apply quiet_printf_nl|]. intros s1 Hs1.
  apply (dump_ok_proc _ _ Hs1) in Hd. clear s Hs1.
  assert (∀ l, (∀ i, i ∈ l → i ∈ proc_indices) → prints (scan l (λ i,
    p ← get_proc i;
    if decide (p_state p = UNUSED) then mret None
    else
      printf header_fmt [] ;;
      foreach proc_indices procdump_row ;;
      mret (Some tt)) ≫= λ _, mret tt) s1) as Hscan; [|by apply Hscan].
  induction l as [|i l IH]; intros Hl; cbn [scan]; [apply quiet_ret|].
  destruct (proc_index s1 i (proj1 Hd)) as [p Hp]; [by apply Hl; left|].
  unfold prints. rewrite !bind_assoc, (bind_Ok_1 _ _ _ _ _ (get_proc_run _ _ _ Hp)).
  case_decide.
  { rewrite (bind_Ok_1 _ _ s1 None s1 eq_refl). apply IH. intros j Hj. apply Hl. by right. }
  destruct (quiet_printf_header s1) as [o1 H1].
  rewrite bind_assoc, (bind_Ok_1 _ _ _ _ _ H1), bind_assoc.
  destruct (prints_foreach proc_indices procdump_row (set_k_cons (set_c_out o1 (k_cons s1)) s1)) as [o2 H2].
  { intros j s' Hj Hs'. apply procdump_row_prints; [|done]. by eapply dump_ok_proc. }
  rewrite (bind_Ok_1 _ _ _ _ _ H2). by exists o2.
Qed.

(** * Line editing *)

(** The input buffer as the queue of finished lines and the line being typed;
    the counters of the code are the unbounded ones reduced to 32 bits. *)
Record cons_at (x : console) (q ed : list Z) (R W E : Z) : Prop := {
  ca_buf : length (c_buf x) = Z.to_nat INPUT_BUF_SIZE;
  ca_le : R ≤ W ≤ E ∧ E ≤ R + INPUT_BUF_SIZE;
  ca_r : c_r x = u32 R;
  ca_w : c_w x = u32 W;
  ca_e : c_e x = u32 E;
  ca_queue : q = ring INPUT_BUF_SIZE (c_buf x) R (Z.to_nat (W - R));
  ca_edit : ed = ring INPUT_BUF_SIZE (c_buf x) W (Z.to_nat (E - W));
}.
Definition cons_rep (x : console) (q ed : list Z) : Prop := ∃ R W E, cons_at x q ed R W E.

(** What typing the character [c] does to queue and line. *)
Definition line_intr (c : Z) (l : list Z * list Z) : list Z * list Z :=
  let '(q, ed) := l in
  let room := INPUT_BUF_SIZE - Z.of_nat (length q + length ed) in
  if c =? Ctrl 80 then l
  else if c =? Ctrl 85 then (q, [])
  else if (c =? Ctrl 72) || (c =? 0x7f) then (q, take (pred (length ed)) ed)
  else if (c =? 0) || (room <=? 0) then l
  else
    let c := if c =? 13 then 10 else c in
    if (c =? 10) || (c =? Ctrl 68) || (room =? 1) then (q ++ ed ++ [c], []) else (q, ed ++ [c]).

Lemma input_div : (INPUT_BUF_SIZE | 2 ^ 32).
Proof. by exists (2 ^ 25). Qed.

Lemma slot_cons_u32 x : cons_idx (u32 x) = cons_idx x.
Proof. by apply slot_u32; [|apply input_div]. Qed.

Lemma u32_dec x : u32 (u32 x - 1) = u32 (x - 1).
Proof. apply u32_sub_u32_l. Qed.

Section cons_at.
Context (x : console) (q ed : list Z) (R W E : Z) (Hx : cons_at x q ed R W E).

Lemma cons_at_used : u32 (c_e x - c_r x) = E - R.
Proof.
  destruct Hx as [? ? -> ? -> ? ?]. rewrite u32_sub_u32. apply u32_small. unfold INPUT_BUF_SIZE in *. lia.
Qed.

Lemma cons_at_eq : (c_e x =? c_w x) = (E =? W).
Proof.
  destruct Hx as [_ Hle _ -> -> _ _]. unfold INPUT_BUF_SIZE in *.
  destruct (Z.eqb_spec E W) as [->|Hne]; [apply Z.eqb_refl|]. apply Z.eqb_neq. intros Hu.
  assert (u32 (E - W) = 0) as H0 by (by rewrite <-u32_sub_u32, Hu, Z.sub_diag).
  rewrite u32_small in H0 by lia. lia.
Qed.

Lemma cons_at_length : length q = Z.to_nat (W - R) ∧ length ed = Z.to_nat (E - W).
Proof. destruct Hx as [_ _ _ _ _ -> ->]. by rewrite !length_ring. Qed.

Lemma cons_at_all : q ++ ed = ring INPUT_BUF_SIZE (c_buf x) R (Z.to_nat (E - R)).
Proof.
  destruct Hx as [_ Hle _ _ _ -> ->].
  replace (Z.to_nat (E - R)) with (Z.to_nat (W - R) + Z.to_nat (E - W))%nat by lia.
  rewrite ring_app. do 2 f_equal. lia.
Qed.

Lemma cons_at_last :
  W < E → ∃ c, c_buf x !! cons_idx (u32 (c_e x - 1)) = Some c ∧ ed = take (pred (length ed)) ed ++ [c].
Proof.
  intros Hlt. pose proof (proj2 cons_at_length) as Hl. destruct Hx as [Hb Hle _ _ He _ Hed].
  rewrite He, u32_dec, slot_cons_u32.
  destruct (lookup_lt_is_Some_2 (c_buf x) (cons_idx (E - 1))) as [c Hc].
  { by apply slot_lt. }
  exists c. split; [done|]. rewrite Hl. rewrite Hed.
  replace (Z.to_nat (E - W)) with (S (Z.to_nat (E - 1 - W))) by lia. cbn [pred].
  rewrite ring_snoc. rewrite take_app_length' by (by rewrite length_ring).
  replace (W + Z.of_nat (Z.to_nat (E - 1 - W))) with (E - 1) by lia.
  unfold cons_idx in Hc. by rewrite Hc.
Qed.

Lemma cons_at_erase :
  W < E → cons_at (set_c_e (u32 (c_e x - 1)) x) q (take (pred (length ed)) ed) R W (E - 1).
Proof.
  intros Hlt. pose proof (proj2 cons_at_length) as Hl. destruct Hx as [Hb Hle Hr Hw He Hq Hed].
  constructor; cbn; try done; [lia|by rewrite He, u32_dec|].
  rewrite Hl, Hed. replace (Z.to_nat (E - W)) with (S (Z.to_nat (E - 1 - W))) by lia. cbn [pred].
  rewrite ring_snoc, take_app_length' by (by rewrite length_ring). done.
Qed.

Lemma cons_at_push c :
  E < R + INPUT_BUF_SIZE →
  cons_at (set_c_e (u32 (c_e x + 1)) (set_c_buf (<[cons_idx (c_e x) := c]> (c_buf x)) x)) q (ed ++ [c]) R W (E + 1).
Proof.
  intros Hlt. destruct Hx as [Hb Hle Hr Hw He Hq Hed].
  constructor; cbn; try done; [by rewrite length_insert|lia|by rewrite He, u32_add_u32| |];
    rewrite He, slot_cons_u32; unfold cons_idx; unfold INPUT_BUF_SIZE in *.
  - rewrite ring_insert_out by lia. done.
  - replace (Z.to_nat (E + 1 - W)) with (S (Z.to_nat (E - W))) by lia.
    replace E with (W + Z.of_nat (Z.to_nat (E - W))) at 1 by lia.
    rewrite ring_push by (done || lia). by rewrite Hed.
Qed.

Lemma cons_at_commit : cons_at (set_c_w (c_e x) x) (q ++ ed) [] R E E.
Proof.
  pose proof cons_at_all as Hall. destruct Hx as [Hb Hle Hr Hw He Hq Hed].
  constructor; cbn; try done; [lia|]. by rewrite Z.sub_diag.
Qed.

Lemma cons_at_out o : cons_at (set_c_out o x) q ed R W E.
Proof. by destruct Hx; constructor. Qed.
End cons_at.

Lemma consputc_state c s :
  ∃ o, consputc c s = Ok (tt, set_k_cons (set_c_out o (k_cons s)) s).
Proof. apply quiet_consputc. Qed.

(** The registers of the device are untouched. *)
Definition same_dev (x x' : console) : Prop :=
  c_rx x' = c_rx x ∧ c_tx_idle x' = c_tx_idle x ∧ c_tx_busy x' = c_tx_busy x.

Lemma same_dev_trans x y z : same_dev x y → same_dev y z → same_dev x z.
Proof. unfold same_dev. intuition congruence. Qed.

Lemma kill_line_step s q ed R W E :
  cons_at (k_cons s) q ed R W E → Forall (λ c, c ≠ 10) ed → W < E →
  ∃ s', kill_line_body tt s = Ok (inl tt, s') ∧ s' = set_k_cons (k_cons s') s ∧
    cons_at (k_cons s') q (take (pred (length ed)) ed) R W (E - 1) ∧ same_dev (k_cons s) (k_cons s').
Proof.
  intros Hx Hno Hlt. unfold kill_line_body. rewrite bind_gets,
    (cons_at_eq _ _ _ _ _ _ Hx).
  destruct (Z.eqb_spec E W) as [->|Hne]; [lia|].
  destruct (cons_at_last _ _ _ _ _ _ Hx Hlt) as (c & Hc & Hed). rewrite Hc.
  rewrite Hed in Hno. apply Forall_app in Hno as [Hno Hnc]. apply Forall_cons in Hnc as [Hnc _].
  destruct (Z.eqb_spec c 10); [done|]. cbn [negb].
  rewrite bind_upd_cons.
  set (s1 := set_k_cons _ s). destruct (consputc_state BACKSPACE s1) as [o Ho].
  rewrite (bind_Ok_1 _ _ _ _ _ Ho). eexists. split_and!; [done..| |done].
  apply cons_at_out, cons_at_erase; done.
Qed.

Lemma kill_line_loop n s q ed R W E :
  cons_at (k_cons s) q ed R W E → Forall (λ c, c ≠ 10) ed → Z.to_nat (E - W) = n →
  ∃ s', loop (S n) kill_line_body tt s = Ok (tt, s') ∧ s' = set_k_cons (k_cons s') s ∧
    cons_rep (k_cons s') q [] ∧ same_dev (k_cons s) (k_cons s').
Proof.
  revert s ed E. induction n as [|n IH]; intros s ed E Hx Hno Hn;
    destruct (ca_le _ _ _ _ _ _ Hx) as [Hle _].
  - assert (E = W) as -> by lia. exists s. split_and!; [|by destruct s| |done].
    + apply loop_done. unfold kill_line_body.
      rewrite bind_gets, (cons_at_eq _ _ _ _ _ _ Hx).
      by rewrite Z.eqb_refl.
    + exists R, W, W. destruct (cons_at_length _ _ _ _ _ _ Hx) as [_ Hl]. rewrite Z.sub_diag in Hl.
      by destruct ed.
  - destruct (kill_line_step s q ed R W E Hx Hno ltac:(lia)) as (s1 & Hb & Hs1 & Hx1 & Hd1).
    destruct (IH s1 _ (E - 1) Hx1 (Forall_take _ _ _ Hno) ltac:(lia)) as (s' & Hrun & Hs' & Hrep & Hd).
    exists s'. rewrite (loop_step _ _ _ _ _ _ Hb).
    split_and!; [exact Hrun|by rewrite Hs', Hs1|done|by eapply same_dev_trans].
Qed.

(** The processes after the handler: readers are woken when a line is done. *)
Definition readers (me : option nat) (q q' : list Z) (l : list proc) : list proc :=
  if decide (length q < length q')%nat
  then map_procs (woken me cons_chan) (set_p_state RUNNABLE) l else l.

Definition intr_post (me : option nat) (s s' : kernel) (q q' ed' : list Z) : Prop :=
  cons_rep (k_cons s') q' ed' ∧ s' = set_k_cons (k_cons s') (set_k_proc (k_proc s') s) ∧
  k_proc s' = readers me q q' (k_proc s) ∧ same_dev (k_cons s) (k_cons s').

Lemma intr_post_cons me s x q ed :
  cons_rep x q ed → same_dev (k_cons s) x → intr_post me s (set_k_cons x s) q q ed.
Proof.
  intros Hx Hdev. split; [done|]. unfold readers. rewrite decide_False by lia.
  split_and!; [by destruct s|done|done..].
Qed.

Lemma set_k_cons_id s : set_k_cons (k_cons s) s = s.
Proof. by destruct s. Qed.

Lemma accept_char_run me c s q ed :
  table_ok s → 0 ≤ c < 256 → cons_rep (k_cons s) q ed →
  (c =? Ctrl 80) = false → (c =? Ctrl 85) = false → (c =? Ctrl 72) || (c =? 0x7f) = false →
  ∃ s', accept_char me c s = Ok (tt, s') ∧
    intr_post me s s' q (line_intr c (q, ed)).1 (line_intr c (q, ed)).2.
Proof.
  intros Ht Hc (R & W & E & Hx) HP HU HH. unfold line_intr. rewrite HP, HU, HH.
  destruct (cons_at_length _ _ _ _ _ _ Hx) as [Hlq Hled]. destruct (ca_le _ _ _ _ _ _ Hx) as [Hle Hsz].
  replace (INPUT_BUF_SIZE - Z.of_nat (length q + length ed)) with (INPUT_BUF_SIZE - (E - R)) by lia.
  unfold accept_char. rewrite bind_gets, (cons_at_used _ _ _ _ _ _ Hx).
  destruct (Z.eqb_spec c 0) as [->|Hc0]; cbn [negb andb orb].
  { exists s. split; [done|]. rewrite <-(set_k_cons_id s) at 2. apply intr_post_cons; [|done]. by exists R, W, E. }
  destruct (Z.ltb_spec (E - R) INPUT_BUF_SIZE) as [Hroom|Hfull].
  2: { destruct (Z.leb_spec (INPUT_BUF_SIZE - (E - R)) 0); [|lia].
       exists s. split; [done|]. rewrite <-(set_k_cons_id s) at 2. apply intr_post_cons; [|done]. by exists R, W, E. }
  destruct (Z.leb_spec (INPUT_BUF_SIZE - (E - R)) 0); [lia|].
  set (c' := if c =? 13 then 10 else c). assert (0 ≤ c' < 256) as Hc' by (unfold c'; destruct (c =? 13); lia).
  rewrite (bind_Ok_1 _ _ _ _ _ (consputc_emit c' s Hc')).
  set (s1 := emit [c'] s). rewrite bind_gets.
  rewrite bind_upd_cons, bind_upd_cons.
  set (s2 := set_k_cons _ (set_k_cons _ s1)). rewrite bind_gets.
  assert (cons_at (k_cons s2) q (ed ++ [c']) R W (E + 1)) as Hx2.
  { rewrite <-(u8_small c') by done. apply cons_at_push; [by apply cons_at_out|lia]. }
  rewrite (cons_at_used _ _ _ _ _ _ Hx2).
  replace (E + 1 - R =? INPUT_BUF_SIZE) with (INPUT_BUF_SIZE - (E - R) =? 1)
    by (destruct (Z.eqb_spec (INPUT_BUF_SIZE - (E - R)) 1), (Z.eqb_spec (E + 1 - R) INPUT_BUF_SIZE); lia || done).
  destruct ((c' =? 10) || (c' =? Ctrl 68) || (INPUT_BUF_SIZE - (E - R) =? 1)).
  - rewrite bind_upd_cons, wakeup_map by done.
    eexists. split; [done|]. split; [|split; [done|split; [|done]]]; cbn [fst snd].
    + exists R, (E + 1), (E + 1). rewrite app_assoc, <-(app_assoc q). by apply cons_at_commit with (W := W).
    + unfold readers. rewrite decide_True; [done|]. rewrite !length_app. cbn. lia.
  - exists s2. split; [done|]. apply (intr_post_cons me s (k_cons s2)); [|done]. by exists R, W, (E + 1).
Qed.

Lemma consoleintr_run me c s q ed :
  dump_ok s → 0 ≤ c < 256 → cons_rep (k_cons s) q ed → Forall (λ c, c ≠ 10) ed →
  ∃ s', consoleintr me c s = Ok (tt, s') ∧
    intr_post me s s' q (line_intr c (q, ed)).1 (line_intr c (q, ed)).2.
Proof.
  intros Hd Hc Hrep Hno. unfold consoleintr.
  destruct (c =? Ctrl 80) eqn:HP.
  { unfold line_intr. rewrite HP. destruct (procdump_prints s Hd) as [o Ho]. eexists. split; [exact Ho|].
    apply intr_post_cons; [|done]. destruct Hrep as (R & W & E & Hx). exists R, W, E. by apply cons_at_out. }
  destruct (c =? Ctrl 85) eqn:HU.
  { unfold line_intr. rewrite HP, HU. destruct Hrep as (R & W & E & Hx). unfold kill_line.
    rewrite bind_gets.
    destruct (ca_le _ _ _ _ _ _ Hx) as [Hle Hsz]. unfold INPUT_BUF_SIZE in Hsz.
    replace (u32 (c_e (k_cons s) - c_w (k_cons s))) with (E - W).
    2: { destruct Hx as [_ _ _ -> -> _ _]. rewrite u32_sub_u32. symmetry. apply u32_small. lia. }
    destruct (kill_line_loop _ s q ed R W E Hx Hno eq_refl) as (s' & Hrun & Hs' & Hrep' & Hdev).
    exists s'. split; [exact Hrun|]. rewrite Hs'. by apply intr_post_cons. }
  destruct ((c =? Ctrl 72) || (c =? 0x7f)) eqn:HH.
  { unfold line_intr. rewrite HP, HU, HH. destruct Hrep as (R & W & E & Hx).
    rewrite bind_gets, (cons_at_eq _ _ _ _ _ _ Hx).
    destruct (ca_le _ _ _ _ _ _ Hx) as [Hle _].
    destruct (Z.eqb_spec E W) as [->|Hne]; cbn [negb].
    - exists s. split; [done|]. rewrite <-(set_k_cons_id s) at 2. apply intr_post_cons; [|done].
      exists R, W, W. destruct (cons_at_length _ _ _ _ _ _ Hx) as [_ Hl]. rewrite Z.sub_diag in Hl.
      by destruct ed.
    - rewrite bind_upd_cons. set (s1 := set_k_cons _ s).
      destruct (consputc_state BACKSPACE s1) as [o Ho]. eexists. split; [exact Ho|].
      apply (intr_post_cons me s); [|done]. exists R, W, (E - 1). apply cons_at_out, cons_at_erase; [done|lia]. }
  apply accept_char_run; try done. apply Hd.
Qed.

Lemma line_intr_no_newline c q ed :
  Forall (λ c, c ≠ 10) ed → Forall (λ c, c ≠ 10) (line_intr c (q, ed)).2.
Proof.
  intros Hno. unfold line_intr. repeat case_bool; cbn; try done.
  - by apply Forall_take.
  - rewrite !orb_false_iff, Z.eqb_neq in Eb3. apply Forall_app. split; [done|]. repeat constructor. by apply Eb3.
Qed.

(** C27: Line editing.  A typed character acts on the input buffer exactly as
    [line_intr] says on the queue of finished lines and the line being typed:
    backspace and control-U edit only the unfinished line, newline, end of
    file and a full buffer finish it, and then every process that waits for
    input is woken; a character that does not fit is dropped.  This holds for
    all values of the free-running 32-bit indices, wrapped around or not, and
    the handler never panics and touches nothing else but the echo. *)
Theorem consoleintr_edits (me : option nat) (c : Z) (s : kernel) (q ed : list Z) :
  dump_ok s → 0 ≤ c < 256 → cons_rep (k_cons s) q ed → Forall (λ c, c ≠ 10) ed →
  ∃ s', consoleintr me c s = Ok (tt, s') ∧
    cons_rep (k_cons s') (line_intr c (q, ed)).1 (line_intr c (q, ed)).2 ∧
    Forall (λ c, c ≠ 10) (line_intr c (q, ed)).2 ∧
    s' = set_k_cons (k_cons s') (set_k_proc (k_proc s') s) ∧
    k_proc s' = readers me q (line_intr c (q, ed)).1 (k_proc s).
Proof.
  intros Hd Hc Hrep Hno. destruct (consoleintr_run me c s q ed Hd Hc Hrep Hno) as (s' & Hrun & H1 & H2 & H3 & _).
  exists s'. split_and!; [done..| |done|done]. by apply line_intr_no_newline.
Qed.

Lemma dump_ok_map (P : nat → proc → bool) s s' :
  k_proc s' = map_procs P (set_p_state RUNNABLE) (k_proc s) → dump_ok s → dump_ok s'.
Proof.
  intros Hk [Ht Hf]. unfold dump_ok, table_ok. rewrite Hk, length_map_procs. split; [done|].
  intros i p. rewrite lookup_map_procs. destruct (k_proc s !! i) as [q|] eqn:E; [|done].
  cbn. intros [= <-]. destruct (P i q); exact (Hf i q E).
Qed.

Lemma dump_ok_readers me q q' s s' : k_proc s' = readers me q q' (k_proc s) → dump_ok s → dump_ok s'.
Proof. unfold readers. case_decide; [apply dump_ok_map|intros Hk; by apply dump_ok_proc]. Qed.

Definition typed (l : list Z * list Z) (rx : list Z) : list Z * list Z := foldl (λ l c, line_intr c l) l rx.

Lemma uartintr_loop me rx s q ed :
  dump_ok s → bytes rx → c_rx (k_cons s) = rx → cons_rep (k_cons s) q ed → Forall (λ c, c ≠ 10) ed →
  ∃ s', loop (S (length rx)) (uartintr_body me) tt s = Ok (tt, s') ∧ c_rx (k_cons s') = [] ∧
    cons_rep (k_cons s') (typed (q, ed) rx).1 (typed (q, ed) rx).2 ∧
    c_tx_busy (k_cons s') = c_tx_busy (k_cons s).
Proof.
  intros Hd Hb. revert s q ed Hd. induction Hb as [|c rx Hc Hb IH]; intros s q ed Hd Hrx Hrep Hno.
  - exists s. split_and!; [|done..]. apply loop_done. unfold uartintr_body, uartgetc.
    rewrite bind_assoc, bind_gets, Hrx. done.
  - set (s1 := set_k_cons (set_c_rx rx (k_cons s)) s).
    assert (cons_rep (k_cons s1) q ed) as Hrep1.
    { destruct Hrep as (R & W & E & []). exists R, W, E. by constructor. }
    destruct (consoleintr_run me c s1 q ed Hd Hc Hrep1 Hno) as (s2 & Hr2 & Hrep2 & Hs2 & Hk2 & Hdev).
    destruct (line_intr c (q, ed)) as [q2 ed2] eqn:El. cbn [fst snd] in *.
    pose proof (line_intr_no_newline c q ed Hno) as Hno2. rewrite El in Hno2. cbn in Hno2.
    destruct (IH s2 q2 ed2) as (s' & Hrun & Hrx' & Hrep' & Hbusy);
      [by apply (dump_ok_readers me q q2 s1)|apply Hdev|done|done|].
    exists s'. cbn [length]. rewrite (loop_step _ _ _ _ tt s2).
    2: { unfold uartintr_body, uartgetc. rewrite bind_assoc, bind_gets, Hrx.
         rewrite bind_assoc, bind_upd_cons.
         rewrite (bind_Ok_1 (mret _) _ s1 (u8 c) s1 eq_refl), u8_small by done.
         destruct (Z.eqb_spec c (-1)); [lia|]. by rewrite (bind_Ok_1 _ _ _ _ _ Hr2). }
    unfold typed in *. cbn [foldl]. rewrite El. split_and!; [done..|].
    rewrite Hbusy. apply Hdev.
Qed.

(** The uart interrupt drains the receive register: every waiting
    character is processed in order of arrival as [line_intr] says, and when
    the device can transmit again the flag that holds back writers is
    cleared. *)
Theorem uartintr_drains (me : option nat) (s : kernel) (q ed : list Z) :
  dump_ok s → bytes (c_rx (k_cons s)) → cons_rep (k_cons s) q ed → Forall (λ c, c ≠ 10) ed →
  ∃ s', uartintr me s = Ok (tt, s') ∧ c_rx (k_cons s') = [] ∧
    cons_rep (k_cons s') (typed (q, ed) (c_rx (k_cons s))).1 (typed (q, ed) (c_rx (k_cons s))).2 ∧
    c_tx_busy (k_cons s') = c_tx_busy (k_cons s) && negb (c_tx_idle (k_cons s)).
Proof.
  intros Hd Hb Hrep Hno. unfold uartintr. rewrite bind_gets.
  destruct (c_tx_idle (k_cons s)); cbn [negb].
  - rewrite bind_assoc, bind_upd_cons.
    set (s1 := set_k_cons _ s). rewrite (bind_Ok_1 _ _ _ _ _ (wakeup_map me tx_chan s1 (proj1 Hd))).
    set (s2 := set_k_proc _ s1).
    destruct (uartintr_loop me (c_rx (k_cons s)) s2 q ed) as (s' & Hrun & H1 & H2 & H3); try done.
    + by apply (dump_ok_map (woken me tx_chan) s1).
    + destruct Hrep as (R & W & E & []). exists R, W, E. by constructor.
    + exists s'. split_and!; [done..|]. by rewrite H3, andb_false_r.
  - rewrite bind_ret, andb_true_r. by apply uartintr_loop.
Qed.

(** * Reading lines *)

(** What a read of [n] bytes takes from the queue: the bytes delivered, what
    is left, and whether it has to wait for more; [first] when nothing has
    been delivered yet. *)
Fixpoint line_take (n : nat) (first : bool) (q : list Z) : list Z * list Z * bool :=
  match n, q with
  | O, _ => ([], q, false)
  | S n, [] => ([], [], true)
  | S n, c :: q' =>
      if c =? Ctrl 68 then ([], if first then q' else q, false)
      else if c =? 10 then ([c], q', false)
      else let '(l, rest, wait) := line_take n false q' in (c :: l, rest, wait)
  end.

Lemma cons_at_pop x q ed R W E :
  cons_at x q ed R W E → R < W →
  ∃ c q', q = c :: q' ∧ c_buf x !! cons_idx (c_r x) = Some c ∧
    cons_at (set_c_r (u32 (c_r x + 1)) x) q' ed (R + 1) W E.
Proof.
  intros [Hb Hle Hr Hw He Hq Hed] Hlt.
  destruct (lookup_lt_is_Some_2 (c_buf x) (cons_idx R)) as [c Hc]; [by apply slot_lt|].
  exists c, (ring INPUT_BUF_SIZE (c_buf x) (R + 1) (Z.to_nat (W - (R + 1)))).
  split_and!.
  - rewrite Hq. replace (Z.to_nat (W - R)) with (S (Z.to_nat (W - (R + 1)))) by lia.
    rewrite ring_S. unfold cons_idx in Hc. by rewrite Hc.
  - by rewrite Hr, slot_cons_u32.
  - constructor; cbn; try done; [lia|by rewrite Hr, u32_add_u32].
Qed.

Lemma cons_at_empty x q ed R W E : cons_at x q ed R W E → (c_r x =? c_w x) = bool_decide (q = []).
Proof.
  intros Hx. destruct (cons_at_length _ _ _ _ _ _ Hx) as [Hl _].
  destruct Hx as [_ Hle -> -> _ _ _]. unfold INPUT_BUF_SIZE in *.
  destruct q as [|c q]; cbn in Hl.
  - assert (R = W) as -> by lia. by rewrite Z.eqb_refl.
  - apply Z.eqb_neq. intros Hu. assert (u32 (W - R) = 0) as H0 by (by rewrite <-u32_sub_u32, Hu, Z.sub_diag).
    rewrite u32_small in H0 by lia. lia.
Qed.

Section consoleread.
Context `{KernelImage} (me : nat) (p : proc) (ed : list Z) (target : Z).

(** Reading into RAM: the state and result after taking [l] and leaving [q]. *)
Definition read_post (s s' : kernel) (pa : Z) (l q : list Z) : Prop :=
  cons_rep (k_cons s') q ed ∧ k_proc s' = k_proc s ∧ kmem (k_mem s') = stbytes (kmem (k_mem s)) pa l ∧
  freelist (k_mem s') = freelist (k_mem s) ∧ ref_count (k_mem s') = ref_count (k_mem s).

Definition read_result (pa n : Z) (l : list Z) (wait : bool) : step (place * Z) Z :=
  let k := Z.of_nat (length l) in
  if wait then if p_killed p =? 0 then Block cons_chan (Ram (pa + k), n - k) else Return (-1)
  else Return (target - (n - k)).

Lemma copyout_ram pa l s :
  either_copyout me (Ram pa) l s = Ok (0, set_k_mem (set_mem (stbytes (kmem (k_mem s)) pa l) (k_mem s)) s).
Proof. done. Qed.

(** One byte is taken and it is neither the end of the line nor of the file. *)
Lemma consoleread_step s q c q' R W E pa n :
  cons_at (k_cons s) q ed R W E → q = c :: q' → c ≠ Ctrl 68 → c ≠ 10 → 0 < n →
  ∃ s', consoleread_body me target (Ram pa, n) s = Ok (inl (Ram (u64 (pa + 1)), n - 1), s') ∧
    read_post s s' pa [c] q'.
Proof.
  intros Hx Hq H4 H10 Hn. unfold consoleread_body. destruct (Z.ltb_spec 0 n); [|lia].
  rewrite bind_gets, (cons_at_empty _ _ _ _ _ _ Hx), Hq.
  rewrite bool_decide_false by done.
  destruct (ca_le _ _ _ _ _ _ Hx) as [Hle _]. destruct (cons_at_length _ _ _ _ _ _ Hx) as [Hl _].
  rewrite Hq in Hl. cbn in Hl.
  destruct (cons_at_pop _ _ _ _ _ _ Hx ltac:(lia)) as (c1 & q1 & Hq1 & Hc & Hx1).
  rewrite Hq in Hq1. injection Hq1 as <- <-.
  rewrite Hc, bind_upd_cons.
  destruct (Z.eqb_spec c (Ctrl 68)); [done|]. rewrite (bind_Ok_1 _ _ _ _ _ (copyout_ram _ _ _)).
  destruct (Z.eqb_spec c 10); [done|]. eexists. split; [done|]. split; [|done]. by exists (R + 1), W, E.
Qed.

(** The byte that ends the read, or the empty queue. *)
Lemma consoleread_last s q R W E pa n l rest wait :
  k_proc s !! me = Some p → 0 ≤ n ≤ target → target < 2 ^ 31 →
  cons_at (k_cons s) q ed R W E → line_take (Z.to_nat n) (n =? target) q = (l, rest, wait) →
  (∀ c q', q = c :: q' → 0 < n → c = Ctrl 68 ∨ c = 10) →
  ∃ s', consoleread_body me target (Ram pa, n) s = Ok (inr (read_result pa n l wait), s') ∧
    read_post s s' pa l rest.
Proof.
  intros Hp Hn Ht Hx Hl Hend. unfold consoleread_body, read_result.
  destruct (Z.ltb_spec 0 n) as [H0|H0].
  2: { assert (n = 0) as -> by lia. cbn in Hl. injection Hl as <- <- <-. cbn. rewrite i32_small by lia.
       exists s. split; [done|]. split; [by exists R, W, E|done]. }
  rewrite bind_gets, (cons_at_empty _ _ _ _ _ _ Hx).
  replace (Z.to_nat n) with (S (Z.to_nat (n - 1))) in Hl by lia.
  destruct q as [|c q'].
  { injection Hl as <- <- <-. rewrite bool_decide_true by done. unfold killed.
    rewrite bind_assoc, (bind_Ok_1 _ _ _ _ _ (get_proc_run _ _ _ Hp)), bind_ret.
    exists s. split; [|split; [by exists R, W, E|done]]. cbn.
    destruct (p_killed p =? 0); cbn; [|done]. by rewrite Z.add_0_r, Z.sub_0_r. }
  rewrite bool_decide_false by done. destruct (ca_le _ _ _ _ _ _ Hx) as [Hle _].
  destruct (cons_at_length _ _ _ _ _ _ Hx) as [Hlq _]. cbn in Hlq.
  destruct (cons_at_pop _ _ _ _ _ _ Hx ltac:(lia)) as (c1 & q1 & Hq1 & Hc & Hx1).
  injection Hq1 as <- <-. rewrite Hc, bind_upd_cons.
  cbn [line_take] in Hl. destruct (Z.eqb_spec c (Ctrl 68)) as [H4|H4].
  - injection Hl as <- <- <-. cbn. rewrite Z.sub_0_r. destruct (Z.ltb_spec n target).
    + rewrite (proj2 (Z.eqb_neq n target)) by lia. rewrite bind_upd_cons.
      eexists. rewrite i32_small by lia. split; [done|]. split; [|done]. exists R, W, E.
      by destruct Hx; constructor.
    + rewrite (proj2 (Z.eqb_eq n target)) by lia. rewrite bind_ret.
      eexists. rewrite i32_small by lia. split; [done|]. split; [|done]. by exists (R + 1), W, E.
  - rewrite (bind_Ok_1 _ _ _ _ _ (copyout_ram _ _ _)).
    destruct (Z.eqb_spec c 10) as [H10|H10]; [|by destruct (Hend c q' eq_refl H0)].
    injection Hl as <- <- <-. eexists. change (0 =? -1) with false. cbv beta iota.
    rewrite i32_small by lia. split; [done|]. split; [|done]. by exists (R + 1), W, E.
Qed.

Lemma consoleread_loop k s q pa n l rest wait :
  k = Z.to_nat n → k_proc s !! me = Some p → 0 ≤ n ≤ target → target < 2 ^ 31 →
  0 ≤ pa → pa + n < 2 ^ 64 → cons_rep (k_cons s) q ed →
  line_take k (n =? target) q = (l, rest, wait) →
  ∃ s', loop (S k) (consoleread_body me target) (Ram pa, n) s = Ok (read_result pa n l wait, s') ∧
    read_post s s' pa l rest.
Proof.
  revert s q pa n l. induction k as [|k IH]; intros s q pa n l Hk Hp Hn Ht Hpa Hpn (R & W & E & Hx) Hl.
  { rewrite Hk in Hl.
    destruct (consoleread_last s q R W E pa n l rest wait) as (s' & Hb & Hpost); try done; [lia|].
    exists s'. by rewrite (loop_done _ _ _ _ _ _ Hb). }
  assert ((∃ c q', q = c :: q' ∧ c ≠ Ctrl 68 ∧ c ≠ 10) ∨ (∀ c q', q = c :: q' → c = Ctrl 68 ∨ c = 10))
    as [(c & q' & Hq & H4 & H10)|Hend].
  { destruct q as [|c q']; [by right|]. destruct (decide (c = Ctrl 68)); [right; naive_solver|].
    destruct (decide (c = 10)); [right; naive_solver|left; eauto]. }
  2: { rewrite Hk in Hl. destruct (consoleread_last s q R W E pa n l rest wait) as (s' & Hb & Hpost); try done.
       { intros c q' Hq _. by apply (Hend c q'). }
       exists s'. by rewrite (loop_done _ _ _ _ _ _ Hb). }
  destruct (consoleread_step s q c q' R W E pa n Hx Hq H4 H10 ltac:(lia)) as (s1 & Hb & Hrep1 & Hk1 & Hm1 & Hf1 & Hr1).
  rewrite (loop_step _ _ _ _ _ _ Hb), u64_small by lia. rewrite Hq in Hl. cbn [line_take] in Hl.
  rewrite (proj2 (Z.eqb_neq c (Ctrl 68)) H4), (proj2 (Z.eqb_neq c 10) H10) in Hl.
  destruct (line_take k false q') as [[l' rest'] wait'] eqn:El. injection Hl as <- <- <-.
  destruct (IH s1 q' (pa + 1) (n - 1) l') as (s' & Hrun & Hrep' & Hk' & Hm' & Hf' & Hr');
    [lia|by rewrite Hk1|lia..|done|by rewrite (proj2 (Z.eqb_neq (n - 1) target)) by lia|].
  exists s'. split.
  - rewrite Hrun. unfold read_result. cbn [length].
    replace (pa + 1 + Z.of_nat (length l')) with (pa + Z.of_nat (S (length l'))) by lia.
    by replace (n - 1 - Z.of_nat (length l')) with (n - Z.of_nat (S (length l'))) by lia.
  - split_and!; [done|congruence| |congruence..]. by rewrite Hm', Hm1.
Qed.
End consoleread.


(** * Example *)

Module Typing.
(** "ab", backspace, "c", newline, "d". *)
Definition input : list Z := [97; 98; 8; 99; 13; 100].
Definition before : kernel := set_k_cons (set_c_rx input cons0) kernel0.
Definition after : option (list Z * Z * Z) :=
  match uartintr None before with
  | Ok (_, s) => Some (take 3 (c_buf (k_cons s)), c_w (k_cons s), c_e (k_cons s))
  | _ => None
  end.
Example after_input : after = Some ([97; 99; 10], 3, 4).
Proof. vm_compute. reflexivity. Qed.

Lemma cons0_rep : cons_rep cons0 [] [].
Proof. exists 0, 0, 0. constructor; done. Qed.

Lemma before_dump : dump_ok before.
Proof.
  split; [done|]. intros i p Hp. apply list_elem_of_lookup_2 in Hp. cbn in Hp.
  apply elem_of_replicate in Hp as [-> _]. by exists 0, 0, 0.
Qed.

Lemma uartintr_drains_witness :
  ∃ s', uartintr None before = Ok (tt, s') ∧ cons_rep (k_cons s') [97; 99; 10] [100].
Proof.
  destruct (uartintr_drains None before [] []) as (s' & H1 & _ & H2 & _).
  - exact before_dump.
  - repeat constructor; discriminate.
  - destruct cons0_rep as (R & W & E & []). exists R, W, E. constructor; assumption.
  - constructor.
  - exists s'. split; [exact H1|exact H2].
Defined.

Lemma consoleintr_edits_witness :
  ∃ s', consoleintr None 97 before = Ok (tt, s') ∧ cons_rep (k_cons s') [] [97].
Proof.
  destruct (consoleintr_edits None 97 before [] []) as (s' & H1 & H2 & _).
  - exact before_dump.
  - lia.
  - destruct cons0_rep as (R & W & E & []). exists R, W, E. constructor; assumption.
  - constructor.
  - exists s'. split; [exact H1|exact H2].
Defined.

(** A line is waiting; 3 of its bytes are read. *)
Definition ready : kernel :=
  set_k_cons (Cons ([104; 105; 10] ++ replicate 125 0) 0 3 3 [] false true []) kernel0.

#[local] Instance no_image : KernelImage := {| kernel_end := 0; kernel_etext := 0; kernel_trampoline := 0 |}.

Lemma ready_rep : cons_rep (k_cons ready) [104; 105; 10] [].
Proof. exists 0, 3, 3. constructor; done. Qed.

End Typing.
