(* ===== verification/Pipe.v ===== *)
(** Pipes: [pipeclose], [pipewrite] and [piperead] of [kernel/pipe.c] and the
    theorem that a pipe is a first-in first-out queue between the memories of
    its users.  [pipealloc] is in {!File}.

    [pipewrite] sleeps when the pipe is full, with the number of bytes written
    so far as its local state; [piperead] only sleeps before it reads. *)

From S2P Require Import Prelude Riscv Mem Str Kalloc Vm VmTree VmSpace VmUser VmXfer State Sched Ring Procmem SchedSpec.

Definition nread_chan (pi : Z) : channel := ("pi->nread", pi).
Definition nwrite_chan (pi : Z) : channel := ("pi->nwrite", pi).

Section pipe.
Context `{KernelImage}.

Definition pipeclose (me : option nat) (pi : Z) (writable : bool) : M kernel unit :=
  (if writable then
     upd_pipe pi (set_pi_writeopen false) ;;
     wakeup me (nread_chan pi)
   else
     upd_pipe pi (set_pi_readopen false) ;;
     wakeup me (nwrite_chan pi)) ;;
  p ← get_pipe pi;
  if negb (pi_readopen p) && negb (pi_writeopen p) then
    zoom mem_lens (kfree pi) ;;
    modify (λ s, set_k_pipe (delete pi (k_pipe s)) s)
  else mret tt.

Definition pipewrite_body (me : nat) (pi addr n : Z) (i : Z) : M kernel (Z + step Z Z) :=
  if i <? n then
    p ← get_pipe pi;
    k ← killed me;
    if negb (pi_readopen p) || negb (k =? 0) then mret (inr (Return (-1)))
    else if pi_nwrite p =? u32 (pi_nread p + PIPESIZE) then
      wakeup (Some me) (nread_chan pi) ;;
      mret (inr (Block (nwrite_chan pi) i))
    else
      '(r, ch) ← either_copyin me (User (u64 (addr + i))) [] 1;
      if r =? -1 then
        wakeup (Some me) (nread_chan pi) ;;
        mret (inr (Return i))
      else
        match ch with
        | [c] =>
            upd_pipe pi (λ p, set_pi_nwrite (u32 (pi_nwrite p + 1))
              (set_pi_data (<[slot PIPESIZE (pi_nwrite p) := c]> (pi_data p)) p)) ;;
            mret (inl (i + 1))
        | _ => ub
        end
  else
    wakeup (Some me) (nread_chan pi) ;;
    mret (inr (Return i)).

(** [i] bytes have been written when the code is entered or resumed. *)
Definition pipewrite (me : nat) (pi addr n i : Z) : M kernel (step Z Z) :=
  loop (S (Z.to_nat (n - i))) (pipewrite_body me pi addr n) i.

Definition piperead_body (me : nat) (pi addr n : Z) (i : Z) : M kernel (Z + Z) :=
  if i <? n then
    p ← get_pipe pi;
    if pi_nread p =? pi_nwrite p then mret (inr i)
    else
      match pi_data p !! slot PIPESIZE (pi_nread p) with
      | None => ub
      | Some ch =>
          r ← either_copyout me (User (u64 (addr + i))) [ch];
          if r =? -1 then mret (inr (if i =? 0 then -1 else i))
          else
            upd_pipe pi (λ p, set_pi_nread (u32 (pi_nread p + 1)) p) ;;
            mret (inl (i + 1))
      end
  else mret (inr i).

Definition piperead (me : nat) (pi addr n : Z) : M kernel (step unit Z) :=
  p ← get_pipe pi;
  if (pi_nread p =? pi_nwrite p) && pi_writeopen p then
    k ← killed me;
    if negb (k =? 0) then mret (Return (-1))
    else mret (Block (nread_chan pi) tt)
  else
    i ← loop (S (Z.to_nat n)) (piperead_body me pi addr n) 0;
    wakeup (Some me) (nwrite_chan pi) ;;
    mret (Return i).
End pipe.

(** * The queue in a pipe *)

Record pipe_at (p : pipe) (q : list Z) (R W : Z) : Prop := {
  pa_data : length (pi_data p) = Z.to_nat PIPESIZE;
  pa_le : R ≤ W ≤ R + PIPESIZE;
  pa_nread : pi_nread p = u32 R;
  pa_nwrite : pi_nwrite p = u32 W;
  pa_queue : q = ring PIPESIZE (pi_data p) R (Z.to_nat (W - R));
}.
Definition pipe_rep (p : pipe) (q : list Z) : Prop := ∃ R W, pipe_at p q R W.

Lemma pipe_div : (PIPESIZE | 2 ^ 32).
Proof. by exists (2 ^ 23). Qed.

Lemma slot_pipe_u32 x : slot PIPESIZE (u32 x) = slot PIPESIZE x.
Proof. by apply slot_u32; [|apply pipe_div]. Qed.

Lemma u32_ne x y : 0 < y - x < 2 ^ 32 → u32 y ≠ u32 x.
Proof.
  intros Hd Hu. assert (u32 (y - x) = 0) as H0 by (by rewrite <-u32_sub_u32, Hu, Z.sub_diag).
  rewrite u32_small in H0; lia.
Qed.

Section pipe_at.
Context (p : pipe) (q : list Z) (R W : Z) (Hp : pipe_at p q R W).

Lemma pipe_at_length : length q = Z.to_nat (W - R).
Proof. destruct Hp as [_ _ _ _ ->]. by rewrite length_ring. Qed.

Lemma pipe_at_full : (pi_nwrite p =? u32 (pi_nread p + PIPESIZE)) = (Z.of_nat (length q) =? PIPESIZE).
Proof.
  rewrite pipe_at_length. destruct Hp as [_ Hle -> -> _]. rewrite u32_add_u32. unfold PIPESIZE in *.
  destruct (decide (W = R + 512)) as [->|Hne].
  - rewrite Z.eqb_refl. symmetry. apply Z.eqb_eq. lia.
  - rewrite (proj2 (Z.eqb_neq (Z.of_nat _) _)) by lia. apply Z.eqb_neq.
    apply not_eq_sym, u32_ne. lia.
Qed.

Lemma pipe_at_empty : (pi_nread p =? pi_nwrite p) = bool_decide (q = []).
Proof.
  pose proof pipe_at_length as Hl. destruct Hp as [_ Hle -> -> _]. unfold PIPESIZE in *.
  destruct q as [|c q']; cbn in Hl.
  - assert (R = W) as -> by lia. by rewrite Z.eqb_refl.
  - apply Z.eqb_neq, not_eq_sym, u32_ne. lia.
Qed.

Lemma pipe_at_push c :
  Z.of_nat (length q) < PIPESIZE →
  pipe_at (set_pi_nwrite (u32 (pi_nwrite p + 1))
    (set_pi_data (<[slot PIPESIZE (pi_nwrite p) := c]> (pi_data p)) p)) (q ++ [c]) R (W + 1).
Proof.
  intros Hlt. rewrite pipe_at_length in Hlt. destruct Hp as [Hd Hle Hr Hw Hq].
  constructor; cbn; [by rewrite length_insert|lia|done|by rewrite Hw, u32_add_u32|].
  rewrite Hw, slot_pipe_u32. replace (Z.to_nat (W + 1 - R)) with (S (Z.to_nat (W - R))) by lia.
  replace W with (R + Z.of_nat (Z.to_nat (W - R))) at 1 by lia.
  rewrite ring_push by (done || lia). by rewrite Hq.
Qed.

Lemma pipe_at_pop :
  q ≠ [] → ∃ c q', q = c :: q' ∧ pi_data p !! slot PIPESIZE (pi_nread p) = Some c ∧
    pipe_at (set_pi_nread (u32 (pi_nread p + 1)) p) q' (R + 1) W.
Proof.
  intros Hne. pose proof pipe_at_length as Hl. destruct Hp as [Hd Hle Hr Hw Hq].
  assert (length q ≠ O) by (by destruct q).
  destruct (lookup_lt_is_Some_2 (pi_data p) (slot PIPESIZE R)) as [c Hc]; [by apply slot_lt|].
  exists c, (ring PIPESIZE (pi_data p) (R + 1) (Z.to_nat (W - (R + 1)))). split_and!.
  - rewrite Hq. replace (Z.to_nat (W - R)) with (S (Z.to_nat (W - (R + 1)))) by lia.
    by rewrite ring_S, Hc.
  - by rewrite Hr, slot_pipe_u32.
  - constructor; cbn; try done; [lia|by rewrite Hr, u32_add_u32].
Qed.
End pipe_at.

(** * Writing *)

Lemma zoom_mem {A} (m : M kst A) s a t : m (k_mem s) = Ok (a, t) → zoom mem_lens m s = Ok (a, set_k_mem t s).
Proof. intros Hm. unfold zoom. cbn. by rewrite Hm. Qed.

Section write.
Context `{KernelImage} `{!KernelImageOk}.
Context (me : nat) (pr : proc) (pi addr n : Z).
Hypotheses (Haddr : 0 ≤ addr) (Hend : addr + n ≤ TRAPFRAME).
Local Abbreviation r := (p_pagetable pr).
Local Abbreviation sz := (p_sz pr).

(** How a run of [pipewrite] that has appended [data] ends. *)
Definition write_outcome (i : Z) (q data : list Z) (P : pipe) (st : step Z Z) : Prop :=
  match st with
  | Return v =>
      v = -1 ∧ data = [] ∧ (pi_readopen P = false ∨ p_killed pr ≠ 0) ∨
      v = i + Z.of_nat (length data) ∧ v ≤ n
  | Block ch j =>
      ch = nwrite_chan pi ∧ j = i + Z.of_nat (length data) ∧ j < n ∧
      Z.of_nat (length (q ++ data)) = PIPESIZE
  end.

(** The readers are woken unless the pipe is closed or the writer killed. *)
Definition write_procs (i : Z) (P : pipe) (l : list proc) : list proc :=
  if decide (i < n ∧ (pi_readopen P = false ∨ p_killed pr ≠ 0)) then l
  else map_procs (woken (Some me) (nread_chan pi)) (set_p_state RUNNABLE) l.

Lemma killed_run s : k_proc s !! me = Some pr → killed me s = Ok (p_killed pr, s).
Proof. intros Hp. unfold killed. by rewrite (bind_Ok_1 _ _ _ _ _ (get_proc_run _ _ _ Hp)). Qed.

Lemma get_pipe_run P s : k_pipe s !! pi = Some P → get_pipe pi s = Ok (P, s).
Proof. intros Hp. unfold get_pipe. by rewrite Hp. Qed.

Lemma upd_pipe_run g P s :
  k_pipe s !! pi = Some P → upd_pipe pi g s = Ok (tt, set_k_pipe (<[pi := g P]> (k_pipe s)) s).
Proof. intros Hp. unfold upd_pipe. by rewrite Hp. Qed.

Lemma set_k_pipe_id P s : k_pipe s !! pi = Some P → set_k_pipe (<[pi := P]> (k_pipe s)) s = s.
Proof. intros Hp. rewrite insert_id by done. by destruct s. Qed.

(** One byte from the writer's memory. *)
Lemma copyin_byte s l sp maps own t i :
  k_proc s !! me = Some pr → world (k_mem s) l sp maps own → sp !! r = Some t → 0 ≤ i < n →
  ∃ c data m' l' t' maps' own',
    either_copyin me (User (u64 (addr + i))) [] 1 s = Ok ((c, data), set_k_mem m' s) ∧
    world m' l' (<[r := t']> sp) maps' own' ∧ seen sz (k_mem s) sp r t m' t' ∧
    ((∃ b, c = 0 ∧ data = [b] ∧ reads m' t' (addr + i) [b]) ∨ c = -1).
Proof.
  intros Hp Hw Ht Hi. assert (TRAPFRAME < 2 ^ 64) by done.
  rewrite u64_small by lia. unfold either_copyin.
  destruct (copyin_world (k_mem s) l sp maps own r t sz (addr + i) 1) as
    (c & m' & l' & t' & maps' & own' & data & Hrun & Hw' & Hs & Hr & Hc); [done|done|lia..|].
  exists c, data, m', l', t', maps', own'. rewrite (bind_Ok_1 _ _ _ _ _ (get_proc_run _ _ _ Hp)).
  rewrite (zoom_mem _ _ _ _ Hrun). split_and!; try done.
  destruct Hc as [[-> Hlen]| ->]; [left|by right]. destruct data as [|b [|]]; cbn in Hlen; [lia| |lia]. eauto.
Qed.

Lemma pipewrite_stop s i P q :
  k_proc s !! me = Some pr → table_ok s → k_pipe s !! pi = Some P → pipe_rep P q → i ≤ n →
  (i < n → pi_readopen P = false ∨ p_killed pr ≠ 0 ∨ Z.of_nat (length q) = PIPESIZE) →
  ∃ st, pipewrite_body me pi addr n i s = Ok (inr st, set_k_proc (write_procs i P (k_proc s)) s) ∧
    write_outcome i q [] P st.
Proof.
  intros Hp Ht HP (R & W & Hq) Hi Hstop. unfold pipewrite_body, write_procs, write_outcome.
  destruct (Z.ltb_spec i n) as [Hlt|Hge].
  2: { rewrite decide_False by lia. rewrite (bind_Ok_1 _ _ _ _ _ (wakeup_map _ _ s Ht)).
       exists (Return i). split; [done|]. right. cbn. lia. }
  rewrite (bind_Ok_1 _ _ _ _ _ (get_pipe_run _ _ HP)), (bind_Ok_1 _ _ _ _ _ (killed_run _ Hp)).
  destruct (negb (pi_readopen P) || negb (p_killed pr =? 0)) eqn:E.
  - apply orb_prop in E. rewrite !negb_true_iff, Z.eqb_neq in E.
    rewrite decide_True by done. exists (Return (-1)). split; [by destruct s|]. by left.
  - apply orb_false_iff in E. rewrite !negb_false_iff, Z.eqb_eq in E. destruct E as [E1 E2].
    rewrite decide_False by (rewrite E1, E2; naive_solver).
    rewrite (pipe_at_full _ _ _ _ Hq). destruct (Hstop Hlt) as [|[|Hf]]; [congruence|congruence|].
    rewrite Hf, Z.eqb_refl, (bind_Ok_1 _ _ _ _ _ (wakeup_map _ _ s Ht)).
    exists (Block (nwrite_chan pi) i). split; [done|]. rewrite app_nil_r. split_and!; [done|cbn; lia|done|done].
Qed.

(** A byte is moved, or the source address is bad. *)
Lemma pipewrite_move s i l sp maps own t P q :
  k_proc s !! me = Some pr → table_ok s → world (k_mem s) l sp maps own → sp !! r = Some t →
  k_pipe s !! pi = Some P → pipe_rep P q → 0 ≤ i < n → pi_readopen P = true → p_killed pr = 0 →
  Z.of_nat (length q) < PIPESIZE →
  ∃ m' l' t' maps' own', world m' l' (<[r := t']> sp) maps' own' ∧ seen sz (k_mem s) sp r t m' t' ∧
    ((∃ b P', pipewrite_body me pi addr n i s =
        Ok (inl (i + 1), set_k_pipe (<[pi := P']> (k_pipe s)) (set_k_mem m' s)) ∧
        pipe_rep P' (q ++ [b]) ∧ reads m' t' (addr + i) [b] ∧ pi_readopen P' = true) ∨
     pipewrite_body me pi addr n i s =
        Ok (inr (Return i), set_k_proc (write_procs i P (k_proc s)) (set_k_mem m' s))).
Proof.
  intros Hp Ht Hw Hsp HP (R & W & Hq) Hi Hopen Hkill Hroom.
  destruct (copyin_byte s l sp maps own t i Hp Hw Hsp Hi)
    as (c & data & m' & l' & t' & maps' & own' & Hrun & Hw' & Hs & Hc).
  exists m', l', t', maps', own'. split_and!; [done|done|].
  unfold pipewrite_body, write_procs. destruct (Z.ltb_spec i n); [|lia].
  rewrite (bind_Ok_1 _ _ _ _ _ (get_pipe_run _ _ HP)), (bind_Ok_1 _ _ _ _ _ (killed_run _ Hp)).
  rewrite Hopen, Hkill, (pipe_at_full _ _ _ _ Hq), (proj2 (Z.eqb_neq (Z.of_nat (length q)) _)) by lia.
  cbn [negb orb]. change (0 =? 0) with true. cbn [negb orb].
  rewrite (bind_Ok_1 _ _ _ _ _ Hrun). destruct Hc as [(b & -> & -> & Hr)| ->].
  - left. change (0 =? -1) with false. cbv beta iota.
    rewrite (bind_Ok_1 _ _ _ _ _ (upd_pipe_run _ P (set_k_mem m' s) HP)).
    eexists b, _. split_and!; [done| |done|done]. exists R, (W + 1). by apply pipe_at_push.
  - right. change (-1 =? -1) with true. cbv beta iota.
    rewrite (bind_Ok_1 _ _ _ _ _ (wakeup_map _ _ (set_k_mem m' s) Ht)).
    rewrite decide_False by naive_solver. done.
Qed.

Lemma write_procs_same i j P P' l :
  j ≤ n → i < n → pi_readopen P = true → p_killed pr = 0 → pi_readopen P' = true →
  write_procs j P' l = write_procs i P l.
Proof.
  intros Hj Hi Ho Hk Ho'. unfold write_procs.
  assert (∀ a Q, pi_readopen Q = true → ¬ (a < n ∧ (pi_readopen Q = false ∨ p_killed pr ≠ 0))) as Hno
    by (intros a Q HQ [_ [?|?]]; congruence).
  by rewrite (decide_False (P := j < n ∧ _)), (decide_False (P := i < n ∧ _)) by auto.
Qed.

Lemma pipewrite_loop k : ∀ s i l sp maps own t P q,
  k = Z.to_nat (n - i) → 0 ≤ i ≤ n →
  k_proc s !! me = Some pr → table_ok s → world (k_mem s) l sp maps own → sp !! r = Some t →
  k_pipe s !! pi = Some P → pipe_rep P q →
  ∃ st s' l' t' maps' own' data P',
    loop (S k) (pipewrite_body me pi addr n) i s = Ok (st, s') ∧
    world (k_mem s') l' (<[r := t']> sp) maps' own' ∧ seen sz (k_mem s) sp r t (k_mem s') t' ∧
    reads (k_mem s') t' (addr + i) data ∧ k_pipe s' = <[pi := P']> (k_pipe s) ∧
    pipe_rep P' (q ++ data) ∧ k_proc s' = write_procs i P (k_proc s) ∧ write_outcome i q data P st.
Proof.
  induction k as [|k IH]; intros s i l sp maps own t P q Hk Hi Hp Ht Hw Hsp HP Hq;
    (destruct (decide (i < n → pi_readopen P = false ∨ p_killed pr ≠ 0 ∨ Z.of_nat (length q) = PIPESIZE))
      as [Hstop|Hgo];
     [destruct (pipewrite_stop s i P q) as (st & Hb & Ho); [done..|lia|done|];
      exists st, (set_k_proc (write_procs i P (k_proc s)) s), l, t, maps, own, [], P;
      rewrite (loop_done _ _ _ _ _ _ Hb), app_nil_r, !insert_id by done;
      split_and!; try done; apply seen_refl|]).
  { destruct Hgo. lia. }
  assert (i < n) as Hlt by (apply dec_stable; tauto).
  assert (pi_readopen P = true) as Hopen by (destruct (pi_readopen P); [done|]; destruct Hgo; by left).
  assert (p_killed pr = 0) as Hkill by (apply dec_stable; tauto).
  assert (Z.of_nat (length q) < PIPESIZE) as Hroom.
  { destruct Hq as (R & W & Hq). pose proof (pipe_at_length _ _ _ _ Hq). pose proof (pa_le _ _ _ _ Hq).
    assert (Z.of_nat (length q) ≠ PIPESIZE) by tauto. lia. }
  destruct (pipewrite_move s i l sp maps own t P q) as (m1 & l1 & t1 & maps1 & own1 & Hw1 & Hs1 & Hcase);
    [done..|lia|done|done|done|].
  destruct Hcase as [(b & P1 & Hb & Hq1 & Hr1 & Hopen1)|Hb].
  - rewrite (loop_step _ _ _ _ _ _ Hb).
    destruct (IH (set_k_pipe (<[pi := P1]> (k_pipe s)) (set_k_mem m1 s)) (i + 1) l1 (<[r := t1]> sp) maps1 own1 t1 P1 (q ++ [b]))
      as (st & s' & l' & t' & maps' & own' & data & P' & Hrun & Hw' & Hs' & Hr' & HP' & Hq' & Hk' & Ho');
      [lia|lia|done|done|done|by rewrite lookup_insert_eq|by cbn; rewrite lookup_insert_eq|done|].
    exists st, s', l', t', maps', own', (b :: data), P'. rewrite insert_insert_eq in Hw'.
    split_and!; try done.
    + by eapply seen_trans.
    + apply (reads_app _ _ _ [b]).
      * eapply reads_seen; [exact Hs'|lia|cbn; lia|done].
      * replace (addr + i + Z.of_nat (length [b])) with (addr + (i + 1)) by (cbn; lia). done.
    + rewrite HP'. cbn. by rewrite insert_insert_eq.
    + by rewrite <-app_assoc in Hq'.
    + rewrite Hk'. cbn. apply write_procs_same; try done. lia.
    + unfold write_outcome in Ho' |- *. cbn [length] in *.
      destruct st; [destruct Ho' as [(_ & _ & [?|?])|?]; [congruence|done|right; lia]|].
      destruct Ho' as (? & ? & ? & Hfull). rewrite <-app_assoc in Hfull. split_and!; [done|lia|done|done].
  - exists (Return i), (set_k_proc (write_procs i P (k_proc s)) (set_k_mem m1 s)), l1, t1, maps1, own1, [], P.
    rewrite (loop_done _ _ _ _ _ _ Hb), app_nil_r, (insert_id (k_pipe s)) by done.
    split_and!; try done. right. cbn. lia.
Qed.
End write.

(** * Reading *)

Section read.
Context `{KernelImage} `{!KernelImageOk}.
Context (me : nat) (pr : proc) (pi addr n : Z).
Hypotheses (Haddr : 0 ≤ addr) (Hend : addr + n ≤ TRAPFRAME).
Local Abbreviation r := (p_pagetable pr).
Local Abbreviation sz := (p_sz pr).

(** One byte to the reader's memory. *)
Lemma copyout_byte s l sp maps own t i b :
  k_proc s !! me = Some pr → world (k_mem s) l sp maps own → sp !! r = Some t → 0 ≤ i < n →
  ∃ c m' l' t' maps' own',
    either_copyout me (User (u64 (addr + i))) [b] s = Ok (c, set_k_mem m' s) ∧
    world m' l' (<[r := t']> sp) maps' own' ∧
    (c = 0 ∧ wrote sz (k_mem s) sp r t (addr + i) [b] m' t' ∨
     c = -1 ∧ wrote sz (k_mem s) sp r t (addr + i) [] m' t').
Proof.
  intros Hp Hw Ht Hi. assert (TRAPFRAME < 2 ^ 64) by done.
  rewrite u64_small by lia. unfold either_copyout.
  destruct (copyout_world (k_mem s) l sp maps own r t sz (addr + i) [b]) as
    (c & m' & l' & t' & maps' & own' & j & Hrun & Hw' & Hwr & Hc); [done|done|lia|cbn; lia|].
  exists c, m', l', t', maps', own'. rewrite (bind_Ok_1 _ _ _ _ _ (get_proc_run _ _ _ Hp)).
  rewrite (zoom_mem _ _ _ _ Hrun). split_and!; try done.
  destruct Hc as [[-> ->]|[-> Hj]]; [by left|right]. cbn in Hj. assert (j = 0)%nat as -> by lia. done.
Qed.

Lemma piperead_stop s i P q :
  k_pipe s !! pi = Some P → pipe_rep P q → (i < n → q = []) →
  piperead_body me pi addr n i s = Ok (inr i, s).
Proof.
  intros HP (R & W & Hq) Hstop. unfold piperead_body. destruct (Z.ltb_spec i n) as [Hlt|]; [|done].
  rewrite (bind_Ok_1 _ _ _ _ _ (get_pipe_run _ _ _ HP)), (pipe_at_empty _ _ _ _ Hq).
  by rewrite bool_decide_true by auto.
Qed.

(** The bytes [take j q] have been delivered, starting at byte [i]. *)
Definition read_outcome (i : Z) (q : list Z) (j : nat) (v : Z) : Prop :=
  (v = i + Z.of_nat j ∧ (i + Z.of_nat j = n ∨ j = length q)) ∨
  (v = (if i + Z.of_nat j =? 0 then -1 else i + Z.of_nat j) ∧ i + Z.of_nat j < n ∧ (j < length q)%nat).

Lemma piperead_loop k : ∀ s i l sp maps own t P q,
  k = Z.to_nat (n - i) → 0 ≤ i ≤ n →
  k_proc s !! me = Some pr → world (k_mem s) l sp maps own → sp !! r = Some t →
  k_pipe s !! pi = Some P → pipe_rep P q →
  ∃ v s' l' t' maps' own' j P',
    loop (S k) (piperead_body me pi addr n) i s = Ok (v, s') ∧
    world (k_mem s') l' (<[r := t']> sp) maps' own' ∧
    wrote sz (k_mem s) sp r t (addr + i) (take j q) (k_mem s') t' ∧
    k_pipe s' = <[pi := P']> (k_pipe s) ∧ pipe_rep P' (drop j q) ∧ k_proc s' = k_proc s ∧
    pi_writeopen P' = pi_writeopen P ∧ read_outcome i q j v.
Proof.
  induction k as [|k IH]; intros s i l sp maps own t P q Hk Hi Hp Hw Hsp HP Hq;
    (destruct (decide (i < n → q = [])) as [Hstop|Hgo];
     [exists i, s, l, t, maps, own, O, P;
      rewrite (loop_done _ _ _ _ _ _ (piperead_stop s i P q HP Hq Hstop)), !insert_id by done;
      split_and!; try done; [apply seen_wrote, seen_refl|];
      left; split; [cbn; lia|]; destruct (decide (i < n)) as [Hlt|];
      [right; by rewrite (Hstop Hlt)|left; cbn; lia]|]).
  { destruct Hgo. lia. }
  assert (i < n) as Hlt by (apply dec_stable; tauto).
  assert (q ≠ []) as Hne by tauto. destruct Hq as (R & W & Hq).
  destruct (pipe_at_pop _ _ _ _ Hq Hne) as (b & q' & -> & Hb & Hq').
  destruct (copyout_byte s l sp maps own t i b) as (c & m1 & l1 & t1 & maps1 & own1 & Hrun & Hw1 & Hc);
    [done..|lia|].
  assert (piperead_body me pi addr n i s =
    (if c =? -1 then mret (inr (if i =? 0 then -1 else i))
     else upd_pipe pi (λ p, set_pi_nread (u32 (pi_nread p + 1)) p) ;; mret (inl (i + 1))) (set_k_mem m1 s)) as Hbody.
  { unfold piperead_body. destruct (Z.ltb_spec i n); [|lia].
    rewrite (bind_Ok_1 _ _ _ _ _ (get_pipe_run _ _ _ HP)), (pipe_at_empty _ _ _ _ Hq), bool_decide_false by done.
    by rewrite Hb, (bind_Ok_1 _ _ _ _ _ Hrun). }
  destruct Hc as [[-> Hwr1]|[-> Hwr1]].
  - change (0 =? -1) with false in Hbody. cbv beta iota in Hbody.
    rewrite (bind_Ok_1 _ _ _ _ _ (upd_pipe_run _ _ P (set_k_mem m1 s) HP)) in Hbody.
    rewrite (loop_step _ _ _ _ _ _ Hbody).
    destruct (IH (set_k_pipe (<[pi := set_pi_nread (u32 (pi_nread P + 1)) P]> (k_pipe s)) (set_k_mem m1 s))
      (i + 1) l1 (<[r := t1]> sp) maps1 own1 t1 (set_pi_nread (u32 (pi_nread P + 1)) P) q')
      as (v & s' & l' & t' & maps' & own' & j & P' & Hrun' & Hw' & Hwr' & HP' & Hq2 & Hk' & Hwo & Ho);
      [lia|lia|done|done|by rewrite lookup_insert_eq|by cbn; rewrite lookup_insert_eq|by exists (R + 1), W|].
    exists v, s', l', t', maps', own', (S j), P'. rewrite insert_insert_eq in Hw'.
    split_and!; try done.
    + apply (wrote_trans _ _ _ _ _ _ [b] (take j q') m1 t1); [done|].
      by replace (addr + i + Z.of_nat (length [b])) with (addr + (i + 1)) by (cbn; lia).
    + rewrite HP'. cbn. by rewrite insert_insert_eq.
    + unfold read_outcome in *. replace (i + Z.of_nat (S j)) with (i + 1 + Z.of_nat j) by lia. cbn [length].
      destruct Ho as [(? & [?|?])|(? & ? & ?)]; [left; lia|left; split; [done|right; lia]|right; split_and!; [done|lia|lia]].
  - change (-1 =? -1) with true in Hbody. cbv beta iota in Hbody.
    exists (if i =? 0 then -1 else i), (set_k_mem m1 s), l1, t1, maps1, own1, O, P.
    rewrite (loop_done _ _ _ _ _ _ Hbody), (insert_id (k_pipe s)) by done. split_and!; try done.
    + by exists R, W.
    + right. rewrite Z.add_0_r. split_and!; [done|lia|cbn; lia].
Qed.
End read.
