(* ===== verification/PipeSpec.v ===== *)
(** The contract of a pipe: bytes written by one process reach the memory of
    the reader in order, none lost and none invented. *)

From S2P Require Import Prelude Riscv Mem Str Kalloc KallocSpec Vm VmTree VmSpace VmUser VmXfer VmSpec State Sched Ring Procmem SchedSpec Pipe.

Section contract.
Context `{KernelImage} `{!KernelImageOk}.
Context (s : kernel) (l : list Z) (sp : gmap Z ptree) (maps : gmap (Z * Z) Z) (own : Z → Z).
Context (me : nat) (pr : proc) (t : ptree) (pi : Z) (P : pipe) (q : list Z).

(** A process of an intact machine and a pipe that holds the bytes [q]. *)
Record pipe_user : Prop := {
  pu_proc : k_proc s !! me = Some pr;
  pu_table : table_ok s;
  pu_world : world (k_mem s) l sp maps own;
  pu_space : sp !! p_pagetable pr = Some t;
  pu_pipe : k_pipe s !! pi = Some P;
  pu_queue : pipe_rep P q;
}.


(** C26: [piperead] on an empty pipe blocks while the writing end is open (or
    returns -1 to a killed reader); otherwise it removes a prefix of the bytes
    in the pipe and writes exactly this prefix to the reader's buffer: as many
    bytes as were asked for or are there, or as many as the buffer took before
    it turned out to be inaccessible (-1 if that is none).  Nothing else in
    user memory changes. *)
Theorem piperead_fifo (addr n : Z) :
  pipe_user → 0 ≤ addr → addr + n ≤ TRAPFRAME → 0 ≤ n →
  if bool_decide (q = []) && pi_writeopen P then
    piperead me pi addr n s =
      Ok (if p_killed pr =? 0 then Block (nread_chan pi) tt else Return (-1), s)
  else
    ∃ v s' l' t' maps' own' j P',
      piperead me pi addr n s = Ok (Return v, s') ∧
      world (k_mem s') l' (<[p_pagetable pr := t']> sp) maps' own' ∧
      wrote (p_sz pr) (k_mem s) sp (p_pagetable pr) t addr (take j q) (k_mem s') t' ∧
      k_pipe s' = <[pi := P']> (k_pipe s) ∧ pipe_rep P' (drop j q) ∧
      k_proc s' = map_procs (woken (Some me) (nwrite_chan pi)) (set_p_state RUNNABLE) (k_proc s) ∧
      read_outcome n 0 q j v.
Proof.
  intros [Hp Ht Hw Hsp HP Hq] Ha He Hn. pose proof Hq as (R & W & Hq').
  unfold piperead. rewrite (bind_Ok_1 _ _ _ _ _ (get_pipe_run _ _ _ HP)), (pipe_at_empty _ _ _ _ Hq').
  destruct (bool_decide (q = []) && pi_writeopen P).
  { rewrite (bind_Ok_1 _ _ _ _ _ (killed_run _ _ _ Hp)). by destruct (p_killed pr =? 0). }
  destruct (piperead_loop me pr pi addr n Ha He (Z.to_nat n) s 0 l sp maps own t P q)
    as (v & s' & l' & t' & maps' & own' & j & P' & Hrun & Hw' & Hwr & HP' & Hq2 & Hk & _ & Ho);
    [f_equal; lia|lia|done..|].
  rewrite Z.add_0_r in Hwr. assert (table_ok s') as Ht' by (unfold table_ok in *; by rewrite Hk).
  eexists v, _, l', t', maps', own', j, P'.
  rewrite (bind_Ok_1 _ _ _ _ _ Hrun), (bind_Ok_1 _ _ _ _ _ (wakeup_map _ _ s' Ht')).
  split_and!; try done. cbn. by rewrite Hk.
Qed.
End contract.

(** * Example: three bytes in a pipe *)
Module Hello.
Import VmSpec.Small KallocSpec.Machine.

Definition data : list Z := [104; 105; 33] ++ replicate 509 0.
Definition P : pipe := Pipe data 0 3 true true.
Definition pi : Z := 0x87fff000.

Lemma P_rep : pipe_rep P [104; 105; 33].
Proof. exists 0, 3. constructor; try done. Qed.

Definition user_proc (root : Z) : proc := set_p_sz 8192 (set_p_pagetable root proc0).
Definition machine (m : kst) (root : Z) : kernel :=
  set_k_pipe {[ pi := P ]} (set_k_proc (<[0%nat := user_proc root]> (k_proc kernel0)) (set_k_mem m kernel0)).

Lemma machine_user : ∃ m l sp maps own root t,
  pipe_user (machine m root) l sp maps own 0 (user_proc root) t pi P [104; 105; 33].
Proof.
  destruct two_spaces_ready as (old & new & s & l & sp & maps & own & told & tnew & _ & Hr).
  exists s, l, sp, maps, own, old, told. constructor; try done.
  - apply (rd_world _ _ _ _ _ _ _ _ _ Hr).
  - apply (rd_old _ _ _ _ _ _ _ _ _ Hr).
  - apply P_rep.
Qed.


Lemma piperead_fifo_witness : ∃ m root v s' j P',
  piperead 0 pi 4096 2 (machine m root) = Ok (Return v, s') ∧
  k_pipe s' !! pi = Some P' ∧ pipe_rep P' (drop j [104; 105; 33]).
Proof.
  destruct machine_user as (m & l & sp & maps & own & root & t & Hu).
  destruct (piperead_fifo _ l sp maps own 0 (user_proc root) t pi P [104; 105; 33] 4096 2 Hu)
    as (v & s' & _ & _ & _ & _ & j & P' & Hrun & _ & _ & HP' & Hq & _); [lia|discriminate|lia|].
  exists m, root, v, s', j, P'. split; [exact Hrun|]. split; [|exact Hq].
  rewrite HP'. apply lookup_insert_eq.
Defined.
End Hello.
