(* ===== verification/Sleeplock.v ===== *)
(** Sleep locks, [kernel/sleeplock.c].  The locks of the kernel are those of
    the buffers and of the inodes; [acquiresleep] of a lock that is held is the
    outcome [Sleep] on the lock. *)

From S2P Require Import Prelude Riscv Mem Str Kalloc Vm State Sched.

(** [struct sleeplock *]. *)
Inductive lockref := LBuf (i : nat) | LInode (i : nat).

Definition sl_chan (lk : lockref) : channel :=
  match lk with
  | LBuf i => ("buffer", Z.of_nat i)
  | LInode i => ("inode", Z.of_nat i)
  end.

Definition get_sl (lk : lockref) : M kernel sleeplock :=
  match lk with
  | LBuf i => b ← get_buf i; mret (b_lock b)
  | LInode i => ip ← get_inode i; mret (i_lock ip)
  end.
Definition put_sl (lk : lockref) (l : sleeplock) : M kernel unit :=
  match lk with
  | LBuf i => upd_buf i (set_b_lock l)
  | LInode i => upd_inode i (set_i_lock l)
  end.

Definition initsleeplock (lk : lockref) : M kernel unit := put_sl lk (Sleeplock false 0).

Definition acquiresleep (me : nat) (lk : lockref) : M kernel unit :=
  l ← get_sl lk;
  if sl_locked l then sleep_on (sl_chan lk)
  else
    p ← get_proc me;
    put_sl lk (Sleeplock true (p_pid p)).

Definition releasesleep (me : nat) (lk : lockref) : M kernel unit :=
  put_sl lk (Sleeplock false 0) ;;
  wakeup (Some me) (sl_chan lk).

Definition holdingsleep (me : nat) (lk : lockref) : M kernel bool :=
  l ← get_sl lk;
  p ← get_proc me;
  mret (sl_locked l && (sl_pid l =? p_pid p)).
