(* ===== verification/Bio.v ===== *)
(** The buffer cache, [kernel/bio.c].

    A pointer to a buffer is its index in [bcache.buf]; [HEAD] is
    [&bcache.head].  The list of buffers is doubly linked through [b_prev] and
    [b_next] and circular through the head, most recently used first.  A disk
    request is done when [virtio_disk_rw] returns; its effect is [disk_rw], the
    transfer of one block. *)

From S2P Require Import Prelude Riscv Mem Str Kalloc Vm State Sched Sleeplock.

Definition HEAD : nat := Z.to_nat NBUF.
Definition buf_indices : list nat := seq 0 (Z.to_nat NBUF).

Definition disk_block (d : gmap Z block) (bn : Z) : block := default zero_block (d !! bn).

Definition disk_rw (b : nat) (write : bool) : M kernel unit :=
  x ← get_buf b;
  if write then
    modify (λ s, set_k_writes ((b_blockno x, b_data x) :: k_writes s)
      (set_k_disk (<[b_blockno x := b_data x]> (k_disk s)) s))
  else d ← gets k_disk; upd_buf b (set_b_data (disk_block d (b_blockno x))).

Definition next_of (b : nat) : M kernel nat := x ← get_buf b; mret (b_next x).
Definition prev_of (b : nat) : M kernel nat := x ← get_buf b; mret (b_prev x).

(** [b->next = head.next; b->prev = &head; head.next->prev = b; head.next = b;] *)
Definition push_front (b : nat) : M kernel unit :=
  n ← next_of HEAD;
  upd_buf b (set_b_next n) ;;
  upd_buf b (set_b_prev HEAD) ;;
  n ← next_of HEAD;
  upd_buf n (set_b_prev b) ;;
  upd_buf HEAD (set_b_next b).

Definition binit : M kernel unit :=
  upd_buf HEAD (set_b_prev HEAD) ;;
  upd_buf HEAD (set_b_next HEAD) ;;
  foreach buf_indices (λ b,
    n ← next_of HEAD;
    upd_buf b (set_b_next n) ;;
    upd_buf b (set_b_prev HEAD) ;;
    initsleeplock (LBuf b) ;;
    n ← next_of HEAD;
    upd_buf n (set_b_prev b) ;;
    upd_buf HEAD (set_b_next b)).

(** Walk the list from a buffer; [None] when the walk reaches the head. *)
Definition find_body (adv : nat → M kernel nat) (ok : buf → bool) (b : nat) : M kernel (nat + option nat) :=
  if decide (b = HEAD) then mret (inr None)
  else
    x ← get_buf b;
    if ok x then mret (inr (Some b))
    else b' ← adv b; mret (inl b').

Definition find_buf (adv : nat → M kernel nat) (ok : buf → bool) : M kernel (option nat) :=
  b ← adv HEAD;
  loop (S (Z.to_nat NBUF)) (find_body adv ok) b.

Definition bget (me : nat) (dev blockno : Z) : M kernel nat :=
  (* Is the block already cached? *)
  r ← find_buf next_of (λ x, (b_dev x =? dev) && (b_blockno x =? blockno));
  match r with
  | Some b =>
      upd_buf b (λ x, set_b_refcnt (u32 (b_refcnt x + 1)) x) ;;
      acquiresleep me (LBuf b) ;;
      mret b
  | None =>
      (* Recycle the least recently used (LRU) unused buffer. *)
      r ← find_buf prev_of (λ x, b_refcnt x =? 0);
      match r with
      | Some b =>
          upd_buf b (λ x, set_b_refcnt 1 (set_b_valid false (set_b_blockno blockno (set_b_dev dev x)))) ;;
          acquiresleep me (LBuf b) ;;
          mret b
      | None => panic "bget: no buffers"
      end
  end.

Definition bread (me : nat) (dev blockno : Z) : M kernel nat :=
  b ← bget me dev blockno;
  x ← get_buf b;
  (if negb (b_valid x) then
     disk_rw b false ;;
     upd_buf b (set_b_valid true)
   else mret tt) ;;
  mret b.

Definition bwrite (me : nat) (b : nat) : M kernel unit :=
  h ← holdingsleep me (LBuf b);
  if negb h then panic "bwrite" else disk_rw b true.

Definition unlink (b : nat) : M kernel unit :=
  n ← next_of b;
  p ← prev_of b;
  upd_buf n (set_b_prev p) ;;
  n ← next_of b;
  p ← prev_of b;
  upd_buf p (set_b_next n).

Definition brelse (me : nat) (b : nat) : M kernel unit :=
  h ← holdingsleep me (LBuf b);
  if negb h then panic "brelse"
  else
    releasesleep me (LBuf b) ;;
    upd_buf b (λ x, set_b_refcnt (u32 (b_refcnt x - 1)) x) ;;
    x ← get_buf b;
    if b_refcnt x =? 0 then
      (* no one is waiting for it. *)
      unlink b ;;
      push_front b
    else mret tt.

Definition bpin (b : nat) : M kernel unit := upd_buf b (λ x, set_b_refcnt (u32 (b_refcnt x + 1)) x).
Definition bunpin (b : nat) : M kernel unit := upd_buf b (λ x, set_b_refcnt (u32 (b_refcnt x - 1)) x).
