(* ===== verification/BioSpec.v ===== *)
(** The buffer cache refined: the doubly linked list is a sequence of buffers,
    most recently used first; [bget] finds a cached block or recycles the least
    recently used free buffer; and what [bread] returns is the content of the
    block as the kernel last wrote it. *)

From S2P Require Import Prelude Riscv Mem Str Kalloc Vm State Sched SchedSpec Sleeplock Bio.

(** * Paths through pointers *)

(** Every element of the list points to the next one. *)
Fixpoint path (f : nat → nat) (l : list nat) : Prop :=
  match l with
  | a :: (b :: _) as r => f a = b ∧ path f r
  | _ => True
  end.

Lemma path_cons f a b r : path f (a :: b :: r) ↔ f a = b ∧ path f (b :: r).
Proof. done. Qed.

Lemma path_app f l a r : path f (l ++ a :: r) ↔ path f (l ++ [a]) ∧ path f (a :: r).
Proof.
  induction l as [|x l IH]; [cbn; tauto|]. destruct l as [|y l].
  - cbn [app]. rewrite !path_cons. cbn. tauto.
  - cbn [app] in *. rewrite !path_cons. tauto.
Qed.

(** A path only looks at the pointers of all but its last element. *)
Lemma path_ext f g l a : (∀ x, x ∈ l → f x = g x) → path f (l ++ [a]) → path g (l ++ [a]).
Proof.
  induction l as [|x l IH]; intros Hfg; [done|]. destruct l as [|y l]; cbn [app] in *.
  - rewrite !path_cons. intros [<- _]. split; [|done]. symmetry. apply Hfg. left.
  - rewrite !path_cons. intros [<- Hp]. split; [symmetry; apply Hfg; left|].
    apply IH; [|done]. intros z Hz. apply Hfg. by right.
Qed.

(** Taking an element out of a circular path. *)
Lemma path_unlink f g h l1 b l2 :
  path f (h :: l1 ++ b :: l2 ++ [h]) → NoDup (h :: l1 ++ b :: l2) →
  let x := List.last (h :: l1) h in
  g x = f b → (∀ z, z ≠ x → g z = f z) → path g (h :: l1 ++ l2 ++ [h]).
Proof.
  intros Hp Hnd x Hgx Hg.
  destruct (exists_last (l := h :: l1)) as (u & x' & Hu); [done|].
  assert (x = x') as Hx by (unfold x; by rewrite Hu, last_last). rewrite <-Hx in Hu. clear x' Hx.
  destruct (l2 ++ [h]) as [|y v] eqn:Hv; [by destruct l2|].
  assert (h :: l1 ++ b :: y :: v = u ++ x :: b :: y :: v) as E1.
  { change (h :: l1 ++ b :: y :: v) with ((h :: l1) ++ b :: y :: v). by rewrite Hu, <-app_assoc. }
  assert (h :: l1 ++ y :: v = u ++ x :: y :: v) as ->.
  { change (h :: l1 ++ y :: v) with ((h :: l1) ++ y :: v). by rewrite Hu, <-app_assoc. }
  rewrite E1 in Hp. apply path_app in Hp as [Hpu Hp]. rewrite !path_cons in Hp. destruct Hp as (Hfx & Hfb & Hpv).
  assert (NoDup (u ++ x :: b :: l2)) as Hnd'.
  { replace (u ++ x :: b :: l2) with (h :: l1 ++ b :: l2); [done|].
    change (h :: l1 ++ b :: l2) with ((h :: l1) ++ b :: l2). by rewrite Hu, <-app_assoc. }
  apply NoDup_app in Hnd' as (_ & Hxu & Hnd2). apply NoDup_cons in Hnd2 as [Hx2 _].
  apply path_app. split.
  - apply (path_ext f); [|done]. intros z Hz. symmetry. apply Hg. intros ->. apply (Hxu x); [done|left].
  - rewrite path_cons. split; [congruence|]. rewrite <-Hv in *. apply (path_ext f); [|done].
    intros z Hz. symmetry. apply Hg. intros ->. apply Hx2. by right.
Qed.

(** Putting an element in front. *)
Lemma path_push f g h b l :
  path f (h :: l ++ [h]) → h ∉ l → b ∉ l → b ≠ h →
  g h = b → g b = f h → (∀ z, z ≠ h → z ≠ b → g z = f z) → path g (h :: (b :: l) ++ [h]).
Proof.
  intros Hp Hh Hb Hbh Hgh Hgb Hg. cbn [app]. rewrite path_cons. split; [done|].
  destruct l as [|y l]; cbn [app] in *; rewrite path_cons in Hp; rewrite path_cons; (split; [rewrite Hgb; apply Hp|]); [done|].
  destruct Hp as [_ Hp]. change (y :: l ++ [h]) with ((y :: l) ++ [h]) in *.
  apply (path_ext f); [|done]. intros z Hz. symmetry. apply Hg; congruence.
Qed.

(** Putting an element at the end. *)
Lemma path_snoc f g h b l :
  path f (h :: l ++ [h]) → NoDup (h :: l) → b ∉ h :: l →
  let x := List.last (h :: l) h in
  g x = b → g b = h → (∀ z, z ≠ x → z ≠ b → g z = f z) → path g (h :: (l ++ [b]) ++ [h]).
Proof.
  intros Hp Hnd Hb x Hgx Hgb Hg.
  destruct (exists_last (l := h :: l)) as (u & x' & Hu); [done|].
  assert (x = x') as Hx by (unfold x; by rewrite Hu, last_last). rewrite <-Hx in Hu. clear x' Hx.
  change (h :: (l ++ [b]) ++ [h]) with (((h :: l) ++ [b]) ++ [h]).
  change (h :: l ++ [h]) with ((h :: l) ++ [h]) in Hp.
  rewrite Hu in *. rewrite <-app_assoc in Hp. rewrite <-!app_assoc. cbn [app] in *.
  apply path_app in Hp as [Hp _]. apply NoDup_app in Hnd as (_ & Hxu & _).
  apply path_app. split.
  - apply (path_ext f); [|done]. intros z Hz. symmetry. apply Hg.
    + intros ->. apply (Hxu x); [done|left].
    + intros ->. apply Hb. apply elem_of_app. by left.
  - rewrite !path_cons. done.
Qed.

(** * Buffers of a state *)

Definition bufAt (s : kernel) (i : nat) : buf := default buf0 (k_buf s !! i).
Definition with_buf (i : nat) (b : buf) (s : kernel) : kernel := set_k_buf (<[i := b]> (k_buf s)) s.
Definition bufs_len (s : kernel) : Prop := length (k_buf s) = S (Z.to_nat NBUF).

Lemma bufAt_lookup s i : (i < length (k_buf s))%nat → k_buf s !! i = Some (bufAt s i).
Proof. intros [b Hb]%lookup_lt_is_Some_2. unfold bufAt. by rewrite Hb. Qed.

Lemma bufAt_with s i b j :
  (i < length (k_buf s))%nat → bufAt (with_buf i b s) j = if decide (i = j) then b else bufAt s j.
Proof.
  intros Hi. unfold bufAt. cbn. case_decide as E.
  - subst. by rewrite list_lookup_insert_eq.
  - by rewrite list_lookup_insert_ne.
Qed.

Lemma with_buf_len s i b : length (k_buf (with_buf i b s)) = length (k_buf s).
Proof. cbn. apply length_insert. Qed.

Lemma get_buf_run s i : (i < length (k_buf s))%nat → get_buf i s = Ok (bufAt s i, s).
Proof. intros Hi. unfold get_buf. by rewrite bufAt_lookup. Qed.

Lemma upd_buf_run s i g :
  (i < length (k_buf s))%nat → upd_buf i g s = Ok (tt, with_buf i (g (bufAt s i)) s).
Proof. intros Hi. unfold upd_buf. by rewrite bufAt_lookup. Qed.

Lemma next_of_run s i : (i < length (k_buf s))%nat → next_of i s = Ok (b_next (bufAt s i), s).
Proof. intros Hi. unfold next_of. by rewrite (bind_Ok_1 _ _ _ _ _ (get_buf_run s i Hi)). Qed.

Lemma prev_of_run s i : (i < length (k_buf s))%nat → prev_of i s = Ok (b_prev (bufAt s i), s).
Proof. intros Hi. unfold prev_of. by rewrite (bind_Ok_1 _ _ _ _ _ (get_buf_run s i Hi)). Qed.

Lemma HEAD_lt s : bufs_len s → (HEAD < length (k_buf s))%nat.
Proof. intros ->. unfold HEAD. lia. Qed.

(** * The list *)

(** The buffers in the list, most recently used first. *)
Record lru (s : kernel) (l : list nat) : Prop := {
  lru_len : bufs_len s;
  lru_perm : Permutation l buf_indices;
  lru_next : path (λ i, b_next (bufAt s i)) (HEAD :: l ++ [HEAD]);
  lru_prev : path (λ i, b_prev (bufAt s i)) (HEAD :: reverse l ++ [HEAD]);
}.

Lemma lru_nodup s l : lru s l → NoDup (HEAD :: l).
Proof.
  intros [_ Hp _ _]. constructor.
  - rewrite Hp. intros ?%elem_of_seq. unfold HEAD in *. lia.
  - rewrite Hp. apply NoDup_seq.
Qed.

Lemma lru_elem s l i : lru s l → i ∈ l ↔ (i < HEAD)%nat.
Proof. intros [_ Hp _ _]. rewrite Hp. unfold buf_indices. rewrite elem_of_seq. unfold HEAD. lia. Qed.

Lemma lru_in_range s l i : lru s l → i ∈ HEAD :: l → (i < length (k_buf s))%nat.
Proof.
  intros Hl Hi. pose proof (lru_len _ _ Hl) as Hlen. apply elem_of_cons in Hi as [->|Hi]; [by apply HEAD_lt|].
  apply (lru_elem s l) in Hi; [|done]. unfold bufs_len in Hlen. unfold HEAD in Hi. lia.
Qed.

(** The list depends on the pointers only. *)
Lemma lru_ext s s' l :
  bufs_len s' → (∀ i, (i ≤ HEAD)%nat → b_next (bufAt s' i) = b_next (bufAt s i) ∧
                                   b_prev (bufAt s' i) = b_prev (bufAt s i)) →
  lru s l → lru s' l.
Proof.
  intros Hlen Hp Hl.
  assert (∀ x, x ∈ HEAD :: l → (x ≤ HEAD)%nat) as Hle.
  { intros x [->|Hx]%elem_of_cons; [done|]. apply (lru_elem s l) in Hx; [lia|done]. }
  destruct Hl as [_ Hperm Hn Hv]. constructor; [done|done| |].
  - change (HEAD :: l ++ [HEAD]) with ((HEAD :: l) ++ [HEAD]) in *. eapply path_ext; [|exact Hn].
    intros x Hx. symmetry. by apply Hp, Hle.
  - change (HEAD :: reverse l ++ [HEAD]) with ((HEAD :: reverse l) ++ [HEAD]) in *.
    eapply path_ext; [|exact Hv]. intros x Hx. symmetry. apply Hp, Hle.
    apply elem_of_cons in Hx as [->|Hx]; [left|right]. by apply elem_of_reverse.
Qed.

(** ** Searching *)

Fixpoint first_buf (s : kernel) (ok : buf → bool) (l : list nat) : option nat :=
  match l with
  | [] => None
  | i :: l' => if ok (bufAt s i) then Some i else first_buf s ok l'
  end.

Lemma first_buf_Some s ok l i : first_buf s ok l = Some i → i ∈ l ∧ ok (bufAt s i) = true.
Proof.
  induction l as [|j l IH]; [done|]. cbn. destruct (ok (bufAt s j)) eqn:E.
  - intros [= <-]. split; [left|done].
  - intros Hi. destruct (IH Hi). split; [by right|done].
Qed.

Lemma first_buf_None s ok l i : first_buf s ok l = None → i ∈ l → ok (bufAt s i) = false.
Proof.
  induction l as [|j l IH]; [by intros _ ?%not_elem_of_nil|]. cbn. destruct (ok (bufAt s j)) eqn:E; [done|].
  intros Hn [->|Hi]%elem_of_cons; [done|by apply IH].
Qed.

Lemma find_loop adv f ok s l fuel :
  (∀ i, (i < length (k_buf s))%nat → adv i s = Ok (f i, s)) →
  path f (l ++ [HEAD]) → HEAD ∉ l → (∀ i, i ∈ l → (i < length (k_buf s))%nat) → (length l < fuel)%nat →
  loop fuel (find_body adv ok) (hd HEAD l) s = Ok (first_buf s ok l, s).
Proof.
  intros Hadv. revert fuel. induction l as [|i l IH]; intros fuel Hp Hh Hr Hf;
    (destruct fuel as [|fuel]; [cbn in Hf; lia|]).
  - apply loop_done. unfold find_body. by rewrite decide_True.
  - cbn [hd first_buf]. rewrite not_elem_of_cons in Hh. assert (i < length (k_buf s))%nat as Hi by (apply Hr; left).
    destruct (ok (bufAt s i)) eqn:E.
    + apply loop_done. unfold find_body. rewrite decide_False by (intros ->; tauto).
      by rewrite (bind_Ok_1 _ _ _ _ _ (get_buf_run s i Hi)), E.
    + assert (f i = hd HEAD l) as Hfi by (by destruct l; cbn in Hp; destruct Hp).
      rewrite (loop_step _ _ _ _ (hd HEAD l) s).
      * apply IH; [|tauto| |cbn in Hf; lia].
        -- destruct l; [done|]. by destruct Hp.
        -- intros j Hj. apply Hr. by right.
      * unfold find_body. rewrite decide_False by (intros ->; tauto).
        by rewrite (bind_Ok_1 _ _ _ _ _ (get_buf_run s i Hi)), E, (bind_Ok_1 _ _ _ _ _ (Hadv i Hi)), Hfi.
Qed.

Lemma find_buf_run adv f ok s l :
  bufs_len s → (∀ i, (i < length (k_buf s))%nat → adv i s = Ok (f i, s)) →
  path f (HEAD :: l ++ [HEAD]) → Permutation l buf_indices →
  find_buf adv ok s = Ok (first_buf s ok l, s).
Proof.
  intros Hlen Hadv Hp Hperm. unfold find_buf. rewrite (bind_Ok_1 _ _ _ _ _ (Hadv HEAD (HEAD_lt s Hlen))).
  assert (∀ i, i ∈ l → (i < HEAD)%nat) as Hin.
  { intros i. rewrite Hperm. intros Hi%elem_of_seq. unfold HEAD. lia. }
  assert (f HEAD = hd HEAD l) as -> by (by destruct l; cbn in Hp; destruct Hp).
  apply (find_loop adv f).
  - done.
  - destruct l; [done|]. by destruct Hp.
  - intros H%Hin. lia.
  - intros i Hi%Hin. rewrite Hlen. unfold HEAD in Hi. lia.
  - rewrite Hperm. unfold buf_indices. rewrite length_seq. lia.
Qed.

Lemma find_next s l ok : lru s l → find_buf next_of ok s = Ok (first_buf s ok l, s).
Proof. intros [Hlen Hp Hn _]. by eapply find_buf_run; [|apply next_of_run| |]. Qed.

Lemma find_prev s l ok : lru s l → find_buf prev_of ok s = Ok (first_buf s ok (reverse l), s).
Proof.
  intros [Hlen Hp _ Hv]. eapply find_buf_run; [done|apply prev_of_run|done|]. by rewrite reverse_Permutation.
Qed.

(** ** Moving a buffer to the front *)

Lemma last_reverse h (l : list nat) : List.last (h :: reverse l) h = hd h l.
Proof.
  destruct l as [|x l]; [done|]. rewrite reverse_cons.
  change (h :: reverse l ++ [x]) with ((h :: reverse l) ++ [x]). apply last_last.
Qed.

Lemma hd_reverse h (l : list nat) : hd h (reverse l) = List.last (h :: l) h.
Proof. rewrite <-(reverse_involutive l) at 2. by rewrite last_reverse. Qed.

Lemma nodup_reverse (h b : nat) l1 l2 :
  NoDup (h :: l1 ++ b :: l2) → NoDup (h :: reverse l2 ++ b :: reverse l1).
Proof.
  replace (reverse l2 ++ b :: reverse l1) with (reverse (l1 ++ b :: l2))
    by (by rewrite reverse_app, reverse_cons, <-app_assoc).
  by rewrite reverse_Permutation.
Qed.

Lemma path_at f l1 b l2 h : path f (h :: l1 ++ b :: l2 ++ [h]) → f b = hd h l2.
Proof.
  change (h :: l1 ++ b :: l2 ++ [h]) with ((h :: l1) ++ b :: l2 ++ [h]).
  intros [_ Hp]%path_app. destruct l2; cbn in Hp; by destruct Hp.
Qed.

(** Only the pointers of the list differ. *)
Definition relinked (s s' : kernel) : Prop :=
  s' = set_k_buf (k_buf s') s ∧ length (k_buf s') = length (k_buf s) ∧
  ∀ i, ∃ p n, bufAt s' i = set_b_prev p (set_b_next n (bufAt s i)).

Lemma relinked_refl s : relinked s s.
Proof.
  split_and!; [by destruct s|done|]. intros i. exists (b_prev (bufAt s i)), (b_next (bufAt s i)).
  by destruct (bufAt s i).
Qed.

Lemma relinked_trans s1 s2 s3 : relinked s1 s2 → relinked s2 s3 → relinked s1 s3.
Proof.
  intros (E1 & L1 & H1) (E2 & L2 & H2). split_and!.
  - by rewrite E2, E1.
  - congruence.
  - intros i. destruct (H1 i) as (p1 & n1 & E), (H2 i) as (p2 & n2 & E').
    exists p2, n2. by rewrite E', E.
Qed.

Lemma relinked_upd s i g :
  (i < length (k_buf s))%nat → (∀ b, ∃ p n, g b = set_b_prev p (set_b_next n b)) →
  relinked s (with_buf i (g (bufAt s i)) s).
Proof.
  intros Hi Hg. split_and!; [done|apply with_buf_len|]. intros j. rewrite bufAt_with by done.
  case_decide as E; [subst; apply Hg|]. exists (b_prev (bufAt s j)), (b_next (bufAt s j)).
  by destruct (bufAt s j).
Qed.

Lemma relink_next n b : ∃ p' n', set_b_next n b = set_b_prev p' (set_b_next n' b).
Proof. exists (b_prev b), n. by destruct b. Qed.
Lemma relink_prev p b : ∃ p' n', set_b_prev p b = set_b_prev p' (set_b_next n' b).
Proof. exists p, (b_next b). by destruct b. Qed.

Lemma unlink_run s l1 b l2 :
  lru s (l1 ++ b :: l2) →
  ∃ s', unlink b s = Ok (tt, s') ∧ relinked s s' ∧
    path (λ i, b_next (bufAt s' i)) (HEAD :: (l1 ++ l2) ++ [HEAD]) ∧
    path (λ i, b_prev (bufAt s' i)) (HEAD :: reverse (l1 ++ l2) ++ [HEAD]).
Proof.
  intros Hl. pose proof (lru_nodup _ _ Hl) as Hnd.
  assert (∀ i, i ∈ HEAD :: l1 ++ b :: l2 → (i < length (k_buf s))%nat) as Hr by (intros; by eapply lru_in_range).
  destruct Hl as [Hlen Hperm Hn Hv]. rewrite <-app_assoc in Hn. cbn [app] in Hn.
  rewrite reverse_app, reverse_cons, <-!app_assoc in Hv. cbn [app] in Hv.
  pose proof (path_at _ _ _ _ _ Hn) as En. pose proof (path_at _ _ _ _ _ Hv) as Ev. cbn beta in En, Ev.
  rewrite hd_reverse in Ev.
  assert (b < length (k_buf s))%nat as Hb by (apply Hr; set_solver).
  set (n := hd HEAD l2) in *. set (p := List.last (HEAD :: l1) HEAD) in *.
  assert (n ∈ HEAD :: l2) as Hn_in by (unfold n; destruct l2; set_solver).
  assert (p ∈ HEAD :: l1) as Hp_in.
  { destruct (exists_last (l := HEAD :: l1)) as (u & x & Hu); [done|].
    unfold p. rewrite Hu, last_last. set_solver. }
  assert (b ∉ HEAD :: l1 ∧ b ∉ HEAD :: l2) as [Hb1 Hb2].
  { change (HEAD :: l1 ++ b :: l2) with ((HEAD :: l1) ++ b :: l2) in Hnd.
    apply NoDup_app in Hnd as (_ & Hd & Hnd). apply NoDup_cons in Hnd as [Hb2 _]. split.
    - intros Hin. apply (Hd b Hin). left.
    - intros [->|?]%elem_of_cons; [|done]. apply (Hd HEAD); left. }
  assert (n < length (k_buf s))%nat as Hnr by (apply Hr; set_solver).
  assert (p < length (k_buf s))%nat as Hpr by (apply Hr; set_solver).
  set (s1 := with_buf n (set_b_prev p (bufAt s n)) s).
  assert (bufAt s1 b = bufAt s b) as Eb by (unfold s1; rewrite bufAt_with, decide_False by congruence; done).
  assert (b < length (k_buf s1) ∧ p < length (k_buf s1))%nat as [Hb' Hpr'] by (unfold s1; rewrite with_buf_len; done).
  exists (with_buf p (set_b_next n (bufAt s1 p)) s1). split_and!.
  - unfold unlink. rewrite (bind_Ok_1 _ _ _ _ _ (next_of_run s b Hb)), (bind_Ok_1 _ _ _ _ _ (prev_of_run s b Hb)).
    rewrite En, Ev, (bind_Ok_1 _ _ _ _ _ (upd_buf_run s n _ Hnr)). fold s1.
    rewrite (bind_Ok_1 _ _ _ _ _ (next_of_run s1 b Hb')), (bind_Ok_1 _ _ _ _ _ (prev_of_run s1 b Hb')).
    rewrite Eb, En, Ev. by apply upd_buf_run.
  - eapply relinked_trans; apply relinked_upd; try done; [apply relink_prev|apply relink_next].
  - rewrite <-app_assoc. eapply path_unlink; [exact Hn|done| |].
    + fold p. rewrite bufAt_with, decide_True by done. cbn. by rewrite En.
    + intros z Hz. fold p in Hz. rewrite bufAt_with, decide_False by (done || congruence).
      unfold s1. rewrite bufAt_with by done. by case_decide; subst.
  - rewrite reverse_app, <-app_assoc. eapply path_unlink; [exact Hv| | |].
    + by apply nodup_reverse.
    + rewrite last_reverse. fold n. rewrite bufAt_with by done. case_decide as E.
      * cbn [b_prev set_b_next]. unfold s1. rewrite bufAt_with, decide_True by (done || congruence). cbn. by rewrite Ev.
      * unfold s1. rewrite bufAt_with, decide_True by done. cbn. by rewrite Ev.
    + intros z Hz. rewrite last_reverse in Hz. fold n in Hz. rewrite bufAt_with by done.
      case_decide as E; [cbn [b_prev set_b_next]|]; unfold s1; rewrite bufAt_with, decide_False by (done || congruence); by subst.
Qed.

Lemma push_front_run s b l :
  bufs_len s → Permutation (b :: l) buf_indices →
  path (λ i, b_next (bufAt s i)) (HEAD :: l ++ [HEAD]) →
  path (λ i, b_prev (bufAt s i)) (HEAD :: reverse l ++ [HEAD]) →
  ∃ s', push_front b s = Ok (tt, s') ∧ relinked s s' ∧ lru s' (b :: l).
Proof.
  intros Hlen Hperm Hn Hv.
  assert (NoDup (b :: l)) as Hnd by (rewrite Hperm; apply NoDup_seq).
  assert (∀ i, i ∈ b :: l → (i < HEAD)%nat) as Hin.
  { intros i. rewrite Hperm. unfold buf_indices. rewrite elem_of_seq. unfold HEAD. lia. }
  assert (b < HEAD)%nat as Hb by (apply Hin; left). apply NoDup_cons in Hnd as [Hbl Hnd].
  assert (HEAD ∉ l) as Hhl by (intros Hh; specialize (Hin HEAD ltac:(by right)); lia).
  assert (HEAD < length (k_buf s))%nat as HhS by (by apply HEAD_lt).
  assert (b < length (k_buf s))%nat as HbS by lia.
  assert (b_next (bufAt s HEAD) = hd HEAD l) as En by (by destruct l; cbn in Hn; destruct Hn).
  set (n := hd HEAD l) in *.
  assert (n < length (k_buf s))%nat as HnS.
  { unfold n. destruct l as [|x l]; [done|]. cbn. specialize (Hin x ltac:(right; left)). lia. }
  assert (n ≠ b) as Hnb.
  { unfold n. destruct l as [|x l]; cbn; [lia|]. intros ->. apply Hbl. left. }
  set (s1 := with_buf b (set_b_next n (bufAt s b)) s).
  set (s2 := with_buf b (set_b_prev HEAD (bufAt s1 b)) s1).
  assert (length (k_buf s1) = length (k_buf s)) as L1 by apply with_buf_len.
  assert (length (k_buf s2) = length (k_buf s)) as L2 by (unfold s2; by rewrite with_buf_len).
  set (s3 := with_buf n (set_b_prev b (bufAt s2 n)) s2).
  assert (length (k_buf s3) = length (k_buf s)) as L3 by (unfold s3; by rewrite with_buf_len).
  set (s4 := with_buf HEAD (set_b_next b (bufAt s3 HEAD)) s3).
  assert (length (k_buf s4) = length (k_buf s)) as L4 by (unfold s4; by rewrite with_buf_len).
  assert (∀ i, b_next (bufAt s4 i) = if decide (i = HEAD) then b else if decide (i = b) then n else b_next (bufAt s i)) as Hnext.
  { intros i. unfold s4, s3, s2, s1. rewrite !bufAt_with by (rewrite ?with_buf_len; lia).
    repeat case_decide; subst; cbn; try done; congruence. }
  assert (∀ i, b_prev (bufAt s4 i) = if decide (i = n) then b else if decide (i = b) then HEAD else b_prev (bufAt s i)) as Hprev.
  { intros i. unfold s4, s3, s2, s1. rewrite !bufAt_with by (rewrite ?with_buf_len; lia).
    repeat case_decide; subst; cbn; try done; congruence. }
  exists s4. split_and!.
  - unfold push_front. rewrite (bind_Ok_1 _ _ _ _ _ (next_of_run s HEAD HhS)), En.
    rewrite (bind_Ok_1 _ _ _ _ _ (upd_buf_run s b _ HbS)). fold s1.
    rewrite (bind_Ok_1 _ _ _ _ _ (upd_buf_run s1 b _ ltac:(lia))). fold s2.
    rewrite (bind_Ok_1 _ _ _ _ _ (next_of_run s2 HEAD ltac:(lia))).
    assert (b_next (bufAt s2 HEAD) = n) as ->.
    { unfold s2, s1. rewrite !bufAt_with by (rewrite ?with_buf_len; lia). repeat case_decide; subst; cbn; try lia; done. }
    rewrite (bind_Ok_1 _ _ _ _ _ (upd_buf_run s2 n _ ltac:(lia))). fold s3.
    apply upd_buf_run. lia.
  - repeat (eapply relinked_trans; [|apply relinked_upd; [lia|apply relink_next || apply relink_prev]]).
    apply relinked_refl.
  - constructor; [unfold bufs_len in *; lia|done| |].
    + eapply path_push; [exact Hn|done|done|lia| | |].
      * by rewrite Hnext, decide_True.
      * by rewrite Hnext, decide_False, decide_True by lia.
      * intros z Hz1 Hz2. by rewrite Hnext, !decide_False.
    + rewrite reverse_cons. eapply path_snoc; [exact Hv| | | | |].
      * constructor; [by rewrite elem_of_reverse|by rewrite reverse_Permutation].
      * rewrite elem_of_cons, elem_of_reverse. intros [?|?]; [lia|done].
      * rewrite last_reverse. fold n. by rewrite Hprev, decide_True.
      * rewrite Hprev, decide_False, decide_True by done. done.
      * intros z Hz1 Hz2. rewrite last_reverse in Hz1. fold n in Hz1. by rewrite Hprev, !decide_False.
Qed.
