(* ===== verification/Cache.v ===== *)
(** What the buffer cache promises its clients.

    [cinv s pins m held]: the blocks of the disk, as the kernel sees them,
    have the contents [m]; the buffers [held] are locked by the current process
    for a block, with their current data (which may differ from [m] while the
    process changes it); the blocks [pins] are kept in the cache because their
    contents may differ from what is on the disk.  [bread], [bwrite], [brelse],
    [bpin] and [bunpin] are specified in these terms; the log and the file
    system are verified against these rules and never look at the list of
    buffers again. *)

From stdpp Require Import functions.
From S2P Require Import Prelude Riscv Mem Str Kalloc Vm State Sched SchedSpec Sleeplock Bio BioSpec.

(** * Processes between two steps of one process *)

(** Other processes may have been woken, nothing else. *)
Definition woke (me : nat) (l l' : list proc) : Prop :=
  length l' = length l ∧ l' !! me = l !! me ∧
  ∀ i p, l !! i = Some p → ∃ p', l' !! i = Some p' ∧
    (p' = p ∨ p_state p = SLEEPING ∧ p' = set_p_state RUNNABLE p).

Lemma woke_refl me l : woke me l l.
Proof. split_and!; [done..|]. eauto. Qed.

Lemma woke_trans me l1 l2 l3 : woke me l1 l2 → woke me l2 l3 → woke me l1 l3.
Proof.
  intros (L1 & M1 & H1) (L2 & M2 & H2). split_and!; [congruence..|]. intros i p Hp.
  destruct (H1 i p Hp) as (p2 & Hp2 & C1). destruct (H2 i p2 Hp2) as (p3 & Hp3 & C2).
  exists p3. split; [done|]. destruct C1 as [->|[S1 ->]]; [done|]. destruct C2 as [->|[S2 _]]; [by right|done].
Qed.

Lemma woke_wakeup me chan l :
  woke me l (map_procs (woken (Some me) chan) (set_p_state RUNNABLE) l).
Proof.
  split_and!.
  - apply length_map_procs.
  - rewrite lookup_map_procs. destruct (l !! me); [|done]. cbn. unfold woken.
    by rewrite bool_decide_false by naive_solver.
  - intros i p Hp. rewrite lookup_map_procs, Hp. cbn. eexists. split; [done|].
    unfold woken. case_bool_decide as E; [right; split; [apply E|done]|by left].
Qed.

(** Everything but the buffers, the disk and sleeping processes is as before. *)
Definition bframe (me : nat) (s s' : kernel) : Prop :=
  s' = set_k_proc (k_proc s') (set_k_buf (k_buf s') (set_k_disk (k_disk s') (set_k_writes (k_writes s') s))) ∧
  woke me (k_proc s) (k_proc s').

Lemma bframe_refl me s : bframe me s s.
Proof. split; [by destruct s|apply woke_refl]. Qed.

Lemma bframe_trans me s1 s2 s3 : bframe me s1 s2 → bframe me s2 s3 → bframe me s1 s3.
Proof.
  intros [E1 W1] [E2 W2]. split; [rewrite E2, E1; reflexivity|by eapply woke_trans].
Qed.

Lemma bframe_buf me s l : bframe me s (set_k_buf l s).
Proof. split; [by destruct s|apply woke_refl]. Qed.

(** * The invariant *)

Section cache.
Context (me : nat).

(** One buffer; [h] is its block and data if it is held. *)
Definition buf_ok (pid : Z) (pins : gset Z) (m : Z → block) (h : option (Z * block)) (x : buf) : Prop :=
  (b_dev x = 0 ∧ b_refcnt x = 0 ∧ sl_locked (b_lock x) = false ∧ h = None) ∨
  (b_dev x = ROOTDEV ∧ b_valid x = true ∧
   b_refcnt x = (if h then 1 else 0) + (if decide (b_blockno x ∈ pins) then 1 else 0) ∧
   match h with
   | Some (bn, d) => b_blockno x = bn ∧ b_data x = d ∧ b_lock x = Sleeplock true pid
   | None => sl_locked (b_lock x) = false ∧ b_data x = m (b_blockno x)
   end).

Definition cached (s : kernel) (i : nat) (bn : Z) : Prop :=
  (i < HEAD)%nat ∧ b_dev (bufAt s i) = ROOTDEV ∧ b_blockno (bufAt s i) = bn.

Record cinv (s : kernel) (pins : gset Z) (m : Z → block) (held : gmap nat (Z * block)) : Prop := {
  ci_lru : ∃ l, lru s l;
  ci_table : table_ok s;
  ci_bufs : ∃ p, k_proc s !! me = Some p ∧ ∀ i, (i < HEAD)%nat → buf_ok (p_pid p) pins m (held !! i) (bufAt s i);
  ci_dom : ∀ i, is_Some (held !! i) → (i < HEAD)%nat;
  ci_uniq : ∀ i j bn, cached s i bn → cached s j bn → i = j;
  ci_disk : ∀ bn, bn ∉ pins → disk_block (k_disk s) bn = m bn;
  ci_pin : ∀ bn, bn ∈ pins → ∃ i, cached s i bn;
}.

(** Equality of buffers up to the pointers of the list. *)
Definition strip (x : buf) : buf := set_b_prev 0 (set_b_next 0 x).

Lemma buf_ok_strip pid pins m h x : buf_ok pid pins m h (strip x) ↔ buf_ok pid pins m h x.
Proof. done. Qed.

Lemma buf_ok_other pid pins m pins' m' h x bn :
  buf_ok pid pins m h x → (∀ b, b ≠ bn → (b ∈ pins' ↔ b ∈ pins) ∧ m' b = m b) →
  (b_dev x = ROOTDEV → b_blockno x ≠ bn) → buf_ok pid pins' m' h x.
Proof.
  intros [(?&?&?&?)|(Hd & Hv & Hr & Hh)] Hsame Hne; [by left|right]. specialize (Hne Hd).
  destruct (Hsame _ Hne) as [Hp Hm]. split_and!; [done|done| |].
  - rewrite Hr. f_equal. by apply decide_ext.
  - destruct h as [[]|]; [done|]. by rewrite Hm.
Qed.

(** A step on the one buffer [i], which afterwards caches block [bn]. *)
Lemma cinv_step s s' i bn pins m held pins' m' held' p :
  cinv s pins m held → (i < HEAD)%nat →
  (∃ l, lru s' l) → table_ok s' → k_proc s !! me = Some p → k_proc s' !! me = Some p →
  (∀ j, j ≠ i → strip (bufAt s' j) = strip (bufAt s j)) →
  (∀ j, j ≠ i → held' !! j = held !! j) →
  cached s' i bn → buf_ok (p_pid p) pins' m' (held' !! i) (bufAt s' i) →
  (∀ j, j ≠ i → ¬ cached s j bn) →
  (∀ b, b ≠ bn → (b ∈ pins' ↔ b ∈ pins) ∧ m' b = m b) →
  (∀ b, cached s i b → b ≠ bn → b ∉ pins) →
  (∀ b, b ∉ pins' → disk_block (k_disk s') b = m' b) →
  cinv s' pins' m' held'.
Proof.
  intros [_ _ (p0 & Hp0 & Hbufs) Hdom Huniq _ Hpin] Hi Hlru Ht Hp Hp' Hother Hheld Hc Hok Hno Hsame Hevict Hdisk.
  rewrite Hp in Hp0. injection Hp0 as <-.
  assert (∀ j b, j ≠ i → cached s' j b ↔ cached s j b) as Hcached.
  { intros j b Hj. specialize (Hother j Hj). unfold cached.
    assert (b_dev (bufAt s' j) = b_dev (bufAt s j) ∧ b_blockno (bufAt s' j) = b_blockno (bufAt s j)) as [-> ->]; [|done].
    split; [change (b_dev (strip (bufAt s' j)) = b_dev (strip (bufAt s j)))|
            change (b_blockno (strip (bufAt s' j)) = b_blockno (strip (bufAt s j)))]; by rewrite Hother. }
  constructor; [done|done| | | |done|].
  - exists p. split; [done|]. intros j Hj. destruct (decide (j = i)) as [->|Hne]; [done|].
    rewrite Hheld, <-buf_ok_strip, Hother, buf_ok_strip by done.
    eapply buf_ok_other; [by apply Hbufs|done|]. intros Hd Hb. apply (Hno j Hne). done.
  - intros j Hj. destruct (decide (j = i)) as [->|Hne]; [done|]. apply Hdom. by rewrite <-Hheld.
  - intros j k b Hj Hk. destruct (decide (j = i)) as [->|Hne], (decide (k = i)) as [->|Hne']; [done| | |].
    + assert (b = bn) as -> by (destruct Hj as (_&_&<-), Hc as (_&_&<-); done).
      apply Hcached in Hk; [|done]. by destruct (Hno k Hne').
    + assert (b = bn) as -> by (destruct Hk as (_&_&<-), Hc as (_&_&<-); done).
      apply Hcached in Hj; [|done]. by destruct (Hno j Hne).
    + apply (Huniq j k b); by apply Hcached.
  - intros b Hb. destruct (decide (b = bn)) as [->|Hne]; [by exists i|].
    destruct (Hpin b) as [j Hj]; [by apply Hsame|]. exists j.
    destruct (decide (j = i)) as [->|Hji]; [|by apply Hcached].
    destruct (Hevict b Hj Hne). by apply Hsame.
Qed.

(** The same for a step that replaces the buffer and leaves the list alone. *)
Lemma cinv_with s s' i x bn pins m held pins' m' held' p :
  cinv s pins m held → (i < HEAD)%nat → k_proc s !! me = Some p →
  k_buf s' = <[i := x]> (k_buf s) → k_proc s' = k_proc s →
  b_next x = b_next (bufAt s i) → b_prev x = b_prev (bufAt s i) →
  b_dev x = ROOTDEV → b_blockno x = bn →
  (∀ j, j ≠ i → held' !! j = held !! j) →
  buf_ok (p_pid p) pins' m' (held' !! i) x →
  (∀ j, j ≠ i → ¬ cached s j bn) →
  (∀ b, b ≠ bn → (b ∈ pins' ↔ b ∈ pins) ∧ m' b = m b) →
  (∀ b, cached s i b → b ≠ bn → b ∉ pins) →
  (∀ b, b ∉ pins' → disk_block (k_disk s') b = m' b) →
  cinv s' pins' m' held'.
Proof.
  intros Hinv Hi Hp Hbuf Hproc Hn Hv Hd Hb Hheld Hok Hno Hsame Hevict Hdisk.
  destruct (ci_lru _ _ _ _ Hinv) as [l Hl]. pose proof (lru_len _ _ Hl) as Hlen.
  assert (i < length (k_buf s))%nat as Hir by (rewrite Hlen; unfold HEAD in Hi; lia).
  assert (∀ j, bufAt s' j = if decide (i = j) then x else bufAt s j) as Hat.
  { intros j. unfold bufAt. rewrite Hbuf. change (<[i := x]> (k_buf s)) with (k_buf (with_buf i x s)).
    by apply (bufAt_with s i x j). }
  assert (bufAt s' i = x) as Hatx by (by rewrite Hat, decide_True).
  eapply (cinv_step s s' i bn); try done.
  - exists l. eapply lru_ext; [|intros j Hj|exact Hl].
    + unfold bufs_len in *. by rewrite Hbuf, length_insert.
    + rewrite Hat. case_decide; [subst|]; done.
  - unfold table_ok. rewrite Hproc. apply (ci_table _ _ _ _ Hinv).
  - by rewrite Hproc.
  - intros j Hj. by rewrite Hat, decide_False.
  - unfold cached. by rewrite Hatx.
  - by rewrite Hatx.
Qed.

Lemma held_buf s pins m held i bn d p :
  cinv s pins m held → held !! i = Some (bn, d) → k_proc s !! me = Some p →
  (i < HEAD)%nat ∧ (i < length (k_buf s))%nat ∧ b_dev (bufAt s i) = ROOTDEV ∧ b_valid (bufAt s i) = true ∧
  b_refcnt (bufAt s i) = 1 + (if decide (bn ∈ pins) then 1 else 0) ∧
  b_blockno (bufAt s i) = bn ∧ b_data (bufAt s i) = d ∧ b_lock (bufAt s i) = Sleeplock true (p_pid p).
Proof.
  intros Hinv Hh Hp. assert (i < HEAD)%nat as Hi by (eapply ci_dom; [done|by eexists]).
  destruct (ci_bufs _ _ _ _ Hinv) as (p' & Hp' & Hbufs). rewrite Hp in Hp'. injection Hp' as <-.
  destruct (ci_lru _ _ _ _ Hinv) as [l Hl]. pose proof (lru_len _ _ Hl) as Hlen.
  specialize (Hbufs i Hi). rewrite Hh in Hbufs.
  destruct Hbufs as [(_&_&_&?)|(Hd & Hv & Hr & Hb & Hdat & Hl')]; [done|].
  rewrite Hb in Hr. split_and!; try done. rewrite Hlen. unfold HEAD in Hi. lia.
Qed.

Lemma held_unique s pins m held i bn d j :
  cinv s pins m held → held !! i = Some (bn, d) → j ≠ i → ¬ cached s j bn.
Proof.
  intros Hinv Hh Hne Hc. destruct (ci_bufs _ _ _ _ Hinv) as (p & Hp & _).
  destruct (held_buf _ _ _ _ _ _ _ _ Hinv Hh Hp) as (Hi & _ & Hd & _ & _ & Hb & _).
  apply Hne. eapply ci_uniq; [done|exact Hc|done].
Qed.

Lemma held_cached s pins m held i bn d b :
  cinv s pins m held → held !! i = Some (bn, d) → cached s i b → b = bn.
Proof.
  intros Hinv Hh (_ & _ & <-). destruct (ci_bufs _ _ _ _ Hinv) as (p & Hp & _).
  by destruct (held_buf _ _ _ _ _ _ _ _ Hinv Hh Hp) as (_ & _ & _ & _ & _ & Hb & _).
Qed.

(** ** Using a buffer that is held *)

Lemma get_buf_wp s pins m held i bn d :
  cinv s pins m held → held !! i = Some (bn, d) →
  wp (get_buf i) s (λ x s', s' = s ∧ b_data x = d ∧ b_blockno x = bn).
Proof.
  intros Hinv Hh. destruct (ci_bufs _ _ _ _ Hinv) as (p & Hp & _).
  destruct (held_buf _ _ _ _ _ _ _ _ Hinv Hh Hp) as (_ & Hr & _ & _ & _ & Hb & Hd & _).
  eapply wp_Ok; [by apply get_buf_run|]. done.
Qed.

Lemma upd_data_wp s pins m held i bn d g :
  cinv s pins m held → held !! i = Some (bn, d) →
  wp (upd_buf i (λ x, set_b_data (g (b_data x)) x)) s
    (λ _ s', cinv s' pins m (<[i := (bn, g d)]> held) ∧ bframe me s s' ∧
             k_disk s' = k_disk s ∧ k_writes s' = k_writes s).
Proof.
  intros Hinv Hh. destruct (ci_bufs _ _ _ _ Hinv) as (p & Hp & _).
  destruct (held_buf _ _ _ _ _ _ _ _ Hinv Hh Hp) as (Hi & Hr & Hdev & Hv & Href & Hb & Hd & Hl).
  eapply wp_Ok; [by apply upd_buf_run|]. split_and!; [|apply bframe_buf|done|done].
  eapply (cinv_with s _ i _ bn); [done..| | | | | |]; cbn.
  - intros j Hj. by rewrite lookup_insert_ne.
  - rewrite lookup_insert_eq. right. cbn. rewrite Hb, Href, Hd. done.
  - intros j Hj. by eapply held_unique.
  - done.
  - intros b Hc Hne. destruct Hne. by eapply held_cached.
  - apply (ci_disk _ _ _ _ Hinv).
Qed.

Lemma holdingsleep_run s pins m held i bn d :
  cinv s pins m held → held !! i = Some (bn, d) → holdingsleep me (LBuf i) s = Ok (true, s).
Proof.
  intros Hinv Hh. destruct (ci_bufs _ _ _ _ Hinv) as (p & Hp & _).
  destruct (held_buf _ _ _ _ _ _ _ _ Hinv Hh Hp) as (_ & Hr & _ & _ & _ & _ & _ & Hl).
  unfold holdingsleep, get_sl. rewrite bind_assoc, (bind_Ok_1 _ _ _ _ _ (get_buf_run s i Hr)), bind_ret.
  rewrite (bind_Ok_1 _ _ _ _ _ (get_proc_run _ _ _ Hp)), Hl. cbn. by rewrite Z.eqb_refl.
Qed.

Lemma bwrite_wp s pins m held i bn d :
  cinv s pins m held → held !! i = Some (bn, d) →
  wp (bwrite me i) s
    (λ _ s', cinv s' pins (<[bn := d]> m) held ∧ bframe me s s' ∧
             k_disk s' = <[bn := d]> (k_disk s) ∧ k_writes s' = (bn, d) :: k_writes s).
Proof.
  intros Hinv Hh. destruct (ci_bufs _ _ _ _ Hinv) as (p & Hp & _).
  destruct (held_buf _ _ _ _ _ _ _ _ Hinv Hh Hp) as (Hi & Hr & Hdev & Hv & Href & Hb & Hd & Hl).
  eapply wp_Ok.
  { unfold bwrite. rewrite (bind_Ok_1 _ _ _ _ _ (holdingsleep_run _ _ _ _ _ _ _ Hinv Hh)). cbn [negb].
    unfold disk_rw. rewrite (bind_Ok_1 _ _ _ _ _ (get_buf_run s i Hr)), Hb, Hd. reflexivity. }
  cbv beta. split_and!; [|by split; [destruct s|apply woke_refl]|done|done].
  eapply (cinv_with s _ i (bufAt s i) bn); [done|done|done| |done..| | | | | |]; cbn.
  - rewrite list_insert_id; [done|]. by apply bufAt_lookup.
  - done.
  - rewrite Hh. right. rewrite Hb, Href, Hd. done.
  - intros j Hj. by eapply held_unique.
  - intros b Hne. split; [done|]. by rewrite fn_lookup_insert_ne.
  - intros b Hc Hne. destruct Hne. by eapply held_cached.
  - intros b Hnp. unfold disk_block. destruct (decide (b = bn)) as [->|Hne].
    + by rewrite lookup_insert_eq, fn_lookup_insert.
    + rewrite lookup_insert_ne, fn_lookup_insert_ne by done. by apply (ci_disk _ _ _ _ Hinv).
Qed.

(** ** bread *)

Lemma acquire_buf s i p :
  (i < length (k_buf s))%nat → sl_locked (b_lock (bufAt s i)) = false → k_proc s !! me = Some p →
  acquiresleep me (LBuf i) s = Ok (tt, with_buf i (set_b_lock (Sleeplock true (p_pid p)) (bufAt s i)) s).
Proof.
  intros Hi Hl Hp. unfold acquiresleep, get_sl, put_sl.
  rewrite bind_assoc, (bind_Ok_1 _ _ _ _ _ (get_buf_run s i Hi)), bind_ret, Hl.
  rewrite (bind_Ok_1 _ _ _ _ _ (get_proc_run _ _ _ Hp)). by apply upd_buf_run.
Qed.

Lemma with_buf_twice s i x y : with_buf i y (with_buf i x s) = with_buf i y s.
Proof. unfold with_buf. cbn. by rewrite list_insert_insert_eq. Qed.

Lemma bufAt_with_eq s i x : (i < length (k_buf s))%nat → bufAt (with_buf i x s) i = x.
Proof. intros Hi. by rewrite bufAt_with, decide_True. Qed.

(** Some buffer is free: the others are held or pinned. *)
Lemma free_buf s pins m held :
  cinv s pins m held → (size pins + size held < Z.to_nat NBUF)%nat →
  ∃ i, (i < HEAD)%nat ∧ b_refcnt (bufAt s i) = 0.
Proof.
  intros Hinv Hsz.
  assert (∀ i, i ∈ buf_indices ↔ (i < HEAD)%nat) as Hix by (intros i; unfold buf_indices, HEAD; rewrite elem_of_seq; lia).
  destruct (decide (Exists (λ i, b_refcnt (bufAt s i) = 0) buf_indices)) as [Hex|Hnone].
  { apply Exists_exists in Hex as (i & Hi & Hr). exists i. by rewrite <-Hix. }
  assert (¬ ∃ i, (i < HEAD)%nat ∧ b_refcnt (bufAt s i) = 0) as Hno.
  { intros (i & Hi & Hr). apply Hnone, Exists_exists. exists i. by rewrite Hix. }
  exfalso. destruct (ci_bufs _ _ _ _ Hinv) as (p & Hp & Hbufs).
  set (A := filter (λ i, is_Some (held !! i)) buf_indices).
  set (B := filter (λ i, ¬ is_Some (held !! i)) buf_indices).
  assert (∀ i, i ∈ buf_indices → (i < HEAD)%nat) as Hin by (intros i; apply Hix).
  assert (∀ i, i ∈ B → b_dev (bufAt s i) = ROOTDEV ∧ b_blockno (bufAt s i) ∈ pins) as HB.
  { intros i [Hn Hi%Hin]%list_elem_of_filter. apply eq_None_not_Some in Hn.
    specialize (Hbufs i Hi). rewrite Hn in Hbufs. destruct Hbufs as [(_&?&_)|(Hd&_&Hr&_)].
    - destruct Hno. eauto.
    - case_decide; [done|]. destruct Hno. exists i. split; [done|]. rewrite Hr. lia. }
  assert (length A ≤ size held)%nat as HlA.
  { rewrite <-(size_dom (D := gset nat)), <-(size_list_to_set (C := gset nat) A).
    - apply subseteq_size. intros i. rewrite elem_of_list_to_set, elem_of_dom. by intros [??]%list_elem_of_filter.
    - apply NoDup_filter, NoDup_seq. }
  assert (length B ≤ size pins)%nat as HlB.
  { rewrite <-(length_fmap (λ i, b_blockno (bufAt s i)) B), <-(size_list_to_set (C := gset Z)).
    - apply subseteq_size. intros b. rewrite elem_of_list_to_set, list_elem_of_fmap.
      intros (i & -> & Hi). by apply HB.
    - apply NoDup_fmap_2_strong; [|apply NoDup_filter, NoDup_seq]. intros i j Hi Hj E.
      apply (ci_uniq _ _ _ _ Hinv i j (b_blockno (bufAt s i))).
      + split_and!; [|by apply HB|done]. apply list_elem_of_filter in Hi as [_ Hi]. by apply Hin.
      + split_and!; [|by apply HB|done]. apply list_elem_of_filter in Hj as [_ Hj]. by apply Hin. }
  assert (length A + length B = Z.to_nat NBUF)%nat as Hsum; [|lia].
  unfold A, B. change (Z.to_nat NBUF) with (length buf_indices).
  clear. induction buf_indices as [|i l IH]; [done|]. rewrite !filter_cons.
  destruct (decide (is_Some (held !! i))); [rewrite decide_False by tauto|rewrite decide_True by done]; cbn; lia.
Qed.

Lemma bread_hit s pins m held i bn p :
  cinv s pins m held → k_proc s !! me = Some p → cached s i bn → held !! i = None →
  bread me ROOTDEV bn s =
    Ok (i, with_buf i (set_b_lock (Sleeplock true (p_pid p))
                        (set_b_refcnt (b_refcnt (bufAt s i) + 1) (bufAt s i))) s).
Proof.
  intros Hinv Hp Hc Hh. destruct (ci_lru _ _ _ _ Hinv) as [l Hl]. pose proof Hc as (Hi & Hd & Hb).
  assert (i < length (k_buf s))%nat as Hr by (rewrite (lru_len _ _ Hl); unfold HEAD in Hi; lia).
  destruct (ci_bufs _ _ _ _ Hinv) as (p' & Hp' & Hbufs). rewrite Hp in Hp'. injection Hp' as <-.
  specialize (Hbufs i Hi). rewrite Hh in Hbufs.
  destruct Hbufs as [(Hd0 & _)|(_ & Hv & Href & Hlk & _)]; [by rewrite Hd in Hd0|].
  unfold bread, bget. rewrite bind_assoc, (bind_Ok_1 _ _ _ _ _ (find_next s l _ Hl)).
  destruct (first_buf _ _ l) as [j|] eqn:Ef.
  2: { apply (first_buf_None _ _ _ i) in Ef; [|by apply (lru_elem s l)].
       cbv beta in Ef. by rewrite Hd, Hb, !Z.eqb_refl in Ef. }
  apply first_buf_Some in Ef as [Hj [Hjd%Z.eqb_eq Hjb%Z.eqb_eq]%andb_prop].
  assert (j = i) as ->.
  { apply (ci_uniq _ _ _ _ Hinv j i bn); [|done]. split_and!; [by apply (lru_elem s l)|done|done]. }
  rewrite bind_assoc, (bind_Ok_1 _ _ _ _ _ (upd_buf_run s i _ Hr)).
  set (s1 := with_buf i _ s). assert (i < length (k_buf s1))%nat as Hr1 by (unfold s1; by rewrite with_buf_len).
  assert (bufAt s1 i = set_b_refcnt (u32 (b_refcnt (bufAt s i) + 1)) (bufAt s i)) as E1 by (by apply bufAt_with_eq).
  rewrite bind_assoc, (bind_Ok_1 _ _ _ _ _ (acquire_buf s1 i p Hr1 ltac:(by rewrite E1) Hp)), bind_ret.
  rewrite E1. unfold s1. rewrite with_buf_twice.
  set (s2 := with_buf i _ s). assert (i < length (k_buf s2))%nat as Hr2 by (unfold s2; by rewrite with_buf_len).
  rewrite (bind_Ok_1 _ _ _ _ _ (get_buf_run s2 i Hr2)). unfold s2 at 1. rewrite bufAt_with_eq by done.
  unfold s2. cbn [b_valid set_b_lock set_b_refcnt]. rewrite Hv. cbn [negb]. rewrite bind_ret.
  rewrite u32_small; [done|]. rewrite Href. destruct (decide _); lia.
Qed.

Lemma bread_miss s pins m held bn p :
  cinv s pins m held → k_proc s !! me = Some p → (∀ i, ¬ cached s i bn) →
  (size pins + size held < Z.to_nat NBUF)%nat →
  ∃ i, (i < HEAD)%nat ∧ b_refcnt (bufAt s i) = 0 ∧
    bread me ROOTDEV bn s =
      Ok (i, with_buf i (Buf true (b_disk (bufAt s i)) ROOTDEV bn (Sleeplock true (p_pid p)) 1
                           (b_prev (bufAt s i)) (b_next (bufAt s i)) (disk_block (k_disk s) bn)) s).
Proof.
  intros Hinv Hp Hno Hsz. destruct (ci_lru _ _ _ _ Hinv) as [l Hl].
  unfold bread, bget. setoid_rewrite bind_assoc. setoid_rewrite (bind_Ok_1 _ _ _ _ _ (find_next s l _ Hl)).
  destruct (first_buf _ _ l) as [j|] eqn:Ef.
  { exfalso. apply first_buf_Some in Ef as [Hj [Hjd%Z.eqb_eq Hjb%Z.eqb_eq]%andb_prop].
    apply (Hno j). split_and!; [by apply (lru_elem s l)|done|done]. }
  setoid_rewrite bind_assoc. setoid_rewrite (bind_Ok_1 _ _ _ _ _ (find_prev s l _ Hl)).
  destruct (free_buf s pins m held Hinv Hsz) as (i0 & Hi0 & Hr0).
  destruct (first_buf s _ (reverse l)) as [i|] eqn:Ef2.
  2: { apply (first_buf_None _ _ _ i0) in Ef2; [cbv beta in Ef2; by rewrite Hr0 in Ef2|].
       rewrite elem_of_reverse. by apply (lru_elem s l). }
  apply first_buf_Some in Ef2 as [Hil Hri%Z.eqb_eq]. rewrite elem_of_reverse in Hil.
  assert (i < HEAD)%nat as Hi by (by apply (lru_elem s l)).
  assert (i < length (k_buf s))%nat as Hr by (rewrite (lru_len _ _ Hl); unfold HEAD in Hi; lia).
  exists i. split_and!; [done|done|].
  assert (sl_locked (b_lock (bufAt s i)) = false) as Hlk.
  { destruct (ci_bufs _ _ _ _ Hinv) as (p' & Hp' & Hbufs). specialize (Hbufs i Hi).
    destruct (held !! i) as [[b d]|]; destruct Hbufs as [(_&_&?&?)|(_&_&Href&Hrest)]; try done; [|by apply Hrest].
    rewrite Hri in Href. case_decide; lia. }
  rewrite bind_assoc, (bind_Ok_1 _ _ _ _ _ (upd_buf_run s i _ Hr)).
  set (s1 := with_buf i _ s). assert (i < length (k_buf s1))%nat as Hr1 by (unfold s1; by rewrite with_buf_len).
  assert (sl_locked (b_lock (bufAt s1 i)) = false) as Hlk1 by (unfold s1; by rewrite bufAt_with_eq).
  rewrite bind_assoc, (bind_Ok_1 _ _ _ _ _ (acquire_buf s1 i p Hr1 Hlk1 Hp)), bind_ret.
  set (s2 := with_buf i _ s1). assert (i < length (k_buf s2))%nat as Hr2 by (unfold s2; by rewrite with_buf_len).
  assert (bufAt s2 i = Buf false (b_disk (bufAt s i)) ROOTDEV bn (Sleeplock true (p_pid p)) 1
    (b_prev (bufAt s i)) (b_next (bufAt s i)) (b_data (bufAt s i))) as E2.
  { unfold s2. rewrite bufAt_with_eq by done. unfold s1. by rewrite bufAt_with_eq. }
  rewrite (bind_Ok_1 _ _ _ _ _ (get_buf_run s2 i Hr2)), E2. cbn [b_valid negb].
  unfold disk_rw. rewrite !bind_assoc, (bind_Ok_1 _ _ _ _ _ (get_buf_run s2 i Hr2)), E2.
  cbn [b_blockno]. rewrite bind_assoc, bind_gets, (bind_Ok_1 _ _ _ _ _ (upd_buf_run s2 i _ Hr2)).
  set (s3 := with_buf i _ s2). assert (i < length (k_buf s3))%nat as Hr3 by (unfold s3; by rewrite with_buf_len).
  rewrite (bind_Ok_1 _ _ _ _ _ (upd_buf_run s3 i _ Hr3)). unfold s3. rewrite bufAt_with_eq by done.
  rewrite E2. unfold s2, s1. by rewrite !with_buf_twice.
Qed.

Definition not_held (held : gmap nat (Z * block)) (bn : Z) : Prop := ∀ i d, held !! i ≠ Some (bn, d).

Lemma buf_ok_free pid pins m x : buf_ok pid pins m None x → b_refcnt x = 0 → b_dev x = ROOTDEV → b_blockno x ∉ pins.
Proof. intros [(E&_)|(_&_&Hr&_)] H0 Hd; [by rewrite E in Hd|]. rewrite H0 in Hr. by case_decide. Qed.

Lemma bread_wp s pins m held bn :
  cinv s pins m held → not_held held bn → bn ∈ pins ∨ (size pins + size held < Z.to_nat NBUF)%nat →
  wp (bread me ROOTDEV bn) s
    (λ i s', held !! i = None ∧ cinv s' pins m (<[i := (bn, m bn)]> held) ∧ bframe me s s' ∧
             k_disk s' = k_disk s ∧ k_writes s' = k_writes s).
Proof.
  intros Hinv Hnh Hsz. destruct (ci_bufs _ _ _ _ Hinv) as (p & Hp & Hbufs).
  assert (∀ i b, cached s i b → held !! i = None → b_data (bufAt s i) = m b ∧
    b_refcnt (bufAt s i) = if decide (b ∈ pins) then 1 else 0) as Hfree.
  { intros i b (Hi & Hd & <-) Hh. specialize (Hbufs i Hi). rewrite Hh in Hbufs.
    destruct Hbufs as [(Hd0&_)|(_&_&Hr&_&Hdat)]; [by rewrite Hd in Hd0|]. done. }
  assert ((∃ i, cached s i bn) ∨ ∀ i, ¬ cached s i bn) as [[i Hc]|Hno].
  { destruct (decide (Exists (λ i, b_dev (bufAt s i) = ROOTDEV ∧ b_blockno (bufAt s i) = bn) buf_indices)) as [He|He].
    - apply Exists_exists in He as (i & Hi & Hd & Hb). left. exists i. split_and!; [|done|done].
      apply elem_of_seq in Hi. unfold HEAD. lia.
    - right. intros i (Hi & Hd & Hb). apply He, Exists_exists. exists i. split; [|done].
      apply elem_of_seq. unfold HEAD in Hi. lia. }
  - assert (held !! i = None) as Hh.
    { destruct (held !! i) as [[b d]|] eqn:E; [|done]. exfalso.
      assert (bn = b) as -> by (by eapply held_cached). by apply (Hnh i d). }
    eapply wp_Ok; [by eapply bread_hit|]. cbv beta. split_and!; [done| |apply bframe_buf|done|done].
    destruct (Hfree i bn Hc Hh) as [Hdat Hr]. pose proof Hc as (Hi & Hd & Hb).
    specialize (Hbufs i Hi). rewrite Hh in Hbufs.
    destruct Hbufs as [(Hd0&_)|(_&Hv&_)]; [by rewrite Hd in Hd0|].
    eapply (cinv_with s _ i _ bn); [done..| | | | | |]; cbn.
    + intros j Hj. by rewrite lookup_insert_ne.
    + rewrite lookup_insert_eq. right. cbn. rewrite Hb, Hdat, Hr. split_and!; try done. lia.
    + intros j Hj Hcj. apply Hj. by eapply (ci_uniq _ _ _ _ Hinv).
    + done.
    + intros b (_ & _ & Hb') Hne. congruence.
    + apply (ci_disk _ _ _ _ Hinv).
  - destruct Hsz as [Hin|Hsz]; [destruct (ci_pin _ _ _ _ Hinv bn Hin) as [j Hj]; by destruct (Hno j)|].
    destruct (bread_miss s pins m held bn p Hinv Hp Hno Hsz) as (i & Hi & Hr & Hrun).
    eapply wp_Ok; [exact Hrun|]. cbv beta.
    assert (held !! i = None) as Hh.
    { specialize (Hbufs i Hi). destruct (held !! i) as [[b d]|]; [|done].
      destruct Hbufs as [(_&_&_&?)|(_&_&Href&_)]; [done|]. rewrite Hr in Href. case_decide; lia. }
    assert (bn ∉ pins) as Hnp by (intros Hin; destruct (ci_pin _ _ _ _ Hinv bn Hin) as [j Hj]; by apply (Hno j)).
    split_and!; [done| |apply bframe_buf|done|done].
    eapply (cinv_with s _ i _ bn); [done..| | | | | |]; cbn.
    + intros j Hj. by rewrite lookup_insert_ne.
    + rewrite lookup_insert_eq. right. cbn. rewrite decide_False by done.
      split_and!; try done. by apply (ci_disk _ _ _ _ Hinv).
    + intros j _. apply Hno.
    + done.
    + intros b (_ & Hd & <-) _. specialize (Hbufs i Hi). rewrite Hh in Hbufs. by eapply buf_ok_free.
    + apply (ci_disk _ _ _ _ Hinv).
Qed.

(** ** brelse *)

(** The state after the lock is given up and the count dropped. *)
Lemma brelse_unlock s pins m held i bn :
  cinv s pins m held → held !! i = Some (bn, m bn) →
  ∃ s', (releasesleep me (LBuf i) ;; upd_buf i (λ x, set_b_refcnt (u32 (b_refcnt x - 1)) x)) s = Ok (tt, s') ∧
    cinv s' pins m (delete i held) ∧ bframe me s s' ∧ k_disk s' = k_disk s ∧ k_writes s' = k_writes s ∧
    b_refcnt (bufAt s' i) = (if decide (bn ∈ pins) then 1 else 0) ∧ cached s' i bn.
Proof.
  intros Hinv Hh. destruct (ci_bufs _ _ _ _ Hinv) as (p & Hp & _).
  destruct (held_buf _ _ _ _ _ _ _ _ Hinv Hh Hp) as (Hi & Hr & Hdev & Hv & Href & Hb & Hd & Hl).
  set (x1 := set_b_lock (Sleeplock false 0) (bufAt s i)). set (s1 := with_buf i x1 s).
  set (s2 := set_k_proc (map_procs (woken (Some me) (sl_chan (LBuf i))) (set_p_state RUNNABLE) (k_proc s)) s1).
  assert (i < length (k_buf s2))%nat as Hr2 by (cbn; by rewrite length_insert).
  assert (bufAt s2 i = x1) as E2 by (apply (bufAt_with_eq s i x1 Hr)).
  pose proof (woke_wakeup me (sl_chan (LBuf i)) (k_proc s)) as Hwoke.
  set (s3 := with_buf i (set_b_refcnt (u32 (b_refcnt x1 - 1)) x1) s2).
  exists s3. split.
  { unfold releasesleep, put_sl. rewrite bind_assoc, (bind_Ok_1 _ _ _ _ _ (upd_buf_run s i _ Hr)). fold x1 s1.
    rewrite (bind_Ok_1 _ _ _ _ _ (wakeup_map _ _ s1 (ci_table _ _ _ _ Hinv))).
    rewrite (upd_buf_run s2 i) by done. by rewrite E2. }
  assert (b_refcnt (bufAt s i) - 1 = if decide (bn ∈ pins) then 1 else 0) as Hr' by (rewrite Href; case_decide; lia).
  assert (u32 (b_refcnt x1 - 1) = if decide (bn ∈ pins) then 1 else 0) as Hcnt.
  { cbn. rewrite Hr'. case_decide; done. }
  assert (bufAt s3 i = set_b_refcnt (u32 (b_refcnt x1 - 1)) x1) as E3 by (by apply bufAt_with_eq).
  split_and!; [|by split; [destruct s|]|done|done|by rewrite E3|by unfold cached; rewrite E3].
  destruct (ci_lru _ _ _ _ Hinv) as [l Hlru].
  eapply (cinv_step s s3 i bn pins m held pins m (delete i held) p); try done.
  - exists l. eapply lru_ext; [|intros j Hj|exact Hlru].
    + unfold bufs_len. cbn. rewrite !length_insert. apply (lru_len _ _ Hlru).
    + unfold s3. rewrite bufAt_with by done. destruct (decide (i = j)) as [<-|E]; [done|].
      change (bufAt s2 j) with (bufAt s1 j). unfold s1. by rewrite bufAt_with, decide_False.
  - unfold table_ok. transitivity (length (k_proc s)); [apply length_map_procs|]. apply (ci_table _ _ _ _ Hinv).
  - destruct Hwoke as (_ & Hme & _). by transitivity (k_proc s !! me).
  - intros j Hj. unfold s3. rewrite bufAt_with, decide_False by done.
    change (bufAt s2 j) with (bufAt s1 j). unfold s1. by rewrite bufAt_with, decide_False.
  - intros j Hj. by rewrite lookup_delete_ne.
  - unfold cached. by rewrite E3.
  - rewrite lookup_delete_eq, E3, Hcnt. right. cbn. rewrite Hb, Hd. done.
  - intros j Hj. by eapply held_unique.
  - intros b Hc Hne. destruct Hne. by eapply held_cached.
  - apply (ci_disk _ _ _ _ Hinv).
Qed.

(** Relinking the list changes nothing a client sees. *)
Lemma cinv_relinked s s' l pins m held : cinv s pins m held → relinked s s' → lru s' l → cinv s' pins m held.
Proof.
  intros [_ Ht (p & Hp & Hb) Hdom Hu Hd Hpin] (E & _ & Hx) Hl.
  assert (∀ i, strip (bufAt s' i) = strip (bufAt s i)) as Hs.
  { intros i. destruct (Hx i) as (pv & nx & ->). done. }
  assert (∀ i b, cached s' i b ↔ cached s i b) as Hc.
  { intros i b. unfold cached. destruct (Hx i) as (pv & nx & ->). done. }
  constructor.
  - by exists l.
  - unfold table_ok. by rewrite E.
  - exists p. split; [by rewrite E|]. intros i Hi. rewrite <-buf_ok_strip, Hs, buf_ok_strip. by apply Hb.
  - done.
  - intros i j b. rewrite !Hc. apply Hu.
  - intros b Hnb. rewrite E. by apply Hd.
  - intros b Hb'. destruct (Hpin b Hb') as [i Hi]. exists i. by apply Hc.
Qed.

Lemma relinked_bframe s s' : relinked s s' → bframe me s s' ∧ k_disk s' = k_disk s ∧ k_writes s' = k_writes s.
Proof. intros (E & _ & _). rewrite E. split; [apply bframe_buf|done]. Qed.

Lemma brelse_wp s pins m held i bn :
  cinv s pins m held → held !! i = Some (bn, m bn) →
  wp (brelse me i) s
    (λ _ s', cinv s' pins m (delete i held) ∧ bframe me s s' ∧ k_disk s' = k_disk s ∧ k_writes s' = k_writes s).
Proof.
  intros Hinv Hh. unfold brelse. apply wp_bind. eapply wp_Ok; [by eapply holdingsleep_run|]. cbn [negb].
  destruct (brelse_unlock s pins m held i bn Hinv Hh) as (s1 & Hrun & Hinv1 & Hf1 & Hd1 & Hw1 & Href & Hc).
  apply bind_Ok in Hrun as ([] & s0 & Hr0 & Hr1). apply wp_bind. eapply wp_Ok; [exact Hr0|]. cbv beta.
  apply wp_bind. eapply wp_Ok; [exact Hr1|]. cbv beta.
  destruct (ci_lru _ _ _ _ Hinv1) as [l Hl]. destruct Hc as (Hi & _).
  assert (i < length (k_buf s1))%nat as Hr by (rewrite (lru_len _ _ Hl); unfold HEAD in Hi; lia).
  apply wp_bind. eapply wp_Ok; [by apply get_buf_run|]. cbv beta.
  destruct (Z.eqb_spec (b_refcnt (bufAt s1 i)) 0) as [E|E]; [|by apply wp_ret].
  assert (i ∈ l) as Hil by (by apply (lru_elem s1 l)). apply list_elem_of_split in Hil as (l1 & l2 & ->).
  destruct (unlink_run s1 l1 i l2 Hl) as (s2 & Hu & Hrel & Hn & Hv).
  destruct (push_front_run s2 i (l1 ++ l2)) as (s3 & Hp & Hrel2 & Hl3); [| |done|done|].
  - destruct Hrel as (_ & Hlen & _). unfold bufs_len. rewrite Hlen. apply (lru_len _ _ Hl).
  - rewrite <-(lru_perm _ _ Hl). apply Permutation_middle.
  - apply wp_bind. eapply wp_Ok; [exact Hu|]. cbv beta. eapply wp_Ok; [exact Hp|]. cbv beta.
    pose proof (relinked_trans _ _ _ Hrel Hrel2) as Hrel3.
    destruct (relinked_bframe _ _ Hrel3) as (Hf & Hd & Hw).
    split_and!; [by eapply cinv_relinked|by eapply bframe_trans|congruence..].
Qed.

(** ** Pinning *)

Lemma bpin_wp s pins m held i bn d :
  cinv s pins m held → held !! i = Some (bn, d) → bn ∉ pins →
  wp (bpin i) s
    (λ _ s', cinv s' ({[bn]} ∪ pins) (<[bn := d]> m) held ∧ bframe me s s' ∧
             k_disk s' = k_disk s ∧ k_writes s' = k_writes s).
Proof.
  intros Hinv Hh Hnp. destruct (ci_bufs _ _ _ _ Hinv) as (p & Hp & _).
  destruct (held_buf _ _ _ _ _ _ _ _ Hinv Hh Hp) as (Hi & Hr & Hdev & Hv & Href & Hb & Hd & Hl).
  eapply wp_Ok; [by apply upd_buf_run|]. cbv beta. split_and!; [|apply bframe_buf|done|done].
  eapply (cinv_with s _ i _ bn); [done..| | | | | |]; cbn.
  - done.
  - rewrite Hh. right. cbn. rewrite Hb, Href, Hd, decide_False, decide_True by set_solver. done.
  - intros j Hj. by eapply held_unique.
  - intros b Hne. split; [set_solver|]. by rewrite fn_lookup_insert_ne.
  - intros b Hc Hne. destruct Hne. by eapply held_cached.
  - intros b Hnb. rewrite fn_lookup_insert_ne by set_solver. apply (ci_disk _ _ _ _ Hinv). set_solver.
Qed.

(** A pinned block that is written again in the same transaction. *)
Lemma absorb s pins m held i bn d :
  cinv s pins m held → held !! i = Some (bn, d) → bn ∈ pins → cinv s pins (<[bn := d]> m) held.
Proof.
  intros Hinv Hh Hp. destruct (ci_bufs _ _ _ _ Hinv) as (p & Hpr & _).
  destruct (held_buf _ _ _ _ _ _ _ _ Hinv Hh Hpr) as (Hi & Hr & Hdev & Hv & Href & Hb & Hd & Hl).
  eapply (cinv_with s s i (bufAt s i) bn); try done.
  - rewrite list_insert_id; [done|]. by apply bufAt_lookup.
  - rewrite Hh. right. rewrite Hb, Href, Hd. done.
  - intros j Hj. by eapply held_unique.
  - intros b Hne. split; [done|]. by rewrite fn_lookup_insert_ne.
  - intros b Hc Hne. destruct Hne. by eapply held_cached.
  - intros b Hnb. rewrite fn_lookup_insert_ne by congruence. by apply (ci_disk _ _ _ _ Hinv).
Qed.

Lemma bunpin_wp s pins m held i bn d :
  cinv s pins m held → held !! i = Some (bn, d) → bn ∈ pins → disk_block (k_disk s) bn = m bn →
  wp (bunpin i) s
    (λ _ s', cinv s' (pins ∖ {[bn]}) m held ∧ bframe me s s' ∧
             k_disk s' = k_disk s ∧ k_writes s' = k_writes s).
Proof.
  intros Hinv Hh Hpn Hdk. destruct (ci_bufs _ _ _ _ Hinv) as (p & Hp & _).
  destruct (held_buf _ _ _ _ _ _ _ _ Hinv Hh Hp) as (Hi & Hr & Hdev & Hv & Href & Hb & Hd & Hl).
  eapply wp_Ok; [by apply upd_buf_run|]. cbv beta. split_and!; [|apply bframe_buf|done|done].
  eapply (cinv_with s _ i _ bn); [done..| | | | | |]; cbn.
  - done.
  - rewrite Hh. right. cbn. rewrite Hb, Href, Hd, decide_True, decide_False by set_solver. done.
  - intros j Hj. by eapply held_unique.
  - intros b Hne. split; [set_solver|done].
  - intros b Hc Hne. destruct Hne. by eapply held_cached.
  - intros b Hnb. destruct (decide (b = bn)) as [->|Hne]; [done|]. apply (ci_disk _ _ _ _ Hinv). set_solver.
Qed.

(** ** binit *)

(** The state in which the kernel starts: no buffer has been used. *)
Definition fresh_cache (s : kernel) : Prop :=
  k_buf s = replicate (S (Z.to_nat NBUF)) buf0 ∧ table_ok s ∧ is_Some (k_proc s !! me).

(** The buffers after [binit], with the data [d]. *)
Definition init_buf (d : block) (prev next : nat) : buf := Buf false false 0 0 sleeplock0 0 prev next d.
Definition init_bufs (d : block) : list buf :=
  ((λ i, init_buf d (if decide (i = 29) then 30 else S i) (if decide (i = 0) then 30 else pred i)) <$> seq 0 30)%nat
  ++ [init_buf d 0 29].

Lemma binit_run s d :
  k_buf s = replicate (S (Z.to_nat NBUF)) (init_buf d 0 0) → binit s = Ok (tt, set_k_buf (init_bufs d) s).
Proof.
  intros Hs. assert (s = set_k_buf (replicate (S (Z.to_nat NBUF)) (init_buf d 0 0)) s) as -> by (rewrite <-Hs; by destruct s).
  vm_compute. reflexivity.
Qed.

Lemma init_bufs_at d s i : k_buf s = init_bufs d → (i < HEAD)%nat → ∃ p n, bufAt s i = init_buf d p n.
Proof.
  intros Hs Hi. unfold bufAt. rewrite Hs. unfold init_bufs.
  rewrite lookup_app_l by (rewrite length_fmap, length_seq; exact Hi).
  rewrite list_lookup_fmap, lookup_seq_lt by exact Hi. cbn. eauto.
Qed.

Lemma init_lru d s : k_buf s = init_bufs d → lru s (reverse (seq 0 30)).
Proof.
  intros Hs. constructor.
  - unfold bufs_len. rewrite Hs. done.
  - rewrite reverse_Permutation. done.
  - unfold bufAt. rewrite Hs. vm_compute. done.
  - unfold bufAt. rewrite Hs. vm_compute. done.
Qed.

Lemma init_cinv s p :
  k_buf s = init_bufs zero_block → table_ok s → k_proc s !! me = Some p → cinv s ∅ (disk_block (k_disk s)) ∅.
Proof.
  intros Hb Ht Hp. assert (∀ i bn, ¬ cached s i bn) as Hno.
  { intros i bn (Hi & Hd & _). destruct (init_bufs_at zero_block s i Hb Hi) as (pv & nx & E).
    by rewrite E in Hd. }
  constructor.
  - eexists. by apply (init_lru zero_block).
  - exact Ht.
  - exists p. split; [done|]. intros i Hi. destruct (init_bufs_at zero_block s i Hb Hi) as (pv & nx & ->). by left.
  - intros i [? Hx]. by rewrite lookup_empty in Hx.
  - intros i j bn Hc. by destruct (Hno i bn).
  - done.
  - intros bn Hin. set_solver.
Qed.

Lemma binit_wp s :
  fresh_cache s →
  wp binit s (λ _ s', s' = set_k_buf (k_buf s') s ∧ cinv s' ∅ (disk_block (k_disk s)) ∅).
Proof.
  intros (Hb & Ht & [p Hp]). eapply wp_Ok; [by apply (binit_run s zero_block)|]. cbv beta.
  split; [done|]. by apply (init_cinv (set_k_buf (init_bufs zero_block) s) p).
Qed.
End cache.
