(* ===== verification/Block.v ===== *)
(** Disk blocks as sequences of bytes, with the little-endian integers the file
    system keeps in them: the C code casts [bp->data] to a pointer to a
    structure and reads or writes its fields. *)

From S2P Require Import Prelude Riscv Mem Str Kalloc Vm State.

(** The bytes of an integer and back. *)
Fixpoint le_bytes (n : nat) (v : Z) : list Z :=
  match n with
  | O => []
  | S n' => u8 v :: le_bytes n' (v / 256)
  end.

Fixpoint le_val (l : list Z) : Z :=
  match l with
  | [] => 0
  | b :: l' => b + 256 * le_val l'
  end.

(** Load and store a field at offset [o]. *)
Definition get32 (d : block) (o : nat) : Z := le_val (take 4 (drop o d)).
Definition put32 (d : block) (o : nat) (v : Z) : block := list_inserts o (le_bytes 4 v) d.
Definition get16 (d : block) (o : nat) : Z := le_val (take 2 (drop o d)).
Definition put16 (d : block) (o : nat) (v : Z) : block := list_inserts o (le_bytes 2 v) d.

(** [int] and [short] fields. *)
Definition geti32 (d : block) (o : nat) : Z := i32 (get32 d o).
Definition geti16 (d : block) (o : nat) : Z := i16 (get16 d o).

(** * Lemmas *)

Lemma length_le_bytes n v : length (le_bytes n v) = n.
Proof. revert v. induction n as [|n IH]; intros v; cbn; [done|]. by rewrite IH. Qed.

Lemma bytes_le_bytes n v : bytes (le_bytes n v).
Proof. revert v. induction n as [|n IH]; intros v; constructor; [apply u8_range|apply IH]. Qed.

Lemma le_val_bytes n v : le_val (le_bytes n v) = v mod 256 ^ Z.of_nat n.
Proof.
  revert v. induction n as [|n IH]; intros v; cbn [le_bytes le_val]; [by rewrite Z.mod_1_r|].
  rewrite IH, Nat2Z.inj_succ, Z.pow_succ_r by lia. rewrite Z.rem_mul_r by lia.
  unfold u8. change (2 ^ 8) with 256. lia.
Qed.

Lemma le_val_range l : bytes l → 0 ≤ le_val l < 256 ^ Z.of_nat (length l).
Proof.
  induction 1 as [|b l Hb _ IH]; cbn [le_val length]; [done|].
  rewrite Nat2Z.inj_succ, Z.pow_succ_r by lia. lia.
Qed.

Lemma take_drop_inserts {A} (k d : list A) o :
  (o + length k ≤ length d)%nat → take (length k) (drop o (list_inserts o k d)) = k.
Proof.
  intros Hl. apply list_eq. intros i. destruct (decide (i < length k)%nat) as [Hi|Hi].
  - rewrite lookup_take_lt, lookup_drop by done. rewrite list_lookup_inserts by lia. f_equal. lia.
  - rewrite lookup_take_ge by lia. symmetry. apply lookup_ge_None_2. lia.
Qed.

Lemma take_drop_inserts_ne {A} (k d : list A) o o' n :
  (o' + n ≤ o)%nat ∨ (o + length k ≤ o')%nat → take n (drop o' (list_inserts o k d)) = take n (drop o' d).
Proof.
  intros Hd. apply list_eq. intros i. destruct (decide (i < n)%nat) as [Hi|Hi].
  - rewrite !lookup_take_lt, !lookup_drop by done. destruct Hd.
    + apply list_lookup_inserts_lt. lia.
    + apply list_lookup_inserts_ge. lia.
  - by rewrite !lookup_take_ge by lia.
Qed.

Lemma get32_put32 d o v : (o + 4 ≤ length d)%nat → get32 (put32 d o v) o = u32 v.
Proof.
  intros Hl. unfold get32, put32. rewrite <-(length_le_bytes 4 v) at 1.
  by rewrite take_drop_inserts, le_val_bytes by (by rewrite length_le_bytes).
Qed.
Lemma get32_put32_ne d o o' v :
  (o' + 4 ≤ o)%nat ∨ (o + 4 ≤ o')%nat → get32 (put32 d o v) o' = get32 d o'.
Proof. intros Hd. unfold get32, put32. by rewrite take_drop_inserts_ne by (by rewrite length_le_bytes). Qed.
Lemma get16_put16 d o v : (o + 2 ≤ length d)%nat → get16 (put16 d o v) o = u16 v.
Proof.
  intros Hl. unfold get16, put16. rewrite <-(length_le_bytes 2 v) at 1.
  by rewrite take_drop_inserts, le_val_bytes by (by rewrite length_le_bytes).
Qed.
Lemma length_put32 d o v : length (put32 d o v) = length d.
Proof. apply length_inserts. Qed.
Lemma length_put16 d o v : length (put16 d o v) = length d.
Proof. apply length_inserts. Qed.

Lemma i32_u32 v : - 2 ^ 31 ≤ v < 2 ^ 31 → i32 (u32 v) = v.
Proof. intros Hv. unfold i32, u32. rewrite Zplus_mod_idemp_l, Z.mod_small by lia. lia. Qed.
Lemma i16_u16 v : - 2 ^ 15 ≤ v < 2 ^ 15 → i16 (u16 v) = v.
Proof. intros Hv. unfold i16, u16. rewrite Zplus_mod_idemp_l, Z.mod_small by lia. lia. Qed.

Lemma geti32_put32 d o v : (o + 4 ≤ length d)%nat → - 2 ^ 31 ≤ v < 2 ^ 31 → geti32 (put32 d o v) o = v.
Proof. intros Hl Hv. unfold geti32. rewrite get32_put32 by done. by apply i32_u32. Qed.
Lemma geti16_put16 d o v : (o + 2 ≤ length d)%nat → - 2 ^ 15 ≤ v < 2 ^ 15 → geti16 (put16 d o v) o = v.
Proof. intros Hl Hv. unfold geti16. rewrite get16_put16 by done. by apply i16_u16. Qed.
