(* ===== verification/Log.v ===== *)
(** The redo log, [kernel/log.c].

    A file system call runs between [begin_op] and [end_op]; the blocks it
    writes with [log_write] stay in the cache until the last call in progress
    ends, when [commit] writes them to the log, writes the header (the commit
    point), copies them to their home locations and clears the header.
    [begin_op] that has to wait is the outcome [Sleep] on the log: it has
    changed nothing and starts again when woken.  While [committing] is set no
    file system call can start, so [commit] is one step of the model. *)

From S2P Require Import Prelude Riscv Mem Str Kalloc Vm State Sched Procmem Console Sleeplock Bio Block.

Definition log_chan : channel := ("log", 0).

(** [log.lh.block[i]]. *)
Definition lh_block (i : nat) : M kernel Z := λ s,
  match l_block (k_log s) !! i with
  | Some b => Ok (b, s)
  | None => UB
  end.
Definition set_lh_block (i : nat) (b : Z) : M kernel unit := λ s,
  if decide (i < length (l_block (k_log s)))%nat
  then Ok (tt, set_k_log (set_l_block (<[i := b]> (l_block (k_log s))) (k_log s)) s)
  else UB.

(** The indices of [for(i = 0; i < log.lh.n; i++)]. *)
Definition lh_indices : M kernel (list nat) := gets (λ s, seq 0 (Z.to_nat (l_n (k_log s)))).

(** Offset of [block[i]] in the header block. *)
Definition block_off (i : nat) : nat := 4 + 4 * i.

Section log.
Context (me : nat).

Definition recover_msg : list Z := str "recovering tail %d dst %d" ++ [10].

Definition install_body (recovering : bool) (tail : nat) : M kernel unit :=
  (if recovering then
     b ← lh_block tail;
     printf recover_msg [Num (Z.of_nat tail); Num b]
   else mret tt) ;;
  l ← gets k_log;
  lbuf ← bread me (u32 (l_dev l)) (u32 (l_start l + Z.of_nat tail + 1));
  b ← lh_block tail;
  dbuf ← bread me (u32 (l_dev l)) (u32 b);
  x ← get_buf lbuf;
  upd_buf dbuf (set_b_data (b_data x)) ;;
  bwrite me dbuf ;;
  (if recovering then mret tt else bunpin dbuf) ;;
  brelse me lbuf ;;
  brelse me dbuf.

(** Copy committed blocks from log to their home location. *)
Definition install_trans (recovering : bool) : M kernel unit :=
  l ← lh_indices;
  foreach l (install_body recovering).

Definition read_head : M kernel unit :=
  l ← gets k_log;
  buf ← bread me (u32 (l_dev l)) (u32 (l_start l));
  x ← get_buf buf;
  upd_log (set_l_n (geti32 (b_data x) 0)) ;;
  l ← lh_indices;
  foreach l (λ i, set_lh_block i (geti32 (b_data x) (block_off i))) ;;
  brelse me buf.

(** This is the true point at which the current transaction commits. *)
Definition write_head : M kernel unit :=
  l ← gets k_log;
  buf ← bread me (u32 (l_dev l)) (u32 (l_start l));
  upd_buf buf (λ x, set_b_data (put32 (b_data x) 0 (l_n l)) x) ;;
  ix ← lh_indices;
  foreach ix (λ i,
    b ← lh_block i;
    upd_buf buf (λ x, set_b_data (put32 (b_data x) (block_off i) b) x)) ;;
  bwrite me buf ;;
  brelse me buf.

Definition recover_from_log : M kernel unit :=
  read_head ;;
  install_trans true ;;
  upd_log (set_l_n 0) ;;
  write_head.

Definition initlog (dev : Z) (sb : superblock) : M kernel unit :=
  if BSIZE <=? 4 + 4 * LOGBLOCKS then panic "initlog: too big logheader"
  else
    upd_log (set_l_start (i32 (sb_logstart sb))) ;;
    upd_log (set_l_dev dev) ;;
    recover_from_log.

Definition begin_op : M kernel unit :=
  l ← gets k_log;
  if l_committing l then sleep_on log_chan
  else if l_n l + (l_outstanding l + 1) * MAXOPBLOCKS >? LOGBLOCKS then
    (* this op might exhaust log space; wait for commit. *)
    sleep_on log_chan
  else
    o ← add_int (l_outstanding l) 1;
    upd_log (set_l_outstanding o).

Definition write_log_body (tail : nat) : M kernel unit :=
  l ← gets k_log;
  to ← bread me (u32 (l_dev l)) (u32 (l_start l + Z.of_nat tail + 1));
  b ← lh_block tail;
  from ← bread me (u32 (l_dev l)) (u32 b);
  x ← get_buf from;
  upd_buf to (set_b_data (b_data x)) ;;
  bwrite me to ;;
  brelse me from ;;
  brelse me to.

(** Copy modified blocks from cache to log. *)
Definition write_log : M kernel unit :=
  l ← lh_indices;
  foreach l write_log_body.

Definition commit : M kernel unit :=
  l ← gets k_log;
  if 0 <? l_n l then
    write_log ;;
    write_head ;;
    install_trans false ;;
    upd_log (set_l_n 0) ;;
    write_head
  else mret tt.

Definition end_op : M kernel unit :=
  l ← gets k_log;
  o ← add_int (l_outstanding l) (-1);
  upd_log (set_l_outstanding o) ;;
  if l_committing l then panic "log.committing"
  else if o =? 0 then
    upd_log (set_l_committing true) ;;
    commit ;;
    upd_log (set_l_committing false) ;;
    wakeup (Some me) log_chan
  else
    (* begin_op() may be waiting for log space. *)
    wakeup (Some me) log_chan.

(** The search for the block in the header: [i == log.lh.n] if it is not there. *)
Definition absorb_body (n blockno : Z) (i : nat) : M kernel (nat + nat) :=
  if Z.of_nat i <? n then
    b ← lh_block i;
    if u32 b =? blockno then mret (inr i) else mret (inl (S i))
  else mret (inr i).

Definition log_write (b : nat) : M kernel unit :=
  l ← gets k_log;
  if LOGBLOCKS <=? l_n l then panic "too big a transaction"
  else if l_outstanding l <? 1 then panic "log_write outside of trans"
  else
    x ← get_buf b;
    i ← loop (S (Z.to_nat (l_n l))) (absorb_body (l_n l) (b_blockno x)) O;
    set_lh_block i (i32 (b_blockno x)) ;;
    if Z.of_nat i =? l_n l then
      (* Add new block to log? *)
      bpin b ;;
      upd_log (λ l, set_l_n (l_n l + 1) l)
    else mret tt.
End log.
