(* ===== verification/LogSpec.v ===== *)
(** The log makes a transaction atomic.

    [commit] issues four groups of disk writes: the modified blocks to the log,
    the header, the blocks to their home locations, and the cleared header.
    Whatever prefix of them has reached the disk when the machine stops, the
    recovery that runs at the next boot leaves either the old contents of every
    block or the new contents of every block. *)

From stdpp Require Import functions.
From S2P Require Import Prelude Riscv Mem Str Kalloc Vm State Sched SchedSpec Procmem Console ConsoleSpec Sleeplock Bio BioSpec Cache Block Log.

(** * Sequences of disk writes *)

(** The disk after a list of writes, the first one first. *)
Definition write_all (ws : list (Z * block)) (d : gmap Z block) : gmap Z block :=
  foldl (λ d w, <[w.1 := w.2]> d) d ws.
Definition upd_all (ws : list (Z * block)) (m : Z → block) : Z → block :=
  foldl (λ m w, <[w.1 := w.2]> m) m ws.

Lemma write_all_app ws1 ws2 d : write_all (ws1 ++ ws2) d = write_all ws2 (write_all ws1 d).
Proof. apply foldl_app. Qed.
Lemma upd_all_app ws1 ws2 m : upd_all (ws1 ++ ws2) m = upd_all ws2 (upd_all ws1 m).
Proof. apply foldl_app. Qed.

Lemma disk_block_write_all ws d b : disk_block (write_all ws d) b = upd_all ws (disk_block d) b.
Proof.
  induction ws as [|[b' x] ws IH] using rev_ind; [done|].
  rewrite write_all_app, upd_all_app. cbn. unfold disk_block at 1.
  destruct (decide (b' = b)) as [->|Hne].
  - by rewrite lookup_insert_eq, fn_lookup_insert.
  - rewrite lookup_insert_ne, fn_lookup_insert_ne by done. exact IH.
Qed.

Lemma upd_all_other ws m b : b ∉ ws.*1 → upd_all ws m b = m b.
Proof.
  induction ws as [|[b' x] ws IH] using rev_ind; [done|].
  rewrite fmap_app, upd_all_app. cbn. intros Hb. rewrite fn_lookup_insert_ne by set_solver. apply IH. set_solver.
Qed.

Lemma upd_all_ext ws m m' b : m b = m' b → upd_all ws m b = upd_all ws m' b.
Proof.
  intros Hm. induction ws as [|[b' x] ws IH] using rev_ind; [done|].
  rewrite !upd_all_app. cbn. destruct (decide (b' = b)) as [->|Hne].
  - by rewrite !fn_lookup_insert.
  - by rewrite !fn_lookup_insert_ne.
Qed.

(** Writes whose data are the contents [m] already prescribes. *)
Lemma upd_all_in ws m m' b :
  (∀ w, w ∈ ws → w.2 = m' w.1) → b ∈ ws.*1 → upd_all ws m b = m' b.
Proof.
  induction ws as [|[b' x] ws IH] using rev_ind; intros Hw Hb; [by apply elem_of_nil in Hb|].
  rewrite upd_all_app. cbn. destruct (decide (b' = b)) as [->|Hne].
  - rewrite fn_lookup_insert. apply (Hw (b, x)). apply elem_of_app. right. by apply list_elem_of_singleton.
  - rewrite fn_lookup_insert_ne by done. apply IH.
    + intros w Hin. apply Hw, elem_of_app. by left.
    + rewrite fmap_app, elem_of_app in Hb. cbn in Hb. destruct Hb as [Hb|Hb]; [done|].
      apply list_elem_of_singleton in Hb. congruence.
Qed.

(** * Frames *)

Lemma cinv_same me s s' pins m held :
  k_buf s' = k_buf s → k_proc s' = k_proc s → k_disk s' = k_disk s → cinv me s pins m held → cinv me s' pins m held.
Proof.
  intros Eb Ep Ed [Hl Ht Hb Hdom Hu Hd Hp].
  assert (∀ i, bufAt s' i = bufAt s i) as Hat by (intros i; unfold bufAt; by rewrite Eb).
  assert (∀ i b, cached s' i b ↔ cached s i b) as Hc by (intros i b; unfold cached; by rewrite Hat).
  constructor.
  - destruct Hl as [l Hl]. exists l. eapply lru_ext; [|intros i Hi; by rewrite Hat|exact Hl].
    unfold bufs_len. rewrite Eb. apply (lru_len _ _ Hl).
  - unfold table_ok. by rewrite Ep.
  - rewrite Ep. destruct Hb as (p & Hp' & Hb). exists p. split; [done|]. intros i Hi. rewrite Hat. by apply Hb.
  - done.
  - intros i j bn. rewrite !Hc. apply Hu.
  - by rewrite Ed.
  - intros bn Hbn. destruct (Hp bn Hbn) as [i Hi]. exists i. by apply Hc.
Qed.

(** The cache only depends on the contents of blocks. *)
Lemma cinv_ext me s pins m m' held : (∀ b, m b = m' b) → cinv me s pins m held → cinv me s pins m' held.
Proof.
  intros E [Hl Ht (p & Hp & Hb) Hdom Hu Hd Hpin]. constructor; try done.
  - exists p. split; [done|]. intros i Hi. specialize (Hb i Hi). unfold buf_ok in *.
    destruct Hb as [?|(?&?&?&Hh)]; [by left|right]. split_and!; try done. destruct (held !! i) as [[]|]; [done|].
    by rewrite <-E.
  - intros b Hb'. rewrite <-E. by apply Hd.
Qed.

Section spec.
Context (me : nat).

(** Only the log, console output, the cache, the disk and sleeping processes
    differ, and the disk has completed the writes [ws]. *)
Definition did (ws : list (Z * block)) (s s' : kernel) : Prop :=
  s' = set_k_log (k_log s') (set_k_cons (k_cons s') (set_k_proc (k_proc s') (set_k_buf (k_buf s')
         (set_k_disk (k_disk s') (set_k_writes (k_writes s') s))))) ∧
  woke me (k_proc s) (k_proc s') ∧
  k_disk s' = write_all ws (k_disk s) ∧ k_writes s' = reverse ws ++ k_writes s.

Lemma did_refl s : did [] s s.
Proof. split_and!; [by destruct s|apply woke_refl|done|done]. Qed.

Lemma did_trans ws1 ws2 s1 s2 s3 : did ws1 s1 s2 → did ws2 s2 s3 → did (ws1 ++ ws2) s1 s3.
Proof.
  intros (E1 & W1 & D1 & X1) (E2 & W2 & D2 & X2). split_and!.
  - rewrite E2, E1. reflexivity.
  - by eapply woke_trans.
  - by rewrite write_all_app, D2, D1.
  - by rewrite reverse_app, <-app_assoc, X2, X1.
Qed.

Lemma did_trans_nil ws s1 s2 s3 : did ws s1 s2 → did [] s2 s3 → did ws s1 s3.
Proof. intros H1 H2. rewrite <-(app_nil_r ws). by eapply did_trans. Qed.

Lemma did_frame s s' : bframe me s s' ∧ k_disk s' = k_disk s ∧ k_writes s' = k_writes s → did [] s s' ∧ k_log s' = k_log s.
Proof.
  intros ((E & W) & D & X). split; [|by rewrite E]. split_and!; [|done|done|done].
  rewrite E. by destruct s.
Qed.

Lemma did_write s s' b d :
  bframe me s s' → k_disk s' = <[b := d]> (k_disk s) → k_writes s' = (b, d) :: k_writes s →
  did [(b, d)] s s' ∧ k_log s' = k_log s.
Proof. intros (E & W) D X. split; [|by rewrite E]. split_and!; [|done|done|done]. rewrite E. by destruct s. Qed.

Lemma did_log s l : did [] s (set_k_log l s).
Proof. split_and!; [by destruct s|apply woke_refl|done|done]. Qed.

(** * The rules of the cache, in terms of [did] *)

Lemma bread_did s pins m held bn :
  cinv me s pins m held → not_held held bn → bn ∈ pins ∨ (size pins + size held < Z.to_nat NBUF)%nat →
  wp (bread me ROOTDEV bn) s
    (λ i s', held !! i = None ∧ cinv me s' pins m (<[i := (bn, m bn)]> held) ∧ did [] s s' ∧ k_log s' = k_log s).
Proof.
  intros H1 H2 H3. eapply wp_mono; [by apply bread_wp|]. cbv beta. intros i s' (Hi & Hc & Hf).
  split_and!; [done|done|by apply did_frame..].
Qed.

Lemma brelse_did s pins m held i bn :
  cinv me s pins m held → held !! i = Some (bn, m bn) →
  wp (brelse me i) s (λ _ s', cinv me s' pins m (delete i held) ∧ did [] s s' ∧ k_log s' = k_log s).
Proof.
  intros H1 H2. eapply wp_mono; [by eapply brelse_wp|]. cbv beta. intros [] s' (Hc & Hf).
  split_and!; [done|by apply did_frame..].
Qed.

Lemma bwrite_did s pins m held i bn d :
  cinv me s pins m held → held !! i = Some (bn, d) →
  wp (bwrite me i) s
    (λ _ s', cinv me s' pins (<[bn := d]> m) held ∧ did [(bn, d)] s s' ∧ k_log s' = k_log s).
Proof.
  intros H1 H2. eapply wp_mono; [by eapply bwrite_wp|]. cbv beta. intros [] s' (Hc & Hf & Hd & Hw).
  split; [done|]. by apply did_write.
Qed.

Lemma set_data_did s pins m held i bn d d' :
  cinv me s pins m held → held !! i = Some (bn, d) →
  wp (upd_buf i (set_b_data d')) s
    (λ _ s', cinv me s' pins m (<[i := (bn, d')]> held) ∧ did [] s s' ∧ k_log s' = k_log s).
Proof.
  intros H1 H2. eapply wp_mono; [by eapply (upd_data_wp _ _ _ _ _ _ _ _ (λ _, d'))|]. cbv beta.
  intros [] s' (Hc & Hf). split_and!; [done|by apply did_frame..].
Qed.

Lemma upd_data_did s pins m held i bn d g :
  cinv me s pins m held → held !! i = Some (bn, d) →
  wp (upd_buf i (λ x, set_b_data (g (b_data x)) x)) s
    (λ _ s', cinv me s' pins m (<[i := (bn, g d)]> held) ∧ did [] s s' ∧ k_log s' = k_log s).
Proof.
  intros H1 H2. eapply wp_mono; [by eapply upd_data_wp|]. cbv beta.
  intros [] s' (Hc & Hf). split_and!; [done|by apply did_frame..].
Qed.

Lemma bunpin_did s pins m held i bn d :
  cinv me s pins m held → held !! i = Some (bn, d) → bn ∈ pins → disk_block (k_disk s) bn = m bn →
  wp (bunpin i) s (λ _ s', cinv me s' (pins ∖ {[bn]}) m held ∧ did [] s s' ∧ k_log s' = k_log s).
Proof.
  intros H1 H2 H3 H4. eapply wp_mono; [by eapply bunpin_wp|]. cbv beta. intros [] s' (Hc & Hf).
  split_and!; [done|by apply did_frame..].
Qed.

(** * The header block *)

Definition head_list (d : block) : list Z :=
  (λ i, geti32 d (block_off i)) <$> seq 0 (Z.to_nat (geti32 d 0)).

(** The header with the in-memory copy [bl] written over it. *)
Definition put_entries (bl : list Z) (d : block) : block :=
  foldl (λ d e, put32 d (block_off e.1) e.2) d (imap pair bl).
Definition set_head (bl : list Z) (d : block) : block := put_entries bl (put32 d 0 (Z.of_nat (length bl))).

Lemma put_entries_snoc bl b d : put_entries (bl ++ [b]) d = put32 (put_entries bl d) (block_off (length bl)) b.
Proof.
  unfold put_entries. rewrite imap_app, foldl_app.
  change (put32 (put_entries bl d) (block_off (length bl + 0)) b = put32 (put_entries bl d) (block_off (length bl)) b).
  by rewrite Nat.add_0_r.
Qed.

Lemma length_put_entries bl d : length (put_entries bl d) = length d.
Proof.
  induction bl as [|b bl IH] using rev_ind; [done|]. by rewrite put_entries_snoc, length_put32.
Qed.
Lemma length_set_head bl d : length (set_head bl d) = length d.
Proof. unfold set_head. by rewrite length_put_entries, length_put32. Qed.

Lemma put_entries_n bl d : geti32 (put_entries bl d) 0 = geti32 d 0.
Proof.
  induction bl as [|b bl IH] using rev_ind; [done|].
  rewrite put_entries_snoc. unfold geti32. rewrite get32_put32_ne by (unfold block_off; lia). exact IH.
Qed.

Lemma put_entries_at bl d i b :
  (4 + 4 * length bl ≤ length d)%nat → Forall (λ b, 0 ≤ b < 2 ^ 31) bl → bl !! i = Some b →
  geti32 (put_entries bl d) (block_off i) = b.
Proof.
  induction bl as [|c bl IH] using rev_ind; intros Hl Hr Hi; [done|].
  rewrite length_app in Hl. cbn [length] in Hl. apply Forall_app in Hr as [Hr [Hc _]%Forall_cons].
  rewrite put_entries_snoc. apply lookup_app_Some in Hi as [Hi|[Hge Hi]].
  - apply lookup_lt_Some in Hi as Hlt. unfold geti32. rewrite get32_put32_ne by (unfold block_off; lia).
    apply IH; [lia|done|done].
  - apply list_lookup_singleton_Some in Hi as [Hi <-]. replace i with (length bl) by lia.
    apply geti32_put32; [rewrite length_put_entries; unfold block_off; lia|lia].
Qed.

Lemma head_list_set_head bl d :
  length d = Z.to_nat BSIZE → (length bl ≤ Z.to_nat LOGBLOCKS)%nat → Forall (λ b, 0 ≤ b < 2 ^ 31) bl →
  geti32 (set_head bl d) 0 = Z.of_nat (length bl) ∧ head_list (set_head bl d) = bl.
Proof.
  intros Hd Hl Hr. change (Z.to_nat BSIZE) with 1024%nat in Hd. change (Z.to_nat LOGBLOCKS) with 30%nat in Hl.
  assert (geti32 (set_head bl d) 0 = Z.of_nat (length bl)) as Hn.
  { unfold set_head. rewrite put_entries_n. apply geti32_put32; lia. }
  split; [done|]. unfold head_list. rewrite Hn, Nat2Z.id. apply list_eq. intros i. rewrite list_lookup_fmap.
  destruct (decide (i < length bl)%nat) as [Hi|Hi].
  - destruct (lookup_lt_is_Some_2 bl i Hi) as [b Hb]. rewrite lookup_seq_lt by done. cbn. rewrite Hb. f_equal.
    apply put_entries_at; [rewrite length_put32; lia|done|done].
  - rewrite lookup_seq_ge by lia. cbn. symmetry. apply lookup_ge_None_2. lia.
Qed.

(** * The log in memory *)

Record linv (l : log) (start : Z) (bl : list Z) : Prop := {
  li_start : l_start l = start;
  li_dev : l_dev l = ROOTDEV;
  li_n : l_n l = Z.of_nat (length bl);
  li_blk : take (length bl) (l_block l) = bl;
  li_len : length (l_block l) = Z.to_nat LOGBLOCKS;
}.

Definition layout (start : Z) : Prop := 0 ≤ start ∧ start + LOGBLOCKS < 2 ^ 31.
(** A block outside the log. *)
Definition home (start b : Z) : Prop := ¬ (start ≤ b ≤ start + LOGBLOCKS).
Definition blocks_ok (start : Z) (bl : list Z) : Prop :=
  NoDup bl ∧ (length bl ≤ Z.to_nat LOGBLOCKS)%nat ∧ Forall (λ b, 0 ≤ b < 2 ^ 31 ∧ home start b) bl.

Lemma lh_block_run s start bl i b :
  linv (k_log s) start bl → bl !! i = Some b → lh_block i s = Ok (b, s).
Proof.
  intros [_ _ _ Hb _] Hi. unfold lh_block. rewrite <-Hb in Hi.
  apply lookup_take_Some in Hi as [-> _]. done.
Qed.

Lemma lh_indices_run s start bl : linv (k_log s) start bl → lh_indices s = Ok (seq 0 (length bl), s).
Proof. intros Hl. unfold lh_indices, gets. by rewrite (li_n _ _ _ Hl), Nat2Z.id. Qed.

Lemma write_head_wp s pins m start bl :
  cinv me s pins m ∅ → linv (k_log s) start bl → layout start → (size pins < Z.to_nat NBUF)%nat →
  wp (write_head me) s
    (λ _ s', let h := set_head bl (m start) in
             cinv me s' pins (<[start := h]> m) ∅ ∧ did [(start, h)] s s' ∧ k_log s' = k_log s).
Proof.
  intros Hc Hl [Hs1 Hs2] Hsz. unfold write_head. apply wp_bind, wp_gets.
  rewrite (li_dev _ _ _ Hl), (li_start _ _ _ Hl), (li_n _ _ _ Hl).
  rewrite (u32_small start) by (unfold LOGBLOCKS, MAXOPBLOCKS in *; lia). change (u32 ROOTDEV) with ROOTDEV.
  apply wp_bind. eapply wp_mono; [eapply bread_did; [done|by intros ??|right; by rewrite map_size_empty, Nat.add_0_r]|].
  cbv beta. intros i s1 (_ & Hc1 & Hd1 & El1). rewrite <-El1 in Hl.
  apply wp_bind. eapply wp_mono;
    [eapply (upd_data_did _ _ _ _ _ _ _ (λ d, put32 d 0 (Z.of_nat (length bl)))); [done|apply lookup_insert_eq]|].
  cbv beta. intros [] s2 (Hc2 & Hd2 & El2). rewrite <-El2 in Hl. rewrite insert_insert_eq in Hc2.
  apply wp_bind. eapply wp_Ok; [by eapply lh_indices_run|]. cbv beta.
  apply wp_bind. apply (wp_foreach_seq (λ k s',
      cinv me s' pins m {[i := (start, put_entries (take k bl) (put32 (m start) 0 (Z.of_nat (length bl))))]} ∧
      did [] s s' ∧ k_log s' = k_log s)).
  - split_and!; [done|by eapply did_trans_nil|congruence].
  - intros k s3 Hk (Hc3 & Hd3 & El3). destruct (lookup_lt_is_Some_2 bl k Hk) as [b Hb].
    assert (linv (k_log s3) start bl) as Hl3 by (by rewrite El3, <-El1, <-El2).
    apply wp_bind. eapply wp_Ok; [by eapply lh_block_run|]. cbv beta.
    eapply wp_mono; [eapply (upd_data_did _ _ _ _ _ _ _ (λ d, put32 d (block_off k) b)); [done|apply lookup_insert_eq]|].
    cbv beta. intros [] s4 (Hc4 & Hd4 & El4). rewrite insert_singleton_eq in Hc4.
    split_and!; [|by eapply did_trans_nil|congruence].
    rewrite (take_S_r _ _ _ Hb), put_entries_snoc, length_take_le by lia. exact Hc4.
  - intros s3 (Hc3 & Hd3 & El3). rewrite take_ge in Hc3 by lia. fold (set_head bl (m start)) in Hc3.
    apply wp_bind. eapply wp_mono; [eapply bwrite_did; [done|apply lookup_insert_eq]|].
    cbv beta. intros [] s4 (Hc4 & Hd4 & El4).
    eapply wp_mono; [eapply brelse_did; [done|rewrite fn_lookup_insert; apply lookup_insert_eq]|].
    cbv beta. intros [] s5 (Hc5 & Hd5 & El5). rewrite delete_singleton_eq in Hc5.
    split_and!; [done| |congruence]. eapply did_trans_nil; [|done]. change [(start, set_head bl (m start))] with ([] ++ [(start, set_head bl (m start))]).
    by eapply did_trans.
Qed.

(** * The phases of a commit *)

(** The writes of [write_log] and of [install_trans]. *)
Definition log_addr (start : Z) (i : nat) : Z := start + Z.of_nat i + 1.
Definition log_writes (start : Z) (m : Z → block) (bl : list Z) : list (Z * block) :=
  imap (λ i b, (log_addr start i, m b)) bl.
Definition install_writes (start : Z) (m : Z → block) (bl : list Z) : list (Z * block) :=
  imap (λ i b, (b, m (log_addr start i))) bl.

Lemma imap_take_S {A B} (f : nat → A → B) l k x :
  l !! k = Some x → imap f (take (S k) l) = imap f (take k l) ++ [f k x].
Proof.
  intros Hk. rewrite (take_S_r _ _ _ Hk), imap_app. f_equal. change ([f (length (take k l) + 0)%nat x] = [f k x]).
  apply lookup_lt_Some in Hk as Hlt. by rewrite Nat.add_0_r, length_take_le by lia.
Qed.

Lemma elem_of_log_writes start m bl w :
  w ∈ log_writes start m bl ↔ ∃ i b, bl !! i = Some b ∧ w = (log_addr start i, m b).
Proof.
  unfold log_writes. rewrite elem_of_lookup_imap. naive_solver.
Qed.
Lemma elem_of_install_writes start m bl w :
  w ∈ install_writes start m bl ↔ ∃ i b, bl !! i = Some b ∧ w = (b, m (log_addr start i)).
Proof.
  unfold install_writes. rewrite elem_of_lookup_imap. naive_solver.
Qed.
Lemma install_writes_blocks start m bl : (install_writes start m bl).*1 = bl.
Proof. unfold install_writes. rewrite fmap_imap. apply list_eq. intros i. rewrite list_lookup_imap. by destruct (bl !! i). Qed.

Lemma log_addr_range start bl i b :
  layout start → blocks_ok start bl → bl !! i = Some b →
  0 ≤ log_addr start i < 2 ^ 31 ∧ start < log_addr start i ≤ start + LOGBLOCKS ∧
  0 ≤ b < 2 ^ 31 ∧ home start b ∧ b ≠ log_addr start i.
Proof.
  intros [H1 H2] (_ & Hl & Hb) Hi. apply lookup_lt_Some in Hi as Hlt.
  rewrite Forall_lookup in Hb. destruct (Hb i b Hi) as [Hr Hh]. unfold log_addr, home, LOGBLOCKS, MAXOPBLOCKS in *. lia.
Qed.

(** Writing to the log leaves the other blocks alone. *)
Lemma log_writes_home start m m0 bl b :
  (length bl ≤ Z.to_nat LOGBLOCKS)%nat → home start b → upd_all (log_writes start m0 bl) m b = m b.
Proof.
  intros Hl Hh. apply upd_all_other. intros (w & -> & Hw)%list_elem_of_fmap.
  apply elem_of_log_writes in Hw as (i & b' & Hi & ->). apply lookup_lt_Some in Hi.
  apply Hh. unfold log_addr, LOGBLOCKS, MAXOPBLOCKS in *. cbn. lia.
Qed.

Lemma write_log_body_wp s pins m start bl k b :
  cinv me s pins m ∅ → linv (k_log s) start bl → layout start → blocks_ok start bl →
  bl !! k = Some b → b ∈ pins → (size pins < Z.to_nat NBUF)%nat →
  wp (write_log_body me k) s
    (λ _ s', cinv me s' pins (<[log_addr start k := m b]> m) ∅ ∧ did [(log_addr start k, m b)] s s' ∧ k_log s' = k_log s).
Proof.
  intros Hc Hl Hlay Hok Hb Hp Hsz. destruct (log_addr_range _ _ _ _ Hlay Hok Hb) as (Ha & Hin & Hr & Hh & Hne).
  unfold write_log_body. apply wp_bind, wp_gets. rewrite (li_dev _ _ _ Hl), (li_start _ _ _ Hl).
  change (u32 ROOTDEV) with ROOTDEV. fold (log_addr start k). rewrite (u32_small (log_addr start k)) by lia.
  apply wp_bind. eapply wp_mono; [eapply bread_did; [done|by intros ??|right; by rewrite map_size_empty, Nat.add_0_r]|].
  cbv beta. intros i s1 (_ & Hc1 & Hd1 & El1). rewrite <-El1 in Hl.
  apply wp_bind. eapply wp_Ok; [by eapply lh_block_run|]. cbv beta. rewrite (u32_small b) by lia.
  apply wp_bind. eapply wp_mono; [eapply bread_did; [done| |by left]|].
  { intros j d [[<- [= E _]]|[_ ?]]%lookup_insert_Some; [congruence|by rewrite lookup_empty in *]. }
  cbv beta. intros j s2 (Hj & Hc2 & Hd2 & El2). rewrite lookup_insert_None in Hj. destruct Hj as [_ Hij].
  apply wp_bind. eapply wp_mono; [eapply get_buf_wp; [done|apply lookup_insert_eq]|].
  cbv beta. intros x s3 (-> & Hx & _). rewrite Hx.
  apply wp_bind. eapply wp_mono; [eapply set_data_did; [done|rewrite lookup_insert_ne by done; apply lookup_insert_eq]|].
  cbv beta. intros [] s4 (Hc4 & Hd4 & El4).
  apply wp_bind. eapply wp_mono; [eapply bwrite_did; [done|apply lookup_insert_eq]|].
  cbv beta. intros [] s5 (Hc5 & Hd5 & El5).
  apply wp_bind. eapply wp_mono; [eapply (brelse_did _ _ _ _ j b); [done|]|].
  { rewrite lookup_insert_ne, lookup_insert_eq, fn_lookup_insert_ne by done. done. }
  cbv beta. intros [] s6 (Hc6 & Hd6 & El6).
  eapply wp_mono; [eapply (brelse_did _ _ _ _ i (log_addr start k)); [done|]|].
  { rewrite lookup_delete_ne, lookup_insert_eq, fn_lookup_insert by done. done. }
  cbv beta. intros [] s7 (Hc7 & Hd7 & El7). split_and!; [| |congruence].
  - assert (delete i (delete j (<[i:=(log_addr start k, m b)]> (<[j:=(b, m b)]>
       (<[i:=(log_addr start k, m (log_addr start k))]> ∅)))) = (∅ : gmap nat (Z * block))) as E; [|by rewrite E in Hc7].
    apply map_eq. intros n. rewrite lookup_empty. rewrite !lookup_delete_None.
    destruct (decide (i = n)); [by left|]. destruct (decide (j = n)); [by right; left|].
    right; right. by rewrite !lookup_insert_ne.
  - eapply did_trans_nil; [|done]. eapply did_trans_nil; [|done].
    change [(log_addr start k, m b)] with ([] ++ [(log_addr start k, m b)]). eapply did_trans; [|done].
    repeat (eapply did_trans_nil; [|done]). apply did_refl.
Qed.

Lemma write_log_wp s pins m start bl :
  cinv me s pins m ∅ → linv (k_log s) start bl → layout start → blocks_ok start bl →
  (∀ b, b ∈ bl → b ∈ pins) → (size pins < Z.to_nat NBUF)%nat →
  wp (write_log me) s
    (λ _ s', cinv me s' pins (upd_all (log_writes start m bl) m) ∅ ∧ did (log_writes start m bl) s s' ∧
             k_log s' = k_log s).
Proof.
  intros Hc Hl Hlay Hok Hp Hsz. unfold write_log.
  apply wp_bind. eapply wp_Ok; [by eapply lh_indices_run|]. cbv beta.
  apply (wp_foreach_seq (λ k s',
    cinv me s' pins (upd_all (log_writes start m (take k bl)) m) ∅ ∧ did (log_writes start m (take k bl)) s s' ∧
    k_log s' = k_log s)).
  - split_and!; [done|apply did_refl|done].
  - intros k s1 Hk (Hc1 & Hd1 & El1). destruct (lookup_lt_is_Some_2 bl k Hk) as [b Hb].
    destruct (log_addr_range _ _ _ _ Hlay Hok Hb) as (_ & _ & _ & Hh & _).
    eapply wp_mono; [eapply (write_log_body_wp s1 _ _ start bl k b); [done|by rewrite El1|done|done|done| |done]|].
    { by apply Hp, list_elem_of_lookup_2 with k. }
    cbv beta. intros [] s2 (Hc2 & Hd2 & El2). destruct Hok as (_ & Hlen & _).
    rewrite log_writes_home in Hc2, Hd2 by (rewrite ?length_take; (done || lia)).
    unfold log_writes. rewrite (imap_take_S _ _ _ _ Hb). fold (log_writes start m (take k bl)).
    split_and!; [|by eapply did_trans|congruence]. rewrite upd_all_app. exact Hc2.
  - intros s1. by rewrite take_ge.
Qed.

Lemma cinv_quiet s pins m held (act : M kernel unit) :
  quiet act → cinv me s pins m held →
  wp act s (λ _ s', cinv me s' pins m held ∧ did [] s s' ∧ k_log s' = k_log s).
Proof.
  intros Hq Hc. destruct (Hq s) as [o Ho]. eapply wp_Ok; [exact Ho|]. cbv beta. split_and!; [|split_and!| done].
  - by apply (cinv_same me s).
  - by destruct s.
  - apply woke_refl.
  - done.
  - done.
Qed.

Lemma quiet_recover_msg a b : quiet (printf recover_msg [Num a; Num b]).
Proof. quiet_fmt. Qed.

Lemma install_msg_wp s pins m start bl k b (recovering : bool) :
  cinv me s pins m ∅ → linv (k_log s) start bl → bl !! k = Some b →
  wp (if recovering then b ← lh_block k; printf recover_msg [Num (Z.of_nat k); Num b] else mret tt) s
    (λ _ s', cinv me s' pins m ∅ ∧ did [] s s' ∧ k_log s' = k_log s).
Proof.
  intros Hc Hl Hb. destruct recovering; [|apply wp_ret; split_and!; [done|apply did_refl|done]].
  apply wp_bind. eapply wp_Ok; [by eapply lh_block_run|]. apply cinv_quiet; [|done]. apply quiet_recover_msg.
Qed.

Lemma install_unpin_wp s pins m held i b d (recovering : bool) :
  cinv me s pins m held → held !! i = Some (b, d) → (recovering = false → b ∈ pins) → disk_block (k_disk s) b = m b →
  wp (if recovering then mret tt else bunpin i) s
    (λ _ s', cinv me s' (if recovering then pins else pins ∖ {[b]}) m held ∧ did [] s s' ∧ k_log s' = k_log s).
Proof.
  intros Hc Hh Hp Hd. destruct recovering; [apply wp_ret; split_and!; [done|apply did_refl|done]|].
  eapply bunpin_did; eauto.
Qed.

Lemma install_body_wp s pins m start bl k b (recovering : bool) :
  cinv me s pins m ∅ → linv (k_log s) start bl → layout start → blocks_ok start bl →
  bl !! k = Some b → (if recovering then pins = ∅ else b ∈ pins) → (size pins < Z.to_nat NBUF)%nat →
  wp (install_body me recovering k) s
    (λ _ s', let d := m (log_addr start k) in
             cinv me s' (if recovering then pins else pins ∖ {[b]}) (<[b := d]> m) ∅ ∧ did [(b, d)] s s' ∧
             k_log s' = k_log s).
Proof.
  intros Hc Hl Hlay Hok Hb Hp Hsz. destruct (log_addr_range _ _ _ _ Hlay Hok Hb) as (Ha & Hin & Hr & Hh & Hne).
  unfold install_body. apply wp_bind. eapply wp_mono; [by eapply install_msg_wp|].
  cbv beta. intros [] s0 (Hc0 & Hd0 & El0). rewrite <-El0 in Hl.
  apply wp_bind, wp_gets. rewrite (li_dev _ _ _ Hl), (li_start _ _ _ Hl).
  change (u32 ROOTDEV) with ROOTDEV. fold (log_addr start k). rewrite (u32_small (log_addr start k)) by lia.
  apply wp_bind. eapply wp_mono; [eapply bread_did; [done|by intros ??|right; by rewrite map_size_empty, Nat.add_0_r]|].
  cbv beta. intros i s1 (_ & Hc1 & Hd1 & El1). rewrite <-El1 in Hl.
  apply wp_bind. eapply wp_Ok; [by eapply lh_block_run|]. cbv beta. rewrite (u32_small b) by lia.
  apply wp_bind. eapply wp_mono; [eapply bread_did; [done| |]|].
  { intros j d [[<- [= E _]]|[_ ?]]%lookup_insert_Some; [congruence|by rewrite lookup_empty in *]. }
  { destruct recovering; [right|by left]. subst pins. rewrite map_size_insert_None by apply lookup_empty.
    rewrite map_size_empty, size_empty. unfold NBUF, MAXOPBLOCKS. lia. }
  cbv beta. intros j s2 (Hj & Hc2 & Hd2 & El2). rewrite lookup_insert_None in Hj. destruct Hj as [_ Hij].
  apply wp_bind. eapply wp_mono; [eapply get_buf_wp; [done|]|].
  { rewrite lookup_insert_ne by done. apply lookup_insert_eq. }
  cbv beta. intros x s3 (-> & Hx & _). rewrite Hx.
  apply wp_bind. eapply wp_mono; [eapply (set_data_did _ _ _ _ j); [done|apply lookup_insert_eq]|].
  cbv beta. intros [] s4 (Hc4 & Hd4 & El4). rewrite insert_insert_eq in Hc4.
  apply wp_bind. eapply wp_mono; [eapply bwrite_did; [done|apply lookup_insert_eq]|].
  cbv beta. intros [] s5 (Hc5 & Hd5 & El5).
  apply wp_bind. eapply wp_mono; [eapply (install_unpin_wp _ _ _ _ j); [done|apply lookup_insert_eq| |]|].
  { intros ->. done. }
  { destruct Hd5 as (_ & _ & -> & _). unfold disk_block, write_all. cbn. by rewrite lookup_insert_eq, fn_lookup_insert. }
  cbv beta. intros [] s6 (Hc6 & Hd6 & El6).
  apply wp_bind. eapply wp_mono; [eapply (brelse_did _ _ _ _ i (log_addr start k)); [done|]|].
  { rewrite lookup_insert_ne, lookup_insert_eq, fn_lookup_insert_ne by done. done. }
  cbv beta. intros [] s7 (Hc7 & Hd7 & El7).
  eapply wp_mono; [eapply (brelse_did _ _ _ _ j b); [done|]|].
  { rewrite lookup_delete_ne, lookup_insert_eq, fn_lookup_insert by done. done. }
  cbv beta. intros [] s8 (Hc8 & Hd8 & El8). split_and!; [| |congruence].
  - rewrite (delete_insert_ne _ i j), delete_insert_eq, delete_insert_eq in Hc8 by done.
    by rewrite !delete_empty in Hc8.
  - repeat (eapply did_trans_nil; [|eassumption]).
    change [(b, m (log_addr start k))] with ([] ++ [(b, m (log_addr start k))]). eapply did_trans; [|done].
    repeat (eapply did_trans_nil; [|eassumption]). apply did_refl.
Qed.

Lemma drop_pins (bl : list Z) k b :
  NoDup bl → bl !! k = Some b →
  b ∈ (list_to_set (drop k bl) : gset Z) ∧
  (list_to_set (drop k bl) : gset Z) ∖ {[b]} = list_to_set (drop (S k) bl).
Proof.
  intros Hnd Hb. rewrite (drop_S _ _ _ Hb). cbn [list_to_set].
  assert (NoDup (drop k bl)) as Hnd2 by (by apply (sublist_NoDup _ _ Hnd), sublist_drop).
  rewrite (drop_S _ _ _ Hb), NoDup_cons in Hnd2. destruct Hnd2 as [Hn _].
  split; [set_solver|]. apply set_eq. intros x. rewrite elem_of_difference, elem_of_union, elem_of_singleton, elem_of_list_to_set.
  split; [intros [[?|?] ?]; done|]. intros Hx. split; [by right|]. intros ->. done.
Qed.

Lemma install_writes_log start m m0 bl b : (∀ x, x ∈ bl → x ≠ b) → upd_all (install_writes start m0 bl) m b = m b.
Proof. intros Hne. apply upd_all_other. rewrite install_writes_blocks. intros Hin. by destruct (Hne b Hin). Qed.

Definition left_pinned (recovering : bool) (bl : list Z) : gset Z := if recovering then ∅ else list_to_set bl.

Lemma install_trans_wp s m start bl recovering :
  cinv me s (left_pinned recovering bl) m ∅ → linv (k_log s) start bl → layout start → blocks_ok start bl →
  (recovering = false → (length bl < Z.to_nat NBUF)%nat) →
  wp (install_trans me recovering) s
    (λ _ s', cinv me s' ∅ (upd_all (install_writes start m bl) m) ∅ ∧ did (install_writes start m bl) s s' ∧
             k_log s' = k_log s).
Proof.
  intros Hc Hl Hlay Hok Hsz. unfold install_trans.
  apply wp_bind. eapply wp_Ok; [by eapply lh_indices_run|]. cbv beta.
  apply (wp_foreach_seq (λ k s',
    cinv me s' (left_pinned recovering (drop k bl)) (upd_all (install_writes start m (take k bl)) m) ∅ ∧
    did (install_writes start m (take k bl)) s s' ∧ k_log s' = k_log s)).
  - split_and!; [done|apply did_refl|done].
  - intros k s1 Hk (Hc1 & Hd1 & El1). destruct (lookup_lt_is_Some_2 bl k Hk) as [b Hb].
    destruct (log_addr_range _ _ _ _ Hlay Hok Hb) as (_ & Hin & _). pose proof Hok as (Hnd & Hlen & Hall).
    destruct (drop_pins bl k b Hnd Hb) as [Hp Hpins].
    eapply wp_mono; [eapply (install_body_wp s1 _ _ start bl k b recovering); [done|by rewrite El1|done|done|done| |]|].
    { destruct recovering; done. }
    { unfold left_pinned. destruct recovering; [rewrite size_empty; unfold NBUF, MAXOPBLOCKS; lia|].
      rewrite size_list_to_set by (by apply (sublist_NoDup _ _ Hnd), sublist_drop). rewrite length_drop. specialize (Hsz eq_refl). lia. }
    cbv beta zeta. intros [] s2 (Hc2 & Hd2 & El2).
    assert (∀ x, x ∈ take k bl → x ≠ log_addr start k) as Hlog.
    { intros x Hx ->. apply elem_of_take in Hx as (n & Hx & _). rewrite Forall_lookup in Hall.
      destruct (Hall _ _ Hx) as [_ Hh]. apply Hh. lia. }
    rewrite install_writes_log in Hc2, Hd2 by done.
    unfold install_writes. rewrite (imap_take_S _ _ _ _ Hb). fold (install_writes start m (take k bl)).
    split_and!; [|by eapply did_trans|congruence]. rewrite upd_all_app.
    unfold left_pinned in *. destruct recovering; [exact Hc2|]. rewrite <-Hpins. exact Hc2.
  - intros s1. rewrite drop_ge, take_ge by lia. unfold left_pinned. by destruct recovering.
Qed.

(** * commit *)

Definition home_writes (m : Z → block) (bl : list Z) : list (Z * block) := (λ b, (b, m b)) <$> bl.

Definition commit_writes (start : Z) (m : Z → block) (bl : list Z) : list (Z * block) :=
  let h := set_head bl (m start) in
  log_writes start m bl ++ [(start, h)] ++ home_writes m bl ++ [(start, set_head [] h)].

(** What the log holds after [write_log]. *)
Lemma log_writes_at start m m0 bl i b :
  bl !! i = Some b → upd_all (log_writes start m bl) m0 (log_addr start i) = m b.
Proof.
  intros Hi. set (m' a := default [] (m <$> bl !! Z.to_nat (a - start - 1))).
  assert (∀ j c, bl !! j = Some c → m' (log_addr start j) = m c) as Hm'.
  { intros j c Hj. unfold m', log_addr. replace (Z.to_nat (start + Z.of_nat j + 1 - start - 1)) with j by lia.
    by rewrite Hj. }
  rewrite (upd_all_in _ _ m'); [by apply Hm'| |].
  - intros w (j & c & Hj & ->)%elem_of_log_writes. cbn. symmetry. by apply Hm'.
  - apply list_elem_of_fmap. exists (log_addr start i, m b). split; [done|].
    apply elem_of_log_writes. eauto.
Qed.

Lemma install_writes_after_log start m m1 bl :
  (∀ i b, bl !! i = Some b → m1 (log_addr start i) = m b) → install_writes start m1 bl = home_writes m bl.
Proof.
  intros Hm. apply list_eq. intros i. unfold install_writes, home_writes.
  rewrite list_lookup_imap, list_lookup_fmap. destruct (bl !! i) as [b|] eqn:E; [|done]. cbn. by rewrite (Hm i b E).
Qed.

Lemma linv_clear l start bl : linv l start bl → linv (set_l_n 0 l) start [].
Proof. intros []. by constructor. Qed.

Lemma clear_log_wp s m start bl (Q : unit → kernel → Prop) :
  cinv me s ∅ m ∅ → linv (k_log s) start bl → layout start →
  (∀ s', cinv me s' ∅ (<[start := set_head [] (m start)]> m) ∅ → did [(start, set_head [] (m start))] s s' →
         k_log s' = set_l_n 0 (k_log s) → Q tt s') →
  wp (upd_log (set_l_n 0) ;; write_head me) s Q.
Proof.
  intros Hc Hl Hlay HQ. apply wp_bind, wp_modify. set (s1 := set_k_log (set_l_n 0 (k_log s)) s).
  assert (cinv me s1 ∅ m ∅) as Hc1 by (by apply (cinv_same me s)).
  eapply wp_mono; [eapply (write_head_wp s1 _ _ start []); [done|by eapply linv_clear|done|rewrite size_empty; unfold NBUF, MAXOPBLOCKS; lia]|].
  cbv beta zeta. intros [] s2 (Hc2 & Hd2 & El2). apply HQ; [done| |done].
  change [(start, set_head [] (m start))] with ([] ++ [(start, set_head [] (m start))]).
  eapply did_trans; [|exact Hd2]. apply did_log.
Qed.

Lemma commit_wp s m start bl :
  cinv me s (list_to_set bl) m ∅ → linv (k_log s) start bl → layout start → blocks_ok start bl →
  bl ≠ [] → (length bl < Z.to_nat NBUF)%nat →
  wp (commit me) s
    (λ _ s', (∃ m', cinv me s' ∅ m' ∅ ∧ ∀ b, home start b → m' b = m b) ∧
             did (commit_writes start m bl) s s' ∧ k_log s' = set_l_n 0 (k_log s)).
Proof.
  intros Hc Hl Hlay Hok Hne Hlen. pose proof Hok as (Hnd & Hlb & Hall).
  assert (size (list_to_set bl : gset Z) < Z.to_nat NBUF)%nat as Hsz by (by rewrite size_list_to_set).
  unfold commit. apply wp_bind, wp_gets. rewrite (li_n _ _ _ Hl).
  destruct (Z.ltb_spec 0 (Z.of_nat (length bl))); [|destruct bl; cbn in *; [done|lia]].
  apply wp_bind. eapply wp_mono; [eapply write_log_wp; [done..|set_solver|done]|].
  cbv beta. intros [] s1 (Hc1 & Hd1 & El1). set (m1 := upd_all (log_writes start m bl) m) in *.
  assert (∀ b, home start b → m1 b = m b) as Hm1 by (intros b Hb; by apply log_writes_home).
  assert (m1 start = m start) as Hs.
  { apply upd_all_other. intros (w & Ew & (j & c & Hj & ->)%elem_of_log_writes)%list_elem_of_fmap.
    unfold log_addr in Ew. cbn in Ew. lia. }
  apply wp_bind. eapply wp_mono; [eapply write_head_wp; [done|by rewrite El1|done|done]|].
  cbv beta zeta. rewrite Hs. intros [] s2 (Hc2 & Hd2 & El2). set (m2 := <[start:=set_head bl (m start)]> m1) in *.
  assert (install_writes start m2 bl = home_writes m bl) as Ei.
  { apply install_writes_after_log. intros i b Hi. unfold m2. rewrite fn_lookup_insert_ne by (unfold log_addr; lia).
    by apply log_writes_at. }
  apply wp_bind. eapply wp_mono; [eapply (install_trans_wp s2 m2 start bl false); [done|by rewrite El2, El1|done|done|done]|].
  rewrite Ei. cbv beta. intros [] s3 (Hc3 & Hd3 & El3). set (m3 := upd_all (home_writes m bl) m2) in *.
  assert (m3 start = set_head bl (m start)) as Hs3.
  { unfold m3. rewrite <-Ei, install_writes_log; [apply fn_lookup_insert|].
    intros x Hx ->. rewrite Forall_forall in Hall. destruct (Hall _ Hx) as [_ Hh]. apply Hh. unfold LOGBLOCKS, MAXOPBLOCKS. lia. }
  eapply clear_log_wp; [done|by rewrite El3, El2, El1|done|]. rewrite Hs3. intros s4 Hc4 Hd4 El4. split_and!.
  - eexists. split; [exact Hc4|]. intros b Hb.
    assert (b ≠ start) as Hbs by (intros ->; apply Hb; unfold LOGBLOCKS, MAXOPBLOCKS; lia).
    rewrite fn_lookup_insert_ne by done. unfold m3. destruct (decide (b ∈ bl)) as [Hin|Hin].
    + apply upd_all_in; [by intros w (c & -> & _)%list_elem_of_fmap|].
      rewrite <-Ei, install_writes_blocks. done.
    + rewrite <-Ei, install_writes_log by congruence. unfold m2. rewrite fn_lookup_insert_ne by done. by apply Hm1.
  - unfold commit_writes. rewrite !app_assoc. eapply did_trans; [|exact Hd4]. eapply did_trans; [|exact Hd3].
    by eapply did_trans.
  - by rewrite El4, El3, El2, El1.
Qed.

(** * Recovery *)

(** The operations in progress. *)
Definition same_ops (l l' : log) : Prop := l_outstanding l' = l_outstanding l ∧ l_committing l' = l_committing l.

Lemma read_head_wp s m start bl :
  cinv me s ∅ m ∅ → l_start (k_log s) = start → l_dev (k_log s) = ROOTDEV → layout start →
  length (l_block (k_log s)) = Z.to_nat LOGBLOCKS →
  geti32 (m start) 0 = Z.of_nat (length bl) → head_list (m start) = bl → (length bl ≤ Z.to_nat LOGBLOCKS)%nat →
  wp (read_head me) s (λ _ s', cinv me s' ∅ m ∅ ∧ did [] s s' ∧ linv (k_log s') start bl ∧ same_ops (k_log s) (k_log s')).
Proof.
  intros Hc Hs Hd [Hs1 Hs2] Hlen Hn Hbl Hle. unfold read_head. apply wp_bind, wp_gets. rewrite Hs, Hd.
  rewrite (u32_small start) by (unfold LOGBLOCKS, MAXOPBLOCKS in *; lia). change (u32 ROOTDEV) with ROOTDEV.
  apply wp_bind. eapply wp_mono; [eapply bread_did; [done|by intros ??|right; rewrite map_size_empty, size_empty; unfold NBUF, MAXOPBLOCKS; lia]|].
  cbv beta. intros i s1 (_ & Hc1 & Hd1 & El1).
  apply wp_bind. eapply wp_mono; [eapply get_buf_wp; [done|apply lookup_insert_eq]|].
  cbv beta. intros x s1' (-> & Hx & _). rewrite Hx, Hn.
  apply wp_bind, wp_modify. set (l1 := set_l_n (Z.of_nat (length bl)) (k_log s1)). set (s2 := set_k_log l1 s1).
  apply wp_bind. unfold lh_indices. apply wp_gets. change (l_n (k_log s2)) with (Z.of_nat (length bl)). rewrite Nat2Z.id.
  apply wp_bind. apply (wp_foreach_seq (λ k s', cinv me s' ∅ m (<[i := (start, m start)]> ∅) ∧ did [] s s' ∧
      k_log s' = set_l_block (take k bl ++ drop k (l_block l1)) l1)).
  - split_and!; [by apply (cinv_same me s1)|eapply did_trans_nil; [done|apply did_log]|]. cbn. by destruct (k_log s1).
  - intros k s3 Hk (Hc3 & Hd3 & El3). destruct (lookup_lt_is_Some_2 bl k Hk) as [b Hb].
    assert (length (l_block l1) = Z.to_nat LOGBLOCKS) as Hl1 by (unfold l1; cbn; by rewrite El1).
    assert (length (take k bl) = k) as Hk1 by (rewrite length_take; lia).
    assert (geti32 (m start) (block_off k) = b) as ->.
    { rewrite <-Hbl in Hb. apply list_lookup_fmap_Some in Hb as (j & -> & Hj).
      apply lookup_seq in Hj as [-> _]. done. }
    unfold set_lh_block. eapply wp_Ok.
    { rewrite El3. cbn [l_block set_l_block]. rewrite decide_True; [reflexivity|].
      rewrite length_app, length_drop, Hk1. lia. }
    cbv beta. split_and!; [by apply (cinv_same me s3)|eapply did_trans_nil; [done|apply did_log]|].
    transitivity (set_l_block (<[k := b]> (take k bl ++ drop k (l_block l1))) l1); [reflexivity|]. f_equal.
    rewrite (take_S_r _ _ _ Hb), <-app_assoc.
    rewrite insert_app_r_alt by lia. f_equal. rewrite Hk1, Nat.sub_diag.
    destruct (lookup_lt_is_Some_2 (l_block l1) k) as [c Hc']; [lia|]. by rewrite (drop_S _ _ _ Hc').
  - intros s3 (Hc3 & Hd3 & El3). eapply wp_mono; [eapply brelse_did; [done|apply lookup_insert_eq]|].
    cbv beta. intros [] s4 (Hc4 & Hd4 & El4). rewrite delete_insert_eq, delete_empty in Hc4.
    split_and!; [done|by eapply did_trans_nil| |by rewrite El4, El3; unfold l1; rewrite El1]. rewrite El4, El3, take_ge by lia.
    constructor; cbn; [by rewrite El1|by rewrite El1|done| |].
    + by rewrite take_app_length.
    + rewrite length_app, length_drop, El1. lia.
Qed.

Lemma recover_wp s m start bl :
  cinv me s ∅ m ∅ → l_start (k_log s) = start → l_dev (k_log s) = ROOTDEV → layout start →
  length (l_block (k_log s)) = Z.to_nat LOGBLOCKS →
  geti32 (m start) 0 = Z.of_nat (length bl) → head_list (m start) = bl → blocks_ok start bl →
  wp (recover_from_log me) s
    (λ _ s', did (install_writes start m bl ++ [(start, set_head [] (m start))]) s s' ∧
             (∃ m', cinv me s' ∅ m' ∅) ∧ linv (k_log s') start [] ∧ same_ops (k_log s) (k_log s')).
Proof.
  intros Hc Hs Hd Hlay Hlen Hn Hbl Hok. pose proof Hok as (Hnd & Hlb & Hall). unfold recover_from_log.
  apply wp_bind. eapply wp_mono; [by eapply (read_head_wp s m start bl)|].
  cbv beta. intros [] s1 (Hc1 & Hd1 & Hl1 & Ho1).
  apply wp_bind. eapply wp_mono; [by eapply (install_trans_wp s1 m start bl true)|].
  cbv beta. intros [] s2 (Hc2 & Hd2 & El2).
  assert (upd_all (install_writes start m bl) m start = m start) as Hst.
  { apply install_writes_log. intros x Hx ->. rewrite Forall_forall in Hall. destruct (Hall _ Hx) as [_ Hh].
    apply Hh. unfold LOGBLOCKS, MAXOPBLOCKS. lia. }
  eapply clear_log_wp; [done|by rewrite El2|done|]. rewrite Hst. intros s3 Hc3 Hd3 El3. split_and!.
  - eapply did_trans; [|exact Hd3]. change (install_writes start m bl) with ([] ++ install_writes start m bl).
    by eapply did_trans.
  - by eexists.
  - rewrite El3, El2. by eapply linv_clear.
  - by rewrite El3, El2.
Qed.

Lemma initlog_wp s m sb bl :
  cinv me s ∅ m ∅ → layout (sb_logstart sb) → length (l_block (k_log s)) = Z.to_nat LOGBLOCKS →
  geti32 (m (sb_logstart sb)) 0 = Z.of_nat (length bl) → head_list (m (sb_logstart sb)) = bl →
  blocks_ok (sb_logstart sb) bl →
  wp (initlog me ROOTDEV sb) s
    (λ _ s', did (install_writes (sb_logstart sb) m bl ++ [(sb_logstart sb, set_head [] (m (sb_logstart sb)))]) s s' ∧
             (∃ m', cinv me s' ∅ m' ∅) ∧ linv (k_log s') (sb_logstart sb) [] ∧ same_ops (k_log s) (k_log s')).
Proof.
  intros Hc Hlay Hlen Hn Hbl Hok. unfold initlog.
  destruct (Z.leb_spec BSIZE (4 + 4 * LOGBLOCKS)); [unfold BSIZE, LOGBLOCKS, MAXOPBLOCKS in *; lia|].
  rewrite i32_small by (unfold layout, LOGBLOCKS, MAXOPBLOCKS in Hlay; lia).
  apply wp_bind, wp_modify. apply wp_bind, wp_modify.
  set (s1 := set_k_log _ _). assert (did [] s s1) as Hd1 by (split_and!; [by destruct s|apply woke_refl|done|done]).
  eapply wp_mono; [eapply (recover_wp s1 m (sb_logstart sb) bl); try done|].
  { by apply (cinv_same me s). }
  cbv beta. intros [] s2 (Hd & Hm & Hl & Ho). split_and!; [|done|done|exact Ho].
  exact (did_trans [] _ _ _ _ Hd1 Hd).
Qed.
End spec.

(** * Crashes *)

Section crash.
Context (start : Z) (m D0 : Z → block) (bl : list Z).
Context (Hlay : layout start) (Hok : blocks_ok start bl).
Context (Hlen : length (m start) = Z.to_nat BSIZE) (Hclear : geti32 (m start) 0 = 0).
Context (HD : ∀ b, b ∉ bl → D0 b = m b).

(** The disk as recovery finds it after [k] of the writes of the commit, and
    the list of blocks it reads from the header. *)
Let h := set_head bl (m start).
Let D (k : nat) : Z → block := upd_all (take k (commit_writes start m bl)) D0.
Definition found (k : nat) : list Z :=
  if decide (length bl < k ≤ 2 * length bl + 1)%nat then bl else [].

Lemma length_log_writes l : length (log_writes start m l) = length l.
Proof. apply length_imap. Qed.
Lemma length_home_writes l : length (home_writes m l) = length l.
Proof. apply length_fmap. Qed.

Lemma start_home : ¬ home start start.
Proof. intros H. apply H. unfold LOGBLOCKS, MAXOPBLOCKS. lia. Qed.
Lemma bl_home b : b ∈ bl → home start b.
Proof. destruct Hok as (_ & _ & Hall). rewrite Forall_forall in Hall. intros Hb. by apply Hall. Qed.
Lemma bl_not_start b : b ∈ bl → b ≠ start.
Proof. intros Hb ->. by apply start_home, bl_home. Qed.

Lemma D_start0 : D0 start = m start.
Proof. apply HD. intros Hb. by apply (bl_not_start start). Qed.

Lemma log_writes_start l D1 : upd_all (log_writes start m l) D1 start = D1 start.
Proof.
  apply upd_all_other. intros (w & Ew & (j & c & Hj & ->)%elem_of_log_writes)%list_elem_of_fmap.
  unfold log_addr in Ew. cbn in Ew. lia.
Qed.

Lemma home_writes_blocks l : (home_writes m l).*1 = l.
Proof. unfold home_writes. rewrite <-list_fmap_compose. apply list_fmap_id. Qed.

Lemma home_writes_other l D1 b : b ∉ l → upd_all (home_writes m l) D1 b = D1 b.
Proof. intros Hb. apply upd_all_other. by rewrite home_writes_blocks. Qed.

Lemma take_log_writes k l : take k (log_writes start m l) = log_writes start m (take k l).
Proof.
  unfold log_writes. revert k. induction l as [|b l IH] using rev_ind; intros k; [by destruct k|].
  rewrite imap_app. destruct (decide (k ≤ length l)%nat).
  - rewrite !take_app_le by (rewrite ?length_imap; lia). apply IH.
  - rewrite !take_ge; [by rewrite imap_app|rewrite length_app; cbn; lia|].
    rewrite length_app, !length_imap. cbn. lia.
Qed.

(** Before the commit point. *)
Lemma before_commit k b : (k ≤ length bl)%nat → home start b ∨ b = start → D k b = D0 b.
Proof.
  intros Hk Hb. unfold D, commit_writes. rewrite take_app_le by (by rewrite length_log_writes).
  rewrite take_log_writes. destruct Hb as [Hb| ->]; [|apply log_writes_start].
  apply log_writes_home; [|done]. destruct Hok as (_ & Hl & _). rewrite length_take. lia.
Qed.

(** Between the commit point and the clearing of the log. *)
Lemma after_commit k : (length bl < k ≤ 2 * length bl + 1)%nat →
  D k start = h ∧ (∀ i b, bl !! i = Some b → D k (log_addr start i) = m b) ∧ (∀ b, home start b → b ∉ bl → D k b = m b).
Proof.
  intros Hk. set (n := length bl). destruct Hok as (_ & Hl & _).
  assert (D k = upd_all (home_writes m (take (k - n - 1) bl)) (<[start := h]> (upd_all (log_writes start m bl) D0))) as ->.
  { unfold D, commit_writes. rewrite take_app_ge by (rewrite length_log_writes; lia). rewrite length_log_writes. fold n.
    change (k - n)%nat with (k - n)%nat. destruct (k - n)%nat as [|j] eqn:Ej; [lia|].
    cbn [app take]. rewrite take_app_le by (rewrite length_home_writes; lia).
    rewrite upd_all_app. cbn [upd_all foldl]. unfold home_writes. rewrite <-fmap_take.
    replace (S j - 1)%nat with j by lia. done. }
  assert (∀ b, b ∈ take (k - n - 1) bl → b ∈ bl) as Hsub by (intros b (i & Hi & _)%elem_of_take; by eapply list_elem_of_lookup_2).
  split_and!.
  - rewrite home_writes_other by (intros Hb; by apply (bl_not_start start); [apply Hsub|]). apply fn_lookup_insert.
  - intros i b Hi. destruct (log_addr_range _ _ _ _ Hlay Hok Hi) as (_ & Hin & _).
    rewrite home_writes_other, fn_lookup_insert_ne by (lia || (intros Hb%Hsub%bl_home; apply Hb; lia)).
    by apply log_writes_at.
  - intros b Hb Hnb. rewrite home_writes_other by (intros ?; by apply Hnb, Hsub).
    rewrite fn_lookup_insert_ne by (intros <-; by apply start_home). rewrite log_writes_home by done. by apply HD.
Qed.

(** The commit is complete. *)
Lemma committed k : (2 * length bl + 1 < k)%nat → D k start = set_head [] h ∧ ∀ b, home start b → D k b = m b.
Proof.
  intros Hk. destruct Hok as (_ & Hl & _). unfold D. rewrite take_ge.
  2: { unfold commit_writes. rewrite !length_app, length_log_writes, length_home_writes. cbn. lia. }
  unfold commit_writes. rewrite !app_assoc, upd_all_app. cbn [upd_all foldl fst snd]. split; [apply fn_lookup_insert|].
  intros b Hb. rewrite fn_lookup_insert_ne by (intros <-; by apply start_home).
  rewrite upd_all_app. destruct (decide (b ∈ bl)) as [Hin|Hin].
  - apply upd_all_in; [by intros w (c & -> & _)%list_elem_of_fmap|]. by rewrite home_writes_blocks.
  - rewrite home_writes_other, upd_all_app by done. cbn [upd_all foldl fst snd].
    rewrite fn_lookup_insert_ne by (intros <-; by apply start_home). rewrite log_writes_home by done. by apply HD.
Qed.

Lemma bl_range : Forall (λ b, 0 ≤ b < 2 ^ 31) bl.
Proof. destruct Hok as (_ & _ & Hall). eapply Forall_impl; [exact Hall|]. cbv beta. tauto. Qed.

Lemma found_head k :
  geti32 (D k start) 0 = Z.of_nat (length (found k)) ∧ head_list (D k start) = found k ∧ length (D k start) = Z.to_nat BSIZE.
Proof.
  pose proof Hok as (_ & Hl & _). pose proof (head_list_set_head bl (m start) Hlen Hl bl_range) as [Hn Hb].
  unfold found. case_decide as Hk.
  - destruct (after_commit k Hk) as [-> _]. split_and!; [exact Hn|exact Hb|]. unfold h. by rewrite length_set_head.
  - destruct (decide (k ≤ length bl)%nat).
    + rewrite before_commit, D_start0 by auto. split_and!; [done| |done]. unfold head_list. by rewrite Hclear.
    + destruct (committed k ltac:(lia)) as [-> _].
      destruct (head_list_set_head [] h) as [Hn' Hb']; [unfold h; by rewrite length_set_head|cbn; lia|done|].
      split_and!; [done|done|]. unfold h. by rewrite !length_set_head.
Qed.

Lemma found_ok k : blocks_ok start (found k).
Proof. unfold found. case_decide; [done|]. split_and!; [constructor|cbn; lia|constructor]. Qed.

(** The contents of the home blocks after recovery. *)
Lemma recovered k b x :
  home start b →
  upd_all (install_writes start (D k) (found k) ++ [(start, x)]) (D k) b =
    if decide (k ≤ length bl)%nat then D0 b else m b.
Proof.
  intros Hb. rewrite upd_all_app. cbn [upd_all foldl fst snd].
  rewrite fn_lookup_insert_ne by (intros <-; by apply start_home). unfold found. case_decide as Hk.
  - rewrite decide_False by lia. destruct (after_commit k Hk) as (_ & Hlog & Hother).
    rewrite (install_writes_after_log start m) by done. destruct (decide (b ∈ bl)) as [Hin|Hin].
    + apply upd_all_in; [by intros w (c & -> & _)%list_elem_of_fmap|]. by rewrite home_writes_blocks.
    + rewrite home_writes_other by done. by apply Hother.
  - cbn [install_writes imap upd_all foldl]. case_decide.
    + apply before_commit; auto.
    + apply (committed k); [lia|done].
Qed.
End crash.

(** * Transactions *)

Section txn.
Context (me : nat) (start : Z).

(** A file system call is in progress: the blocks in the log are the pinned
    ones. *)
Definition txn (s : kernel) (pins : gset Z) (m : Z → block) (held : gmap nat (Z * block)) : Prop :=
  cinv me s pins m held ∧
  (∃ bl, linv (k_log s) start bl ∧ blocks_ok start bl ∧ pins = list_to_set bl) ∧
  1 ≤ l_outstanding (k_log s) ∧ l_committing (k_log s) = false ∧ layout start.

Lemma txn_size s pins m held : txn s pins m held → l_n (k_log s) = Z.of_nat (size pins).
Proof.
  intros (_ & (bl & Hl & (Hnd & _) & ->) & _). rewrite (li_n _ _ _ Hl). by rewrite size_list_to_set.
Qed.

Lemma absorb_loop s bl bn k fuel :
  linv (k_log s) start bl → blocks_ok start bl → bn ∉ take k bl → (k ≤ length bl)%nat → (length bl - k < fuel)%nat →
  ∃ i, loop fuel (absorb_body (Z.of_nat (length bl)) bn) k s = Ok (i, s) ∧
    (bl !! i = Some bn ∨ i = length bl ∧ bn ∉ bl).
Proof.
  intros Hl Hok. revert k. induction fuel as [|fuel IH]; intros k Hnb Hk Hf; [lia|].
  destruct (decide (k = length bl)) as [->|Hne].
  { exists (length bl). split; [|right; rewrite take_ge in Hnb by lia; done].
    apply loop_done. unfold absorb_body. destruct (Z.ltb_spec (Z.of_nat (length bl)) (Z.of_nat (length bl))); [lia|done]. }
  destruct (lookup_lt_is_Some_2 bl k ltac:(lia)) as [b Hb].
  assert (u32 b = b) as Eb.
  { apply u32_small. destruct Hok as (_ & _ & Hall). rewrite Forall_lookup in Hall. destruct (Hall _ _ Hb). lia. }
  destruct (decide (b = bn)) as [->|Hbn].
  - exists k. split; [|by left]. apply loop_done. unfold absorb_body.
    destruct (Z.ltb_spec (Z.of_nat k) (Z.of_nat (length bl))); [|lia].
    by rewrite (bind_Ok_1 _ _ _ _ _ (lh_block_run _ _ _ _ _ Hl Hb)), Eb, Z.eqb_refl.
  - destruct (IH (S k)) as (i & Hrun & Hi); [|lia|lia|].
    + rewrite (take_S_r _ _ _ Hb). intros [?|Hin]%elem_of_app; [done|]. by apply list_elem_of_singleton in Hin.
    + exists i. split; [|done]. rewrite (loop_step _ _ _ _ (S k) s); [done|]. unfold absorb_body.
      destruct (Z.ltb_spec (Z.of_nat k) (Z.of_nat (length bl))); [|lia].
      rewrite (bind_Ok_1 _ _ _ _ _ (lh_block_run _ _ _ _ _ Hl Hb)), Eb.
      destruct (Z.eqb_spec b bn); [done|]. done.
Qed.

Lemma log_write_wp s pins m held i bn d :
  txn s pins m held → held !! i = Some (bn, d) → 0 ≤ bn < 2 ^ 31 → home start bn →
  (size pins < Z.to_nat LOGBLOCKS)%nat →
  wp (log_write i) s
    (λ _ s', txn s' ({[bn]} ∪ pins) (<[bn := d]> m) held ∧ did me [] s s' ∧
             l_outstanding (k_log s') = l_outstanding (k_log s)).
Proof.
  intros Ht Hh Hbn Hhome Hsz. pose proof (txn_size _ _ _ _ Ht) as Hn.
  destruct Ht as (Hc & (bl & Hl & Hok & ->) & Ho & Hcm & Hlay). pose proof (li_n _ _ _ Hl) as Hnl.
  unfold log_write. apply wp_bind, wp_gets.
  destruct (Z.leb_spec LOGBLOCKS (l_n (k_log s))); [unfold LOGBLOCKS, MAXOPBLOCKS in *; lia|].
  destruct (Z.ltb_spec (l_outstanding (k_log s)) 1); [lia|].
  apply wp_bind. eapply wp_mono; [by eapply get_buf_wp|]. cbv beta. intros x s' (-> & _ & Hx). rewrite Hx.
  destruct (absorb_loop s bl bn O (S (Z.to_nat (l_n (k_log s))))) as (k & Hrun & Hk); [done|done|rewrite take_0; set_solver|lia|lia|].
  rewrite Hnl in *. apply wp_bind. eapply wp_Ok; [exact Hrun|]. cbv beta. rewrite i32_small by lia.
  assert (k ≤ length bl ∧ k < length (l_block (k_log s)))%nat as [Hkl Hklt].
  { rewrite (li_len _ _ _ Hl). destruct Hk as [?%lookup_lt_Some|[-> _]]; unfold LOGBLOCKS, MAXOPBLOCKS in *; lia. }
  set (s1 := set_k_log (set_l_block (<[k := bn]> (l_block (k_log s))) (k_log s)) s).
  apply wp_bind. eapply (wp_Ok _ _ tt s1); [unfold set_lh_block; by rewrite decide_True|]. cbv beta.
  assert (cinv me s1 (list_to_set bl) m held) as Hc1 by (by apply (cinv_same me s)).
  destruct Hk as [Hk|[-> Hnb]].
  - apply lookup_lt_Some in Hk as Hlt. destruct (Z.eqb_spec (Z.of_nat k) (Z.of_nat (length bl))); [lia|].
    apply wp_ret. assert (bn ∈ (list_to_set bl : gset Z)) as Hin by (apply elem_of_list_to_set; by eapply list_elem_of_lookup_2).
    assert ({[bn]} ∪ list_to_set bl = (list_to_set bl : gset Z)) as -> by set_solver.
    split_and!; [split_and!| |done]; [by eapply absorb| |done|done|done|by apply did_log].
    exists bl. split_and!; [|done|done]. destruct Hl as [A1 A2 A3 A4 A5]. constructor; cbn; [done..| |by rewrite length_insert].
    rewrite <-A4 in Hk. apply lookup_take_Some in Hk as [Hk _]. by rewrite list_insert_id.
  - rewrite Z.eqb_refl. apply wp_bind. eapply wp_mono; [eapply (bpin_wp me s1); [done|done|by rewrite elem_of_list_to_set]|].
    cbv beta. intros [] s2 (Hc2 & Hf). apply did_frame in Hf as [Hd2 El2]. apply wp_modify. split_and!; [split_and!| |].
    + by apply (cinv_same me s2).
    + exists (bl ++ [bn]). cbn [k_log set_k_log]. rewrite El2. destruct Hl as [A1 A2 A3 A4 A5]. split_and!.
      * constructor; cbn [l_start l_dev l_n l_block set_l_n set_l_block k_log set_k_log s1]; [done|done| | |by rewrite length_insert].
        -- rewrite A3, length_app. cbn. lia.
        -- rewrite length_app. cbn [length]. rewrite Nat.add_1_r, (take_S_r _ _ bn).
           ++ by rewrite take_insert_ge, A4 by lia.
           ++ by rewrite list_lookup_insert_eq.
      * destruct Hok as (Hnd & Hl & Hall). split_and!.
        -- apply NoDup_app. split_and!; [done| |apply NoDup_singleton]. intros y Hy Hy'. apply list_elem_of_singleton in Hy'. by subst.
        -- rewrite length_app. cbn. rewrite size_list_to_set in Hsz by done. lia.
        -- apply Forall_app. split; [done|]. by apply Forall_singleton.
      * rewrite list_to_set_app_L. cbn. set_solver.
    + cbn. by rewrite El2.
    + cbn. by rewrite El2.
    + done.
    + eapply did_trans_nil; [|apply did_log]. eapply did_trans_nil; [apply did_log|exact Hd2].
    + cbn. by rewrite El2.
Qed.
End txn.

(** * Atomicity *)

(** C3: A commit is atomic with respect to crashes.  Take a state in which the
    blocks [bl] have been written through the log and nothing else is
    in the cache only ([cinv]), so that [m] is what the kernel has made of the
    blocks.  Then [commit] returns; it writes the disk in the order [ws]; and if
    the machine stops after any number [k] of these writes, booting ([binit] and
    [initlog] on whatever the disk then holds) recovers a disk on which either
    no block outside the log has changed, when [k] is at most the number of
    logged blocks, or every block has its new contents.  Recovery also leaves
    an empty log. *)
Theorem commit_crash_atomic (me : nat) (s : kernel) (m : Z → block) (start : Z) (bl : list Z) :
  cinv me s (list_to_set bl) m ∅ → linv (k_log s) start bl → layout start → blocks_ok start bl →
  bl ≠ [] → (length bl < Z.to_nat NBUF)%nat → length (m start) = Z.to_nat BSIZE → geti32 (m start) 0 = 0 →
  ∃ s' ws, commit me s = Ok (tt, s') ∧ k_writes s' = reverse ws ++ k_writes s ∧
    k_disk s' = write_all ws (k_disk s) ∧ (∀ b, home start b → disk_block (k_disk s') b = m b) ∧
    ∀ (k : nat) (me' : nat) (c : kernel) (sb : superblock),
      fresh_cache me' c → length (l_block (k_log c)) = Z.to_nat LOGBLOCKS → sb_logstart sb = start →
      k_disk c = write_all (take k ws) (k_disk s) →
      ∃ c', (binit ;; initlog me' ROOTDEV sb) c = Ok (tt, c') ∧
        (∀ b, home start b → disk_block (k_disk c') b =
                if decide (k ≤ length bl)%nat then disk_block (k_disk s) b else m b) ∧
        geti32 (disk_block (k_disk c') start) 0 = 0.
Proof.
  intros Hc Hl Hlay Hok Hne Hsz Hlen Hclear.
  destruct (wp_elim _ _ _ (commit_wp me s m start bl Hc Hl Hlay Hok Hne Hsz)) as ([] & s' & Hrun & (m' & Hc' & Hm') & Hd & _).
  exists s', (commit_writes start m bl). destruct Hd as (_ & _ & Hdisk & Hw).
  split_and!; [done|done|done| |].
  { intros b Hb. rewrite (ci_disk _ _ _ _ _ Hc') by set_solver. by apply Hm'. }
  assert (∀ b, b ∉ bl → disk_block (k_disk s) b = m b) as HD.
  { intros b Hb. apply (ci_disk _ _ _ _ _ Hc). by rewrite elem_of_list_to_set. }
  intros k me' c sb Hf Hlb Hsb Hk.
  set (D := upd_all (take k (commit_writes start m bl)) (disk_block (k_disk s))).
  assert (∀ b, disk_block (k_disk c) b = D b) as HkD by (intros b; by rewrite Hk, disk_block_write_all).
  destruct (found_head start m (disk_block (k_disk s)) bl Hlay Hok Hlen Hclear HD k) as (Hn & Hh & Hlh). fold D in Hn, Hh, Hlh.
  apply wp_unit, wp_bind. eapply wp_mono; [by apply binit_wp|]. cbv beta. intros [] c1 (Ec & Hc1).
  eapply wp_mono; [eapply (initlog_wp me' c1 D sb (found bl k)); rewrite ?Hsb|].
  - by eapply cinv_ext.
  - done.
  - by rewrite Ec.
  - done.
  - done.
  - by eapply found_ok.
  - cbv beta. rewrite Hsb. intros [] c' ((_ & _ & Hdisk' & _) & _). rewrite Ec in Hdisk'. cbn [k_disk set_k_buf] in Hdisk'. split.
    + intros b Hb. rewrite Hdisk', disk_block_write_all.
      rewrite <-(recovered start m (disk_block (k_disk s)) bl Hlay Hok Hlen HD k b (set_head [] (D start)) Hb).
      apply upd_all_ext. done.
    + rewrite Hdisk', disk_block_write_all, upd_all_app. cbn [upd_all foldl fst snd]. rewrite fn_lookup_insert.
      apply head_list_set_head; [done|cbn; lia|done].
Qed.

(** One block written through the log by process 0 on an empty disk. *)
Module Write50.
Definition ones : block := replicate (Z.to_nat BSIZE) 1.
Definition sb : superblock := set_sb_logstart 2 sb0.
Definition start_state : kernel := set_k_log (Log 2 1 false ROOTDEV 0 (replicate (Z.to_nat LOGBLOCKS) 0)) kernel0.
Definition contents : Z → block := <[50 := ones]> (disk_block ∅).
Definition write50 : M kernel unit :=
  binit ;;
  b ← bread 0 ROOTDEV 50;
  upd_buf b (set_b_data ones) ;;
  log_write b ;;
  brelse 0 b.

Lemma layout_2 : layout 2.
Proof. unfold layout, LOGBLOCKS, MAXOPBLOCKS. lia. Qed.

Lemma write50_wp :
  wp write50 start_state (λ _ s, cinv 0 s (list_to_set [50]) contents ∅ ∧ linv (k_log s) 2 [50] ∧ k_disk s = ∅).
Proof.
  unfold write50. apply wp_bind. eapply wp_mono; [apply (binit_wp 0)|].
  { split_and!; [done|done|by eexists]. }
  cbv beta. intros [] s1 (E1 & Hc1).
  apply wp_bind. eapply wp_mono; [eapply bread_did; [exact Hc1|by intros ??|right; vm_compute; lia]|].
  cbv beta. intros i s2 (_ & Hc2 & Hd2 & El2). apply wp_bind.
  eapply wp_mono; [eapply set_data_did; [exact Hc2|apply lookup_insert_eq]|].
  cbv beta. intros [] s3 (Hc3 & Hd3 & El3). rewrite insert_insert_eq in Hc3.
  assert (k_log s3 = Log 2 1 false ROOTDEV 0 (replicate (Z.to_nat LOGBLOCKS) 0)) as El by (rewrite El3, El2, E1; done).
  apply wp_bind. eapply wp_mono; [eapply (log_write_wp 0 2)|].
  - split_and!; [exact Hc3| |by rewrite El|by rewrite El|apply layout_2].
    exists []. rewrite El. split_and!; [done|split_and!; [constructor|vm_compute; lia|constructor]|done].
  - apply lookup_insert_eq.
  - lia.
  - unfold home, LOGBLOCKS, MAXOPBLOCKS. lia.
  - rewrite size_empty. vm_compute. lia.
  - cbv beta. intros [] s4 ((Hc4 & (bl & Hl & Hok & Ebl) & _) & Hd4 & _).
    eapply wp_mono; [eapply brelse_did; [exact Hc4|rewrite fn_lookup_insert; apply lookup_insert_eq]|].
    cbv beta. intros [] s5 (Hc5 & Hd5 & El5). rewrite delete_insert_eq, delete_empty in Hc5. split_and!.
    + exact Hc5.
    + rewrite El5. replace [50] with bl; [done|]. destruct Hok as (Hnd & _).
      apply Permutation_singleton_r, NoDup_Permutation; [done|apply NoDup_singleton|].
      intros x. rewrite <-(elem_of_list_to_set (C := gset Z) x bl), <-Ebl. set_solver.
    + destruct Hd5 as (_ & _ & -> & _), Hd4 as (_ & _ & -> & _), Hd3 as (_ & _ & -> & _), Hd2 as (_ & _ & -> & _).
      by rewrite E1.
Qed.

Definition logged : kernel :=
  match write50 start_state with Ok (_, s) => s | _ => kernel0 end.

Lemma logged_ok : cinv 0 logged (list_to_set [50]) contents ∅ ∧ linv (k_log logged) 2 [50] ∧ k_disk logged = ∅.
Proof. unfold logged. destruct (wp_elim _ _ _ write50_wp) as (u & s & -> & H). exact H. Qed.

Lemma blocks_ok_50 : blocks_ok 2 [50].
Proof.
  split_and!; [apply NoDup_singleton|vm_compute; lia|]. apply Forall_singleton.
  unfold home, LOGBLOCKS, MAXOPBLOCKS. lia.
Qed.

(** A crash right after the header is written: block 50 is recovered. *)
Lemma commit_crash_atomic_witness :
  ∃ s' ws, commit 0 logged = Ok (tt, s') ∧
    ∃ c', (binit ;; initlog 0 ROOTDEV sb) (set_k_disk (write_all (take 2 ws) ∅) kernel0) = Ok (tt, c') ∧
      disk_block (k_disk c') 50 = ones.
Proof.
  destruct logged_ok as (Hc & Hl & Hd).
  destruct (commit_crash_atomic 0 logged contents 2 [50] Hc Hl layout_2 blocks_ok_50) as
    (s' & ws & Hrun & _ & _ & _ & Hcrash); [done|vm_compute; lia|reflexivity|reflexivity|].
  exists s', ws. split; [done|].
  destruct (Hcrash 2%nat O (set_k_disk (write_all (take 2 ws) ∅) kernel0) sb) as (c' & Hc' & Hb & _).
  - split_and!; [done|done|by eexists].
  - done.
  - done.
  - cbn. by rewrite Hd.
  - exists c'. split; [done|]. rewrite Hb; [reflexivity|]. unfold home, LOGBLOCKS, MAXOPBLOCKS. lia.
Defined.
End Write50.
