(* ===== verification/Fs.v ===== *)
(** The file system, [kernel/fs.c]: block allocator, inodes, directories and
    path names, on top of the buffer cache and the log.

    A pointer to an in-memory inode is its index in [itable.inode].  The code
    never passes a null inode to [ilock] or [iunlock], so these take an index.
    Reads and writes go to a [place]; when the place is a local variable of the
    caller, [readi] also returns the bytes it has put there and [writei] takes
    its value.  A path is the sequence of its characters without the final
    NUL. *)

From S2P Require Import Prelude Riscv Mem Str Kalloc Vm State Sched Procmem Console Sleeplock Bio Block Log.

Definition ROOTINO : Z := 1.
Definition FSMAGIC : Z := 0x10203040.
Definition NINDIRECT : Z := BSIZE / 4.
Definition MAXFILE : Z := NDIRECT + NINDIRECT.
Definition DIRSIZ : Z := 14.
Definition T_DIR : Z := 1.
Definition T_FILE : Z := 2.
Definition T_DEVICE : Z := 3.

(** Inodes per block, the block that holds an inode, and the offset of the
    inode in it. *)
Definition IPB : Z := BSIZE / 64.
Definition IBLOCK (i : Z) (sb : superblock) : Z := u32 (i / IPB + sb_inodestart sb).
Definition dip_off (inum : Z) : nat := Z.to_nat (inum mod IPB * 64).

(** Bitmap bits per block, and the block with the bit of block [b]. *)
Definition BPB : Z := BSIZE * 8.
Definition BBLOCK (b : Z) (sb : superblock) : Z := u32 (b / BPB + sb_bmapstart sb).

(** [bp->data[i]]. *)
Definition data_at (d : block) (i : Z) : Z := default 0 (d !! Z.to_nat i).
Definition set_data_at (i v : Z) (d : block) : block := <[Z.to_nat i := u8 v]> d.

(** Offsets in [struct dinode]. *)
Definition addr_off (o : nat) (i : nat) : nat := o + 12 + 4 * i.
Definition dinode_addrs (d : block) (o : nat) : list Z := (λ i, get32 d (addr_off o i)) <$> seq 0 13.

(** The fields of [struct dinode] stored from an in-memory inode. *)
Definition put_addrs (o : nat) (l : list Z) (d : block) : block :=
  foldl (λ d e, put32 d (addr_off o e.1) e.2) d (imap pair l).
Definition put_dinode (o : nat) (x : inode) (d : block) : block :=
  put_addrs o (i_addrs x)
    (put32 (put16 (put16 (put16 (put16 d o (i_type x)) (o + 2) (i_major x)) (o + 4) (i_minor x))
              (o + 6) (i_nlink x)) (o + 8) (i_size x)).
Definition get_dinode (o : nat) (d : block) (x : inode) : inode :=
  set_i_addrs (dinode_addrs d o) (set_i_size (get32 d (o + 8)) (set_i_nlink (geti16 d (o + 6))
    (set_i_minor (geti16 d (o + 4)) (set_i_major (geti16 d (o + 2)) (set_i_type (geti16 d o) x))))).

Section fs.
Context `{KernelImage} (me : nat).

(** Access to the block in a buffer the caller holds. *)
Definition buf_data (b : nat) : M kernel block := x ← get_buf b; mret (b_data x).
Definition upd_data (b : nat) (g : block → block) : M kernel unit := upd_buf b (λ x, set_b_data (g (b_data x)) x).

Definition readsb (dev : Z) : M kernel unit :=
  bp ← bread me (u32 dev) 1;
  d ← buf_data bp;
  modify (set_k_sb (Superblock (get32 d 0) (get32 d 4) (get32 d 8) (get32 d 12) (get32 d 16)
                               (get32 d 20) (get32 d 24) (get32 d 28))) ;;
  brelse me bp.

(** * Blocks *)

Definition bzero (dev bno : Z) : M kernel unit :=
  bp ← bread me (u32 dev) (u32 bno);
  upd_data bp (λ _, zero_block) ;;
  log_write bp ;;
  brelse me bp.

(** The scan of one bitmap block from bit [bi]: the first free bit. *)
Definition balloc_scan (bp : nat) (b size : Z) (bi : Z) : M kernel (Z + option Z) :=
  if (bi <? BPB) && (u32 (b + bi) <? size) then
    d ← buf_data bp;
    let m := Z.shiftl 1 (bi mod 8) in
    if Z.land (data_at d (bi / 8)) m =? 0 then mret (inr (Some bi))
    else mret (inl (bi + 1))
  else mret (inr None).

Definition balloc_body (dev : Z) (b : Z) : M kernel (Z + Z) :=
  sb ← gets k_sb;
  if b <? sb_size sb then
    bp ← bread me dev (BBLOCK b sb);
    r ← loop (S (Z.to_nat BPB)) (balloc_scan bp b (sb_size sb)) 0;
    match r with
    | Some bi =>
        let m := Z.shiftl 1 (bi mod 8) in
        (* Mark block in use. *)
        upd_data bp (λ d, set_data_at (bi / 8) (Z.lor (data_at d (bi / 8)) m) d) ;;
        log_write bp ;;
        brelse me bp ;;
        bzero (i32 dev) (b + bi) ;;
        mret (inr (u32 (b + bi)))
    | None =>
        brelse me bp ;;
        b' ← add_int b BPB;
        mret (inl b')
    end
  else
    printf (str "balloc: out of blocks" ++ [10]) [] ;;
    mret (inr 0).

(** Allocate a zeroed disk block; 0 if out of disk space. *)
Definition balloc (dev : Z) : M kernel Z :=
  sb ← gets k_sb;
  loop (S (Z.to_nat (sb_size sb / BPB + 1))) (balloc_body dev) 0.

Definition bfree (dev b : Z) : M kernel unit :=
  sb ← gets k_sb;
  bp ← bread me (u32 dev) (BBLOCK b sb);
  let bi := b mod BPB in
  let m := Z.shiftl 1 (bi mod 8) in
  d ← buf_data bp;
  if Z.land (data_at d (bi / 8)) m =? 0 then panic "freeing free block"
  else
    upd_data bp (λ d, set_data_at (bi / 8) (Z.land (data_at d (bi / 8)) (Z.lnot m)) d) ;;
    log_write bp ;;
    brelse me bp.

(** * Inodes *)

Definition iinit : M kernel unit :=
  foreach (seq 0 (Z.to_nat NINODE)) (λ i, initsleeplock (LInode i)).

(** The loop of [iget]: the entry of the inode, or the first free entry. *)
Fixpoint iget_scan (l : list inode) (i : nat) (dev inum : Z) (empty : option nat) : nat + option nat :=
  match l with
  | [] => inr empty
  | ip :: l' =>
      if (0 <? i_ref ip) && (i_dev ip =? dev) && (i_inum ip =? inum) then inl i
      else
        let empty' := match empty with
                      | None => if i_ref ip =? 0 then Some i else None
                      | Some e => Some e
                      end in
        iget_scan l' (S i) dev inum empty'
  end.

Definition iget (dev inum : Z) : M kernel nat :=
  l ← gets k_inode;
  match iget_scan l 0 dev inum None with
  | inl i => upd_inode i (λ ip, set_i_ref (i_ref ip + 1) ip) ;; mret i
  | inr None => panic "iget: no inodes"
  | inr (Some i) =>
      upd_inode i (λ ip, set_i_valid false (set_i_ref 1 (set_i_inum inum (set_i_dev dev ip)))) ;;
      mret i
  end.

Definition idup (ip : nat) : M kernel nat :=
  upd_inode ip (λ x, set_i_ref (i_ref x + 1) x) ;;
  mret ip.

Definition ialloc_body (dev type : Z) (inum : Z) : M kernel (Z + option nat) :=
  sb ← gets k_sb;
  if inum <? sb_ninodes sb then
    bp ← bread me dev (IBLOCK inum sb);
    let o := dip_off inum in
    d ← buf_data bp;
    if geti16 d o =? 0 then
      (* a free inode *)
      upd_data bp (λ d, put16 (list_inserts o (replicate 64 0) d) o type) ;;
      log_write bp ;;
      brelse me bp ;;
      ip ← iget dev inum;
      mret (inr (Some ip))
    else
      brelse me bp ;;
      mret (inl (inum + 1))
  else
    printf (str "ialloc: no inodes" ++ [10]) [] ;;
    mret (inr None).

Definition ialloc (dev type : Z) : M kernel (option nat) :=
  sb ← gets k_sb;
  loop (S (Z.to_nat (sb_ninodes sb))) (ialloc_body dev type) 1.

(** Copy a modified in-memory inode to disk. *)
Definition iupdate (ip : nat) : M kernel unit :=
  sb ← gets k_sb;
  x ← get_inode ip;
  bp ← bread me (i_dev x) (IBLOCK (i_inum x) sb);
  upd_data bp (put_dinode (dip_off (i_inum x)) x) ;;
  log_write bp ;;
  brelse me bp.

Definition ilock (ip : nat) : M kernel unit :=
  x ← get_inode ip;
  if i_ref x <? 1 then panic "ilock"
  else
    acquiresleep me (LInode ip) ;;
    x ← get_inode ip;
    if negb (i_valid x) then
      sb ← gets k_sb;
      bp ← bread me (i_dev x) (IBLOCK (i_inum x) sb);
      d ← buf_data bp;
      upd_inode ip (get_dinode (dip_off (i_inum x)) d) ;;
      brelse me bp ;;
      upd_inode ip (set_i_valid true) ;;
      x ← get_inode ip;
      if i_type x =? 0 then panic "ilock: no type" else mret tt
    else mret tt.

Definition iunlock (ip : nat) : M kernel unit :=
  h ← holdingsleep me (LInode ip);
  x ← get_inode ip;
  if negb h || (i_ref x <? 1) then panic "iunlock"
  else releasesleep me (LInode ip).

(** Discard the contents of an inode. *)
Definition itrunc (ip : nat) : M kernel unit :=
  foreach (seq 0 (Z.to_nat NDIRECT)) (λ i,
    x ← get_inode ip;
    match i_addrs x !! i with
    | None => ub
    | Some a =>
        if a =? 0 then mret tt
        else
          bfree (i32 (i_dev x)) a ;;
          upd_inode ip (λ x, set_i_addrs (<[i := 0]> (i_addrs x)) x)
    end) ;;
  x ← get_inode ip;
  match i_addrs x !! Z.to_nat NDIRECT with
  | None => ub
  | Some a =>
      if a =? 0 then mret tt
      else
        bp ← bread me (i_dev x) a;
        foreach (seq 0 (Z.to_nat NINDIRECT)) (λ j,
          d ← buf_data bp;
          let aj := get32 d (4 * j) in
          if aj =? 0 then mret tt else bfree (i32 (i_dev x)) aj) ;;
        brelse me bp ;;
        bfree (i32 (i_dev x)) a ;;
        upd_inode ip (λ x, set_i_addrs (<[Z.to_nat NDIRECT := 0]> (i_addrs x)) x)
  end ;;
  upd_inode ip (set_i_size 0) ;;
  iupdate ip.

(** Drop a reference; free the inode on disk with the last one if it has no
    links. *)
Definition iput (ip : nat) : M kernel unit :=
  x ← get_inode ip;
  (if (i_ref x =? 1) && i_valid x && (i_nlink x =? 0) then
     acquiresleep me (LInode ip) ;;
     itrunc ip ;;
     upd_inode ip (set_i_type 0) ;;
     iupdate ip ;;
     upd_inode ip (set_i_valid false) ;;
     releasesleep me (LInode ip)
   else mret tt) ;;
  upd_inode ip (λ x, set_i_ref (i_ref x - 1) x).

Definition iunlockput (ip : nat) : M kernel unit := iunlock ip ;; iput ip.

Definition ireclaim_body (dev : Z) (inum : Z) : M kernel unit :=
  sb ← gets k_sb;
  bp ← bread me (u32 dev) (IBLOCK inum sb);
  d ← buf_data bp;
  let o := dip_off inum in
  ip ← (if negb (geti16 d o =? 0) && (geti16 d (o + 6) =? 0) then
          (* is an orphaned inode *)
          printf (str "ireclaim: orphaned inode %d" ++ [10]) [Num inum] ;;
          ip ← iget (u32 dev) inum;
          mret (Some ip)
        else mret None);
  brelse me bp ;;
  match ip with
  | None => mret tt
  | Some ip => begin_op ;; ilock ip ;; iunlock ip ;; iput ip ;; end_op me
  end.

Definition ireclaim (dev : Z) : M kernel unit :=
  sb ← gets k_sb;
  foreach (zseq 1 (Z.to_nat (sb_ninodes sb - 1))) (ireclaim_body dev).

Definition fsinit (dev : Z) : M kernel unit :=
  readsb dev ;;
  sb ← gets k_sb;
  if negb (sb_magic sb =? FSMAGIC) then panic "invalid file system"
  else
    initlog me dev sb ;;
    ireclaim dev.

(** * Inode content *)

(** The disk block address of the [bn]th block; allocated if there is none. *)
Definition bmap (ip : nat) (bn : Z) : M kernel Z :=
  x ← get_inode ip;
  if bn <? NDIRECT then
    match i_addrs x !! Z.to_nat bn with
    | None => ub
    | Some addr =>
        if addr =? 0 then
          addr ← balloc (i_dev x);
          if addr =? 0 then mret 0
          else
            upd_inode ip (λ x, set_i_addrs (<[Z.to_nat bn := addr]> (i_addrs x)) x) ;;
            mret addr
        else mret addr
    end
  else
    let bn := bn - NDIRECT in
    if bn <? NINDIRECT then
      (* Load indirect block, allocating if necessary. *)
      match i_addrs x !! Z.to_nat NDIRECT with
      | None => ub
      | Some addr =>
          addr ← (if addr =? 0 then
                    addr ← balloc (i_dev x);
                    (if addr =? 0 then mret tt
                     else upd_inode ip (λ x, set_i_addrs (<[Z.to_nat NDIRECT := addr]> (i_addrs x)) x)) ;;
                    mret addr
                  else mret addr);
          if addr =? 0 then mret 0
          else
            bp ← bread me (i_dev x) addr;
            d ← buf_data bp;
            let addr := get32 d (4 * Z.to_nat bn) in
            addr ← (if addr =? 0 then
                      addr ← balloc (i_dev x);
                      (if addr =? 0 then mret tt
                       else
                         upd_data bp (λ d, put32 d (4 * Z.to_nat bn) addr) ;;
                         log_write bp) ;;
                      mret addr
                    else mret addr);
            brelse me bp ;;
            mret addr
      end
    else panic "bmap: out of range".

(** [struct stat]. *)
Record stat := Stat {
  st_dev : Z;
  st_ino : Z;
  st_type : Z;
  st_nlink : Z;
  st_size : Z;
}.
Definition stati (ip : nat) : M kernel stat :=
  x ← get_inode ip;
  mret (Stat (i32 (i_dev x)) (i_inum x) (i_type x) (i_nlink x) (i_size x)).

(** Iterations of the loops of [readi] and [writei] for [n] bytes. *)
Definition io_fuel (n : Z) : nat := S (S (S (Z.to_nat (n / BSIZE)))).

(** The loop of [readi]: [tot] bytes are done, [got] are the ones copied to a
    local variable. *)
Definition readi_body (ip : nat) (n : Z) :
    Z * Z * place * list Z → M kernel ((Z * Z * place * list Z) + (Z * list Z)) :=
  λ '(tot, off, dst, got),
    if tot <? n then
      addr ← bmap ip (off / BSIZE);
      if addr =? 0 then mret (inr (i32 tot, got))
      else
        x ← get_inode ip;
        bp ← bread me (i_dev x) addr;
        let m := Z.min (n - tot) (BSIZE - off mod BSIZE) in
        d ← buf_data bp;
        let src := take (Z.to_nat m) (drop (Z.to_nat (off mod BSIZE)) d) in
        r ← either_copyout me dst src;
        brelse me bp ;;
        if r =? -1 then mret (inr (-1, got))
        else mret (inl (tot + m, u32 (off + m), advance dst m, got ++ src))
    else mret (inr (i32 tot, got)).

Definition readi (ip : nat) (dst : place) (off n : Z) : M kernel (Z * list Z) :=
  x ← get_inode ip;
  if (i_size x <? off) || (u32 (off + n) <? off) then mret (0, [])
  else
    let n := if i_size x <? u32 (off + n) then i_size x - off else n in
    loop (io_fuel n) (readi_body ip n) (0, off, dst, []).

(** The loop of [writei]; [local] is what is left of a local variable. *)
Definition writei_body (ip : nat) (n : Z) :
    Z * Z * place * list Z → M kernel ((Z * Z * place * list Z) + (Z * Z)) :=
  λ '(tot, off, src, local),
    if tot <? n then
      addr ← bmap ip (off / BSIZE);
      if addr =? 0 then mret (inr (tot, off))
      else
        x ← get_inode ip;
        bp ← bread me (i_dev x) addr;
        let m := Z.min (n - tot) (BSIZE - off mod BSIZE) in
        '(r, data) ← either_copyin me src local m;
        upd_data bp (list_inserts (Z.to_nat (off mod BSIZE)) data) ;;
        if r =? -1 then
          brelse me bp ;;
          mret (inr (tot, off))
        else
          log_write bp ;;
          brelse me bp ;;
          mret (inl (tot + m, u32 (off + m), advance src m, drop (Z.to_nat m) local))
    else mret (inr (tot, off)).

Definition writei (ip : nat) (src : place) (local : list Z) (off n : Z) : M kernel Z :=
  x ← get_inode ip;
  if (i_size x <? off) || (u32 (off + n) <? off) then mret (-1)
  else if MAXFILE * BSIZE <? u32 (off + n) then mret (-1)
  else
    '(tot, off) ← loop (io_fuel n) (writei_body ip n) (0, off, src, local);
    x ← get_inode ip;
    (if i_size x <? off then upd_inode ip (set_i_size off) else mret tt) ;;
    iupdate ip ;;
    mret (i32 tot).
End fs.
