(* ===== verification/Dir.v ===== *)
(** Directories and path names, the rest of [kernel/fs.c]. *)

From S2P Require Import Prelude Riscv Mem Str Kalloc Vm State Sched Procmem Console Sleeplock Bio Block Log Fs.

(** [struct dirent]: a [ushort] inode number and 14 characters. *)
Record dirent := Dirent { de_inum : Z; de_name : list Z }.
Definition DIRENT_SIZE : Z := 16.
Definition dirent_of (l : list Z) : dirent := Dirent (le_val (take 2 l)) (take 14 (drop 2 l)).
Definition dirent_bytes (de : dirent) : list Z := le_bytes 2 (de_inum de) ++ de_name de.

Definition namecmp (s t : list Z) : Z := strncmp (chars s) (chars t) (Z.to_nat DIRSIZ).

(** * skipelem *)

Definition SLASH : Z := 47.

(** The loop over leading slashes. *)
Fixpoint skip_slashes (path : list Z) : list Z :=
  match path with
  | c :: path' => if c =? SLASH then skip_slashes path' else path
  | [] => []
  end.

(** The loop to the next slash or the end: the characters passed over and the
    rest. *)
Fixpoint take_elem (path : list Z) : list Z * list Z :=
  match path with
  | c :: path' =>
      if c =? SLASH then ([], path)
      else let '(s, rest) := take_elem path' in (c :: s, rest)
  | [] => ([], [])
  end.

(** The path behind the first element, and the array [name] after the element
    has been copied to it; [None] if there is no element. *)
Definition skipelem (path name : list Z) : option (list Z * list Z) :=
  match skip_slashes path with
  | [] => None
  | path' =>
      let '(s, rest) := take_elem path' in
      let len := length s in
      let name' :=
        if (Z.to_nat DIRSIZ <=? len)%nat then list_inserts 0 (take (Z.to_nat DIRSIZ) s) name
        else list_inserts 0 (s ++ [0]) name in
      Some (skip_slashes rest, name')
  end.

Section dir.
Context `{KernelImage} (me : nat).

(** * Directories *)

(** Reading a [struct dirent] into a local variable. *)
Definition read_dirent (msg : string) (dp : nat) (off : Z) : M kernel dirent :=
  '(r, l) ← readi me dp Local off DIRENT_SIZE;
  if negb (r =? DIRENT_SIZE) then panic msg else mret (dirent_of l).

Definition dirlookup_body (dp : nat) (name : list Z) (off : Z) : M kernel (Z + option (nat * Z)) :=
  x ← get_inode dp;
  if off <? i_size x then
    de ← read_dirent "dirlookup read" dp off;
    if de_inum de =? 0 then mret (inl (u32 (off + DIRENT_SIZE)))
    else if namecmp name (de_name de) =? 0 then
      (* entry matches path element *)
      ip ← iget (i_dev x) (de_inum de);
      mret (inr (Some (ip, off)))
    else mret (inl (u32 (off + DIRENT_SIZE)))
  else mret (inr None).

(** The inode of an entry and [*poff], its offset. *)
Definition dirlookup (dp : nat) (name : list Z) : M kernel (option (nat * Z)) :=
  x ← get_inode dp;
  if negb (i_type x =? T_DIR) then panic "dirlookup not DIR"
  else loop (S (S (Z.to_nat (i_size x / DIRENT_SIZE)))) (dirlookup_body dp name) 0.

(** The search of [dirlink] for an empty entry. *)
Definition dirlink_body (dp : nat) (off : Z) : M kernel (Z + Z) :=
  x ← get_inode dp;
  if u32 off <? i_size x then
    de ← read_dirent "dirlink read" dp (u32 off);
    if de_inum de =? 0 then mret (inr off)
    else
      off' ← add_int off DIRENT_SIZE;
      mret (inl off')
  else mret (inr off).

Definition dirlink (dp : nat) (name : list Z) (inum : Z) : M kernel Z :=
  r ← dirlookup dp name;
  match r with
  | Some (ip, _) =>
      iput me ip ;;
      mret (-1)
  | None =>
      x ← get_inode dp;
      off ← loop (S (S (Z.to_nat (i_size x / DIRENT_SIZE)))) (dirlink_body dp) 0;
      let de := Dirent (u16 inum) (strncpy (chars name) (Z.to_nat DIRSIZ)) in
      r ← writei me dp Local (dirent_bytes de) (u32 off) DIRENT_SIZE;
      mret (if negb (r =? DIRENT_SIZE) then -1 else 0)
  end.

(** * Paths *)

(** The loop of [namex] from inode [ip] and the rest of the path. *)
Definition namex_body (nameiparent : bool) :
    nat * list Z * list Z → M kernel ((nat * list Z * list Z) + option nat * list Z) :=
  λ '(ip, path, name),
    match skipelem path name with
    | None =>
        if nameiparent then iput me ip ;; mret (inr (None, name))
        else mret (inr (Some ip, name))
    | Some (path, name) =>
        ilock me ip ;;
        x ← get_inode ip;
        if negb (i_type x =? T_DIR) then
          iunlockput me ip ;;
          mret (inr (None, name))
        else if nameiparent && bool_decide (path = []) then
          (* Stop one level early. *)
          iunlock me ip ;;
          mret (inr (Some ip, name))
        else
          next ← dirlookup ip name;
          match next with
          | None =>
              iunlockput me ip ;;
              mret (inr (None, name))
          | Some (next, _) =>
              iunlockput me ip ;;
              mret (inl (next, path, name))
          end
    end.

(** The inode of a path, or of its parent, and the last element in [name]. *)
Definition namex (path : list Z) (nameiparent : bool) (name : list Z) : M kernel (option nat * list Z) :=
  ip ← (match path with
        | c :: _ =>
            if c =? SLASH then iget ROOTDEV ROOTINO
            else p ← get_proc me; match p_cwd p with Some d => idup d | None => ub end
        | [] => p ← get_proc me; match p_cwd p with Some d => idup d | None => ub end
        end);
  loop (S (S (length path))) (namex_body nameiparent) (ip, path, name).

(** The array [name] of [namei] is written before it is read. *)
Definition namei (path : list Z) : M kernel (option nat) :=
  '(ip, _) ← namex path false (replicate (Z.to_nat DIRSIZ) 0);
  mret ip.

Definition nameiparent (path name : list Z) : M kernel (option nat * list Z) := namex path true name.
End dir.
