(* ===== verification/File.v ===== *)
(** Open files, [kernel/file.c], and [pipealloc] of [kernel/pipe.c].

    A pointer to a [struct file] is its index in [ftable.file].  The device
    functions [devsw] points to are those of the console, the only device of
    the table.  A call that has to sleep is the outcome [Sleep]. *)

From S2P Require Import Prelude Riscv Mem Str Kalloc Vm State Sched Procmem Console Pipe Sleeplock Bio Block Log Fs Dir.

(** [initlock] of [ftable.lock] is all [fileinit] does. *)
Definition fileinit : M kernel unit := mret tt.

Fixpoint free_file (l : list file) (i : nat) : option nat :=
  match l with
  | [] => None
  | f :: l' => if f_ref f =? 0 then Some i else free_file l' (S i)
  end.

Definition filealloc : M kernel (option nat) :=
  l ← gets k_file;
  match free_file l 0 with
  | Some i => upd_file i (set_f_ref 1) ;; mret (Some i)
  | None => mret None
  end.

Definition filedup (f : nat) : M kernel nat :=
  x ← get_file f;
  if f_ref x <? 1 then panic "filedup"
  else upd_file f (λ x, set_f_ref (f_ref x + 1) x) ;; mret f.

Section file.
Context `{KernelImage} (me : nat).

Definition fileclose (f : nat) : M kernel unit :=
  x ← get_file f;
  if f_ref x <? 1 then panic "fileclose"
  else
    upd_file f (λ x, set_f_ref (f_ref x - 1) x) ;;
    if 0 <? f_ref x - 1 then mret tt
    else
      ff ← get_file f;
      upd_file f (λ x, set_f_type FD_NONE (set_f_ref 0 x)) ;;
      match f_type ff with
      | FD_PIPE => pipeclose (Some me) (f_pipe ff) (f_writable ff)
      | FD_INODE | FD_DEVICE =>
          match f_ip ff with
          | None => ub
          | Some ip => begin_op ;; iput me ip ;; end_op me
          end
      | FD_NONE => mret tt
      end.

(** The bytes of [struct stat]; [pad] is the padding before [size], which
    [stati] does not write. *)
Definition stat_bytes (st : stat) (pad : list Z) : list Z :=
  le_bytes 4 (st_dev st) ++ le_bytes 4 (st_ino st) ++ le_bytes 2 (st_type st) ++ le_bytes 2 (st_nlink st) ++
  pad ++ le_bytes 8 (st_size st).

Definition filestat (f : nat) (addr : Z) (pad : list Z) : M kernel Z :=
  x ← get_file f;
  match f_type x with
  | FD_INODE | FD_DEVICE =>
      match f_ip x with
      | None => ub
      | Some ip =>
          ilock me ip ;;
          st ← stati ip;
          iunlock me ip ;;
          r ← either_copyout me (User addr) (stat_bytes st pad);
          mret (if r <? 0 then -1 else 0)
      end
  | _ => mret (-1)
  end.

(** [devsw[major].read] or [write] is set. *)
Definition has_dev (major : Z) : M kernel bool :=
  l ← gets k_devsw;
  mret ((0 <=? major) && (major <? NDEV) && default false (l !! Z.to_nat major)).

Definition fileread (f : nat) (addr n : Z) : M kernel Z :=
  x ← get_file f;
  if negb (f_readable x) then mret (-1)
  else
    match f_type x with
    | FD_PIPE => wait_for (piperead me (f_pipe x) addr n)
    | FD_DEVICE =>
        d ← has_dev (f_major x);
        if negb d then mret (-1)
        else if f_major x =? CONSOLE then wait_for (consoleread me n (User addr, n))
        else ub
    | FD_INODE =>
        match f_ip x with
        | None => ub
        | Some ip =>
            ilock me ip ;;
            x ← get_file f;
            '(r, _) ← readi me ip (User addr) (f_off x) (u32 n);
            (if 0 <? r then upd_file f (λ x, set_f_off (u32 (f_off x + r)) x) else mret tt) ;;
            iunlock me ip ;;
            mret r
        end
    | FD_NONE => panic "fileread"
    end.

(** Write a few blocks at a time to avoid exceeding the maximum log
    transaction size. *)
Definition write_max : Z := (MAXOPBLOCKS - 1 - 1 - 2) / 2 * BSIZE.

Definition filewrite_body (f : nat) (ip : nat) (addr n : Z) (i : Z) : M kernel (Z + Z) :=
  if i <? n then
    let n1 := if write_max <? n - i then write_max else n - i in
    begin_op ;;
    ilock me ip ;;
    x ← get_file f;
    r ← writei me ip (User (u64 (addr + i))) [] (f_off x) (u32 n1);
    (if 0 <? r then upd_file f (λ x, set_f_off (u32 (f_off x + r)) x) else mret tt) ;;
    iunlock me ip ;;
    end_op me ;;
    if negb (r =? n1) then (* error from writei *) mret (inr i)
    else mret (inl (i + r))
  else mret (inr i).

Definition filewrite (f : nat) (addr n : Z) : M kernel Z :=
  x ← get_file f;
  if negb (f_writable x) then mret (-1)
  else
    match f_type x with
    | FD_PIPE => wait_for (pipewrite me (f_pipe x) addr n 0)
    | FD_DEVICE =>
        d ← has_dev (f_major x);
        if negb d then mret (-1)
        else if f_major x =? CONSOLE then wait_for (consolewrite me (User addr) n (0, None))
        else ub
    | FD_INODE =>
        match f_ip x with
        | None => ub
        | Some ip =>
            i ← loop (S (Z.to_nat n)) (filewrite_body f ip addr n) 0;
            mret (if i =? n then n else -1)
        end
    | FD_NONE => panic "filewrite"
    end.

(** * Pipes *)

(** [None] for -1.  The data of a new pipe are the bytes of the page it is
    allocated in. *)
Definition pipealloc : M kernel (option (nat * nat)) :=
  f0 ← filealloc;
  match f0 with
  | None => mret None
  | Some f0 =>
      f1 ← filealloc;
      match f1 with
      | None => fileclose f0 ;; mret None
      | Some f1 =>
          pi ← zoom mem_lens kalloc;
          if pi =? 0 then fileclose f0 ;; fileclose f1 ;; mret None
          else
            data ← gets (λ s, ldbytes (kmem (k_mem s)) (pi + 24) (Z.to_nat PIPESIZE));
            modify (λ s, set_k_pipe (<[pi := Pipe data 0 0 true true]> (k_pipe s)) s) ;;
            upd_file f0 (λ x, set_f_pipe pi (set_f_writable false (set_f_readable true (set_f_type FD_PIPE x)))) ;;
            upd_file f1 (λ x, set_f_pipe pi (set_f_writable true (set_f_readable false (set_f_type FD_PIPE x)))) ;;
            mret (Some (f0, f1))
      end
  end.
End file.
