(* ===== verification/Virtio.v ===== *)
(** The driver of the virtio disk, [kernel/virtio_disk.c].

    The state is [struct disk] with the three rings in it, and the flag
    [b->disk] of every buffer.  DMA addresses are symbolic: the command header
    [disk.ops[i]], the data of a buffer, or the status byte [disk.info[i]].
    [virtio_disk_rw] sleeps in two places; it is split there into
    [rw_submit], [rw_wait] and [rw_finish].  The channels that are woken are
    kept in [v_wakeups], latest first; the trap handler hands them to the
    process table. *)

From S2P Require Import Prelude Riscv Mem Str Kalloc Vm State Procmem.

Definition NUM : Z := 8.
Definition VRING_DESC_F_NEXT : Z := 1.
Definition VRING_DESC_F_WRITE : Z := 2.
Definition VIRTIO_BLK_T_IN : Z := 0.
Definition VIRTIO_BLK_T_OUT : Z := 1.

Inductive dma := DNull | DOps (i : nat) | DData (b : nat) | DStatus (i : nat).
#[export] Instance dma_eq_dec : EqDecision dma.
Proof. solve_decision. Defined.

(** [struct virtq_desc]. *)
Record desc := Desc { d_addr : dma; d_len : Z; d_flags : Z; d_next : Z }.
(** [struct virtio_blk_req]. *)
Record blk_req := BlkReq { r_type : Z; r_reserved : Z; r_sector : Z }.

(** [struct disk]. *)
Record vdisk := Vdisk {
  v_desc : list desc;
  v_avail_idx : Z;  (* avail->idx *)
  v_avail_ring : list Z;  (* avail->ring[NUM] *)
  v_uidx : Z;  (* used->idx, written by the device *)
  v_used_ring : list Z;  (* used->ring[NUM].id *)
  v_free : list bool;  (* free[NUM] *)
  v_used_idx : Z;  (* used_idx *)
  v_info_b : list (option nat);  (* info[NUM].b *)
  v_info_status : list Z;  (* info[NUM].status *)
  v_ops : list blk_req;  (* ops[NUM] *)
  v_bdisk : list bool;  (* b->disk *)
  v_wakeups : list channel;
}.

Definition set_v_desc (v : list desc) (x : vdisk) : vdisk :=
  Vdisk v (v_avail_idx x) (v_avail_ring x) (v_uidx x) (v_used_ring x) (v_free x) (v_used_idx x) (v_info_b x) (v_info_status x) (v_ops x) (v_bdisk x) (v_wakeups x).
Definition set_v_avail_idx (v : Z) (x : vdisk) : vdisk :=
  Vdisk (v_desc x) v (v_avail_ring x) (v_uidx x) (v_used_ring x) (v_free x) (v_used_idx x) (v_info_b x) (v_info_status x) (v_ops x) (v_bdisk x) (v_wakeups x).
Definition set_v_avail_ring (v : list Z) (x : vdisk) : vdisk :=
  Vdisk (v_desc x) (v_avail_idx x) v (v_uidx x) (v_used_ring x) (v_free x) (v_used_idx x) (v_info_b x) (v_info_status x) (v_ops x) (v_bdisk x) (v_wakeups x).
Definition set_v_uidx (v : Z) (x : vdisk) : vdisk :=
  Vdisk (v_desc x) (v_avail_idx x) (v_avail_ring x) v (v_used_ring x) (v_free x) (v_used_idx x) (v_info_b x) (v_info_status x) (v_ops x) (v_bdisk x) (v_wakeups x).
Definition set_v_used_ring (v : list Z) (x : vdisk) : vdisk :=
  Vdisk (v_desc x) (v_avail_idx x) (v_avail_ring x) (v_uidx x) v (v_free x) (v_used_idx x) (v_info_b x) (v_info_status x) (v_ops x) (v_bdisk x) (v_wakeups x).
Definition set_v_free (v : list bool) (x : vdisk) : vdisk :=
  Vdisk (v_desc x) (v_avail_idx x) (v_avail_ring x) (v_uidx x) (v_used_ring x) v (v_used_idx x) (v_info_b x) (v_info_status x) (v_ops x) (v_bdisk x) (v_wakeups x).
Definition set_v_used_idx (v : Z) (x : vdisk) : vdisk :=
  Vdisk (v_desc x) (v_avail_idx x) (v_avail_ring x) (v_uidx x) (v_used_ring x) (v_free x) v (v_info_b x) (v_info_status x) (v_ops x) (v_bdisk x) (v_wakeups x).
Definition set_v_info_b (v : list (option nat)) (x : vdisk) : vdisk :=
  Vdisk (v_desc x) (v_avail_idx x) (v_avail_ring x) (v_uidx x) (v_used_ring x) (v_free x) (v_used_idx x) v (v_info_status x) (v_ops x) (v_bdisk x) (v_wakeups x).
Definition set_v_info_status (v : list Z) (x : vdisk) : vdisk :=
  Vdisk (v_desc x) (v_avail_idx x) (v_avail_ring x) (v_uidx x) (v_used_ring x) (v_free x) (v_used_idx x) (v_info_b x) v (v_ops x) (v_bdisk x) (v_wakeups x).
Definition set_v_ops (v : list blk_req) (x : vdisk) : vdisk :=
  Vdisk (v_desc x) (v_avail_idx x) (v_avail_ring x) (v_uidx x) (v_used_ring x) (v_free x) (v_used_idx x) (v_info_b x) (v_info_status x) v (v_bdisk x) (v_wakeups x).
Definition set_v_bdisk (v : list bool) (x : vdisk) : vdisk :=
  Vdisk (v_desc x) (v_avail_idx x) (v_avail_ring x) (v_uidx x) (v_used_ring x) (v_free x) (v_used_idx x) (v_info_b x) (v_info_status x) (v_ops x) v (v_wakeups x).
Definition set_v_wakeups (v : list channel) (x : vdisk) : vdisk :=
  Vdisk (v_desc x) (v_avail_idx x) (v_avail_ring x) (v_uidx x) (v_used_ring x) (v_free x) (v_used_idx x) (v_info_b x) (v_info_status x) (v_ops x) (v_bdisk x) v.

Definition desc0 : desc := Desc DNull 0 0 0.
Definition free_chan : channel := ("disk.free", 0).
Definition buf_chan (b : nat) : channel := ("struct buf", Z.of_nat b).

Definition v_wakeup (c : channel) : M vdisk unit := modify (λ s, set_v_wakeups (c :: v_wakeups s) s).

(** Array accesses; an index out of range is undefined behaviour. *)
Definition rd {A} (f : vdisk → list A) (i : Z) : M vdisk A := λ s,
  if 0 <=? i then match f s !! Z.to_nat i with Some x => Ok (x, s) | None => UB end else UB.
Definition wr {A} (f : vdisk → list A) (set : list A → vdisk → vdisk) (i : Z) (x : A) : M vdisk unit := λ s,
  if (0 <=? i) && (Z.to_nat i <? length (f s))%nat then Ok (tt, set (<[Z.to_nat i := x]> (f s)) s) else UB.

(** ** Descriptors *)

Fixpoint first_free (l : list bool) (i : nat) : option nat :=
  match l with
  | [] => None
  | f :: l' => if f then Some i else first_free l' (S i)
  end.

(** The index of a free descriptor, now marked as used; -1 if there is none. *)
Definition alloc_desc : M vdisk Z :=
  l ← gets v_free;
  match first_free l 0 with
  | Some i => wr v_free set_v_free (Z.of_nat i) false ;; mret (Z.of_nat i)
  | None => mret (-1)
  end.

Definition free_desc (i : Z) : M vdisk unit :=
  if NUM <=? i then panic "free_desc 1"
  else
    f ← rd v_free i;
    if f : bool then panic "free_desc 2"
    else
      wr v_desc set_v_desc i desc0 ;;
      wr v_free set_v_free i true ;;
      v_wakeup free_chan.

Definition free_chain_body (i : Z) : M vdisk (Z + unit) :=
  d ← rd v_desc i;
  let flag := d_flags d in
  let nxt := d_next d in
  free_desc i ;;
  mret (if negb (Z.land flag VRING_DESC_F_NEXT =? 0) then inl nxt else inr tt).

Definition free_chain (i : Z) : M vdisk unit := loop (S (Z.to_nat NUM)) free_chain_body i.

(** Three descriptors, or [None] for -1. *)
Definition alloc3_desc : M vdisk (option (Z * Z * Z)) :=
  i0 ← alloc_desc;
  if i0 <? 0 then mret None
  else
    i1 ← alloc_desc;
    if i1 <? 0 then free_desc i0 ;; mret None
    else
      i2 ← alloc_desc;
      if i2 <? 0 then free_desc i0 ;; free_desc i1 ;; mret None
      else mret (Some (i0, i1, i2)).

(** ** Requests *)

(** [virtio_disk_rw] up to the notification of the device; the index of the
    first descriptor. *)
Definition rw_submit (b : nat) (blockno : Z) (write : bool) : M vdisk (step unit Z) :=
  let sector := u32 (blockno * (BSIZE / 512)) in
  r ← alloc3_desc;
  match r with
  | None => mret (Block free_chan tt)
  | Some (i0, i1, i2) =>
      (* format the three descriptors. *)
      wr v_ops set_v_ops i0 (BlkReq (if write then VIRTIO_BLK_T_OUT else VIRTIO_BLK_T_IN) 0 sector) ;;
      wr v_desc set_v_desc i0 (Desc (DOps (Z.to_nat i0)) 16 VRING_DESC_F_NEXT i1) ;;
      wr v_desc set_v_desc i1
        (Desc (DData b) BSIZE (Z.lor (if write then 0 else VRING_DESC_F_WRITE) VRING_DESC_F_NEXT) i2) ;;
      wr v_info_status set_v_info_status i0 0xff ;;
      wr v_desc set_v_desc i2 (Desc (DStatus (Z.to_nat i0)) 1 VRING_DESC_F_WRITE 0) ;;
      (* record struct buf for virtio_disk_intr(). *)
      wr v_bdisk set_v_bdisk (Z.of_nat b) true ;;
      wr v_info_b set_v_info_b i0 (Some b) ;;
      (* tell the device the first index in our chain of descriptors. *)
      a ← gets v_avail_idx;
      wr v_avail_ring set_v_avail_ring (a mod NUM) i0 ;;
      modify (set_v_avail_idx (u16 (a + 1))) ;;
      mret (Return i0)
  end.

(** The loop that waits for [virtio_disk_intr]. *)
Definition rw_wait (b : nat) : M vdisk (step unit unit) :=
  d ← rd v_bdisk (Z.of_nat b);
  mret (if d : bool then Block (buf_chan b) tt else Return tt).

Definition rw_finish (i0 : Z) : M vdisk unit :=
  wr v_info_b set_v_info_b i0 None ;;
  free_chain i0.

(** ** Interrupts *)

Definition virtio_disk_intr_body (_ : unit) : M vdisk (unit + unit) :=
  u ← gets v_used_idx;
  d ← gets v_uidx;
  if u =? d then mret (inr tt)
  else
    id ← rd v_used_ring (u mod NUM);
    st ← rd v_info_status id;
    if negb (st =? 0) then panic "virtio_disk_intr status"
    else
      b ← rd v_info_b id;
      match b with
      | None => ub
      | Some b =>
          wr v_bdisk set_v_bdisk (Z.of_nat b) false ;;
          v_wakeup (buf_chan b) ;;
          modify (set_v_used_idx (u16 (u + 1))) ;;
          mret (inl tt)
      end.

Definition virtio_disk_intr : M vdisk unit :=
  u ← gets v_used_idx;
  d ← gets v_uidx;
  loop (S (Z.to_nat (u16 (d - u)))) virtio_disk_intr_body tt.

(** The queue [virtio_disk_init] sets up once it has found the device. *)
Definition vdisk0 : vdisk :=
  Vdisk (replicate (Z.to_nat NUM) desc0) 0 (replicate (Z.to_nat NUM) 0) 0 (replicate (Z.to_nat NUM) 0)
    (replicate (Z.to_nat NUM) true) 0 (replicate (Z.to_nat NUM) None) (replicate (Z.to_nat NUM) 0)
    (replicate (Z.to_nat NUM) (BlkReq 0 0 0)) (replicate (Z.to_nat NBUF) false) [].

(** ** virtio_disk_init *)

(** What the registers of the device read; the status register is the one read
    back after the features have been negotiated. *)
Record mmio := Mmio {
  mm_magic : Z; mm_version : Z; mm_device_id : Z; mm_vendor_id : Z;
  mm_features : Z; mm_status : Z; mm_ready : Z; mm_num_max : Z;
}.

(** [features &= ~(1 << bit)] for the seven bits the driver does not use. *)
Definition driver_features (features : Z) : Z :=
  foldl (λ f bit, Z.land f (Z.lnot (Z.shiftl 1 bit))) features [5; 7; 11; 12; 27; 29; 28].

Section init.
Context `{KernelImage}.

(** The writes to the registers, in order, and the pages of the queue. *)
Definition virtio_disk_init (r : mmio) : M kst (list (Z * Z) * (Z * Z * Z)) :=
  if negb (mm_magic r =? 0x74726976) || negb (mm_version r =? 2) || negb (mm_device_id r =? 2) ||
     negb (mm_vendor_id r =? 0x554d4551) then panic "could not find virtio disk"
  else
    let negotiate := [(0x070, 0); (0x070, 1); (0x070, 3); (0x020, u32 (driver_features (mm_features r)));
                      (0x070, 11)] in
    if Z.land (mm_status r) 8 =? 0 then panic "virtio disk FEATURES_OK unset"
    else if negb (mm_ready r =? 0) then panic "virtio disk should not be ready"
    else if mm_num_max r =? 0 then panic "virtio disk has no queue 0"
    else if mm_num_max r <? NUM then panic "virtio disk max queue too short"
    else
      d ← kalloc;
      a ← kalloc;
      u ← kalloc;
      if (d =? 0) || (a =? 0) || (u =? 0) then panic "virtio disk kalloc"
      else
        memzero d ;;
        memzero a ;;
        memzero u ;;
        mret (negotiate ++
          [(0x030, 0); (0x038, NUM);
           (0x080, u32 d); (0x084, Z.shiftr d 32); (0x090, u32 a); (0x094, Z.shiftr a 32);
           (0x0a0, u32 u); (0x0a4, Z.shiftr u 32);
           (0x044, 1); (0x070, Z.lor (mm_status r) 4)], (d, a, u)).
End init.
