(* ===== verification/Proc.v ===== *)
(** Processes, the rest of [kernel/proc.c]: the process table, [fork], [exit],
    [wait], [kill] and the growth of a process.

    A pointer to a [struct proc] is its index; [me] is [myproc()].  Saved user
    registers are in the trapframe page of a process, in RAM.  [kexit] does not
    return: its model ends where [sched] switches to the scheduler.  [kwait]
    sleeps before it looks at the table again. *)

From S2P Require Import Prelude Riscv Mem Str Kalloc Vm State Sched Procmem Console Pipe Sleeplock Bio Block Log Fs Dir File.

(** Addresses of functions of the kernel, which the linker chooses. *)
Class KernelText := {
  addr_forkret : Z;
  addr_usertrap : Z;
  addr_kernelvec : Z;
  addr_uservec : Z;
  addr_userret : Z;
}.

(** Offsets in [struct trapframe]. *)
Definition TF_kernel_satp : Z := 0.
Definition TF_kernel_sp : Z := 8.
Definition TF_kernel_trap : Z := 16.
Definition TF_epc : Z := 24.
Definition TF_kernel_hartid : Z := 32.
Definition TF_sp : Z := 48.
Definition TF_a0 : Z := 112.
Definition TF_a1 : Z := 120.
Definition TF_a7 : Z := 168.
Definition TF_SIZE : Z := 288.

Definition proc_chan (i : nat) : channel := ("struct proc", Z.of_nat i).

Section proc.
Context `{KernelImage} `{KernelText}.

(** [p->trapframe->reg]. *)
Definition tf_get (i : nat) (reg : Z) : M kernel Z :=
  p ← get_proc i;
  gets (λ s, ld64 (kmem (k_mem s)) (p_trapframe p + reg)).
Definition tf_set (i : nat) (reg v : Z) : M kernel unit :=
  p ← get_proc i;
  zoom mem_lens (modify (λ s, set_mem (st64 (kmem s) (p_trapframe p + reg) (u64 v)) s)).

Definition procinit : M kernel unit :=
  foreach proc_indices (λ i,
    upd_proc i (λ p, set_p_kstack (KSTACK (Z.of_nat i)) (set_p_state UNUSED p))).

Definition allocpid : M kernel Z :=
  pid ← gets k_nextpid;
  next ← add_int pid 1;
  modify (set_k_nextpid next) ;;
  mret pid.

(** A page table with the trampoline and the trapframe only; 0 on failure. *)
Definition proc_pagetable (trapframe : Z) : M kst Z :=
  pagetable ← uvmcreate;
  if pagetable =? 0 then mret 0
  else
    r ← mappages pagetable TRAMPOLINE PGSIZE kernel_trampoline (Z.lor PTE_R PTE_X);
    if r <? 0 then
      uvmfree pagetable 0 ;;
      mret 0
    else
      r ← mappages pagetable TRAPFRAME PGSIZE trapframe (Z.lor PTE_R PTE_W);
      if r <? 0 then
        uvmunmap pagetable TRAMPOLINE 1 false ;;
        uvmfree pagetable 0 ;;
        mret 0
      else mret pagetable.

Definition proc_freepagetable (pagetable sz : Z) : M kst unit :=
  uvmunmap pagetable TRAMPOLINE 1 false ;;
  uvmunmap pagetable TRAPFRAME 1 false ;;
  uvmfree pagetable sz.

Definition freeproc (i : nat) : M kernel unit :=
  p ← get_proc i;
  (if negb (p_trapframe p =? 0) then zoom mem_lens (kfree (p_trapframe p)) else mret tt) ;;
  upd_proc i (set_p_trapframe 0) ;;
  (if negb (p_pagetable p =? 0) then zoom mem_lens (proc_freepagetable (p_pagetable p) (p_sz p)) else mret tt) ;;
  upd_proc i (set_p_pagetable 0) ;;
  upd_proc i (λ p, set_p_state UNUSED (set_p_xstate 0 (set_p_killed 0 (set_p_chan None
    (set_p_name (<[O := 0]> (p_name p)) (set_p_parent None (set_p_pid 0 (set_p_sz 0 p)))))))).

(** The first UNUSED entry of the table. *)
Fixpoint unused_proc (l : list proc) (i : nat) : option nat :=
  match l with
  | [] => None
  | p :: l' => if decide (p_state p = UNUSED) then Some i else unused_proc l' (S i)
  end.

Definition allocproc : M kernel (option nat) :=
  l ← gets k_proc;
  match unused_proc l 0 with
  | None => mret None
  | Some i =>
      pid ← allocpid;
      upd_proc i (λ p, set_p_ticks_in_q [0; 0; 0] (set_p_ticks_count 0 (set_p_priority 0
        (set_p_state USED (set_p_pid pid p))))) ;;
      (* Allocate a trapframe page. *)
      tf ← zoom mem_lens kalloc;
      upd_proc i (set_p_trapframe tf) ;;
      if tf =? 0 then
        freeproc i ;;
        mret None
      else
        (* An empty user page table. *)
        pt ← zoom mem_lens (proc_pagetable tf);
        upd_proc i (set_p_pagetable pt) ;;
        if pt =? 0 then
          freeproc i ;;
          mret None
        else
          (* Set up new context to start executing at forkret. *)
          upd_proc i (λ p, set_p_context (addr_forkret, p_kstack p + PGSIZE) p) ;;
          mret (Some i)
  end.

(** Set up the first user process; [me] is the context it is called in. *)
Definition userinit (me : nat) : M kernel unit :=
  p ← allocproc;
  modify (set_k_initproc p) ;;
  cwd ← namei me [SLASH];
  match p with
  | None => ub
  | Some p =>
      upd_proc p (set_p_cwd cwd) ;;
      upd_proc p (set_p_state RUNNABLE)
  end.

(** Grow or shrink user memory by [n] bytes. *)
Definition growproc (me : nat) (n : Z) : M kernel Z :=
  p ← get_proc me;
  let sz := p_sz p in
  if 0 <? n then
    if TRAPFRAME <? u64 (sz + n) then mret (-1)
    else
      sz ← zoom mem_lens (uvmalloc (p_pagetable p) sz (u64 (sz + n)) PTE_W);
      if sz =? 0 then mret (-1)
      else upd_proc me (set_p_sz sz) ;; mret 0
  else if n <? 0 then
    sz ← zoom mem_lens (uvmdealloc (p_pagetable p) sz (u64 (sz + n)));
    upd_proc me (set_p_sz sz) ;;
    mret 0
  else
    upd_proc me (set_p_sz sz) ;;
    mret 0.

(** * fork *)

(** [*(np->trapframe) = *(p->trapframe)] *)
Definition copy_trapframe (dst src : Z) : M kernel unit :=
  zoom mem_lens (modify (λ s, set_mem (stbytes (kmem s) dst (ldbytes (kmem s) src (Z.to_nat TF_SIZE))) s)).

(** Increment reference counts on open file descriptors. *)
Definition dup_files (me np : nat) : M kernel unit :=
  foreach (seq 0 (Z.to_nat NOFILE)) (λ i,
    p ← get_proc me;
    match p_ofile p !! i with
    | Some (Some f) =>
        f' ← filedup f;
        upd_proc np (λ x, set_p_ofile (<[i := Some f']> (p_ofile x)) x)
    | Some None => mret tt
    | None => ub
    end).

Definition kfork (me : nat) : M kernel Z :=
  np ← allocproc;
  match np with
  | None => mret (-1)
  | Some np =>
      p ← get_proc me;
      x ← get_proc np;
      (* Copy user memory from parent to child. *)
      r ← zoom mem_lens (uvmcopy (p_pagetable p) (p_pagetable x) (p_sz p));
      if r <? 0 then
        freeproc np ;;
        mret (-1)
      else
        upd_proc np (set_p_sz (p_sz p)) ;;
        copy_trapframe (p_trapframe x) (p_trapframe p) ;;
        (* Cause fork to return 0 in the child. *)
        tf_set np TF_a0 0 ;;
        dup_files me np ;;
        (match p_cwd p with
         | None => ub
         | Some d => d' ← idup d; upd_proc np (set_p_cwd (Some d'))
         end) ;;
        upd_proc np (λ x, set_p_name (list_inserts 0 (safestrcpy (chars (p_name p)) 16) (p_name x)) x) ;;
        x ← get_proc np;
        let pid := p_pid x in
        upd_proc np (set_p_parent (Some me)) ;;
        upd_proc np (set_p_state RUNNABLE) ;;
        mret pid
  end.

(** * exit and wait *)

(** [wakeup] of a process; nobody sleeps on the null pointer. *)
Definition wakeup_proc (me : nat) (p : option nat) : M kernel unit :=
  match p with
  | Some q => wakeup (Some me) (proc_chan q)
  | None => mret tt
  end.

(** Pass the abandoned children of [p] to init. *)
Definition reparent (me p : nat) : M kernel unit :=
  foreach proc_indices (λ i,
    pp ← get_proc i;
    if decide (p_parent pp = Some p) then
      init ← gets k_initproc;
      upd_proc i (set_p_parent init) ;;
      wakeup_proc me init
    else mret tt).

Definition close_files (me : nat) : M kernel unit :=
  foreach (seq 0 (Z.to_nat NOFILE)) (λ fd,
    p ← get_proc me;
    match p_ofile p !! fd with
    | Some (Some f) =>
        fileclose me f ;;
        upd_proc me (λ p, set_p_ofile (<[fd := None]> (p_ofile p)) p)
    | Some None => mret tt
    | None => ub
    end).

Definition kexit (me : nat) (status : Z) : M kernel unit :=
  init ← gets k_initproc;
  if decide (init = Some me) then panic "init exiting"
  else
    close_files me ;;
    begin_op ;;
    p ← get_proc me;
    (match p_cwd p with None => ub | Some d => iput me d end) ;;
    end_op me ;;
    upd_proc me (set_p_cwd None) ;;
    (* Give any children to init. *)
    reparent me me ;;
    (* Parent might be sleeping in wait(). *)
    p ← get_proc me;
    wakeup_proc me (p_parent p) ;;
    upd_proc me (set_p_xstate status) ;;
    upd_proc me (set_p_state ZOMBIE) ;;
    sched me.

(** The scan for an exited child: the value to return, or whether there are
    children. *)
Fixpoint wait_scan (me : nat) (addr : Z) (l : list nat) (havekids : bool) : M kernel (Z + bool) :=
  match l with
  | [] => mret (inr havekids)
  | i :: l' =>
      pp ← get_proc i;
      if decide (p_parent pp = Some me) then
        if decide (p_state pp = ZOMBIE) then
          (* Found one. *)
          r ← (if addr =? 0 then mret 0
               else either_copyout me (User addr) (le_bytes 4 (p_xstate pp)));
          if r <? 0 then mret (inl (-1))
          else
            freeproc i ;;
            mret (inl (p_pid pp))
        else wait_scan me addr l' true
      else wait_scan me addr l' havekids
  end.

Definition kwait (me : nat) (addr : Z) : M kernel (step unit Z) :=
  r ← wait_scan me addr proc_indices false;
  match r with
  | inl pid => mret (Return pid)
  | inr havekids =>
      (* No point waiting if we don't have any children. *)
      if negb havekids then mret (Return (-1))
      else
        k ← killed me;
        if negb (k =? 0) then mret (Return (-1))
        else mret (Block (proc_chan me) tt)
  end.

(** * kill *)

Definition kkill (pid : Z) : M kernel Z :=
  r ← scan proc_indices (λ i,
    p ← get_proc i;
    if p_pid p =? pid then
      upd_proc i (set_p_killed 1) ;;
      (if decide (p_state p = SLEEPING) then upd_proc i (set_p_state RUNNABLE) else mret tt) ;;
      mret (Some tt)
    else mret None);
  mret (match r with Some _ => 0 | None => -1 end).
End proc.
