(* ===== verification/Exec.v ===== *)
(** [exec], [kernel/exec.c].

    The path and the argument strings are passed as the sequences of their
    characters.  The local variables that [goto bad] cleans up, the page table,
    its size and the locked inode, are arguments of [exec_bad]. *)

From S2P Require Import Prelude Riscv Mem Str Kalloc Vm State Sched Procmem Console Sleeplock Bio Block Log Fs Dir File Proc.

Definition ELF_MAGIC : Z := 0x464C457F.
Definition ELF_PROG_LOAD : Z := 1.

(** Fields of a structure in its bytes. *)
Definition field (l : list Z) (off n : nat) : Z := le_val (take n (drop off l)).

(** [struct elfhdr] and [struct proghdr]: the fields the kernel uses. *)
Record elfhdr := Elfhdr { e_magic : Z; e_entry : Z; e_phoff : Z; e_phnum : Z }.
Definition ELFHDR_SIZE : Z := 64.
Definition elfhdr_of (l : list Z) : elfhdr := Elfhdr (field l 0 4) (field l 24 8) (field l 32 8) (field l 56 2).

Record proghdr := Proghdr { ph_type : Z; ph_flags : Z; ph_off : Z; ph_vaddr : Z; ph_filesz : Z; ph_memsz : Z }.
Definition PROGHDR_SIZE : Z := 56.
Definition proghdr_of (l : list Z) : proghdr :=
  Proghdr (field l 0 4) (field l 4 4) (field l 8 8) (field l 16 8) (field l 32 8) (field l 40 8).

(** Map ELF permissions to PTE permission bits. *)
Definition flags2perm (flags : Z) : Z :=
  let perm := if negb (Z.land flags 1 =? 0) then PTE_X else 0 in
  if negb (Z.land flags 2 =? 0) then Z.lor perm PTE_W else perm.

Section exec.
Context `{KernelImage} `{KernelText} (me : nat).

Definition loadseg_body (pagetable va : Z) (ip : nat) (offset sz : Z) (i : Z) : M kernel (Z + Z) :=
  if i <? sz then
    pa ← zoom mem_lens (walkaddr pagetable (u64 (va + i)));
    if pa =? 0 then panic "loadseg: address should exist"
    else
      let n := if sz - i <? PGSIZE then sz - i else PGSIZE in
      '(r, _) ← readi me ip (Ram pa) (u32 (offset + i)) n;
      if negb (r =? n) then mret (inr (-1)) else mret (inl (i + PGSIZE))
  else mret (inr 0).

(** Load an ELF program segment into the page table. *)
Definition loadseg (pagetable va : Z) (ip : nat) (offset sz : Z) : M kernel Z :=
  loop (S (S (Z.to_nat (sz / PGSIZE)))) (loadseg_body pagetable va ip offset sz) 0.

Definition exec_bad (pagetable sz : Z) (ip : option nat) : M kernel Z :=
  (if negb (pagetable =? 0) then zoom mem_lens (proc_freepagetable pagetable sz) else mret tt) ;;
  (match ip with
   | Some ip => iunlockput me ip ;; end_op me
   | None => mret tt
   end) ;;
  mret (-1).

(** The loop over the program headers, with [i], [off] and [sz]; it ends with
    the size reached and whether all segments are loaded. *)
Definition exec_load_body (ip : nat) (pagetable phnum : Z) :
    Z * Z * Z → M kernel ((Z * Z * Z) + (Z * bool)) :=
  λ '(i, off, sz),
    if i <? phnum then
      '(r, l) ← readi me ip Local (u32 off) PROGHDR_SIZE;
      if negb (r =? PROGHDR_SIZE) then mret (inr (sz, false))
      else
        let ph := proghdr_of l in
        let next := (i + 1, i32 (off + PROGHDR_SIZE)) in
        if negb (ph_type ph =? ELF_PROG_LOAD) then mret (inl (next, sz))
        else if ph_memsz ph <? ph_filesz ph then mret (inr (sz, false))
        else if u64 (ph_vaddr ph + ph_memsz ph) <? ph_vaddr ph then mret (inr (sz, false))
        else if negb (ph_vaddr ph mod PGSIZE =? 0) then mret (inr (sz, false))
        else
          sz1 ← zoom mem_lens (uvmalloc pagetable sz (u64 (ph_vaddr ph + ph_memsz ph)) (flags2perm (i32 (ph_flags ph))));
          if sz1 =? 0 then mret (inr (sz, false))
          else
            r ← loadseg pagetable (ph_vaddr ph) ip (u32 (ph_off ph)) (u32 (ph_filesz ph));
            if r <? 0 then mret (inr (sz1, false)) else mret (inl (next, sz1))
    else mret (inr (sz, true)).

Definition exec_load (ip : nat) (pagetable : Z) (elf : elfhdr) : M kernel (Z * bool) :=
  loop (S (Z.to_nat (e_phnum elf))) (exec_load_body ip pagetable (e_phnum elf)) (0, i32 (e_phoff elf), 0).

(** Copy argument strings into the new stack; the stack pointer and the
    addresses of the strings, or [None] to give up. *)
Fixpoint push_args (pagetable stackbase : Z) (argv : list (list Z)) (argc sp : Z) (ustack : list Z) :
    M kernel (option (Z * list Z)) :=
  match argv with
  | [] => mret (Some (sp, ustack))
  | s :: argv' =>
      if MAXARG <=? argc then mret None
      else
        let sp := u64 (sp - (Z.of_nat (length s) + 1)) in
        let sp := sp - sp mod 16 in (* riscv sp must be 16-byte aligned *)
        if sp <? stackbase then mret None
        else
          p ← get_proc me;
          r ← zoom mem_lens (copyout (p_sz p) (p_pagetable p) pagetable sp (s ++ [0]));
          if r <? 0 then mret None
          else push_args pagetable stackbase argv' (argc + 1) sp (ustack ++ [sp])
  end.

(** The part of the path behind the last slash. *)
Fixpoint last_elem (path last : list Z) : list Z :=
  match path with
  | [] => last
  | c :: path' => last_elem path' (if c =? SLASH then path' else last)
  end.

(** From the loaded image to the new process. *)
Definition exec_commit (path : list Z) (argv : list (list Z)) (pagetable sz entry : Z) : M kernel Z :=
  p ← get_proc me;
  let oldsz := p_sz p in
  let sz := PGROUNDUP sz in
  sz1 ← zoom mem_lens (uvmalloc pagetable sz (u64 (sz + (USERSTACK + 1) * PGSIZE)) PTE_W);
  if sz1 =? 0 then exec_bad pagetable sz None
  else
    let sz := sz1 in
    zoom mem_lens (uvmclear pagetable (u64 (sz - (USERSTACK + 1) * PGSIZE))) ;;
    let sp := sz in
    let stackbase := u64 (sp - USERSTACK * PGSIZE) in
    r ← push_args pagetable stackbase argv 0 sp [];
    match r with
    | None => exec_bad pagetable sz None
    | Some (sp, ustack) =>
        let argc := Z.of_nat (length ustack) in
        (* ustack has MAXARG entries *)
        if MAXARG <=? argc then ub
        else
          (* push a copy of ustack[], the array of argv[] pointers. *)
          let sp := u64 (sp - (argc + 1) * 8) in
          let sp := sp - sp mod 16 in
          if sp <? stackbase then exec_bad pagetable sz None
          else
            r ← zoom mem_lens (copyout (p_sz p) (p_pagetable p) pagetable sp
                                 (concat (le_bytes 8 <$> (ustack ++ [0]))));
            if r <? 0 then exec_bad pagetable sz None
            else
              tf_set me TF_a1 sp ;;
              (* Save program name for debugging. *)
              upd_proc me (λ p, set_p_name (list_inserts 0 (safestrcpy (chars (last_elem path path)) 16) (p_name p)) p) ;;
              (* Commit to the user image. *)
              p ← get_proc me;
              let oldpagetable := p_pagetable p in
              upd_proc me (set_p_pagetable pagetable) ;;
              upd_proc me (set_p_sz sz) ;;
              tf_set me TF_epc entry ;;
              tf_set me TF_sp sp ;;
              zoom mem_lens (proc_freepagetable oldpagetable oldsz) ;;
              mret argc
    end.

Definition kexec (path : list Z) (argv : list (list Z)) : M kernel Z :=
  begin_op ;;
  ip ← namei me path;
  match ip with
  | None => end_op me ;; mret (-1)
  | Some ip =>
      ilock me ip ;;
      (* Read the ELF header. *)
      '(r, l) ← readi me ip Local 0 ELFHDR_SIZE;
      if negb (r =? ELFHDR_SIZE) then exec_bad 0 0 (Some ip)
      else
        let elf := elfhdr_of l in
        if negb (e_magic elf =? ELF_MAGIC) then exec_bad 0 0 (Some ip)
        else
          p ← get_proc me;
          pagetable ← zoom mem_lens (proc_pagetable (p_trapframe p));
          if pagetable =? 0 then exec_bad 0 0 (Some ip)
          else
            (* Load program into memory. *)
            '(sz, ok) ← exec_load ip pagetable elf;
            if negb ok then exec_bad pagetable sz (Some ip)
            else
              iunlockput me ip ;;
              end_op me ;;
              exec_commit path argv pagetable sz (e_entry elf)
  end.
End exec.
