(* ===== verification/Sysproc.v ===== *)
(** System call arguments ([kernel/syscall.c]) and the system calls of
    [kernel/sysproc.c]. *)

From S2P Require Import Prelude Riscv Mem Str Kalloc Vm State Sched Procmem Console Sleeplock Bio Block Log Fs Dir File Proc.

Definition SBRK_EAGER : Z := 1.
Definition ticks_chan : channel := ("ticks", 0).

Section args.
Context `{KernelImage} `{KernelText} (me : nat).

(** * Fetching arguments *)

(** The [uint64] at an address of the current process; [None] for -1. *)
Definition fetchaddr (addr : Z) : M kernel (option Z) :=
  p ← get_proc me;
  if (p_sz p <=? addr) || (p_sz p <? u64 (addr + 8)) then mret None
  else
    '(r, l) ← zoom mem_lens (copyin (p_sz p) (p_pagetable p) (p_pagetable p) addr 8);
    mret (if negb (r =? 0) then None else Some (le_val l)).

(** The characters of a string of the current process; its length is the
    value the C function returns, [None] is -1. *)
Definition fetchstr (addr max : Z) : M kernel (option (list Z)) :=
  p ← get_proc me;
  '(r, l) ← zoom mem_lens (copyinstr (p_pagetable p) addr max);
  mret (if r <? 0 then None else Some (take (length l - 1) l)).

Definition argraw (n : Z) : M kernel Z :=
  if (0 <=? n) && (n <=? 5) then tf_get me (TF_a0 + 8 * n)
  else panic "argraw".

Definition argint (n : Z) : M kernel Z := v ← argraw n; mret (i32 v).
Definition argaddr (n : Z) : M kernel Z := argraw n.
Definition argstr (n max : Z) : M kernel (option (list Z)) := a ← argaddr n; fetchstr a max.

(** * sysproc.c *)

(** [kexit] does not return. *)
Definition sys_exit : M kernel unit := n ← argint 0; kexit me n.
Definition sys_getpid : M kernel Z := p ← get_proc me; mret (p_pid p).
Definition sys_fork : M kernel Z := kfork me.
Definition sys_wait : M kernel (step unit Z) := p ← argaddr 0; kwait me p.

Definition sys_sbrk : M kernel Z :=
  n ← argint 0;
  t ← argint 1;
  p ← get_proc me;
  let addr := p_sz p in
  if (t =? SBRK_EAGER) || (n <? 0) then
    r ← growproc me n;
    mret (if r <? 0 then -1 else addr)
  else
    (* Lazily allocate memory for this process. *)
    if u64 (addr + n) <? addr then mret (-1)
    else if TRAPFRAME <? u64 (addr + n) then mret (-1)
    else
      upd_proc me (λ p, set_p_sz (u64 (p_sz p + n)) p) ;;
      mret addr.

(** The loop of [sys_pause]; [ticks0] is the time it was entered. *)
Definition pause_loop (n ticks0 : Z) : M kernel (step Z Z) :=
  now ← gets k_ticks;
  if u32 (now - ticks0) <? n then
    k ← killed me;
    if negb (k =? 0) then mret (Return (-1))
    else mret (Block ticks_chan ticks0)
  else mret (Return 0).

Definition sys_pause : M kernel (step Z Z) :=
  n ← argint 0;
  let n := if n <? 0 then 0 else n in
  ticks0 ← gets k_ticks;
  pause_loop n ticks0.

Definition sleep_loop (n ticks0 : Z) : M kernel (step Z Z) :=
  now ← gets k_ticks;
  if u32 (now - ticks0) <? n then
    k ← killed me;
    if negb (k =? 0) then mret (Return (-1))
    else mret (Block ticks_chan ticks0)
  else mret (Return 0).

Definition sys_sleep : M kernel (step Z Z) :=
  n ← argint 0;
  let n := if n <? 0 then 0 else n in
  ticks0 ← gets k_ticks;
  sleep_loop n ticks0.

Definition sys_kill : M kernel Z := pid ← argint 0; kkill pid.
Definition sys_uptime : M kernel Z := gets k_ticks.
Definition sys_freemem : M kernel Z := zoom mem_lens kfreemem.
End args.
