(* ===== verification/Sysfile.v ===== *)
(** File system calls, [kernel/sysfile.c].

    Every call runs in the context of process [me]; a path is the sequence of
    its characters, and [char name[DIRSIZ]] is written before it is read. *)

From S2P Require Import Prelude Riscv Mem Str Kalloc Vm State Sched Procmem Console Sleeplock Bio Block Log Fs Dir File Proc Exec Sysproc.

Definition O_RDONLY : Z := 0x000.
Definition O_WRONLY : Z := 0x001.
Definition O_RDWR : Z := 0x002.
Definition O_CREATE : Z := 0x200.
Definition O_TRUNC : Z := 0x400.
Definition has_bit (x b : Z) : bool := negb (Z.land x b =? 0).

Definition name0 : list Z := replicate (Z.to_nat DIRSIZ) 0.
Definition DOT : list Z := [46].
Definition DOTDOT : list Z := [46; 46].

(** The first free descriptor. *)
Fixpoint free_fd {A} (l : list (option A)) (i : nat) : option nat :=
  match l with
  | [] => None
  | None :: _ => Some i
  | Some _ :: l' => free_fd l' (S i)
  end.

Section sysfile.
Context `{KernelImage} `{KernelText} (me : nat).

(** The descriptor and the file of the [n]th argument; [None] for -1. *)
Definition argfd (n : Z) : M kernel (option (Z * nat)) :=
  fd ← argint me n;
  if (fd <? 0) || (NOFILE <=? fd) then mret None
  else
    p ← get_proc me;
    match p_ofile p !! Z.to_nat fd with
    | None => ub
    | Some None => mret None
    | Some (Some f) => mret (Some (fd, f))
    end.

(** A descriptor for the file, or -1. *)
Definition fdalloc (f : nat) : M kernel Z :=
  p ← get_proc me;
  match free_fd (p_ofile p) 0 with
  | Some fd =>
      upd_proc me (λ p, set_p_ofile (<[fd := Some f]> (p_ofile p)) p) ;;
      mret (Z.of_nat fd)
  | None => mret (-1)
  end.

(** [p->ofile[fd] = 0] *)
Definition clear_fd (fd : Z) : M kernel unit :=
  upd_proc me (λ p, set_p_ofile (<[Z.to_nat fd := None]> (p_ofile p)) p).

Definition sys_dup : M kernel Z :=
  r ← argfd 0;
  match r with
  | None => mret (-1)
  | Some (_, f) =>
      fd ← fdalloc f;
      if fd <? 0 then mret (-1)
      else filedup f ;; mret fd
  end.

Definition sys_read : M kernel Z :=
  p ← argaddr me 1;
  n ← argint me 2;
  r ← argfd 0;
  match r with
  | None => mret (-1)
  | Some (_, f) => fileread me f p n
  end.

Definition sys_write : M kernel Z :=
  p ← argaddr me 1;
  n ← argint me 2;
  r ← argfd 0;
  match r with
  | None => mret (-1)
  | Some (_, f) => filewrite me f p n
  end.

Definition sys_close : M kernel Z :=
  r ← argfd 0;
  match r with
  | None => mret (-1)
  | Some (fd, f) =>
      clear_fd fd ;;
      fileclose me f ;;
      mret 0
  end.

(** [pad]: the padding bytes of the local [struct stat] of [filestat]. *)
Definition sys_fstat (pad : list Z) : M kernel Z :=
  st ← argaddr me 1;
  r ← argfd 0;
  match r with
  | None => mret (-1)
  | Some (_, f) => filestat me f st pad
  end.

(** Change the link count of a locked inode and write it to disk. *)
Definition add_nlink (ip : nat) (d : Z) : M kernel unit :=
  upd_inode ip (λ x, set_i_nlink (i16 (i_nlink x + d)) x) ;;
  iupdate me ip.

Definition link_bad (ip : nat) : M kernel Z :=
  ilock me ip ;;
  add_nlink ip (-1) ;;
  iunlockput me ip ;;
  end_op me ;;
  mret (-1).

(** Create the path new as a link to the same inode as old. *)
Definition sys_link : M kernel Z :=
  old ← argstr me 0 MAXPATH;
  match old with
  | None => mret (-1)
  | Some old =>
      new ← argstr me 1 MAXPATH;
      match new with
      | None => mret (-1)
      | Some new =>
          begin_op ;;
          ip ← namei me old;
          match ip with
          | None => end_op me ;; mret (-1)
          | Some ip =>
              ilock me ip ;;
              x ← get_inode ip;
              if i_type x =? T_DIR then
                iunlockput me ip ;;
                end_op me ;;
                mret (-1)
              else
                add_nlink ip 1 ;;
                iunlock me ip ;;
                '(dp, name) ← nameiparent me new name0;
                match dp with
                | None => link_bad ip
                | Some dp =>
                    ilock me dp ;;
                    d ← get_inode dp;
                    x ← get_inode ip;
                    r ← (if negb (i_dev d =? i_dev x) then mret (-1) else dirlink me dp name (i_inum x));
                    if r <? 0 then
                      iunlockput me dp ;;
                      link_bad ip
                    else
                      iunlockput me dp ;;
                      iput me ip ;;
                      end_op me ;;
                      mret 0
                end
          end
      end
  end.

Definition isdirempty_body (dp : nat) (off : Z) : M kernel (Z + bool) :=
  x ← get_inode dp;
  if u32 off <? i_size x then
    de ← read_dirent me "isdirempty: readi" dp (u32 off);
    if negb (de_inum de =? 0) then mret (inr false)
    else
      off' ← add_int off DIRENT_SIZE;
      mret (inl off')
  else mret (inr true).

(** Is the directory empty except for dot and dot-dot? *)
Definition isdirempty (dp : nat) : M kernel bool :=
  x ← get_inode dp;
  loop (S (S (Z.to_nat (i_size x / DIRENT_SIZE)))) (isdirempty_body dp) (2 * DIRENT_SIZE).

Definition unlink_bad (dp : nat) : M kernel Z :=
  iunlockput me dp ;;
  end_op me ;;
  mret (-1).

Definition sys_unlink : M kernel Z :=
  path ← argstr me 0 MAXPATH;
  match path with
  | None => mret (-1)
  | Some path =>
      begin_op ;;
      '(dp, name) ← nameiparent me path name0;
      match dp with
      | None => end_op me ;; mret (-1)
      | Some dp =>
          ilock me dp ;;
          (* Cannot unlink dot or dot-dot. *)
          if (namecmp name DOT =? 0) || (namecmp name DOTDOT =? 0) then unlink_bad dp
          else
            r ← dirlookup me dp name;
            match r with
            | None => unlink_bad dp
            | Some (ip, off) =>
                ilock me ip ;;
                x ← get_inode ip;
                if i_nlink x <? 1 then panic "unlink: nlink < 1"
                else
                  empty ← (if i_type x =? T_DIR then isdirempty ip else mret true);
                  if negb empty then
                    iunlockput me ip ;;
                    unlink_bad dp
                  else
                    r ← writei me dp Local (replicate (Z.to_nat DIRENT_SIZE) 0) off DIRENT_SIZE;
                    if negb (r =? DIRENT_SIZE) then panic "unlink: writei"
                    else
                      (if i_type x =? T_DIR then add_nlink dp (-1) else mret tt) ;;
                      iunlockput me dp ;;
                      add_nlink ip (-1) ;;
                      iunlockput me ip ;;
                      end_op me ;;
                      mret 0
            end
      end
  end.

(** Something went wrong: de-allocate [ip]. *)
Definition create_fail (ip dp : nat) : M kernel (option nat) :=
  upd_inode ip (set_i_nlink 0) ;;
  iupdate me ip ;;
  iunlockput me ip ;;
  iunlockput me dp ;;
  mret None.

Definition create (path : list Z) (type major minor : Z) : M kernel (option nat) :=
  '(dp, name) ← nameiparent me path name0;
  match dp with
  | None => mret None
  | Some dp =>
      ilock me dp ;;
      r ← dirlookup me dp name;
      match r with
      | Some (ip, _) =>
          iunlockput me dp ;;
          ilock me ip ;;
          x ← get_inode ip;
          if (type =? T_FILE) && ((i_type x =? T_FILE) || (i_type x =? T_DEVICE)) then mret (Some ip)
          else iunlockput me ip ;; mret None
      | None =>
          d ← get_inode dp;
          ip ← ialloc me (i_dev d) type;
          match ip with
          | None => iunlockput me dp ;; mret None
          | Some ip =>
              ilock me ip ;;
              upd_inode ip (λ x, set_i_nlink 1 (set_i_minor minor (set_i_major major x))) ;;
              iupdate me ip ;;
              x ← get_inode ip;
              d ← get_inode dp;
              (* Create . and .. entries. *)
              r ← (if type =? T_DIR then
                     r ← dirlink me ip DOT (i_inum x);
                     if r <? 0 then mret (-1) else dirlink me ip DOTDOT (i_inum d)
                   else mret 0);
              if r <? 0 then create_fail ip dp
              else
                r ← dirlink me dp name (i_inum x);
                if r <? 0 then create_fail ip dp
                else
                  (if type =? T_DIR then add_nlink dp 1 (* for .. *) else mret tt) ;;
                  iunlockput me dp ;;
                  mret (Some ip)
          end
      end
  end.

(** The rest of [sys_open], from the locked inode. *)
Definition open_inode (ip : nat) (omode : Z) : M kernel Z :=
  x ← get_inode ip;
  if (i_type x =? T_DEVICE) && ((i_major x <? 0) || (NDEV <=? i_major x)) then
    iunlockput me ip ;;
    end_op me ;;
    mret (-1)
  else
    f ← filealloc;
    match f with
    | None => iunlockput me ip ;; end_op me ;; mret (-1)
    | Some f =>
        fd ← fdalloc f;
        if fd <? 0 then
          fileclose me f ;;
          iunlockput me ip ;;
          end_op me ;;
          mret (-1)
        else
          (if i_type x =? T_DEVICE then
             upd_file f (λ y, set_f_major (i_major x) (set_f_type FD_DEVICE y))
           else upd_file f (λ y, set_f_off 0 (set_f_type FD_INODE y))) ;;
          upd_file f (λ y, set_f_writable (has_bit omode O_WRONLY || has_bit omode O_RDWR)
            (set_f_readable (negb (has_bit omode O_WRONLY)) (set_f_ip (Some ip) y))) ;;
          (if has_bit omode O_TRUNC && (i_type x =? T_FILE) then itrunc me ip else mret tt) ;;
          iunlock me ip ;;
          end_op me ;;
          mret fd
    end.

Definition sys_open : M kernel Z :=
  omode ← argint me 1;
  path ← argstr me 0 MAXPATH;
  match path with
  | None => mret (-1)
  | Some path =>
      begin_op ;;
      if has_bit omode O_CREATE then
        ip ← create path T_FILE 0 0;
        match ip with
        | None => end_op me ;; mret (-1)
        | Some ip => open_inode ip omode
        end
      else
        ip ← namei me path;
        match ip with
        | None => end_op me ;; mret (-1)
        | Some ip =>
            ilock me ip ;;
            x ← get_inode ip;
            if (i_type x =? T_DIR) && negb (omode =? O_RDONLY) then
              iunlockput me ip ;;
              end_op me ;;
              mret (-1)
            else open_inode ip omode
        end
  end.

(** The common end of [sys_mkdir] and [sys_mknod]. *)
Definition make_done (ip : option nat) : M kernel Z :=
  match ip with
  | None => end_op me ;; mret (-1)
  | Some ip => iunlockput me ip ;; end_op me ;; mret 0
  end.

Definition sys_mkdir : M kernel Z :=
  begin_op ;;
  path ← argstr me 0 MAXPATH;
  ip ← (match path with None => mret None | Some path => create path T_DIR 0 0 end);
  make_done ip.

Definition sys_mknod : M kernel Z :=
  begin_op ;;
  major ← argint me 1;
  minor ← argint me 2;
  path ← argstr me 0 MAXPATH;
  ip ← (match path with None => mret None | Some path => create path T_DEVICE (i16 major) (i16 minor) end);
  make_done ip.

Definition sys_chdir : M kernel Z :=
  begin_op ;;
  path ← argstr me 0 MAXPATH;
  ip ← (match path with None => mret None | Some path => namei me path end);
  match ip with
  | None => end_op me ;; mret (-1)
  | Some ip =>
      ilock me ip ;;
      x ← get_inode ip;
      if negb (i_type x =? T_DIR) then
        iunlockput me ip ;;
        end_op me ;;
        mret (-1)
      else
        iunlock me ip ;;
        p ← get_proc me;
        (match p_cwd p with None => ub | Some d => iput me d end) ;;
        end_op me ;;
        upd_proc me (set_p_cwd (Some ip)) ;;
        mret 0
  end.

(** The loop of [sys_exec] that copies the arguments to pages of the kernel:
    the pages, and the strings if all could be fetched. *)
Definition exec_args_body (uargv : Z) :
    Z * list Z * list (list Z) → M kernel ((Z * list Z * list (list Z)) + (list Z * option (list (list Z)))) :=
  λ '(i, pages, strs),
    if MAXARG <=? i then mret (inr (pages, None))
    else
      uarg ← fetchaddr me (u64 (uargv + 8 * i));
      match uarg with
      | None => mret (inr (pages, None))
      | Some uarg =>
          if uarg =? 0 then mret (inr (pages, Some strs))
          else
            pa ← zoom mem_lens kalloc;
            if pa =? 0 then mret (inr (pages, None))
            else
              p ← get_proc me;
              '(r, l) ← zoom mem_lens (copyinstr (p_pagetable p) uarg PGSIZE);
              zoom mem_lens (modify (λ s, set_mem (stbytes (kmem s) pa l) s)) ;;
              if r <? 0 then mret (inr (pages ++ [pa], None))
              else mret (inl (i + 1, pages ++ [pa], strs ++ [take (length l - 1) l]))
      end.

Definition sys_exec : M kernel Z :=
  uargv ← argaddr me 1;
  path ← argstr me 0 MAXPATH;
  match path with
  | None => mret (-1)
  | Some path =>
      '(pages, strs) ← loop (S (Z.to_nat MAXARG)) (exec_args_body uargv) (0, [], []);
      ret ← (match strs with
             | Some argv => kexec me path argv
             | None => mret (-1)
             end);
      foreach pages (λ pa, zoom mem_lens (kfree pa)) ;;
      mret ret
  end.

Definition pipe_bad (fds : list Z) (rf wf : nat) : M kernel Z :=
  foreach fds clear_fd ;;
  fileclose me rf ;;
  fileclose me wf ;;
  mret (-1).

Definition sys_pipe : M kernel Z :=
  fdarray ← argaddr me 0;
  r ← pipealloc me;
  match r with
  | None => mret (-1)
  | Some (rf, wf) =>
      fd0 ← fdalloc rf;
      if fd0 <? 0 then pipe_bad [] rf wf
      else
        fd1 ← fdalloc wf;
        if fd1 <? 0 then pipe_bad [fd0] rf wf
        else
          r ← either_copyout me (User fdarray) (le_bytes 4 fd0);
          if r <? 0 then pipe_bad [fd0; fd1] rf wf
          else
            r ← either_copyout me (User (u64 (fdarray + 4))) (le_bytes 4 fd1);
            if r <? 0 then pipe_bad [fd0; fd1] rf wf
            else mret 0
  end.
End sysfile.
