(* ===== verification/Trap.v ===== *)
(** System calls and traps: [syscall] of [kernel/syscall.c], [kernel/trap.c],
    [kernel/plic.c] and [forkret] of [kernel/proc.c].

    The state of a trap is the kernel, the disk driver and the registers of the
    hart that takes it.  A trap is handled with interrupts off or is itself a
    step of the model.  A handler that does not come back to the process,
    because the process exits, returns [None]. *)

From S2P Require Import Prelude Riscv Mem Str Kalloc Vm State Sched Procmem Console Sleeplock Bio Block Log Fs Dir File Proc Exec Sysproc Sysfile Virtio.

Definition SSTATUS_SPP : Z := Z.shiftl 1 8.
Definition SSTATUS_SPIE : Z := Z.shiftl 1 5.
Definition SSTATUS_SIE : Z := Z.shiftl 1 1.

(** The registers the handlers use. *)
Record hart := Hart {
  h_tp : Z;  (* hart number *)
  h_sstatus : Z;
  h_sepc : Z;
  h_scause : Z;
  h_stval : Z;
  h_stvec : Z;
  h_satp : Z;
  h_time : Z;
  h_stimecmp : Z;
  h_claims : list Z;  (* what the claim register of the PLIC will read *)
  h_completed : list Z;  (* what has been written to it, latest first *)
}.

Definition set_h_tp (v : Z) (x : hart) : hart :=
  Hart v (h_sstatus x) (h_sepc x) (h_scause x) (h_stval x) (h_stvec x) (h_satp x) (h_time x) (h_stimecmp x) (h_claims x) (h_completed x).
Definition set_h_sstatus (v : Z) (x : hart) : hart :=
  Hart (h_tp x) v (h_sepc x) (h_scause x) (h_stval x) (h_stvec x) (h_satp x) (h_time x) (h_stimecmp x) (h_claims x) (h_completed x).
Definition set_h_sepc (v : Z) (x : hart) : hart :=
  Hart (h_tp x) (h_sstatus x) v (h_scause x) (h_stval x) (h_stvec x) (h_satp x) (h_time x) (h_stimecmp x) (h_claims x) (h_completed x).
Definition set_h_scause (v : Z) (x : hart) : hart :=
  Hart (h_tp x) (h_sstatus x) (h_sepc x) v (h_stval x) (h_stvec x) (h_satp x) (h_time x) (h_stimecmp x) (h_claims x) (h_completed x).
Definition set_h_stval (v : Z) (x : hart) : hart :=
  Hart (h_tp x) (h_sstatus x) (h_sepc x) (h_scause x) v (h_stvec x) (h_satp x) (h_time x) (h_stimecmp x) (h_claims x) (h_completed x).
Definition set_h_stvec (v : Z) (x : hart) : hart :=
  Hart (h_tp x) (h_sstatus x) (h_sepc x) (h_scause x) (h_stval x) v (h_satp x) (h_time x) (h_stimecmp x) (h_claims x) (h_completed x).
Definition set_h_satp (v : Z) (x : hart) : hart :=
  Hart (h_tp x) (h_sstatus x) (h_sepc x) (h_scause x) (h_stval x) (h_stvec x) v (h_time x) (h_stimecmp x) (h_claims x) (h_completed x).
Definition set_h_time (v : Z) (x : hart) : hart :=
  Hart (h_tp x) (h_sstatus x) (h_sepc x) (h_scause x) (h_stval x) (h_stvec x) (h_satp x) v (h_stimecmp x) (h_claims x) (h_completed x).
Definition set_h_stimecmp (v : Z) (x : hart) : hart :=
  Hart (h_tp x) (h_sstatus x) (h_sepc x) (h_scause x) (h_stval x) (h_stvec x) (h_satp x) (h_time x) v (h_claims x) (h_completed x).
Definition set_h_claims (v : list Z) (x : hart) : hart :=
  Hart (h_tp x) (h_sstatus x) (h_sepc x) (h_scause x) (h_stval x) (h_stvec x) (h_satp x) (h_time x) (h_stimecmp x) v (h_completed x).
Definition set_h_completed (v : list Z) (x : hart) : hart :=
  Hart (h_tp x) (h_sstatus x) (h_sepc x) (h_scause x) (h_stval x) (h_stvec x) (h_satp x) (h_time x) (h_stimecmp x) (h_claims x) v.

Record machine := Machine { m_k : kernel; m_h : hart; m_v : vdisk }.
Definition kern : lens machine kernel := Lens m_k (λ k m, Machine k (m_h m) (m_v m)).
Definition regs : lens machine hart := Lens m_h (λ h m, Machine (m_k m) h (m_v m)).
Definition vdsk : lens machine vdisk := Lens m_v (λ v m, Machine (m_k m) (m_h m) v).

Definition hreg {A} (f : hart → A) : M machine A := gets (λ m, f (m_h m)).
Definition hset (f : hart → hart) : M machine unit := zoom regs (modify f).

(** * plic.c *)

Definition plic_claim : M machine Z :=
  l ← hreg h_claims;
  match l with
  | [] => mret 0
  | irq :: l' => hset (set_h_claims l') ;; mret irq
  end.

Definition plic_complete (irq : Z) : M machine unit := hset (λ h, set_h_completed (irq :: h_completed h) h).

Section trap.
Context `{KernelImage} `{KernelText}.

(** * System calls *)

Definition unknown_msg : list Z := str "%d %s: unknown sys call %d" ++ [10].

(** The result of system call [num]: [None] if there is none with that number,
    [Some None] if it does not return.  [pad] is the padding of the [struct
    stat] that fstat copies out. *)
Definition syscalls (me : nat) (pad : list Z) (num : Z) : option (M kernel (option Z)) :=
  let ret (m : M kernel Z) : option (M kernel (option Z)) := Some (r ← m; mret (Some (u64 r))) in
  if num =? 1 then ret (sys_fork me)
  else if num =? 2 then Some (sys_exit me ;; mret None)
  else if num =? 3 then ret (wait_for (sys_wait me))
  else if num =? 4 then ret (sys_pipe me)
  else if num =? 5 then ret (sys_read me)
  else if num =? 6 then ret (sys_kill me)
  else if num =? 7 then ret (sys_exec me)
  else if num =? 8 then ret (sys_fstat me pad)
  else if num =? 9 then ret (sys_chdir me)
  else if num =? 10 then ret (sys_dup me)
  else if num =? 11 then ret (sys_getpid me)
  else if num =? 12 then ret (sys_sbrk me)
  else if num =? 13 then ret (wait_for (sys_pause me))
  else if num =? 14 then ret sys_uptime
  else if num =? 15 then ret (sys_open me)
  else if num =? 16 then ret (sys_write me)
  else if num =? 17 then ret (sys_mknod me)
  else if num =? 18 then ret (sys_unlink me)
  else if num =? 19 then ret (sys_link me)
  else if num =? 20 then ret (sys_mkdir me)
  else if num =? 21 then ret (sys_close me)
  else if num =? 22 then ret (wait_for (sys_sleep me))
  else if num =? 23 then ret sys_freemem
  else None.

(** [false] if the process has exited. *)
Definition syscall (me : nat) (pad : list Z) : M kernel bool :=
  a7 ← tf_get me TF_a7;
  let num := i32 a7 in
  match syscalls me pad num with
  | Some f =>
      r ← f;
      match r with
      | Some v => tf_set me TF_a0 v ;; mret true
      | None => mret false
      end
  | None =>
      p ← get_proc me;
      printf unknown_msg [Num (p_pid p); Str (Some (c_string (p_name p))); Num num] ;;
      tf_set me TF_a0 (-1) ;;
      mret true
  end.

(** * Device interrupts *)

Definition clockintr (me : option nat) : M machine unit :=
  id ← hreg h_tp;
  (if id =? 0 then
     zoom kern (modify (λ k, set_k_ticks (u32 (k_ticks k + 1)) k) ;; wakeup me ticks_chan)
   else mret tt) ;;
  t ← hreg h_time;
  hset (set_h_stimecmp (u64 (t + 1000000))).

(** The driver's handler, and the wakeups it asks for. *)
Definition disk_intr (me : option nat) : M machine unit :=
  zoom vdsk virtio_disk_intr ;;
  l ← gets (λ m, v_wakeups (m_v m));
  zoom vdsk (modify (set_v_wakeups [])) ;;
  foreach (reverse l) (λ c, zoom kern (wakeup me c)).

Definition irq_msg : list Z := str "unexpected interrupt irq=%d" ++ [10].

(** 2 for a timer interrupt, 1 for another device, 0 if not recognized. *)
Definition devintr (me : option nat) : M machine Z :=
  scause ← hreg h_scause;
  if scause =? 0x8000000000000009 then
    irq ← plic_claim;
    (if irq =? UART0_IRQ then zoom kern (uartintr me)
     else if irq =? VIRTIO0_IRQ then disk_intr me
     else if negb (irq =? 0) then zoom kern (printf irq_msg [Num irq])
     else mret tt) ;;
    (if negb (irq =? 0) then plic_complete irq else mret tt) ;;
    mret 1
  else if scause =? 0x8000000000000005 then
    clockintr me ;;
    mret 2
  else mret 0.

(** * Returning to user space *)

Definition prepare_return (me : nat) : M machine unit :=
  hset (λ h, set_h_sstatus (Z.land (h_sstatus h) (Z.lnot SSTATUS_SIE)) h) ;;
  hset (set_h_stvec (TRAMPOLINE + (addr_uservec - kernel_trampoline))) ;;
  satp ← hreg h_satp;
  tp ← hreg h_tp;
  p ← zoom kern (get_proc me);
  zoom kern (tf_set me TF_kernel_satp satp) ;;
  zoom kern (tf_set me TF_kernel_sp (p_kstack p + PGSIZE)) ;;
  zoom kern (tf_set me TF_kernel_trap addr_usertrap) ;;
  zoom kern (tf_set me TF_kernel_hartid tp) ;;
  hset (λ h, set_h_sstatus (Z.lor (Z.land (h_sstatus h) (Z.lnot SSTATUS_SPP)) SSTATUS_SPIE) h) ;;
  epc ← zoom kern (tf_get me TF_epc);
  hset (set_h_sepc epc).

(** * usertrap *)

Definition scause_fmt : list Z := str "usertrap(): unexpected scause 0x%lx pid=%d" ++ [10].
Definition sepc_fmt : list Z := str "            sepc=0x%lx stval=0x%lx" ++ [10].

(** The dispatch on the cause: [Some which_dev], or [None] if the process has
    exited. *)
Definition usertrap_cause (me : nat) (pad : list Z) : M machine (option Z) :=
  scause ← hreg h_scause;
  stval ← hreg h_stval;
  p ← zoom kern (get_proc me);
  if scause =? 8 then
    (* system call *)
    k ← zoom kern (killed me);
    if negb (k =? 0) then zoom kern (kexit me (-1)) ;; mret None
    else
      epc ← zoom kern (tf_get me TF_epc);
      zoom kern (tf_set me TF_epc (epc + 4)) ;;
      hset (λ h, set_h_sstatus (Z.lor (h_sstatus h) SSTATUS_SIE) h) ;;
      ok ← zoom kern (syscall me pad);
      mret (if ok : bool then Some 0 else None)
  else
    which_dev ← devintr (Some me);
    if negb (which_dev =? 0) then mret (Some which_dev)
    else if scause =? 15 then
      (* Store page fault (handle CoW) *)
      r ← zoom kern (zoom mem_lens (cowalloc (p_pagetable p) stval));
      (if r <? 0 then zoom kern (setkilled me) else mret tt) ;;
      mret (Some 0)
    else
      r ← (if (scause =? 15) || (scause =? 13) then
             zoom kern (zoom mem_lens (vmfault (p_sz p) (p_pagetable p) (p_pagetable p) stval))
           else mret 0);
      if negb (r =? 0) then mret (Some 0) (* page fault on lazily-allocated page *)
      else
        sepc ← hreg h_sepc;
        zoom kern (printf scause_fmt [Num scause; Num (p_pid p)]) ;;
        zoom kern (printf sepc_fmt [Num sepc; Num stval]) ;;
        zoom kern (setkilled me) ;;
        mret (Some 0).

(** The user page table to switch to. *)
Definition usertrap (me : nat) (pad : list Z) : M machine (option Z) :=
  sstatus ← hreg h_sstatus;
  if negb (Z.land sstatus SSTATUS_SPP =? 0) then panic "usertrap: not from user mode"
  else
    hset (set_h_stvec addr_kernelvec) ;;
    (* save user program counter. *)
    sepc ← hreg h_sepc;
    zoom kern (tf_set me TF_epc sepc) ;;
    r ← usertrap_cause me pad;
    match r with
    | None => mret None
    | Some which_dev =>
        k ← zoom kern (killed me);
        if negb (k =? 0) then zoom kern (kexit me (-1)) ;; mret None
        else
          (* give up the CPU if this is a timer interrupt. *)
          (if which_dev =? 2 then zoom kern (usertrap_tick me) else mret tt) ;;
          prepare_return me ;;
          p ← zoom kern (get_proc me);
          mret (Some (MAKE_SATP (p_pagetable p)))
    end.

(** * kerneltrap *)

Definition kernel_fmt : list Z := str "scause=0x%lx sepc=0x%lx stval=0x%lx" ++ [10].

Definition kerneltrap (me : option nat) : M machine unit :=
  sepc ← hreg h_sepc;
  sstatus ← hreg h_sstatus;
  scause ← hreg h_scause;
  if Z.land sstatus SSTATUS_SPP =? 0 then panic "kerneltrap: not from supervisor mode"
  else if negb (Z.land sstatus SSTATUS_SIE =? 0) then panic "kerneltrap: interrupts enabled"
  else
    which_dev ← devintr me;
    if which_dev =? 0 then
      stval ← hreg h_stval;
      zoom kern (printf kernel_fmt [Num scause; Num sepc; Num stval]) ;;
      panic "kerneltrap"
    else
      (if which_dev =? 2 then zoom kern (kerneltrap_tick me) else mret tt) ;;
      hset (set_h_sepc sepc) ;;
      hset (set_h_sstatus sstatus).

Definition trapinithart : M machine unit := hset (set_h_stvec addr_kernelvec).

(** * forkret *)

Definition init_path : list Z := str "/init".

(** [first] is the static variable of [forkret]; the value for [userret]. *)
Definition forkret (me : nat) (first : bool) : M machine Z :=
  (if first then
     zoom kern (fsinit me ROOTDEV) ;;
     r ← zoom kern (kexec me init_path [init_path]);
     zoom kern (tf_set me TF_a0 r) ;;
     a0 ← zoom kern (tf_get me TF_a0);
     if a0 =? u64 (-1) then panic "exec" else mret tt
   else mret tt) ;;
  prepare_return me ;;
  p ← zoom kern (get_proc me);
  mret (MAKE_SATP (p_pagetable p)).
End trap.
