(* ===== verification/Calm.v ===== *)
(** The operations that leave the processes alone.

    Almost all of the kernel, in particular the whole file system, changes the
    process table only in these ways: it wakes sleeping processes, changes
    files, memory, name and working directory of a process, or moves
    processes between queues.  [calm s s'] says that this is all that happened
    between [s] and [s']; every operation below the process system calls is
    shown to be [calm]. *)

From S2P Require Import Prelude Riscv Mem Str Kalloc Vm State Sched Procmem Console Pipe Sleeplock Bio Block Log Fs Dir File Proc Exec Sysproc Sysfile.

Lemma mlfq_ext p p' : p_priority p' = p_priority p → p_ticks_count p' = p_ticks_count p → p_ticks_in_q p' = p_ticks_in_q p → mlfq_ok p → mlfq_ok p'.
Proof. intros E1 E2 E3 []. split; by rewrite ?E1, ?E2, ?E3. Qed.

Record calm_proc (p p' : proc) : Prop := {
  cp_pid : p_pid p' = p_pid p;
  cp_parent : p_parent p' = p_parent p;
  cp_state : p_state p' = p_state p ∨ p_state p = SLEEPING ∧ p_state p' = RUNNABLE;
  cp_sched : mlfq_ok p → mlfq_ok p';
  cp_kstack : p_kstack p' = p_kstack p;
  cp_ofile : length (p_ofile p') = length (p_ofile p);
  cp_name : length (p_name p') = length (p_name p);
}.

Record calm (s s' : kernel) : Prop := {
  ca_pid : k_nextpid s' = k_nextpid s;
  ca_init : k_initproc s' = k_initproc s;
  ca_proc : Forall2 calm_proc (k_proc s) (k_proc s');
}.

#[export] Instance calm_proc_refl : Reflexive calm_proc.
Proof. intros p. split; auto. Qed.
#[export] Instance calm_proc_trans : Transitive calm_proc.
Proof.
  intros p q r H1 H2. split; try (etrans; [apply H2|apply H1]); [|by intros ?; apply H2, H1].
  destruct (cp_state _ _ H1) as [E|[E1 E2]], (cp_state _ _ H2) as [F|[F1 F2]]; [left|right|right|]; try split; congruence.
Qed.
#[export] Instance calm_refl : Reflexive calm.
Proof. intros s. by split. Qed.
#[export] Instance calm_trans : Transitive calm.
Proof. intros s t u H1 H2. split; [etrans; [apply H2|apply H1]..|]. etrans; [apply H1|apply H2]. Qed.

(** A run of [m] is calm. *)
Definition calmly {A} (m : M kernel A) : Prop := ∀ s a s', m s = Ok (a, s') → calm s s'.

(** * The rules *)

Lemma calmly_ret {A} (a : A) : calmly (mret a).
Proof. intros s b s' [= <- <-]. done. Qed.
Lemma calmly_bind {A B} (m : M kernel A) (f : A → M kernel B) : calmly m → (∀ a, calmly (f a)) → calmly (m ≫= f).
Proof. intros Hm Hf s b s' (a & t & H1 & H2)%bind_Ok. etrans; [by eapply Hm|by eapply Hf]. Qed.
Lemma calmly_gets {A} (g : kernel → A) : calmly (gets g).
Proof. intros s b s' [= <- <-]. done. Qed.
Lemma calmly_panic {A} msg : calmly (panic msg : M kernel A).
Proof. by intros s b s'. Qed.
Lemma calmly_ub {A} : calmly (ub : M kernel A).
Proof. by intros s b s'. Qed.
Lemma calmly_nofuel {A} : calmly (nofuel : M kernel A).
Proof. by intros s b s'. Qed.
Lemma calmly_sleep {A} c : calmly (sleep_on c : M kernel A).
Proof. by intros s b s'. Qed.

Lemma calmly_foreach {A} (l : list A) (f : A → M kernel unit) : (∀ x, calmly (f x)) → calmly (foreach l f).
Proof. intros Hf. induction l as [|x l IH]; [intros s b s' [= <- <-]; done|]. apply calmly_bind; [apply Hf|]. by intros []. Qed.
Lemma calmly_scan {A B} (l : list A) (f : A → M kernel (option B)) : (∀ x, calmly (f x)) → calmly (scan l f).
Proof.
  intros Hf. induction l as [|x l IH]; [intros s b s' [= <- <-]; done|]. apply calmly_bind; [apply Hf|]. intros [r|]; [|done].
  intros s b s' [= <- <-]. done.
Qed.
Lemma calmly_loop {A B} fuel (body : A → M kernel (A + B)) a : (∀ a, calmly (body a)) → calmly (loop fuel body a).
Proof.
  intros Hb. revert a. induction fuel as [|n IH]; intros a; [by intros s b s'|]. apply calmly_bind; [apply Hb|]. intros [a'|r]; [apply IH|].
  intros s b s' [= <- <-]. done.
Qed.
Lemma calmly_zoom_mem {A} (m : M kst A) : calmly (zoom mem_lens m).
Proof. intros s a s' (t & _ & ->)%zoom_Ok. done. Qed.
Lemma calmly_wait_for {A B} (m : M kernel (step A B)) : calmly m → calmly (wait_for m).
Proof. intros Hm. apply calmly_bind; [done|]. intros [r|c l]; [intros s b s' [= <- <-]; done|by intros s b s']. Qed.

(** Changes of the other parts of the state. *)
Lemma calmly_modify (f : kernel → kernel) :
  (∀ s, k_proc (f s) = k_proc s ∧ k_nextpid (f s) = k_nextpid s ∧ k_initproc (f s) = k_initproc s) → calmly (modify f).
Proof. intros Hf s b s' [= _ <-]. destruct (Hf s) as (E1 & E2 & E3). split; [done|done|]. by rewrite E1. Qed.
Lemma calmly_upd_proc i f : (∀ p, calm_proc p (f p)) → calmly (upd_proc i f).
Proof.
  intros Hf s a s'. unfold upd_proc. destruct (k_proc s !! i) as [p|] eqn:E; intros [= _ <-]. split; [done|done|]. cbn.
  rewrite <-(list_insert_id (k_proc s) i p E) at 1. apply Forall2_insert; [done|]. apply Hf.
Qed.
Lemma calmly_get_proc i : calmly (get_proc i).
Proof. intros s a s'. unfold get_proc. destruct (k_proc s !! i); intros [= _ <-]. done. Qed.
Lemma calmly_get_file i : calmly (get_file i).
Proof. intros s a s'. unfold get_file. destruct (k_file s !! i); intros [= _ <-]. done. Qed.
Lemma calmly_get_inode i : calmly (get_inode i).
Proof. intros s a s'. unfold get_inode. destruct (k_inode s !! i); intros [= _ <-]. done. Qed.
Lemma calmly_get_buf i : calmly (get_buf i).
Proof. intros s a s'. unfold get_buf. destruct (k_buf s !! i); intros [= _ <-]. done. Qed.
Lemma calmly_get_pipe i : calmly (get_pipe i).
Proof. intros s a s'. unfold get_pipe. destruct (k_pipe s !! i); intros [= _ <-]. done. Qed.
Lemma calmly_upd_file i f : calmly (upd_file i f).
Proof. intros s a s'. unfold upd_file. destruct (k_file s !! i); intros [= _ <-]. done. Qed.
Lemma calmly_upd_inode i f : calmly (upd_inode i f).
Proof. intros s a s'. unfold upd_inode. destruct (k_inode s !! i); intros [= _ <-]. done. Qed.
Lemma calmly_upd_buf i f : calmly (upd_buf i f).
Proof. intros s a s'. unfold upd_buf. destruct (k_buf s !! i); intros [= _ <-]. done. Qed.
Lemma calmly_upd_pipe i f : calmly (upd_pipe i f).
Proof. intros s a s'. unfold upd_pipe. destruct (k_pipe s !! i); intros [= _ <-]. done. Qed.
Lemma calmly_upd_log f : calmly (upd_log f).
Proof. by apply calmly_modify. Qed.
Lemma calmly_upd_cons f : calmly (upd_cons f).
Proof. by apply calmly_modify. Qed.
Lemma calmly_lh_block i : calmly (lh_block i).
Proof. intros s a s'. unfold lh_block. destruct (l_block (k_log s) !! i); intros [= _ <-]. done. Qed.
Lemma calmly_set_lh_block i b : calmly (set_lh_block i b).
Proof. intros s a s'. unfold set_lh_block. case_decide; intros [= _ <-]. done. Qed.

(** * Automation *)

Create HintDb calm.
#[export] Hint Resolve calmly_ret calmly_gets calmly_panic calmly_ub calmly_nofuel calmly_sleep calmly_zoom_mem
  calmly_get_proc calmly_get_file calmly_get_inode calmly_get_buf calmly_get_pipe calmly_upd_file calmly_upd_inode
  calmly_upd_buf calmly_upd_pipe calmly_upd_log calmly_upd_cons calmly_lh_block calmly_set_lh_block : calm.

(** The rules applied to the text of an operation; the operations it calls
    are in the database, or are unfolded. *)
Ltac calm_head t := lazymatch t with ?f _ => calm_head f | _ => t end.
Ltac calm :=
  cbv beta zeta;
  lazymatch goal with
  | |- ∀ _, _ => intros ?; calm
  | |- calmly (match ?x with _ => _ end) => destruct x; calm
  | |- calmly (_ ≫= _) => apply calmly_bind; [calm|intros ?; calm]
  | |- calmly (foreach _ _) => apply calmly_foreach; intros ?; calm
  | |- calmly (scan _ _) => apply calmly_scan; intros ?; calm
  | |- calmly (loop _ _ _) => apply calmly_loop; intros ?; calm
  | |- calmly (wait_for _) => apply calmly_wait_for; calm
  | |- calmly (upd_proc _ _) => apply calmly_upd_proc; intros []; split; cbn; rewrite ?length_insert, ?length_inserts; auto; intros []; split; auto
  | |- calmly (modify _) => apply calmly_modify; intros; done
  | |- calmly ?m => first [solve [auto with calm nocore] | let f := calm_head m in unfold f; calm]
  end.

Lemma calmly_add_int x y : calmly (add_int x y).
Proof. unfold add_int. calm. Qed.
#[export] Hint Resolve calmly_add_int : calm.

Lemma calmly_wakeup me c : calmly (wakeup me c).
Proof.
  apply calmly_foreach. intros i. case_decide; [calm|]. intros s a s' (p & t & H1 & H2)%bind_Ok. unfold get_proc in H1.
  destruct (k_proc s !! i) as [q|] eqn:E; [|done]. injection H1 as <- <-. case_decide as Hp; [|by injection H2 as _ <-].
  unfold upd_proc in H2. rewrite E in H2. injection H2 as _ <-. split; [done|done|]. cbn. rewrite <-(list_insert_id (k_proc s) i q E) at 1.
  apply Forall2_insert; [done|]. split; try done; [right; by split; [apply Hp|]|by apply mlfq_ext].
Qed.
#[export] Hint Resolve calmly_wakeup : calm.

(** * The console *)

Lemma calmly_consputc c : calmly (consputc c).
Proof. unfold consputc. calm. Qed.
#[export] Hint Resolve calmly_consputc : calm.
Lemma calmly_va_num ap : calmly (va_num ap).
Proof. unfold va_num. calm. Qed.
#[export] Hint Resolve calmly_va_num : calm.
Lemma calmly_printint x b sg : calmly (printint x b sg).
Proof. unfold printint. calm. Qed.
#[export] Hint Resolve calmly_printint : calm.
Lemma calmly_printptr x : calmly (printptr x).
Proof. unfold printptr. calm. Qed.
#[export] Hint Resolve calmly_printptr : calm.
Lemma calmly_printf_loop n fmt ap : calmly (printf_loop n fmt ap).
Proof. revert fmt ap. induction n as [|n IH]; intros fmt ap; cbn [printf_loop]; [calm|]. calm. Qed.
#[export] Hint Resolve calmly_printf_loop : calm.
Lemma calmly_printf fmt ap : calmly (printf fmt ap).
Proof. unfold printf. calm. Qed.
#[export] Hint Resolve calmly_printf : calm.
Lemma calmly_consoleintr me c : calmly (consoleintr me c).
Proof. unfold consoleintr. calm. Qed.
#[export] Hint Resolve calmly_consoleintr : calm.
Lemma calmly_uartintr me : calmly (uartintr me).
Proof. unfold uartintr. calm. Qed.
#[export] Hint Resolve calmly_uartintr : calm.
Lemma calmly_either_copyout `{KernelImage} me d l : calmly (either_copyout me d l).
Proof. unfold either_copyout. calm. Qed.
#[export] Hint Resolve calmly_either_copyout : calm.
Lemma calmly_either_copyin `{KernelImage} me d l n : calmly (either_copyin me d l n).
Proof. unfold either_copyin. calm. Qed.
#[export] Hint Resolve calmly_either_copyin : calm.

(** * Pipes, buffers and the log *)

Lemma calmly_pipeclose `{KernelImage} me pi w : calmly (pipeclose me pi w).
Proof. unfold pipeclose. calm. Qed.
#[export] Hint Resolve calmly_pipeclose : calm.
Lemma calmly_acquiresleep me lk : calmly (acquiresleep me lk).
Proof. unfold acquiresleep. calm. Qed.
#[export] Hint Resolve calmly_acquiresleep : calm.
Lemma calmly_releasesleep me lk : calmly (releasesleep me lk).
Proof. unfold releasesleep. calm. Qed.
#[export] Hint Resolve calmly_releasesleep : calm.
Lemma calmly_holdingsleep me lk : calmly (holdingsleep me lk).
Proof. unfold holdingsleep. calm. Qed.
#[export] Hint Resolve calmly_holdingsleep : calm.
Lemma calmly_bread me dev b : calmly (bread me dev b).
Proof. unfold bread. calm. Qed.
#[export] Hint Resolve calmly_bread : calm.
Lemma calmly_bwrite me b : calmly (bwrite me b).
Proof. unfold bwrite. calm. Qed.
#[export] Hint Resolve calmly_bwrite : calm.
Lemma calmly_brelse me b : calmly (brelse me b).
Proof. unfold brelse. calm. Qed.
#[export] Hint Resolve calmly_brelse : calm.
Lemma calmly_write_head me : calmly (write_head me).
Proof. unfold write_head. calm. Qed.
#[export] Hint Resolve calmly_write_head : calm.
Lemma calmly_install_trans me r : calmly (install_trans me r).
Proof. unfold install_trans. calm. Qed.
#[export] Hint Resolve calmly_install_trans : calm.
Lemma calmly_begin_op : calmly begin_op.
Proof. unfold begin_op. calm. Qed.
#[export] Hint Resolve calmly_begin_op : calm.
Lemma calmly_commit me : calmly (commit me).
Proof. unfold commit. calm. Qed.
#[export] Hint Resolve calmly_commit : calm.
Lemma calmly_end_op me : calmly (end_op me).
Proof. unfold end_op. calm. Qed.
#[export] Hint Resolve calmly_end_op : calm.
Lemma calmly_log_write b : calmly (log_write b).
Proof. unfold log_write. calm. Qed.
#[export] Hint Resolve calmly_log_write : calm.
Lemma calmly_recover_from_log me : calmly (recover_from_log me).
Proof. unfold recover_from_log. calm. Qed.
#[export] Hint Resolve calmly_recover_from_log : calm.

(** * The file system *)

Lemma calmly_balloc me dev : calmly (balloc me dev).
Proof. unfold balloc. calm. Qed.
#[export] Hint Resolve calmly_balloc : calm.
Lemma calmly_bfree me dev b : calmly (bfree me dev b).
Proof. unfold bfree. calm. Qed.
#[export] Hint Resolve calmly_bfree : calm.
Lemma calmly_iget dev inum : calmly (iget dev inum).
Proof. unfold iget. calm. Qed.
#[export] Hint Resolve calmly_iget : calm.
Lemma calmly_iupdate me ip : calmly (iupdate me ip).
Proof. unfold iupdate. calm. Qed.
#[export] Hint Resolve calmly_iupdate : calm.
Lemma calmly_ialloc me dev t : calmly (ialloc me dev t).
Proof. unfold ialloc. calm. Qed.
#[export] Hint Resolve calmly_ialloc : calm.
Lemma calmly_ilock me ip : calmly (ilock me ip).
Proof. unfold ilock. calm. Qed.
#[export] Hint Resolve calmly_ilock : calm.
Lemma calmly_iunlock me ip : calmly (iunlock me ip).
Proof. unfold iunlock. calm. Qed.
#[export] Hint Resolve calmly_iunlock : calm.
Lemma calmly_itrunc me ip : calmly (itrunc me ip).
Proof. unfold itrunc. calm. Qed.
#[export] Hint Resolve calmly_itrunc : calm.
Lemma calmly_iput me ip : calmly (iput me ip).
Proof. unfold iput. calm. Qed.
#[export] Hint Resolve calmly_iput : calm.
Lemma calmly_iunlockput me ip : calmly (iunlockput me ip).
Proof. unfold iunlockput. calm. Qed.
#[export] Hint Resolve calmly_iunlockput : calm.
Lemma calmly_bmap me ip bn : calmly (bmap me ip bn).
Proof. unfold bmap. calm. Qed.
#[export] Hint Resolve calmly_bmap : calm.
Lemma calmly_readi `{KernelImage} me ip d off n : calmly (readi me ip d off n).
Proof. unfold readi. calm. Qed.
#[export] Hint Resolve calmly_readi : calm.
Lemma calmly_writei `{KernelImage} me ip src l off n : calmly (writei me ip src l off n).
Proof. unfold writei. calm. Qed.
#[export] Hint Resolve calmly_writei : calm.
Lemma calmly_dirlookup `{KernelImage} me dp name : calmly (dirlookup me dp name).
Proof. unfold dirlookup. calm. Qed.
#[export] Hint Resolve calmly_dirlookup : calm.
Lemma calmly_dirlink `{KernelImage} me dp name inum : calmly (dirlink me dp name inum).
Proof. unfold dirlink. calm. Qed.
#[export] Hint Resolve calmly_dirlink : calm.
Lemma calmly_namex `{KernelImage} me path b name : calmly (namex me path b name).
Proof. unfold namex. calm. Qed.
#[export] Hint Resolve calmly_namex : calm.
Lemma calmly_fileclose `{KernelImage} me f : calmly (fileclose me f).
Proof. unfold fileclose. calm. Qed.
#[export] Hint Resolve calmly_fileclose : calm.
Lemma calmly_fileread `{KernelImage} me f addr n : calmly (fileread me f addr n).
Proof. unfold fileread. calm. Qed.
#[export] Hint Resolve calmly_fileread : calm.
Lemma calmly_filewrite `{KernelImage} me f addr n : calmly (filewrite me f addr n).
Proof. unfold filewrite. calm. Qed.
#[export] Hint Resolve calmly_filewrite : calm.
Lemma calmly_pipealloc `{KernelImage} me : calmly (pipealloc me).
Proof. unfold pipealloc. calm. Qed.
#[export] Hint Resolve calmly_pipealloc : calm.
Lemma calmly_fsinit me dev : calmly (fsinit me dev).
Proof. unfold fsinit. calm. Qed.
#[export] Hint Resolve calmly_fsinit : calm.

(** * exec and the system calls on files *)

Lemma calmly_tf_get i r : calmly (tf_get i r).
Proof. unfold tf_get. calm. Qed.
#[export] Hint Resolve calmly_tf_get : calm.
Lemma calmly_tf_set i r v : calmly (tf_set i r v).
Proof. unfold tf_set. calm. Qed.
#[export] Hint Resolve calmly_tf_set : calm.
Lemma calmly_argint me n : calmly (argint me n).
Proof. unfold argint. calm. Qed.
#[export] Hint Resolve calmly_argint : calm.
Lemma calmly_argstr `{KernelImage} me n mx : calmly (argstr me n mx).
Proof. unfold argstr. calm. Qed.
#[export] Hint Resolve calmly_argstr : calm.
Lemma calmly_argfd me n : calmly (argfd me n).
Proof. unfold argfd. calm. Qed.
#[export] Hint Resolve calmly_argfd : calm.
Lemma calmly_fdalloc me f : calmly (fdalloc me f).
Proof. unfold fdalloc. calm. Qed.
#[export] Hint Resolve calmly_fdalloc : calm.
Lemma calmly_loadseg `{KernelImage} me pt va ip off sz : calmly (loadseg me pt va ip off sz).
Proof. unfold loadseg. calm. Qed.
#[export] Hint Resolve calmly_loadseg : calm.
Lemma calmly_exec_bad `{KernelImage} me pt sz ip : calmly (exec_bad me pt sz ip).
Proof. unfold exec_bad. calm. Qed.
#[export] Hint Resolve calmly_exec_bad : calm.
Lemma calmly_push_args `{KernelImage} me pt sb argv argc sp us : calmly (push_args me pt sb argv argc sp us).
Proof. revert argc sp us. induction argv as [|x argv IH]; intros argc sp us; cbn [push_args]; [calm|]. calm. Qed.
#[export] Hint Resolve calmly_push_args : calm.
Lemma calmly_kexec `{KernelImage} me path argv : calmly (kexec me path argv).
Proof. unfold kexec. calm. Qed.
#[export] Hint Resolve calmly_kexec : calm.
Lemma calmly_create `{KernelImage} me path t ma mi : calmly (create me path t ma mi).
Proof. unfold create. calm. Qed.
#[export] Hint Resolve calmly_create : calm.
Lemma calmly_open_inode `{KernelImage} me ip om : calmly (open_inode me ip om).
Proof. unfold open_inode. calm. Qed.
#[export] Hint Resolve calmly_open_inode : calm.
Lemma calmly_sys_dup `{KernelImage} me : calmly (sys_dup me).
Proof. unfold sys_dup. calm. Qed.
#[export] Hint Resolve calmly_sys_dup : calm.
Lemma calmly_sys_read `{KernelImage} me : calmly (sys_read me).
Proof. unfold sys_read. calm. Qed.
#[export] Hint Resolve calmly_sys_read : calm.
Lemma calmly_sys_write `{KernelImage} me : calmly (sys_write me).
Proof. unfold sys_write. calm. Qed.
#[export] Hint Resolve calmly_sys_write : calm.
Lemma calmly_sys_close `{KernelImage} me : calmly (sys_close me).
Proof. unfold sys_close. calm. Qed.
#[export] Hint Resolve calmly_sys_close : calm.
Lemma calmly_sys_fstat `{KernelImage} me pad : calmly (sys_fstat me pad).
Proof. unfold sys_fstat. calm. Qed.
#[export] Hint Resolve calmly_sys_fstat : calm.
Lemma calmly_sys_link `{KernelImage} me : calmly (sys_link me).
Proof. unfold sys_link. calm. Qed.
#[export] Hint Resolve calmly_sys_link : calm.
Lemma calmly_sys_unlink `{KernelImage} me : calmly (sys_unlink me).
Proof. unfold sys_unlink. calm. Qed.
#[export] Hint Resolve calmly_sys_unlink : calm.
Lemma calmly_sys_open `{KernelImage} me : calmly (sys_open me).
Proof. unfold sys_open. calm. Qed.
#[export] Hint Resolve calmly_sys_open : calm.
Lemma calmly_sys_mkdir `{KernelImage} me : calmly (sys_mkdir me).
Proof. unfold sys_mkdir. calm. Qed.
#[export] Hint Resolve calmly_sys_mkdir : calm.
Lemma calmly_sys_mknod `{KernelImage} me : calmly (sys_mknod me).
Proof. unfold sys_mknod. calm. Qed.
#[export] Hint Resolve calmly_sys_mknod : calm.
Lemma calmly_sys_chdir `{KernelImage} me : calmly (sys_chdir me).
Proof. unfold sys_chdir. calm. Qed.
#[export] Hint Resolve calmly_sys_chdir : calm.
Lemma calmly_sys_exec `{KernelImage} me : calmly (sys_exec me).
Proof. unfold sys_exec. calm. Qed.
#[export] Hint Resolve calmly_sys_exec : calm.
Lemma calmly_sys_pipe `{KernelImage} me : calmly (sys_pipe me).
Proof. unfold sys_pipe. calm. Qed.
#[export] Hint Resolve calmly_sys_pipe : calm.
Lemma calmly_sys_sbrk `{KernelImage} me : calmly (sys_sbrk me).
Proof. unfold sys_sbrk. calm. Qed.
#[export] Hint Resolve calmly_sys_sbrk : calm.
Lemma calmly_sys_pause me : calmly (sys_pause me).
Proof. unfold sys_pause. calm. Qed.
#[export] Hint Resolve calmly_sys_pause : calm.
Lemma calmly_sys_sleep me : calmly (sys_sleep me).
Proof. unfold sys_sleep. calm. Qed.
#[export] Hint Resolve calmly_sys_sleep : calm.
