(* ===== verification/ProcSpec.v ===== *)
(** The process table and the tree of processes.

    [procs_ok] is the invariant of the table: the shape of each entry, unused
    entries have no pid and no parent, process ids are distinct and below
    [nextpid], and every parent and the init process are alive.  All system
    calls and traps keep it. *)

From S2P Require Import Prelude Riscv Mem Str Kalloc Vm State Sched Procmem Console Pipe Sleeplock Bio Block Log Fs Dir File Proc Exec Sysproc Sysfile Virtio Trap Calm.

(** What holds of the result and the state if [m] returns. *)
Definition after {S A} (m : M S A) (s : S) (Q : A → S → Prop) : Prop := ∀ a s', m s = Ok (a, s') → Q a s'.

Section after.
Context {S : Type}.
Lemma after_ret {A} (a : A) (s : S) Q : Q a s → after (mret a) s Q.
Proof. by intros HQ b s' [= <- <-]. Qed.
Lemma after_bind {A B} (m : M S A) (f : A → M S B) s Q : after m s (λ a t, after (f a) t Q) → after (m ≫= f) s Q.
Proof. intros Hm b s' (a & t & H1 & H2)%bind_Ok. by apply (Hm a t). Qed.
Lemma after_mono {A} (m : M S A) s (Q Q' : A → S → Prop) : after m s Q → (∀ a s', Q a s' → Q' a s') → after m s Q'.
Proof. intros Hm HQ a s' E. by apply HQ, Hm. Qed.
Lemma after_foreach {A} (I : list A → S → Prop) (f : A → M S unit) l s :
  I l s → (∀ x l s, I (x :: l) s → after (f x) s (λ _ s', I l s')) → after (foreach l f) s (λ _ s', I [] s').
Proof.
  intros HI Hf. revert s HI. induction l as [|x l IH]; intros s HI; [by apply after_ret|]. apply after_bind.
  eapply after_mono; [by apply Hf|]. intros [] s' HI'. by apply IH.
Qed.
End after.

Lemma after_calm {A} (m : M kernel A) s : calmly m → after m s (λ _ s', calm s s').
Proof. intros Hm a s' E. by eapply Hm. Qed.
Lemma after_get_proc i s (Q : proc → kernel → Prop) : (∀ p, k_proc s !! i = Some p → Q p s) → after (get_proc i) s Q.
Proof. intros HQ a s'. unfold get_proc. destruct (k_proc s !! i) as [p|]; intros [= <- <-]. by apply HQ. Qed.
Lemma after_upd_proc i f s (Q : unit → kernel → Prop) :
  (∀ p, k_proc s !! i = Some p → Q tt (with_proc i (f p) s)) → after (upd_proc i f) s Q.
Proof. intros HQ a s'. unfold upd_proc. destruct (k_proc s !! i) as [p|]; intros [= <- <-]. by apply HQ. Qed.

(** The first operation of the sequence is calm. *)
Ltac calm_step s C := apply after_bind; eapply after_mono; [apply after_calm; calm|]; intros ? s C; cbv beta in C.

(** * The invariant *)

(** One entry, when [next] is the next process id. *)
Record proc_ok (next : Z) (p : proc) : Prop := {
  ok_state : p_state p = UNUSED ↔ p_pid p = 0;
  ok_pid : 0 ≤ p_pid p < next;
  ok_unused : p_state p = UNUSED → p_parent p = None;
  ok_sched : mlfq_ok p;
  ok_ofile : length (p_ofile p) = Z.to_nat NOFILE;
  ok_name : length (p_name p) = 16%nat;
}.

Definition live (p : proc) : Prop := p_state p ≠ UNUSED ∧ p_state p ≠ ZOMBIE.
Definition alive (s : kernel) (i : nat) : Prop := ∃ p, k_proc s !! i = Some p ∧ live p.
(** Process [i] is running. *)
Definition runs (i : nat) (s : kernel) : Prop := ∃ p, k_proc s !! i = Some p ∧ p_state p = RUNNING.
(** No process has [i] as its parent, and it is not init. *)
Definition childless (i : nat) (s : kernel) : Prop :=
  (∀ j p, k_proc s !! j = Some p → p_parent p ≠ Some i) ∧ k_initproc s ≠ Some i.

Record procs_ok (s : kernel) : Prop := {
  po_length : length (k_proc s) = Z.to_nat NPROC;
  po_next : 1 ≤ k_nextpid s;
  po_proc : ∀ i p, k_proc s !! i = Some p → proc_ok (k_nextpid s) p;
  po_pids : ∀ i j p q, k_proc s !! i = Some p → k_proc s !! j = Some q → p_pid p = p_pid q → p_pid p ≠ 0 → i = j;
  po_parent : ∀ i p q, k_proc s !! i = Some p → p_parent p = Some q → alive s q;
  po_init : ∀ i, k_initproc s = Some i → alive s i;
}.

Lemma runs_alive i s : runs i s → alive s i.
Proof. intros (p & Hp & E). exists p. split; [done|]. split; by rewrite E. Qed.

(** An entry that is not alive has no children. *)
Lemma dead_childless i p s : procs_ok s → k_proc s !! i = Some p → ¬ live p → childless i s.
Proof.
  intros Hok Hp Hd. assert (Ha : ¬ alive s i) by (intros (q & Hq & Hl); rewrite Hp in Hq; by injection Hq as <-).
  split; [|by intros E; apply Ha, (po_init _ Hok)]. intros j q Hq E. by apply Ha, (po_parent _ Hok j q).
Qed.

(** * Calm steps *)

Section calm.
Context (s s' : kernel) (Hc : calm s s').

Lemma calm_lookup i p' : k_proc s' !! i = Some p' → ∃ p, k_proc s !! i = Some p ∧ calm_proc p p'.
Proof. intros Hp. by apply (Forall2_lookup_r _ _ _ _ _ (ca_proc _ _ Hc)) in Hp. Qed.
Lemma calm_lookup_l i p : k_proc s !! i = Some p → ∃ p', k_proc s' !! i = Some p' ∧ calm_proc p p'.
Proof. intros Hp. by apply (Forall2_lookup_l _ _ _ _ _ (ca_proc _ _ Hc)) in Hp. Qed.

Lemma calm_live p p' : calm_proc p p' → live p → live p'.
Proof. intros Hp [H1 H2]. destruct (cp_state _ _ Hp) as [E|[_ E]]; split; congruence. Qed.
Lemma calm_alive i : alive s i → alive s' i.
Proof. intros (p & Hp & Hl). destruct (calm_lookup_l i p Hp) as (p' & Hp' & Hcp). exists p'. split; [done|]. by eapply calm_live. Qed.
Lemma calm_runs i : runs i s → runs i s'.
Proof.
  intros (p & Hp & Hl). destruct (calm_lookup_l i p Hp) as (p' & Hp' & Hcp). exists p'. split; [done|].
  destruct (cp_state _ _ Hcp) as [E|[E _]]; congruence.
Qed.
Lemma calm_childless i : childless i s → childless i s'.
Proof.
  intros [H1 H2]. split; [|by rewrite (ca_init _ _ Hc)]. intros j p' Hp'. destruct (calm_lookup j p' Hp') as (p & Hp & Hcp).
  rewrite (cp_parent _ _ Hcp). by eapply H1.
Qed.

Lemma calm_proc_ok next p p' : calm_proc p p' → proc_ok next p → proc_ok next p'.
Proof.
  intros Hc' [H1 H2 H3 H4 H5 H6]. pose proof Hc' as [C1 C2 C3 C4 C7 C8 C9]. split.
  - rewrite C1, <-H1. destruct C3 as [->|[E1 E2]]; [done|]. rewrite E1, E2. done.
  - by rewrite C1.
  - rewrite C2. destruct C3 as [->|[_ ->]]; [done|]. done.
  - by apply C4.
  - by rewrite C8.
  - by rewrite C9.
Qed.

Lemma calm_ok : procs_ok s → procs_ok s'.
Proof.
  intros [H1 H2 H3 H4 H5 H6]. pose proof Hc as [C1 C2 C3]. split.
  - rewrite <-H1. symmetry. by eapply Forall2_length.
  - by rewrite C1.
  - intros i p' Hp'. destruct (calm_lookup i p' Hp') as (p & Hp & Hcp). rewrite C1. eapply calm_proc_ok; [done|by eapply H3].
  - intros i j p' q' Hp' Hq'. destruct (calm_lookup i p' Hp') as (p & Hp & Hcp), (calm_lookup j q' Hq') as (q & Hq & Hcq).
    rewrite (cp_pid _ _ Hcp), (cp_pid _ _ Hcq). by eapply H4.
  - intros i p' q Hp'. destruct (calm_lookup i p' Hp') as (p & Hp & Hcp). rewrite (cp_parent _ _ Hcp). intros E. by eapply calm_alive, H5.
  - intros i. rewrite C2. intros E. by eapply calm_alive, H6.
Qed.
End calm.

(** * Changing one entry *)

Lemma upd_alive i p' s q : (∀ p, k_proc s !! i = Some p → live p → live p') → alive s q → alive (with_proc i p' s) q.
Proof.
  intros Hl (p & Hp & Hlp). destruct (decide (i = q)) as [->|Hne].
  - exists p'. rewrite with_proc_lookup by (by eapply lookup_lt_Some). split; [done|]. by eapply Hl.
  - exists p. by rewrite with_proc_lookup_ne.
Qed.

(** The new entry keeps the pid or has one of its own; its parent, if it has one, is alive; and
    if it is no longer alive nobody depends on it. *)
Lemma upd_ok i p p' s :
  procs_ok s → k_proc s !! i = Some p → proc_ok (k_nextpid s) p' →
  p_pid p' = p_pid p ∨ (∀ j q, k_proc s !! j = Some q → p_pid q = p_pid p' → p_pid q = 0) →
  (∀ q, p_parent p' = Some q → alive s q) → (live p → live p') ∨ childless i s ∧ p_parent p' ≠ Some i →
  procs_ok (with_proc i p' s).
Proof.
  intros Hok Hp Hp' Hpid Hpar Hlive. pose proof Hok as [H1 H2 H3 H4 H5 H6].
  assert (Hi : (i < length (k_proc s))%nat) by (by eapply lookup_lt_Some).
  assert (Halive : ∀ q, q ≠ i ∨ (live p → live p') → alive s q → alive (with_proc i p' s) q).
  { intros q [Hne|Hl] Ha; [|by apply upd_alive; [intros r Hr; rewrite Hp in Hr; by injection Hr as <-|]].
    destruct Ha as (r & Hr & Hlr). exists r. by rewrite with_proc_lookup_ne. }
  split; cbn [k_nextpid k_initproc with_proc set_k_proc].
  - by rewrite with_proc_length.
  - done.
  - intros j q Hq. destruct (decide (i = j)) as [<-|Hne]; [|rewrite with_proc_lookup_ne in Hq by done; by eapply H3].
    rewrite with_proc_lookup in Hq by done. by injection Hq as <-.
  - intros j k q r Hq Hr. destruct (decide (i = j)) as [<-|Hj], (decide (i = k)) as [<-|Hk];
      rewrite ?with_proc_lookup, ?with_proc_lookup_ne in Hq by done; rewrite ?with_proc_lookup, ?with_proc_lookup_ne in Hr by done; [done| | |by eapply H4].
    + injection Hq as <-. destruct Hpid as [->|Hpid]; [by eapply H4|]. intros E E0. by rewrite E, (Hpid k r) in E0.
    + injection Hr as <-. destruct Hpid as [->|Hpid]; [by eapply H4|]. intros E E0. by rewrite (Hpid j q) in E0.
  - intros j q r Hq E. destruct (decide (i = j)) as [<-|Hne].
    + rewrite with_proc_lookup in Hq by done. injection Hq as <-. apply Halive; [|by apply Hpar].
      destruct Hlive as [Hl|[_ Hne]]; [by right|left]. congruence.
    + rewrite with_proc_lookup_ne in Hq by done. apply Halive; [|by eapply H5]. destruct Hlive as [Hl|(Hcl & _)]; [by right|left].
      destruct Hcl as [Hc _]. intros ->. by eapply Hc.
  - intros j E. apply Halive; [|by eapply H6]. destruct Hlive as [Hl|(Hcl & _)]; [by right|left]. destruct Hcl. congruence.
Qed.

(** * Creating and freeing entries *)

Lemma upd_runs i p' s me : me ≠ i ∨ p_state p' = RUNNING → runs me s → runs me (with_proc i p' s).
Proof.
  intros Hor (p & Hp & E). destruct (decide (me = i)) as [->|Hne].
  - exists p'. rewrite with_proc_lookup by (by eapply lookup_lt_Some). by destruct Hor.
  - exists p. by rewrite with_proc_lookup_ne.
Qed.
Lemma upd_childless i p' s j : p_parent p' ≠ Some j → childless j s → childless j (with_proc i p' s).
Proof.
  intros Hne [H1 H2]. split; [|done]. intros k q Hq. destruct (decide (i = k)) as [<-|Hk]; [|rewrite with_proc_lookup_ne in Hq by done; by eapply H1].
  destruct (decide (i < length (k_proc s))%nat).
  - rewrite with_proc_lookup in Hq by done. by injection Hq as <-.
  - apply lookup_lt_Some in Hq. by rewrite with_proc_length in Hq.
Qed.

(** The invariant holds and the running processes still run. *)
Definition kept (s s' : kernel) : Prop := procs_ok s' ∧ ∀ me, runs me s → runs me s'.
Lemma kept_calm s s' : procs_ok s → calm s s' → kept s s'.
Proof. intros Hok Hc. split; [by eapply calm_ok|]. intros me. by apply calm_runs. Qed.
Lemma kept_trans s s' s'' : kept s s' → kept s' s'' → kept s s''.
Proof. intros [_ H1] [Hok H2]. split; [done|]. intros me Hme. by apply H2, H1. Qed.

Section text.
Context `{KernelImage} `{KernelText}.

(** [freeproc] before its last assignment. *)
Lemma freeproc_keeps i s : procs_ok s → childless i s → ¬ runs i s → after (freeproc i) s (λ _ s', kept s s').
Proof.
  intros Hok Hcl Hnr. unfold freeproc. apply after_bind, after_get_proc. intros p Hp.
  calm_step s1 C1.
  calm_step s2 C2.
  calm_step s3 C3.
  calm_step s4 C4.
  assert (C : calm s s4) by (do 3 (etrans; [eassumption|]); done). clear s1 s2 s3 C1 C2 C3 C4.
  destruct (calm_lookup_l s s4 C i p Hp) as (q & Hq & Cq). pose proof (calm_ok s s4 C Hok) as Hok4.
  apply after_upd_proc. intros q' Hq'. rewrite Hq in Hq'. injection Hq' as <-. pose proof (po_proc _ Hok4 i q Hq) as [O1 O2 O3 O4 O5 O6]. split.
  - apply (upd_ok i q _ s4 Hok4 Hq).
    + split; cbn; try done; [lia|by apply (mlfq_ext q)|by rewrite length_insert].
    + right. cbn. by intros j r _.
    + done.
    + right. split; [by eapply calm_childless|done].
  - intros me Hme. apply upd_runs; [left; intros ->; by apply Hnr|]. by eapply calm_runs.
Qed.

(** What [allocproc] returns: a new entry nobody refers to. *)
Definition fresh (i : nat) (s s' : kernel) : Prop :=
  kept s s' ∧ childless i s' ∧ (∃ p, k_proc s' !! i = Some p ∧ p_state p = USED) ∧ ¬ runs i s'.
Lemma fresh_calm i s s' s'' : fresh i s s' → calm s' s'' → fresh i s s''.
Proof.
  intros (Hk & Hcl & (p & Hp & E) & Hnr) C. destruct (calm_lookup_l _ _ C i p Hp) as (p' & Hp' & Cp).
  assert (E' : p_state p' = USED) by (destruct (cp_state _ _ Cp) as [->|[? _]]; congruence). split_and!.
  - eapply kept_trans; [done|]. apply kept_calm; [apply Hk|done].
  - by eapply calm_childless.
  - by exists p'.
  - intros (q & Hq & Eq). congruence.
Qed.

Lemma unused_proc_spec l k i : unused_proc l k = Some i → ∃ p, l !! (i - k)%nat = Some p ∧ p_state p = UNUSED ∧ (k ≤ i)%nat.
Proof.
  revert k. induction l as [|p l IH]; intros k; cbn; [done|]. case_decide as E.
  - intros [= <-]. exists p. rewrite Nat.sub_diag. by split_and!.
  - intros (q & Hq & Eq & Hle)%IH. exists q. replace (i - k)%nat with (S (i - S k)) by lia. split_and!; [done|done|lia].
Qed.

Lemma unused_proc_first l i : unused_proc l 0 = Some i →
  ∃ p, l !! i = Some p ∧ p_state p = UNUSED ∧ ∀ j q, (j < i)%nat → l !! j = Some q → p_state q ≠ UNUSED.
Proof.
  intros Hi. pose proof (unused_proc_spec _ _ _ Hi) as (p & Hp & E & _). rewrite Nat.sub_0_r in Hp. exists p. split_and!; [done|done|].
  enough (Hgen : ∀ l k i, unused_proc l k = Some i → ∀ j q, (j < i - k)%nat → l !! j = Some q → p_state q ≠ UNUSED).
  { intros j q Hj. apply (Hgen l 0%nat i Hi). lia. }
  clear. induction l as [|p l IH]; intros k i; cbn; [done|]. case_decide as E; [intros [= <-]; lia|]. intros Hi [|j] q Hj Hq; [by injection Hq as <-|].
  apply (IH (S k) i Hi j); [lia|done].
Qed.

(** Taking a pid and the entry. *)
Lemma take_entry s i p : procs_ok s → k_proc s !! i = Some p → p_state p = UNUSED →
  after (pid ← allocpid; upd_proc i (λ p, set_p_ticks_in_q [0; 0; 0] (set_p_ticks_count 0 (set_p_priority 0
        (set_p_state USED (set_p_pid pid p)))))) s (λ _ s', fresh i s s').
Proof.
  intros Hok Hp E. apply after_bind. unfold allocpid. apply after_bind. intros ? ? [= <- <-]. apply after_bind. unfold add_int.
  case_decide as Hov; [|by intros ? ?]. apply after_ret, after_bind. intros ? ? [= <- <-]. apply after_ret.
  apply after_upd_proc. intros q Hq. cbn in Hq. rewrite Hp in Hq. injection Hq as <-. set (s1 := set_k_nextpid (k_nextpid s + 1) s).
  pose proof Hok as [K1 K2 K3 K4 K5 K6]. assert (Hok1 : procs_ok s1).
  { split; try done; cbn; [lia|]. intros j q Hq. destruct (K3 j q Hq). split; try done. lia. }
  assert (Hcl : childless i s) by (apply (dead_childless i p s Hok Hp); unfold live; rewrite E; tauto).
  destruct (K3 i p Hp) as [O1 O2 O3 O4 O5 O6]. set (p' := set_p_ticks_in_q _ _). split_and!.
  - split.
    + apply (upd_ok i p p' s1 Hok1 Hp).
      * split; cbn; try done; [split; [done|lia]|lia|]. split; cbn; try done; repeat constructor; done.
      * right. intros j q Hq Eq. cbn in Eq. destruct (K3 j q Hq) as [_ ? _ _ _ _]. lia.
      * intros q Eq. cbn in Eq. by rewrite O3 in Eq.
      * left. intros _. by split.
    + intros me Hme. apply (upd_runs i p' s1); [|done]. left. intros ->. destruct Hme as (q & Hq & Eq). congruence.
  - apply (upd_childless i p' s1); [|done]. cbn. by rewrite O3.
  - exists p'. split; [|done]. apply (with_proc_lookup i p' s1). by eapply lookup_lt_Some.
  - intros (q & Hq & Eq). rewrite (with_proc_lookup i p' s1) in Hq by (by eapply lookup_lt_Some). injection Hq as <-. done.
Qed.

Lemma fresh_freed i s s' : fresh i s s' → after (freeproc i) s' (λ _ s'', kept s s'').
Proof.
  intros (Hk & Hcl & _ & Hnr). eapply after_mono; [apply freeproc_keeps; [apply Hk|done|done]|]. intros [] s'' Hk'. by eapply kept_trans.
Qed.

Lemma allocproc_fresh s : procs_ok s →
  after allocproc s (λ r s', match r with Some i => fresh i s s' | None => kept s s' end).
Proof.
  intros Hok. unfold allocproc. apply after_bind. intros ? ? [= <- <-]. destruct (unused_proc (k_proc s) 0) as [i|] eqn:Ei.
  2: { apply after_ret. by split. }
  apply unused_proc_spec in Ei as (p & Hp & E & _). rewrite Nat.sub_0_r in Hp.
  intros r s' Hrun. apply bind_Ok in Hrun as (pid & s0 & E0 & Hrun). apply bind_Ok in Hrun as ([] & s1 & E1 & Hrun).
  assert (F1 : fresh i s s1) by (eapply (take_entry s i p Hok Hp E); apply bind_Ok; by exists pid, s0). clear E0 E1 s0.
  revert r s' Hrun. apply after_bind; eapply after_mono; [apply after_calm; calm|]; intros tf s2 C2. apply (fresh_calm _ _ _ _ F1) in C2 as F2.
  calm_step s3 C3. apply (fresh_calm _ _ _ _ F2) in C3 as F3.
  destruct (tf =? 0).
  { apply after_bind. eapply after_mono; [by apply fresh_freed|]. intros [] s4 Hk. by apply after_ret. }
  apply after_bind; eapply after_mono; [apply after_calm; calm|]; intros pt s4 C4. apply (fresh_calm _ _ _ _ F3) in C4 as F4.
  calm_step s5 C5. apply (fresh_calm _ _ _ _ F4) in C5 as F5.
  destruct (pt =? 0).
  { apply after_bind. eapply after_mono; [by apply fresh_freed|]. intros [] s6 Hk. by apply after_ret. }
  calm_step s6 C6. apply after_ret. by eapply fresh_calm.
Qed.

(** * fork *)

Lemma kfork_keeps me s : procs_ok s → runs me s → after (kfork me) s (λ _ s', kept s s').
Proof.
  intros Hok Hme. unfold kfork. apply after_bind. eapply after_mono; [by apply allocproc_fresh|]. intros [np|] s1 F1; [|by apply after_ret].
  calm_step s2 C2. apply (fresh_calm _ _ _ _ F1) in C2 as F2. calm_step s3 C3. apply (fresh_calm _ _ _ _ F2) in C3 as F3.
  calm_step s4 C4. apply (fresh_calm _ _ _ _ F3) in C4 as F4. clear dependent s1 s2 s3.
  match goal with |- after (if ?b then _ else _) _ _ => destruct b end.
  { apply after_bind. eapply after_mono; [by apply fresh_freed|]. intros [] s5 Hk. by apply after_ret. }
  calm_step s5 C5. apply (fresh_calm _ _ _ _ F4) in C5 as F5. calm_step s6 C6. apply (fresh_calm _ _ _ _ F5) in C6 as F6.
  calm_step s7 C7. apply (fresh_calm _ _ _ _ F6) in C7 as F7. calm_step s8 C8. apply (fresh_calm _ _ _ _ F7) in C8 as F8.
  calm_step s9 C9. apply (fresh_calm _ _ _ _ F8) in C9 as F9. calm_step t1 D1. apply (fresh_calm _ _ _ _ F9) in D1 as G1.
  calm_step t2 D2. apply (fresh_calm _ _ _ _ G1) in D2 as G2. clear dependent s4 s5 s6 s7 s8 s9 t1.
  destruct G2 as (Hk & Hcl & (q & Hq & Eq) & Hnr). pose proof (proj1 Hk) as Hok2. destruct (po_proc _ Hok2 np q Hq) as [O1 O2 O3 O4 O5 O6].
  apply after_bind, after_upd_proc. intros q' Hq'. rewrite Hq in Hq'. injection Hq' as <-.
  apply after_bind, after_upd_proc. intros q' Hq'. rewrite with_proc_lookup in Hq' by (by eapply lookup_lt_Some). injection Hq' as <-.
  apply after_ret. rewrite with_proc_twice. destruct (proj2 Hk me Hme) as (pm & Hpm & Epm). split.
  - apply (upd_ok np q _ t2 Hok2 Hq); [|by left| |].
    + split; cbn; try done; [|by apply (mlfq_ext q)]. rewrite <-O1, Eq. done.
    + intros r [= <-]. apply runs_alive. by exists pm.
    + left. by intros _.
  - intros m Hm. apply upd_runs; [|by apply Hk]. left. intros ->. by apply Hnr, Hk.
Qed.

(** * exit *)

(** The children of [p] become children of init. *)
Lemma reparent_keeps me s : procs_ok s → k_initproc s ≠ Some me →
  after (reparent me me) s (λ _ s', kept s s' ∧ childless me s').
Proof.
  intros Hok Hinit. unfold reparent.
  eapply after_mono; [apply (after_foreach (λ l t, kept s t ∧ k_initproc t = k_initproc s ∧
    ∀ j p, k_proc t !! j = Some p → p_parent p = Some me → j ∈ l))|].
  - split_and!; [by split|done|]. intros j p Hj _. apply lookup_lt_Some in Hj. rewrite (po_length _ Hok) in Hj.
    apply elem_of_seq. lia.
  - intros i l t (Hk & Ei & Hl). apply after_bind, after_get_proc. intros p Hp. case_decide as Epar.
    + apply after_bind. intros ? ? [= <- <-]. apply after_bind, after_upd_proc. intros p' Hp'. rewrite Hp in Hp'. injection Hp' as <-.
      pose proof (proj1 Hk) as Hokt. destruct (po_proc _ Hokt i p Hp) as [O1 O2 O3 O4 O5 O6].
      assert (Hk1 : kept s (with_proc i (set_p_parent (k_initproc t) p) t)).
      { split.
        - apply (upd_ok i p); [done|done| |by left| |by left].
          + split; cbn; try done; [intros E; by rewrite O3 in Epar|by apply (mlfq_ext p)].
          + cbn. apply (po_init _ Hokt).
        - intros m Hm. destruct (proj2 Hk m Hm) as (r & Hr & Er). destruct (decide (i = m)) as [->|Hne].
          + exists (set_p_parent (k_initproc t) p). rewrite with_proc_lookup by (by eapply lookup_lt_Some). split; [done|]. cbn. congruence.
          + exists r. by rewrite with_proc_lookup_ne. }
      assert (Hcalm : calmly (wakeup_proc me (k_initproc t))) by (unfold wakeup_proc; calm).
      eapply after_mono; [by apply after_calm|]. intros [] u C. split_and!.
      * eapply kept_trans; [exact Hk1|]. apply kept_calm; [apply Hk1|done].
      * by rewrite (ca_init _ _ C).
      * intros j r Hr Er. destruct (calm_lookup _ _ C j r Hr) as (r' & Hr' & Cr). rewrite (cp_parent _ _ Cr) in Er.
        destruct (decide (i = j)) as [->|Hne].
        -- rewrite with_proc_lookup in Hr' by (by eapply lookup_lt_Some). injection Hr' as <-. cbn in Er. congruence.
        -- rewrite with_proc_lookup_ne in Hr' by done. apply (Hl j r') in Hr'; [|done]. by apply elem_of_cons in Hr' as [->|?].
    + apply after_ret. split_and!; [done|done|]. intros j r Hr Er. pose proof (Hl j r Hr Er) as Hj. apply elem_of_cons in Hj as [->|?]; [|done].
      rewrite Hp in Hr. injection Hr as <-. done.
  - intros [] t (Hk & Ei & Hl). split; [done|]. split; [|by rewrite Ei]. intros j p Hp Epar. by apply (Hl j p) in Epar; [apply not_elem_of_nil in Epar|].
Qed.

(** The other running processes still run; [me] is a zombie without children. *)
Definition exited (me : nat) (s s' : kernel) : Prop :=
  procs_ok s' ∧ (∀ i, i ≠ me → runs i s → runs i s') ∧ childless me s' ∧ ∃ p, k_proc s' !! me = Some p ∧ p_state p = ZOMBIE.

Lemma kexit_exits me status s : procs_ok s → runs me s → after (kexit me status) s (λ _ s', exited me s s').
Proof.
  intros Hok Hme. unfold kexit. apply after_bind. intros ? ? [= <- <-]. case_decide as Hinit; [by intros ? ?|].
  calm_step s1 C1. calm_step s2 C2. calm_step s3 C3. calm_step s4 C4. calm_step s5 C5. calm_step s6 C6.
  assert (C : calm s s6) by (do 5 (etrans; [eassumption|]); done). clear s1 s2 s3 s4 s5 C1 C2 C3 C4 C5 C6.
  pose proof (kept_calm _ _ Hok C) as Hk6. apply after_bind.
  eapply after_mono; [apply reparent_keeps; [apply Hk6|by rewrite (ca_init _ _ C)]|]. intros [] s7 [Hk7 Hcl7]. apply (kept_trans _ _ _ Hk6) in Hk7.
  calm_step s8 C8. calm_step s9 C9. calm_step t1 D1. assert (D : calm s7 t1) by (do 2 (etrans; [eassumption|]); done).
  clear s6 s8 s9 C8 C9 D1 C Hk6. pose proof (calm_childless _ _ D me Hcl7) as Hcl. pose proof (kept_calm _ _ (proj1 Hk7) D) as Hk.
  apply (kept_trans _ _ _ Hk7) in Hk. pose proof (proj1 Hk) as Hokt. destruct (proj2 Hk me Hme) as (p & Hp & Ep).
  apply after_bind, after_upd_proc. intros p' Hp'. rewrite Hp in Hp'. injection Hp' as <-.
  destruct (po_proc _ Hokt me p Hp) as [O1 O2 O3 O4 O5 O6]. set (p' := set_p_state ZOMBIE p).
  assert (Hex : exited me s (with_proc me p' t1)).
  { split_and!.
    - apply (upd_ok me p); [done|done| |by left| |].
      + split; cbn; try done; [|by apply (mlfq_ext p)]. rewrite <-O1, Ep. done.
      + intros q Hq. by apply (po_parent _ Hokt me p).
      + right. split; [done|]. by apply (proj1 Hcl me p).
    - intros i Hne Hi. apply upd_runs; [by left|by apply Hk].
    - apply upd_childless; [|done]. by apply (proj1 Hcl me p).
    - exists p'. split; [|done]. apply with_proc_lookup. by eapply lookup_lt_Some. }
  unfold sched. apply after_bind, after_get_proc. intros q Hq. case_decide; [by intros ? ?|]. by apply after_ret.
Qed.

(** * wait *)

Lemma kwait_keeps me addr s : procs_ok s → after (kwait me addr) s (λ _ s', kept s s').
Proof.
  intros Hok. unfold kwait. apply after_bind.
  assert (Hscan : ∀ l b, after (wait_scan me addr l b) s (λ _ s', kept s s')).
  { induction l as [|i l IH]; intros b; cbn [wait_scan]; [by apply after_ret|]. apply after_bind, after_get_proc. intros p Hp.
    case_decide; [|apply IH]. case_decide as Ez; [|apply IH]. calm_step s1 C1. pose proof (kept_calm _ _ Hok C1) as Hk1.
    match goal with |- after (if ?b then _ else _) _ _ => destruct b end; [by apply after_ret|].
    apply after_bind. eapply after_mono; [apply (freeproc_keeps i s1)|].
    - apply Hk1.
    - eapply calm_childless; [done|]. apply (dead_childless i p s Hok Hp). intros [_ Hz]. done.
    - intros (q & Hq & Eq). destruct (calm_lookup _ _ C1 i q Hq) as (p' & Hp' & Cp). rewrite Hp in Hp'. injection Hp' as <-.
      destruct (cp_state _ _ Cp) as [?|[? _]]; congruence.
    - intros [] s2 Hk2. apply after_ret. by eapply kept_trans. }
  eapply after_mono; [apply Hscan|]. intros r s1 Hk1. cbv beta in Hk1.
  assert (Hrest : ∀ m : M kernel (step unit Z), calmly m → after m s1 (λ _ s', kept s s')).
  { intros m Hm. eapply after_mono; [by apply after_calm|]. intros a s2 C. cbv beta in C. eapply kept_trans; [done|]. apply kept_calm; [apply Hk1|done]. }
  apply Hrest. calm.
Qed.

(** * System calls *)

Lemma calmly_kkill pid : calmly (kkill pid).
Proof.
  unfold kkill. apply calmly_bind; [|calm]. apply calmly_scan. intros i s a s' (p & t & H1 & H2)%bind_Ok. unfold get_proc in H1.
  destruct (k_proc s !! i) as [q|] eqn:E; [|done]. injection H1 as <- <-. destruct (p_pid q =? pid); [|by injection H2 as _ <-].
  apply bind_Ok in H2 as ([] & s1 & H2 & H3). pose proof H2 as C1. assert (calm s s1) as C by (assert (calmly (upd_proc i (set_p_killed 1))) as Hc by calm; by eapply Hc).
  unfold upd_proc in H2. rewrite E in H2. injection H2 as <-. etrans; [exact C|]. clear C C1. apply bind_Ok in H3 as ([] & s2 & H3 & H4). injection H4 as _ <-.
  case_decide as Es; [|by injection H3 as <-]. unfold upd_proc in H3. cbn in H3. rewrite list_lookup_insert_eq in H3 by (by eapply lookup_lt_Some).
  injection H3 as <-. split; [done|done|]. cbn. rewrite list_insert_insert_eq. apply Forall2_insert; [done|]. split; try done; [by right|by apply mlfq_ext].
Qed.

Lemma after_keep {A} (m : M kernel A) s : procs_ok s → calmly m → after m s (λ _ s', kept s s').
Proof. intros Hok Hm. eapply after_mono; [by apply after_calm|]. intros a s' C. by apply kept_calm. Qed.

#[local] Hint Resolve calmly_kkill : calm.

(** Every system call, by its number. *)
Lemma syscalls_keep me pad num f s : procs_ok s → runs me s → syscalls me pad num = Some f →
  after f s (λ r s', match r with Some _ => kept s s' | None => exited me s s' end).
Proof.
  intros Hok Hme. unfold syscalls. cbv zeta.
  assert (Hret : ∀ m : M kernel Z, after m s (λ _ s', kept s s') →
    after (r ← m; mret (Some (u64 r))) s (λ r s', match r with Some _ => kept s s' | None => exited me s s' end)).
  { intros m Hm. apply after_bind. eapply after_mono; [exact Hm|]. intros r s' Hk. by apply after_ret. }
  assert (Hcalm : ∀ m : M kernel Z, calmly m →
    after (r ← m; mret (Some (u64 r))) s (λ r s', match r with Some _ => kept s s' | None => exited me s s' end)).
  { intros m Hm. by apply Hret, after_keep. }
  repeat match goal with
  | |- (if ?b then Some ?m else _) = Some f → _ => destruct b; [intros [= <-]|]
  end; [..|done].
  all: try (apply Hcalm; solve [calm]).
  - by apply Hret, kfork_keeps.
  - unfold sys_exit. apply after_bind, after_bind. eapply after_mono; [apply after_keep; [done|calm]|]. intros n s1 Hk1. cbv beta in Hk1.
    eapply after_mono; [apply kexit_exits; [apply Hk1|by apply Hk1]|]. intros [] s2 (E1 & E2 & E3 & E4). apply after_ret.
    split_and!; [done| |done|done]. intros i Hne Hi. by apply E2, Hk1.
  - apply Hret. unfold wait_for, sys_wait. apply after_bind, after_bind. eapply after_mono; [apply after_keep; [done|calm]|]. intros n s1 Hk1.
    cbv beta in Hk1. eapply after_mono; [apply kwait_keeps; apply Hk1|]. intros [r|c l] s2 Hk2; [|by intros ? ?]. apply after_ret. by eapply kept_trans.
Qed.

Lemma syscall_keeps me pad s : procs_ok s → runs me s →
  after (syscall me pad) s (λ (b : bool) s', if b then kept s s' else exited me s s').
Proof.
  intros Hok Hme. unfold syscall. apply after_bind. eapply after_mono; [apply after_keep; [done|calm]|]. intros a7 s1 Hk1. cbv beta in Hk1.
  assert (Hend : ∀ s2 (m : M kernel bool), kept s s2 → calmly m → (∀ t b t', m t = Ok (b, t') → b = true) →
    after m s2 (λ (b : bool) s', if b then kept s s' else exited me s s')).
  { intros s2 m Hk Hm Hb b s' E. rewrite (Hb _ _ _ E). eapply kept_trans; [done|]. apply kept_calm; [apply Hk|]. by eapply Hm. }
  cbv zeta. destruct (syscalls me pad (i32 a7)) as [f|] eqn:Ef.
  - apply after_bind. eapply after_mono; [apply (syscalls_keep me pad (i32 a7) f s1); [apply Hk1|by apply Hk1|done]|]. intros [v|] s2 Hk2.
    + apply Hend; [by eapply kept_trans|calm|]. intros t b t' (? & ? & _ & E)%bind_Ok. by injection E.
    + apply after_ret. destruct Hk2 as (E1 & E2 & E3 & E4). split_and!; [done| |done|done]. intros i Hne Hi. by apply E2, Hk1.
  - apply Hend; [done|calm|]. intros t b t' (? & ? & _ & E)%bind_Ok. apply bind_Ok in E as (? & ? & _ & E). apply bind_Ok in E as (? & ? & _ & E).
    by injection E.
Qed.

(** * Clock ticks *)

(** The entry of a process that has given up the cpu. *)
Record yielded (p q : proc) : Prop := {
  yi_pid : p_pid q = p_pid p;
  yi_parent : p_parent q = p_parent p;
  yi_state : p_state q = RUNNABLE;
  yi_sched : mlfq_ok q;
  yi_ofile : length (p_ofile q) = length (p_ofile p);
  yi_name : length (p_name q) = length (p_name p);
}.

(** The other running processes still run; [me] runs or waits for the cpu. *)
Definition resumes (me : nat) (s s' : kernel) : Prop :=
  procs_ok s' ∧ (∀ i, i ≠ me → runs i s → runs i s') ∧ ∃ p, k_proc s' !! me = Some p ∧ (p_state p = RUNNING ∨ p_state p = RUNNABLE).

Lemma yielded_resumes me p q s : procs_ok s → k_proc s !! me = Some p → p_state p = RUNNING → yielded p q → resumes me s (with_proc me q s).
Proof.
  intros Hok Hp Ep [Y1 Y2 Y3 Y4 Y5 Y6]. destruct (po_proc _ Hok me p Hp) as [O1 O2 O3 O4 O5 O6]. split_and!.
  - apply (upd_ok me p); [done|done| |by left| |].
    + split; rewrite ?Y1, ?Y2, ?Y3, ?Y5, ?Y6; try done. rewrite <-O1, Ep. done.
    + rewrite Y2. intros r Hr. by apply (po_parent _ Hok me p).
    + left. intros _. split; by rewrite Y3.
  - intros i Hne Hi. apply upd_runs; [by left|done].
  - exists q. rewrite with_proc_lookup by (by eapply lookup_lt_Some). split; [done|by right].
Qed.

Lemma count_tick_after me p s (Q : unit → kernel → Prop) : k_proc s !! me = Some p → mlfq_ok p →
  (∀ l, length l = 3%nat → Forall (λ c, 0 ≤ c) l → Q tt (with_proc me (set_p_ticks_count (p_ticks_count p + 1) (set_p_ticks_in_q l p)) s)) →
  after (count_tick me) s Q.
Proof.
  intros Hp Hm HQ. assert (Hi : (me < length (k_proc s))%nat) by (by eapply lookup_lt_Some). unfold count_tick. apply after_bind, after_get_proc.
  intros p' Hp'. rewrite Hp in Hp'. injection Hp' as <-. case_decide; [|by intros ? ?].
  destruct (p_ticks_in_q p !! Z.to_nat (p_priority p)) as [c|] eqn:Ec; [|by intros ? ?].
  apply after_bind. unfold add_int. case_decide; [|by intros ? ?]. apply after_ret, after_bind, after_upd_proc. intros p' Hp'. rewrite Hp in Hp'. injection Hp' as <-.
  apply after_bind. case_decide; [|by intros ? ?]. apply after_ret, after_upd_proc. intros p' Hp'. rewrite with_proc_lookup in Hp' by done. injection Hp' as <-.
  rewrite with_proc_twice. apply HQ; [rewrite length_insert; apply Hm|]. apply Forall_insert; [apply Hm|].
  pose proof (proj1 (Forall_lookup _ _) (mq_stats _ Hm) _ _ Ec) as Hc. cbv beta in Hc. lia.
Qed.

Lemma yield_after me p s (Q : unit → kernel → Prop) : k_proc s !! me = Some p → Q tt (with_proc me (set_p_state RUNNABLE p) s) → after (yield me) s Q.
Proof.
  intros Hp HQ. assert (Hi : (me < length (k_proc s))%nat) by (by eapply lookup_lt_Some). apply after_bind, after_upd_proc. intros p' Hp'. rewrite Hp in Hp'. injection Hp' as <-.
  unfold sched. apply after_bind, after_get_proc. intros q _. case_decide; [by intros ? ?|]. by apply after_ret.
Qed.

(** The demotions at the end of both handlers. *)
Lemma demote_after me q s (Q : unit → kernel → Prop) :
  k_proc s !! me = Some q → 0 ≤ p_priority q ≤ 2 → length (p_ticks_in_q q) = 3%nat → 0 ≤ p_ticks_count q → Forall (λ c, 0 ≤ c) (p_ticks_in_q q) →
  (∀ r, yielded q r → Q tt (with_proc me r s)) →
  after (p ← get_proc me;
    if p_priority p =? 0 then
      if LIMIT_Q0 <=? p_ticks_count p then upd_proc me (set_p_priority 1) ;; upd_proc me (set_p_ticks_count 0) ;; yield me else yield me
    else if p_priority p =? 1 then
      if LIMIT_Q1 <=? p_ticks_count p then upd_proc me (set_p_priority 2) ;; upd_proc me (set_p_ticks_count 0) ;; yield me else yield me
    else yield me) s Q.
Proof.
  intros Hq H1 H2 H3 H4 HQ. assert (Hi : (me < length (k_proc s))%nat) by (by eapply lookup_lt_Some). apply after_bind, after_get_proc. intros q' Hq'.
  rewrite Hq in Hq'. injection Hq' as <-.
  assert (Hdem : ∀ n, 1 ≤ n ≤ 2 → after (upd_proc me (set_p_priority n) ;; upd_proc me (set_p_ticks_count 0) ;; yield me) s Q).
  { intros n Hn. apply after_bind, after_upd_proc. intros q' Hq'. rewrite Hq in Hq'. injection Hq' as <-. apply after_bind, after_upd_proc. intros q' Hq'.
    rewrite with_proc_lookup in Hq' by done. injection Hq' as <-. rewrite with_proc_twice. eapply yield_after; [by apply with_proc_lookup|]. rewrite with_proc_twice.
    apply HQ. split; try done. split; cbn; try done; lia. }
  assert (Hstay : (p_priority q = 0 → p_ticks_count q < LIMIT_Q0) → (p_priority q = 1 → p_ticks_count q < LIMIT_Q1) → after (yield me) s Q).
  { intros S0 S1. eapply yield_after; [done|]. apply HQ. by split. }
  destruct (Z.eqb_spec (p_priority q) 0) as [E|E]; [destruct (Z.leb_spec LIMIT_Q0 (p_ticks_count q))|
    destruct (Z.eqb_spec (p_priority q) 1); [destruct (Z.leb_spec LIMIT_Q1 (p_ticks_count q))|]];
    first [apply Hdem; lia|apply Hstay; intros; lia].
Qed.

Lemma usertrap_tick_resumes me s : procs_ok s → runs me s → after (usertrap_tick me) s (λ _ s', resumes me s s').
Proof.
  intros Hok (p & Hp & Ep). assert (Hi : (me < length (k_proc s))%nat) by (by eapply lookup_lt_Some). pose proof (ok_sched _ _ (po_proc _ Hok me p Hp)) as Hm.
  unfold usertrap_tick. apply after_bind, (count_tick_after me p s _ Hp Hm). intros l Hl Hpos.
  eapply demote_after; [by apply with_proc_lookup|apply Hm|done|cbn; pose proof (mq_count _ Hm); lia|done|].
  intros r Hr. rewrite with_proc_twice. apply (yielded_resumes me p r s Hok Hp Ep). destruct Hr as [Y1 Y2 Y3 Y4 Y5 Y6]. by split.
Qed.

Lemma kerneltrap_tick_resumes me s : procs_ok s → runs me s → after (kerneltrap_tick (Some me)) s (λ _ s', resumes me s s').
Proof.
  intros Hok Hr. pose proof Hr as (p & Hp & Ep). unfold kerneltrap_tick. apply after_bind, after_get_proc. intros p' Hp'. rewrite Hp in Hp'. injection Hp' as <-.
  rewrite decide_True by done. by apply usertrap_tick_resumes.
Qed.

(** * kill *)

(** The entry after [kill]. *)
Definition marked (p : proc) : proc :=
  let q := set_p_killed 1 p in if decide (p_state p = SLEEPING) then set_p_state RUNNABLE q else q.

Lemma kill_scan pid s n k : (k + n = length (k_proc s))%nat → (∀ j p, (j < k)%nat → k_proc s !! j = Some p → p_pid p ≠ pid) →
  let body := λ i, p ← get_proc i;
    if p_pid p =? pid then
      upd_proc i (set_p_killed 1) ;;
      (if decide (p_state p = SLEEPING) then upd_proc i (set_p_state RUNNABLE) else mret tt) ;;
      mret (Some tt)
    else mret None in
  (∃ i p, k_proc s !! i = Some p ∧ p_pid p = pid ∧ (∀ j q, (j < i)%nat → k_proc s !! j = Some q → p_pid q ≠ pid) ∧
     scan (seq k n) body s = Ok (Some tt, with_proc i (marked p) s)) ∨
  ((∀ j p, k_proc s !! j = Some p → p_pid p ≠ pid) ∧ scan (seq k n) body s = Ok (None, s)).
Proof.
  intros Hk Hbefore body. revert k Hk Hbefore. induction n as [|n IH]; intros k Hk Hbefore; cbn [seq scan].
  { right. split; [|done]. intros j p Hp. apply (Hbefore j p); [|done]. apply lookup_lt_Some in Hp. lia. }
  destruct (lookup_lt_is_Some_2 (k_proc s) k) as [p Hp]; [lia|].
  destruct (Z.eqb_spec (p_pid p) pid) as [E|E].
  - left. exists k, p. split_and!; [done|done|done|]. rewrite (bind_Ok_1 _ _ _ (Some tt) (with_proc k (marked p) s)); [done|].
    unfold body. rewrite (bind_Ok_1 _ _ _ _ _ (get_proc_run k p s Hp)), (proj2 (Z.eqb_eq _ _) E).
    rewrite (bind_Ok_1 _ _ _ _ _ (upd_proc_run k _ p s Hp)). unfold marked. case_decide; [|done].
    rewrite (bind_Ok_1 _ _ _ tt (with_proc k (set_p_state RUNNABLE (set_p_killed 1 p)) s)); [done|]. by rewrite upd_with by (by eapply lookup_lt_Some).
  - rewrite (bind_Ok_1 _ _ _ None s).
    + apply IH; [lia|]. intros j q Hj Hq. destruct (decide (j = k)) as [->|Hne]; [congruence|]. apply (Hbefore j q); [lia|done].
    + unfold body. by rewrite (bind_Ok_1 _ _ _ _ _ (get_proc_run k p s Hp)), (proj2 (Z.eqb_neq _ _) E).
Qed.

(** A new process has the [killed] flag its entry had. *)
Lemma allocproc_killed s i : after allocproc s (λ r s', r = Some i →
  ∃ p p', k_proc s !! i = Some p ∧ p_state p = UNUSED ∧ k_proc s' !! i = Some p' ∧ p_state p' = USED ∧ p_killed p' = p_killed p).
Proof.
  unfold allocproc. apply after_bind. intros ? ? [= <- <-]. destruct (unused_proc (k_proc s) 0) as [k|] eqn:Ek; [|by apply after_ret].
  apply unused_proc_spec in Ek as (p & Hp & E & _). rewrite Nat.sub_0_r in Hp.
  set (born := λ s' : kernel, ∃ p', k_proc s' !! k = Some p' ∧ p_state p' = USED ∧ p_killed p' = p_killed p).
  assert (Hupd : ∀ (f : proc → proc) t (Q : unit → kernel → Prop), born t → (∀ p, p_state (f p) = p_state p ∧ p_killed (f p) = p_killed p) →
    (∀ t', born t' → Q tt t') → after (upd_proc k f) t Q).
  { intros f t Q (q & Hq & E1 & E2) Hf HQ. apply after_upd_proc. intros q' Hq'. rewrite Hq in Hq'. injection Hq' as <-. apply HQ.
    exists (f q). rewrite with_proc_lookup by (by eapply lookup_lt_Some). destruct (Hf q) as [-> ->]. done. }
  assert (Hzoom : ∀ A (m : M kst A) t (Q : A → kernel → Prop), born t → (∀ a t', born t' → Q a t') → after (zoom mem_lens m) t Q).
  { intros A m t Q Hb HQ a t' (u & _ & ->)%zoom_Ok. by apply HQ. }
  apply after_bind. unfold allocpid. apply after_bind. intros ? ? [= <- <-]. apply after_bind. unfold add_int.
  case_decide; [|by intros ? ?]. apply after_ret, after_bind. intros ? ? [= <- <-]. apply after_ret, after_bind, after_upd_proc.
  intros q Hq. cbn in Hq. rewrite Hp in Hq. injection Hq as <-.
  assert (Hb : ∀ p', p_state p' = USED → p_killed p' = p_killed p → ∀ t, k_proc t = k_proc s → born (with_proc k p' t)).
  { intros p' E1 E2 t Et. exists p'. rewrite with_proc_lookup by (rewrite Et; by eapply lookup_lt_Some). done. }
  apply after_bind, Hzoom; [by apply Hb|]. intros tf t1 B1. apply after_bind, Hupd; [done|by intros []|]. intros t2 B2.
  destruct (tf =? 0); [apply after_bind; intros ? ? _; by apply after_ret|].
  apply after_bind, Hzoom; [done|]. intros pt t3 B3. apply after_bind, Hupd; [done|by intros []|]. intros t4 B4.
  destruct (pt =? 0); [apply after_bind; intros ? ? _; by apply after_ret|].
  apply after_bind, Hupd; [done|by intros []|]. intros t5 (p' & Hp' & E1 & E2). apply after_ret. intros [= ->]. by exists p, p'.
Qed.

(** C40: [kill] marks the first process with the given pid, wakes it if it sleeps, changes nothing else and returns 0;
    if there is none it returns -1 and changes nothing.  Entries that are not in use have pid 0, so [kill(0)] marks
    the first unused entry, and a process that [allocproc] then creates there starts out killed. *)
Theorem kill_marks s : procs_ok s →
  (∀ pid, (∃ i p, k_proc s !! i = Some p ∧ p_pid p = pid ∧ (∀ j q, (j < i)%nat → k_proc s !! j = Some q → p_pid q ≠ pid) ∧
        kkill pid s = Ok (0, with_proc i (marked p) s)) ∨
     ((∀ i p, k_proc s !! i = Some p → p_pid p ≠ pid) ∧ kkill pid s = Ok (-1, s))) ∧
  (∀ i s' s'', unused_proc (k_proc s) 0 = Some i → kkill 0 s = Ok (0, s') → allocproc s' = Ok (Some i, s'') →
     ∃ p, k_proc s'' !! i = Some p ∧ p_state p = USED ∧ p_killed p = 1).
Proof.
  intros Hok. assert (Hkill : ∀ pid, (∃ i p, k_proc s !! i = Some p ∧ p_pid p = pid ∧ (∀ j q, (j < i)%nat → k_proc s !! j = Some q → p_pid q ≠ pid) ∧
        kkill pid s = Ok (0, with_proc i (marked p) s)) ∨ ((∀ i p, k_proc s !! i = Some p → p_pid p ≠ pid) ∧ kkill pid s = Ok (-1, s))).
  { intros pid. destruct (kill_scan pid s (Z.to_nat NPROC) 0) as [(i & p & Hp & E & Hb & Hr)|[Hn Hr]]; [by rewrite (po_length _ Hok)|lia| |].
    - left. exists i, p. split_and!; [done|done|done|]. unfold kkill, proc_indices. by rewrite (bind_Ok_1 _ _ _ _ _ Hr).
    - right. split; [done|]. unfold kkill, proc_indices. by rewrite (bind_Ok_1 _ _ _ _ _ Hr). }
  split; [exact Hkill|]. intros i s' s'' Hi Hr Ha. apply unused_proc_first in Hi as (p & Hp & E & Hfirst).
  destruct (Hkill 0) as [(k & q & Hq & Eq & Hb & Hr')|[_ Hr']]; rewrite Hr in Hr'; [|done]. injection Hr' as ->.
  assert (k = i) as ->.
  { destruct (decide (k < i)%nat) as [Hlt|Hge].
    - destruct (Hfirst k q Hlt Hq). by apply (ok_state _ _ (po_proc _ Hok k q Hq)).
    - destruct (decide (i < k)%nat) as [Hlt|]; [|lia]. destruct (Hb i p Hlt Hp). by apply (ok_state _ _ (po_proc _ Hok i p Hp)). }
  destruct (allocproc_killed _ i _ _ Ha eq_refl) as (r & r' & H1 & _ & H2 & H3 & H4). exists r'. split_and!; [done|done|].
  rewrite with_proc_lookup in H1 by (by eapply lookup_lt_Some). injection H1 as <-. rewrite H4. unfold marked. by case_decide.
Qed.
End text.
