(* ===== verification/TrapSpec.v ===== *)
(** Traps and the scheduler keep the process table in order: [usertrap] and
    [kerneltrap] of [kernel/trap.c] and a round of [scheduler]. *)

From S2P Require Import Prelude Riscv Mem Str Kalloc Vm State Sched Procmem Console Pipe Sleeplock Bio Block Log Fs Dir File Proc Exec Sysproc Sysfile Virtio Trap Calm ProcSpec.

(** * Calm steps of the machine *)

Definition mcalmly {A} (m : M machine A) : Prop := ∀ s a s', m s = Ok (a, s') → calm (m_k s) (m_k s').

Lemma mcalmly_ret {A} (a : A) : mcalmly (mret a).
Proof. by intros s b s' [= <- <-]. Qed.
Lemma mcalmly_bind {A B} (m : M machine A) (f : A → M machine B) : mcalmly m → (∀ a, mcalmly (f a)) → mcalmly (m ≫= f).
Proof. intros Hm Hf s b s' (a & t & H1 & H2)%bind_Ok. etrans; [by eapply Hm|by eapply Hf]. Qed.
Lemma mcalmly_gets {A} (g : machine → A) : mcalmly (gets g).
Proof. by intros s b s' [= <- <-]. Qed.
Lemma mcalmly_panic {A} msg : mcalmly (panic msg : M machine A).
Proof. by intros s b s'. Qed.
Lemma mcalmly_kern {A} (m : M kernel A) : calmly m → mcalmly (zoom kern m).
Proof. intros Hm s a s' (t & E & ->)%zoom_Ok. by apply (Hm _ _ _ E). Qed.
Lemma mcalmly_hset f : mcalmly (hset f).
Proof. by intros s a s' (t & E & ->)%zoom_Ok. Qed.
Lemma mcalmly_vdsk {A} (m : M vdisk A) : mcalmly (zoom vdsk m).
Proof. by intros s a s' (t & E & ->)%zoom_Ok. Qed.
Lemma mcalmly_foreach {A} (l : list A) (f : A → M machine unit) : (∀ x, mcalmly (f x)) → mcalmly (foreach l f).
Proof. intros Hf. induction l as [|x l IH]; [apply mcalmly_ret|]. by apply mcalmly_bind. Qed.

Create HintDb mcalm.
#[export] Hint Resolve mcalmly_ret mcalmly_gets mcalmly_panic mcalmly_hset mcalmly_vdsk : mcalm.

Ltac mcalm :=
  cbv beta zeta;
  lazymatch goal with
  | |- ∀ _, _ => intros ?; mcalm
  | |- mcalmly (match ?x with _ => _ end) => destruct x; mcalm
  | |- mcalmly (_ ≫= _) => apply mcalmly_bind; [mcalm|intros ?; mcalm]
  | |- mcalmly (zoom kern _) => apply mcalmly_kern; calm
  | |- mcalmly (foreach _ _) => apply mcalmly_foreach; intros ?; mcalm
  | |- mcalmly ?m => first [solve [auto with mcalm nocore] | let f := calm_head m in unfold f; mcalm]
  end.

Section trap.
Context `{KernelImage} `{KernelText}.

Lemma mcalmly_devintr me : mcalmly (devintr me).
Proof. unfold devintr. mcalm. Qed.
Lemma mcalmly_prepare_return me : mcalmly (prepare_return me).
Proof. unfold prepare_return. mcalm. Qed.
#[local] Hint Resolve mcalmly_devintr mcalmly_prepare_return : mcalm.

Lemma after_mcalm {A} (m : M machine A) s : mcalmly m → after m s (λ _ s', calm (m_k s) (m_k s')).
Proof. intros Hm a s' E. by eapply Hm. Qed.
Lemma after_kern {A} (m : M kernel A) s (Q : A → machine → Prop) :
  after m (m_k s) (λ a k, Q a (Machine k (m_h s) (m_v s))) → after (zoom kern m) s Q.
Proof. intros Hm a s' (t & E & ->)%zoom_Ok. by apply Hm. Qed.

Ltac mcalm_step s C := apply after_bind; eapply after_mono; [apply after_mcalm; mcalm|]; intros ? s C; cbv beta in C.

Lemma exited_calm me s s' s'' : procs_ok s → calm s s' → exited me s' s'' → exited me s s''.
Proof.
  intros Hok C (E1 & E2 & E3 & E4). split_and!; [done| |done|done]. intros i Hne Hi. apply E2; [done|]. by eapply calm_runs.
Qed.
Lemma resumes_calm_l me s s' s'' : calm s s' → resumes me s' s'' → resumes me s s''.
Proof. intros C (E1 & E2 & E3). split_and!; [done| |done]. intros i Hne Hi. apply E2; [done|]. by eapply calm_runs. Qed.
Lemma resumes_calm_r me s s' s'' : resumes me s s' → calm s' s'' → resumes me s s''.
Proof.
  intros (E1 & E2 & p & Hp & Ep) C. split_and!; [by eapply calm_ok| |].
  - intros i Hne Hi. eapply calm_runs; [done|]. by apply E2.
  - destruct (calm_lookup_l _ _ C me p Hp) as (p' & Hp' & Cp). exists p'. split; [done|]. destruct (cp_state _ _ Cp) as [->|[_ ->]]; [done|by right].
Qed.
Lemma kept_resumes me s s' : kept s s' → runs me s → resumes me s s'.
Proof. intros [Hok Hr] Hme. split_and!; [done|auto|]. destruct (Hr me Hme) as (p & Hp & Ep). exists p. auto. Qed.

(** * usertrap *)

(** The system call, fault or interrupt itself. *)
Lemma usertrap_cause_keeps me pad s : procs_ok (m_k s) → runs me (m_k s) →
  after (usertrap_cause me pad) s (λ r s', match r with Some _ => kept (m_k s) (m_k s') | None => exited me (m_k s) (m_k s') end).
Proof.
  intros Hok Hme. unfold usertrap_cause. apply after_bind. intros ? ? [= <- <-]. apply after_bind. intros ? ? [= <- <-].
  mcalm_step s1 C1. pose proof (kept_calm _ _ Hok C1) as Hk1.
  assert (Hrest : ∀ t (m : M machine (option Z)), kept (m_k s) (m_k t) → mcalmly m → (∀ t r t', m t = Ok (r, t') → is_Some r) →
    after m t (λ r s', match r with Some _ => kept (m_k s) (m_k s') | None => exited me (m_k s) (m_k s') end)).
  { intros t m Hk Hm Hr r s' E. destruct (Hr _ _ _ E) as [v ->]. eapply kept_trans; [done|]. apply kept_calm; [apply Hk|]. by eapply Hm. }
  destruct (h_scause (m_h s) =? 8).
  - mcalm_step s2 C2. match goal with |- after (if ?b then _ else _) _ _ => destruct b end.
    + apply after_bind, after_kern. assert (C : calm (m_k s) (m_k s2)) by (by etrans).
      eapply after_mono; [apply kexit_exits; [by eapply calm_ok|by eapply calm_runs]|]. intros [] k Hex. apply after_ret. by eapply exited_calm.
    + mcalm_step s3 C3. mcalm_step s4 C4. mcalm_step s5 C5. assert (C : calm (m_k s) (m_k s5)) by (do 4 (etrans; [eassumption|]); done).
      apply after_bind, after_kern. eapply after_mono; [apply syscall_keeps; [by eapply calm_ok|by eapply calm_runs]|].
      intros [] k Hk; apply after_ret; cbn; [|by eapply exited_calm]. eapply kept_trans; [|exact Hk]. by apply kept_calm.
  - apply Hrest; [done|mcalm|]. intros t r t' E. repeat (apply bind_Ok in E as (? & ? & _ & E) || case_match); try (injection E as <- _; done).
Qed.

Lemma usertrap_resumes me pad s : procs_ok (m_k s) → runs me (m_k s) →
  after (usertrap me pad) s (λ r s', match r with Some _ => resumes me (m_k s) (m_k s') | None => exited me (m_k s) (m_k s') end).
Proof.
  intros Hok Hme. unfold usertrap. apply after_bind. intros ? ? [= <- <-]. match goal with |- after (if ?b then _ else _) _ _ => destruct b end; [by intros ? ?|].
  mcalm_step s1 C1. mcalm_step s2 C2. mcalm_step s3 C3. assert (C : calm (m_k s) (m_k s3)) by (do 2 (etrans; [eassumption|]); done).
  pose proof (kept_calm _ _ Hok C) as Hk. apply after_bind. eapply after_mono; [apply usertrap_cause_keeps; [apply Hk|by apply Hk]|].
  intros [dev|] s4 Hk4; [|by apply after_ret; eapply exited_calm]. apply (kept_trans _ _ _ Hk) in Hk4.
  mcalm_step s5 C5. apply (kept_calm _ _ (proj1 Hk4)), (kept_trans _ _ _ Hk4) in C5 as Hk5. match goal with |- after (if ?b then _ else _) _ _ => destruct b end.
  { apply after_bind, after_kern. eapply after_mono; [apply kexit_exits; [apply Hk5|by apply Hk5]|]. intros [] k (E1 & E2 & E3 & E4). apply after_ret.
    split_and!; [done| |done|done]. intros i Hne Hi. by apply E2, Hk5. }
  apply after_bind. eapply (after_mono _ _ (λ _ s', resumes me (m_k s) (m_k s'))).
  - destruct (dev =? 2); [|by apply after_ret, kept_resumes]. apply after_kern. eapply after_mono; [apply usertrap_tick_resumes; [apply Hk5|by apply Hk5]|].
    intros [] k (E1 & E2 & E3). split_and!; [done| |done]. intros i Hne Hi. by apply E2, Hk5.
  - intros [] s6 Hr. mcalm_step s7 C7. mcalm_step s8 C8. apply after_ret. eapply resumes_calm_r; [|exact C8]. by eapply resumes_calm_r.
Qed.

(** * kerneltrap *)

Lemma kerneltrap_resumes me s : procs_ok (m_k s) → runs me (m_k s) →
  after (kerneltrap (Some me)) s (λ _ s', resumes me (m_k s) (m_k s')).
Proof.
  intros Hok Hme. unfold kerneltrap. do 3 (apply after_bind; intros ? ? [= <- <-]).
  match goal with |- after (if ?b then _ else _) _ _ => destruct b end; [by intros ? ?|].
  match goal with |- after (if ?b then _ else _) _ _ => destruct b end; [by intros ? ?|].
  apply after_bind. eapply after_mono; [apply after_mcalm; mcalm|]. intros dev s1 C1. cbv beta in C1. pose proof (kept_calm _ _ Hok C1) as Hk1. destruct (dev =? 0).
  { mcalm_step s2 C2. mcalm_step s3 C3. by intros ? ?. }
  apply after_bind. eapply (after_mono _ _ (λ _ s', resumes me (m_k s) (m_k s'))).
  - destruct (dev =? 2); [|by apply after_ret, kept_resumes]. apply after_kern. eapply after_mono; [apply kerneltrap_tick_resumes; [apply Hk1|by apply Hk1]|].
    intros [] k Hr. by eapply resumes_calm_l.
  - intros [] s6 Hr. mcalm_step s7 C7. eapply after_mono; [apply after_mcalm; mcalm|]. intros [] s8 C8. eapply resumes_calm_r; [|exact C8]. by eapply resumes_calm_r.
Qed.

(** * A round of the scheduler *)

Lemma boost_calm s : procs_ok s → calm s (after_boost s).
Proof.
  intros Hok. unfold after_boost. destruct (boost_due s); [|done]. split; [done|done|]. cbn. apply Forall2_lookup. intros i. rewrite lookup_map_procs.
  destruct (k_proc s !! i) as [p|]; cbn; constructor. destruct (in_use i p); [|done]. split; try done; [by left|]. intros [Q1 Q2 Q3 Q4 Q5 Q6]. split; cbn; try done; lia.
Qed.

Section round.
Context (run : nat → M kernel unit).
Context (Hrun : ∀ i s, procs_ok s → runs i s → after (run i) s (λ _ s', procs_ok s')).

Lemma sched_slot_ok prio i s : procs_ok s → after (sched_slot run prio i) s (λ _ s', procs_ok s').
Proof.
  intros Hok. apply after_bind, after_get_proc. intros p Hp. case_decide as E; [|by apply after_ret]. destruct E as [E _].
  assert (Hi : (i < length (k_proc s))%nat) by (by eapply lookup_lt_Some). destruct (po_proc _ Hok i p Hp) as [O1 O2 O3 O4 O5 O6].
  apply after_bind, after_upd_proc. intros p' Hp'. rewrite Hp in Hp'. injection Hp' as <-. set (s1 := with_proc i (set_p_state RUNNING p) s).
  assert (Hok1 : procs_ok s1).
  { apply (upd_ok i p); [done|done| |by left| |by left]. 
    - split; cbn; try done; [|by apply (mlfq_ext p)]. rewrite <-O1, E. done.
    - intros q Hq. by apply (po_parent _ Hok i p). }
  assert (Hcp : ∀ o t, procs_ok t → procs_ok (set_k_cproc o t)) by (intros o t []; by split).
  apply after_bind. intros ? ? [= <- <-]. apply after_bind. eapply after_mono; [apply Hrun; [by apply Hcp|]|].
  - exists (set_p_state RUNNING p). split; [|done]. by apply with_proc_lookup.
  - intros [] s2 Hok2. apply after_bind. intros ? ? [= <- <-]. apply after_ret. by apply Hcp.
Qed.

Lemma sched_scan_ok prio l s : procs_ok s → after (sched_scan run prio l) s (λ _ s', procs_ok s').
Proof.
  revert s. induction l as [|i l IH]; intros s Hok; [by apply after_ret|]. apply after_bind. eapply after_mono; [by apply sched_slot_ok|].
  intros d s1 Hok1. apply after_bind. eapply after_mono; [by apply IH|]. intros d' s2 Hok2. by apply after_ret.
Qed.

Lemma scheduler_iter_ok s : procs_ok s → after (scheduler_iter run) s (λ _ s', procs_ok s').
Proof.
  intros Hok. apply after_bind. intros ? ? E. rewrite (boost_run s (po_length _ Hok)) in E. injection E as <- <-.
  pose proof (calm_ok _ _ (boost_calm s Hok) Hok) as Hok1. revert Hok1. generalize (after_boost s) as t. clear s Hok. generalize [0; 1; 2] as l.
  induction l as [|prio l IH]; intros t Hok; [by apply after_ret|]. apply after_bind. eapply after_mono; [by apply sched_scan_ok|].
  intros [|i d] s1 Hok1; [by apply IH|]. by apply after_ret.
Qed.
End round.

(** * Boot *)

Lemma procinit_ok : after procinit kernel0 (λ _ s, procs_ok s ∧ Forall (λ p, p_pid p = 0) (k_proc s)).
Proof.
  assert (Hstart : procs_ok kernel0 ∧ Forall (λ p, p_pid p = 0 ∧ p_parent p = None ∧ p_state p = UNUSED) (k_proc kernel0)).
  { split; [|cbn [k_proc kernel0]; apply Forall_replicate; by split_and!]. assert (Hp : ∀ i p, k_proc kernel0 !! i = Some p → p = proc0) by (by intros i p [-> _]%lookup_replicate).
    assert (H1 : proc_ok 1 proc0) by (split; try done; split; cbn; try done; repeat constructor; done).
    split; try done; [by intros i p ->%Hp|by intros i j p q ->%Hp|by intros i p q ->%Hp]. }
  eapply after_mono; [apply (after_foreach (λ _ t, procs_ok t ∧ Forall (λ p, p_pid p = 0 ∧ p_parent p = None ∧ p_state p = UNUSED) (k_proc t)) _ _ _ Hstart)|].
  - intros i _ t [Hok Hall]. apply after_upd_proc. intros p Hp. pose proof (proj1 (Forall_lookup _ _) Hall i p Hp) as (E1 & E2 & E3).
    destruct (po_proc _ Hok i p Hp) as [O1 O2 O3 O4 O5 O6]. split; [|by apply Forall_insert].
    apply (upd_ok i p); [done|done| |by left|by cbn; rewrite E2|by left; unfold live; rewrite E3; tauto].
    split; cbn; try done. by apply (mlfq_ext p).
  - intros [] t [Hok Hall]. split; [done|]. eapply Forall_impl; [exact Hall|]. by intros p (? & _).
Qed.

End trap.

(** The first process is interrupted by the timer. *)
Module TimerTick.
#[local] Instance image : KernelImage := {| kernel_end := 0x80030000; kernel_etext := 0x80008000; kernel_trampoline := 0x80007000 |}.
#[local] Instance text : KernelText :=
  {| addr_forkret := 0x80001000; addr_usertrap := 0x80001100; addr_kernelvec := 0x80001200; addr_uservec := 0x80007000; addr_userret := 0x8000709c |}.

Definition booted : kernel := match procinit kernel0 with Ok (_, s) => s | _ => kernel0 end.
Definition first : proc := set_p_trapframe 0x80100000 (set_p_pagetable 0x80101000 (set_p_pid 1 (set_p_state RUNNING proc0))).
Definition start : machine :=
  Machine (with_proc 0 first (set_k_nextpid 2 booted)) (Hart 0 0 0x40 0x8000000000000005 0 0 0 1234 0 [] []) vdisk0.

Lemma first_ok s p : procs_ok s → Forall (λ p, p_pid p = 0) (k_proc s) → k_proc s !! 0%nat = Some p → p_state p = UNUSED →
  procs_ok (with_proc 0 first (set_k_nextpid 2 s)).
Proof.
  intros Hok Hall Hp E. assert (Hok2 : procs_ok (set_k_nextpid 2 s)).
  { destruct Hok as [H1 H2 H3 H4 H5 H6]. split; try done. cbn. intros i q Hq. rewrite Forall_lookup in Hall. pose proof (Hall i q Hq) as E0. cbv beta in E0.
    destruct (H3 i q Hq). split; try done. rewrite E0. lia. }
  apply (upd_ok 0 p); [done|done| | |done|by left; unfold live; rewrite E; tauto].
  - split; try done. split; cbn; try done; repeat constructor; done.
  - right. intros j q Hq _. by apply (proj1 (Forall_lookup _ _) Hall j q).
Qed.

End TimerTick.

(** After [kill(0)] the next process is born killed. *)
Module KillZero.
Import TimerTick.
#[local] Existing Instance image.
#[local] Existing Instance text.

Definition pages : kst := match freerange 0x80100000 0x80108000 (KState ∅ 0 ∅) with Ok (_, s) => s | _ => KState ∅ 0 ∅ end.
Definition ready : kernel := set_k_mem pages booted.
Definition poisoned : kernel := with_proc 0 (marked (default proc0 (k_proc ready !! 0%nat))) ready.

Lemma set_mem_ok v s : procs_ok s → procs_ok (set_k_mem v s).
Proof. intros []. by split. Qed.

Lemma kill_marks_witness : ∃ s p, kkill 0 ready = Ok (0, poisoned) ∧ allocproc poisoned = Ok (Some 0%nat, s) ∧
  k_proc s !! 0%nat = Some p ∧ p_state p = USED ∧ p_killed p = 1.
Proof.
  assert (Hb : procinit kernel0 = Ok (tt, booted)) by (vm_compute; reflexivity).
  assert (Hok : procs_ok ready) by (apply set_mem_ok; exact (proj1 (procinit_ok tt booted Hb))).
  assert (Hr : match allocproc poisoned with Ok (Some i, _) => Some i | _ => None end = Some 0%nat) by (vm_compute; reflexivity).
  assert (H0 : k_proc ready !! 0%nat = Some (default proc0 (k_proc ready !! 0%nat))) by (vm_compute; reflexivity).
  assert (Hpid : p_pid (default proc0 (k_proc ready !! 0%nat)) = 0) by (vm_compute; reflexivity).
  destruct (allocproc poisoned) as [[[i|] s]| | | |] eqn:E in Hr; [|discriminate Hr..]. injection Hr as ->.
  destruct (kill_marks ready Hok) as [Hkill Hborn]. assert (Hk : kkill 0 ready = Ok (0, poisoned)).
  { destruct (Hkill 0) as [([|k] & q & Hq & _ & Hfirst & Hrun)|[Hnone _]].
    - assert (Eq : q = default proc0 (k_proc ready !! 0%nat)) by exact (eq_sym (f_equal (default proc0) Hq)). rewrite Eq in Hrun. exact Hrun.
    - destruct (Hfirst 0%nat _ ltac:(lia) H0 Hpid).
    - destruct (Hnone _ _ H0 Hpid). }
  destruct (Hborn 0%nat poisoned s) as (p & H1 & H2 & H3); [vm_compute; reflexivity|exact Hk|exact E|].
  exists s, p. split; [exact Hk|]. split; [exact E|]. split; [exact H1|]. split; [exact H2|exact H3].
Defined.
End KillZero.
