(* ===== verification/Boot.v ===== *)
(** The boot sequence, [main] of [kernel/main.c], on hart 0 up to the call of
    [scheduler].

    [kvminithart], [trapinit], [trapinithart], [plicinit] and [plicinithart]
    only write control registers or initialise a lock; the other harts wait
    for [started] and do no more than that.  [r] are the registers of the
    disk.  No process is running: the context that [userinit] passes on is
    not used, as the path it looks up is absolute. *)

From S2P Require Import Prelude Riscv Mem Str Kalloc Vm State Sched Procmem Console Sleeplock Bio Block Log Fs Dir File Virtio Proc.

Section boot.
Context `{KernelImage} `{KernelText}.

Definition boot_msg : list Z := str "xv6 kernel is booting" ++ nl.

(** The result is [kernel_pagetable]. *)
Definition main (r : mmio) : M kernel Z :=
  consoleinit ;;
  printf nl [] ;;
  printf boot_msg [] ;;
  printf nl [] ;;
  zoom mem_lens kinit ;;
  kernel_pagetable ← zoom mem_lens kvmmake;
  procinit ;;
  binit ;;
  iinit ;;
  fileinit ;;
  zoom mem_lens (virtio_disk_init r) ;;
  userinit 0 ;;
  mret kernel_pagetable.
End boot.
