(* ===== verification/BootSpec.v ===== *)
(** What the boot sequence establishes: the invariants on which the theorems
    about the page tables, the process table and the buffer cache rest. *)

From stdpp Require Import functions.
From S2P Require Import Prelude Riscv Mem Str Kalloc Vm VmTree VmSpace VmOps VmUser VmXfer Kvm State Sched SchedSpec Procmem Console ConsoleSpec Sleeplock Bio BioSpec Cache Block Log Fs Dir Pipe File Virtio Proc ProcSpec Boot.

Section boot.
Context `{KernelImage} `{!KernelImageOk}.

(** * Memory *)

(** The rest of memory: everything but the pages taken from [l] is as it was. *)
Definition rest_same (s : kst) (l : list Z) (s' : kst) (l' : list Z) : Prop :=
  (∀ q, q ∈ l' → q ∈ l) ∧
  (∀ q, q mod PGSIZE = 0 → q ∉ l → refc s' q = refc s q ∧ same_page (kmem s') (kmem s) q).

Lemma rest_same_trans s l s1 l1 s2 l2 : rest_same s l s1 l1 → rest_same s1 l1 s2 l2 → rest_same s l s2 l2.
Proof.
  intros [A1 A2] [B1 B2]. split; [auto|]. intros q Hq Hn. destruct (A2 q Hq Hn) as [C1 C2].
  destruct (B2 q Hq) as [D1 D2]; [auto|]. split; [congruence|by eapply same_page_trans].
Qed.

(** A page table whose pages were not free stays. *)
Lemma rest_same_tree s l s' l' t : rest_same s l s' l' → kinv s l → pt_rep (kmem s) t → pt_own s t →
  pt_rep (kmem s') t ∧ pt_own s' t ∧ ∀ va, pte_of (kmem s') t va = pte_of (kmem s) t va.
Proof.
  intros [_ Hr] Hk Ht Ho. assert (∀ q, pt_page t q → refc s' q = refc s q ∧ same_page (kmem s') (kmem s) q) as Hq.
  { intros q Hq. apply Hr; [by eapply pt_page_aligned|by eapply pt_own_notin]. }
  split_and!.
  - eapply pt_rep_frame; [|exact Ht]. intros q Hp. apply same_page_sym. by apply Hq.
  - intros q Hp. destruct (Hq q Hp) as [-> _]. by apply Ho.
  - intros va. apply pte_of_frame. intros q Hp. by apply Hq.
Qed.

(** The page table of a new process. *)
Definition first_map (tf va : Z) : Z :=
  if decide (va / PGSIZE = TRAMPOLINE / PGSIZE) then leaf_pte kernel_trampoline RX
  else if decide (va / PGSIZE = TRAPFRAME / PGSIZE) then leaf_pte tf RW else 0.

Lemma step_rest_same s l t s' l' t' g : pt_step s l t s' l' t' g → ∀ q, q mod PGSIZE = 0 → ¬ pt_page t q → q ∉ l →
  refc s' q = refc s q ∧ same_page (kmem s') (kmem s) q.
Proof. intros He q Hq Ht Hl. split; [by apply (ext_refc _ _ _ _ _ _ _ He)|by apply (ext_frame _ _ _ _ _ _ _ He)]. Qed.

Lemma first_map_eq tf va : map_range (map_range (λ _, 0) TRAMPOLINE 1 kernel_trampoline RX) TRAPFRAME 1 tf RW va = first_map tf va.
Proof.
  unfold map_range, first_map. assert (TRAPFRAME / PGSIZE = TRAMPOLINE / PGSIZE - 1) as -> by done.
  set (T := TRAMPOLINE / PGSIZE). destruct (decide (va / PGSIZE = T)) as [->|E].
  - rewrite bool_decide_eq_false_2, bool_decide_eq_true_2 by lia. f_equal. lia.
  - destruct (decide (va / PGSIZE = T - 1)) as [->|E'].
    + rewrite bool_decide_eq_true_2 by lia. f_equal. lia.
    + by rewrite !bool_decide_eq_false_2 by lia.
Qed.

Lemma map_first s l l0 t root pa : NoDup l0 → (102 < length l0)%nat → kvm l0 s l t root [] (λ _, 0) → 0 ≤ pa < 2 ^ 55 → ∃ s' l' t' s'' l'' t'',
  mappages root TRAMPOLINE PGSIZE kernel_trampoline RX s = Ok (0, s') ∧ mappages root TRAPFRAME PGSIZE pa RW s' = Ok (0, s'') ∧
  pt_step s l t s' l' t' (map_range (λ _, 0) TRAMPOLINE 1 kernel_trampoline RX) ∧ pt_step s' l' t' s'' l'' t'' (first_map pa) ∧
  kvm l0 s'' l'' t'' root [] (first_map pa).
Proof.
  intros Hnd Hlen Hk Hpa. pose proof kernel_trampoline_range as Ht. pose proof kernel_etext_range as Hr. pose proof kernel_end_range as He.
  assert (∀ a, TRAPFRAME ≤ a < MAXVA → on_path kpath a) as Hp.
  { intros a Ha. apply kpath_high. unfold TRAPFRAME, KSTACK, NPROC in *. kvm_lia. }
  destruct (mappages_fit l0 Hnd s l t root [] (λ _, 0) TRAMPOLINE kernel_trampoline 1 RX) as (s' & l' & t' & E1 & K1 & S1);
    [done|cbn [length]; lia|lia|done|done|done|unfold KERNBASE in *; lia|kvm_lia|done|intros a Ha; apply Hp; unfold TRAPFRAME; kvm_lia|done|].
  destruct (mappages_fit l0 Hnd s' l' t' root [] _ TRAPFRAME pa 1 RW K1) as (s'' & l'' & t'' & E2 & K2 & S2);
    [cbn [length]; lia|lia|done|done|done|lia|unfold PGSIZE; lia|done|intros a Ha; apply Hp; unfold TRAPFRAME in *; kvm_lia| |].
  { intros a Ha. unfold map_range. rewrite bool_decide_eq_false_2; [done|]. rewrite (in_range TRAMPOLINE 1 a eq_refl). unfold TRAPFRAME in *. lia. }
  rewrite Z.mul_1_l in E1, E2. exists s', l', t', s'', l'', t''. split_and!; [done|done|done| |].
  - eapply pt_step_proper; [|exact S2]. intros va _. apply first_map_eq.
  - eapply kvm_proper; [|exact K2]. intros va _. apply first_map_eq.
Qed.

Lemma proc_pagetable_run s l tf :
  kinv s l → (102 < length l)%nat → valid_page tf →
  ∃ root s' l' t, proc_pagetable tf s = Ok (root, s') ∧ root ≠ 0 ∧ kinv s' l' ∧ pt_rep (kmem s') t ∧ pt_own s' t ∧
    t !! [] = Some root ∧ (∀ va, 0 ≤ va < MAXVA → pte_of (kmem s') t va = first_map tf va) ∧
    rest_same s l s' l' ∧ (∀ q, q ∈ l → q ∈ l' ∨ pt_page t q).
Proof.
  intros Hk Hlen Htf. pose proof Hk as [_ Hnd _ _]. destruct l as [|a l]; [cbn in Hlen; lia|].
  destruct (kvm_root (a :: l) s a l Hk eq_refl) as (s1 & E1 & Ha & K1 & F1).
  pose proof (valid_page_pos tf Htf) as Htp. rewrite PHYSTOP_val in Htp. unfold KERNBASE in Htp.
  destruct (map_first _ l (a :: l) _ a tf Hnd Hlen K1) as (s3 & l3 & t3 & s4 & l4 & t4 & E3 & E4 & S3 & S4 & K4); [lia|].
  exists a, s4, l4, t4. split.
  { unfold proc_pagetable, uvmcreate. fold RX RW. rewrite bind_assoc. mstep_with E1. rewrite (proj2 (Z.eqb_neq a 0) Ha).
    rewrite bind_assoc. erewrite bind_Ok_1 by reflexivity. rewrite bind_ret. rewrite (proj2 (Z.eqb_neq a 0) Ha).
    mstep_with E3. change (0 <? 0) with false. cbv iota. mstep_with E4. reflexivity. }
  pose proof K4 as [Kk Kr Ko Kt _ Kp Kn _]. split_and!; [exact Ha|exact Kk|exact Kr|exact Ko|exact Kt|exact Kp| |].
  - split; [intros q Hq; right; by apply (ext_free _ _ _ _ _ _ _ S3), (ext_free _ _ _ _ _ _ _ S4)|].
    intros q Hq Hn. apply not_elem_of_cons in Hn as [Hna Hnl]. destruct (F1 q Hq Hna) as [C1 M1].
    assert (¬ pt_page {[ [] := a ]} q) as Hn0 by (intros [x [_ E]%lookup_singleton_Some]; exact (Hna (eq_sym E))).
    destruct (step_rest_same _ _ _ _ _ _ _ S3 q Hq Hn0 Hnl) as [C3 M3].
    destruct (step_rest_same _ _ _ _ _ _ _ S4 q Hq) as [C4 M4].
    { intros Hp. destruct (ext_new _ _ _ _ _ _ _ S3 q Hp) as [Hp'|(Hp' & _)]; [exact (Hn0 Hp')|exact (Hnl Hp')]. }
    { intros Hq3. by apply Hnl, (ext_free _ _ _ _ _ _ _ S3). }
    split; [exact (eq_trans C4 (eq_trans C3 C1))|]. eapply same_page_trans; [exact M4|]. eapply same_page_trans; [exact M3|exact M1].
  - intros q Hq. destruct (Kn q Hq) as [Hx|[Hx|Hx%not_elem_of_nil]]; [left; exact Hx|right; exact Hx|destruct Hx].
Qed.

(** Taking a page. *)
Lemma kalloc_rest s l : kinv s l → l ≠ [] → ∃ a s' l', l = a :: l' ∧ kalloc s = Ok (a, s') ∧ a ≠ 0 ∧ valid_page a ∧ a ∉ l' ∧
  refc s' a = 1 ∧ kinv s' l' ∧ rest_same s l s' l'.
Proof.
  intros Hk Hne. destruct l as [|a l]; [done|]. destruct (kalloc_cons s a l Hk) as (s' & Hrun & Hk1 & Hc & Hcb & Hm & _).
  pose proof Hk as [_ Hd Hv _]. apply Forall_cons in Hv as [Ha _]. apply NoDup_cons in Hd as [Hal _].
  exists a, s', l. split_and!; [done|done|pose proof (valid_page_pos _ Ha); unfold KERNBASE in *; lia|done|done|done|done|].
  split; [by right|]. intros q Hq Hn. apply not_elem_of_cons in Hn as [Hna _]. split; [by apply Hcb|by apply Hm].
Qed.

Lemma memzero_rest s0 l0 s l a : kinv s l → valid_page a → a ∈ l0 → a ∉ l → rest_same s0 l0 s l → ∃ s',
  memzero a s = Ok (tt, s') ∧ kinv s' l ∧ rest_same s0 l0 s' l.
Proof.
  intros Hk Ha Hin Hn [R1 R2]. eexists. split; [reflexivity|].
  assert (∀ q, q mod PGSIZE = 0 → q ≠ a → same_page (memset (kmem s) a 0 PGSIZE) (kmem s) q) as Hm.
  { intros q Hq Hne. apply same_page_memset; [done|apply Ha|done]. }
  split.
  - destruct Hk as [K1 K2 K3 K4]. split; [|done..]. cbn. eapply fl_rep_ext; [|exact K1]. intros q Hq. symmetry.
    apply same_page_first, Hm; [by apply (proj1 (Forall_forall _ _) K3 q Hq)|by intros ->].
  - split; [done|]. intros q Hq Hql. destruct (R2 q Hq Hql) as [C M]. split; [done|]. eapply same_page_trans; [|exact M].
    apply Hm; [done|by intros ->].
Qed.

(** * The disk *)

(** The registers of a disk that the driver accepts. *)
Definition disk_ok (r : mmio) : Prop :=
  mm_magic r = 0x74726976 ∧ mm_version r = 2 ∧ mm_device_id r = 2 ∧ mm_vendor_id r = 0x554d4551 ∧
  Z.land (mm_status r) 8 ≠ 0 ∧ mm_ready r = 0 ∧ NUM ≤ mm_num_max r.

Lemma virtio_disk_init_run r s l : disk_ok r → kinv s l → (3 ≤ length l)%nat →
  ∃ v s' l', virtio_disk_init r s = Ok (v, s') ∧ kinv s' l' ∧ (length l' + 3 = length l)%nat ∧ rest_same s l s' l'.
Proof.
  intros (D1 & D2 & D3 & D4 & D5 & D6 & D7) Hk Hlen.
  destruct (kalloc_rest s l Hk) as (d & s1 & l1 & -> & E1 & Hd & Vd & Nd & _ & K1 & R1); [intros ->; cbn in Hlen; lia|].
  destruct (kalloc_rest s1 l1 K1) as (a & s2 & l2 & -> & E2 & Ha & Va & Na & _ & K2 & R2); [intros ->; cbn in Hlen; lia|].
  destruct (kalloc_rest s2 l2 K2) as (u & s3 & l3 & -> & E3 & Hu & Vu & Nu & _ & K3 & R3); [intros ->; cbn in Hlen; lia|].
  pose proof (rest_same_trans _ _ _ _ _ _ R1 (rest_same_trans _ _ _ _ _ _ R2 R3)) as R. apply not_elem_of_cons in Na as [_ Na].
  apply not_elem_of_cons in Nd as [_ [_ Nd]%not_elem_of_cons].
  destruct (memzero_rest s (d :: a :: u :: l3) s3 l3 d K3 Vd ltac:(by left) Nd R) as (s4 & E4 & K4 & R4).
  destruct (memzero_rest s (d :: a :: u :: l3) s4 l3 a K4 Va ltac:(right; by left) Na R4) as (s5 & E5 & K5 & R5).
  destruct (memzero_rest s (d :: a :: u :: l3) s5 l3 u K5 Vu ltac:(right; right; by left) Nu R5) as (s6 & E6 & K6 & R6).
  eexists _, s6, l3. split; [|split; [exact K6|split; [cbn; lia|exact R6]]].
  unfold virtio_disk_init. rewrite D1, D2, D3, D4, D6. cbn [negb orb Z.eqb Pos.eqb].
  rewrite (proj2 (Z.eqb_neq _ _) D5). unfold NUM in *.
  destruct (Z.eqb_spec (mm_num_max r) 0); [lia|]. destruct (Z.ltb_spec (mm_num_max r) 8); [lia|].
  mstep_with E1. mstep_with E2. mstep_with E3.
  rewrite (proj2 (Z.eqb_neq d 0) Hd), (proj2 (Z.eqb_neq a 0) Ha), (proj2 (Z.eqb_neq u 0) Hu). cbn [orb].
  mstep_with E4. mstep_with E5. mstep_with E6. reflexivity.
Qed.

(** * The tables *)

Context `{KernelText}.

Definition root_inode : inode := set_i_ref 1 (set_i_inum ROOTINO (set_i_dev ROOTDEV inode0)).
Definition boot_procs : list proc := (λ i, set_p_kstack (KSTACK (Z.of_nat i)) proc0) <$> seq 0 (Z.to_nat NPROC).

(** The kernel during the boot sequence. *)
Definition stage (ks : kst) (ps : list proc) (ini : option nat) (pid : Z) (ino : list inode) (c : console) (dev : list bool)
    (bufs : list buf) (d : gmap Z block) : kernel :=
  Kernel ks ps ini pid 0 0 None (replicate (Z.to_nat NFILE) file0) ino ∅ c dev bufs d [] log0 sb0.

Definition inodes0 : list inode := replicate (Z.to_nat NINODE) inode0.

Lemma procinit_stage ks ini pid ino c dev bufs d :
  procinit (stage ks (replicate (Z.to_nat NPROC) proc0) ini pid ino c dev bufs d) = Ok (tt, stage ks boot_procs ini pid ino c dev bufs d).
Proof. vm_compute. reflexivity. Qed.

Lemma iinit_stage ks ps ini pid c dev bufs d :
  iinit (stage ks ps ini pid inodes0 c dev bufs d) = Ok (tt, stage ks ps ini pid inodes0 c dev bufs d).
Proof. vm_compute. reflexivity. Qed.

Lemma namei_stage me ks ps ini pid c dev bufs d :
  namei me [SLASH] (stage ks ps ini pid inodes0 c dev bufs d) =
    Ok (Some 0%nat, stage ks ps ini pid (<[0%nat := root_inode]> inodes0) c dev bufs d).
Proof. vm_compute. reflexivity. Qed.

Lemma quiet_boot_msg : quiet (printf boot_msg []).
Proof. quiet_fmt. Qed.

(** The first process. *)
Definition init_proc (tf pt : Z) : proc :=
  Proc RUNNABLE None 0 0 1 None 0 0 [0; 0; 0] (KSTACK 0) 0 pt tf (addr_forkret, KSTACK 0 + PGSIZE)
    (replicate (Z.to_nat NOFILE) None) (Some 0%nat) (replicate 16 0).

Lemma zoom_stage {A} (m : M kst A) ks a ks' ps ini pid ino c dev bufs d : m ks = Ok (a, ks') →
  zoom mem_lens m (stage ks ps ini pid ino c dev bufs d) = Ok (a, stage ks' ps ini pid ino c dev bufs d).
Proof. intros E. by apply (zoom_mem m (stage ks ps ini pid ino c dev bufs d)). Qed.

Lemma upd_stage f ks p ini pid ino c dev bufs d :
  upd_proc 0 f (stage ks (<[0%nat := p]> boot_procs) ini pid ino c dev bufs d) =
    Ok (tt, stage ks (<[0%nat := f p]> boot_procs) ini pid ino c dev bufs d).
Proof. reflexivity. Qed.

(** The first process before it can run. *)
Definition new_proc (tf pt : Z) : proc :=
  set_p_state USED (set_p_cwd None (init_proc tf pt)).

Lemma allocproc_stage ks tf ks1 pt ks2 ino c dev bufs d :
  kalloc ks = Ok (tf, ks1) → tf ≠ 0 → proc_pagetable tf ks1 = Ok (pt, ks2) → pt ≠ 0 →
  allocproc (stage ks boot_procs None 1 ino c dev bufs d) =
    Ok (Some 0%nat, stage ks2 (<[0%nat := new_proc tf pt]> boot_procs) None 2 ino c dev bufs d).
Proof.
  intros E1 N1 E2 N2. unfold allocproc. rewrite bind_gets. cbn [k_proc stage].
  assert (unused_proc boot_procs 0 = Some 0%nat) as -> by reflexivity.
  assert (allocpid (stage ks boot_procs None 1 ino c dev bufs d) = Ok (1, stage ks boot_procs None 2 ino c dev bufs d)) as Ep by reflexivity.
  mstep_with Ep. assert (boot_procs = <[0%nat := set_p_kstack (KSTACK 0) proc0]> boot_procs) as Eb by reflexivity.
  rewrite Eb at 1. rewrite (bind_Ok_1 _ _ _ _ _ (upd_stage _ _ _ _ _ _ _ _ _ _)).
  rewrite (bind_Ok_1 _ _ _ _ _ (zoom_stage _ _ _ _ _ _ _ _ _ _ _ _ E1)). rewrite (bind_Ok_1 _ _ _ _ _ (upd_stage _ _ _ _ _ _ _ _ _ _)).
  rewrite (proj2 (Z.eqb_neq tf 0) N1).
  rewrite (bind_Ok_1 _ _ _ _ _ (zoom_stage _ _ _ _ _ _ _ _ _ _ _ _ E2)). rewrite (bind_Ok_1 _ _ _ _ _ (upd_stage _ _ _ _ _ _ _ _ _ _)).
  rewrite (proj2 (Z.eqb_neq pt 0) N2). rewrite (bind_Ok_1 _ _ _ _ _ (upd_stage _ _ _ _ _ _ _ _ _ _)). reflexivity.
Qed.

Lemma userinit_stage ks tf ks1 pt ks2 c dev bufs d :
  kalloc ks = Ok (tf, ks1) → tf ≠ 0 → proc_pagetable tf ks1 = Ok (pt, ks2) → pt ≠ 0 →
  userinit 0 (stage ks boot_procs None 1 inodes0 c dev bufs d) =
    Ok (tt, stage ks2 (<[0%nat := init_proc tf pt]> boot_procs) (Some 0%nat) 2 (<[0%nat := root_inode]> inodes0) c dev bufs d).
Proof.
  intros E1 N1 E2 N2. unfold userinit.
  rewrite (bind_Ok_1 _ _ _ _ _ (allocproc_stage _ _ _ _ _ _ _ _ _ _ E1 N1 E2 N2)). rewrite bind_modify.
  change (set_k_initproc (Some 0%nat) (stage ks2 (<[0%nat := new_proc tf pt]> boot_procs) None 2 inodes0 c dev bufs d))
    with (stage ks2 (<[0%nat := new_proc tf pt]> boot_procs) (Some 0%nat) 2 inodes0 c dev bufs d).
  rewrite (bind_Ok_1 _ _ _ _ _ (namei_stage 0 _ _ _ _ _ _ _ _)). rewrite (bind_Ok_1 _ _ _ _ _ (upd_stage _ _ _ _ _ _ _ _ _ _)).
  rewrite upd_stage. reflexivity.
Qed.

(** * The invariants *)

Lemma boot_procs_lookup tf pt i p : (<[0%nat := init_proc tf pt]> boot_procs) !! i = Some p →
  (i = 0%nat ∧ p = init_proc tf pt) ∨ (i ≠ 0%nat ∧ p = set_p_kstack (KSTACK (Z.of_nat i)) proc0).
Proof.
  intros Hi. destruct (decide (i = 0%nat)) as [->|Hn]; [left; split; [done|by injection Hi]|right; split; [done|]].
  rewrite list_lookup_insert_ne in Hi by done. unfold boot_procs in Hi. rewrite list_lookup_fmap in Hi.
  destruct (seq 0 (Z.to_nat NPROC) !! i) as [j|] eqn:E; [|done]. apply lookup_seq in E as [-> _]. cbn in Hi. by injection Hi as <-.
Qed.

Lemma boot_procs_ok ks tf pt ino c dev bufs d :
  procs_ok (stage ks (<[0%nat := init_proc tf pt]> boot_procs) (Some 0%nat) 2 ino c dev bufs d).
Proof.
  set (s := stage _ _ _ _ _ _ _ _ _). assert (alive s 0) as Hal by (eexists; split; [reflexivity|done]).
  split; [reflexivity|done| | | |].
  - intros i p [[-> ->]|[_ ->]]%boot_procs_lookup; split; try done; split; try done; repeat constructor; done.
  - intros i j p q Hi%boot_procs_lookup Hj%boot_procs_lookup E Hn.
    destruct Hi as [[-> ->]|[_ ->]], Hj as [[-> ->]|[_ ->]]; done.
  - intros i p q [[-> ->]|[_ ->]]%boot_procs_lookup; done.
  - by intros i [= <-].
Qed.

Lemma first_world s l t root tf :
  kinv s l → pt_rep (kmem s) t → pt_own s t → t !! [] = Some root → (∀ va, 0 ≤ va < MAXVA → pte_of (kmem s) t va = first_map tf va) →
  world s l {[root := t]} ∅ (refc s).
Proof.
  intros Hk Hr Ho Ht Hp. split; [split|intros a; apply refc_range|by intros r' t' n a _ _ Ha].
  - done.
  - by intros r' t' [<- <-]%lookup_singleton_Some.
  - by intros r' t' [<- <-]%lookup_singleton_Some.
  - intros r' t' q [<- <-]%lookup_singleton_Some Hq. split; by apply Ho.
  - by intros r1 r2 t1 t2 q [<- <-]%lookup_singleton_Some [<- <-]%lookup_singleton_Some.
  - intros r' t' n [<- <-]%lookup_singleton_Some Hn. rewrite lookup_empty, Hp by (apply vpn_lt_MAXVA; done).
    unfold first_map. rewrite Z.div_mul by done. change (TRAMPOLINE / PGSIZE) with 67108863. change (TRAPFRAME / PGSIZE) with 67108862.
    rewrite UVPN_val in Hn. rewrite !decide_False by lia. done.
  - done.
  - done.
  - intros a Ha. unfold cnt. by rewrite map_filter_empty, map_size_empty.
Qed.

(** The allocations of the boot sequence. *)
Lemma boot_memory ks r : freelist ks = 0 → kernel_end + 400 * PGSIZE ≤ PHYSTOP → disk_ok r →
  ∃ ks1 kroot ks2 v ks3 tf ks4 pt ks5 l kt ps t,
    kinit ks = Ok (tt, ks1) ∧ kvmmake ks1 = Ok (kroot, ks2) ∧ virtio_disk_init r ks2 = Ok (v, ks3) ∧
    kalloc ks3 = Ok (tf, ks4) ∧ tf ≠ 0 ∧ proc_pagetable tf ks4 = Ok (pt, ks5) ∧ pt ≠ 0 ∧
    world ks5 l {[pt := t]} ∅ (refc ks5) ∧ (∀ va, 0 ≤ va < MAXVA → pte_of (kmem ks5) t va = first_map tf va) ∧
    pt_rep (kmem ks5) kt ∧ kt !! [] = Some kroot ∧ (∀ va, 0 ≤ va < MAXVA → pte_of (kmem ks5) kt va = kernel_map ps va) ∧
    NoDup ps ∧ length ps = Z.to_nat NPROC.
Proof.
  intros Hf Hend Hr. destruct (kinit_ok ks Hf) as (ks1 & l1 & E1 & K1 & Hl). pose proof (free_pages 400 l1 Hend Hl) as Hlen.
  pose proof kernel_etext_range as Het. pose proof K1 as [_ Hnd1 _ _].
  destruct (kvmmake_run ks1 l1 K1) as (kroot & ks2 & l2 & kt & ps & E2 & Hk2 & Hps & Hlp); [lia|unfold PGSIZE in *; lia|].
  destruct Hk2 as [K2 R2 O2 T2 W2 P2 N2 _].
  assert (length l1 ≤ 102 + length (l2 ++ ps))%nat as Hc.
  { apply (kpaths_size kt); [done|done|]. intros q Hq. destruct (N2 q Hq) as [?|[?|?]]; [right; apply elem_of_app; by left|by left|right; apply elem_of_app; by right]. }
  rewrite length_app, Hlp in Hc. change (Z.to_nat NPROC) with 64%nat in Hc.
  destruct (virtio_disk_init_run r ks2 l2 Hr K2) as (v & ks3 & l3 & E3 & K3 & Hl3 & S3); [lia|].
  destruct (kalloc_rest ks3 l3 K3) as (tf & ks4 & l4 & El & E4 & Htf & Vtf & _ & _ & K4 & S4); [intros ->; cbn in Hl3; lia|].
  destruct (proc_pagetable_run ks4 l4 tf K4) as (pt & ks5 & l5 & t & E5 & Hpt & K5 & R5 & O5 & T5 & P5 & S5 & _); [rewrite El in Hl3; cbn in Hl3; lia|done|].
  destruct (rest_same_tree ks2 l2 ks5 l5 kt (rest_same_trans _ _ _ _ _ _ S3 (rest_same_trans _ _ _ _ _ _ S4 S5)) K2 R2 O2) as (R & _ & P).
  exists ks1, kroot, ks2, v, ks3, tf, ks4, pt, ks5, l5, kt, ps, t. do 7 (split; [assumption|]).
  split; [by eapply first_world|]. split; [done|]. split; [done|]. split; [done|]. split; [|done].
  intros va Hva. rewrite P. by apply P2.
Qed.

Lemma quiet_stage m ks ps ini pid ino c dev bufs d : quiet m → ∃ c',
  m (stage ks ps ini pid ino c dev bufs d) = Ok (tt, stage ks ps ini pid ino c' dev bufs d).
Proof. intros Hq. destruct (Hq (stage ks ps ini pid ino c dev bufs d)) as [out E]. by eexists. Qed.

Lemma boot_run ks d r : freelist ks = 0 → kernel_end + 400 * PGSIZE ≤ PHYSTOP → disk_ok r →
  ∃ kroot ks5 tf pt l kt ps t c dev,
    main r (set_k_disk d (set_k_mem ks kernel0)) =
      Ok (kroot, stage ks5 (<[0%nat := init_proc tf pt]> boot_procs) (Some 0%nat) 2 (<[0%nat := root_inode]> inodes0) c dev (init_bufs zero_block) d) ∧
    world ks5 l {[pt := t]} ∅ (refc ks5) ∧ (∀ va, 0 ≤ va < MAXVA → pte_of (kmem ks5) t va = first_map tf va) ∧
    pt_rep (kmem ks5) kt ∧ kt !! [] = Some kroot ∧ (∀ va, 0 ≤ va < MAXVA → pte_of (kmem ks5) kt va = kernel_map ps va) ∧
    NoDup ps ∧ length ps = Z.to_nat NPROC.
Proof.
  intros Hf Hend Hr.
  destruct (boot_memory ks r Hf Hend Hr) as (ks1 & kroot & ks2 & v & ks3 & tf & ks4 & pt & ks5 & l & kt & ps & t & E1 & E2 & E3 & E4 & N4 & E5 & N5 & R).
  set (P0 := replicate (Z.to_nat NPROC) proc0). set (B0 := replicate (S (Z.to_nat NBUF)) buf0). set (dev := <[Z.to_nat CONSOLE := true]> (replicate (Z.to_nat NDEV) false)).
  destruct (quiet_stage _ ks P0 None 1 inodes0 cons0 dev B0 d quiet_printf_nl) as [c1 Q1].
  destruct (quiet_stage _ ks P0 None 1 inodes0 c1 dev B0 d quiet_boot_msg) as [c2 Q2].
  destruct (quiet_stage _ ks P0 None 1 inodes0 c2 dev B0 d quiet_printf_nl) as [c3 Q3].
  exists kroot, ks5, tf, pt, l, kt, ps, t, c3, dev. split; [|exact R]. unfold main, consoleinit. rewrite bind_modify.
  change (set_k_devsw _ _) with (stage ks P0 None 1 inodes0 cons0 dev B0 d).
  mstep_with Q1. mstep_with Q2. mstep_with Q3.
  rewrite (bind_Ok_1 _ _ _ _ _ (zoom_stage _ _ _ _ _ _ _ _ _ _ _ _ E1)). rewrite (bind_Ok_1 _ _ _ _ _ (zoom_stage _ _ _ _ _ _ _ _ _ _ _ _ E2)).
  rewrite (bind_Ok_1 _ _ _ _ _ (procinit_stage _ _ _ _ _ _ _ _)).
  rewrite (bind_Ok_1 _ _ _ _ _ (binit_run (stage ks2 boot_procs None 1 inodes0 c3 dev B0 d) zero_block eq_refl)).
  change (set_k_buf _ _) with (stage ks2 boot_procs None 1 inodes0 c3 dev (init_bufs zero_block) d).
  rewrite (bind_Ok_1 _ _ _ _ _ (iinit_stage _ _ _ _ _ _ _ _)). unfold fileinit. rewrite bind_ret.
  rewrite (bind_Ok_1 _ _ _ _ _ (zoom_stage _ _ _ _ _ _ _ _ _ _ _ _ E3)).
  rewrite (bind_Ok_1 _ _ _ _ _ (userinit_stage _ _ _ _ _ _ _ _ _ E4 N4 E5 N5)). reflexivity.
Qed.
End boot.

(** C17: on a machine with at least 400 pages of memory behind the kernel and a
    disk that answers as the driver expects, the boot sequence succeeds from
    any contents of memory and of the disk.  It leaves the process table
    sound, with init as its only process: runnable, with pid 1, a context that
    starts in [forkret] on its own stack, the root directory as its current
    directory and an address space that maps the trampoline and its trapframe
    only.  The kernel's page table is the one of [kernel_map], the memory
    invariant holds for the one address space, and the buffer cache is empty
    and agrees with the disk. *)
Theorem boot_ready `{KernelImage} `{!KernelImageOk} `{KernelText} (ks : kst) (d : gmap Z block) (r : mmio) :
  freelist ks = 0 → kernel_end + 400 * PGSIZE ≤ PHYSTOP → disk_ok r →
  ∃ kroot s, main r (set_k_disk d (set_k_mem ks kernel0)) = Ok (kroot, s) ∧
    procs_ok s ∧ k_initproc s = Some 0%nat ∧
    (∃ p l t, k_proc s !! 0%nat = Some p ∧ p_state p = RUNNABLE ∧ p_pid p = 1 ∧ p_cwd p = Some 0%nat ∧
       p_context p = (addr_forkret, KSTACK 0 + PGSIZE) ∧ world (k_mem s) l {[p_pagetable p := t]} ∅ (refc (k_mem s)) ∧
       (∀ va, 0 ≤ va < MAXVA → pte_of (kmem (k_mem s)) t va = first_map (p_trapframe p) va)) ∧
    (∀ i p, k_proc s !! i = Some p → i ≠ 0%nat → p_state p = UNUSED ∧ p_kstack p = KSTACK (Z.of_nat i)) ∧
    k_inode s !! 0%nat = Some root_inode ∧
    (∃ kt ps, pt_rep (kmem (k_mem s)) kt ∧ kt !! [] = Some kroot ∧ NoDup ps ∧ Z.of_nat (length ps) = NPROC ∧
       ∀ va, 0 ≤ va < MAXVA → pte_of (kmem (k_mem s)) kt va = kernel_map ps va) ∧
    cinv 0 s ∅ (disk_block d) ∅.
Proof.
  intros Hf Hend Hr.
  destruct (boot_run ks d r Hf Hend Hr) as (kroot & ks5 & tf & pt & l & kt & ps & t & c & dev & E & W & P & KR & KT & KP & KN & KL).
  eexists kroot, _. split; [exact E|]. split; [apply boot_procs_ok|]. split; [reflexivity|].
  split; [exists (init_proc tf pt), l, t; split_and!; [reflexivity..|exact W|exact P]|].
  split; [intros i p Hi Hn; destruct (boot_procs_lookup _ _ _ _ Hi) as [[? _]|[_ ->]]; [done|split; reflexivity]|].
  split; [reflexivity|]. split; [exists kt, ps; split_and!; [done|done|done|by rewrite KL|done]|].
  exact (init_cinv 0 (stage ks5 (<[0%nat := init_proc tf pt]> boot_procs) _ _ _ c dev (init_bufs zero_block) d) (init_proc tf pt) eq_refl eq_refl eq_refl).
Qed.

(** The machine of {!Kvm} with the disk of qemu. *)
Module Qemu.
Import Kvm.Roomy.
#[export] Instance text : KernelText :=
  {| addr_forkret := 0x80001000; addr_usertrap := 0x80001100; addr_kernelvec := 0x80001200; addr_uservec := 0x80006000; addr_userret := 0x8000609c |}.
Definition disk : mmio := Mmio 0x74726976 2 2 0x554d4551 0x30006e54 11 0 1024.

Lemma boot_ready_witness : ∃ kroot s, main disk (set_k_disk ∅ (set_k_mem (KState ∅ 0 ∅) kernel0)) = Ok (kroot, s) ∧
  procs_ok s ∧ cinv 0 s ∅ (disk_block ∅) ∅.
Proof.
  assert (kernel_end + 400 * PGSIZE ≤ PHYSTOP) as Hroom by (vm_compute; discriminate).
  assert (freelist (KState ∅ 0 ∅) = 0) as Hfree by reflexivity.
  assert (disk_ok disk) as Hdisk by (by vm_compute).
  destruct (boot_ready (KState ∅ 0 ∅) ∅ disk Hfree Hroom Hdisk) as (kroot & s & E & O & _ & _ & _ & _ & _ & C).
  exists kroot, s. split; [exact E|]. split; [exact O|exact C].
Defined.
End Qemu.
