(* ===== verification/AsmSpec.v ===== *)
(** What the assembly files do: the trampoline saves and restores every user
    register, [swtch] switches between two threads of the kernel, and an
    interrupt in the kernel does not disturb the code it interrupts. *)

From S2P Require Import Prelude Riscv Mem Str Kalloc KallocSpec Vm VmTree VmSpace VmOps VmXfer Kvm Hart Asm Proc.
Import Gpr Csr.

(** The registers of a hart hold 64 bits, and [zero] is 0. *)
Definition regs_ok (x : reg → Z) : Prop := x zero = 0 ∧ ∀ r, 0 ≤ x r < 2 ^ 64.

Lemma exec_app keep l1 l2 c : exec keep (l1 ++ l2) c = exec keep l1 c ≫= exec keep l2.
Proof. revert c. induction l1 as [|i l1 IH]; intros c; [done|]. cbn. destruct (step keep i c); [apply IH|done]. Qed.

Lemma exec_then keep l1 l2 c c1 : exec keep l1 c = Some c1 → exec keep (l1 ++ l2) c = exec keep l2 c1.
Proof. intros E. by rewrite exec_app, E. Qed.
Lemma exec_ret keep c : exec keep [Ret] c = Some (set_pc (c_x c ra) c).
Proof. done. Qed.

Lemma trap_mstatus cause tval c : c_csr (trap cause tval c) mstatus =
  set_bit SIE_BIT false (set_bit SPP_BIT (negb (c_priv c =? PRV_U)) (set_bit SPIE_BIT (Z.testbit (c_csr c mstatus) SIE_BIT) (c_csr c mstatus))).
Proof. reflexivity. Qed.

(** * Windows: a range of virtual addresses and the memory behind it *)

(** The [n] bytes at [va] are the memory at [pa], and stay so however the
    memory in [D] changes, of which they are a part. *)
Definition window (c : core) (D : Z → Prop) (va n pa : Z) : Prop :=
  (∀ a, pa ≤ a < pa + n → D a) ∧
  ∀ acc off m, 0 ≤ off → off + 8 ≤ n → off mod 8 = 0 → (∀ a, ¬ D a → ld8 m a = ld8 (c_ram c) a) →
    translate (set_ram m c) acc (u64 (va + off)) = Some (pa + off).

Lemma window_proper c c' D va n pa :
  window c D va n pa → c_priv c' = c_priv c → c_csr c' satp = c_csr c satp →
  (∀ a, ¬ D a → ld8 (c_ram c') a = ld8 (c_ram c) a) → window c' D va n pa.
Proof.
  intros [H0 H] Hp Hs Hr. split; [done|]. intros acc off m H1 H2 H3 H4. rewrite <-(H acc off m H1 H2 H3).
  - unfold translate, set_ram. cbn. by rewrite Hp, Hs.
  - intros a Ha. by rewrite H4, Hr.
Qed.

(** Offsets of the slots of a window. *)
Definition fits (n : Z) (l : list (reg * Z)) : Prop := Forall (λ p, 0 ≤ p.2 ∧ p.2 + 8 ≤ n ∧ p.2 mod 8 = 0) l.

Lemma u64_aligned va off : va mod 8 = 0 → off mod 8 = 0 → u64 (va + off) mod 8 = 0.
Proof.
  intros Hv Ho. unfold u64. change (2 ^ 64) with (8 * 2 ^ 61).
  rewrite Z.rem_mul_r, Z.mul_comm, Z.mod_add, Z.mod_mod, Z.add_mod, Hv, Ho by lia. done.
Qed.

Lemma set_ram_same c : set_ram (c_ram c) c = c.
Proof. by destruct c. Qed.

Lemma load_window c D va n pa off : va mod 8 = 0 → window c D va n pa → 0 ≤ off → off + 8 ≤ n → off mod 8 = 0 →
  load (u64 (va + off)) c = Some (ld64 (c_ram c) (pa + off)).
Proof.
  intros Hv [_ Hw] H1 H2 H3. unfold load. rewrite u64_aligned by done. cbn [Z.eqb].
  specialize (Hw Load off (c_ram c) H1 H2 H3 (λ _ _, eq_refl)). rewrite set_ram_same in Hw. by rewrite Hw.
Qed.

Lemma store_window c D va n pa off v : va mod 8 = 0 → window c D va n pa → 0 ≤ off → off + 8 ≤ n → off mod 8 = 0 →
  store (u64 (va + off)) v c = Some (set_ram (st64 (c_ram c) (pa + off) v) c).
Proof.
  intros Hv [_ Hw] H1 H2 H3. unfold store. rewrite u64_aligned by done. cbn [Z.eqb].
  specialize (Hw Store off (c_ram c) H1 H2 H3 (λ _ _, eq_refl)). rewrite set_ram_same in Hw. by rewrite Hw.
Qed.

(** ** Saving registers *)

Definition saves (base : reg) (l : list (reg * Z)) : list instr := (λ p, Sd p.1 p.2 base) <$> l.
Definition save_all (pa : Z) (x : reg → Z) (l : list (reg * Z)) (m : memory) : memory :=
  foldl (λ m p, st64 m (pa + p.2) (x p.1)) m l.

Lemma save_all_outside pa x l m n a : fits n l → ¬ (pa ≤ a < pa + n) → ld8 (save_all pa x l m) a = ld8 m a.
Proof.
  intros Hf Ha. revert m. induction Hf as [|p l (H1 & H2 & _) Hf IH]; intros m; [done|].
  cbn. unfold save_all in IH. rewrite IH. apply ld8_st64_ne. lia.
Qed.

Lemma save_all_other pa x l m o : o mod 8 = 0 → Forall (λ p, p.2 mod 8 = 0) l → o ∉ l.*2 →
  ld64 (save_all pa x l m) (pa + o) = ld64 m (pa + o).
Proof.
  intros Ho Hf. revert m. induction Hf as [|p l Hp Hf IH]; intros m Hn; [done|].
  cbn in *. apply not_elem_of_cons in Hn as [Hne Hn]. unfold save_all in IH. rewrite IH by done.
  apply ld64_st64_ne. pose proof (Z.div_mod o 8). pose proof (Z.div_mod p.2 8). lia.
Qed.

Lemma save_all_slot pa x l m r o : regs_ok x → Forall (λ p, p.2 mod 8 = 0) l → NoDup l.*2 → (r, o) ∈ l →
  ld64 (save_all pa x l m) (pa + o) = x r.
Proof.
  intros [_ Hx] Hf. revert m. induction Hf as [|p l Hp Hf IH]; intros m Hnd Hin; [by apply not_elem_of_nil in Hin|].
  cbn in Hnd. apply NoDup_cons in Hnd as [Hn Hnd]. cbn. apply elem_of_cons in Hin as [<-|Hin].
  - cbn in *. change (ld64 (save_all pa x l (st64 m (pa + o) (x r))) (pa + o) = x r).
    rewrite save_all_other by done. by apply ld64_st64_eq.
  - by apply IH.
Qed.

Lemma exec_saves keep c D base l va n pa : va mod 8 = 0 → c_x c base = va → window c D va n pa → fits n l →
  exec keep (saves base l) c = Some (set_ram (save_all pa (c_x c) l (c_ram c)) c).
Proof.
  intros Hv Hb Hw Hf. revert c Hb Hw. induction Hf as [|p l (H1 & H2 & H3) Hf IH]; intros c Hb Hw.
  { cbn. by rewrite set_ram_same. }
  cbn [saves fmap list_fmap exec step]. rewrite Hb, (store_window c D va n pa) by done. cbn [mbind option_bind].
  change (list_fmap _ _ (λ p0 : reg * Z, Sd p0.1 p0.2 base) l) with (saves base l).
  rewrite IH; [done|done|]. eapply window_proper; [exact Hw|done|done|].
  intros a Ha. apply ld8_st64_ne. destruct (decide (pa + p.2 ≤ a < pa + p.2 + 8)); [|lia]. destruct Ha. apply (proj1 Hw). lia.
Qed.

(** ** Loading registers *)

Definition loads (base : reg) (l : list (reg * Z)) : list instr := (λ p, Ld p.1 p.2 base) <$> l.
Definition load_all (pa : Z) (l : list (reg * Z)) (c : core) : core :=
  foldl (λ c p, set_x p.1 (ld64 (c_ram c) (pa + p.2)) c) c l.

Lemma set_x_frame r v c : c_ram (set_x r v c) = c_ram c ∧ c_csr (set_x r v c) = c_csr c ∧
  c_priv (set_x r v c) = c_priv c ∧ c_pc (set_x r v c) = c_pc c.
Proof. unfold set_x. by case_decide. Qed.
Lemma set_x_eq r v c : r ≠ zero → c_x (set_x r v c) r = u64 v.
Proof. intros. unfold set_x. rewrite decide_False by done. apply upd_eq. Qed.
Lemma set_x_ne r r' v c : r ≠ r' → c_x (set_x r v c) r' = c_x c r'.
Proof. intros. unfold set_x. case_decide; [done|]. by apply upd_ne. Qed.

Lemma load_all_frame pa l c : c_ram (load_all pa l c) = c_ram c ∧ c_csr (load_all pa l c) = c_csr c ∧
  c_priv (load_all pa l c) = c_priv c ∧ c_pc (load_all pa l c) = c_pc c.
Proof.
  revert c. induction l as [|p l IH]; intros c; [done|].
  change (load_all pa (p :: l) c) with (load_all pa l (set_x p.1 (ld64 (c_ram c) (pa + p.2)) c)).
  destruct (IH (set_x p.1 (ld64 (c_ram c) (pa + p.2)) c)) as (-> & -> & -> & ->). apply set_x_frame.
Qed.

Lemma load_all_other pa l c r : r ∉ l.*1 → c_x (load_all pa l c) r = c_x c r.
Proof.
  revert c. induction l as [|p l IH]; intros c Hr; [done|]. cbn in *. apply not_elem_of_cons in Hr as [Hne Hr].
  unfold load_all in IH. rewrite IH by done. by apply set_x_ne.
Qed.

Lemma load_all_slot pa l c r o : zero ∉ l.*1 → NoDup l.*1 → (r, o) ∈ l → c_x (load_all pa l c) r = ld64 (c_ram c) (pa + o).
Proof.
  revert c. induction l as [|p l IH]; intros c Hz Hnd Hin; [by apply not_elem_of_nil in Hin|].
  cbn in Hz, Hnd. apply not_elem_of_cons in Hz as [Hz0 Hz]. apply NoDup_cons in Hnd as [Hn Hnd].
  cbn. apply elem_of_cons in Hin as [<-|Hin].
  - cbn in *. change (c_x (load_all pa l (set_x r (ld64 (c_ram c) (pa + o)) c)) r = ld64 (c_ram c) (pa + o)).
    rewrite load_all_other, set_x_eq by done. apply u64_small, ld64_range.
  - change (c_x (load_all pa l (set_x p.1 (ld64 (c_ram c) (pa + p.2)) c)) r = ld64 (c_ram c) (pa + o)).
    rewrite IH by done. by destruct (set_x_frame p.1 (ld64 (c_ram c) (pa + p.2)) c) as (-> & _).
Qed.

Lemma exec_loads keep c D base l va n pa : va mod 8 = 0 → c_x c base = va → base ∉ l.*1 → window c D va n pa → fits n l →
  exec keep (loads base l) c = Some (load_all pa l c).
Proof.
  intros Hv Hb Hn Hw Hf. revert c Hb Hw Hn. induction Hf as [|p l (H1 & H2 & H3) Hf IH]; intros c Hb Hw Hn; [done|].
  cbn in Hn. apply not_elem_of_cons in Hn as [Hne Hn].
  cbn [loads fmap list_fmap exec step]. rewrite Hb, (load_window c D va n pa) by done. cbn [mbind option_bind].
  change (list_fmap _ _ (λ p0 : reg * Z, Ld p0.1 p0.2 base) l) with (loads base l).
  destruct (set_x_frame p.1 (ld64 (c_ram c) (pa + p.2)) c) as (F1 & F2 & F3 & F4).
  rewrite IH; [done| | |done]; [by rewrite set_x_ne|]. eapply window_proper; [exact Hw|done|by rewrite F2|by rewrite F1].
Qed.

Lemma exec_loads_spec keep c D base l va n pa : va mod 8 = 0 → c_x c base = va → base ∉ l.*1 → zero ∉ l.*1 → NoDup l.*1 →
  window c D va n pa → fits n l →
  ∃ c', exec keep (loads base l) c = Some c' ∧ (∀ r o, (r, o) ∈ l → c_x c' r = ld64 (c_ram c) (pa + o)) ∧
    (∀ r, r ∉ l.*1 → c_x c' r = c_x c r) ∧ c_ram c' = c_ram c ∧ c_csr c' = c_csr c ∧ c_priv c' = c_priv c ∧ c_pc c' = c_pc c.
Proof.
  intros. exists (load_all pa l c). split; [by eapply exec_loads|]. split_and!; [|intros; by apply load_all_other|apply load_all_frame..].
  intros. by apply load_all_slot.
Qed.

(** * The trampoline *)

(** [struct trapframe]: where the user registers are. *)
Definition tf_slots : list (reg * Z) :=
  [(ra, 40); (sp, 48); (gp, 56); (tp, 64); (t0, 72); (t1, 80); (t2, 88); (s0, 96); (s1, 104); (a0, 112); (a1, 120);
   (a2, 128); (a3, 136); (a4, 144); (a5, 152); (a6, 160); (a7, 168); (s2, 176); (s3, 184); (s4, 192); (s5, 200);
   (s6, 208); (s7, 216); (s8, 224); (s9, 232); (s10, 240); (s11, 248); (t3, 256); (t4, 264); (t5, 272); (t6, 280)].

(** Every register but [zero] has its slot. *)
Lemma tf_slots_all r : r = zero ∨ ∃ o, (r, o) ∈ tf_slots.
Proof.
  assert (r = zero ∨ r ∈ tf_slots.*1) as [E|E].
  { destruct r; apply (bool_decide_unpack _); vm_compute; exact I. }
  - by left. - right. apply list_elem_of_fmap in E as ([r' o] & -> & E). by exists o.
Qed.

Section trampoline.
Context `{KI : KernelImage} `{!KernelImageOk}.

(** The page table at [root] maps the page [tf] at [TRAPFRAME], for the kernel
    only, as [proc_pagetable] sets it up; the page is not part of the table. *)
Definition user_table (m : memory) (root tf : Z) : Prop :=
  ∃ t, pt_rep m t ∧ t !! [] = Some root ∧ pte_of m t TRAPFRAME = leaf_pte tf RW ∧ valid_page tf ∧ ¬ pt_page t tf.

Lemma user_table_frame m m' root tf : user_table m root tf → (∀ a, ¬ (tf ≤ a < tf + PGSIZE) → ld8 m' a = ld8 m a) →
  user_table m' root tf.
Proof.
  intros (t & Hr & Ht & Hp & Hv & Hn) Hm.
  assert (∀ q, pt_page t q → same_page m m' q) as Hs.
  { intros q Hq a Ha. symmetry. apply Hm. intros Ha'. destruct Hq as [y Hy]. apply Hn. exists y. rewrite Hy. f_equal.
    eapply aligned_disjoint; [|apply Hv|exact Ha|exact Ha']. by eapply (pt_valid _ _ Hr). }
  exists t. split_and!; [by eapply pt_rep_frame|done| |done|done]. rewrite <-Hp. symmetry. by apply pte_of_frame.
Qed.

Lemma sv39_link m t x p level va q : pt_rep m t → t !! x = Some p → (length x < 2)%nat → 0 ≤ level →
  t !! (x ++ [PX level va]) = Some q → sv39_step m level va p = Some q.
Proof.
  intros Hr Hx Hl Hlv Hq. unfold sv39_step.
  pose proof (pt_link _ _ Hr x p (PX level va) Hx Hl (PX_range level va Hlv)) as E. rewrite Hq in E. rewrite E.
  pose proof (pt_valid _ _ Hr _ _ Hq) as Hv. rewrite flag_set_PTE_V, PTE2PA_link by done.
  rewrite Z.land_lor_distr_l. assert (Z.land (PA2PTE q) (Z.lor (Z.lor PTE_R PTE_W) PTE_X) = 0) as ->; [|done].
  rewrite PA2PTE_eq by (by apply valid_page_pa). change (Z.lor (Z.lor PTE_R PTE_W) PTE_X) with 14.
  apply Z.bits_inj'. intros n Hn. rewrite Z.land_spec, Z.bits_0. change 1024 with (2 ^ 10).
  destruct (Z.lt_ge_cases n 10); [by rewrite Z.mul_pow2_bits_low by lia|].
  rewrite (Z.bits_above_log2 14 n); [apply andb_false_r|lia|]. change (Z.log2 14) with 3. lia.
Qed.

(** The walk of the hardware agrees with the abstraction of {!VmTree}. *)
Lemma sv39_pte_of m t root va : pt_rep m t → t !! [] = Some root → is_Some (pt_slot t va) →
  sv39 m root va = Some (pte_of m t va).
Proof.
  intros Hr Hroot [a Ha]. destruct (pt_slot_in_page _ _ _ Ha) as (p0 & Hp0 & -> & _). unfold sv39, pte_of. rewrite Ha.
  destruct (pt_closed _ _ Hr [PX 2 va] (PX 1 va)) as [p1 Hp1]; [by eexists|].
  rewrite (sv39_link m t [] root 2 va p1 Hr Hroot) by (done || (cbn; lia)). cbn [mbind option_bind].
  rewrite (sv39_link m t [PX 2 va] p1 1 va p0 Hr Hp1) by (done || (cbn; lia)). done.
Qed.

Lemma MAKE_SATP_fields root : 0 ≤ root < 2 ^ 56 → root mod PGSIZE = 0 →
  Z.shiftr (MAKE_SATP root) 60 = 8 ∧ Z.land (MAKE_SATP root) (Z.ones 44) * PGSIZE = root ∧ 0 ≤ MAKE_SATP root < 2 ^ 64.
Proof.
  intros Hr Ha. unfold MAKE_SATP. rewrite (Z.shiftr_div_pow2 root) by lia. change (2 ^ 12) with PGSIZE.
  assert (0 ≤ root / PGSIZE < 2 ^ 44) as Hq.
  { split; [apply Z.div_pos; unfold PGSIZE; lia|apply Z.div_lt_upper_bound; unfold PGSIZE; lia]. }
  assert (Z.land SATP_SV39 (root / PGSIZE) = 0) as Hl.
  { change SATP_SV39 with (8 * 2 ^ 60). apply Z.bits_inj'. intros n Hn. rewrite Z.land_spec, Z.bits_0.
    destruct (Z.lt_ge_cases n 60); [by rewrite Z.mul_pow2_bits_low by lia|].
    destruct (Z.eq_dec (root / PGSIZE) 0) as [->|]; [rewrite Z.bits_0; apply andb_false_r|].
    rewrite (Z.bits_above_log2 (root / PGSIZE) n); [apply andb_false_r|lia|].
    apply Z.lt_le_trans with 44; [apply Z.log2_lt_pow2; lia|lia]. }
  rewrite <-Z.lxor_lor, <-Z.add_nocarry_lxor by exact Hl. change SATP_SV39 with (8 * 2 ^ 60).
  rewrite Z.shiftr_div_pow2, Z.land_ones by lia. split_and!.
  - rewrite Z.div_add_l, Z.div_small by lia. done.
  - change (8 * 2 ^ 60) with (8 * 2 ^ 16 * 2 ^ 44). rewrite Z.add_comm, Z.mod_add, Z.mod_small by lia.
    pose proof (Z.div_mod root PGSIZE). unfold PGSIZE in *. lia.
  - lia.
  - lia.
Qed.

(** The memory that is not part of a page table. *)
Definition not_table (t : ptree) (a : Z) : Prop := ∀ q, pt_page t q → ¬ in_page q a.

(** A range that a page table maps, page by page, for the kernel. *)
Lemma table_window c root t va n pa :
  c_priv c = PRV_S → c_csr c satp = MAKE_SATP root → pt_rep (c_ram c) t → t !! [] = Some root → 0 ≤ va → va + n ≤ MAXVA →
  (∀ a, pa ≤ a < pa + n → not_table t a) →
  (∀ off, 0 ≤ off < n → let page := pa + off - (va + off) mod PGSIZE in
    pte_of (c_ram c) t (va + off) = leaf_pte page RW ∧ page mod PGSIZE = 0 ∧ 0 ≤ page < 2 ^ 56) →
  window c (not_table t) va n pa.
Proof.
  intros Hp Hs Hr0 Ht H0 Hmax Hd Hpte. split; [exact Hd|]. intros acc off m H1 H2 H3 Hm.
  assert (∀ q, pt_page t q → same_page (c_ram c) m q) as Hsame.
  { intros q Hq a Ha. symmetry. apply Hm. intros Hn. exact (Hn q Hq Ha). }
  assert (pt_rep m t) as Hr by (by eapply pt_rep_frame).
  destruct (Hpte off ltac:(lia)) as (He & Hal & Hpa). rewrite (pte_of_frame _ m) in He by done.
  rewrite MAXVA_val in Hmax. rewrite u64_small by lia.
  destruct (MAKE_SATP_fields root) as (F1 & F2 & _).
  { apply valid_page_pa. by eapply (pt_valid _ _ Hr). } { by eapply (pt_valid _ _ Hr). }
  unfold translate. cbn [set_ram c_priv c_csr c_ram]. rewrite Hp, Hs, F1, F2. cbn [Z.eqb orb negb PRV_S PRV_M Pos.eqb].
  assert (canonical (va + off) = true) as ->.
  { unfold canonical. rewrite Z.shiftr_div_pow2, Z.div_small by lia. done. }
  set (page := pa + off - (va + off) mod PGSIZE) in *.
  assert (flag_set (leaf_pte page RW) PTE_V = true) as HV.
  { change PTE_V with (2 ^ 0). rewrite flag_set_spec by lia. unfold leaf_pte. by rewrite !Z.lor_spec, orb_true_r. }
  assert (PTE2PA (leaf_pte page RW) = page) as Hpg by (rewrite leaf_pte_flags; apply PTE2PA_lor; [done|done|by vm_compute]).
  rewrite (sv39_pte_of m t root) by (done || (destruct (pt_slot t (va + off)) eqn:E; [done|];
    unfold pte_of in He; rewrite E in He; rewrite <-He in HV; by rewrite flag_set_0 in HV)).
  rewrite He. cbn [mbind option_bind negb orb]. unfold permits. rewrite HV, Hpg.
  change PTE_U with (2 ^ 4). rewrite (leaf_perm_bit page RW 4) by lia.
  assert (flag_set (leaf_pte page RW) (match acc with Load => PTE_R | Store => PTE_W end) = true) as ->.
  { destruct acc; [change PTE_R with (2 ^ 1)|change PTE_W with (2 ^ 2)]; by rewrite leaf_perm_bit by lia. }
  cbn. f_equal. unfold page. lia.
Qed.

Lemma user_window c root tf : c_priv c = PRV_S → c_csr c satp = MAKE_SATP root → user_table (c_ram c) root tf →
  ∃ D, window c D TRAPFRAME PGSIZE tf.
Proof.
  intros Hp Hs (t & Hr & Ht & He & Hv & Hn). exists (not_table t).
  apply (table_window c root); [done..| |].
  - intros a Ha q Hq Hin. apply Hn. assert (tf = q) as ->; [|done]. destruct Hq as [x Hx].
    eapply aligned_disjoint; [apply Hv| |exact Ha|exact Hin]. by eapply (pt_valid _ _ Hr).
  - intros off Ho page. assert ((TRAPFRAME + off) / PGSIZE = TRAPFRAME / PGSIZE ∧ (TRAPFRAME + off) mod PGSIZE = off) as [Hpg Hmod].
    { change TRAPFRAME with (67108862 * 4096). unfold PGSIZE in *. split.
      - rewrite Z.div_add_l, Z.div_mul, Z.div_small by lia. lia.
      - rewrite Z.add_comm, Z.mod_add, Z.mod_small by lia. done. }
    assert (page = tf) as -> by lia. split_and!; [|apply Hv|by apply valid_page_pa..].
    rewrite <-He. unfold pte_of, pt_slot. by rewrite !(PX_page _ (TRAPFRAME + off) TRAPFRAME) by (done || lia).
Qed.

(** What the kernel relies on of the registers it writes whole. *)
Record keeps (keep : csr → Z → Z) : Prop := {
  keep_sscratch : ∀ v, 0 ≤ v < 2 ^ 64 → keep sscratch v = v;
  keep_satp : ∀ root, 0 ≤ root < 2 ^ 56 → root mod PGSIZE = 0 → keep satp (MAKE_SATP root) = MAKE_SATP root;
}.

Definition saved_slots : list (reg * Z) := filter (λ p, p.1 ≠ a0) tf_slots.
Definition kernel_slots : list (reg * Z) := [(sp, TF_kernel_sp); (tp, TF_kernel_hartid); (t0, TF_kernel_trap); (t1, TF_kernel_satp)].

Lemma uservec_eq ret : uservec ret =
  [Csrw sscratch a0; Li a0 TRAPFRAME] ++ saves a0 saved_slots ++ [Csrr t0 sscratch] ++ saves a0 [(t0, 112)] ++
  loads a0 kernel_slots ++ [Sfence_vma; Csrw satp t1; Sfence_vma; Jalr t0 ret].
Proof. reflexivity. Qed.

(** What [uservec] leaves in the trap frame at [tf] and in the registers. *)
Record entered (c : core) (ret tf : Z) (satp' : Z) (c' : core) : Prop := {
  en_saved : ∀ r o, (r, o) ∈ tf_slots → ld64 (c_ram c') (tf + o) = c_x c r;
  en_kept : ∀ o, o ∈ [TF_kernel_satp; TF_kernel_sp; TF_kernel_trap; TF_epc; TF_kernel_hartid] →
    ld64 (c_ram c') (tf + o) = ld64 (c_ram c) (tf + o);
  en_ram : ∀ a, ¬ (tf ≤ a < tf + PGSIZE) → ld8 (c_ram c') a = ld8 (c_ram c) a;
  en_sp : c_x c' sp = ld64 (c_ram c) (tf + TF_kernel_sp);
  en_tp : c_x c' tp = ld64 (c_ram c) (tf + TF_kernel_hartid);
  en_ra : c_x c' ra = u64 ret;
  en_pc : c_pc c' = ld64 (c_ram c) (tf + TF_kernel_trap);
  en_priv : c_priv c' = c_priv c;
  en_satp : c_csr c' satp = satp';
  en_csr : ∀ k, k ≠ satp → k ≠ sscratch → c_csr c' k = c_csr c k;
}.

Lemma slots_fit : fits PGSIZE saved_slots ∧ fits PGSIZE [(t0, 112)] ∧ fits PGSIZE kernel_slots.
Proof. split_and!; unfold fits; repeat (apply Forall_cons_2; [by vm_compute|]); apply Forall_nil_2. Qed.

Lemma save_all_ext pa x x' l m : Forall (λ p, x p.1 = x' p.1) l → save_all pa x l m = save_all pa x' l m.
Proof.
  intros Hf. revert m. induction Hf as [|p l E Hf IH]; intros m; [done|]. unfold save_all in *. cbn. by rewrite E.
Qed.

(** Facts about the two lists, by evaluation. *)
Lemma slots_shape : Forall (λ p : reg * Z, p.1 = a0 → p.2 = 112) tf_slots ∧ 112 ∉ saved_slots.*2 ∧ NoDup saved_slots.*2 ∧
  Forall (λ o, o ∉ saved_slots.*2 ∧ o ≠ 112 ∧ o mod 8 = 0) [TF_kernel_satp; TF_kernel_sp; TF_kernel_trap; TF_epc; TF_kernel_hartid].
Proof. split_and!; apply (bool_decide_unpack _); vm_compute; exact I. Qed.

(** The memory [uservec] leaves. *)
Lemma saved_memory x x' x'' m tf : regs_ok x → (∀ r, r ≠ a0 → x' r = x r) → x'' t0 = x a0 →
  let m' := save_all tf x'' [(t0, 112)] (save_all tf x' saved_slots m) in
  (∀ r o, (r, o) ∈ tf_slots → ld64 m' (tf + o) = x r) ∧
  (∀ o, o ∈ [TF_kernel_satp; TF_kernel_sp; TF_kernel_trap; TF_epc; TF_kernel_hartid] → ld64 m' (tf + o) = ld64 m (tf + o)) ∧
  ∀ a, ¬ (tf ≤ a < tf + PGSIZE) → ld8 m' a = ld8 m a.
Proof.
  intros Hx Hx' Ht m'. destruct slots_fit as (F1 & F2 & _). destruct slots_shape as (S1 & S2 & S3 & S4).
  assert (Forall (λ p : reg * Z, p.2 mod 8 = 0) saved_slots) as A1 by (eapply Forall_impl; [exact F1|by intros ? (_ & _ & ?)]).
  assert (save_all tf x' saved_slots m = save_all tf x saved_slots m) as E.
  { apply save_all_ext, Forall_forall. intros p [Hp _]%list_elem_of_filter. by apply Hx'. }
  assert (m' = st64 (save_all tf x saved_slots m) (tf + 112) (x a0)) as -> by (unfold m'; by rewrite E, <-Ht).
  assert (∀ o, o mod 8 = 0 → o ≠ 112 → ∀ m, ld64 (st64 m (tf + 112) (x a0)) (tf + o) = ld64 m (tf + o)) as Hne.
  { intros o Ho Hn m0. apply ld64_st64_ne. pose proof (Z.div_mod o 8). lia. }
  split_and!.
  - intros r o Hin. destruct (decide (r = a0)) as [->|Hr].
    + pose proof (proj1 (Forall_forall _ _) S1 _ Hin eq_refl) as Eo. cbn in Eo. subst o. apply ld64_st64_eq, Hx.
    + assert ((r, o) ∈ saved_slots) as Hs by (by apply list_elem_of_filter).
      rewrite Hne; [by apply save_all_slot|exact (proj1 (Forall_forall _ _) A1 _ Hs)|].
      intros ->. apply S2. apply list_elem_of_fmap. by exists (r, 112).
  - intros o Ho. destruct (proj1 (Forall_forall _ _) S4 o Ho) as (N1 & N2 & N3). rewrite Hne by done. by apply save_all_other.
  - intros a Ha. rewrite ld8_st64_ne by (unfold PGSIZE in *; lia). by apply (save_all_outside _ _ _ _ PGSIZE).
Qed.

Lemma exec_kernel_jump keep ret c : c_priv c = PRV_S → exec keep [Sfence_vma; Csrw satp t1; Sfence_vma; Jalr t0 ret] c =
  Some (set_x ra ret (set_pc (c_x c t0) (set_csr satp (keep satp (c_x c t1)) c))).
Proof. destruct c. cbn. by intros ->. Qed.

Lemma uservec_run keep ret c root tf : keeps keep → regs_ok (c_x c) → c_priv c = PRV_S → c_csr c satp = MAKE_SATP root →
  user_table (c_ram c) root tf →
  ∃ c', exec keep (uservec ret) c = Some c' ∧ entered c ret tf (keep satp (ld64 (c_ram c) (tf + TF_kernel_satp))) c'.
Proof.
  intros Hk Hx Hp Hs Hu. pose proof Hx as [_ Hx64]. destruct slots_fit as (F1 & F2 & F3).
  destruct (user_window c root tf Hp Hs Hu) as [D Hw].
  assert (TRAPFRAME mod 8 = 0) as Ha by done.
  rewrite uservec_eq. cbn [app exec step]. rewrite Hp. cbn [csr_level Z.leb PRV_S Z.compare Pos.compare Pos.compare_cont mbind option_bind].
  cbn [csr_write]. rewrite (keep_sscratch _ Hk) by done.
  set (c1 := set_x a0 TRAPFRAME (set_csr sscratch (c_x c a0) c)).
  rewrite exec_app, (exec_saves keep c1 D a0 saved_slots TRAPFRAME PGSIZE tf); [|done|reflexivity| |done].
  2: { eapply window_proper; [exact Hw|done..]. }
  cbn [mbind option_bind app exec step]. change (c_priv (set_ram _ c1)) with (c_priv c). rewrite Hp. cbn [csr_level Z.leb PRV_S Z.compare Pos.compare Pos.compare_cont mbind option_bind].
  change (csr_read sscratch (set_ram _ c1)) with (c_x c a0).
  set (c2 := set_x t0 (c_x c a0) _).
  destruct (saved_memory (c_x c) (c_x c1) (c_x c2) (c_ram c) tf Hx) as (M1 & M2 & M3).
  { intros r Hr. unfold c1. by rewrite set_x_ne. } { change (u64 (c_x c a0) = c_x c a0). by apply u64_small. }
  assert (window c2 D TRAPFRAME PGSIZE tf) as Hw2.
  { eapply window_proper; [exact Hw|done|done|]. intros a Hn. change (ld8 (save_all tf (c_x c1) saved_slots (c_ram c)) a = ld8 (c_ram c) a).
    apply (save_all_outside _ _ _ _ PGSIZE); [done|]. intros Hi. by apply Hn, Hw. }
  rewrite exec_app, (exec_saves keep c2 D a0 [(t0, 112)] TRAPFRAME PGSIZE tf); [|done|reflexivity|exact Hw2|done].
  cbn [mbind option_bind]. set (m' := save_all tf (c_x c2) [(t0, 112)] (c_ram c2)).
  change (save_all tf (c_x c2) [(t0, 112)] (save_all tf (c_x c1) saved_slots (c_ram c))) with m' in M1, M2, M3.
  rewrite exec_app, (exec_loads keep (set_ram m' c2) D a0 kernel_slots TRAPFRAME PGSIZE tf); [|done|reflexivity|by apply (bool_decide_unpack _); vm_compute| |done].
  2: { eapply window_proper; [exact Hw|done|done|]. intros a Hn. apply M3. intros Hi. by apply Hn, Hw. }
  cbn [mbind option_bind]. set (c4 := load_all tf kernel_slots (set_ram m' c2)).
  destruct (load_all_frame tf kernel_slots (set_ram m' c2)) as (G1 & G2 & G3 & G4). fold c4 in G1, G2, G3, G4.
  assert (∀ r o, (r, o) ∈ kernel_slots → c_x c4 r = ld64 m' (tf + o)) as Hl.
  { intros r o Hin. apply (load_all_slot tf kernel_slots (set_ram m' c2)); [by apply (bool_decide_unpack _); vm_compute..|done]. }
  rewrite (exec_kernel_jump keep ret c4) by exact (eq_trans G3 Hp).
  assert (∀ r o, (r, o) ∈ kernel_slots → c_x c4 r = ld64 (c_ram c) (tf + o)) as Hl'.
  { intros r o Hin. rewrite (Hl r o Hin). apply M2. revert Hin. unfold kernel_slots. rewrite !elem_of_cons. intros Hin.
    destruct Hin as [[= -> ->]|[[= -> ->]|[[= -> ->]|[[= -> ->]|[]%not_elem_of_nil]]]]; by apply (bool_decide_unpack _); vm_compute. }
  eexists. split; [reflexivity|].
  assert (∀ x y z w : reg * Z, x ∈ [x; y; z; w] ∧ y ∈ [x; y; z; w] ∧ z ∈ [x; y; z; w] ∧ w ∈ [x; y; z; w]) as Hin.
  { intros. rewrite !elem_of_cons. tauto. }
  destruct (Hin (sp, TF_kernel_sp) (tp, TF_kernel_hartid) (t0, TF_kernel_trap) (t1, TF_kernel_satp)) as (I1 & I2 & I3 & I4).
  split.
  - intros r o Hi. change (ld64 (c_ram c4) (tf + o) = c_x c r). rewrite G1. by apply M1.
  - intros o Ho. change (ld64 (c_ram c4) (tf + o) = ld64 (c_ram c) (tf + o)). rewrite G1. by apply M2.
  - intros a Hn. change (ld8 (c_ram c4) a = ld8 (c_ram c) a). rewrite G1. by apply M3.
  - exact (Hl' _ _ I1).
  - exact (Hl' _ _ I2).
  - reflexivity.
  - change (u64 (c_x c4 t0) = ld64 (c_ram c) (tf + TF_kernel_trap)). rewrite (Hl' _ _ I3). apply u64_small, ld64_range.
  - exact G3.
  - change (keep satp (c_x c4 t1) = keep satp (ld64 (c_ram c) (tf + TF_kernel_satp))). by rewrite (Hl' _ _ I4).
  - intros k H1 H2. change (upd (c_csr c4) satp (keep satp (c_x c4 t1)) k = c_csr c k). rewrite upd_ne, G2 by done.
    change (upd (c_csr c) sscratch (c_x c a0) k = c_csr c k). by rewrite upd_ne.
Qed.

(** [userret], with the page table for the process in [a0]. *)
Lemma userret_eq : userret =
  [Sfence_vma; Csrw satp a0; Sfence_vma; Li a0 TRAPFRAME] ++ loads a0 saved_slots ++ [Ld a0 112 a0; Sret].
Proof. reflexivity. Qed.

Lemma exec_user_table keep c root : keeps keep → c_priv c = PRV_S → c_x c a0 = MAKE_SATP root → 0 ≤ root < 2 ^ 56 → root mod PGSIZE = 0 →
  exec keep [Sfence_vma; Csrw satp a0; Sfence_vma; Li a0 TRAPFRAME] c = Some (set_x a0 TRAPFRAME (set_csr satp (MAKE_SATP root) c)).
Proof. intros Hk. destruct c. cbn. intros -> Ha H1 H2. cbn. by rewrite Ha, (keep_satp _ Hk). Qed.

Lemma userret_run keep c root tf : keeps keep → c_priv c = PRV_S → c_x c a0 = MAKE_SATP root → c_x c zero = 0 →
  user_table (c_ram c) root tf → Z.testbit (c_csr c mstatus) SPP_BIT = false →
  ∃ c', exec keep userret c = Some c' ∧ c_ram c' = c_ram c ∧ c_x c' zero = 0 ∧
    (∀ r o, (r, o) ∈ tf_slots → c_x c' r = ld64 (c_ram c) (tf + o)) ∧
    c_priv c' = PRV_U ∧ c_pc c' = u64 (c_csr c sepc) ∧ c_csr c' satp = MAKE_SATP root ∧
    Z.testbit (c_csr c' mstatus) SIE_BIT = Z.testbit (c_csr c mstatus) SPIE_BIT.
Proof.
  intros Hk Hp Ha Hz Hu Hspp. destruct slots_fit as (F1 & _ & _). destruct slots_shape as (S1 & _).
  assert (0 ≤ root < 2 ^ 56 ∧ root mod PGSIZE = 0) as [R1 R2].
  { destruct Hu as (t & Hr & Ht & _). pose proof (pt_valid _ _ Hr _ _ Ht) as Hv. split; [by apply valid_page_pa|apply Hv]. }
  rewrite userret_eq, exec_app, (exec_user_table keep c root) by done. cbn [mbind option_bind].
  set (c1 := set_x a0 TRAPFRAME _).
  destruct (user_window c1 root tf) as [D Hw]; [done..|].
  destruct (exec_loads_spec keep c1 D a0 saved_slots TRAPFRAME PGSIZE tf) as (c2 & El & Hl & Ho & G1 & G2 & G3 & _);
    [done|reflexivity|by apply (bool_decide_unpack _); vm_compute..|done|done|].
  rewrite (exec_then _ _ _ _ _ El).
  assert (c_x c2 a0 = TRAPFRAME) as Ha2 by (rewrite Ho by (by apply (bool_decide_unpack _); vm_compute); done).
  cbn [exec step]. rewrite Ha2, (load_window c2 D TRAPFRAME PGSIZE tf) by
    (done || (eapply window_proper; [exact Hw|done|by rewrite G2|by rewrite G1])).
  cbn [mbind option_bind]. set (c3 := set_x a0 _ c2).
  destruct (set_x_frame a0 (ld64 (c_ram c2) (tf + 112)) c2) as (K1 & K2 & K3 & K4). fold c3 in K1, K2, K3, K4.
  assert (c_priv c3 = PRV_S) as -> by (by rewrite K3, G3). change (PRV_S <=? PRV_S) with true. cbv iota. cbn [mbind option_bind exec].
  assert (∀ k, k ≠ satp → c_csr c3 k = c_csr c k) as Hcsr.
  { intros k Hn. rewrite K2, G2. change (upd (c_csr c) satp (MAKE_SATP root) k = c_csr c k). by rewrite upd_ne. }
  exists (sret_insn c3). split; [done|]. split_and!.
  - change (c_ram c3 = c_ram c). by rewrite K1, G1.
  - change (c_x c3 zero = 0). unfold c3. rewrite set_x_ne, Ho by (done || by apply (bool_decide_unpack _); vm_compute).
    unfold c1. by rewrite set_x_ne.
  - intros r o Hin. change (c_x c3 r = ld64 (c_ram c) (tf + o)). destruct (decide (r = a0)) as [->|Hr].
    + pose proof (proj1 (Forall_forall _ _) S1 _ Hin eq_refl) as Eo. cbn in Eo. subst o.
      unfold c3. rewrite set_x_eq, G1 by done. apply u64_small, ld64_range.
    + unfold c3. rewrite set_x_ne by done. apply (Hl r o). by apply list_elem_of_filter.
  - unfold sret_insn. cbn [set_pc set_priv c_priv]. by rewrite Hcsr, Hspp by done.
  - unfold sret_insn. cbn [set_pc c_pc]. by rewrite Hcsr.
  - transitivity (c_csr c3 satp); [by apply (upd_ne (c_csr c3) mstatus satp)|]. rewrite K2, G2. apply (upd_eq (c_csr c) satp).
  - change (Z.testbit (upd (c_csr c3) mstatus (set_bit SPP_BIT false (set_bit SPIE_BIT true
      (set_bit SIE_BIT (Z.testbit (c_csr c3 mstatus) SPIE_BIT) (c_csr c3 mstatus)))) mstatus) SIE_BIT = Z.testbit (c_csr c mstatus) SPIE_BIT).
    rewrite upd_eq, set_bit_ne, set_bit_ne, set_bit_eq, Hcsr by done. done.
Qed.

(** C7: A trap does not cost a user program any of its registers.  On a trap
    from user mode [uservec], running in supervisor mode on the page table of
    the process, stores every user register in its slot of the trap frame and
    nothing outside that page, keeps the fields the kernel left there, and enters
    the address in [kernel_trap] on the kernel stack, page table and hart number
    of the frame, with interrupts off.  When the kernel comes back to [userret]
    with the user page table in [a0] and has changed none of the saved registers
    but [a0], which then holds the result [v] of a system call, the program
    continues at [sepc] in user mode on its page table with [v] in [a0] and all
    its other registers unchanged. *)
Theorem trap_restores_registers keep ret cause tval u root tf v :
  keeps keep → regs_ok (c_x u) → c_priv u = PRV_U → c_csr u satp = MAKE_SATP root → user_table (c_ram u) root tf →
  ∃ c1, exec keep (uservec ret) (trap cause tval u) = Some c1 ∧
    entered (trap cause tval u) ret tf (keep satp (ld64 (c_ram u) (tf + TF_kernel_satp))) c1 ∧
    c_csr c1 sepc = c_pc u ∧ Z.testbit (c_csr c1 mstatus) SPP_BIT = false ∧ Z.testbit (c_csr c1 mstatus) SIE_BIT = false ∧
    ∀ c2, c_priv c2 = PRV_S → c_x c2 a0 = MAKE_SATP root → c_x c2 zero = 0 → user_table (c_ram c2) root tf →
      Z.testbit (c_csr c2 mstatus) SPP_BIT = false →
      (∀ r o, (r, o) ∈ tf_slots → ld64 (c_ram c2) (tf + o) = if decide (r = a0) then v else ld64 (c_ram c1) (tf + o)) →
      ∃ c3, exec keep userret c2 = Some c3 ∧ (∀ r, c_x c3 r = if decide (r = a0) then v else c_x u r) ∧
        c_priv c3 = PRV_U ∧ c_pc c3 = u64 (c_csr c2 sepc) ∧ c_csr c3 satp = MAKE_SATP root ∧ c_ram c3 = c_ram c2.
Proof.
  intros Hk Hx Hp Hs Hu. destruct (uservec_run keep ret (trap cause tval u) root tf) as (c1 & E1 & En); [done..|].
  exists c1. split_and!; [exact E1|exact En| | | |].
  - by rewrite (en_csr _ _ _ _ _ En).
  - rewrite (en_csr _ _ _ _ _ En) by done.
    by rewrite trap_mstatus, set_bit_ne, set_bit_eq, Hp.
  - rewrite (en_csr _ _ _ _ _ En) by done.
    by rewrite trap_mstatus, set_bit_eq.
  - intros c2 Hp2 Ha2 Hz2 Hu2 Hspp Hsl. destruct (userret_run keep c2 root tf) as (c3 & E3 & R3 & Z3 & X3 & P3 & C3 & S3 & _); [done..|].
    exists c3. split_and!; [done| |done..]. intros r. destruct (tf_slots_all r) as [->|[o Ho]].
    + rewrite Z3. symmetry. apply Hx.
    + rewrite (X3 r o Ho), (Hsl r o Ho). case_decide; [done|]. by rewrite (en_saved _ _ _ _ _ En r o Ho).
Qed.
End trampoline.

(** * The kernel's own address space *)

Section kernel.
Context `{KI : KernelImage} `{!KernelImageOk}.

(** The hart runs in supervisor mode on a page table as [kvmmake] builds it. *)
Record kernel_space (c : core) (root : Z) (t : ptree) (ps : list Z) : Prop := {
  ks_priv : c_priv c = PRV_S;
  ks_satp : c_csr c satp = MAKE_SATP root;
  ks_rep : pt_rep (c_ram c) t;
  ks_root : t !! [] = Some root;
  ks_map : ∀ va, 0 ≤ va < MAXVA → pte_of (c_ram c) t va = kernel_map ps va;
  ks_stack : ∀ q, q ∈ ps → valid_page q ∧ ¬ pt_page t q;
}.

Lemma kernel_map_data ps va : kernel_etext ≤ va < PHYSTOP → kernel_map ps va = leaf_pte (va / PGSIZE * PGSIZE) RW.
Proof.
  intros Hv. unfold kernel_map, direct_perm. case_bool_decide; [done|]. rewrite bool_decide_eq_false_2 by lia.
  by rewrite bool_decide_eq_true_2.
Qed.

(** The data of the kernel is mapped to itself. *)
Lemma data_window c root t ps a n : kernel_space c root t ps → kernel_etext ≤ a → a + n ≤ kernel_end →
  window c (not_table t) a n a.
Proof.
  intros [Hp Hs Hr Ht Hm _] H1 H2. pose proof kernel_etext_range as He. pose proof kernel_end_range as Hn.
  rewrite PHYSTOP_val in *. unfold KERNBASE in *.
  apply (table_window c root); [done..|lia|rewrite MAXVA_val; lia| |].
  - intros b Hb q [x Hq] Hin. pose proof (pt_valid _ _ Hr _ _ Hq) as [_ Hv]. unfold in_page in Hin. lia.
  - intros off Ho page. rewrite Hm by (rewrite MAXVA_val; lia). rewrite kernel_map_data by (rewrite PHYSTOP_val; lia).
    assert (page = (a + off) / PGSIZE * PGSIZE) as ->.
    { unfold page. pose proof (Z.div_mod (a + off) PGSIZE). unfold PGSIZE in *. lia. }
    split_and!; [done|by apply Z.mod_mul| |]; pose proof (Z.mod_pos_bound (a + off) PGSIZE); pose proof (Z.div_mod (a + off) PGSIZE); unfold PGSIZE in *; lia.
Qed.

(** The stack of process [i]. *)
Lemma stack_window c root t ps i pa va n : kernel_space c root t ps → Z.of_nat (length ps) = NPROC → ps !! i = Some pa →
  KSTACK (Z.of_nat i) ≤ va → va + n ≤ KSTACK (Z.of_nat i) + PGSIZE →
  window c (not_table t) va n (pa + (va - KSTACK (Z.of_nat i))).
Proof.
  intros [Hp Hs Hr Ht Hm Hst] Hlen Hi H1 H2. set (k := Z.of_nat i) in *.
  assert (0 ≤ k < NPROC) as Hk by (apply lookup_lt_Some in Hi; lia).
  destruct (KSTACK_range k Hk) as (R0 & R1 & R2 & R3). destruct (Hst pa) as [Hv Hn]; [by eapply list_elem_of_lookup_2|].
  assert (KSTACK k mod PGSIZE = 0) as Hal by done.
  apply (table_window c root); [done..| | | |].
  - rewrite PHYSTOP_val in *. lia.
  - unfold TRAMPOLINE, PGSIZE in *. lia.
  - intros b Hb q [x Hq] Hin. apply Hn. exists x. rewrite Hq. f_equal. symmetry.
    eapply aligned_disjoint; [apply Hv|by eapply (pt_valid _ _ Hr)| |exact Hin]. unfold in_page. lia.
  - intros off Ho page.
    assert ((va + off) / PGSIZE = KSTACK k / PGSIZE) as Hpg.
    { unfold PGSIZE in *. Z.to_euclidean_division_equations. lia. }
    assert (page = pa) as ->.
    { unfold page. pose proof (Z.div_mod (va + off) PGSIZE). pose proof (Z.div_mod (KSTACK k) PGSIZE). unfold PGSIZE in *. lia. }
    split_and!; [|apply Hv|by apply valid_page_pa..]. rewrite Hm by (unfold TRAMPOLINE, PGSIZE in *; rewrite PHYSTOP_val in *; lia).
    unfold kernel_map. rewrite direct_high by lia. destruct (Z.leb_spec TRAMPOLINE (va + off)); [unfold PGSIZE in *; lia|].
    unfold stack_at. rewrite Hpg, KSTACK_page. replace (TRAMPOLINE / PGSIZE - _) with ((k + 1) * 2) by lia.
    rewrite Z.mod_mul, Z.div_mul by lia. replace (0 <? (k + 1) * 2) with true by lia. cbn [andb Z.eqb].
    replace (Z.to_nat (k + 1 - 1)) with i by lia. by rewrite Hi.
Qed.

(** * swtch *)

(** [struct context]. *)
Definition context_slots : list (reg * Z) :=
  [(ra, 0); (sp, 8); (s0, 16); (s1, 24); (s2, 32); (s3, 40); (s4, 48); (s5, 56); (s6, 64); (s7, 72); (s8, 80); (s9, 88);
   (s10, 96); (s11, 104)].
Definition CONTEXT_SIZE : Z := 112.

Lemma swtch_eq : swtch = saves a0 context_slots ++ loads a1 context_slots ++ [Ret].
Proof. reflexivity. Qed.

Lemma context_shape : fits CONTEXT_SIZE context_slots ∧ Forall (λ p : reg * Z, p.2 mod 8 = 0) context_slots ∧ NoDup context_slots.*1 ∧
  NoDup context_slots.*2 ∧ zero ∉ context_slots.*1 ∧ a1 ∉ context_slots.*1 ∧ (ra, 0) ∈ context_slots.
Proof.
  split_and!; [unfold fits; repeat (apply Forall_cons_2; [by vm_compute|]); apply Forall_nil_2|..];
    apply (bool_decide_unpack _); vm_compute; exact I.
Qed.

(** What one call does, for contexts at [old] and [new]. *)
Lemma swtch_run keep c D old new : regs_ok (c_x c) → c_x c a0 = old → c_x c a1 = new → old mod 8 = 0 → new mod 8 = 0 →
  window c D old CONTEXT_SIZE old → window c D new CONTEXT_SIZE new → old + CONTEXT_SIZE ≤ new ∨ new + CONTEXT_SIZE ≤ old →
  ∃ c', exec keep swtch c = Some c' ∧
    (∀ r o, (r, o) ∈ context_slots → ld64 (c_ram c') (old + o) = c_x c r ∧ c_x c' r = ld64 (c_ram c) (new + o)) ∧
    c_pc c' = ld64 (c_ram c) new ∧ (∀ r, r ∉ context_slots.*1 → c_x c' r = c_x c r) ∧
    (∀ a, ¬ (old ≤ a < old + CONTEXT_SIZE) → ld8 (c_ram c') a = ld8 (c_ram c) a) ∧ c_csr c' = c_csr c ∧ c_priv c' = c_priv c.
Proof.
  intros Hx Ha0 Ha1 Ho Hn Wo Wn Hd. destruct context_shape as (F & A & N1 & N2 & Nz & Na & Ira).
  rewrite swtch_eq, (exec_then _ _ _ _ _ (exec_saves keep c D a0 context_slots old CONTEXT_SIZE old Ho Ha0 Wo F)).
  set (m := save_all old (c_x c) context_slots (c_ram c)).
  assert (∀ a, ¬ (old ≤ a < old + CONTEXT_SIZE) → ld8 m a = ld8 (c_ram c) a) as Hm.
  { intros a Hout. by apply (save_all_outside _ _ _ _ CONTEXT_SIZE). }
  assert (∀ r o, (r, o) ∈ context_slots → ld64 m (old + o) = c_x c r) as Hs by (intros r o Hin; by apply save_all_slot).
  clearbody m.
  assert (window (set_ram m c) D new CONTEXT_SIZE new) as Wn'.
  { eapply window_proper; [exact Wn|done..|]. intros a Hout. apply Hm. intros Hi. by apply Hout, Wo. }
  destruct (exec_loads_spec keep (set_ram m c) D a1 context_slots new CONTEXT_SIZE new Hn Ha1 Na Nz N1 Wn' F)
    as (c2 & El & Hl0 & Ho2 & G1 & G2 & G3 & _).
  rewrite (exec_then _ _ _ _ _ El), exec_ret.
  assert (∀ r o, (r, o) ∈ context_slots → c_x c2 r = ld64 (c_ram c) (new + o)) as Hl.
  { intros r o Hin. rewrite (Hl0 r o Hin). apply ld64_ext.
    intros b Hb. apply Hm. pose proof (proj1 (Forall_forall _ _) F _ Hin) as (O1 & O2 & _). cbn [snd] in O1, O2. clear - O1 O2 Hb Hd. lia. }
  exists (set_pc (c_x c2 ra) c2). split; [done|]. split_and!.
  - intros r o Hin. split; [|exact (Hl r o Hin)]. change (ld64 (c_ram c2) (old + o) = c_x c r). rewrite G1. by apply Hs.
  - change (u64 (c_x c2 ra) = ld64 (c_ram c) new). rewrite (Hl ra 0 Ira), Z.add_0_r. apply u64_small, ld64_range.
  - exact Ho2.
  - intros a Hout. change (ld8 (c_ram c2) a = ld8 (c_ram c) a). rewrite G1. by apply Hm.
  - exact G2.
  - exact G3.
Qed.

(** The contexts of the processes and cpus are kernel data. *)
Definition context_at (a : Z) : Prop := kernel_etext ≤ a ∧ a + CONTEXT_SIZE ≤ kernel_end ∧ a mod 8 = 0.

(** C18: [swtch] suspends one thread of the kernel and resumes another.  A call of
    swtch(old, new) on the kernel page table saves the callee-saved registers,
    the stack pointer and the return address in [old], loads those in [new] and
    returns to the address found there, and changes nothing else.  When later,
    on whatever hart, swtch(other, old) is called and the context at [old] is as
    the first call left it, this call returns to the caller of the first one with
    its stack pointer and callee-saved registers. *)
Theorem swtch_resumes keep c root t ps old new : kernel_space c root t ps → regs_ok (c_x c) →
  context_at old → context_at new → old + CONTEXT_SIZE ≤ new ∨ new + CONTEXT_SIZE ≤ old → c_x c a0 = old → c_x c a1 = new →
  ∃ c1, exec keep swtch c = Some c1 ∧
    (∀ r o, (r, o) ∈ context_slots → ld64 (c_ram c1) (old + o) = c_x c r ∧ c_x c1 r = ld64 (c_ram c) (new + o)) ∧
    c_pc c1 = ld64 (c_ram c) new ∧ (∀ r, r ∉ context_slots.*1 → c_x c1 r = c_x c r) ∧
    (∀ a, ¬ (old ≤ a < old + CONTEXT_SIZE) → ld8 (c_ram c1) a = ld8 (c_ram c) a) ∧ c_csr c1 = c_csr c ∧ c_priv c1 = c_priv c ∧
    ∀ d root' t' ps' other, kernel_space d root' t' ps' → regs_ok (c_x d) → context_at other →
      other + CONTEXT_SIZE ≤ old ∨ old + CONTEXT_SIZE ≤ other → c_x d a0 = other → c_x d a1 = old →
      (∀ a, old ≤ a < old + CONTEXT_SIZE → ld8 (c_ram d) a = ld8 (c_ram c1) a) →
      ∃ d1, exec keep swtch d = Some d1 ∧ c_pc d1 = c_x c ra ∧ ∀ r, r ∈ context_slots.*1 → c_x d1 r = c_x c r.
Proof.
  intros Hk Hx (O1 & O2 & O3) (N1 & N2 & N3) Hd Ha0 Ha1.
  destruct (swtch_run keep c (not_table t) old new) as (c1 & E & R1 & R2 & R3 & R4 & R5 & R6);
    [done..|by eapply data_window|by eapply data_window|done|].
  exists c1. split_and!; [done..|]. intros d root' t' ps' other Hk' Hx' (P1 & P2 & P3) Hd' Hb0 Hb1 Hsame.
  destruct (swtch_run keep d (not_table t') other old) as (d1 & E' & Q1 & Q2 & _);
    [done..|by eapply data_window|by eapply data_window|done|].
  assert (∀ r o, (r, o) ∈ context_slots → ld64 (c_ram d) (old + o) = c_x c r) as Hs.
  { intros r o Hin. rewrite <-(proj1 (R1 r o Hin)). apply ld64_ext. intros b Hb. apply Hsame.
    pose proof (proj1 (Forall_forall _ _) (proj1 context_shape) _ Hin) as (F1 & F2 & _). cbn [snd] in F1, F2. lia. }
  exists d1. split_and!; [done| |].
  - rewrite Q2, <-(Hs ra 0) by apply context_shape. by rewrite Z.add_0_r.
  - intros r Hr. apply list_elem_of_fmap in Hr as ([r' o] & -> & Hin). cbn [fst]. rewrite (proj2 (Q1 r' o Hin)). exact (Hs r' o Hin).
Qed.

(** * kernelvec *)

Definition frame_slots : list (reg * Z) :=
  [(ra, 0); (gp, 16); (tp, 24); (t0, 32); (t1, 40); (t2, 48); (a0, 72); (a1, 80); (a2, 88); (a3, 96); (a4, 104); (a5, 112);
   (a6, 120); (a7, 128); (t3, 216); (t4, 224); (t5, 232); (t6, 240)].
Definition restored_slots : list (reg * Z) := filter (λ p, p.1 ≠ tp) frame_slots.

Lemma kernelvec_eq f link : kernelvec f link = [Addi sp sp (-256)] ++ saves sp frame_slots ++ [Call f link].
Proof. reflexivity. Qed.
Lemma kernelvec_return_eq : kernelvec_return = loads sp restored_slots ++ [Addi sp sp 256; Sret].
Proof. reflexivity. Qed.

Lemma frame_shape : fits 256 frame_slots ∧ fits 256 restored_slots ∧ Forall (λ p : reg * Z, p.2 mod 8 = 0) frame_slots ∧
  NoDup frame_slots.*2 ∧ NoDup restored_slots.*1 ∧ zero ∉ restored_slots.*1 ∧ sp ∉ restored_slots.*1.
Proof.
  split_and!; [unfold fits; repeat (apply Forall_cons_2; [by vm_compute|]); apply Forall_nil_2..| | | | |];
    apply (bool_decide_unpack _); vm_compute; exact I.
Qed.

(** The registers a C function preserves. *)
Definition callee_saved : list reg := [zero; sp; s0; s1; s2; s3; s4; s5; s6; s7; s8; s9; s10; s11].

Lemma callee_disjoint : Forall (λ r, r ≠ ra ∧ r ∉ restored_slots.*1) callee_saved.
Proof. apply (bool_decide_unpack _). vm_compute. exact I. Qed.

Lemma reg_cases r : r = tp ∨ r ∈ callee_saved ∨ ∃ o, (r, o) ∈ restored_slots.
Proof.
  assert (r = tp ∨ r ∈ callee_saved ∨ r ∈ restored_slots.*1) as [E|[E|E]].
  { destruct r; apply (bool_decide_unpack _); vm_compute; exact I. }
  - by left. - by right; left.
  - right; right. apply list_elem_of_fmap in E as ([r' o] & -> & E). by exists o.
Qed.

Lemma kernel_space_trap cause tval c root t ps : kernel_space c root t ps → kernel_space (trap cause tval c) root t ps.
Proof. by intros [H1 H2 H3 H4 H5 H6]. Qed.

Lemma kernelvec_run keep f link c root t ps i pa :
  kernel_space c root t ps → Z.of_nat (length ps) = NPROC → ps !! i = Some pa → regs_ok (c_x c) →
  KSTACK (Z.of_nat i) + 256 ≤ c_x c sp ≤ KSTACK (Z.of_nat i) + PGSIZE → c_x c sp mod 8 = 0 →
  let frame := pa + (c_x c sp - 256 - KSTACK (Z.of_nat i)) in
  ∃ c', exec keep (kernelvec f link) c = Some c' ∧ c_pc c' = u64 f ∧ c_x c' ra = u64 link ∧ c_x c' sp = c_x c sp - 256 ∧
    (∀ r, r ≠ ra → r ≠ sp → c_x c' r = c_x c r) ∧ c_csr c' = c_csr c ∧ c_priv c' = c_priv c ∧
    (∀ a, ¬ (frame ≤ a < frame + 256) → ld8 (c_ram c') a = ld8 (c_ram c) a) ∧
    ∀ r o, (r, o) ∈ frame_slots → ld64 (c_ram c') (frame + o) = c_x c r.
Proof.
  intros Hk Hlen Hi Hx Hsp Hal frame. destruct frame_shape as (F & _ & A & N2 & _). pose proof Hx as [_ Hx64].
  pose proof (Hx64 sp) as Hs64. assert (0 ≤ KSTACK (Z.of_nat i)) as H0.
  { destruct (KSTACK_range (Z.of_nat i)) as (_ & _ & _ & H3); [apply lookup_lt_Some in Hi; lia|]. rewrite PHYSTOP_val in H3. lia. }
  set (fa := c_x c sp - 256) in *.
  assert (u64 (c_x c sp + -256) = fa) as Hu by (rewrite u64_small; unfold fa; lia).
  pose proof (stack_window c root t ps i pa fa 256 Hk Hlen Hi) as Hw. fold frame in Hw.
  rewrite kernelvec_eq. cbn [app exec step mbind option_bind]. set (c1 := set_x sp (c_x c sp + -256) c).
  assert (c_x c1 sp = fa) as Hsp1 by exact Hu.
  assert (window c1 (not_table t) fa 256 frame) as Hw1.
  { eapply window_proper; [apply Hw; unfold fa; lia|done..]. }
  assert (fa mod 8 = 0) as Hfa by (unfold fa; rewrite Zminus_mod, Hal; done).
  rewrite (exec_then _ _ _ _ _ (exec_saves keep c1 (not_table t) sp frame_slots fa 256 frame Hfa Hsp1 Hw1 F)).
  assert (save_all frame (c_x c1) frame_slots (c_ram c1) = save_all frame (c_x c) frame_slots (c_ram c)) as ->.
  { apply save_all_ext, Forall_forall. intros p Hp. unfold c1. apply set_x_ne. intros E.
    assert (sp ∉ frame_slots.*1) as Hn by (apply (bool_decide_unpack _); vm_compute; exact I).
    apply Hn. rewrite E. by apply list_elem_of_fmap_2. }
  assert (∀ a, ¬ (frame ≤ a < frame + 256) → ld8 (save_all frame (c_x c) frame_slots (c_ram c)) a = ld8 (c_ram c) a) as M1.
  { intros a Ha. by apply (save_all_outside _ _ _ _ 256). }
  assert (∀ r o, (r, o) ∈ frame_slots → ld64 (save_all frame (c_x c) frame_slots (c_ram c)) (frame + o) = c_x c r) as M2.
  { intros r o Hin. by apply save_all_slot. }
  revert M1 M2. generalize (save_all frame (c_x c) frame_slots (c_ram c)). intros m M1 M2.
  cbn [exec step mbind option_bind]. eexists. split; [reflexivity|]. split_and!; [done|done|exact Hsp1| |done|done|exact M1|exact M2].
  intros r N3 N4. rewrite set_x_ne by done. change (c_x c1 r = c_x c r). unfold c1. by rewrite set_x_ne.
Qed.

Lemma kernelvec_return_run keep c root t ps i pa :
  kernel_space c root t ps → Z.of_nat (length ps) = NPROC → ps !! i = Some pa →
  KSTACK (Z.of_nat i) ≤ c_x c sp → c_x c sp + 256 ≤ KSTACK (Z.of_nat i) + PGSIZE → c_x c sp mod 8 = 0 →
  let frame := pa + (c_x c sp - KSTACK (Z.of_nat i)) in
  ∃ c', exec keep kernelvec_return c = Some (sret_insn c') ∧ c_ram c' = c_ram c ∧ c_csr c' = c_csr c ∧ c_x c' sp = u64 (c_x c sp + 256) ∧
    (∀ r, r ≠ sp → r ∉ restored_slots.*1 → c_x c' r = c_x c r) ∧
    ∀ r o, (r, o) ∈ restored_slots → c_x c' r = ld64 (c_ram c) (frame + o).
Proof.
  intros Hk Hlen Hi H1 H2 Hal frame. destruct frame_shape as (_ & F & _ & _ & N1 & Nz & Ns).
  pose proof (stack_window c root t ps i pa (c_x c sp) 256 Hk Hlen Hi H1 H2) as Hw. fold frame in Hw.
  destruct (exec_loads_spec keep c (not_table t) sp restored_slots (c_x c sp) 256 frame Hal eq_refl Ns Nz N1 Hw F)
    as (c2 & El & Hl & Ho & G1 & G2 & G3 & _).
  rewrite kernelvec_return_eq, (exec_then _ _ _ _ _ El). cbn [exec step mbind option_bind].
  destruct (set_x_frame sp (c_x c2 sp + 256) c2) as (K1 & K2 & K3 & _). rewrite K3, G3, (ks_priv _ _ _ _ Hk).
  change (PRV_S <=? PRV_S) with true. cbv iota. cbn [mbind option_bind]. eexists. split; [reflexivity|].
  split_and!; [by rewrite K1|by rewrite K2|by rewrite set_x_eq, Ho| |].
  - intros r R1 R2. rewrite set_x_ne by done. by apply Ho.
  - intros r o Hin. rewrite set_x_ne; [by apply Hl|]. intros <-. apply Ns. apply list_elem_of_fmap. by exists (sp, o).
Qed.

(** What the trap handler in C leaves when it returns to [kernelvec]: the
    registers the calling convention preserves, the frame of its caller, and
    [sepc] and [sstatus], which [kerneltrap] writes back. *)
Record handled (c1 c2 : core) (frame : Z) : Prop := {
  hd_saved : ∀ r, r ∈ callee_saved → c_x c2 r = c_x c1 r;
  hd_frame : ∀ a, frame ≤ a < frame + 256 → ld8 (c_ram c2) a = ld8 (c_ram c1) a;
  hd_sepc : c_csr c2 sepc = c_csr c1 sepc;
  hd_sstatus : csr_read sstatus c2 = csr_read sstatus c1;
}.

Lemma sstatus_bit c1 c2 b : csr_read sstatus c2 = csr_read sstatus c1 → Z.testbit SSTATUS_BITS b = true →
  Z.testbit (c_csr c2 mstatus) b = Z.testbit (c_csr c1 mstatus) b.
Proof.
  cbn [csr_read]. intros E Hb. apply (f_equal (λ v, Z.testbit v b)) in E. rewrite !Z.land_spec, Hb, !andb_true_r in E. exact E.
Qed.

(** C22: An interrupt in the kernel does not disturb the code it interrupts.  On the
    stack of a process, with 256 bytes left on it, [kernelvec] enters the trap
    handler with the frame of saved registers below the stack pointer and
    nothing else in memory changed.  When the handler returns, on this or on another hart,
    with what the calling convention preserves, the interrupted code continues
    where it was, in supervisor mode, with interrupts enabled or not as before
    and every register as before except [tp], which is the number of the hart it
    now runs on. *)
Theorem kernelvec_transparent keep f link cause tval u root t ps i pa :
  kernel_space u root t ps → Z.of_nat (length ps) = NPROC → ps !! i = Some pa → regs_ok (c_x u) →
  KSTACK (Z.of_nat i) + 256 ≤ c_x u sp ≤ KSTACK (Z.of_nat i) + PGSIZE → c_x u sp mod 8 = 0 →
  let frame := pa + (c_x u sp - 256 - KSTACK (Z.of_nat i)) in
  ∃ c1, exec keep (kernelvec f link) (trap cause tval u) = Some c1 ∧ c_pc c1 = u64 f ∧ c_x c1 ra = u64 link ∧
    c_x c1 sp = c_x u sp - 256 ∧ c_csr c1 = c_csr (trap cause tval u) ∧ c_priv c1 = PRV_S ∧
    (∀ a, ¬ (frame ≤ a < frame + 256) → ld8 (c_ram c1) a = ld8 (c_ram u) a) ∧
    ∀ c2, kernel_space c2 root t ps → handled c1 c2 frame →
      ∃ c3, exec keep kernelvec_return c2 = Some c3 ∧ (∀ r, r ≠ tp → c_x c3 r = c_x u r) ∧ c_x c3 tp = c_x c2 tp ∧
        c_pc c3 = u64 (c_pc u) ∧ c_priv c3 = PRV_S ∧ Z.testbit (c_csr c3 mstatus) SIE_BIT = Z.testbit (c_csr u mstatus) SIE_BIT ∧
        c_ram c3 = c_ram c2.
Proof.
  intros Hk Hlen Hi Hx Hsp Hal frame.
  destruct (kernelvec_run keep f link (trap cause tval u) root t ps i pa (kernel_space_trap _ _ _ _ _ _ Hk) Hlen Hi Hx Hsp Hal)
    as (c1 & E1 & P1 & A1 & S1 & O1 & C1 & Q1 & M1 & L1). fold frame in M1, L1.
  exists c1. split_and!; [exact E1|exact P1|exact A1|exact S1|exact C1|exact Q1|exact M1|]. intros c2 Hk2 [V1 V2 V3 V4].
  assert (c_x c2 sp = c_x u sp - 256) as Hs2 by (rewrite V1, S1; [done|by apply (bool_decide_unpack _); vm_compute]).
  destruct (kernelvec_return_run keep c2 root t ps i pa) as (c3 & E3 & R3 & K3 & S3 & O3 & L3); try done; rewrite ?Hs2; [lia..| |].
  { rewrite Zminus_mod, Hal. done. }
  rewrite Hs2 in S3, L3. fold frame in L3. pose proof Hx as [Hz Hx64].
  exists (sret_insn c3). split; [exact E3|].
  assert (Z.testbit (c_csr c3 mstatus) SPP_BIT = true ∧ Z.testbit (c_csr c3 mstatus) SPIE_BIT = Z.testbit (c_csr u mstatus) SIE_BIT) as [B1 B2].
  { rewrite K3, (sstatus_bit c1 c2 SPP_BIT), (sstatus_bit c1 c2 SPIE_BIT), C1, trap_mstatus by done. split.
    - by rewrite set_bit_ne, set_bit_eq, (ks_priv _ _ _ _ Hk).
    - by rewrite set_bit_ne, set_bit_ne, set_bit_eq. }
  split_and!.
  - intros r Hr. change (c_x c3 r = c_x u r). destruct (reg_cases r) as [->|[Hc|[o Ho]]]; [done| |].
    + destruct (decide (r = sp)) as [->|Hn]; [rewrite S3, u64_small; pose proof (Hx64 sp); lia|].
      destruct (proj1 (Forall_forall _ _) callee_disjoint r Hc) as [D1 D2]. by rewrite O3, V1, O1.
    + rewrite (L3 r o Ho). transitivity (ld64 (c_ram c1) (frame + o)).
      * apply ld64_ext. intros b Hb. apply V2. destruct frame_shape as (_ & F & _).
        pose proof (proj1 (Forall_forall _ _) F _ Ho) as (F1 & F2 & _). cbn [snd] in F1, F2. lia.
      * apply L1. by apply list_elem_of_filter in Ho as [_ Ho].
  - change (c_x c3 tp = c_x c2 tp). apply O3; [done|]. apply (bool_decide_unpack _). vm_compute. exact I.
  - change (u64 (c_csr c3 sepc) = u64 (c_pc u)). by rewrite K3, V3, C1.
  - change ((if Z.testbit (c_csr c3 mstatus) SPP_BIT then PRV_S else PRV_U) = PRV_S). by rewrite B1.
  - transitivity (Z.testbit (c_csr c3 mstatus) SPIE_BIT); [|exact B2].
    unfold sret_insn. cbn [set_pc set_priv set_csr c_csr]. by rewrite upd_eq, set_bit_ne, set_bit_ne, set_bit_eq.
  - exact R3.
Qed.
End kernel.

(** * Start-up *)

(** [entry.S] enters [start] on a stack of its own hart: the [hartid + 1]-th page
    of [stack0] ends where the stack begins. *)
Lemma entry_stack keep stack0 start link c : c_priv c = PRV_M → 0 ≤ c_csr c mhartid < NCPU → 0 ≤ stack0 < 2 ^ 63 →
  ∃ c', exec keep (entry stack0 start link) c = Some c' ∧ c_pc c' = u64 start ∧
    c_x c' sp = stack0 + (c_csr c mhartid + 1) * 4096 ∧ c_ram c' = c_ram c ∧ c_csr c' = c_csr c ∧ c_priv c' = PRV_M.
Proof.
  destruct c as [x k p pc m]. cbn [c_priv c_csr]. intros -> Hh Hs. unfold NCPU in Hh. eexists. split; [reflexivity|].
  split; [reflexivity|]. split; [|done].
  change (u64 (u64 stack0 + u64 (u64 (1024 * 4) * u64 (u64 (k mhartid) + 1))) = stack0 + (k mhartid + 1) * 4096).
  rewrite (u64_small stack0), (u64_small (k mhartid)) by lia. rewrite (u64_small (k mhartid + 1)), (u64_small (1024 * 4)) by lia.
  rewrite (u64_small (1024 * 4 * _)), u64_small by lia. lia.
Qed.

(** * Examples *)

Module Example.
Import Kvm.Roomy.
Definition keep0 (k : csr) (v : Z) : Z := v.
Lemma keep0_ok : keeps keep0.
Proof. by split. Qed.

(** A user page table with the one mapping of the trap frame. *)
Definition root : Z := PHYSTOP - 4 * PGSIZE.
Definition page1 : Z := PHYSTOP - 3 * PGSIZE.
Definition page0 : Z := PHYSTOP - 2 * PGSIZE.
Definition frame : Z := PHYSTOP - PGSIZE.
Definition table : ptree := {[ [] := root; [255] := page1; [255; 511] := page0 ]}.
Definition ram : memory :=
  st64 (st64 (st64 ∅ (root + 8 * 255) (Z.lor (PA2PTE page1) PTE_V)) (page1 + 8 * 511) (Z.lor (PA2PTE page0) PTE_V))
    (page0 + 8 * 510) (leaf_pte frame RW).

Lemma table_cases x p : table !! x = Some p ↔ (x = [] ∧ p = root) ∨ (x = [255] ∧ p = page1) ∨ (x = [255; 511] ∧ p = page0).
Proof.
  unfold table. rewrite !lookup_insert_Some, lookup_singleton_Some. split.
  - intros [[<- <-]|(_ & [[<- <-]|(_ & <- & <-)])]; auto.
  - intros [[-> ->]|[[-> ->]|[-> ->]]]; [by left|right; split; [done|by left]|right; split; [done|right; split; [done|done]]].
Qed.

Lemma ram_ld64 a : a mod 8 = 0 → ld64 ram a =
  if decide (a = page0 + 8 * 510) then leaf_pte frame RW else if decide (a = page1 + 8 * 511) then Z.lor (PA2PTE page0) PTE_V
  else if decide (a = root + 8 * 255) then Z.lor (PA2PTE page1) PTE_V else 0.
Proof.
  intros Ha. assert (∀ m b v, b mod 8 = 0 → 0 ≤ v < 2 ^ 64 → ld64 (st64 m b v) a = if decide (a = b) then v else ld64 m a) as H.
  { intros m b v Hb Hv. case_decide as E; [subst; by apply ld64_st64_eq|]. apply ld64_st64_ne.
    pose proof (Z.div_mod a 8). pose proof (Z.div_mod b 8). lia. }
  unfold ram. rewrite !H by (by vm_compute). repeat case_decide; done.
Qed.

Lemma table_rep : pt_rep ram table.
Proof.
  assert (root = 2281684992 ∧ page1 = 2281689088 ∧ page0 = 2281693184) as (E1 & E2 & E3) by (by vm_compute).
  split.
  - intros x y p H1%table_cases H2%table_cases. rewrite E1, E2, E3 in *. naive_solver lia.
  - intros x p [[-> ->]|[[-> ->]|[-> ->]]]%table_cases; split; [done|by vm_compute|done|by vm_compute|done|by vm_compute].
  - intros x p [[-> ->]|[[-> ->]|[-> ->]]]%table_cases; cbn; lia.
  - intros x p i Hx Hl Hi. assert ((p + 8 * i) mod 8 = 0) as Hm.
    { apply table_cases in Hx as [[-> ->]|[[-> ->]|[-> ->]]]; rewrite ?E1, ?E2, ?E3, Z.mul_comm, Z.mod_add; done. }
    rewrite (ram_ld64 _ Hm), E1, E2, E3 in *. destruct (table !! (x ++ [i])) as [q|] eqn:Hq.
    + apply table_cases in Hq as [[Hq ->]|[[Hq ->]|[Hq ->]]]; [by destruct x|..].
      * destruct x as [|? [|]]; [|done..]. injection Hq as ->. apply table_cases in Hx as [[_ ->]|[[? _]|[? _]]]; [|done..].
        rewrite E1. reflexivity.
      * destruct x as [|j [|? [|]]]; [done| |done..]. injection Hq as -> ->. apply table_cases in Hx as [[? _]|[[_ ->]|[? _]]]; [done| |done].
        rewrite E2. reflexivity.
    + apply table_cases in Hx as [[-> ->]|[[-> ->]|[-> ->]]]; [| |cbn in Hl; lia]; rewrite ?E1, ?E2 in *.
      * do 2 (rewrite decide_False by lia). rewrite decide_False; [done|]. intros E. assert (i = 255) as -> by lia. done.
      * rewrite decide_False by lia. rewrite decide_False; [rewrite decide_False; [done|lia]|]. intros E. assert (i = 511) as -> by lia. done.
  - intros x i [p [[H _]|[[H _]|[H _]]]%table_cases]; [by destruct x|..].
    + destruct x as [|? [|]]; [by eexists|done..].
    + destruct x as [|j [|? [|]]]; [done| |done..]. injection H as -> _. by eexists.
Qed.

Lemma table_user : user_table ram root frame.
Proof.
  exists table. split_and!; [exact table_rep|by vm_compute|by vm_compute|by split; vm_compute|].
  intros [x H%table_cases]. destruct H as [[_ H]|[[_ H]|[_ H]]]; by vm_compute in H.
Qed.

Definition xs (base new : Z) (r : reg) : Z :=
  match r with zero => 0 | a0 => base | a1 => new | sp => KSTACK 0 + 2048 | _ => 7 end.
Definition csrs (table : Z) (k : csr) : Z := match k with satp => MAKE_SATP table | _ => 0 end.
Definition user : core := Core (xs 1 2) (csrs root) PRV_U 4096 ram.

Lemma xs_ok a b : 0 ≤ a < 2 ^ 64 → 0 ≤ b < 2 ^ 64 → regs_ok (xs a b).
Proof. intros Ha Hb. split; [done|]. intros []; cbn [xs]; try lia. by vm_compute. Qed.

(** A system call that returns 5. *)
Lemma trap_restores_registers_witness : ∃ c1 c2 c3, exec keep0 (uservec 0x3ffffff09c) (trap 8 0 user) = Some c1 ∧
  exec keep0 userret c2 = Some c3 ∧ c_x c3 a0 = 1 ∧ c_x c3 a1 = 2 ∧ c_x c3 s1 = 7 ∧ c_priv c3 = PRV_U.
Proof.
  assert (regs_ok (c_x user)) as Hx by (by apply xs_ok).
  destruct (trap_restores_registers keep0 0x3ffffff09c 8 0 user root frame 1 keep0_ok Hx eq_refl eq_refl table_user)
    as (c1 & E1 & En & _ & _ & _ & Hret).
  set (c2 := Core (xs (MAKE_SATP root) 0) (csrs root) PRV_S 0 (c_ram c1)).
  destruct (Hret c2) as (c3 & E3 & X3 & P3 & _).
  - reflexivity.
  - reflexivity.
  - reflexivity.
  - exact (user_table_frame _ _ _ _ table_user (en_ram _ _ _ _ _ En)).
  - reflexivity.
  - intros r o Hin. change (ld64 (c_ram c1) (frame + o) = if decide (r = a0) then 1 else ld64 (c_ram c1) (frame + o)).
    case_decide as E; [|reflexivity]. subst r. exact (en_saved _ _ _ _ _ En a0 o Hin).
  - exists c1, c2, c3. split; [exact E1|]. split; [exact E3|]. split; [exact (X3 a0)|]. split; [exact (X3 a1)|].
    split; [exact (X3 s1)|exact P3].
Defined.

(** The kernel's page table. *)
Lemma kernel_core : ∃ m kroot t ps, Z.of_nat (length ps) = NPROC ∧
  ∀ c, c_ram c = m → c_priv c = PRV_S → c_csr c satp = MAKE_SATP kroot → kernel_space c kroot t ps.
Proof.
  destruct (kinit_ok (KState ∅ 0 ∅) eq_refl) as (s1 & l1 & E1 & K1 & Hl).
  assert (kernel_end + Z.of_nat 200 * PGSIZE ≤ PHYSTOP) as Hroom by (by vm_compute).
  pose proof (free_pages 200 l1 Hroom Hl) as Hlen.
  destruct (kvmmake_run s1 l1 K1) as (kroot & s2 & l2 & t & ps & E2 & Hk & Hnd & Hps); [lia|by vm_compute|].
  exists (kmem s2), kroot, t, ps. split; [by rewrite Hps|]. intros c Hc Hp Hs. destruct Hk as [K R Ow T W P N St].
  split; [exact Hp|exact Hs|rewrite Hc; exact R|exact T|intros va Hva; rewrite Hc; exact (P va Hva)|].
  intros q Hq. destruct (St q Hq) as (Hv & _ & Hn). exact (conj Hv Hn).
Qed.

Lemma kernel_space_frame c c' kroot t ps : kernel_space c kroot t ps → c_priv c' = PRV_S → c_csr c' satp = MAKE_SATP kroot →
  (∀ a, ¬ not_table t a → ld8 (c_ram c') a = ld8 (c_ram c) a) → kernel_space c' kroot t ps.
Proof.
  intros [H1 H2 H3 H4 H5 H6] Hp Hs Hm. assert (∀ q, pt_page t q → same_page (c_ram c) (c_ram c') q) as Hsame.
  { intros q Hq a Ha. symmetry. apply Hm. intros Hn. exact (Hn q Hq Ha). }
  split; try done; [by eapply pt_rep_frame|]. intros va Hva. rewrite <-H5 by done. symmetry. by apply pte_of_frame.
Qed.

(** One thread switches to another, which switches back. *)
Lemma swtch_resumes_witness : ∃ c c1 d d1, exec keep0 swtch c = Some c1 ∧ exec keep0 swtch d = Some d1 ∧
  c_pc c1 = ld64 (c_ram c) (kernel_etext + CONTEXT_SIZE) ∧ c_x c ra = 7 ∧ c_pc d1 = 7.
Proof.
  destruct kernel_core as (m & kroot & t & ps & Hlen & Hks).
  set (old := kernel_etext). set (new := kernel_etext + CONTEXT_SIZE). set (other := kernel_etext + 2 * CONTEXT_SIZE).
  assert (0 ≤ old < 2 ^ 64 ∧ 0 ≤ new < 2 ^ 64 ∧ 0 ≤ other < 2 ^ 64) as (R1 & R2 & R3) by (by vm_compute).
  assert (context_at old ∧ context_at new ∧ context_at other) as (C1 & C2 & C3) by (by vm_compute).
  set (c := Core (xs old new) (csrs kroot) PRV_S 0 m).
  assert (old + CONTEXT_SIZE ≤ new) as Hn by (by vm_compute). assert (old + CONTEXT_SIZE ≤ other) as Ho by (by vm_compute).
  destruct (swtch_resumes keep0 c kroot t ps old new (Hks c eq_refl eq_refl eq_refl) (xs_ok old new R1 R2) C1 C2 (or_introl Hn) eq_refl eq_refl)
    as (c1 & E1 & _ & P1 & _ & M1 & _ & _ & Hback).
  set (d := Core (xs other old) (csrs kroot) PRV_S 0 (c_ram c1)).
  destruct (Hback d kroot t ps other) as (d1 & E2 & P2 & _).
  - apply (kernel_space_frame c); [exact (Hks c eq_refl eq_refl eq_refl)|reflexivity|reflexivity|].
    intros a Ha. apply M1. intros Hin. apply Ha.
    exact (proj1 (data_window c kroot t ps old CONTEXT_SIZE (Hks c eq_refl eq_refl eq_refl) (proj1 C1) (proj1 (proj2 C1))) a Hin).
  - exact (xs_ok other old R3 R1).
  - exact C3.
  - right. exact Ho.
  - reflexivity.
  - reflexivity.
  - intros a _. reflexivity.
  - exists c, c1, d, d1. split; [exact E1|]. split; [exact E2|]. split; [exact P1|]. split; [reflexivity|exact P2].
Defined.

(** An interrupt on the stack of the first process. *)
Lemma kernelvec_transparent_witness : ∃ u c1 c3, exec keep0 (kernelvec 0x80001000 0x80001300) (trap 9 0 u) = Some c1 ∧
  exec keep0 kernelvec_return (set_x tp 3 c1) = Some c3 ∧ c_x c3 tp = 3 ∧ c_x c3 t0 = 7 ∧ c_x c3 sp = c_x u sp.
Proof.
  destruct kernel_core as (m & kroot & t & ps & Hlen & Hks).
  destruct (lookup_lt_is_Some_2 ps 0%nat) as [pa Hpa]; [unfold NPROC in Hlen; lia|].
  set (u := Core (xs 1 2) (csrs kroot) PRV_S 4096 m).
  assert (regs_ok (c_x u)) as Hx by (by apply xs_ok).
  assert (KSTACK (Z.of_nat 0) + 256 ≤ c_x u sp ≤ KSTACK (Z.of_nat 0) + PGSIZE) as Hsp by (by vm_compute).
  destruct (kernelvec_transparent keep0 0x80001000 0x80001300 9 0 u kroot t ps 0 pa (Hks u eq_refl eq_refl eq_refl) Hlen Hpa Hx Hsp eq_refl)
    as (c1 & E1 & _ & _ & _ & C1 & Q1 & M1 & Hback).
  assert (kernel_space (set_x tp 3 c1) kroot t ps) as Hk2.
  { apply (kernel_space_frame u); [exact (Hks u eq_refl eq_refl eq_refl)|exact Q1| |].
    - change (c_csr c1 satp = MAKE_SATP kroot). rewrite C1. reflexivity.
    - intros a Ha. apply M1. intros Hin. apply Ha.
      refine (proj1 (stack_window u kroot t ps 0 pa (c_x u sp - 256) 256 (Hks u eq_refl eq_refl eq_refl) Hlen Hpa _ _) a Hin);
        vm_compute; discriminate. }
  destruct (Hback (set_x tp 3 c1) Hk2) as (c3 & E3 & X3 & T3 & _).
  - split; [|reflexivity..]. intros r Hr. unfold set_x. rewrite decide_False by discriminate. unfold upd.
    cbn [c_x]. rewrite decide_False; [reflexivity|]. intros <-. revert Hr. apply (bool_decide_unpack _). vm_compute. exact I.
  - exists u, c1, c3. split; [exact E1|]. split; [exact E3|]. split; [exact T3|]. split; [exact (X3 t0 ltac:(discriminate))|exact (X3 sp ltac:(discriminate))].
Defined.
End Example.
