(* ===== verification/VirtioSpec.v ===== *)
(** The virtio disk driver together with a device.

    The device is a parameter: any device whose steps are allowed by the virtio
    specification, which is the relation [serve].  It takes the requests it
    is shown in the ring of available descriptors and completes them in any order, and its
    steps interleave with the calls of the driver.  The driver and the
    device refine a machine that transfers whole blocks: every request is
    carried out exactly once between its submission and its return, and nothing else changes
    the disk or the buffers.  This is what [disk_rw] of {!Bio} stands for. *)

From stdpp Require Import functions relations.
From S2P Require Import Prelude Riscv Mem Str Kalloc Vm State Procmem Virtio.

(** * The device *)

(** What the device can see: the rings, the disk and the data of the buffers, and
    its own position in the ring and the requests it has taken. *)
Record dst := Dst {
  d_v : vdisk;
  d_seen : Z;
  d_taken : list Z;
  d_disk : Z → Z;  (* the bytes of the disk *)
  d_buf : nat → list Z;
}.

Definition dread (f : Z → Z) (sector len : Z) : list Z := f <$> seqZ (512 * sector) len.
Definition dwrite (f : Z → Z) (sector : Z) (data : list Z) : Z → Z := λ o,
  if 512 * sector <=? o then default (f o) (data !! Z.to_nat (o - 512 * sector)) else f o.

Definition flag (d : desc) (f : Z) : bool := negb (Z.land (d_flags d) f =? 0).

(** A request in three descriptors: the header, the data, the status. *)
Record blk := Blk { k_b : nat; k_out : bool; k_sector : Z; k_len : Z; k_st : nat }.
Definition chain (v : vdisk) (h : Z) : option blk :=
  if h <? 0 then None
  else
    d0 ← v_desc v !! Z.to_nat h;
    d1 ← v_desc v !! Z.to_nat (d_next d0);
    d2 ← v_desc v !! Z.to_nat (d_next d1);
    match d_addr d0, d_addr d1, d_addr d2 with
    | DOps o, DData b, DStatus st =>
        r ← v_ops v !! o;
        if flag d0 VRING_DESC_F_NEXT && flag d1 VRING_DESC_F_NEXT && negb (flag d2 VRING_DESC_F_NEXT) &&
           negb (flag d0 VRING_DESC_F_WRITE) && flag d2 VRING_DESC_F_WRITE && (d_len d0 =? 16) && (d_len d2 =? 1) &&
           (if r_type r =? VIRTIO_BLK_T_OUT then negb (flag d1 VRING_DESC_F_WRITE)
            else (r_type r =? VIRTIO_BLK_T_IN) && flag d1 VRING_DESC_F_WRITE)
        then Some (Blk b (r_type r =? VIRTIO_BLK_T_OUT) (r_sector r) (d_len d1) st)
        else None
    | _, _, _ => None
    end.

Definition complete (h : Z) (k : blk) (v : vdisk) : vdisk :=
  set_v_uidx (u16 (v_uidx v + 1))
    (set_v_used_ring (<[Z.to_nat (v_uidx v mod NUM) := h]> (v_used_ring v))
      (set_v_info_status (<[k_st k := 0]> (v_info_status v)) v)).

(** One step of a device: it takes the next available request, or completes one
    it has taken.  What it does with a request that is not well formed is not
    specified. *)
Inductive serve (d : dst) : dst → Prop :=
  | serve_take h :
      d_seen d ≠ v_avail_idx (d_v d) → v_avail_ring (d_v d) !! Z.to_nat (d_seen d mod NUM) = Some h →
      serve d (Dst (d_v d) (u16 (d_seen d + 1)) (h :: d_taken d) (d_disk d) (d_buf d))
  | serve_done h l1 l2 k :
      d_taken d = l1 ++ h :: l2 → chain (d_v d) h = Some k →
      serve d (Dst (complete h k (d_v d)) (d_seen d) (l1 ++ l2)
        (if k_out k then dwrite (d_disk d) (k_sector k) (take (Z.to_nat (k_len k)) (d_buf d (k_b k))) else d_disk d)
        (if k_out k then d_buf d else <[k_b k := dread (d_disk d) (k_sector k) (k_len k)]> (d_buf d)))
  | serve_malformed h d' :
      h ∈ d_taken d → chain (d_v d) h = None → serve d d'.

(** * The driver with its callers *)

(** A call of [virtio_disk_rw] that waits for its request. *)
Record call := Call { c_b : nat; c_n : Z; c_w : bool; c_i0 : Z }.

Record world := World { w_d : dst; w_calls : list call }.
Definition w_v (w : world) : vdisk := d_v (w_d w).
Definition set_v (v : vdisk) (d : dst) : dst := Dst v (d_seen d) (d_taken d) (d_disk d) (d_buf d).

(** A buffer whose sleep lock is held by the caller of [virtio_disk_rw]. *)
Definition may_submit (w : world) (b : nat) (n : Z) : Prop :=
  (b < Z.to_nat NBUF)%nat ∧ 0 ≤ n < 2 ^ 31 ∧ b ∉ (c_b <$> w_calls w).

Section system.
Context (device : dst → dst → Prop).

Inductive vstep (w : world) : world → Prop :=
  | vstep_submit b n wr i0 v' :
      may_submit w b n → rw_submit b n wr (w_v w) = Ok (Return i0, v') →
      vstep w (World (set_v v' (w_d w)) (Call b n wr i0 :: w_calls w))
  | vstep_full b n wr ch v' :
      may_submit w b n → rw_submit b n wr (w_v w) = Ok (Block ch tt, v') →
      vstep w (World (set_v v' (w_d w)) (w_calls w))
  | vstep_device d' : device (w_d w) d' → vstep w (World d' (w_calls w))
  | vstep_intr v' : virtio_disk_intr (w_v w) = Ok (tt, v') → vstep w (World (set_v v' (w_d w)) (w_calls w))
  | vstep_return c l1 l2 v1 v2 :
      w_calls w = l1 ++ c :: l2 → rw_wait (c_b c) (w_v w) = Ok (Return tt, v1) → rw_finish (c_i0 c) v1 = Ok (tt, v2) →
      vstep w (World (set_v v2 (w_d w)) (l1 ++ l2))
  | vstep_fill b data :
      b ∉ (c_b <$> w_calls w) →
      vstep w (World (Dst (w_v w) (d_seen (w_d w)) (d_taken (w_d w)) (d_disk (w_d w)) (<[b := data]> (d_buf (w_d w))))
                 (w_calls w)).
End system.

Definition winit (disk : Z → Z) (buf : nat → list Z) : world := World (Dst vdisk0 0 [] disk buf) [].

(** * The specification *)

(** The outstanding requests of the buffers: block, direction, and whether the
    transfer has happened. *)
Record astate := Astate { a_disk : Z → Z; a_buf : nat → list Z; a_req : gmap nat (Z * bool * bool) }.

Inductive astep (a : astate) : astate → Prop :=
  | astep_submit b n wr :
      a_req a !! b = None → astep a (Astate (a_disk a) (a_buf a) (<[b := (n, wr, false)]> (a_req a)))
  | astep_write b n :
      a_req a !! b = Some (n, true, false) →
      astep a (Astate (dwrite (a_disk a) (2 * n) (take (Z.to_nat BSIZE) (a_buf a b))) (a_buf a) (<[b := (n, true, true)]> (a_req a)))
  | astep_read b n :
      a_req a !! b = Some (n, false, false) →
      astep a (Astate (a_disk a) (<[b := dread (a_disk a) (2 * n) BSIZE]> (a_buf a)) (<[b := (n, false, true)]> (a_req a)))
  | astep_return b n wr :
      a_req a !! b = Some (n, wr, true) → astep a (Astate (a_disk a) (a_buf a) (delete b (a_req a)))
  | astep_fill b data :
      a_req a !! b = None → astep a (Astate (a_disk a) (<[b := data]> (a_buf a)) (a_req a)).

Definition ainit (disk : Z → Z) (buf : nat → list Z) : astate := Astate disk buf ∅.

(** * The invariant *)

(** A request with its three descriptors. *)
Record req := Req { q_b : nat; q_n : Z; q_w : bool; q_0 : nat; q_1 : nat; q_2 : nat }.
Definition q_idx (q : req) : list nat := [q_0 q; q_1 q; q_2 q].
Definition idxs (l : list req) : list nat := l ≫= q_idx.
Definition call_of (q : req) : call := Call (q_b q) (q_n q) (q_w q) (Z.of_nat (q_0 q)).

Definition req_desc (q : req) : list (nat * desc) :=
  [(q_0 q, Desc (DOps (q_0 q)) 16 VRING_DESC_F_NEXT (Z.of_nat (q_1 q)));
   (q_1 q, Desc (DData (q_b q)) BSIZE (Z.lor (if q_w q then 0 else VRING_DESC_F_WRITE) VRING_DESC_F_NEXT) (Z.of_nat (q_2 q)));
   (q_2 q, Desc (DStatus (q_0 q)) 1 VRING_DESC_F_WRITE 0)].

Record req_ok (v : vdisk) (q : req) : Prop := {
  rq_desc : Forall (λ e, v_desc v !! e.1 = Some e.2) (req_desc q);
  rq_ops : v_ops v !! q_0 q = Some (BlkReq (if q_w q then VIRTIO_BLK_T_OUT else VIRTIO_BLK_T_IN) 0 (2 * q_n q));
  rq_info : v_info_b v !! q_0 q = Some (Some (q_b q));
  rq_b : (q_b q < Z.to_nat NBUF)%nat;
}.

Record lengths (v : vdisk) : Prop := {
  ln_desc : length (v_desc v) = 8%nat;
  ln_avail : length (v_avail_ring v) = 8%nat;
  ln_used : length (v_used_ring v) = 8%nat;
  ln_free : length (v_free v) = 8%nat;
  ln_info : length (v_info_b v) = 8%nat;
  ln_status : length (v_info_status v) = 8%nat;
  ln_ops : length (v_ops v) = 8%nat;
  ln_bdisk : length (v_bdisk v) = Z.to_nat NBUF;
}.

(** The entries of a ring from [i] on. *)
Definition ring (r : list Z) (i : Z) (l : list req) : Prop :=
  ∀ k q, l !! k = Some q → r !! Z.to_nat ((i + Z.of_nat k) mod NUM) = Some (Z.of_nat (q_0 q)).

(** The descriptors of the outstanding requests [L], in whatever order. *)
Record base (v : vdisk) (calls : list call) (L : list req) : Prop := {
  ba_len : lengths v;
  ba_calls : calls ≡ₚ call_of <$> L;
  ba_nodup : NoDup (idxs L);
  ba_free : ∀ i, (i < 8)%nat → v_free v !! i = Some (bool_decide (i ∉ idxs L));
  ba_lt : Forall (λ i, i < 8)%nat (idxs L);
  ba_req : Forall (req_ok v) L;
  ba_bufs : NoDup (q_b <$> L);
}.

(** The requests are available ([A]), taken by the device ([T]), completed
    ([U]) or seen by the interrupt handler ([D]). *)
Record vinv (d : dst) (calls : list call) (A T U D : list req) : Prop := {
  vi_base : base (d_v d) calls (A ++ T ++ U ++ D);
  vi_busy : Forall (λ q, v_bdisk (d_v d) !! q_b q = Some true) (A ++ T ++ U);
  vi_idle : Forall (λ q, v_bdisk (d_v d) !! q_b q = Some false) D;
  vi_done : Forall (λ q, v_info_status (d_v d) !! q_0 q = Some 0) U;
  vi_seen : 0 ≤ d_seen d < 2 ^ 16 ∧ v_avail_idx (d_v d) = u16 (d_seen d + Z.of_nat (length A));
  vi_avail : ring (v_avail_ring (d_v d)) (d_seen d) A;
  vi_taken : d_taken d ≡ₚ (λ q, Z.of_nat (q_0 q)) <$> T;
  vi_uidx : 0 ≤ v_used_idx (d_v d) < 2 ^ 16 ∧ v_uidx (d_v d) = u16 (v_used_idx (d_v d) + Z.of_nat (length U));
  vi_used : ring (v_used_ring (d_v d)) (v_used_idx (d_v d)) U;
}.

(** ** Lists of requests *)

Lemma idxs_cons q L : idxs (q :: L) = q_idx q ++ idxs L.
Proof. done. Qed.
Lemma idxs_perm L L' : L ≡ₚ L' → idxs L ≡ₚ idxs L'.
Proof. intros Hp. unfold idxs. by rewrite Hp. Qed.
Lemma length_idxs L : length (idxs L) = (3 * length L)%nat.
Proof. induction L as [|q L IH]; [done|]. rewrite idxs_cons, length_app, IH. cbn. lia. Qed.
Lemma elem_of_idxs i L : i ∈ idxs L ↔ ∃ q, q ∈ L ∧ i ∈ q_idx q.
Proof. unfold idxs. rewrite list_elem_of_bind. naive_solver. Qed.

Lemma base_perm v calls L L' : L ≡ₚ L' → base v calls L → base v calls L'.
Proof.
  intros Hp [B1 B2 B3 B4 B5 B6 B7]. pose proof (idxs_perm _ _ Hp) as Hi. constructor; [done| | | | | |].
  - by rewrite B2, Hp.
  - by rewrite <-Hi.
  - intros i Hlt. rewrite B4 by done. f_equal. apply bool_decide_ext. by rewrite Hi.
  - by rewrite <-Hi.
  - by rewrite <-Hp.
  - by rewrite <-Hp.
Qed.

Lemma base_lt v calls L i : base v calls L → i ∈ idxs L → (i < 8)%nat.
Proof. intros Hb. apply (proj1 (Forall_forall _ _) (ba_lt _ _ _ Hb)). Qed.

Lemma base_few v calls L : base v calls L → (length L ≤ 2)%nat.
Proof.
  intros Hb. assert (length (idxs L) ≤ length (seq 0 8))%nat as Hl.
  { apply submseteq_length, NoDup_submseteq; [apply Hb|]. intros i Hi. apply elem_of_seq.
    pose proof (base_lt _ _ _ _ Hb Hi). lia. }
  rewrite length_idxs, length_seq in Hl. lia.
Qed.

(** ** Rings *)

Lemma u16_mod x : u16 x mod NUM = x mod NUM.
Proof. unfold u16, NUM. rewrite <-Znumtheory.Zmod_div_mod; [done|lia|lia|]. by exists (2 ^ 13). Qed.

Lemma ring_index i : (Z.to_nat (i mod NUM) < 8)%nat.
Proof. pose proof (Z.mod_pos_bound i NUM ltac:(done)). unfold NUM in *. lia. Qed.

Lemma ring_tail r i q l : ring r i (q :: l) → ring r (u16 (i + 1)) l.
Proof.
  intros Hr k q' Hk. specialize (Hr (S k) q' Hk). rewrite <-Hr. do 2 f_equal.
  rewrite <-Z.add_mod_idemp_l, u16_mod, Z.add_mod_idemp_l by done. f_equal. lia.
Qed.

Lemma used_ring_snoc r i l q :
  length r = 8%nat → (length l < 8)%nat → ring r i l →
  ring (<[Z.to_nat ((i + Z.of_nat (length l)) mod NUM) := Z.of_nat (q_0 q)]> r) i (l ++ [q]).
Proof.
  intros Hl Hn Hr k q' Hk. apply lookup_app_Some in Hk as [Hk|[Hge Hk]].
  - pose proof (lookup_lt_Some _ _ _ Hk) as Hlt. rewrite list_lookup_insert_ne; [by apply Hr|].
    pose proof (Z.mod_pos_bound (i + Z.of_nat (length l)) NUM ltac:(done)). pose proof (Z.mod_pos_bound (i + Z.of_nat k) NUM ltac:(done)).
    intros E. assert ((i + Z.of_nat (length l)) mod NUM = (i + Z.of_nat k) mod NUM) as E' by lia.
    pose proof (Z.div_mod (i + Z.of_nat (length l)) NUM ltac:(done)). pose proof (Z.div_mod (i + Z.of_nat k) NUM ltac:(done)).
    unfold NUM in *. lia.
  - apply list_lookup_singleton_Some in Hk as [Hk <-]. replace k with (length l) by lia.
    apply list_lookup_insert_eq. rewrite Hl. apply ring_index.
Qed.

(** * Steps of the device *)

Lemma req_chain v q :
  req_ok v q → chain v (Z.of_nat (q_0 q)) = Some (Blk (q_b q) (q_w q) (2 * q_n q) BSIZE (q_0 q)).
Proof.
  intros [Hd Ho _ _]. unfold req_desc in Hd. rewrite !Forall_cons in Hd. destruct Hd as (H0 & H1 & H2 & _). cbn [fst snd] in *.
  unfold chain. destruct (Z.ltb_spec (Z.of_nat (q_0 q)) 0); [lia|]. rewrite Nat2Z.id, H0. cbn [mbind option_bind d_next].
  rewrite Nat2Z.id, H1. cbn [mbind option_bind d_next]. rewrite Nat2Z.id, H2. cbn [mbind option_bind d_addr]. rewrite Ho.
  cbn [mbind option_bind]. by destruct (q_w q).
Qed.

Lemma vinv_take d calls A T U D h :
  vinv d calls A T U D → d_seen d ≠ v_avail_idx (d_v d) →
  v_avail_ring (d_v d) !! Z.to_nat (d_seen d mod NUM) = Some h →
  ∃ q A', A = q :: A' ∧ h = Z.of_nat (q_0 q) ∧
    vinv (Dst (d_v d) (u16 (d_seen d + 1)) (h :: d_taken d) (d_disk d) (d_buf d)) calls A' (q :: T) U D.
Proof.
  intros [V1 V2 V3 V4 [V5 V6] V7 V8 V9 V10] Hn Hh. destruct A as [|q A].
  { cbn in V6. rewrite Z.add_0_r, u16_small in V6 by done. congruence. }
  exists q, A. pose proof (V7 0%nat q eq_refl) as Hq. cbn in Hq. rewrite Z.add_0_r, Hh in Hq. injection Hq as ->.
  split_and!; [done|done|].
  assert (A ++ (q :: T) ++ U ++ D ≡ₚ (q :: A) ++ T ++ U ++ D) as Hp by (cbn; symmetry; apply Permutation_middle).
  constructor; cbn [d_v d_seen d_taken d_disk d_buf]; try done.
  - by eapply base_perm.
  - assert (A ++ (q :: T) ++ U ≡ₚ (q :: A) ++ T ++ U) as -> by (cbn; symmetry; apply Permutation_middle). done.
  - split; [apply u16_range|]. rewrite V6. cbn [length]. unfold u16. rewrite Zplus_mod_idemp_l. f_equal. lia.
  - by eapply ring_tail.
  - cbn. by rewrite V8.
Qed.

Lemma base_ext v v' calls L :
  lengths v' → v_free v' = v_free v → v_desc v' = v_desc v → v_ops v' = v_ops v → v_info_b v' = v_info_b v →
  base v calls L → base v' calls L.
Proof.
  intros Hl Ef Ed Eo Ei [B1 B2 B3 B4 B5 B6 B7]. constructor; try done; [by rewrite Ef|].
  eapply Forall_impl; [exact B6|]. intros q [R1 R2 R3 R4]. constructor; by rewrite ?Ed, ?Eo, ?Ei.
Qed.

Lemma vinv_complete d calls A T U D h l1 l2 k disk buf :
  vinv d calls A T U D → d_taken d = l1 ++ h :: l2 → chain (d_v d) h = Some k →
  ∃ q T', T ≡ₚ q :: T' ∧ k = Blk (q_b q) (q_w q) (2 * q_n q) BSIZE (q_0 q) ∧
    vinv (Dst (complete h k (d_v d)) (d_seen d) (l1 ++ l2) disk buf) calls A T' (U ++ [q]) D.
Proof.
  intros [V1 V2 V3 V4 V5 V6 V7 [V8 V9] V10] Htk Hk. pose proof (base_few _ _ _ V1) as Hfew. rewrite !length_app in Hfew.
  assert (∃ q T', h = Z.of_nat (q_0 q) ∧ T ≡ₚ q :: T') as (q & T' & -> & HT).
  { assert (h ∈ (λ q, Z.of_nat (q_0 q)) <$> T) as Hin by (rewrite <-V7, Htk; set_solver).
    apply list_elem_of_fmap in Hin as (q & -> & Hq). apply elem_of_Permutation in Hq as [T' HT]. by exists q, T'. }
  assert (A ++ T' ++ (U ++ [q]) ++ D ≡ₚ A ++ T ++ U ++ D) as Hp by (rewrite HT; solve_Permutation).
  assert (req_ok (d_v d) q) as Hq.
  { apply (proj1 (Forall_forall _ _) (ba_req _ _ _ V1)). rewrite HT. set_solver. }
  rewrite (req_chain _ _ Hq) in Hk. injection Hk as <-. exists q, T'. split_and!; [done|done|].
  assert (q_0 q < 8)%nat as Hq8.
  { eapply base_lt; [exact V1|]. apply elem_of_idxs. exists q. split; [rewrite HT; set_solver|set_solver]. }
  pose proof (ba_len _ _ _ V1) as [L1 L2 L3 L4 L5 L6 L7 L8].
  constructor; cbn [d_v d_seen d_taken d_disk d_buf complete]; try done.
  - eapply base_perm; [symmetry; exact Hp|]. eapply base_ext; [..|exact V1]; try done.
    constructor; cbn; rewrite ?length_insert; done.
  - cbn. assert (A ++ T' ++ U ++ [q] ≡ₚ A ++ T ++ U) as -> by (rewrite HT; solve_Permutation). done.
  - cbn. apply Forall_app. split; [|constructor; [|done]].
    + eapply Forall_impl; [exact V4|]. cbn. intros q' Hq'. destruct (decide (q_0 q' = q_0 q)) as [->|Hne].
      * apply list_lookup_insert_eq. lia.
      * by rewrite list_lookup_insert_ne.
    + apply list_lookup_insert_eq. lia.
  - rewrite Htk in V7. rewrite <-Permutation_middle, HT in V7. by apply Permutation_cons_inv in V7.
  - cbn. split; [done|]. rewrite V9, length_app. cbn. unfold u16. rewrite Zplus_mod_idemp_l. f_equal. lia.
  - cbn. rewrite V9, u16_mod. apply used_ring_snoc; [done|lia|done].
Qed.

(** * The interrupt handler *)

Lemma rd_run {A} (f : vdisk → list A) v i x : f v !! i = Some x → rd f (Z.of_nat i) v = Ok (x, v).
Proof. intros Hx. unfold rd. destruct (Z.leb_spec 0 (Z.of_nat i)); [|lia]. by rewrite Nat2Z.id, Hx. Qed.
Lemma wr_run {A} (f : vdisk → list A) set v i x :
  (i < length (f v))%nat → wr f set (Z.of_nat i) x v = Ok (tt, set (<[i := x]> (f v)) v).
Proof.
  intros Hi. unfold wr. destruct (Z.leb_spec 0 (Z.of_nat i)); [|lia]. rewrite Nat2Z.id.
  destruct (Nat.ltb_spec i (length (f v))); [done|lia].
Qed.

Lemma bind_wr {A B} (f : vdisk → list A) set v i x (k : M vdisk B) :
  (i < length (f v))%nat → (wr f set (Z.of_nat i) x ;; k) v = k (set (<[i := x]> (f v)) v).
Proof. intros Hi. by rewrite (bind_Ok_1 _ _ _ _ _ (wr_run f set v i x Hi)). Qed.

Lemma Zmod_nat i : i mod NUM = Z.of_nat (Z.to_nat (i mod NUM)).
Proof. pose proof (Z.mod_pos_bound i NUM ltac:(done)). unfold NUM in *. lia. Qed.

Lemma vdisk_intr_step d calls A T q U D :
  vinv d calls A T (q :: U) D →
  ∃ v', virtio_disk_intr_body tt (d_v d) = Ok (inl tt, v') ∧ v_uidx v' = v_uidx (d_v d) ∧
    vinv (set_v v' d) calls A T U (q :: D).
Proof.
  intros [V1 V2 V3 V4 V5 V6 V7 [V8 V9] V10]. pose proof (base_few _ _ _ V1) as Hfew. rewrite !length_app in Hfew. cbn in Hfew.
  assert (req_ok (d_v d) q) as [_ _ Hinfo Hqb] by (apply (proj1 (Forall_forall _ _) (ba_req _ _ _ V1)); set_solver).
  pose proof (ba_len _ _ _ V1) as [L1 L2 L3 L4 L5 L6 L7 L8].
  assert (v_used_idx (d_v d) ≠ v_uidx (d_v d)) as Hne.
  { rewrite V9. intros E. unfold u16 in E. rewrite <-(Z.mod_small (v_used_idx (d_v d)) (2 ^ 16)) in E at 1 by done.
    cbn [length] in E. assert (length U ≤ 2)%nat by lia.
    destruct (decide (v_used_idx (d_v d) + Z.of_nat (S (length U)) < 2 ^ 16)).
    - rewrite !Z.mod_small in E by lia. lia.
    - replace (v_used_idx (d_v d) + Z.of_nat (S (length U))) with (v_used_idx (d_v d) + Z.of_nat (S (length U)) - 2 ^ 16 + 1 * 2 ^ 16) in E by lia.
      rewrite Z.mod_add, !Z.mod_small in E by lia. lia. }
  unfold virtio_disk_intr_body. rewrite !bind_gets. destruct (Z.eqb_spec (v_used_idx (d_v d)) (v_uidx (d_v d))); [done|].
  pose proof (V10 0%nat q eq_refl) as Hr. cbn in Hr. rewrite Z.add_0_r in Hr.
  rewrite Zmod_nat, (bind_Ok_1 _ _ _ _ _ (rd_run _ _ _ _ Hr)).
  rewrite Forall_cons in V4. destruct V4 as [Hst V4]. rewrite (bind_Ok_1 _ _ _ _ _ (rd_run _ _ _ _ Hst)). cbn [Z.eqb negb].
  rewrite (bind_Ok_1 _ _ _ _ _ (rd_run _ _ _ _ Hinfo)).
  rewrite (bind_Ok_1 _ _ _ _ _ (wr_run _ _ _ (q_b q) false ltac:(by rewrite L8))).
  eexists. split; [reflexivity|]. split; [done|].
  assert (A ++ T ++ U ++ q :: D ≡ₚ A ++ T ++ (q :: U) ++ D) as Hp by solve_Permutation.
  pose proof (ba_bufs _ _ _ V1) as Hnb. assert (∀ q', q' ∈ A ++ T ++ U ++ D → q_b q' ≠ q_b q) as Hnq.
  { assert (A ++ T ++ (q :: U) ++ D ≡ₚ q :: A ++ T ++ U ++ D) as Hp' by solve_Permutation. rewrite Hp' in Hnb. cbn in Hnb.
    apply NoDup_cons in Hnb as [Hnb _]. intros q' Hq' E. apply Hnb. rewrite <-E. apply list_elem_of_fmap. by exists q'. }
  constructor; cbn [d_v d_seen d_taken d_disk d_buf set_v set_v_used_idx set_v_wakeups set_v_bdisk]; try done.
  - eapply base_perm; [symmetry; exact Hp|]. eapply base_ext; [..|exact V1]; try done.
    constructor; cbn; rewrite ?length_insert; done.
  - cbn. apply Forall_forall. intros q' Hq'. rewrite list_lookup_insert_ne by (apply not_eq_sym, Hnq; set_solver).
    apply (proj1 (Forall_forall _ _) V2). set_solver.
  - cbn. constructor; [apply list_lookup_insert_eq; lia|]. apply Forall_forall. intros q' Hq'.
    rewrite list_lookup_insert_ne by (apply not_eq_sym, Hnq; set_solver). apply (proj1 (Forall_forall _ _) V3). set_solver.
  - cbn. split; [apply u16_range|]. rewrite V9. cbn [length]. unfold u16. rewrite Zplus_mod_idemp_l. f_equal. lia.
  - cbn. by eapply ring_tail.
Qed.

Lemma intr_loop U : ∀ d calls A T D fuel,
  vinv d calls A T U D → (length U < fuel)%nat →
  ∃ v', loop fuel virtio_disk_intr_body tt (d_v d) = Ok (tt, v') ∧ vinv (set_v v' d) calls A T [] (rev U ++ D).
Proof.
  induction U as [|q U IH]; intros d calls A T D fuel Hv Hf; (destruct fuel as [|fuel]; [cbn in Hf; lia|]).
  - destruct Hv as [V1 V2 V3 V4 V5 V6 V7 [V8 V9] V10]. exists (d_v d). split; [|by destruct d].
    apply loop_done. unfold virtio_disk_intr_body. rewrite !bind_gets. cbn in V9. rewrite Z.add_0_r, u16_small in V9 by done.
    by rewrite V9, Z.eqb_refl.
  - destruct (vdisk_intr_step _ _ _ _ _ _ _ Hv) as (v1 & Hrun & _ & Hv1). cbn in Hf.
    destruct (IH (set_v v1 d) calls A T (q :: D) fuel Hv1 ltac:(lia)) as (v2 & Hrun2 & Hv2).
    exists v2. split; [by rewrite (loop_step _ _ _ _ _ _ Hrun)|]. cbn [rev]. by rewrite <-app_assoc.
Qed.

Lemma intr_run d calls A T U D :
  vinv d calls A T U D →
  ∃ v', virtio_disk_intr (d_v d) = Ok (tt, v') ∧ vinv (set_v v' d) calls A T [] (rev U ++ D).
Proof.
  intros Hv. unfold virtio_disk_intr. rewrite !bind_gets. apply intr_loop; [done|].
  destruct (vi_uidx _ _ _ _ _ _ Hv) as [Hu ->]. pose proof (base_few _ _ _ (vi_base _ _ _ _ _ _ Hv)) as Hfew.
  rewrite !length_app in Hfew. unfold u16. rewrite Zminus_mod_idemp_l, Z.add_simpl_l, Z.mod_small by lia. lia.
Qed.

(** * Descriptors *)

Lemma first_free_spec l : ∀ j, match first_free l j with
  | Some i => (j ≤ i)%nat ∧ l !! (i - j)%nat = Some true
  | None => Forall (λ f, f = false) l
  end.
Proof.
  induction l as [|f l IH]; intros j; cbn; [done|]. destruct f; [by rewrite Nat.sub_diag|]. specialize (IH (S j)).
  destruct (first_free l (S j)) as [i|]; [|by constructor]. destruct IH as [Hle Hi]. split; [lia|].
  by replace (i - j)%nat with (S (i - S j)) by lia.
Qed.

Lemma alloc_desc_run v :
  (∃ i, v_free v !! i = Some true ∧ alloc_desc v = Ok (Z.of_nat i, set_v_free (<[i := false]> (v_free v)) v)) ∨
  alloc_desc v = Ok (-1, v).
Proof.
  unfold alloc_desc. rewrite bind_gets. pose proof (first_free_spec (v_free v) 0) as Hf.
  destruct (first_free (v_free v) 0) as [i|]; [left|by right]. destruct Hf as [_ Hi]. rewrite Nat.sub_0_r in Hi.
  exists i. split; [done|]. by rewrite (bind_Ok_1 _ _ _ _ _ (wr_run _ _ _ i false (lookup_lt_Some _ _ _ Hi))).
Qed.

Definition freed (i : nat) (v : vdisk) : vdisk :=
  set_v_wakeups (free_chan :: v_wakeups v)
    (set_v_free (<[i := true]> (v_free v)) (set_v_desc (<[i := desc0]> (v_desc v)) v)).

Lemma free_desc_run v i : lengths v → v_free v !! i = Some false → free_desc (Z.of_nat i) v = Ok (tt, freed i v).
Proof.
  intros Hl Hi. pose proof (lookup_lt_Some _ _ _ Hi) as Hlt. destruct Hl as [L1 _ _ L4 _ _ _ _]. rewrite L4 in Hlt.
  unfold free_desc. destruct (Z.leb_spec NUM (Z.of_nat i)); [unfold NUM in *; lia|].
  rewrite (bind_Ok_1 _ _ _ _ _ (rd_run _ _ _ _ Hi)).
  rewrite bind_wr by lia. rewrite bind_wr by (cbn; lia). done.
Qed.

Lemma lengths_free v l : length l = 8%nat → lengths v → lengths (set_v_free l v).
Proof. intros Hl [L1 L2 L3 L4 L5 L6 L7 L8]. by constructor. Qed.
Lemma lengths_freed v i : lengths v → lengths (freed i v).
Proof. intros [L1 L2 L3 L4 L5 L6 L7 L8]. constructor; cbn; rewrite ?length_insert; done. Qed.

(** [alloc3_desc] takes three free descriptors, or gives back those it took. *)
Record gave_back (v v' : vdisk) : Prop := {
  gb_desc : length (v_desc v') = 8%nat ∧ ∀ i, v_free v !! i = Some false → v_desc v' !! i = v_desc v !! i;
  gb_free : v_free v' = v_free v;
  gb_avail : v_avail_idx v' = v_avail_idx v ∧ v_avail_ring v' = v_avail_ring v;
  gb_used : v_uidx v' = v_uidx v ∧ v_used_ring v' = v_used_ring v ∧ v_used_idx v' = v_used_idx v;
  gb_info : v_info_b v' = v_info_b v ∧ v_info_status v' = v_info_status v;
  gb_rest : v_ops v' = v_ops v ∧ v_bdisk v' = v_bdisk v;
}.

Lemma gave_back_1 v i : lengths v → v_free v !! i = Some true → gave_back v (freed i (set_v_free (<[i := false]> (v_free v)) v)).
Proof.
  intros [L1 L2 L3 L4 L5 L6 L7 L8] Hi. constructor; try done; cbn.
  - rewrite length_insert. split; [done|]. intros j Hj. rewrite list_lookup_insert_ne; [done|]. intros ->. congruence.
  - rewrite list_insert_insert_eq. by apply list_insert_id.
Qed.

Lemma gave_back_2 v i j :
  lengths v → v_free v !! i = Some true → v_free v !! j = Some true → i ≠ j →
  gave_back v (freed j (freed i (set_v_free (<[j := false]> (<[i := false]> (v_free v))) v))).
Proof.
  intros [L1 L2 L3 L4 L5 L6 L7 L8] Hi Hj Hij. constructor; try done; cbn.
  - rewrite !length_insert. split; [done|]. intros k Hk. rewrite !list_lookup_insert_ne; [done|..]; intros ->; congruence.
  - apply list_eq. intros k. pose proof (lookup_lt_Some _ _ _ Hi). pose proof (lookup_lt_Some _ _ _ Hj).
    destruct (decide (k = j)) as [->|]; [by rewrite list_lookup_insert_eq by (by rewrite !length_insert)|].
    destruct (decide (k = i)) as [->|]; [by rewrite list_lookup_insert_ne, list_lookup_insert_eq by (by rewrite ?length_insert)|].
    by rewrite !list_lookup_insert_ne.
Qed.

Lemma alloc3_run v :
  lengths v →
  (∃ i0 i1 i2, NoDup [i0; i1; i2] ∧ Forall (λ i, v_free v !! i = Some true) [i0; i1; i2] ∧
     alloc3_desc v = Ok (Some (Z.of_nat i0, Z.of_nat i1, Z.of_nat i2),
       set_v_free (<[i2 := false]> (<[i1 := false]> (<[i0 := false]> (v_free v)))) v)) ∨
  ∃ v', alloc3_desc v = Ok (None, v') ∧ (v' = v ∨ gave_back v v').
Proof.
  intros Hl. unfold alloc3_desc. destruct (alloc_desc_run v) as [(i0 & F0 & R0)|R0]; rewrite (bind_Ok_1 _ _ _ _ _ R0).
  2: { right. exists v. split; [done|by left]. }
  destruct (Z.ltb_spec (Z.of_nat i0) 0); [lia|]. set (v0 := set_v_free _ v).
  assert (lengths v0) as Hl0 by (apply lengths_free; [rewrite length_insert; apply Hl|done]).
  assert ((i0 < length (v_free v))%nat) as Hi0 by (by apply lookup_lt_Some in F0).
  destruct (alloc_desc_run v0) as [(i1 & F1 & R1)|R1]; rewrite (bind_Ok_1 _ _ _ _ _ R1).
  2: { right. cbn [Z.ltb Z.compare]. rewrite (bind_Ok_1 _ _ _ _ _ (free_desc_run v0 i0 Hl0 ltac:(by apply list_lookup_insert_eq))).
       eexists. split; [reflexivity|]. right. by apply gave_back_1. }
  destruct (Z.ltb_spec (Z.of_nat i1) 0); [lia|]. cbn [v0 v_free set_v_free] in F1.
  apply list_lookup_insert_Some in F1 as [(_ & ? & _)|[Hne1 F1]]; [done|].
  assert ((i1 < length (v_free v))%nat) as Hi1 by (by apply lookup_lt_Some in F1).
  set (v1 := set_v_free _ v0). assert (lengths v1) as Hl1.
  { apply lengths_free; [cbn; rewrite !length_insert; apply Hl|done]. }
  destruct (alloc_desc_run v1) as [(i2 & F2 & R2)|R2]; rewrite (bind_Ok_1 _ _ _ _ _ R2).
  2: { right. cbn [Z.ltb Z.compare].
       rewrite (bind_Ok_1 _ _ _ _ _ (free_desc_run v1 i0 Hl1 ltac:(cbn; rewrite list_lookup_insert_ne by done; by apply list_lookup_insert_eq))).
       rewrite (bind_Ok_1 _ _ _ _ _ (free_desc_run (freed i0 v1) i1 (lengths_freed _ _ Hl1)
         ltac:(cbn; rewrite list_lookup_insert_ne by done; apply list_lookup_insert_eq; by rewrite length_insert))).
       eexists. split; [reflexivity|]. right. by apply gave_back_2. }
  destruct (Z.ltb_spec (Z.of_nat i2) 0); [lia|]. cbn [v1 v0 v_free set_v_free] in F2.
  apply list_lookup_insert_Some in F2 as [(_ & ? & _)|[Hne2 F2]]; [done|].
  apply list_lookup_insert_Some in F2 as [(_ & ? & _)|[Hne3 F2]]; [done|].
  left. exists i0, i1, i2. split_and!; [|by repeat constructor|done].
  apply NoDup_cons. split; [set_solver|]. apply NoDup_cons. split; [set_solver|]. apply NoDup_singleton.
Qed.

Lemma req_ok_frame v v' q :
  (∀ i, i ∈ q_idx q → v_desc v' !! i = v_desc v !! i) → v_ops v' !! q_0 q = v_ops v !! q_0 q →
  v_info_b v' !! q_0 q = v_info_b v !! q_0 q → req_ok v q → req_ok v' q.
Proof.
  intros Hd Ho Hi [R1 R2 R3 R4]. constructor; [|by rewrite Ho|by rewrite Hi|done].
  unfold req_desc in *. rewrite !Forall_cons in *. cbn [fst snd] in *. rewrite !Hd by (unfold q_idx; set_solver). destruct R1 as (? & ? & ? & _). by split_and!.
Qed.

(** The state of the driver after a submission. *)
Definition submitted (q : req) (v : vdisk) : vdisk :=
  set_v_avail_idx (u16 (v_avail_idx v + 1))
   (set_v_avail_ring (<[Z.to_nat (v_avail_idx v mod NUM) := Z.of_nat (q_0 q)]> (v_avail_ring v))
   (set_v_info_b (<[q_0 q := Some (q_b q)]> (v_info_b v))
   (set_v_bdisk (<[q_b q := true]> (v_bdisk v))
   (set_v_desc (foldl (λ l e, <[e.1 := e.2]> l) (v_desc v) (req_desc q))
   (set_v_info_status (<[q_0 q := 0xff]> (v_info_status v))
   (set_v_ops (<[q_0 q := BlkReq (if q_w q then VIRTIO_BLK_T_OUT else VIRTIO_BLK_T_IN) 0 (2 * q_n q)]> (v_ops v))
   (set_v_free (<[q_2 q := false]> (<[q_1 q := false]> (<[q_0 q := false]> (v_free v)))) v))))))).

Lemma submit_run v b n wr :
  lengths v → (b < Z.to_nat NBUF)%nat → 0 ≤ n < 2 ^ 31 →
  (∃ i0 i1 i2, let q := Req b n wr i0 i1 i2 in
     NoDup (q_idx q) ∧ Forall (λ i, v_free v !! i = Some true) (q_idx q) ∧
     rw_submit b n wr v = Ok (Return (Z.of_nat i0), submitted q v)) ∨
  ∃ v', rw_submit b n wr v = Ok (Block free_chan tt, v') ∧ (v' = v ∨ gave_back v v').
Proof.
  intros Hl Hb Hn. unfold rw_submit. cbv zeta.
  destruct (alloc3_run v Hl) as [(i0 & i1 & i2 & Hnd & Hf & R)|(v' & R & Hv')]; rewrite (bind_Ok_1 _ _ _ _ _ R).
  2: { right. by exists v'. }
  left. exists i0, i1, i2. split_and!; [done|done|]. pose proof Hf as Hf'. rewrite !Forall_cons in Hf'. destruct Hf' as (F0 & F1 & F2 & _).
  apply lookup_lt_Some in F0, F1, F2. destruct Hl as [L1 L2 L3 L4 L5 L6 L7 L8]. rewrite L4 in *.
  replace (u32 (n * (BSIZE / 512))) with (2 * n) by (change (BSIZE / 512) with 2; rewrite u32_small by lia; lia).
  rewrite !Nat2Z.id. rewrite bind_wr by (cbn; lia). rewrite bind_wr by (cbn; lia). rewrite bind_wr by (cbn; rewrite length_insert; lia).
  rewrite bind_wr by (cbn; lia). rewrite bind_wr by (cbn; rewrite !length_insert; lia). rewrite bind_wr by (cbn; lia).
  rewrite bind_wr by (cbn; lia). rewrite bind_gets, Zmod_nat. rewrite bind_wr by (cbn; rewrite L2; apply ring_index).
  done.
Qed.

Lemma base_free_idx v calls L i : base v calls L → v_free v !! i = Some true → i ∉ idxs L ∧ (i < 8)%nat.
Proof.
  intros Hb Hi. pose proof (lookup_lt_Some _ _ _ Hi) as Hlt. rewrite (ln_free _ (ba_len _ _ _ Hb)) in Hlt.
  rewrite (ba_free _ _ _ Hb) in Hi by done. injection Hi as Hi%bool_decide_eq_true. done.
Qed.

Lemma lengths_submitted q v : lengths v → lengths (submitted q v).
Proof. intros [L1 L2 L3 L4 L5 L6 L7 L8]. constructor; cbn; rewrite ?length_insert; done. Qed.

Lemma req_ok_submitted q v :
  lengths v → NoDup (q_idx q) → Forall (λ i, i < 8)%nat (q_idx q) → (q_b q < Z.to_nat NBUF)%nat → req_ok (submitted q v) q.
Proof.
  intros [L1 L2 L3 L4 L5 L6 L7 L8] Hnd Hlt Hb. unfold q_idx in *. rewrite !NoDup_cons, !not_elem_of_cons in Hnd.
  rewrite !Forall_cons in Hlt. destruct Hlt as (H0 & H1 & H2 & _), Hnd as ((N01 & N02 & _) & (N12 & _) & _).
  constructor; cbn; [|apply list_lookup_insert_eq; lia|apply list_lookup_insert_eq; lia|done].
  unfold req_desc. rewrite !Forall_cons. cbn [fst snd]. split_and!; [..|constructor].
  - rewrite !(list_lookup_insert_ne _ _ (q_0 q)) by done. apply list_lookup_insert_eq. lia.
  - rewrite (list_lookup_insert_ne _ _ (q_1 q)) by done. apply list_lookup_insert_eq. rewrite length_insert. lia.
  - apply list_lookup_insert_eq. rewrite !length_insert. lia.
Qed.

Lemma base_submit v calls L q :
  base v calls L → NoDup (q_idx q) → Forall (λ i, v_free v !! i = Some true) (q_idx q) → (q_b q < Z.to_nat NBUF)%nat →
  q_b q ∉ q_b <$> L → base (submitted q v) (call_of q :: calls) (q :: L).
Proof.
  intros Hb Hnd Hf Hqb Hn. assert (∀ i, i ∈ q_idx q → i ∉ idxs L ∧ (i < 8)%nat) as Hi.
  { intros i Hi. eapply base_free_idx; [done|]. by apply (proj1 (Forall_forall _ _) Hf). }
  destruct Hb as [B1 B2 B3 B4 B5 B6 B7]. assert (Forall (λ i, i < 8)%nat (q_idx q)) as Hlt.
  { apply Forall_forall. intros i Hii. by apply Hi. }
  constructor.
  - by apply lengths_submitted.
  - cbn. by rewrite B2.
  - rewrite idxs_cons. apply NoDup_app. split_and!; [done|by intros i Hii; apply Hi|done].
  - intros i H8. rewrite idxs_cons. cbn [submitted v_free set_v_avail_idx set_v_avail_ring set_v_info_b set_v_bdisk set_v_desc set_v_info_status set_v_ops set_v_free].
    destruct (decide (i ∈ q_idx q)) as [Hin|Hout].
    + rewrite bool_decide_eq_false_2 by set_solver. pose proof (ln_free _ B1) as Hlf. unfold q_idx in Hin.
      destruct (decide (i = q_2 q)) as [->|N2]; [apply list_lookup_insert_eq; rewrite !length_insert; lia|].
      rewrite list_lookup_insert_ne by done.
      destruct (decide (i = q_1 q)) as [->|N1]; [apply list_lookup_insert_eq; rewrite !length_insert; lia|].
      rewrite list_lookup_insert_ne by done. assert (i = q_0 q) as -> by set_solver. apply list_lookup_insert_eq. lia.
    + unfold q_idx in Hout. rewrite !list_lookup_insert_ne by set_solver. rewrite B4 by done. f_equal. apply bool_decide_ext. set_solver.
  - rewrite idxs_cons. by apply Forall_app.
  - constructor; [by apply req_ok_submitted|]. apply Forall_forall. intros q' Hq'.
    assert (∀ i, i ∈ q_idx q' → i ∉ q_idx q) as Hd.
    { intros i H1 H2. apply (Hi i H2). apply elem_of_idxs. by exists q'. }
    assert (q_0 q' ≠ q_0 q) as H0 by (intros E; apply (Hd (q_0 q')); [set_solver|rewrite E; set_solver]).
    eapply (req_ok_frame v); [..|by apply (proj1 (Forall_forall _ _) B6)]; cbn.
    + intros i H1%Hd. unfold q_idx in H1. by rewrite !list_lookup_insert_ne by set_solver.
    + by rewrite list_lookup_insert_ne.
    + by rewrite list_lookup_insert_ne.
  - cbn. by apply NoDup_cons.
Qed.

Lemma vinv_submit d calls A T U D q :
  vinv d calls A T U D → NoDup (q_idx q) → Forall (λ i, v_free (d_v d) !! i = Some true) (q_idx q) →
  (q_b q < Z.to_nat NBUF)%nat → q_b q ∉ q_b <$> A ++ T ++ U ++ D →
  vinv (set_v (submitted q (d_v d)) d) (call_of q :: calls) (A ++ [q]) T U D.
Proof.
  intros [V1 V2 V3 V4 [V5 V6] V7 V8 V9 V10] Hnd Hf Hb Hn. pose proof (base_few _ _ _ V1) as Hfew. rewrite !length_app in Hfew.
  pose proof (ba_len _ _ _ V1) as [L1 L2 L3 L4 L5 L6 L7 L8].
  assert (∀ q', q' ∈ A ++ T ++ U ++ D → q_b q' ≠ q_b q) as Hnb.
  { intros q' Hq' E. apply Hn. rewrite <-E. apply list_elem_of_fmap. by exists q'. }
  constructor; cbn [d_v d_seen d_taken d_disk d_buf set_v]; try done.
  - eapply base_perm; [|by eapply base_submit]. solve_Permutation.
  - assert ((A ++ [q]) ++ T ++ U ≡ₚ q :: A ++ T ++ U) as -> by solve_Permutation. cbn.
    constructor; [apply list_lookup_insert_eq; lia|]. apply Forall_forall. intros q' Hq'.
    rewrite list_lookup_insert_ne by (apply not_eq_sym, Hnb; set_solver). apply (proj1 (Forall_forall _ _) V2). set_solver.
  - cbn. apply Forall_forall. intros q' Hq'.
    rewrite list_lookup_insert_ne by (apply not_eq_sym, Hnb; set_solver). apply (proj1 (Forall_forall _ _) V3). set_solver.
  - cbn. apply Forall_forall. intros q' Hq'. rewrite list_lookup_insert_ne; [by apply (proj1 (Forall_forall _ _) V4)|].
    intros E. destruct (base_free_idx _ _ _ (q_0 q) V1) as [Hnot _].
    { apply (proj1 (Forall_forall _ _) Hf). set_solver. }
    apply Hnot, elem_of_idxs. exists q'. rewrite E. split; [set_solver|set_solver].
  - cbn. split; [done|]. rewrite V6, length_app. cbn. unfold u16. rewrite Zplus_mod_idemp_l. f_equal. lia.
  - cbn. rewrite V6, u16_mod. apply used_ring_snoc; [done|lia|done].
Qed.

Lemma vinv_full d calls A T U D v' :
  vinv d calls A T U D → gave_back (d_v d) v' → vinv (set_v v' d) calls A T U D.
Proof.
  intros [V1 V2 V3 V4 V5 V6 V7 V8 V9] [[G1 G2] G3 [G4 G5] (G6 & G7 & G8) [G9 G10] [G11 G12]].
  constructor; cbn [d_v d_seen d_taken d_disk d_buf set_v]; rewrite ?G4, ?G5, ?G6, ?G7, ?G8, ?G10, ?G12; try done.
  pose proof (ba_len _ _ _ V1) as [L1 L2 L3 L4 L5 L6 L7 L8]. pose proof V1 as [B1 B2 B3 B4 B5 B6 B7]. constructor; try done.
  - constructor; congruence.
  - by rewrite G3.
  - apply Forall_forall. intros q Hq. eapply (req_ok_frame (d_v d)); [|by rewrite G11|by rewrite G9|by apply (proj1 (Forall_forall _ _) B6)].
    intros i Hi. apply G2. assert (i ∈ idxs (A ++ T ++ U ++ D)) as Hin by (apply elem_of_idxs; by exists q).
    rewrite B4 by (by eapply base_lt). by rewrite bool_decide_eq_false_2 by tauto.
Qed.

(** * The return of a call *)

Lemma rw_wait_run v b (x : bool) : v_bdisk v !! b = Some x → rw_wait b v = Ok (if x then Block (buf_chan b) tt else Return tt, v).
Proof. intros Hx. unfold rw_wait. by rewrite (bind_Ok_1 _ _ _ _ _ (rd_run _ _ _ _ Hx)). Qed.

Definition finished (q : req) (v : vdisk) : vdisk :=
  freed (q_2 q) (freed (q_1 q) (freed (q_0 q) (set_v_info_b (<[q_0 q := None]> (v_info_b v)) v))).

Lemma free_chain_turn v i d :
  lengths v → v_desc v !! i = Some d → v_free v !! i = Some false →
  free_chain_body (Z.of_nat i) v = Ok (if flag d VRING_DESC_F_NEXT then inl (d_next d) else inr tt, freed i v).
Proof.
  intros Hl Hd Hf. unfold free_chain_body. rewrite (bind_Ok_1 _ _ _ _ _ (rd_run _ _ _ _ Hd)). cbv zeta.
  by rewrite (bind_Ok_1 _ _ _ _ _ (free_desc_run v i Hl Hf)).
Qed.

Lemma finish_run v q :
  lengths v → req_ok v q → NoDup (q_idx q) → Forall (λ i, v_free v !! i = Some false) (q_idx q) →
  rw_finish (Z.of_nat (q_0 q)) v = Ok (tt, finished q v).
Proof.
  intros Hl [Hd _ Hi _] Hnd Hf. unfold q_idx, req_desc in *. rewrite !NoDup_cons, !not_elem_of_cons in Hnd.
  rewrite !Forall_cons in Hf. rewrite !Forall_cons in Hd. cbn [fst snd] in Hd. destruct Hf as (F0 & F1 & F2 & _), Hd as (D0 & D1 & D2 & _).
  destruct Hnd as ((N01 & N02 & _) & (N12 & _) & _). unfold rw_finish. rewrite bind_wr by (by eapply lookup_lt_Some).
  set (v0 := set_v_info_b (<[q_0 q := None]> (v_info_b v)) v).
  assert (lengths v0) as Hl0 by (destruct Hl; constructor; cbn; rewrite ?length_insert; done).
  unfold free_chain. change (S (Z.to_nat NUM)) with (S (S (S 6))).
  rewrite (loop_step _ _ _ _ (Z.of_nat (q_1 q)) (freed (q_0 q) v0)) by (by rewrite (free_chain_turn v0 (q_0 q) _ Hl0 D0 F0)).
  pose proof (lengths_freed v0 (q_0 q) Hl0) as Hl1.
  rewrite (loop_step _ _ _ _ (Z.of_nat (q_2 q)) (freed (q_1 q) (freed (q_0 q) v0))).
  2: { erewrite free_chain_turn; [|done|cbn; rewrite list_lookup_insert_ne by done; exact D1|cbn; by rewrite list_lookup_insert_ne].
       by destruct (q_w q). }
  rewrite (loop_done _ _ _ _ tt (finished q v)); [done|].
  erewrite free_chain_turn; [|by apply lengths_freed|cbn; rewrite !list_lookup_insert_ne by done; exact D2|cbn; by rewrite !list_lookup_insert_ne].
  done.
Qed.

Lemma lengths_finished q v : lengths v → lengths (finished q v).
Proof. intros Hl. do 3 apply lengths_freed. destruct Hl. constructor; cbn; rewrite ?length_insert; done. Qed.

Lemma base_return v calls l1 l2 L q :
  base v (l1 ++ call_of q :: l2) (q :: L) → calls = l1 ++ l2 →
  rw_finish (Z.of_nat (q_0 q)) v = Ok (tt, finished q v) ∧ base (finished q v) calls L.
Proof.
  intros Hb ->. pose proof Hb as [B1 B2 B3 B4 B5 B6 B7]. rewrite idxs_cons in B3, B5. apply NoDup_app in B3 as (N1 & N2 & N3).
  apply Forall_app in B5 as [B5 B5']. apply Forall_cons in B6 as [Hq B6]. split.
  - apply finish_run; [done|done|done|]. apply Forall_forall. intros i Hi.
    rewrite B4 by (apply (proj1 (Forall_forall _ _) B5), Hi). rewrite idxs_cons. by rewrite bool_decide_eq_false_2 by set_solver.
  - constructor; [by apply lengths_finished| |done| |done| |by apply NoDup_cons in B7 as [_ B7]].
    + rewrite <-Permutation_middle in B2. cbn in B2. by apply Permutation_cons_inv in B2.
    + intros i H8. specialize (B4 i H8). rewrite idxs_cons in B4. pose proof (ln_free _ B1) as Hlf.
      unfold finished, freed. cbn [v_free set_v_wakeups set_v_free set_v_desc set_v_info_b].
      destruct (decide (i ∈ q_idx q)) as [Hin|Hout].
      * rewrite bool_decide_eq_true_2 by (by apply N2). unfold q_idx in Hin.
        destruct (decide (i = q_2 q)) as [->|Q2]; [apply list_lookup_insert_eq; rewrite !length_insert; lia|].
        rewrite list_lookup_insert_ne by done.
        destruct (decide (i = q_1 q)) as [->|Q1]; [apply list_lookup_insert_eq; rewrite !length_insert; lia|].
        rewrite list_lookup_insert_ne by done. assert (i = q_0 q) as -> by set_solver. apply list_lookup_insert_eq. lia.
      * unfold q_idx in Hout. rewrite !list_lookup_insert_ne by set_solver. rewrite B4. f_equal. apply bool_decide_ext.
        unfold q_idx. set_solver.
    + apply Forall_forall. intros q' Hq'. assert (∀ i, i ∈ q_idx q' → i ∉ q_idx q) as Hd.
      { intros i H1 H2. apply (N2 i H2). apply elem_of_idxs. by exists q'. }
      assert (q_0 q' ≠ q_0 q) as H0 by (intros E; apply (Hd (q_0 q')); [set_solver|rewrite E; set_solver]).
      eapply (req_ok_frame v); [..|by apply (proj1 (Forall_forall _ _) B6)]; cbn.
      * intros i H1%Hd. unfold q_idx in H1. by rewrite !list_lookup_insert_ne by set_solver.
      * done.
      * by rewrite list_lookup_insert_ne.
Qed.

Lemma vinv_return d l1 c l2 A T U D :
  vinv d (l1 ++ c :: l2) A T U D →
  ∃ q, q ∈ A ++ T ++ U ++ D ∧ c = call_of q ∧
    (q ∈ A ++ T ++ U → rw_wait (c_b c) (d_v d) = Ok (Block (buf_chan (c_b c)) tt, d_v d)) ∧
    (q ∈ D → rw_wait (c_b c) (d_v d) = Ok (Return tt, d_v d) ∧
      ∃ v' D', D ≡ₚ q :: D' ∧ rw_finish (c_i0 c) (d_v d) = Ok (tt, v') ∧ vinv (set_v v' d) (l1 ++ l2) A T U D').
Proof.
  intros [V1 V2 V3 V4 V5 V6 V7 V8 V9]. assert (c ∈ call_of <$> A ++ T ++ U ++ D) as Hc.
  { rewrite <-(ba_calls _ _ _ V1). set_solver. }
  apply list_elem_of_fmap in Hc as (q & -> & Hq). exists q. split_and!; [done|done| |].
  - intros Hin. apply (rw_wait_run _ _ true). by apply (proj1 (Forall_forall _ _) V2).
  - intros Hin. split; [apply (rw_wait_run _ _ false); by apply (proj1 (Forall_forall _ _) V3)|].
    pose proof Hin as [D' HD]%elem_of_Permutation.
    assert (A ++ T ++ U ++ D ≡ₚ q :: A ++ T ++ U ++ D') as Hp by (rewrite HD; solve_Permutation).
    destruct (base_return _ (l1 ++ l2) l1 l2 (A ++ T ++ U ++ D') q (base_perm _ _ _ _ Hp V1) eq_refl) as [Hrun Hb].
    exists (finished q (d_v d)), D'. split_and!; [done|done|].
    constructor; cbn [d_v d_seen d_taken d_disk d_buf set_v]; try done. cbn. rewrite HD in V3. by apply Forall_cons in V3 as [_ V3].
Qed.

(** * Simulation *)

Record sim (a : astate) (d : dst) (A T U D : list req) : Prop := {
  sm_disk : a_disk a = d_disk d;
  sm_buf : a_buf a = d_buf d;
  sm_pending : ∀ q, q ∈ A ++ T → a_req a !! q_b q = Some (q_n q, q_w q, false);
  sm_served : ∀ q, q ∈ U ++ D → a_req a !! q_b q = Some (q_n q, q_w q, true);
  sm_only : ∀ b, is_Some (a_req a !! b) → b ∈ q_b <$> A ++ T ++ U ++ D;
}.

Definition related (a : astate) (w : world) : Prop :=
  ∃ A T U D, vinv (w_d w) (w_calls w) A T U D ∧ sim a (w_d w) A T U D.

Lemma base_calls v calls L b : base v calls L → b ∈ c_b <$> calls ↔ b ∈ q_b <$> L.
Proof. intros Hb. rewrite (ba_calls _ _ _ Hb), <-list_fmap_compose. done. Qed.

Lemma sim_fresh a d A T U D b : sim a d A T U D → b ∉ q_b <$> A ++ T ++ U ++ D → a_req a !! b = None.
Proof. intros Hs Hb. apply eq_None_not_Some. intros Hsome. by apply Hb, (sm_only _ _ _ _ _ _ Hs). Qed.

Lemma related_submit a w b n wr i0 v' :
  related a w → may_submit w b n → rw_submit b n wr (w_v w) = Ok (Return i0, v') →
  ∃ a', astep a a' ∧ related a' (World (set_v v' (w_d w)) (Call b n wr i0 :: w_calls w)).
Proof.
  intros (A & T & U & D & Hv & Hs) (Hb & Hn & Hfree) Hrun. pose proof (vi_base _ _ _ _ _ _ Hv) as Hba.
  rewrite (base_calls _ _ _ _ Hba) in Hfree.
  destruct (submit_run (w_v w) b n wr (ba_len _ _ _ Hba) Hb Hn) as [(j0 & j1 & j2 & Hnd & Hf & R)|(v1 & R & _)]; [|congruence].
  rewrite R in Hrun. injection Hrun as <- <-. set (q := Req b n wr j0 j1 j2) in *.
  exists (Astate (a_disk a) (a_buf a) (<[b := (n, wr, false)]> (a_req a))).
  split; [apply astep_submit; by eapply sim_fresh|]. exists (A ++ [q]), T, U, D.
  split; [by apply (vinv_submit (w_d w) _ A T U D q)|]. destruct Hs as [S1 S2 S3 S4 S5].
  assert (∀ q', q' ∈ A ++ T ++ U ++ D → b ≠ q_b q') as Hne.
  { intros q' Hq' ->. apply Hfree, list_elem_of_fmap. by exists q'. }
  constructor; cbn; [done|done| | |].
  - intros q' Hq'. assert (q' = q ∨ q' ∈ A ++ T) as [->|Hin] by (rewrite !elem_of_app, list_elem_of_singleton in Hq'; rewrite elem_of_app; tauto).
    + by rewrite lookup_insert_eq.
    + rewrite lookup_insert_ne; [by apply S3|]. apply Hne. set_solver.
  - intros q' Hq'. rewrite lookup_insert_ne; [by apply S4|]. apply Hne. set_solver.
  - intros b' Hb'. destruct (decide (b' = b)) as [->|Hnb].
    + rewrite !fmap_app. cbn. set_solver.
    + rewrite lookup_insert_ne in Hb' by done. apply S5 in Hb'.
      assert ((A ++ [q]) ++ T ++ U ++ D ≡ₚ q :: A ++ T ++ U ++ D) as -> by solve_Permutation. cbn. rewrite elem_of_cons. by right.
Qed.

Lemma related_full a w b n wr ch v' :
  related a w → may_submit w b n → rw_submit b n wr (w_v w) = Ok (Block ch tt, v') →
  related a (World (set_v v' (w_d w)) (w_calls w)).
Proof.
  intros (A & T & U & D & Hv & Hs) (Hb & Hn & Hfree) Hrun. pose proof (vi_base _ _ _ _ _ _ Hv) as Hba.
  destruct (submit_run (w_v w) b n wr (ba_len _ _ _ Hba) Hb Hn) as [(j0 & j1 & j2 & _ & _ & R)|(v1 & R & Hv1)]; [congruence|].
  rewrite R in Hrun. injection Hrun as _ <-. exists A, T, U, D. split; [|by destruct Hs]. destruct Hv1 as [->|Hg].
  - by destruct w as [[] ?].
  - by apply vinv_full.
Qed.

(** The completion of a request is the transfer of its block. *)
Lemma related_complete a d calls A T U D q T' v' l :
  vinv d calls A T U D → sim a d A T U D → T ≡ₚ q :: T' →
  let d' := Dst v' (d_seen d) l (if q_w q then dwrite (d_disk d) (2 * q_n q) (take (Z.to_nat BSIZE) (d_buf d (q_b q))) else d_disk d)
              (if q_w q then d_buf d else <[q_b q := dread (d_disk d) (2 * q_n q) BSIZE]> (d_buf d)) in
  ∃ a', astep a a' ∧ sim a' d' A T' (U ++ [q]) D.
Proof.
  intros Hv [S1 S2 S3 S4 S5] HT d'. pose proof (ba_bufs _ _ _ (vi_base _ _ _ _ _ _ Hv)) as Hnd.
  assert (A ++ T ++ U ++ D ≡ₚ q :: A ++ T' ++ U ++ D) as Hp by (rewrite HT; solve_Permutation).
  rewrite Hp in Hnd. cbn in Hnd. apply NoDup_cons in Hnd as [Hnd _].
  assert (∀ q', q' ∈ A ++ T' ++ U ++ D → q_b q ≠ q_b q') as Hne.
  { intros q' Hq' E. apply Hnd. rewrite E. apply list_elem_of_fmap. by exists q'. }
  assert (a_req a !! q_b q = Some (q_n q, q_w q, false)) as Hq by (apply S3; rewrite HT; set_solver).
  exists (Astate (d_disk d') (d_buf d') (<[q_b q := (q_n q, q_w q, true)]> (a_req a))). split.
  - unfold d'. cbn. rewrite <-S1, <-S2. destruct (q_w q) eqn:Ew; [by apply astep_write|by apply astep_read].
  - constructor; cbn [a_disk a_buf a_req]; [done|done| | |].
    + intros q' Hq'. rewrite lookup_insert_ne by (apply Hne; set_solver). apply S3. rewrite HT. set_solver.
    + intros q' Hq'. assert (q' = q ∨ q' ∈ U ++ D) as [->|Hin].
      { rewrite !elem_of_app, list_elem_of_singleton in Hq'. rewrite elem_of_app. tauto. }
      * by rewrite lookup_insert_eq.
      * rewrite lookup_insert_ne by (apply Hne; set_solver). by apply S4.
    + intros b' Hb'. assert (A ++ T' ++ (U ++ [q]) ++ D ≡ₚ A ++ T ++ U ++ D) as -> by (rewrite HT; solve_Permutation).
      destruct (decide (b' = q_b q)) as [->|Hnb].
      * rewrite Hp. cbn. set_solver.
      * rewrite lookup_insert_ne in Hb' by done. by apply S5.
Qed.

Lemma related_device a w d' :
  related a w → serve (w_d w) d' → ∃ a', rtc astep a a' ∧ related a' (World d' (w_calls w)).
Proof.
  intros (A & T & U & D & Hv & Hs) Hd. destruct Hd as [h Hne Hh|h l1 l2 k Htk Hk|h d' Hh Hk].
  - destruct (vinv_take _ _ _ _ _ _ _ Hv Hne Hh) as (q & A' & -> & -> & Hv'). exists a. split; [done|].
    exists A', (q :: T), U, D. split; [exact Hv'|]. destruct Hs as [S1 S2 S3 S4 S5]. constructor; try done.
    + intros q' Hq'. apply S3. set_solver.
    + intros b Hb%S5. assert (A' ++ (q :: T) ++ U ++ D ≡ₚ (q :: A') ++ T ++ U ++ D) as -> by solve_Permutation. done.
  - destruct (vinv_complete _ _ _ _ _ _ h l1 l2 k (if k_out k then dwrite (d_disk (w_d w)) (k_sector k) (take (Z.to_nat (k_len k)) (d_buf (w_d w) (k_b k))) else d_disk (w_d w))
        (if k_out k then d_buf (w_d w) else <[k_b k := dread (d_disk (w_d w)) (k_sector k) (k_len k)]> (d_buf (w_d w))) Hv Htk Hk)
      as (q & T' & HT & -> & Hv').
    destruct (related_complete a _ _ _ _ _ _ q T' (complete h (Blk (q_b q) (q_w q) (2 * q_n q) BSIZE (q_0 q)) (d_v (w_d w))) (l1 ++ l2) Hv Hs HT) as (a' & Ha & Hs').
    exists a'. split; [by apply rtc_once|]. exists A, T', (U ++ [q]), D. split; [exact Hv'|exact Hs'].
  - exfalso. rewrite (vi_taken _ _ _ _ _ _ Hv) in Hh. apply list_elem_of_fmap in Hh as (q & -> & Hq).
    rewrite req_chain in Hk; [done|]. apply (proj1 (Forall_forall _ _) (ba_req _ _ _ (vi_base _ _ _ _ _ _ Hv))). set_solver.
Qed.

Lemma related_intr a w :
  related a w → ∃ v', virtio_disk_intr (w_v w) = Ok (tt, v') ∧ related a (World (set_v v' (w_d w)) (w_calls w)).
Proof.
  intros (A & T & U & D & Hv & Hs). destruct (intr_run _ _ _ _ _ _ Hv) as (v' & Hrun & Hv'). exists v'. split; [done|].
  exists A, T, [], (rev U ++ D). split; [done|]. destruct Hs as [S1 S2 S3 S4 S5].
  assert (rev U ≡ₚ U) as Hrev by (symmetry; apply Permutation_rev). constructor; try done.
  - cbn. intros q. rewrite Hrev. apply S4.
  - intros b Hb%S5. cbn. by rewrite Hrev.
Qed.

Lemma related_return a w c l1 l2 :
  related a w → w_calls w = l1 ++ c :: l2 →
  ∃ sv, a_req a !! c_b c = Some (c_n c, c_w c, sv) ∧
    ((∃ ch, rw_wait (c_b c) (w_v w) = Ok (Block ch tt, w_v w)) ∨
     sv = true ∧ rw_wait (c_b c) (w_v w) = Ok (Return tt, w_v w) ∧
     ∃ v' a', rw_finish (c_i0 c) (w_v w) = Ok (tt, v') ∧ astep a a' ∧ related a' (World (set_v v' (w_d w)) (l1 ++ l2))).
Proof.
  intros (A & T & U & D & Hv & Hs) Hc. rewrite Hc in Hv. destruct (vinv_return _ _ _ _ _ _ _ _ Hv) as (q & Hq & -> & Hblk & Hret).
  pose proof (ba_bufs _ _ _ (vi_base _ _ _ _ _ _ Hv)) as Hnd. destruct Hs as [S1 S2 S3 S4 S5].
  assert (q ∈ A ++ T ∨ q ∈ U ∨ q ∈ D) as [Hin|[Hin|Hin]] by (rewrite !elem_of_app in Hq; rewrite elem_of_app; tauto).
  - exists false. split; [by apply S3|]. left. eexists. apply Hblk. set_solver.
  - exists true. split; [apply S4; set_solver|]. left. eexists. apply Hblk. set_solver.
  - exists true. split; [apply S4; set_solver|]. right. destruct (Hret Hin) as (Hw & v' & D' & HD & Hrun & Hv').
    split_and!; [done|done|]. exists v', (Astate (a_disk a) (a_buf a) (delete (q_b q) (a_req a))). split_and!; [done| |].
    + eapply astep_return. apply S4. set_solver.
    + exists A, T, U, D'. split; [done|]. assert (A ++ T ++ U ++ D ≡ₚ q :: A ++ T ++ U ++ D') as Hp by (rewrite HD; solve_Permutation).
      rewrite Hp in Hnd. cbn in Hnd. apply NoDup_cons in Hnd as [Hnd _].
      assert (∀ q', q' ∈ A ++ T ++ U ++ D' → q_b q ≠ q_b q') as Hne.
      { intros q' Hq' E. apply Hnd. rewrite E. apply list_elem_of_fmap. by exists q'. }
      constructor; cbn [a_disk a_buf a_req]; [done|done| | |].
      * intros q' Hq'. rewrite lookup_delete_ne by (apply Hne; set_solver). by apply S3.
      * intros q' Hq'. rewrite lookup_delete_ne by (apply Hne; set_solver). apply S4. rewrite HD. set_solver.
      * intros b [Hb Hsome]%lookup_delete_is_Some. apply S5 in Hsome. rewrite Hp in Hsome. cbn in Hsome. set_solver.
Qed.

Lemma related_fill a w b data :
  related a w → b ∉ (c_b <$> w_calls w) →
  ∃ a', astep a a' ∧
    related a' (World (Dst (w_v w) (d_seen (w_d w)) (d_taken (w_d w)) (d_disk (w_d w)) (<[b := data]> (d_buf (w_d w)))) (w_calls w)).
Proof.
  intros (A & T & U & D & Hv & Hs) Hb. rewrite (base_calls _ _ _ _ (vi_base _ _ _ _ _ _ Hv)) in Hb.
  exists (Astate (a_disk a) (<[b := data]> (a_buf a)) (a_req a)). split; [apply astep_fill; by eapply sim_fresh|].
  exists A, T, U, D. split; [by destruct Hv|]. destruct Hs as [S1 S2 S3 S4 S5]. constructor; try done. cbn. by rewrite S2.
Qed.

Lemma related_init disk buf : related (ainit disk buf) (winit disk buf).
Proof.
  exists [], [], [], []. split.
  - constructor; cbn; try done. constructor; try done; [apply NoDup_nil_2| |apply NoDup_nil_2].
    intros i Hi. cbn. rewrite (lookup_replicate_2 8); [done|lia].
  - constructor; cbn; try done; [intros q Hq; by apply not_elem_of_nil in Hq..|].
    intros b [x Hx]. by rewrite lookup_empty in Hx.
Qed.

Lemma related_step (device : dst → dst → Prop) a w w' :
  (∀ d d', device d d' → serve d d') → related a w → vstep device w w' → ∃ a', rtc astep a a' ∧ related a' w'.
Proof.
  intros Hdev Hr Hs. destruct Hs as [b n wr i0 v' Hm Hrun|b n wr ch v' Hm Hrun|d' Hd|v' Hrun|c l1 l2 v1 v2 Hc Hw Hf|b data Hb].
  - destruct (related_submit _ _ _ _ _ _ _ Hr Hm Hrun) as (a' & ? & ?). exists a'. split; [by apply rtc_once|done].
  - exists a. split; [done|]. by eapply related_full.
  - eapply related_device; [done|]. by apply Hdev.
  - exists a. split; [done|]. destruct (related_intr _ _ Hr) as (v2 & Hrun2 & Hr2). rewrite Hrun in Hrun2. by injection Hrun2 as ->.
  - destruct (related_return _ _ _ _ _ Hr Hc) as (sv & _ & [[ch Hw']|(_ & Hw' & v' & a' & Hf' & Ha & Hr')]); [congruence|].
    rewrite Hw' in Hw. injection Hw as <-. rewrite Hf' in Hf. injection Hf as <-. exists a'. split; [by apply rtc_once|done].
  - destruct (related_fill _ _ _ data Hr Hb) as (a' & ? & ?). exists a'. split; [by apply rtc_once|done].
Qed.

Lemma related_reachable (device : dst → dst → Prop) w0 w a0 :
  (∀ d d', device d d' → serve d d') → rtc (vstep device) w0 w → related a0 w0 → ∃ a, rtc astep a0 a ∧ related a w.
Proof.
  intros Hdev Hrun. revert a0. induction Hrun as [w|w0 w1 w Hs _ IH]; intros a0 Hr; [by exists a0|].
  destruct (related_step device _ _ _ Hdev Hr Hs) as (a1 & Ha1 & Hr1). destruct (IH a1 Hr1) as (a & Ha & Hra).
  exists a. split; [by transitivity a1|done].
Qed.


(** A read of block 3 into buffer 0. *)
Module ReadThree.
Definition disk (o : Z) : Z := o mod 251.
Definition empty_bufs (b : nat) : list Z := [].
Definition v1 : vdisk := Eval vm_compute in match rw_submit 0 3 false vdisk0 with Ok (_, v) => v | _ => vdisk0 end.
Definition d2 : dst := Dst v1 1 [0] disk empty_bufs.
Definition d3 : dst := Dst (complete 0 (Blk 0 false 6 BSIZE 0) v1) 1 [] disk (<[0%nat := dread disk 6 BSIZE]> empty_bufs).
Definition w3 : world := World d3 [Call 0 3 false 0].

Definition d1 : dst := Dst v1 0 [] disk empty_bufs.

Lemma submit : vstep serve (winit disk empty_bufs) (World d1 [Call 0 3 false 0]).
Proof.
  exact (vstep_submit serve (winit disk empty_bufs) 0 3 false 0 v1 ltac:(split_and!; [vm_compute; lia|done|done|by apply not_elem_of_nil])
    ltac:(vm_compute; reflexivity)).
Qed.

Lemma take : serve d1 d2.
Proof. exact (serve_take d1 0 ltac:(vm_compute; congruence) ltac:(vm_compute; reflexivity)). Qed.

Lemma transfer : serve d2 d3.
Proof. exact (serve_done d2 0 [] [] (Blk 0 false 6 BSIZE 0) eq_refl ltac:(vm_compute; reflexivity)). Qed.

Lemma run : rtc (vstep serve) (winit disk empty_bufs) w3.
Proof.
  eapply rtc_l; [exact submit|]. eapply rtc_l; [apply vstep_device, take|]. eapply rtc_l; [apply vstep_device, transfer|].
  apply rtc_refl.
Qed.

End ReadThree.
