(* ===== verification/FsSpec.v ===== *)
(** The block allocator of the file system: [balloc] hands out the lowest free
    block, zeroed, and [bfree] gives it back.  Stated on the contents [m] of the
    disk blocks in a transaction (see {!LogSpec}). *)

From stdpp Require Import functions.
From S2P Require Import Prelude Riscv Mem Str Kalloc Vm State Sched SchedSpec Procmem Console ConsoleSpec Sleeplock Bio BioSpec Cache Block Log LogSpec Fs.

Lemma did_sb me ws s s' : did me ws s s' → k_sb s' = k_sb s.
Proof. intros (E & _). by rewrite E. Qed.
Lemma did_inode me ws s s' : did me ws s s' → k_inode s' = k_inode s.
Proof. intros (E & _). by rewrite E. Qed.

Lemma size_union_le (x : Z) (pins : gset Z) : (size ({[x]} ∪ pins) ≤ S (size pins))%nat.
Proof. rewrite size_union_alt, size_singleton. pose proof (subseteq_size (pins ∖ {[x]}) pins ltac:(set_solver)). lia. Qed.

Lemma quiet_balloc_msg : quiet (printf (str "balloc: out of blocks" ++ [10]) []).
Proof. quiet_fmt. Qed.

(** * Bits *)

(** The bit of block [b] in the bitmap. *)
Definition bit (d : block) (bi : Z) : bool := Z.testbit (data_at d (bi / 8)) (bi mod 8).
Definition set_bit (bi : Z) (d : block) : block :=
  set_data_at (bi / 8) (Z.lor (data_at d (bi / 8)) (Z.shiftl 1 (bi mod 8))) d.
Definition clear_bit (bi : Z) (d : block) : block :=
  set_data_at (bi / 8) (Z.land (data_at d (bi / 8)) (Z.lnot (Z.shiftl 1 (bi mod 8)))) d.

Definition is_block (d : block) : Prop := length d = Z.to_nat BSIZE ∧ bytes d.

Lemma mask_bit d bi : (Z.land (data_at d (bi / 8)) (Z.shiftl 1 (bi mod 8)) =? 0) = negb (bit d bi).
Proof.
  unfold bit. rewrite Z.shiftl_1_l. apply land_pow2_eqb. apply Z.mod_pos_bound. lia.
Qed.

Lemma data_at_byte d i : bytes d → 0 ≤ data_at d i < 256.
Proof.
  intros Hb. unfold data_at. destruct (d !! Z.to_nat i) as [c|] eqn:E; cbn; [|lia].
  unfold bytes in Hb. rewrite Forall_lookup in Hb. by eapply Hb.
Qed.

Lemma data_at_set d i j v :
  is_block d → 0 ≤ i < BSIZE → 0 ≤ j → data_at (set_data_at i v d) j = if decide (i = j) then u8 v else data_at d j.
Proof.
  intros [Hl _] Hi Hj. unfold data_at, set_data_at. case_decide as E.
  - subst. rewrite list_lookup_insert_eq; [done|]. rewrite Hl. unfold BSIZE in *. lia.
  - rewrite list_lookup_insert_ne; [done|]. lia.
Qed.

Lemma is_block_set d i v : is_block d → is_block (set_data_at i v d).
Proof.
  intros [Hl Hb]. split; [unfold set_data_at; by rewrite length_insert|].
  unfold bytes, set_data_at. apply Forall_insert; [done|]. apply u8_range.
Qed.

Lemma u8_testbit v k : 0 ≤ k < 8 → Z.testbit (u8 v) k = Z.testbit v k.
Proof. intros Hk. unfold u8. apply Z.mod_pow2_bits_low. lia. Qed.

Lemma bit_pos bi bi' : 0 ≤ bi → 0 ≤ bi' → bi / 8 = bi' / 8 → bi mod 8 = bi' mod 8 → bi = bi'.
Proof. intros H1 H2 Hd Hm. rewrite (Z.div_mod bi 8), (Z.div_mod bi' 8) by lia. by rewrite Hd, Hm. Qed.

Lemma bit_set d bi bi' :
  is_block d → 0 ≤ bi < BPB → 0 ≤ bi' < BPB → bit (set_bit bi d) bi' = if decide (bi = bi') then true else bit d bi'.
Proof.
  intros Hd Hb Hb'. unfold bit, set_bit. unfold BPB, BSIZE in *.
  pose proof (Z.mod_pos_bound bi 8 ltac:(lia)). pose proof (Z.mod_pos_bound bi' 8 ltac:(lia)).
  rewrite data_at_set by (done || unfold BSIZE; lia || (apply Z.div_pos; lia) || (split; [apply Z.div_pos; lia|apply Z.div_lt_upper_bound; unfold BSIZE; lia])).
  case_decide as E.
  - rewrite u8_testbit, Z.lor_spec, Z.shiftl_1_l, Z.pow2_bits_eqb by lia. rewrite E.
    destruct (Z.eqb_spec (bi mod 8) (bi' mod 8)) as [Em|Em].
    + rewrite orb_true_r, decide_True; [done|]. by apply bit_pos; [lia|lia| |].
    + rewrite orb_false_r, decide_False; [done|]. by intros ->.
  - rewrite decide_False; [done|]. by intros ->.
Qed.

Lemma bit_clear d bi bi' :
  is_block d → 0 ≤ bi < BPB → 0 ≤ bi' < BPB → bit (clear_bit bi d) bi' = if decide (bi = bi') then false else bit d bi'.
Proof.
  intros Hd Hb Hb'. unfold bit, clear_bit. unfold BPB, BSIZE in *.
  pose proof (Z.mod_pos_bound bi 8 ltac:(lia)). pose proof (Z.mod_pos_bound bi' 8 ltac:(lia)).
  rewrite data_at_set by (done || unfold BSIZE; lia || (apply Z.div_pos; lia) || (split; [apply Z.div_pos; lia|apply Z.div_lt_upper_bound; unfold BSIZE; lia])).
  case_decide as E.
  - rewrite u8_testbit, Z.land_spec, Z.lnot_spec, Z.shiftl_1_l, Z.pow2_bits_eqb by lia. rewrite E.
    destruct (Z.eqb_spec (bi mod 8) (bi' mod 8)) as [Em|Em]; cbn [negb].
    + rewrite andb_false_r, decide_True; [done|]. by apply bit_pos; [lia|lia| |].
    + rewrite andb_true_r, decide_False; [done|]. by intros ->.
  - rewrite decide_False; [done|]. by intros ->.
Qed.

(** Freeing what was allocated gives the bitmap back. *)
Lemma clear_set_bit d bi bi' :
  is_block d → 0 ≤ bi < BPB → 0 ≤ bi' < BPB → bit d bi = false → bit (clear_bit bi (set_bit bi d)) bi' = bit d bi'.
Proof.
  intros Hd Hb Hb' Hf. assert (is_block (set_bit bi d)) as Hd' by (by apply is_block_set).
  rewrite bit_clear, bit_set by done. case_decide; [subst|]; done.
Qed.

(** * Blocks in a transaction *)

Section fs.
Context (me : nat) (start : Z).

Abbreviation txn := (txn me start).
Abbreviation did := (did me []).

Lemma txn_log s s' pins m held pins' m' held' :
  k_log s' = k_log s → pins' = pins → txn s pins m held → cinv me s' pins' m' held' → txn s' pins' m' held'.
Proof. intros El -> (_ & Hl & Ho & Hc & Hlay) Hc'. rewrite <-El in Hl, Ho, Hc. by split_and!. Qed.

Lemma bread_txn s pins m held bn :
  txn s pins m held → not_held held bn → bn ∈ pins ∨ (size pins + size held < Z.to_nat NBUF)%nat →
  wp (bread me ROOTDEV bn) s
    (λ i s', held !! i = None ∧ txn s' pins m (<[i := (bn, m bn)]> held) ∧ did s s').
Proof.
  intros Ht Hn Hs. eapply wp_mono; [eapply bread_did; [apply Ht|done|done]|].
  cbv beta. intros i s' (Hi & Hc & Hd & El). split_and!; [done|by eapply txn_log|done].
Qed.

Lemma brelse_txn s pins m held i bn :
  txn s pins m held → held !! i = Some (bn, m bn) →
  wp (brelse me i) s (λ _ s', txn s' pins m (delete i held) ∧ did s s').
Proof.
  intros Ht Hh. eapply wp_mono; [eapply brelse_did; [apply Ht|done]|].
  cbv beta. intros [] s' (Hc & Hd & El). split; [by eapply txn_log|done].
Qed.

Lemma upd_data_txn s pins m held i bn d g :
  txn s pins m held → held !! i = Some (bn, d) →
  wp (upd_data i g) s (λ _ s', txn s' pins m (<[i := (bn, g d)]> held) ∧ did s s').
Proof.
  intros Ht Hh. eapply wp_mono; [eapply upd_data_did; [apply Ht|done]|].
  cbv beta. intros [] s' (Hc & Hd & El). split; [by eapply txn_log|done].
Qed.

Lemma buf_data_txn s pins m held i bn d :
  txn s pins m held → held !! i = Some (bn, d) → wp (buf_data i) s (λ x s', s' = s ∧ x = d).
Proof.
  intros Ht Hh. unfold buf_data. apply wp_bind. eapply wp_mono; [eapply get_buf_wp; [apply Ht|done]|].
  cbv beta. intros x s' (-> & Hx & _). apply wp_ret. done.
Qed.

Lemma log_write_txn s pins m held i bn d :
  txn s pins m held → held !! i = Some (bn, d) → 0 ≤ bn < 2 ^ 31 → home start bn →
  (size pins < Z.to_nat LOGBLOCKS)%nat →
  wp (log_write i) s (λ _ s', txn s' ({[bn]} ∪ pins) (<[bn := d]> m) held ∧ did s s').
Proof.
  intros Ht Hh Hr Hm Hs. eapply wp_mono; [by eapply log_write_wp|]. cbv beta. intros [] s' (? & ? & _). done.
Qed.

Lemma did_t s1 s2 s3 : did s1 s2 → did s2 s3 → did s1 s3.
Proof. apply did_trans_nil. Qed.

Lemma held_back (held : gmap nat (Z * block)) i x : held !! i = None → delete i (<[i := x]> held) = held.
Proof. apply delete_insert_id. Qed.

(** Logging and releasing a block that has been changed. *)
Lemma write_back_wp s pins m held i bn d :
  txn s pins m (<[i := (bn, d)]> held) → held !! i = None → 0 ≤ bn < 2 ^ 31 → home start bn →
  (size pins < Z.to_nat LOGBLOCKS)%nat →
  wp (log_write i ;; brelse me i) s (λ _ s', txn s' ({[bn]} ∪ pins) (<[bn := d]> m) held ∧ did s s').
Proof.
  intros Ht Hh Hr Hm Hs. apply wp_bind. eapply wp_mono; [eapply log_write_txn; [done|apply lookup_insert_eq|done..]|].
  cbv beta. intros [] s1 [Ht1 Hd1].
  eapply wp_mono; [eapply brelse_txn; [done|rewrite fn_lookup_insert; apply lookup_insert_eq]|].
  cbv beta. intros [] s2 [Ht2 Hd2]. rewrite held_back in Ht2 by done. split; [done|by eapply did_t].
Qed.

(** Reading a block, changing it and writing it back. *)
Lemma rmw_wp s pins m held bn g :
  txn s pins m held → not_held held bn → 0 ≤ bn < 2 ^ 31 → home start bn →
  (size pins + size held < Z.to_nat NBUF)%nat →
  wp (bp ← bread me ROOTDEV bn; upd_data bp g ;; log_write bp ;; brelse me bp) s
    (λ _ s', txn s' ({[bn]} ∪ pins) (<[bn := g (m bn)]> m) held ∧ did s s').
Proof.
  intros Ht Hn Hr Hm Hs. apply wp_bind. eapply wp_mono; [eapply bread_txn; [done|done|by right]|].
  cbv beta. intros i s1 (Hi & Ht1 & Hd1).
  apply wp_bind. eapply wp_mono; [eapply upd_data_txn; [done|apply lookup_insert_eq]|].
  cbv beta. intros [] s2 [Ht2 Hd2]. rewrite insert_insert_eq in Ht2.
  eapply wp_mono; [eapply write_back_wp; [done|done|done|done|]|].
  { change (Z.to_nat LOGBLOCKS) with (Z.to_nat NBUF). lia. }
  cbv beta. intros [] s3 [Ht3 Hd3]. split; [done|]. by eapply did_t; [eapply did_t|].
Qed.

(** * The layout of the disk *)

(** The layout [mkfs] makes: log, inodes, one block of bitmap, data. *)
Record fslayout (sb : superblock) : Prop := {
  fl_size : sb_size sb ≤ BPB;
  fl_bmap : start + LOGBLOCKS < sb_bmapstart sb < sb_size sb;
  fl_inodes : start + LOGBLOCKS < sb_inodestart sb ∧ sb_inodestart sb + (sb_ninodes sb - 1) / IPB < sb_bmapstart sb;
}.

Definition used (m : Z → block) (sb : superblock) (b : Z) : bool := bit (m (sb_bmapstart sb)) b.
(** A block behind the bitmap. *)
Definition isdata (sb : superblock) (b : Z) : Prop := sb_bmapstart sb < b < sb_size sb.

Context (sb : superblock) (Hsb : fslayout sb) (Hlay : layout start).

Lemma isdata_home b : isdata sb b → home start b ∧ 0 ≤ b < 2 ^ 31.
Proof.
  intros [H1 H2]. destruct Hsb as [Hs [Hb _] _], Hlay as [Hl _]. unfold home, BPB, BSIZE, LOGBLOCKS, MAXOPBLOCKS in *. lia.
Qed.

Lemma bmap_home : home start (sb_bmapstart sb) ∧ 0 ≤ sb_bmapstart sb < 2 ^ 31.
Proof.
  destruct Hsb as [Hs [Hb Hb'] _], Hlay as [Hl _]. unfold home, BPB, BSIZE, LOGBLOCKS, MAXOPBLOCKS in *. lia.
Qed.

Lemma BBLOCK_eq b : 0 ≤ b < sb_size sb → BBLOCK b sb = sb_bmapstart sb.
Proof.
  intros Hb. pose proof (fl_size _ Hsb). unfold BBLOCK. rewrite Z.div_small by lia.
  apply u32_small. pose proof bmap_home. lia.
Qed.

Lemma bzero_wp s pins m held b :
  txn s pins m held → not_held held b → isdata sb b → (size pins + size held < Z.to_nat NBUF)%nat →
  wp (bzero me ROOTDEV b) s (λ _ s', txn s' ({[b]} ∪ pins) (<[b := zero_block]> m) held ∧ did s s').
Proof.
  intros Ht Hn Hd Hs. destruct (isdata_home b Hd) as [Hh Hr]. unfold bzero.
  change (u32 ROOTDEV) with ROOTDEV. rewrite u32_small by lia.
  by apply (rmw_wp s pins m held b (λ _, zero_block)).
Qed.

(** ** balloc *)

Lemma balloc_scan_loop s pins m held i d k fuel :
  txn s pins m held → held !! i = Some (sb_bmapstart sb, d) →
  0 ≤ k ≤ sb_size sb → (∀ b, 0 ≤ b < k → bit d b = true) → (Z.to_nat (sb_size sb - k) < fuel)%nat →
  ∃ r, loop fuel (balloc_scan i 0 (sb_size sb)) k s = Ok (r, s) ∧
    match r with
    | Some b => 0 ≤ b < sb_size sb ∧ bit d b = false ∧ ∀ b', 0 ≤ b' < b → bit d b' = true
    | None => ∀ b, 0 ≤ b < sb_size sb → bit d b = true
    end.
Proof.
  intros Ht Hh. revert k. pose proof (fl_size _ Hsb) as Hsz.
  induction fuel as [|fuel IH]; intros k Hk Hall Hf; [lia|].
  assert (u32 (0 + k) = k) as Hu by (apply u32_small; unfold BPB, BSIZE in *; lia).
  destruct (decide (k = sb_size sb)) as [->|Hne].
  { exists None. split; [|done]. apply loop_done. unfold balloc_scan. rewrite Hu.
    rewrite (proj2 (Z.ltb_ge (sb_size sb) (sb_size sb))), andb_false_r by lia. done. }
  assert ((k <? BPB) && (u32 (0 + k) <? sb_size sb) = true) as Hcond.
  { rewrite Hu. apply andb_true_iff. split; apply Z.ltb_lt; lia. }
  destruct (wp_elim _ _ _ (buf_data_txn s pins m held i _ d Ht Hh)) as (x & s' & Hrun & -> & ->).
  destruct (bit d k) eqn:Eb.
  - destruct (IH (k + 1)) as (r & Hr & Hpost); [lia| |lia|].
    { intros b Hb. destruct (decide (b = k)) as [->|]; [done|]. apply Hall. lia. }
    exists r. split; [|done]. rewrite (loop_step _ _ _ _ (k + 1) s); [done|].
    unfold balloc_scan. rewrite Hcond, (bind_Ok_1 _ _ _ _ _ Hrun), mask_bit, Eb. done.
  - exists (Some k). split; [|split_and!; [lia|lia|done|done]]. apply loop_done.
    unfold balloc_scan. rewrite Hcond, (bind_Ok_1 _ _ _ _ _ Hrun), mask_bit, Eb. done.
Qed.

(** The blocks before the data are never free. *)
Definition meta_used (m : Z → block) : Prop := ∀ b, 0 ≤ b ≤ sb_bmapstart sb → used m sb b = true.

(** The contents after block [b] has been allocated. *)
Definition alloc_m (m : Z → block) (b : Z) : Z → block :=
  <[b := zero_block]> (<[sb_bmapstart sb := set_bit b (m (sb_bmapstart sb))]> m).

Lemma quiet_txn s pins m held (act : M kernel unit) :
  quiet act → txn s pins m held → wp act s (λ _ s', txn s' pins m held ∧ did s s').
Proof.
  intros Hq Ht. eapply wp_mono; [eapply (cinv_quiet me s); [done|apply Ht]|].
  cbv beta. intros [] s' (Hc & Hd & El). split; [by eapply txn_log|done].
Qed.

(** The result [r] of an allocation from [m]: the lowest free block, or 0. *)
Definition first_free_block (m : Z → block) (r : Z) : Prop :=
  isdata sb r ∧ used m sb r = false ∧ ∀ b, 0 ≤ b < r → used m sb b = true.
Definition all_used (m : Z → block) : Prop := ∀ b, 0 ≤ b < sb_size sb → used m sb b = true.

Definition balloc_post (s : kernel) (pins : gset Z) (m : Z → block) (held : gmap nat (Z * block)) (r : Z) (s' : kernel) : Prop :=
  did s s' ∧
  ((first_free_block m r ∧ txn s' ({[r]} ∪ ({[sb_bmapstart sb]} ∪ pins)) (alloc_m m r) held) ∨
   (all_used m ∧ r = 0 ∧ txn s' pins m held)).

Lemma balloc_body_found s pins m held i bi :
  k_sb s = sb → txn s pins m (<[i := (sb_bmapstart sb, m (sb_bmapstart sb))]> held) → held !! i = None →
  first_free_block m bi → not_held held bi → (size pins + size held + 1 < Z.to_nat NBUF)%nat →
  wp (upd_data i (λ d, set_data_at (bi / 8) (Z.lor (data_at d (bi / 8)) (Z.shiftl 1 (bi mod 8))) d) ;;
      log_write i ;; brelse me i ;; bzero me (i32 ROOTDEV) (0 + bi) ;; mret (inr (u32 (0 + bi)) : Z + Z)) s
    (λ r s', ∃ v, r = inr v ∧ balloc_post s pins m held v s').
Proof.
  intros Esb Ht Hi (Hd & Hu & Hfirst) Hnh Hsz. destruct bmap_home as [Hbh Hbr]. destruct (isdata_home bi Hd) as [Hih Hir].
  apply wp_bind. eapply wp_mono; [eapply upd_data_txn; [done|apply lookup_insert_eq]|].
  cbv beta. intros [] s1 [Ht1 Hd1]. rewrite insert_insert_eq in Ht1.
  fold (set_bit bi (m (sb_bmapstart sb))) in Ht1. apply (wp_assoc (log_write i)), wp_bind.
  eapply wp_mono; [eapply (write_back_wp s1); [done|done|done|done|]|].
  { change (Z.to_nat LOGBLOCKS) with (Z.to_nat NBUF). lia. }
  cbv beta. intros [] s2 [Ht2 Hd2]. change (i32 ROOTDEV) with ROOTDEV. cbn [Z.add].
  apply wp_bind. eapply wp_mono; [eapply (bzero_wp s2); [done|done|done|]|].
  { pose proof (size_union_le (sb_bmapstart sb) pins). lia. }
  cbv beta. intros [] s3 [Ht3 Hd3]. apply wp_ret. exists bi. rewrite u32_small by lia. split; [done|].
  split; [by eapply did_t; [eapply did_t|]|]. left. split; [|exact Ht3]. done.
Qed.

Lemma balloc_body_wp s pins m held :
  k_sb s = sb → txn s pins m held → not_held held (sb_bmapstart sb) → meta_used m →
  (∀ b, isdata sb b → used m sb b = false → not_held held b) →
  (size pins + size held + 1 < Z.to_nat NBUF)%nat →
  wp (balloc_body me ROOTDEV 0) s
    (λ r s', match r with
             | inr v => balloc_post s pins m held v s'
             | inl b => b = BPB ∧ all_used m ∧ txn s' pins m held ∧ did s s'
             end).
Proof.
  intros Esb Ht Hnb Hmeta Hnh Hsz. destruct bmap_home as [Hbh Hbr]. destruct Hsb as [Hs [Hb1 Hb2] _].
  pose proof Hlay as [Hl0 _].
  unfold balloc_body. apply wp_bind, wp_gets. rewrite Esb.
  destruct (Z.ltb_spec 0 (sb_size sb)); [|unfold LOGBLOCKS, MAXOPBLOCKS in *; lia].
  rewrite BBLOCK_eq by lia.
  apply wp_bind. eapply wp_mono; [eapply bread_txn; [done|done|right; lia]|].
  cbv beta. intros i s1 (Hi & Ht1 & Hd1).
  destruct (balloc_scan_loop s1 pins m _ i (m (sb_bmapstart sb)) 0 (S (Z.to_nat BPB)) Ht1 (lookup_insert_eq _ _ _))
    as (r & Hr & Hpost); [lia|lia|unfold BPB, BSIZE in *; lia|].
  apply wp_bind. eapply wp_Ok; [exact Hr|]. cbv beta. destruct r as [bi|].
  - destruct Hpost as (Hbi & Hbit & Hfirst). assert (first_free_block m bi) as Hff.
    { split_and!; [|done|done]. split; [|lia]. destruct (decide (bi ≤ sb_bmapstart sb)); [|lia].
      specialize (Hmeta bi ltac:(lia)). unfold used in Hmeta. congruence. }
    eapply wp_mono; [eapply (balloc_body_found s1 pins m held i bi)|].
    + rewrite (did_sb _ _ _ _ Hd1). done.
    + exact Ht1.
    + done.
    + exact Hff.
    + apply Hnh; [apply Hff|done].
    + done.
    + cbv beta. intros r s2 (v & -> & Hd2 & Hp). split; [by eapply did_t|done].
  - apply wp_bind. eapply wp_mono; [eapply brelse_txn; [exact Ht1|apply lookup_insert_eq]|].
    cbv beta. intros [] s2 [Ht2 Hd2]. rewrite held_back in Ht2 by done.
    apply wp_bind. eapply (wp_Ok _ _ BPB s2); [reflexivity|]. cbv beta. apply wp_ret.
    split_and!; [done|exact Hpost|done|by eapply did_t].
Qed.

Lemma balloc_wp s pins m held :
  k_sb s = sb → txn s pins m held → not_held held (sb_bmapstart sb) → meta_used m →
  (∀ b, isdata sb b → used m sb b = false → not_held held b) →
  (size pins + size held + 1 < Z.to_nat NBUF)%nat →
  wp (balloc me ROOTDEV) s (λ r s', balloc_post s pins m held r s').
Proof.
  intros Esb Ht Hnb Hmeta Hnh Hsz. unfold balloc. apply wp_bind, wp_gets. rewrite Esb.
  pose proof (fl_size _ Hsb) as Hs. pose proof bmap_home as [_ Hbr]. pose proof (fl_bmap _ Hsb) as Hbm.
  replace (S (Z.to_nat (sb_size sb / BPB + 1))) with (S (S (Z.to_nat (sb_size sb / BPB)))).
  2: { assert (0 ≤ sb_size sb / BPB) by (apply Z.div_pos; unfold BPB, BSIZE; lia). lia. }
  cbn [loop]. apply wp_bind. eapply wp_mono; [by apply (balloc_body_wp s pins m held)|].
  cbv beta. intros [b|v] s1; [|intros Hp; by apply wp_ret]. intros (-> & Hall & Ht1 & Hd1).
  apply wp_bind. unfold balloc_body. apply wp_bind, wp_gets. rewrite (did_sb _ _ _ _ Hd1), Esb.
  destruct (Z.ltb_spec BPB (sb_size sb)); [lia|].
  apply wp_bind. eapply wp_mono; [apply (quiet_txn s1 pins m held); [apply quiet_balloc_msg|done]|].
  cbv beta. intros [] s2 [Ht2 Hd2]. apply wp_ret. apply wp_ret. split; [by eapply did_t|]. right. done.
Qed.

(** ** bfree *)

Lemma bfree_wp s pins m held b :
  k_sb s = sb → txn s pins m held → not_held held (sb_bmapstart sb) → 0 ≤ b < sb_size sb → used m sb b = true →
  (size pins + size held < Z.to_nat NBUF)%nat →
  wp (bfree me ROOTDEV b) s
    (λ _ s', txn s' ({[sb_bmapstart sb]} ∪ pins) (<[sb_bmapstart sb := clear_bit b (m (sb_bmapstart sb))]> m) held ∧ did s s').
Proof.
  intros Esb Ht Hnb Hb Hu Hsz. destruct bmap_home as [Hbh Hbr]. pose proof (fl_size _ Hsb) as Hs.
  unfold bfree. apply wp_bind, wp_gets. rewrite Esb, BBLOCK_eq by done. change (u32 ROOTDEV) with ROOTDEV.
  rewrite (Z.mod_small b BPB) by lia.
  apply wp_bind. eapply wp_mono; [eapply bread_txn; [done|done|by right]|].
  cbv beta. intros i s1 (Hi & Ht1 & Hd1).
  apply wp_bind. eapply wp_mono; [eapply buf_data_txn; [exact Ht1|apply lookup_insert_eq]|].
  cbv beta. intros d s1' [-> ->]. rewrite mask_bit. unfold used in Hu. rewrite Hu. cbn [negb].
  apply wp_bind. eapply wp_mono; [eapply upd_data_txn; [exact Ht1|apply lookup_insert_eq]|].
  cbv beta. intros [] s2 [Ht2 Hd2]. rewrite insert_insert_eq in Ht2.
  eapply wp_mono; [eapply (write_back_wp s2); [done|done|done|done|]|].
  { change (Z.to_nat LOGBLOCKS) with (Z.to_nat NBUF). lia. }
  cbv beta. intros [] s3 [Ht3 Hd3]. split; [exact Ht3|]. by eapply did_t; [eapply did_t|].
Qed.

(** A free block cannot be freed. *)
Lemma bfree_panics s pins m held b :
  k_sb s = sb → txn s pins m held → not_held held (sb_bmapstart sb) → 0 ≤ b < sb_size sb → used m sb b = false →
  (size pins + size held < Z.to_nat NBUF)%nat →
  bfree me ROOTDEV b s = Panic "freeing free block".
Proof.
  intros Esb Ht Hnb Hb Hu Hsz. pose proof (fl_size _ Hsb) as Hs. unfold bfree. rewrite bind_gets, Esb, BBLOCK_eq by done.
  destruct (wp_elim _ _ _ (bread_txn s pins m held (sb_bmapstart sb) Ht Hnb (or_intror Hsz))) as (i & s1 & Hr & _ & Ht1 & _).
  change (u32 ROOTDEV) with ROOTDEV. rewrite (bind_Ok_1 _ _ _ _ _ Hr).
  destruct (wp_elim _ _ _ (buf_data_txn s1 pins m _ i _ _ Ht1 (lookup_insert_eq _ _ _))) as (d & s2 & Hr2 & -> & ->).
  rewrite (bind_Ok_1 _ _ _ _ _ Hr2), (Z.mod_small b BPB), mask_bit by lia. unfold used in Hu. by rewrite Hu.
Qed.
End fs.

(** C33: [balloc] in a transaction returns the lowest free block, and 0 exactly
    when there is none.  The block it returns was free, is behind the bitmap, is
    marked in use, and reads as zeros; no other bit and no other block changes.
    [bfree] of that block then makes the bitmap what it was. *)
Theorem balloc_allocates (me : nat) (start : Z) (sb : superblock) (s : kernel) (pins : gset Z) (m : Z → block) :
  fslayout start sb → layout start → k_sb s = sb → txn me start s pins m ∅ → meta_used sb m →
  is_block (m (sb_bmapstart sb)) → (size pins + 2 < Z.to_nat NBUF)%nat →
  ∃ r s', balloc me ROOTDEV s = Ok (r, s') ∧
    (all_used sb m ∧ r = 0 ∧ txn me start s' pins m ∅ ∨
     isdata sb r ∧ used m sb r = false ∧ (∀ b, 0 ≤ b < r → used m sb b = true) ∧
     ∃ m', txn me start s' ({[r]} ∪ ({[sb_bmapstart sb]} ∪ pins)) m' ∅ ∧ m' r = zero_block ∧
       (∀ b, b ≠ r → b ≠ sb_bmapstart sb → m' b = m b) ∧
       (∀ b, 0 ≤ b < BPB → used m' sb b = if decide (b = r) then true else used m sb b) ∧
       ∃ s'' pins' m'', bfree me ROOTDEV r s' = Ok (tt, s'') ∧ txn me start s'' pins' m'' ∅ ∧
         ∀ b, 0 ≤ b < BPB → used m'' sb b = used m sb b).
Proof.
  intros Hsb Hlay Esb Ht Hmeta Hblk Hsz.
  assert (∀ b, not_held ∅ b) as Hnh by (intros b i d; by rewrite lookup_empty).
  destruct (wp_elim _ _ _ (balloc_wp me start sb Hsb Hlay s pins m ∅ Esb Ht (Hnh _) Hmeta (λ b _ _, Hnh b)
    ltac:(rewrite map_size_empty; lia))) as (r & s' & Hrun & Hd & [[(Hda & Hu & Hf) Ht']|(Hall & -> & Ht')]);
    exists r || exists 0; exists s'; (split; [exact Hrun|]); [right|by left].
  split_and!; [done..|]. exists (alloc_m sb m r).
  assert (r ≠ sb_bmapstart sb) as Hrb by (destruct Hda; lia).
  assert (0 ≤ r < BPB) as Hr by (pose proof (isdata_home start sb Hsb Hlay r Hda) as [_ ?]; pose proof (fl_size _ _ Hsb); destruct Hda; lia).
  assert (alloc_m sb m r (sb_bmapstart sb) = set_bit r (m (sb_bmapstart sb))) as Hbm.
  { unfold alloc_m. by rewrite fn_lookup_insert_ne, fn_lookup_insert. }
  assert (∀ b, 0 ≤ b < BPB → used (alloc_m sb m r) sb b = if decide (b = r) then true else used m sb b) as Hused.
  { intros b Hb. unfold used at 1. rewrite Hbm, bit_set by done. destruct (decide (b = r)) as [->|Hne].
    - by rewrite decide_True.
    - by rewrite decide_False. }
  split_and!; [exact Ht'|apply fn_lookup_insert| |exact Hused|].
  - intros b H1 H2. unfold alloc_m. by rewrite !fn_lookup_insert_ne.
  - destruct (wp_elim _ _ _ (bfree_wp me start sb Hsb Hlay s' _ _ ∅ r (eq_trans (did_sb _ _ _ _ Hd) Esb) Ht' (Hnh _)
      ltac:(destruct Hda; lia) ltac:(by rewrite Hused, decide_True) ltac:(rewrite map_size_empty;
      pose proof (size_union_le r ({[sb_bmapstart sb]} ∪ pins)); pose proof (size_union_le (sb_bmapstart sb) pins); lia)))
      as ([] & s'' & Hrun2 & Ht2 & _).
    eexists s'', _, _. split_and!; [exact Hrun2|exact Ht2|]. intros b Hb. unfold used. rewrite fn_lookup_insert, Hbm.
    by apply clear_set_bit.
Qed.

(** A small disk as [mkfs] lays it out: the log at 2, one block of inodes at
    33, the bitmap at 34 and data up to 100, all free. *)
Module SmallDisk.
Definition sb : superblock := Superblock FSMAGIC 100 65 16 31 2 33 34.
Definition bitmap : block := [255; 255; 255; 255; 7] ++ replicate (Z.to_nat BSIZE - 5) 0.
Definition disk : gmap Z block := {[34 := bitmap]}.
Definition off : kernel :=
  set_k_disk disk (set_k_sb sb (set_k_log (Log 2 1 false ROOTDEV 0 (replicate (Z.to_nat LOGBLOCKS) 0)) kernel0)).
Definition on : kernel := match binit off with Ok (_, s) => s | _ => kernel0 end.

Lemma layout_start : layout 2.
Proof. unfold layout, LOGBLOCKS, MAXOPBLOCKS. lia. Qed.

Lemma fslayout_sb : fslayout 2 sb.
Proof. constructor; split_and?; vm_compute; done. Qed.

Lemma on_ok : txn 0 2 on ∅ (disk_block disk) ∅ ∧ k_sb on = sb ∧ on = set_k_buf (k_buf on) off.
Proof.
  unfold on. destruct (wp_elim _ _ _ (binit_wp 0 off ltac:(split_and!; [done|done|by eexists]))) as (u & s & -> & E & Hc).
  split_and!; [|by rewrite E|done]. split_and!; [exact Hc| |rewrite E; cbn; lia|by rewrite E|apply layout_start].
  exists []. rewrite E. split_and!; [done|split_and!; [constructor|vm_compute; lia|constructor]|done].
Qed.

Lemma meta_used_disk : meta_used sb (disk_block disk).
Proof.
  intros b Hb. assert (b ∈ zseq 0 35) as Hin by (rewrite elem_of_zseq; cbn in *; lia).
  assert (Forall (λ b, used (disk_block disk) sb b = true) (zseq 0 35)) as Hall.
  { apply (bool_decide_unpack _). vm_compute. done. }
  rewrite Forall_forall in Hall. by apply Hall.
Qed.

Lemma is_block_bitmap : is_block (disk_block disk (sb_bmapstart sb)).
Proof. split; [reflexivity|]. apply (bool_decide_unpack _). vm_compute. done. Qed.

(** The first allocation on this disk takes block 35. *)
Lemma balloc_allocates_witness : ∃ s', balloc 0 ROOTDEV on = Ok (35, s').
Proof.
  destruct on_ok as (Ht & Hs & _).
  destruct (balloc_allocates 0 2 sb on ∅ (disk_block disk) fslayout_sb layout_start Hs Ht meta_used_disk is_block_bitmap)
    as (r & s' & Hrun & [(Hall & _)|((Hr1 & Hr2) & _ & Hfirst & _)]).
  - vm_compute. lia.
  - specialize (Hall 35 ltac:(vm_compute; split; congruence)). vm_compute in Hall. done.
  - exists s'. assert (r = 35) as ->; [|done]. cbn in Hr1, Hr2.
    destruct (decide (r = 35)) as [|Hne]; [done|]. specialize (Hfirst 35 ltac:(lia)). vm_compute in Hfirst. done.
Defined.
End SmallDisk.
