(* ===== verification/Content.v ===== *)
(** The content of a file: [readi] and [writei] on the bytes of an inode.

    [fbyte m x o] is byte [o] of the file whose inode is [x] on a disk with
    contents [m]; a block the inode does not have reads as zeros.  Allocating
    blocks ([bmap]) does not change these bytes; [readi] returns them, and
    [writei] changes the ones it is asked to. *)

From stdpp Require Import functions.
From S2P Require Import Prelude Riscv Mem Str Kalloc Vm State Sched SchedSpec Procmem Console ConsoleSpec Sleeplock Bio BioSpec Cache Block Log LogSpec Fs FsSpec.

(** * Blocks of zeros, blocks with a field written *)

Lemma le_val_zeros n : le_val (replicate n 0) = 0.
Proof. induction n as [|n IH]; [done|]. cbn [replicate le_val]. by rewrite IH. Qed.

Lemma get32_zero o : (o + 4 ≤ Z.to_nat BSIZE)%nat → get32 zero_block o = 0.
Proof.
  intros Ho. unfold get32, zero_block. rewrite drop_replicate, take_replicate. apply le_val_zeros.
Qed.

Lemma is_block_zero : is_block zero_block.
Proof. split; [apply length_replicate|]. apply Forall_replicate. lia. Qed.

Lemma bytes_inserts o l d : bytes l → bytes d → bytes (list_inserts o l d).
Proof.
  intros Hl Hd. revert o. induction Hl as [|c l Hc Hl IH]; intros o; cbn; [done|].
  apply Forall_insert; [apply IH|done].
Qed.

Lemma is_block_inserts o l d : bytes l → is_block d → is_block (list_inserts o l d).
Proof. intros Hl [Hd Hb]. split; [by rewrite length_inserts|by apply bytes_inserts]. Qed.

Lemma is_block_put32 d o v : is_block d → is_block (put32 d o v).
Proof. apply is_block_inserts, bytes_le_bytes. Qed.

Section content.
Context (me : nat) (start : Z) (sb : superblock).
Context (Hsb : fslayout start sb) (Hlay : layout start).

Abbreviation txn := (txn me start).

(** * The blocks of an inode *)

Definition ind (x : inode) : Z := default 0 (i_addrs x !! Z.to_nat NDIRECT).

(** The address of block [bn] of the file; 0 if it has none. *)
Definition addr (m : Z → block) (x : inode) (bn : Z) : Z :=
  if bn <? NDIRECT then default 0 (i_addrs x !! Z.to_nat bn)
  else if ind x =? 0 then 0
  else get32 (m (ind x)) (4 * Z.to_nat (bn - NDIRECT)).

Definition inode_block (m : Z → block) (a : Z) : Prop :=
  isdata sb a ∧ used m sb a = true ∧ is_block (m a).

Record ino_ok (m : Z → block) (x : inode) : Prop := {
  io_len : length (i_addrs x) = 13%nat;
  io_dev : i_dev x = ROOTDEV;
  io_ind : ind x ≠ 0 → inode_block m (ind x);
  io_addr : ∀ bn, 0 ≤ bn < MAXFILE → addr m x bn ≠ 0 → inode_block m (addr m x bn) ∧ addr m x bn ≠ ind x;
  io_inj : ∀ bn bn', 0 ≤ bn < MAXFILE → 0 ≤ bn' < MAXFILE → addr m x bn ≠ 0 → addr m x bn = addr m x bn' → bn = bn';
}.

(** The bitmap is a block, and the blocks up to it are in use. *)
Definition bitmap_ok (m : Z → block) : Prop := meta_used sb m ∧ is_block (m (sb_bmapstart sb)).

Definition fbyte (m : Z → block) (x : inode) (o : Z) : Z :=
  let a := addr m x (o / BSIZE) in
  if a =? 0 then 0 else data_at (m a) (o mod BSIZE).

(** A block that belongs to nobody. *)
Definition fresh_block (m : Z → block) (x : inode) (r : Z) : Prop :=
  inode_block m r ∧ m r = zero_block ∧ r ≠ ind x ∧ ∀ bn, 0 ≤ bn < MAXFILE → addr m x bn ≠ r.

Lemma isdata_nz a : isdata sb a → a ≠ 0 ∧ a ≠ sb_bmapstart sb ∧ 0 ≤ a < BPB.
Proof.
  intros Ha. pose proof (isdata_home start sb Hsb Hlay a Ha) as [_ ?]. pose proof (fl_size _ _ Hsb).
  pose proof (bmap_home start sb Hsb Hlay) as [_ ?]. destruct Ha. lia.
Qed.

Lemma addr_ext m m' x : (ind x ≠ 0 → m' (ind x) = m (ind x)) → ∀ bn, addr m' x bn = addr m x bn.
Proof.
  intros Hm bn. unfold addr. case_match; [done|]. destruct (Z.eqb_spec (ind x) 0); [done|]. by rewrite Hm.
Qed.

(** ** Allocating a block *)

Section alloc.
Context (m : Z → block) (x : inode) (r : Z).
Context (Hx : ino_ok m x) (Hb : bitmap_ok m) (Hr : first_free_block sb m r).
Let m' := alloc_m sb m r.

Lemma alloc_same b : b ≠ r → b ≠ sb_bmapstart sb → m' b = m b.
Proof. intros H1 H2. unfold m', alloc_m. by rewrite !fn_lookup_insert_ne. Qed.

Lemma alloc_used b : 0 ≤ b < BPB → used m' sb b = if decide (b = r) then true else used m sb b.
Proof.
  intros Hb'. destruct Hr as (Hd & _ & _). destruct (isdata_nz r Hd) as (_ & Hne & Hrr).
  unfold used at 1, m', alloc_m. rewrite fn_lookup_insert_ne, fn_lookup_insert by done.
  rewrite bit_set; [|apply Hb|done|done]. destruct (decide (b = r)) as [->|Hbr]; [by rewrite decide_True|by rewrite decide_False].
Qed.

Lemma alloc_block a : inode_block m a → inode_block m' a ∧ m' a = m a ∧ a ≠ r.
Proof.
  intros (Hd & Hu & Hk). destruct (isdata_nz a Hd) as (_ & Hab & Hrange).
  assert (a ≠ r) as Har by (intros ->; destruct Hr as (_ & Hf & _); congruence).
  assert (m' a = m a) as E by (by apply alloc_same). split_and!; [|done|done]. split_and!; [done| |by rewrite E].
  by rewrite alloc_used, decide_False.
Qed.

Lemma alloc_addr bn : addr m' x bn = addr m x bn.
Proof. apply addr_ext. intros Hi. by apply alloc_block, (io_ind _ _ Hx). Qed.

Lemma alloc_bitmap_ok : bitmap_ok m'.
Proof.
  destruct Hr as (Hd & _ & _). destruct (isdata_nz r Hd) as (_ & Hne & Hrr). split.
  - intros b Hbb. rewrite alloc_used; [|destruct Hd; pose proof (fl_size _ _ Hsb); lia].
    case_decide; [done|]. by apply Hb.
  - unfold m', alloc_m. rewrite fn_lookup_insert_ne, fn_lookup_insert by done. apply is_block_set, Hb.
Qed.

Lemma alloc_ino_ok : ino_ok m' x.
Proof.
  destruct Hx as [Hl Hd Hi Ha Hj]. constructor; [done|done| | |].
  - intros H0. by apply alloc_block, Hi.
  - intros bn Hbn. rewrite alloc_addr. intros H0. destruct (Ha bn Hbn H0). split; [|done]. by apply alloc_block.
  - intros bn bn'. rewrite !alloc_addr. apply Hj.
Qed.

Lemma alloc_fresh : fresh_block m' x r.
Proof.
  destruct Hr as (Hd & Hu & _). destruct (isdata_nz r Hd) as (Hr0 & Hne & Hrr).
  assert (m' r = zero_block) as Ez by apply fn_lookup_insert. split_and!; [split_and!|done| |].
  - done.
  - by rewrite alloc_used, decide_True.
  - rewrite Ez. apply is_block_zero.
  - intros E. destruct (alloc_block (ind x)) as (_ & _ & Hn); [apply (io_ind _ _ Hx); congruence|congruence].
  - intros bn Hbn. rewrite alloc_addr. intros E.
    destruct (alloc_block (addr m x bn)) as (_ & _ & Hn); [apply (io_addr _ _ Hx); congruence|congruence].
Qed.

Lemma alloc_fbyte o : 0 ≤ o < MAXFILE * BSIZE → fbyte m' x o = fbyte m x o.
Proof.
  intros Ho. unfold fbyte. rewrite alloc_addr. destruct (Z.eqb_spec (addr m x (o / BSIZE)) 0); [done|].
  assert (0 ≤ o / BSIZE < MAXFILE) as Hbn.
  { split; [apply Z.div_pos; unfold BSIZE; lia|]. apply Z.div_lt_upper_bound; unfold BSIZE in *; lia. }
  destruct (io_addr _ _ Hx _ Hbn n) as [Hk _]. by destruct (alloc_block _ Hk) as (_ & -> & _).
Qed.
End alloc.

(** ** Giving the block to the file *)

Lemma block_index o : 0 ≤ o < MAXFILE * BSIZE → 0 ≤ o / BSIZE < MAXFILE.
Proof.
  intros Ho. split; [apply Z.div_pos; unfold BSIZE; lia|]. apply Z.div_lt_upper_bound; unfold BSIZE in *; lia.
Qed.

Lemma ind_bmap m x : ino_ok m x → ind x ≠ sb_bmapstart sb.
Proof.
  intros Hx E. destruct (decide (ind x = 0)) as [E0|H0].
  - pose proof (bmap_home start sb Hsb Hlay) as [_ ?]. destruct Hsb as [_ [? _] _], Hlay. unfold LOGBLOCKS, MAXOPBLOCKS in *. lia.
  - destruct (io_ind _ _ Hx H0) as [Hd _]. apply isdata_nz in Hd. lia.
Qed.

Section extend.
Context (m m' : Z → block) (x x' : inode) (bn r : Z).
Context (Hx : ino_ok m x) (Hf : fresh_block m x r) (Hbn : 0 ≤ bn < MAXFILE) (H0 : addr m x bn = 0).
Context (Hlen : length (i_addrs x') = 13%nat) (Hdev : i_dev x' = i_dev x) (Hind : ind x' = ind x).
Context (Hm : ∀ b, b ≠ ind x → m' b = m b) (Hmi : ind x ≠ 0 → is_block (m' (ind x))).
Context (Ha : ∀ bn', 0 ≤ bn' < MAXFILE → addr m' x' bn' = if decide (bn' = bn) then r else addr m x bn').

Lemma extend_used b : used m' sb b = used m sb b.
Proof. unfold used. rewrite Hm; [done|]. apply not_eq_sym. by eapply ind_bmap. Qed.

Lemma extend_block a : inode_block m a → a ≠ ind x → inode_block m' a ∧ m' a = m a.
Proof.
  intros (Hd & Hu & Hk) Hne. assert (m' a = m a) as E by (by apply Hm). split; [|done].
  split_and!; [done|by rewrite extend_used|by rewrite E].
Qed.

Lemma extend_ok : ino_ok m' x'.
Proof.
  destruct Hf as (Hrb & Hz & Hri & Hra). constructor; [done|by rewrite Hdev; apply Hx| | |].
  - rewrite Hind. intros Hi. destruct (io_ind _ _ Hx Hi) as (Hd & Hu & _).
    split_and!; [done|by rewrite extend_used|by apply Hmi].
  - intros b Hb. rewrite Ha, Hind by done. case_decide.
    + intros _. split; [|done]. by apply extend_block.
    + intros Hn. destruct (io_addr _ _ Hx b Hb Hn) as [Hk Hki]. split; [|done]. by apply extend_block.
  - intros b b' Hb Hb'. rewrite !Ha by done. repeat case_decide; subst; try done.
    + intros _ E. by destruct (Hra b' Hb').
    + intros _ E. by destruct (Hra b Hb).
    + by apply (io_inj _ _ Hx).
Qed.

Lemma extend_fbyte o : 0 ≤ o < MAXFILE * BSIZE → fbyte m' x' o = fbyte m x o.
Proof.
  intros Ho. pose proof (block_index o Ho) as Hbi. destruct Hf as (Hrb & Hz & Hri & Hra). unfold fbyte. rewrite Ha by done.
  case_decide as E.
  - rewrite E, H0. cbn. destruct (r =? 0); [done|]. rewrite (Hm r) by done. rewrite Hz. unfold data_at, zero_block.
    rewrite lookup_replicate_2; [done|]. pose proof (Z.mod_pos_bound o BSIZE). unfold BSIZE in *. lia.
  - destruct (Z.eqb_spec (addr m x (o / BSIZE)) 0) as [|Hn]; [done|]. destruct (io_addr _ _ Hx _ Hbi Hn) as [_ Hne].
    by rewrite Hm.
Qed.
End extend.

Definition with_addr (i : nat) (r : Z) (x : inode) : inode := set_i_addrs (<[i := r]> (i_addrs x)) x.

Lemma addr_direct m x bn r bn' :
  length (i_addrs x) = 13%nat → 0 ≤ bn < NDIRECT → 0 ≤ bn' < MAXFILE →
  addr m (with_addr (Z.to_nat bn) r x) bn' = if decide (bn' = bn) then r else addr m x bn'.
Proof.
  intros Hl Hbn Hb'. assert (ind (with_addr (Z.to_nat bn) r x) = ind x) as Hi.
  { unfold ind. cbn [i_addrs set_i_addrs with_addr]. rewrite list_lookup_insert_ne; [done|]. unfold NDIRECT in *. lia. }
  unfold addr. rewrite Hi. destruct (Z.ltb_spec bn' NDIRECT).
  - cbn [i_addrs set_i_addrs with_addr]. case_decide as E.
    + subst. rewrite list_lookup_insert_eq; [done|]. unfold NDIRECT in *. lia.
    + rewrite list_lookup_insert_ne; [done|]. lia.
  - rewrite decide_False by lia. done.
Qed.

Lemma addr_entry m x k r bn' :
  ino_ok m x → ind x ≠ 0 → 0 ≤ k < NINDIRECT → 0 ≤ r < 2 ^ 32 → 0 ≤ bn' < MAXFILE →
  addr (<[ind x := put32 (m (ind x)) (4 * Z.to_nat k) r]> m) x bn' = if decide (bn' = k + NDIRECT) then r else addr m x bn'.
Proof.
  intros Hx Hi Hk Hr Hb'. destruct (io_ind _ _ Hx Hi) as (_ & _ & [Hlen _]). unfold addr.
  destruct (Z.ltb_spec bn' NDIRECT); [by rewrite decide_False by lia|].
  destruct (Z.eqb_spec (ind x) 0); [done|]. rewrite fn_lookup_insert.
  assert (NINDIRECT = 256 ∧ MAXFILE = 268 ∧ NDIRECT = 12) as (E1 & E2 & E3) by done.
  change (Z.to_nat BSIZE) with 1024%nat in Hlen. case_decide as E.
  - subst bn'. replace (k + NDIRECT - NDIRECT) with k by lia. rewrite get32_put32 by lia. by apply u32_small.
  - rewrite get32_put32_ne; [done|]. lia.
Qed.

(** A new indirect block. *)
Lemma addr_new_ind m x r bn' :
  length (i_addrs x) = 13%nat → ind x = 0 → m r = zero_block → 0 ≤ bn' < MAXFILE →
  addr m (with_addr (Z.to_nat NDIRECT) r x) bn' = addr m x bn'.
Proof.
  intros Hl Hi Hz Hb'. assert (ind (with_addr (Z.to_nat NDIRECT) r x) = r) as Hi'.
  { unfold ind. cbn [i_addrs set_i_addrs with_addr]. rewrite list_lookup_insert_eq; [done|]. rewrite Hl. unfold NDIRECT. lia. }
  unfold addr. rewrite Hi, Hi'. destruct (Z.ltb_spec bn' NDIRECT).
  - cbn [i_addrs set_i_addrs with_addr]. rewrite list_lookup_insert_ne; [done|]. unfold NDIRECT in *. lia.
  - destruct (Z.eqb_spec r 0); [done|]. rewrite Hz, get32_zero; [done|].
    assert (NINDIRECT = 256 ∧ MAXFILE = 268 ∧ NDIRECT = 12) as (E1 & E2 & E3) by done. change (Z.to_nat BSIZE) with 1024%nat. lia.
Qed.

Lemma new_ind_ok m x r :
  ino_ok m x → ind x = 0 → fresh_block m x r →
  ino_ok m (with_addr (Z.to_nat NDIRECT) r x) ∧
  ∀ o, 0 ≤ o < MAXFILE * BSIZE → fbyte m (with_addr (Z.to_nat NDIRECT) r x) o = fbyte m x o.
Proof.
  intros Hx Hi (Hrb & Hz & Hri & Hra). pose proof (io_len _ _ Hx) as Hl.
  assert (ind (with_addr (Z.to_nat NDIRECT) r x) = r) as Hi'.
  { unfold ind. cbn [i_addrs set_i_addrs with_addr]. rewrite list_lookup_insert_eq; [done|]. rewrite Hl. unfold NDIRECT. lia. }
  assert (∀ bn, 0 ≤ bn < MAXFILE → addr m (with_addr (Z.to_nat NDIRECT) r x) bn = addr m x bn) as Ha
    by (intros; by apply addr_new_ind).
  split.
  - constructor; [cbn; by rewrite length_insert|apply Hx| | |].
    + intros _. by rewrite Hi'.
    + intros bn Hbn. rewrite Ha, Hi' by done. intros Hn. destruct (io_addr _ _ Hx bn Hbn Hn). split; [done|]. by apply Hra.
    + intros bn bn' Hbn Hbn'. rewrite !Ha by done. by apply (io_inj _ _ Hx).
  - intros o Ho. unfold fbyte. by rewrite Ha by (by apply block_index).
Qed.

(** * Frames with the inode table *)

Abbreviation did := (did me []).
Definition fdid (s s' : kernel) : Prop := did s (set_k_inode (k_inode s) s').

Lemma fdid_did s s' : did s s' → fdid s s'.
Proof. intros Hd. unfold fdid. rewrite <-(did_inode _ _ _ _ Hd). by destruct s'. Qed.

Lemma fdid_refl s : fdid s s.
Proof. apply fdid_did, did_refl. Qed.

Lemma fdid_trans s1 s2 s3 : fdid s1 s2 → fdid s2 s3 → fdid s1 s3.
Proof.
  intros (E1 & W1 & D1 & X1) (E2 & W2 & D2 & X2). cbn in *. split_and!; cbn.
  - destruct s3 as [a b c d e f g h i0 j k l mm n o q r], s2, s1. cbn in *.
    injection E1; injection E2; intros; subst. reflexivity.
  - by eapply woke_trans.
  - by rewrite D2, D1.
  - by rewrite X2, X1.
Qed.

Lemma fdid_upd s l : fdid s (set_k_inode l s).
Proof. unfold fdid. replace (set_k_inode (k_inode s) (set_k_inode l s)) with s by (by destruct s). apply did_refl. Qed.

Lemma fdid_sb s s' : fdid s s' → k_sb s' = k_sb s.
Proof. intros Hd%did_sb. done. Qed.

Lemma txn_inode s pins m held l : txn s pins m held → txn (set_k_inode l s) pins m held.
Proof. intros Ht. eapply (txn_log me start s); [done|done|done|]. eapply cinv_same; [..|apply Ht]; done. Qed.

Lemma get_inode_run s ip x : k_inode s !! ip = Some x → get_inode ip s = Ok (x, s).
Proof. unfold get_inode. by intros ->. Qed.
Lemma upd_inode_run s ip x g :
  k_inode s !! ip = Some x → upd_inode ip g s = Ok (tt, set_k_inode (<[ip := g x]> (k_inode s)) s).
Proof. unfold upd_inode. by intros ->. Qed.

(** * bmap *)

(** What stays as it was: the blocks in use other than the bitmap and the
    indirect block of the file, and the blocks that are not data. *)
Definition keeps (x : inode) (m m' : Z → block) : Prop :=
  (∀ b, b ≠ sb_bmapstart sb → b ≠ ind x → (isdata sb b → used m sb b = true) → m' b = m b) ∧
  (∀ b, 0 ≤ b < BPB → used m sb b = true → used m' sb b = true).

Lemma keeps_refl x m : keeps x m m.
Proof. done. Qed.

Definition indset (x : inode) : gset Z := if ind x =? 0 then ∅ else {[ind x]}.

(** A file before and after blocks have been added to it. *)
Record grown (m : Z → block) (x : inode) (m' : Z → block) (x' : inode) : Prop := {
  gr_ok : ino_ok m' x';
  gr_bitmap : bitmap_ok m';
  gr_meta : x' = set_i_addrs (i_addrs x') x;
  gr_bytes : ∀ o, 0 ≤ o < MAXFILE * BSIZE → fbyte m' x' o = fbyte m x o;
  gr_addr : ∀ bn, 0 ≤ bn < MAXFILE → addr m x bn ≠ 0 → addr m' x' bn = addr m x bn;
  gr_new : ∀ bn, 0 ≤ bn < MAXFILE → addr m x bn = 0 → addr m' x' bn ≠ 0 → used m sb (addr m' x' bn) = false;
  gr_ind : ind x' = ind x ∨ ind x = 0 ∧ isdata sb (ind x') ∧ used m sb (ind x') = false;
  gr_keeps : keeps x m m';
}.

Lemma inode_grown_refl m x : ino_ok m x → bitmap_ok m → grown m x m x.
Proof. intros Hx Hb. constructor; try done; [by destruct x|by left]. Qed.

Lemma inode_grown_trans m1 x1 m2 x2 m3 x3 : grown m1 x1 m2 x2 → grown m2 x2 m3 x3 → grown m1 x1 m3 x3.
Proof.
  intros [A1 A2 A3 A4 A0 AN A5 [A6 A7]] [B1 B2 B3 B4 B0 BN B5 [B6 B7]]. constructor; [done|done| | | | | |].
  - by rewrite B3, A3.
  - intros o Ho. by rewrite B4, A4.
  - intros bn Hbn Hn. rewrite B0, A0 by (done || by rewrite A0). done.
  - intros bn Hbn H0 Hn. destruct (decide (addr m2 x2 bn = 0)) as [E|E].
    + specialize (BN bn Hbn E Hn). destruct (io_addr _ _ B1 bn Hbn Hn) as [(D & _) _]. apply isdata_nz in D as (_ & _ & Hr).
      destruct (used m1 sb (addr m3 x3 bn)) eqn:Eu; [|done]. by rewrite A7 in BN.
    + rewrite (B0 bn) in * by done. by apply AN.
  - destruct A5 as [<-|(E & D & U)].
    + destruct B5 as [->|(E' & D' & U')]; [by left|right]. split_and!; [done|done|].
      destruct (used m1 sb (ind x3)) eqn:E1; [|done]. apply isdata_nz in D' as (_ & _ & Hr). by rewrite A7 in U'.
    + right. split; [done|]. destruct B5 as [->|(E' & D' & U')]; [done|].
      rewrite E' in D. apply isdata_nz in D as (? & _). done.
  - split; [|intros b Hb Hu; apply B7; [done|]; by apply A7]. intros b Hb Hi Hu. rewrite B6; [by apply A6|done| |].
    + intros ->. destruct A5 as [?|(_ & D & U)]; [congruence|]. rewrite (Hu D) in U. done.
    + intros Hd. pose proof (isdata_nz b Hd) as (_ & _ & Hr). by apply A7, Hu.
Qed.

Lemma alloc_keeps m x r : bitmap_ok m → first_free_block sb m r → keeps x m (alloc_m sb m r).
Proof.
  intros Hb Hr. split.
  - intros b Hbb _ Hu. apply alloc_same; [|done]. intros ->. destruct Hr as (Hd & Hf & _). rewrite Hu in Hf by done. done.
  - intros b Hbr Hu. rewrite alloc_used by done. by case_decide.
Qed.

Lemma alloc_grown m x r :
  ino_ok m x → bitmap_ok m → first_free_block sb m r → grown m x (alloc_m sb m r) x.
Proof.
  intros Hx Hb Hr. constructor; [by apply alloc_ino_ok|by apply alloc_bitmap_ok|by destruct x| | | |by left|by apply alloc_keeps].
  - intros o Ho. by apply alloc_fbyte.
  - intros bn Hbn _. by apply alloc_addr.
  - intros bn Hbn E. rewrite alloc_addr by done. congruence.
Qed.

(** Adding the block [r] as block [bn] of the file. *)
Definition bmap_post (ip : nat) (s : kernel) (pins : gset Z) (m : Z → block) (x : inode) (bn : Z) (a : Z) (s' : kernel) : Prop :=
  fdid s s' ∧ ∃ x' m' pins', txn s' pins' m' ∅ ∧ k_inode s' = <[ip := x']> (k_inode s) ∧ grown m x m' x' ∧
    pins' ⊆ pins ∪ {[sb_bmapstart sb]} ∪ indset x' ∪ {[a]} ∧
    addr m' x' bn = a ∧ (a = 0 → all_used sb m').

(** [balloc] on behalf of a file whose indirect block may be held. *)
Lemma balloc_ino_wp s pins m held x :
  k_sb s = sb → txn s pins m held → ino_ok m x → bitmap_ok m →
  (∀ i b d, held !! i = Some (b, d) → b = ind x ∧ ind x ≠ 0) → (size pins + size held + 1 < Z.to_nat NBUF)%nat →
  wp (balloc me ROOTDEV) s (λ r s', balloc_post me start sb s pins m held r s').
Proof.
  intros Esb Ht Hx Hb Hh Hsz. eapply balloc_wp; try done.
  - intros i d Hi. destruct (Hh _ _ _ Hi) as [E _]. by eapply ind_bmap.
  - apply Hb.
  - intros b Hd Hu i d Hi. destruct (Hh _ _ _ Hi) as [-> H0]. destruct (io_ind _ _ Hx H0) as (_ & Hu' & _). congruence.
Qed.

Lemma not_held_empty b : not_held ∅ b.
Proof. intros i d. by rewrite lookup_empty. Qed.

(** ** The three ways [bmap] adds a block *)

Section adds.
Context (m : Z → block) (x : inode) (r : Z).
Context (Hx : ino_ok m x) (Hb : bitmap_ok m) (Hr : first_free_block sb m r).
Local Notation m1 := (alloc_m sb m r).
Local Notation adds m2 x2 bn :=
  (grown m x m2 x2 ∧ ∀ bn', 0 ≤ bn' < MAXFILE → addr m2 x2 bn' = if decide (bn' = bn) then r else addr m x bn').

Lemma grown_direct bn :
  0 ≤ bn < NDIRECT → addr m x bn = 0 → adds m1 (with_addr (Z.to_nat bn) r x) bn.
Proof.
  intros Hbn Ea. set (x' := with_addr (Z.to_nat bn) r x). pose proof (io_len _ _ Hx) as Hl.
  pose proof (alloc_ino_ok m x r Hx Hb Hr) as Hx1. pose proof (alloc_fresh m x r Hx Hb Hr) as Hfr.
  assert (∀ bn', 0 ≤ bn' < MAXFILE → addr m1 x' bn' = if decide (bn' = bn) then r else addr m1 x bn') as Haddr
    by (intros; by apply addr_direct).
  assert (0 ≤ bn < MAXFILE) as Hbm by (change MAXFILE with 268; unfold NDIRECT in *; lia).
  assert (addr m1 x bn = 0) as Ea' by (by rewrite alloc_addr, Ea by done).
  assert (ind x' = ind x) as Hix.
  { unfold ind, x'. cbn [i_addrs set_i_addrs with_addr]. rewrite list_lookup_insert_ne; [done|]. unfold NDIRECT in *. lia. }
  assert (length (i_addrs x') = 13%nat) as Hlx by (cbn; by rewrite length_insert).
  split; [|intros; rewrite Haddr, alloc_addr by done; done].
  destruct (alloc_grown m x r Hx Hb Hr) as [_ G2 _ G4 G0 GN G5 G6]. constructor.
  - eapply (extend_ok m1 m1 x x' bn r); try done. intros Hi. apply (io_ind _ _ Hx1 Hi).
  - exact G2.
  - done.
  - intros o Ho. rewrite (extend_fbyte m1 m1 x x' bn r) by (done || (intros Hi; apply (io_ind _ _ Hx1 Hi))).
    by apply G4.
  - intros b Hb' Hn. rewrite Haddr by done. case_decide as E; [subst b; congruence|]. by apply G0.
  - intros b Hb' H0. rewrite Haddr by done. case_decide as E; [intros _; apply Hr|by apply GN].
  - by left.
  - exact G6.
Qed.

Lemma grown_entry k :
  ind x ≠ 0 → 0 ≤ k < NINDIRECT → addr m x (k + NDIRECT) = 0 →
  adds (<[ind x := put32 (m (ind x)) (4 * Z.to_nat k) r]> m1) x (k + NDIRECT).
Proof.
  intros Hi Hk Ha. assert (isdata sb r) as Hrd by apply Hr.
  pose proof (alloc_ino_ok m x r Hx Hb Hr) as Hx1. pose proof (alloc_fresh m x r Hx Hb Hr) as Hfr.
  assert (m1 (ind x) = m (ind x)) as Em by (apply alloc_block; [done|done|by apply (io_ind _ _ Hx)]).
  set (m2 := <[ind x := put32 (m (ind x)) (4 * Z.to_nat k) r]> m1).
  assert (0 ≤ k + NDIRECT < MAXFILE) as Hbn by (change MAXFILE with 268; change NINDIRECT with 256 in Hk; unfold NDIRECT in *; lia).
  assert (∀ bn', 0 ≤ bn' < MAXFILE → addr m2 x bn' = if decide (bn' = k + NDIRECT) then r else addr m1 x bn') as Haddr.
  { intros bn' Hb'. unfold m2. rewrite <-Em. apply addr_entry; [done|done|done| |done].
    pose proof (isdata_home start sb Hsb Hlay _ Hrd) as [_ ?]. lia. }
  assert (addr m1 x (k + NDIRECT) = 0) as Ha1 by (by rewrite alloc_addr).
  assert (∀ b, b ≠ ind x → m2 b = m1 b) as Hm2 by (intros b Hbi; unfold m2; by rewrite fn_lookup_insert_ne).
  assert (ind x ≠ 0 → is_block (m2 (ind x))) as Hblk.
  { intros _. unfold m2. rewrite fn_lookup_insert. apply is_block_put32. apply (io_ind _ _ Hx Hi). }
  assert (ind x ≠ sb_bmapstart sb) as Hib by (by eapply ind_bmap).
  split; [|intros; rewrite Haddr, alloc_addr by done; done].
  destruct (alloc_grown m x r Hx Hb Hr) as [_ [B1 B2] _ G4 G0 GN G5 [G6 G7]]. constructor.
  - eapply (extend_ok m1 m2 x x (k + NDIRECT) r); try done. apply Hx1.
  - split; [|by rewrite Hm2]. intros b Hbb. unfold used. rewrite Hm2 by done. by apply B1.
  - by destruct x.
  - intros o Ho. rewrite (extend_fbyte m1 m2 x x (k + NDIRECT) r) by (done || apply Hx1). by apply G4.
  - intros b Hb' Hn. rewrite Haddr by done. case_decide as E; [congruence|by apply G0].
  - intros b Hb' H0. rewrite Haddr by done. case_decide as E; [intros _; apply Hr|by apply GN].
  - by left.
  - split; [intros b Hbb Hbi Hu; rewrite Hm2 by done; by apply G6|].
    intros b Hb' Hu. unfold used. rewrite Hm2 by done. by apply G7.
Qed.

Lemma grown_ind :
  ind x = 0 → grown m x m1 (with_addr (Z.to_nat NDIRECT) r x) ∧ ind (with_addr (Z.to_nat NDIRECT) r x) = r ∧
    m1 r = zero_block ∧ ∀ bn, 0 ≤ bn < MAXFILE → addr m1 (with_addr (Z.to_nat NDIRECT) r x) bn = addr m x bn.
Proof.
  intros Ei. set (x1 := with_addr (Z.to_nat NDIRECT) r x). pose proof (io_len _ _ Hx) as Hl.
  pose proof (alloc_ino_ok m x r Hx Hb Hr) as Hx1. pose proof (alloc_fresh m x r Hx Hb Hr) as Hfr.
  destruct (isdata_nz r ltac:(apply Hr)) as (Hr0 & _).
  destruct (new_ind_ok m1 x r Hx1 Ei Hfr) as [Hx2 Hb2]. fold x1 in Hx2, Hb2.
  assert (ind x1 = r) as Ei1.
  { unfold ind, x1. cbn [i_addrs set_i_addrs with_addr]. rewrite list_lookup_insert_eq; [done|]. rewrite Hl. unfold NDIRECT. lia. }
  assert (∀ b, 0 ≤ b < MAXFILE → addr m1 x1 b = addr m1 x b) as Haddr
    by (intros; unfold x1; apply addr_new_ind; [done|done|apply Hfr|done]).
  split_and!; [|done|apply Hfr|intros; rewrite Haddr, alloc_addr by done; done].
  destruct (alloc_grown m x r Hx Hb Hr) as [_ G2 _ G4 G0 GN _ G6]. constructor; [done|exact G2|done| | | | |exact G6].
  - intros o Ho. rewrite Hb2 by done. by apply G4.
  - intros b Hb' Hn. rewrite Haddr by done. by apply G0.
  - intros b Hb' H0'. rewrite Haddr by done. by apply GN.
  - right. rewrite Ei1. split_and!; [done|apply Hr|apply Hr].
Qed.
End adds.

(** The direct case. *)
Lemma bmap_direct_wp s pins m ip x bn :
  k_sb s = sb → txn s pins m ∅ → k_inode s !! ip = Some x → ino_ok m x → bitmap_ok m →
  0 ≤ bn < NDIRECT → (size pins + 5 < Z.to_nat NBUF)%nat →
  wp (bmap me ip bn) s (bmap_post ip s pins m x bn).
Proof.
  intros Esb Ht Hip Hx Hb Hbn Hsz. unfold bmap. apply wp_bind. eapply wp_Ok; [by apply get_inode_run|]. cbv beta.
  destruct (Z.ltb_spec bn NDIRECT); [|lia]. pose proof (io_len _ _ Hx) as Hl.
  destruct (lookup_lt_is_Some_2 (i_addrs x) (Z.to_nat bn)) as [a Ha]; [unfold NDIRECT in *; lia|]. rewrite Ha.
  assert (addr m x bn = a) as Ea by (unfold addr; rewrite (proj2 (Z.ltb_lt bn NDIRECT)), Ha by lia; done).
  destruct (Z.eqb_spec a 0) as [E0|E0].
  - rewrite (io_dev _ _ Hx). apply wp_bind. eapply wp_mono; [by eapply (balloc_ino_wp s pins m ∅ x); [..|rewrite map_size_empty; lia]|].
    cbv beta. intros r s1 [Hd1 [[Hr Ht1]|(Hall & -> & Ht1)]].
    + assert (r ≠ 0) as Hr0 by (destruct Hr as (Hd & _); by apply isdata_nz in Hd as [? _]).
      destruct (Z.eqb_spec r 0); [done|].
      assert (k_inode s1 !! ip = Some x) as Hip1 by (by rewrite (did_inode _ _ _ _ Hd1)).
      apply wp_bind. eapply wp_Ok; [by apply upd_inode_run|]. cbv beta. apply wp_ret.
      fold (with_addr (Z.to_nat bn) r x). set (m' := alloc_m sb m r) in *. set (x' := with_addr (Z.to_nat bn) r x).
      destruct (grown_direct m x r Hx Hb Hr bn) as [Hg Haddr]; [done|congruence|].
      assert (0 ≤ bn < MAXFILE) as Hbm by (change MAXFILE with 268; unfold NDIRECT in *; lia).
      split; [eapply fdid_trans; [by apply fdid_did|apply fdid_upd]|].
      exists x', m', ({[r]} ∪ ({[sb_bmapstart sb]} ∪ pins)). split_and!.
      * by apply txn_inode.
      * cbn. by rewrite (did_inode _ _ _ _ Hd1).
      * exact Hg.
      * set_solver.
      * unfold m', x'. by rewrite Haddr, decide_True.
      * done.
    + cbn. apply wp_ret. split; [by apply fdid_did|]. exists x, m, pins. split_and!; try done.
      * rewrite (did_inode _ _ _ _ Hd1). by rewrite list_insert_id.
      * by apply inode_grown_refl.
      * set_solver.
      * by rewrite Ea.
  - apply wp_ret. split; [apply fdid_refl|]. exists x, m, pins. split_and!; try done.
    + by rewrite list_insert_id.
    + by apply inode_grown_refl.
    + set_solver.
Qed.

(** ** The indirect case *)

Lemma size_le (p q : gset Z) : p ⊆ q → (size p ≤ size q)%nat.
Proof. apply subseteq_size. Qed.
Lemma size_union_r (p : gset Z) x : (size (p ∪ {[x]}) ≤ S (size p))%nat.
Proof. rewrite (union_comm_L p). apply size_union_le. Qed.

(** Adding an entry to the indirect block, which is held. *)
Lemma bmap_entry_alloc_wp s pins m ip x i k :
  k_sb s = sb → txn s pins m (<[i := (ind x, m (ind x))]> ∅) → k_inode s !! ip = Some x → ino_ok m x → bitmap_ok m →
  ind x ≠ 0 → 0 ≤ k < NINDIRECT → addr m x (k + NDIRECT) = 0 → (size pins + 3 < Z.to_nat NBUF)%nat →
  wp (addr ← balloc me (i_dev x);
      (if addr =? 0 then mret tt
       else upd_data i (λ d, put32 d (4 * Z.to_nat k) addr) ;; log_write i) ;;
      mret addr) s
    (λ a s', did s s' ∧ ∃ m' pins', txn s' pins' m' (<[i := (ind x, m' (ind x))]> ∅) ∧ grown m x m' x ∧
       pins' ⊆ pins ∪ {[sb_bmapstart sb]} ∪ {[ind x]} ∪ {[a]} ∧
       addr m' x (k + NDIRECT) = a ∧ (a = 0 → all_used sb m')).
Proof.
  intros Esb Ht Hip Hx Hb Hi Hk Ha Hsz. rewrite (io_dev _ _ Hx).
  apply wp_bind. eapply wp_mono; [eapply (balloc_ino_wp s pins m _ x); [done..| |]|].
  { intros j b d [[<- [= <- _]]|[_ Hj]]%lookup_insert_Some; [done|by rewrite lookup_empty in Hj]. }
  { rewrite map_size_insert_None, map_size_empty by apply lookup_empty. lia. }
  cbv beta. intros r s1 [Hd1 [[Hr Ht1]|(Hall & -> & Ht1)]].
  - assert (isdata sb r) as Hrd by apply Hr. destruct (isdata_nz r Hrd) as (Hr0 & Hrb & Hrr).
    destruct (Z.eqb_spec r 0); [done|]. set (m1 := alloc_m sb m r) in *.
    pose proof (alloc_ino_ok m x r Hx Hb Hr) as Hx1. pose proof (alloc_fresh m x r Hx Hb Hr) as Hfr. fold m1 in Hx1, Hfr.
    assert (m1 (ind x) = m (ind x)) as Em by (apply alloc_block; [done|done|by apply (io_ind _ _ Hx)]).
    apply wp_bind. apply wp_bind. eapply wp_mono; [eapply upd_data_txn; [exact Ht1|apply lookup_insert_eq]|].
    cbv beta. intros [] s2 [Ht2 Hd2]. rewrite insert_insert_eq in Ht2.
    destruct (io_ind _ _ Hx Hi) as (Hid & _). destruct (isdata_home start sb Hsb Hlay _ Hid) as [Hih Hir].
    eapply wp_mono; [eapply (log_write_txn me start s2); [exact Ht2|apply lookup_insert_eq|done|done|]|].
    { pose proof (size_union_le r ({[sb_bmapstart sb]} ∪ pins)). pose proof (size_union_le (sb_bmapstart sb) pins).
      change (Z.to_nat LOGBLOCKS) with (Z.to_nat NBUF). lia. }
    cbv beta. intros [] s3 [Ht3 Hd3]. apply wp_ret. split; [by eapply did_t; [eapply did_t|]|].
    set (m2 := <[ind x := put32 (m (ind x)) (4 * Z.to_nat k) r]> m1) in *.
    exists m2, ({[ind x]} ∪ ({[r]} ∪ ({[sb_bmapstart sb]} ∪ pins))).
    destruct (grown_entry m x r Hx Hb Hr k Hi Hk Ha) as [Hg Haddr]. fold m1 m2 in Hg, Haddr.
    assert (0 ≤ k + NDIRECT < MAXFILE) as Hbn by (change MAXFILE with 268; change NINDIRECT with 256 in Hk; unfold NDIRECT in *; lia).
    split_and!.
    + unfold m2 at 2. rewrite fn_lookup_insert. exact Ht3.
    + exact Hg.
    + set_solver.
    + by rewrite Haddr, decide_True.
    + done.
  - cbn. apply wp_bind, wp_ret, wp_ret. split; [done|]. exists m, pins.
    split_and!; [exact Ht1|by apply inode_grown_refl|set_solver|done|done].
Qed.

(** Looking up an entry of the indirect block. *)
Definition bmap_entry (x : inode) (a k : Z) : M kernel Z :=
  bp ← bread me (i_dev x) a;
  d ← buf_data bp;
  let addr := get32 d (4 * Z.to_nat k) in
  addr ← (if addr =? 0 then
            addr ← balloc me (i_dev x);
            (if addr =? 0 then mret tt
             else
               upd_data bp (λ d, put32 d (4 * Z.to_nat k) addr) ;;
               log_write bp) ;;
            mret addr
          else mret addr);
  brelse me bp ;;
  mret addr.

Lemma addr_ind m x k : ind x ≠ 0 → 0 ≤ k → addr m x (k + NDIRECT) = get32 (m (ind x)) (4 * Z.to_nat k).
Proof.
  intros Hi Hk. unfold addr. destruct (Z.ltb_spec (k + NDIRECT) NDIRECT); [lia|].
  destruct (Z.eqb_spec (ind x) 0); [done|]. by replace (k + NDIRECT - NDIRECT) with k by lia.
Qed.

Lemma bmap_entry_wp s pins m ip x k :
  k_sb s = sb → txn s pins m ∅ → k_inode s !! ip = Some x → ino_ok m x → bitmap_ok m →
  ind x ≠ 0 → 0 ≤ k < NINDIRECT → (size pins + 3 < Z.to_nat NBUF)%nat →
  wp (bmap_entry x (ind x) k) s (bmap_post ip s pins m x (k + NDIRECT)).
Proof.
  intros Esb Ht Hip Hx Hb Hi Hk Hsz. unfold bmap_entry. rewrite (io_dev _ _ Hx).
  apply wp_bind. eapply wp_mono; [eapply (bread_txn me start s); [exact Ht|apply not_held_empty|right; rewrite map_size_empty; lia]|].
  cbv beta. intros i s1 (_ & Ht1 & Hd1).
  apply wp_bind. eapply wp_mono; [eapply (buf_data_txn me start s1); [exact Ht1|apply lookup_insert_eq]|].
  cbv beta. intros d s1' [-> ->]. cbv zeta. rewrite <-(addr_ind m x k) by (done || lia).
  assert (k_inode s1 !! ip = Some x) as Hip1 by (by rewrite (did_inode _ _ _ _ Hd1)).
  destruct (Z.eqb_spec (addr m x (k + NDIRECT)) 0) as [E0|E0].
  - apply wp_bind. rewrite <-(io_dev _ _ Hx).
    eapply wp_mono; [eapply (bmap_entry_alloc_wp s1 pins m ip x i k); try done; by rewrite (did_sb _ _ _ _ Hd1)|].
    cbv beta. intros a s2 (Hd2 & m' & pins' & Ht2 & Hg & Hp & Ha & Hu).
    apply wp_bind. eapply wp_mono; [eapply (brelse_txn me start s2); [exact Ht2|apply lookup_insert_eq]|].
    cbv beta. intros [] s3 [Ht3 Hd3]. rewrite held_back in Ht3 by apply lookup_empty. apply wp_ret.
    split; [apply fdid_did; by eapply did_t; [eapply did_t|]|]. exists x, m', pins'. split_and!; try done.
    + rewrite (did_inode _ _ _ _ Hd3), (did_inode _ _ _ _ Hd2), (did_inode _ _ _ _ Hd1). by rewrite list_insert_id.
    + unfold indset. destruct (Z.eqb_spec (ind x) 0); [done|]. set_solver.
  - apply wp_bind, wp_ret. apply wp_bind. eapply wp_mono; [eapply (brelse_txn me start s1); [exact Ht1|apply lookup_insert_eq]|].
    cbv beta. intros [] s3 [Ht3 Hd3]. rewrite held_back in Ht3 by apply lookup_empty. apply wp_ret.
    split; [apply fdid_did; by eapply did_t|]. exists x, m, pins. split_and!; try done.
    + rewrite (did_inode _ _ _ _ Hd3), (did_inode _ _ _ _ Hd1). by rewrite list_insert_id.
    + by apply inode_grown_refl.
    + set_solver.
Qed.

Lemma indset_grown m x m' x' : grown m x m' x' → indset x ⊆ indset x'.
Proof.
  intros Hg. unfold indset. destruct (Z.eqb_spec (ind x) 0) as [|H0]; [set_solver|].
  destruct (gr_ind _ _ _ _ Hg) as [->|(? & _)]; [|done]. destruct (Z.eqb_spec (ind x) 0); [done|set_solver].
Qed.

Lemma bmap_post_trans ip s s1 s2 pins pins1 m m1 x x1 bn a :
  fdid s s1 → k_inode s1 = <[ip := x1]> (k_inode s) → grown m x m1 x1 →
  pins1 ⊆ pins ∪ {[sb_bmapstart sb]} ∪ indset x1 →
  bmap_post ip s1 pins1 m1 x1 bn a s2 → bmap_post ip s pins m x bn a s2.
Proof.
  intros Hd Hi Hg Hp [Hd2 (x2 & m2 & pins2 & Ht2 & Hi2 & Hg2 & Hp2 & Ha & Hu)].
  split; [by eapply fdid_trans|]. exists x2, m2, pins2. split_and!; [done| |by eapply inode_grown_trans| |done|done].
  - rewrite Hi2, Hi. by rewrite list_insert_insert_eq.
  - assert (indset x1 ⊆ indset x2) as Hs by (by eapply indset_grown). clear -Hp Hp2 Hs. set_solver.
Qed.

(** [bmap] returns the address of a block of the file, added to
    the file if need be, without changing its bytes. *)
Lemma bmap_wp s pins m ip x bn :
  k_sb s = sb → txn s pins m ∅ → k_inode s !! ip = Some x → ino_ok m x → bitmap_ok m →
  0 ≤ bn < MAXFILE → (size pins + 5 < Z.to_nat NBUF)%nat →
  wp (bmap me ip bn) s (bmap_post ip s pins m x bn).
Proof.
  intros Esb Ht Hip Hx Hb Hbn Hsz. destruct (decide (bn < NDIRECT)) as [|Hge]; [by apply bmap_direct_wp; try done; lia|].
  unfold bmap. apply wp_bind. eapply wp_Ok; [by apply get_inode_run|]. cbv beta.
  destruct (Z.ltb_spec bn NDIRECT); [lia|]. cbv zeta.
  assert (0 ≤ bn - NDIRECT < NINDIRECT) as Hk by (unfold MAXFILE in Hbn; lia).
  destruct (Z.ltb_spec (bn - NDIRECT) NINDIRECT); [|lia]. pose proof (io_len _ _ Hx) as Hl.
  destruct (lookup_lt_is_Some_2 (i_addrs x) (Z.to_nat NDIRECT)) as [a Ha]; [unfold NDIRECT in *; lia|]. rewrite Ha.
  assert (ind x = a) as Ei by (unfold ind; by rewrite Ha).
  destruct (Z.eqb_spec a 0) as [E0|E0].
  - apply wp_bind. rewrite (io_dev _ _ Hx).
    apply wp_bind. eapply wp_mono; [by eapply (balloc_ino_wp s pins m ∅ x); [..|rewrite map_size_empty; lia]|].
    cbv beta. intros r s1 [Hd1 [[Hr Ht1]|(Hall & -> & Ht1)]].
    + assert (isdata sb r) as Hrd by apply Hr. destruct (isdata_nz r Hrd) as (Hr0 & Hrb & Hrr).
      destruct (Z.eqb_spec r 0); [done|].
      assert (k_inode s1 !! ip = Some x) as Hip1 by (by rewrite (did_inode _ _ _ _ Hd1)).
      apply wp_bind. eapply wp_Ok; [by apply upd_inode_run|]. cbv beta. apply wp_ret.
      destruct (Z.eqb_spec r 0); [done|]. fold (with_addr (Z.to_nat NDIRECT) r x). set (x1 := with_addr (Z.to_nat NDIRECT) r x).
      set (m1 := alloc_m sb m r) in *. set (s2 := set_k_inode (<[ip:=x1]> (k_inode s1)) s1).
      destruct (grown_ind m x r Hx Hb Hr) as (Hg & Ei1 & _); [congruence|]. fold m1 x1 in Hg, Ei1.
      assert (wp (bmap_entry x1 (ind x1) (bn - NDIRECT)) s2
        (bmap_post ip s2 ({[r]} ∪ ({[sb_bmapstart sb]} ∪ pins)) m1 x1 (bn - NDIRECT + NDIRECT))) as Hw.
      { eapply bmap_entry_wp; try done.
        - cbn. by rewrite (did_sb _ _ _ _ Hd1).
        - by apply txn_inode.
        - cbn. rewrite list_lookup_insert_eq; [done|]. apply lookup_lt_Some in Hip1. done.
        - apply Hg.
        - apply Hg.
        - congruence.
        - pose proof (size_union_le r ({[sb_bmapstart sb]} ∪ pins)). pose proof (size_union_le (sb_bmapstart sb) pins). lia. }
      unfold bmap_entry in Hw. change (i_dev x1) with (i_dev x) in Hw. rewrite Ei1, (io_dev _ _ Hx) in Hw.
      rewrite Z.sub_add in Hw. eapply wp_mono; [exact Hw|].
      intros v s3. apply bmap_post_trans; [|cbn; by rewrite (did_inode _ _ _ _ Hd1)|done|].
      * eapply fdid_trans; [by apply fdid_did|apply fdid_upd].
      * unfold indset. rewrite Ei1. destruct (Z.eqb_spec r 0); [done|]. set_solver.
    + cbn. apply wp_bind, wp_ret, wp_ret. cbn. apply wp_ret. split; [by apply fdid_did|]. exists x, m, pins. split_and!; try done.
      * rewrite (did_inode _ _ _ _ Hd1). by rewrite list_insert_id.
      * by apply inode_grown_refl.
      * set_solver.
      * unfold addr. destruct (Z.ltb_spec bn NDIRECT); [lia|]. by rewrite Ei, E0.
  - apply wp_bind, wp_ret. destruct (Z.eqb_spec a 0); [done|]. rewrite <-Ei.
    assert (wp (bmap_entry x (ind x) (bn - NDIRECT)) s (bmap_post ip s pins m x (bn - NDIRECT + NDIRECT))) as Hw
      by (eapply bmap_entry_wp; try done; [congruence|lia]).
    rewrite Z.sub_add in Hw. exact Hw.
Qed.
End content.
