(* ===== verification/Dinode.v ===== *)
(** The inodes on the disk: what [iupdate] stores in an inode block is what
    [ilock] reads back, and storing one inode leaves the others of the block
    as they were. *)

From S2P Require Import Prelude Riscv Mem Str Kalloc Vm State Block Fs.

(** The bytes of a field. *)
Abbreviation field d o n := (take n (drop o d)).

Definition apart (o n o' n' : nat) : Prop := (o' + n' ≤ o ∨ o + n ≤ o')%nat.

Lemma field_put32_ne (d : block) o v o' n : apart o 4 o' n → field (put32 d o v) o' n = field d o' n.
Proof. intros Ha. unfold put32. apply take_drop_inserts_ne. rewrite length_le_bytes. unfold apart in Ha. lia. Qed.
Lemma field_put16_ne (d : block) o v o' n : apart o 2 o' n → field (put16 d o v) o' n = field d o' n.
Proof. intros Ha. unfold put16. apply take_drop_inserts_ne. rewrite length_le_bytes. unfold apart in Ha. lia. Qed.

(** ** The array of addresses *)

Lemma put_addrs_snoc o l a d : put_addrs o (l ++ [a]) d = put32 (put_addrs o l d) (addr_off o (length l)) a.
Proof. unfold put_addrs. rewrite imap_app, foldl_app. cbn. by rewrite Nat.add_0_r. Qed.

Lemma length_put_addrs o l d : length (put_addrs o l d) = length d.
Proof. induction l as [|a l IH] using rev_ind; [done|]. by rewrite put_addrs_snoc, length_put32. Qed.

Lemma field_put_addrs_ne o l d o' n :
  apart (o + 12) (4 * length l) o' n → field (put_addrs o l d) o' n = field d o' n.
Proof.
  induction l as [|a l IH] using rev_ind; intros Ha; [done|]. rewrite put_addrs_snoc. rewrite length_app in Ha. cbn in Ha.
  rewrite field_put32_ne, IH; [done| |]; unfold apart, addr_off in *; lia.
Qed.

Lemma get32_put_addrs o l d i a :
  l !! i = Some a → (o + 12 + 4 * length l ≤ length d)%nat → get32 (put_addrs o l d) (addr_off o i) = u32 a.
Proof.
  induction l as [|b l IH] using rev_ind; intros Hi Hl; [done|]. rewrite put_addrs_snoc. rewrite length_app in Hl. cbn in Hl.
  apply lookup_app_Some in Hi as [Hi|[Hi1 Hi2]].
  - pose proof (lookup_lt_Some _ _ _ Hi). rewrite get32_put32_ne by (unfold addr_off; lia). apply IH; [done|lia].
  - apply list_lookup_singleton_Some in Hi2 as [Hi2 ->]. replace i with (length l) by lia.
    rewrite get32_put32; [done|]. rewrite length_put_addrs. unfold addr_off. lia.
Qed.

Lemma dinode_addrs_put o l d :
  length l = 13%nat → Forall (λ a, 0 ≤ a < 2 ^ 32) l → (o + 64 ≤ length d)%nat → dinode_addrs (put_addrs o l d) o = l.
Proof.
  intros Hl Hf Hd. apply list_eq. intros i. unfold dinode_addrs. rewrite list_lookup_fmap.
  destruct (l !! i) as [a|] eqn:Hi.
  - pose proof (lookup_lt_Some _ _ _ Hi). rewrite lookup_seq_lt by lia. cbn. f_equal.
    rewrite (get32_put_addrs o l d i a) by (done || lia). apply u32_small. eapply (Forall_lookup_1 _ _ _ _ Hf Hi).
  - apply lookup_ge_None_1 in Hi. rewrite lookup_seq_ge by lia. done.
Qed.

(** ** The whole inode *)

(** The fields of an in-memory inode fit in the types of [struct dinode]. *)
Record fits (x : inode) : Prop := {
  ft_type : - 2 ^ 15 ≤ i_type x < 2 ^ 15;
  ft_major : - 2 ^ 15 ≤ i_major x < 2 ^ 15;
  ft_minor : - 2 ^ 15 ≤ i_minor x < 2 ^ 15;
  ft_nlink : - 2 ^ 15 ≤ i_nlink x < 2 ^ 15;
  ft_size : 0 ≤ i_size x < 2 ^ 32;
  ft_len : length (i_addrs x) = 13%nat;
  ft_addrs : Forall (λ a, 0 ≤ a < 2 ^ 32) (i_addrs x);
}.

(** [y] with the fields of [x] that are kept on the disk. *)
Definition stored (x y : inode) : inode :=
  set_i_addrs (i_addrs x) (set_i_size (i_size x) (set_i_nlink (i_nlink x)
    (set_i_minor (i_minor x) (set_i_major (i_major x) (set_i_type (i_type x) y))))).

Lemma stored_id x : stored x x = x.
Proof. by destruct x. Qed.

Ltac apart_tac := first [done | rewrite ?length_put32, ?length_put16; lia | unfold apart in *; lia].

Lemma get_put_dinode o x y d :
  fits x → (o + 64 ≤ length d)%nat → get_dinode o (put_dinode o x d) y = stored x y.
Proof.
  intros [F1 F2 F3 F4 F5 F6 F7] Hd. unfold get_dinode, put_dinode, stored.
  rewrite dinode_addrs_put by apart_tac. unfold geti16, get16, get32.
  rewrite !field_put_addrs_ne by (rewrite F6; apart_tac).
  fold (get32 (put32 (put16 (put16 (put16 (put16 d o (i_type x)) (o + 2) (i_major x)) (o + 4) (i_minor x)) (o + 6) (i_nlink x)) (o + 8) (i_size x)) (o + 8)).
  rewrite get32_put32, u32_small by apart_tac. rewrite !field_put32_ne by apart_tac.
  rewrite !(field_put16_ne _ (o + 6) _ o), !(field_put16_ne _ (o + 6) _ (o + 2)), !(field_put16_ne _ (o + 6) _ (o + 4)) by apart_tac.
  rewrite !(field_put16_ne _ (o + 4) _ o), !(field_put16_ne _ (o + 4) _ (o + 2)) by apart_tac.
  rewrite !(field_put16_ne _ (o + 2) _ o) by apart_tac.
  fold (get16 (put16 d o (i_type x)) o). rewrite get16_put16 by apart_tac.
  fold (get16 (put16 (put16 d o (i_type x)) (o + 2) (i_major x)) (o + 2)). rewrite get16_put16 by apart_tac.
  fold (get16 (put16 (put16 (put16 d o (i_type x)) (o + 2) (i_major x)) (o + 4) (i_minor x)) (o + 4)). rewrite get16_put16 by apart_tac.
  fold (get16 (put16 (put16 (put16 (put16 d o (i_type x)) (o + 2) (i_major x)) (o + 4) (i_minor x)) (o + 6) (i_nlink x)) (o + 6)).
  rewrite get16_put16 by apart_tac. by rewrite !i16_u16.
Qed.

Lemma get_dinode_twice o d o' d' y : get_dinode o d (get_dinode o' d' y) = get_dinode o d y.
Proof. reflexivity. Qed.

Lemma field_put_dinode_ne o x d o' n :
  length (i_addrs x) = 13%nat → apart o 64 o' n → field (put_dinode o x d) o' n = field d o' n.
Proof.
  intros Hl Ha. unfold put_dinode. rewrite field_put_addrs_ne by (rewrite Hl; apart_tac).
  rewrite field_put32_ne by apart_tac. by rewrite !field_put16_ne by apart_tac.
Qed.

Lemma get_put_dinode_ne o o' x y d :
  length (i_addrs x) = 13%nat → apart o 64 o' 64 → get_dinode o' (put_dinode o x d) y = get_dinode o' d y.
Proof.
  intros Hl Ha. unfold get_dinode, geti16, get16, get32.
  rewrite !(field_put_dinode_ne o x d) by (done || apart_tac). f_equal. apply list_fmap_ext. intros i j Hij.
  apply lookup_seq in Hij as [-> Hi]. unfold get32. rewrite field_put_dinode_ne; [done|done|]. unfold apart, addr_off in *. lia.
Qed.

Lemma length_put_dinode o x d : length (put_dinode o x d) = length d.
Proof. unfold put_dinode. by rewrite length_put_addrs, length_put32, !length_put16. Qed.

(** Different inodes of a block do not overlap. *)
Lemma dip_apart i j : 0 ≤ i → 0 ≤ j → i ≠ j → i / IPB = j / IPB → apart (dip_off i) 64 (dip_off j) 64.
Proof.
  intros Hi Hj Hn He. unfold apart, dip_off. pose proof (Z.div_mod i IPB ltac:(done)). pose proof (Z.div_mod j IPB ltac:(done)).
  pose proof (Z.mod_pos_bound i IPB ltac:(done)). pose proof (Z.mod_pos_bound j IPB ltac:(done)).
  assert (i mod IPB ≠ j mod IPB) by congruence. lia.
Qed.

Lemma dip_fits i : (dip_off i + 64 ≤ Z.to_nat BSIZE)%nat.
Proof. unfold dip_off. pose proof (Z.mod_pos_bound i IPB ltac:(done)). change IPB with 16 in *. unfold BSIZE. lia. Qed.
