(* ===== verification/ReadWrite.v ===== *)
(** Reading and writing files.

    A file is a sequence of bytes, [content m x].  [readi] returns a part of
    it and changes nothing; [writei] overwrites and extends it, stops short
    only when the disk is full, and leaves every other file as it was. *)

From stdpp Require Import functions.
From S2P Require Import Prelude Riscv Mem Str Kalloc Vm State Sched SchedSpec Procmem Console ConsoleSpec Sleeplock Bio BioSpec Cache Block Log LogSpec Fs FsSpec Pipe File Content Dinode.

Section readwrite.
Context `{KernelImage}.
Context (me : nat) (start : Z) (sb : superblock).
Context (Hsb : fslayout start sb) (Hlay : layout start).

Abbreviation txn := (txn me start).
Abbreviation did := (did me []).
Abbreviation ino_ok := (ino_ok sb).
Abbreviation bitmap_ok := (bitmap_ok sb).

(** * Files as sequences of bytes *)

Definition fbytes (m : Z → block) (x : inode) (o n : Z) : list Z := fbyte m x <$> seqZ o n.
Definition content (m : Z → block) (x : inode) : list Z := fbytes m x 0 (i_size x).

(** A file without holes. *)
Definition dense (m : Z → block) (x : inode) : Prop :=
  ∀ o, 0 ≤ o < i_size x → addr m x (o / BSIZE) ≠ 0.

(** The inode of a file as the functions of the file system find it. *)
Record file_ok (m : Z → block) (x : inode) : Prop := {
  fo_ino : ino_ok m x;
  fo_size : 0 ≤ i_size x ≤ MAXFILE * BSIZE;
  fo_dense : dense m x;
  fo_fits : fits x;
  fo_inum : 0 ≤ i_inum x < sb_ninodes sb;
}.

Lemma length_fbytes m x o n : length (fbytes m x o n) = Z.to_nat n.
Proof. unfold fbytes. by rewrite length_fmap, length_seqZ. Qed.

Lemma fbytes_app m x o n k : 0 ≤ n → 0 ≤ k → fbytes m x o (n + k) = fbytes m x o n ++ fbytes m x (o + n) k.
Proof. intros. unfold fbytes. by rewrite seqZ_app, fmap_app. Qed.

Lemma fbytes_ext m x m' x' o n : (∀ i, o ≤ i < o + n → fbyte m x i = fbyte m' x' i) → fbytes m x o n = fbytes m' x' o n.
Proof. intros Hi. apply list_fmap_ext. intros j i [-> ?]%lookup_seqZ. apply Hi. lia. Qed.

Lemma take_drop_content m x o n :
  0 ≤ o ≤ i_size x → 0 ≤ n → take (Z.to_nat n) (drop (Z.to_nat o) (content m x)) = fbytes m x o (Z.min n (i_size x - o)).
Proof.
  intros Ho Hn. unfold content. replace (i_size x) with (o + (i_size x - o)) at 1 by lia.
  rewrite fbytes_app, drop_app_length' by (rewrite ?length_fbytes; lia). cbn [Z.add].
  destruct (decide (n ≤ i_size x - o)).
  - rewrite Z.min_l by lia. replace (i_size x - o) with (n + (i_size x - o - n)) by lia.
    by rewrite fbytes_app, take_app_length' by (rewrite ?length_fbytes; lia).
  - rewrite Z.min_r, take_ge by (rewrite ?length_fbytes; lia). done.
Qed.

Lemma block_bytes m x o k :
  is_block (m (addr m x (o / BSIZE))) → addr m x (o / BSIZE) ≠ 0 → 0 ≤ k ≤ BSIZE - o mod BSIZE →
  take (Z.to_nat k) (drop (Z.to_nat (o mod BSIZE)) (m (addr m x (o / BSIZE)))) = fbytes m x o k.
Proof.
  intros [Hl _] H0 Hk. pose proof (Z.mod_pos_bound o BSIZE ltac:(done)) as Hm. apply list_eq. intros i.
  destruct (decide (i < Z.to_nat k)%nat) as [Hi|Hi].
  - rewrite lookup_take_lt, lookup_drop by done. unfold fbytes. rewrite list_lookup_fmap.
    rewrite (proj2 (lookup_seqZ o k i (o + Z.of_nat i))) by lia. cbn. unfold fbyte.
    assert ((o + Z.of_nat i) / BSIZE = o / BSIZE ∧ (o + Z.of_nat i) mod BSIZE = o mod BSIZE + Z.of_nat i) as [-> ->].
    { pose proof (Z.div_mod o BSIZE ltac:(done)). split.
      - symmetry. apply (Z.div_unique_pos _ _ _ (o mod BSIZE + Z.of_nat i)); lia.
      - symmetry. apply (Z.mod_unique_pos _ _ (o / BSIZE)); lia. }
    destruct (Z.eqb_spec (addr m x (o / BSIZE)) 0); [done|]. unfold data_at.
    destruct (lookup_lt_is_Some_2 (m (addr m x (o / BSIZE))) (Z.to_nat (o mod BSIZE) + i)) as [b Hb].
    { rewrite Hl. lia. }
    rewrite Hb. replace (Z.to_nat (o mod BSIZE + Z.of_nat i)) with (Z.to_nat (o mod BSIZE) + i)%nat by lia. by rewrite Hb.
  - rewrite lookup_take_ge by lia. symmetry. apply lookup_ge_None_2. rewrite length_fbytes. lia.
Qed.

Lemma is_block_put_dinode o x d : is_block d → is_block (put_dinode o x d).
Proof.
  intros Hd. unfold put_dinode. assert (∀ l d, is_block d → is_block (put_addrs o l d)) as Ha.
  { clear. intros l d Hd. induction l as [|a l IH] using rev_ind; [done|]. rewrite put_addrs_snoc. by apply is_block_put32. }
  apply Ha, is_block_put32. by repeat apply (is_block_inserts _ _ _ (bytes_le_bytes 2 _)).
Qed.

(** * Iterations of the loops *)

(** How many blocks are left from [off] when [tot] of [n] bytes are done. *)
Definition iters (n tot off : Z) : nat :=
  if tot <? n then Z.to_nat ((n - tot + off mod BSIZE + (BSIZE - 1)) / BSIZE) else 0.

Lemma iters_step n tot off m :
  tot < n → 0 ≤ off → m = Z.min (n - tot) (BSIZE - off mod BSIZE) →
  0 < m ∧ (iters n (tot + m) (off + m) + 1 ≤ iters n tot off)%nat.
Proof.
  intros Ht Ho ->. pose proof (Z.mod_pos_bound off BSIZE ltac:(done)) as Hm. unfold iters. unfold BSIZE in *.
  destruct (Z.ltb_spec tot n); [|lia]. split; [lia|].
  destruct (Z.ltb_spec (tot + Z.min (n - tot) (1024 - off mod 1024)) n) as [Hl|Hl].
  - rewrite Z.min_r in * by lia.
    assert ((off + (1024 - off mod 1024)) mod 1024 = 0) as ->.
    { pose proof (Z.div_mod off 1024 ltac:(done)). symmetry. apply (Z.mod_unique_pos _ _ (off / 1024 + 1)); lia. }
    replace (n - (tot + (1024 - off mod 1024)) + 0 + (1024 - 1)) with (n - tot + off mod 1024 + (1024 - 1) + (-1) * 1024) by lia.
    rewrite Z.div_add by lia. assert (1 ≤ (n - tot + off mod 1024 + (1024 - 1)) / 1024); [|lia].
    apply Z.div_le_lower_bound; lia.
  - assert (1 ≤ (n - tot + off mod 1024 + (1024 - 1)) / 1024); [|lia]. apply Z.div_le_lower_bound; lia.
Qed.

Lemma iters_fuel n off : 0 ≤ n → (iters n 0 off < io_fuel n)%nat.
Proof.
  intros Hn. unfold iters, io_fuel. case_match; [|lia]. pose proof (Z.mod_pos_bound off BSIZE ltac:(done)) as Hm.
  assert ((n - 0 + off mod BSIZE + (BSIZE - 1)) / BSIZE ≤ n / BSIZE + 2); [|pose proof (Z.div_pos n BSIZE); unfold BSIZE in *; lia].
  transitivity ((n + 2 * BSIZE) / BSIZE); [|by rewrite Z.div_add]. apply Z.div_le_mono; unfold BSIZE in *; lia.
Qed.

(** * readi *)

(** [bmap] of a block the file has. *)
Lemma bmap_hit_wp s pins m ip x bn :
  txn s pins m ∅ → k_inode s !! ip = Some x → ino_ok m x → 0 ≤ bn < MAXFILE → addr m x bn ≠ 0 →
  (size pins < Z.to_nat NBUF)%nat →
  wp (bmap me ip bn) s (λ a s', a = addr m x bn ∧ txn s' pins m ∅ ∧ did s s').
Proof.
  intros Ht Hip Hx Hbn H0 Hsz. unfold bmap. apply wp_bind. eapply wp_Ok; [by apply get_inode_run|]. cbv beta.
  pose proof (io_len _ _ _ Hx) as Hl. destruct (Z.ltb_spec bn NDIRECT) as [Hlt|Hge].
  - destruct (lookup_lt_is_Some_2 (i_addrs x) (Z.to_nat bn)) as [a Ha]; [unfold NDIRECT in *; lia|]. rewrite Ha.
    assert (addr m x bn = a) as Ea by (unfold addr; rewrite (proj2 (Z.ltb_lt bn NDIRECT)), Ha by lia; done).
    rewrite Ea in *. destruct (Z.eqb_spec a 0); [done|]. apply wp_ret. split_and!; [done|done|apply did_refl].
  - cbv zeta. destruct (Z.ltb_spec (bn - NDIRECT) NINDIRECT); [|unfold MAXFILE in Hbn; lia].
    destruct (lookup_lt_is_Some_2 (i_addrs x) (Z.to_nat NDIRECT)) as [a Ha]; [unfold NDIRECT in *; lia|]. rewrite Ha.
    assert (ind x = a) as Ei by (unfold ind; by rewrite Ha).
    assert (a ≠ 0) as Ha0.
    { intros ->. apply H0. unfold addr. destruct (Z.ltb_spec bn NDIRECT); [lia|]. by rewrite Ei. }
    destruct (Z.eqb_spec a 0); [done|]. apply wp_bind, wp_ret. destruct (Z.eqb_spec a 0); [done|].
    rewrite (io_dev _ _ _ Hx). apply wp_bind.
    eapply wp_mono; [eapply (bread_txn me start s); [exact Ht|apply not_held_empty|right; rewrite map_size_empty; lia]|].
    cbv beta. intros i s1 (_ & Ht1 & Hd1).
    apply wp_bind. eapply wp_mono; [eapply (buf_data_txn me start s1); [exact Ht1|apply lookup_insert_eq]|].
    cbv beta. intros d s1' [-> ->]. cbv zeta.
    assert (get32 (m a) (4 * Z.to_nat (bn - NDIRECT)) = addr m x bn) as ->.
    { rewrite <-Ei. rewrite <-addr_ind by (congruence || lia). f_equal. lia. }
    destruct (Z.eqb_spec (addr m x bn) 0); [done|]. apply wp_bind, wp_ret. apply wp_bind.
    eapply wp_mono; [eapply (brelse_txn me start s1); [exact Ht1|apply lookup_insert_eq]|].
    cbv beta. intros [] s3 [Ht3 Hd3]. rewrite held_back in Ht3 by apply lookup_empty. apply wp_ret.
    split_and!; [done|done|by eapply did_t].
Qed.

Lemma readi_loop s pins m ip x off n :
  txn s pins m ∅ → k_inode s !! ip = Some x → file_ok m x → 0 ≤ off → 0 ≤ n → off + n ≤ i_size x →
  (size pins < Z.to_nat NBUF)%nat →
  wp (loop (io_fuel n) (readi_body me ip n) (0, off, Local, [])) s
    (λ r s', r = (n, fbytes m x off n) ∧ txn s' pins m ∅ ∧ did s s').
Proof.
  intros Ht Hip [Hx Hs Hde _ _] Ho Hn Hon Hsz.
  eapply (wp_loop (λ '(tot, o, dst, got) s1, 0 ≤ tot ≤ n ∧ o = off + tot ∧ dst = Local ∧ got = fbytes m x off tot ∧
     txn s1 pins m ∅ ∧ did s s1) (λ '(tot, o, dst, got), iters n tot o)).
  - intros [[[tot o] dst] got] s1 (Htot & -> & -> & -> & Ht1 & Hd1). unfold readi_body.
    assert (MAXFILE * BSIZE = 274432) as EM by done. destruct (Z.ltb_spec tot n) as [Hlt|Hge].
    + assert (k_inode s1 !! ip = Some x) as Hip1 by (by rewrite (did_inode _ _ _ _ Hd1)).
      pose proof (Hde (off + tot) ltac:(lia)) as H0.
      assert (0 ≤ (off + tot) / BSIZE < MAXFILE) as Hbn by (apply block_index; lia).
      apply wp_bind. eapply wp_mono; [by eapply bmap_hit_wp|]. cbv beta. intros a s2 (-> & Ht2 & Hd2).
      destruct (Z.eqb_spec (addr m x ((off + tot) / BSIZE)) 0); [done|].
      assert (k_inode s2 !! ip = Some x) as Hip2 by (by rewrite (did_inode _ _ _ _ Hd2)).
      apply wp_bind. eapply wp_Ok; [by apply get_inode_run|]. cbv beta. rewrite (io_dev _ _ _ Hx). apply wp_bind.
      eapply wp_mono; [eapply (bread_txn me start s2); [exact Ht2|apply not_held_empty|right; rewrite map_size_empty; lia]|].
      cbv beta. intros i s3 (_ & Ht3 & Hd3). cbv zeta.
      apply wp_bind. eapply wp_mono; [eapply (buf_data_txn me start s3); [exact Ht3|apply lookup_insert_eq]|].
      cbv beta. intros d s3' [-> ->]. apply wp_bind, wp_ret. apply wp_bind.
      eapply wp_mono; [eapply (brelse_txn me start s3); [exact Ht3|apply lookup_insert_eq]|].
      cbv beta. intros [] s4 [Ht4 Hd4]. rewrite held_back in Ht4 by apply lookup_empty. cbn [Z.eqb]. apply wp_ret.
      set (k := Z.min (n - tot) (BSIZE - (off + tot) mod BSIZE)).
      destruct (iters_step n tot (off + tot) k Hlt ltac:(lia) eq_refl) as [Hk Hit].
      destruct (io_addr _ _ _ Hx _ Hbn H0) as [(_ & _ & Hblk) _].
      rewrite block_bytes by (done || lia). rewrite u32_small by lia. split; [|lia].
      split_and!; [lia|lia|lia|done|by rewrite fbytes_app by lia|done|].
      by eapply did_t; [eapply did_t; [eapply did_t|]|].
    + apply wp_ret. assert (tot = n) as -> by lia. split_and!; [|done|done]. by rewrite i32_small by lia.
  - split_and!; [lia|lia|lia|done|done|done|apply did_refl].
  - by apply iters_fuel.
Qed.

(** [readi] of a file returns the bytes of the file that are there. *)
Lemma readi_wp s pins m ip x off n :
  txn s pins m ∅ → k_inode s !! ip = Some x → file_ok m x → 0 ≤ off → 0 ≤ n → off + n < 2 ^ 32 →
  (size pins < Z.to_nat NBUF)%nat →
  let l := take (Z.to_nat n) (drop (Z.to_nat off) (content m x)) in
  wp (readi me ip Local off n) s (λ r s', r = (Z.of_nat (length l), l) ∧ txn s' pins m ∅ ∧ did s s').
Proof.
  intros Ht Hip Hf Ho Hn Hon Hsz l. unfold readi. apply wp_bind. eapply wp_Ok; [by apply get_inode_run|]. cbv beta.
  rewrite u32_small by lia. destruct (Z.ltb_spec (i_size x) off) as [Hlt|Hge]; cbn [orb].
  - apply wp_ret. subst l. rewrite drop_ge by (unfold content; rewrite length_fbytes; lia).
    rewrite take_nil. split_and!; [done|done|apply did_refl].
  - destruct (Z.ltb_spec (off + n) off); [lia|]. subst l. rewrite take_drop_content, length_fbytes by lia.
    set (k := if i_size x <? off + n then i_size x - off else n).
    assert (Z.min n (i_size x - off) = k) as -> by (unfold k; destruct (Z.ltb_spec (i_size x) (off + n)); lia).
    assert (0 ≤ k ∧ off + k ≤ i_size x) as [Hk1 Hk2] by (unfold k; destruct (Z.ltb_spec (i_size x) (off + n)); lia).
    rewrite Z2Nat.id by done. by apply readi_loop.
Qed.

(** * writei *)

(** The bytes [f] with [l] in place of the ones from [off]. *)
Definition over (off : Z) (l : list Z) (f : Z → Z) (o : Z) : Z :=
  if off <=? o then default (f o) (l !! Z.to_nat (o - off)) else f o.

Lemma over_app off l d f o :
  over off (l ++ d) f o = over (off + Z.of_nat (length l)) d (over off l f) o.
Proof.
  unfold over. destruct (Z.leb_spec off o), (Z.leb_spec (off + Z.of_nat (length l)) o); try done; [| |lia].
  - rewrite lookup_app_r by lia. replace (Z.to_nat (o - off) - length l)%nat with (Z.to_nat (o - (off + Z.of_nat (length l)))) by lia.
    rewrite (lookup_ge_None_2 l) by lia. done.
  - by rewrite lookup_app_l by lia.
Qed.

Lemma over_inside off l f o c : l !! Z.to_nat (o - off) = Some c → off ≤ o → over off l f o = c.
Proof. intros Hc Ho. unfold over. destruct (Z.leb_spec off o); [|lia]. by rewrite Hc. Qed.
Lemma over_outside off l f o : o < off ∨ off + Z.of_nat (length l) ≤ o → over off l f o = f o.
Proof. intros Ho. unfold over. destruct (Z.leb_spec off o); [|done]. by rewrite lookup_ge_None_2 by lia. Qed.

Definition put_block (m : Z → block) (x : inode) (o : Z) (d : list Z) : Z → block :=
  <[addr m x (o / BSIZE) := list_inserts (Z.to_nat (o mod BSIZE)) d (m (addr m x (o / BSIZE)))]> m.

Section put.
Context (m : Z → block) (x : inode) (o : Z) (d : list Z).
Context (Hx : ino_ok m x) (Hb : bitmap_ok m) (Ho : 0 ≤ o < MAXFILE * BSIZE) (H0 : addr m x (o / BSIZE) ≠ 0).
Context (Hd : bytes d) (Hl : Z.of_nat (length d) ≤ BSIZE - o mod BSIZE).
Let a := addr m x (o / BSIZE).
Let m' := put_block m x o d.

Lemma put_a : inode_block sb m a ∧ a ≠ ind x ∧ a ≠ sb_bmapstart sb.
Proof.
  destruct (io_addr _ _ _ Hx _ (block_index o Ho) H0) as [Hk Hi]. split_and!; [done|done|].
  destruct Hk as [Hk _]. by apply (isdata_nz start sb Hsb Hlay) in Hk as (_ & ? & _).
Qed.

Lemma put_ne b : b ≠ a → m' b = m b.
Proof. intros Hn. unfold m', put_block. by rewrite fn_lookup_insert_ne. Qed.

Lemma put_addr bn : addr m' x bn = addr m x bn.
Proof. apply addr_ext. intros _. apply put_ne. destruct put_a as (_ & ? & _). done. Qed.

Lemma put_used b : used m' sb b = used m sb b.
Proof. unfold used. rewrite put_ne; [done|]. destruct put_a as (_ & _ & ?). done. Qed.

Lemma put_inode_block b : inode_block sb m b → inode_block sb m' b.
Proof.
  intros (Hdb & Hu & Hk). split_and!; [done|by rewrite put_used|].
  destruct (decide (b = a)) as [->|Hn]; [|by rewrite put_ne]. unfold m', put_block. rewrite fn_lookup_insert.
  by apply is_block_inserts.
Qed.

Lemma put_ino_ok : ino_ok m' x.
Proof.
  destruct Hx as [X1 X2 X3 X4 X5]. constructor; [done|done| | |].
  - intros Hi. by apply put_inode_block, X3.
  - intros bn Hbn. rewrite put_addr. intros Hn. destruct (X4 bn Hbn Hn). split; [by apply put_inode_block|done].
  - intros bn bn'. rewrite !put_addr. apply X5.
Qed.

Lemma put_bitmap_ok : bitmap_ok m'.
Proof.
  destruct Hb as [B1 B2]. destruct put_a as (_ & _ & Ha). split; [|by rewrite put_ne].
  intros b Hbb. rewrite put_used. by apply B1.
Qed.

Lemma put_fbyte o' : 0 ≤ o' < MAXFILE * BSIZE → fbyte m' x o' = over o d (fbyte m x) o'.
Proof.
  intros Ho'. pose proof (Z.div_mod o BSIZE ltac:(done)) as Eo. pose proof (Z.div_mod o' BSIZE ltac:(done)) as Eo'.
  pose proof (Z.mod_pos_bound o BSIZE ltac:(done)) as Ho1. pose proof (Z.mod_pos_bound o' BSIZE ltac:(done)) as Ho1'.
  unfold fbyte at 1. rewrite put_addr. destruct (decide (o' / BSIZE = o / BSIZE)) as [E|E].
  - rewrite E. destruct (Z.eqb_spec (addr m x (o / BSIZE)) 0); [done|]. unfold m', put_block. rewrite fn_lookup_insert.
    destruct put_a as ((_ & _ & [Hla _]) & _). fold a. unfold data_at.
    rewrite E in Eo'. assert (o' mod BSIZE = o mod BSIZE + (o' - o)) as Em by lia. destruct (decide (o ≤ o' < o + Z.of_nat (length d))) as [Hin|Hout].
    + rewrite list_lookup_inserts by lia.
      destruct (lookup_lt_is_Some_2 d (Z.to_nat (o' mod BSIZE) - Z.to_nat (o mod BSIZE))) as [c Hc]; [lia|]. rewrite Hc.
      symmetry. apply over_inside; [|lia]. by replace (Z.to_nat (o' - o)) with (Z.to_nat (o' mod BSIZE) - Z.to_nat (o mod BSIZE))%nat by lia.
    + rewrite over_outside by lia. unfold fbyte. rewrite E. destruct (Z.eqb_spec (addr m x (o / BSIZE)) 0); [done|].
      unfold data_at. fold a. destruct (decide (o' < o)).
      * by rewrite list_lookup_inserts_lt by lia.
      * by rewrite list_lookup_inserts_ge by lia.
  - rewrite over_outside.
    + unfold fbyte. destruct (Z.eqb_spec (addr m x (o' / BSIZE)) 0) as [|Hn]; [done|]. rewrite put_ne; [done|].
      intros Ea. apply E. by apply (io_inj _ _ _ Hx); [apply block_index..| |].
    + destruct (decide (o' < o)); [by left|right]. assert (o / BSIZE < o' / BSIZE); [|unfold BSIZE in *; lia].
      assert (o / BSIZE ≤ o' / BSIZE); [|lia]. apply Z.div_le_mono; unfold BSIZE; lia.
Qed.
End put.

(** What [writei] has done to the disk when [l] has been written at [off]. *)
Record wrote (m : Z → block) (x : inode) (m' : Z → block) (x' : inode) (off : Z) (l : list Z) : Prop := {
  wr_ok : ino_ok m' x';
  wr_bitmap : bitmap_ok m';
  wr_meta : x' = set_i_addrs (i_addrs x') x;
  wr_bytes : ∀ o, 0 ≤ o < MAXFILE * BSIZE → fbyte m' x' o = over off l (fbyte m x) o;
  wr_addr : ∀ bn, 0 ≤ bn < MAXFILE → addr m x bn ≠ 0 → addr m' x' bn = addr m x bn;
  wr_new : ∀ bn, 0 ≤ bn < MAXFILE → addr m x bn = 0 → addr m' x' bn ≠ 0 → used m sb (addr m' x' bn) = false;
  wr_full : ∀ o, off ≤ o < off + Z.of_nat (length l) → addr m' x' (o / BSIZE) ≠ 0;
  wr_ind : ind x' = ind x ∨ ind x = 0 ∧ isdata sb (ind x') ∧ used m sb (ind x') = false;
  wr_keeps : ∀ b, b ≠ sb_bmapstart sb → b ≠ ind x → (∀ bn, 0 ≤ bn < MAXFILE → addr m x bn ≠ b) →
    (isdata sb b → used m sb b = true) → m' b = m b;
  wr_used : ∀ b, 0 ≤ b < BPB → used m sb b = true → used m' sb b = true;
}.

Lemma wrote_refl m x off : ino_ok m x → bitmap_ok m → wrote m x m x off [].
Proof.
  intros Hx Hb. constructor; try done; [by destruct x| | |by left].
  - intros o _. rewrite over_outside; [done|]. cbn [length]. lia.
  - cbn [length]. lia.
Qed.

Lemma wrote_grown m x m1 x1 m2 x2 off l :
  wrote m x m1 x1 off l → grown sb m1 x1 m2 x2 → 0 ≤ off → off + Z.of_nat (length l) ≤ MAXFILE * BSIZE → wrote m x m2 x2 off l.
Proof.
  intros [A1 A2 A3 A4 A0 AN AF A5 A6 A7] [B1 B2 B3 B4 B0 BN B5 [B6 B7]] Ho Hol. constructor; [done|done| | | | | | | |].
  - by rewrite B3, A3.
  - intros o Hoo. by rewrite B4, A4.
  - intros bn Hbn Hn. rewrite B0, A0 by (done || by rewrite A0). done.
  - intros bn Hbn H0 Hn. destruct (decide (addr m1 x1 bn = 0)) as [E|E].
    + specialize (BN bn Hbn E Hn). destruct (io_addr _ _ _ B1 bn Hbn Hn) as [(D & _) _].
      apply (isdata_nz start sb Hsb Hlay) in D as (_ & _ & Hr).
      destruct (used m sb (addr m2 x2 bn)) eqn:Eu; [|done]. by rewrite A7 in BN.
    + rewrite (B0 bn) in * by done. by apply AN.
  - intros o Hoo. specialize (AF o Hoo). rewrite B0; [done| |done]. apply block_index. lia.
  - destruct A5 as [<-|(E & D & U)].
    + destruct B5 as [->|(E' & D' & U')]; [by left|right]. split_and!; [done|done|].
      destruct (used m sb (ind x2)) eqn:E1; [|done]. apply (isdata_nz start sb Hsb Hlay) in D' as (_ & _ & Hr). by rewrite A7 in U'.
    + right. split; [done|]. destruct B5 as [->|(E' & D' & U')]; [done|].
      rewrite E' in D. apply (isdata_nz start sb Hsb Hlay) in D as (? & _). done.
  - intros b Hb Hi Hbn Hu. rewrite B6; [by apply A6|done| |].
    + intros ->. destruct A5 as [?|(_ & D & U)]; [congruence|]. rewrite (Hu D) in U. done.
    + intros Hd. pose proof (isdata_nz start sb Hsb Hlay b Hd) as (_ & _ & Hr). by apply A7, Hu.
  - intros b Hb Hu. apply B7; [done|]. by apply A7.
Qed.

Lemma wrote_put m x m1 x1 off l d :
  let o := off + Z.of_nat (length l) in
  wrote m x m1 x1 off l → 0 ≤ off → 0 ≤ o < MAXFILE * BSIZE → addr m1 x1 (o / BSIZE) ≠ 0 → bytes d →
  Z.of_nat (length d) ≤ BSIZE - o mod BSIZE → wrote m x (put_block m1 x1 o d) x1 off (l ++ d).
Proof.
  intros o Hw Hoff Ho H0 Hd Hl. pose proof Hw as [A1 A2 A3 A4 A0 AN AF A5 A6 A7].
  assert (∀ bn, addr (put_block m1 x1 o d) x1 bn = addr m1 x1 bn) as Ha by (intros; by apply put_addr).
  assert (∀ b, used (put_block m1 x1 o d) sb b = used m1 sb b) as Hu by (intros; by apply put_used).
  constructor; [by apply put_ino_ok|by apply put_bitmap_ok|done| | | | |done| |].
  - intros o' Ho'. rewrite put_fbyte, over_app by done. fold o. unfold over. by rewrite A4.
  - intros bn. rewrite Ha. apply A0.
  - intros bn. rewrite Ha. apply AN.
  - intros o' Ho'. rewrite length_app in Ho'. rewrite Ha. destruct (decide (o' < o)); [apply AF; lia|].
    assert (o' / BSIZE = o / BSIZE) as ->; [|done]. pose proof (Z.div_mod o BSIZE ltac:(done)) as Eo.
    pose proof (Z.mod_pos_bound o BSIZE ltac:(done)) as Hm. symmetry. apply (Z.div_unique_pos _ _ _ (o mod BSIZE + (o' - o))); lia.
  - intros b Hb Hi Hbn Hub. rewrite put_ne; [by apply A6|]. intros E.
    pose proof (block_index o Ho) as Hbi. destruct (decide (addr m x (o / BSIZE) = 0)) as [E0|E0].
    + specialize (AN _ Hbi E0 H0). destruct (io_addr _ _ _ A1 _ Hbi H0) as [(D & _) _]. rewrite <-E in *. by rewrite Hub in AN.
    + apply (Hbn _ Hbi). by rewrite E, A0.
  - intros b Hb Hub. rewrite Hu. by apply A7.
Qed.

(** The blocks that writing may touch beside the [n] blocks of data. *)
Definition wpins (pins : gset Z) (x : inode) (W : gset Z) : gset Z := pins ∪ {[sb_bmapstart sb]} ∪ indset x ∪ W.

Lemma size_union_le_sum (X Y : gset Z) : (size (X ∪ Y) ≤ size X + size Y)%nat.
Proof. rewrite size_union_alt. assert (size (Y ∖ X) ≤ size Y)%nat; [|lia]. apply subseteq_size. set_solver. Qed.

Lemma size_wpins pins x W : (size (wpins pins x W) ≤ size pins + 2 + size W)%nat.
Proof.
  unfold wpins. assert (size (indset x) ≤ 1)%nat by (unfold indset; case_match; [rewrite size_empty|rewrite size_singleton]; lia).
  pose proof (size_union_le_sum (pins ∪ {[sb_bmapstart sb]} ∪ indset x) W).
  pose proof (size_union_le_sum (pins ∪ {[sb_bmapstart sb]}) (indset x)).
  pose proof (size_union_le_sum pins {[sb_bmapstart sb]}). rewrite size_singleton in *. lia.
Qed.

Lemma wpins_step pins p1 p2 x1 x2 W a :
  p1 ⊆ wpins pins x1 W → p2 ⊆ p1 ∪ {[sb_bmapstart sb]} ∪ indset x2 ∪ {[a]} → indset x1 ⊆ indset x2 → p2 ⊆ wpins pins x2 (W ∪ {[a]}).
Proof.
  unfold wpins. intros H1 H2 H3. etransitivity; [exact H2|]. apply union_subseteq. split; [|set_solver +].
  apply union_subseteq. split; [|set_solver +]. apply union_subseteq. split; [|set_solver +].
  etransitivity; [exact H1|]. apply union_mono; [|set_solver +]. by apply union_mono.
Qed.

(** The state in the loop of [writei]: [tot] bytes are written, and there is
    room for [k] more blocks. *)
Definition wstate (ip : nat) (s : kernel) (pins : gset Z) (m : Z → block) (x : inode) (off : Z) (data : list Z)
    (N : nat) (tot : Z) (k : nat) (P : (Z → block) → Prop) (s1 : kernel) : Prop :=
  fdid me s s1 ∧ ∃ x1 m1 pins1 W, txn s1 pins1 m1 ∅ ∧ k_inode s1 = <[ip := x1]> (k_inode s) ∧
    wrote m x m1 x1 off (take (Z.to_nat tot) data) ∧ pins1 ⊆ wpins pins x1 W ∧ (size W + k ≤ N)%nat ∧ P m1.

(** Writing stops only between blocks. *)
Definition aligned (n off tot : Z) : Prop := tot = 0 ∨ tot = n ∨ (off + tot) mod BSIZE = 0.

Lemma writei_step s pins m ip x off data n N tot s1 :
  k_sb s = sb → k_inode s !! ip = Some x → 0 ≤ off → off + n ≤ MAXFILE * BSIZE → n = Z.of_nat (length data) → bytes data →
  (size pins + N + 6 < Z.to_nat NBUF)%nat → 0 ≤ tot < n → (1 ≤ iters n tot (off + tot))%nat →
  wstate ip s pins m x off data N tot (iters n tot (off + tot)) (λ _, True) s1 →
  wp (writei_body me ip n (tot, off + tot, Local, drop (Z.to_nat tot) data)) s1
    (λ r s2, match r with
             | inl (tot', o, src, local) => tot < tot' ≤ n ∧ aligned n off tot' ∧ o = off + tot' ∧ src = Local ∧ local = drop (Z.to_nat tot') data ∧
                 wstate ip s pins m x off data N tot' (iters n tot' o) (λ _, True) s2 ∧ (iters n tot' o < iters n tot (off + tot))%nat
             | inr (tot', o) => tot' = tot ∧ o = off + tot' ∧ wstate ip s pins m x off data N tot' 0 (all_used sb) s2
             end).
Proof.
  intros Esb Hip Ho Hon Hn Hdat Hsz Htot Hit (Hd1 & x1 & m1 & pins1 & W & Ht1 & Hi1 & Hw1 & Hp1 & HW & _).
  assert (MAXFILE * BSIZE = 274432) as EM by done. unfold writei_body. destruct (Z.ltb_spec tot n); [|lia].
  assert (k_inode s1 !! ip = Some x1) as Hip1.
  { rewrite Hi1. apply list_lookup_insert_eq. by apply lookup_lt_Some in Hip. }
  assert (0 ≤ (off + tot) / BSIZE < MAXFILE) as Hbn by (apply block_index; lia).
  pose proof (size_wpins pins x1 W) as Hsp. pose proof (size_le _ _ Hp1) as Hsp1.
  apply wp_bind. eapply wp_mono; [eapply (bmap_wp me start sb Hsb Hlay s1); [|exact Ht1|exact Hip1|apply Hw1|apply Hw1|done|lia]|].
  { by rewrite (fdid_sb _ _ _ Hd1). }
  cbv beta. intros a s2 (Hd2 & x2 & m2 & pins2 & Ht2 & Hi2 & Hg2 & Hp2 & Ha & Hu).
  assert (length (take (Z.to_nat tot) data) = Z.to_nat tot) as Hlt by (rewrite length_take; lia).
  assert (wrote m x m2 x2 off (take (Z.to_nat tot) data)) as Hw2 by (eapply wrote_grown; [done|done|done|rewrite Hlt; lia]).
  assert (indset x1 ⊆ indset x2) as Hix by (by eapply indset_grown).
  assert (k_inode s2 = <[ip := x2]> (k_inode s)) as Hi2' by (rewrite Hi2, Hi1; by rewrite list_insert_insert_eq).
  destruct (Z.eqb_spec a 0) as [Ea|Ea].
  { apply wp_ret. split_and!; [done|done|]. split; [by eapply fdid_trans|].
    exists x2, m2, pins2, (W ∪ {[a]}). split_and!; [done|done|done|by eapply wpins_step| |by apply Hu].
    - pose proof (size_union_r W a). lia. }
  assert (k_inode s2 !! ip = Some x2) as Hip2.
  { rewrite Hi2'. apply list_lookup_insert_eq. by apply lookup_lt_Some in Hip. }
  apply wp_bind. eapply wp_Ok; [by apply get_inode_run|]. cbv beta. rewrite (io_dev _ _ _ (wr_ok _ _ _ _ _ _ Hw2)).
  assert (pins2 ⊆ wpins pins x2 (W ∪ {[a]})) as Hp2' by (by eapply wpins_step).
  pose proof (size_wpins pins x2 (W ∪ {[a]})) as Hsp2. pose proof (size_union_r W a) as HsW. pose proof (size_le _ _ Hp2') as Hsp2'.
  apply wp_bind. eapply wp_mono; [eapply (bread_txn me start s2); [exact Ht2|apply not_held_empty|right; rewrite map_size_empty; lia]|].
  cbv beta. intros i s3 (_ & Ht3 & Hd3). cbv zeta. set (k := Z.min (n - tot) (BSIZE - (off + tot) mod BSIZE)).
  destruct (iters_step n tot (off + tot) k ltac:(lia) ltac:(lia) eq_refl) as [Hk Hit'].
  apply wp_bind, wp_ret. cbv beta iota. set (d := take (Z.to_nat k) (drop (Z.to_nat tot) data)).
  assert (Z.of_nat (length d) = k) as Hld by (unfold d; rewrite length_take, length_drop; lia).
  apply wp_bind. eapply wp_mono; [eapply upd_data_txn; [exact Ht3|apply lookup_insert_eq]|].
  cbv beta. intros [] s4 [Ht4 Hd4]. rewrite insert_insert_eq in Ht4. cbn [Z.eqb].
  assert (inode_block sb m2 a) as (Hda & _).
  { rewrite <-Ha. apply (io_addr _ _ _ (wr_ok _ _ _ _ _ _ Hw2)); [done|by rewrite Ha]. }
  destruct (isdata_home start sb Hsb Hlay _ Hda) as [Hah Har].
  apply wp_assoc, wp_bind. eapply wp_mono; [eapply (write_back_wp me start s4); [exact Ht4|apply lookup_empty|done|done|]|].
  { change (Z.to_nat LOGBLOCKS) with (Z.to_nat NBUF). lia. }
  cbv beta. intros [] s5 [Ht5 Hd5]. apply wp_ret.
  rewrite u32_small by lia. rewrite drop_drop. rewrite <-Z2Nat.inj_add by lia.
  split_and!; [lia|lia| |lia|done|done| |lia].
  { right. destruct (decide (tot + k = n)) as [|Hk']; [by left|right]. unfold k in *.
    assert (0 ≤ (off + tot) mod BSIZE < BSIZE) by (by apply Z.mod_pos_bound).
    pose proof (Z.div_mod (off + tot) BSIZE ltac:(done)). rewrite Z.min_r by lia. symmetry.
    apply (Z.mod_unique_pos _ _ ((off + tot) / BSIZE + 1)); lia. }
  assert (did s2 s5) as Hd25 by (by eapply did_t; [eapply did_t|]).
  split; [eapply fdid_trans; [by eapply fdid_trans|by apply fdid_did]|].
  exists x2, (put_block m2 x2 (off + tot) d), ({[a]} ∪ pins2), (W ∪ {[a]}). split_and!.
  - unfold put_block. by rewrite Ha.
  - by rewrite (did_inode _ _ _ _ Hd25).
  - replace (Z.to_nat (tot + k)) with (Z.to_nat tot + Z.to_nat k)%nat by lia. rewrite <-take_take_drop.
    fold d. replace (off + tot) with (off + Z.of_nat (length (take (Z.to_nat tot) data))) by lia.
    apply wrote_put; try done; rewrite ?Hlt, ?Z2Nat.id by lia; [lia|congruence|by apply Forall_take, Forall_drop|lia].
  - apply union_subseteq. split; [|done]. unfold wpins. set_solver +.
  - lia.
  - done.
Qed.

Lemma writei_loop s pins m ip x off n data :
  k_sb s = sb → txn s pins m ∅ → k_inode s !! ip = Some x → ino_ok m x → bitmap_ok m →
  0 ≤ off → off + n ≤ MAXFILE * BSIZE → n = Z.of_nat (length data) → bytes data →
  (size pins + iters n 0 off + 6 < Z.to_nat NBUF)%nat →
  wp (loop (io_fuel n) (writei_body me ip n) (0, off, Local, data)) s
    (λ '(tot, o) s1, 0 ≤ tot ≤ n ∧ aligned n off tot ∧ o = off + tot ∧
       wstate ip s pins m x off data (iters n 0 off) tot 0 (λ m1, tot < n → all_used sb m1) s1).
Proof.
  intros Esb Ht Hip Hx Hb Ho Hon Hn Hdat Hsz. set (N := iters n 0 off) in *.
  eapply (wp_loop (λ '(tot, o, src, local) s1, 0 ≤ tot ≤ n ∧ aligned n off tot ∧ o = off + tot ∧ src = Local ∧ local = drop (Z.to_nat tot) data ∧
     wstate ip s pins m x off data N tot (iters n tot o) (λ _, True) s1) (λ '(tot, o, src, local), iters n tot o)).
  - intros [[[tot o] src] local] s1 (Htot & Hal & -> & -> & -> & Hw). destruct (decide (tot < n)) as [Hlt|Hge].
    + destruct (iters_step n tot (off + tot) _ Hlt ltac:(lia) eq_refl) as [_ Hit].
      eapply wp_mono; [eapply (writei_step s pins m ip x off data n N tot s1); try done; lia|].
      cbv beta. intros [[[[tot' o] src] local]|[tot' o]] s2.
      * intros (H1 & H1' & H2 & H3 & H4 & H5 & H6). split; [|done]. split_and!; try done; lia.
      * intros (-> & -> & Hd & x1 & m1 & pins1 & W & R). split_and!; [lia|lia|done|done|]. split; [done|].
        exists x1, m1, pins1, W. naive_solver.
    + unfold writei_body. destruct (Z.ltb_spec tot n); [lia|]. apply wp_ret. split_and!; [lia|lia|done|done|].
      destruct Hw as (Hd & x1 & m1 & pins1 & W & R1 & R2 & R3 & R4 & R5 & _). split; [done|].
      exists x1, m1, pins1, W. split_and!; try done; lia.
  - split_and!; [lia|lia|by left|lia|done|done|]. split; [apply fdid_refl|]. exists x, m, pins, ∅.
    split_and!; [done|by rewrite list_insert_id|by apply wrote_refl|unfold wpins; set_solver| |done].
    rewrite size_empty. unfold N. lia.
  - apply iters_fuel. lia.
Qed.

(** ** Storing the inode *)

(** The inode blocks are between the log and the bitmap. *)
Definition inodes_ok (m : Z → block) : Prop := ∀ i, 0 ≤ i < sb_ninodes sb → is_block (m (IBLOCK i sb)).

(** The inode in memory is the one on the disk. *)
Definition on_disk (m : Z → block) (x : inode) : Prop :=
  get_dinode (dip_off (i_inum x)) (m (IBLOCK (i_inum x) sb)) x = x.

Lemma IBLOCK_eq i :
  0 ≤ i < sb_ninodes sb → IBLOCK i sb = i / IPB + sb_inodestart sb ∧ start + LOGBLOCKS < IBLOCK i sb < sb_bmapstart sb.
Proof.
  intros Hi. destruct Hsb as [F1 F2 [F3 F4]], Hlay as [Hl _]. unfold IBLOCK.
  assert (0 ≤ i / IPB ≤ (sb_ninodes sb - 1) / IPB) by (split; [apply Z.div_pos; [lia|done]|apply Z.div_le_mono; [done|lia]]).
  assert (LOGBLOCKS = 30 ∧ BPB = 8192) as [E1 E2] by done.
  rewrite u32_small; lia.
Qed.

Lemma IBLOCK_home i : 0 ≤ i < sb_ninodes sb → home start (IBLOCK i sb) ∧ 0 ≤ IBLOCK i sb < 2 ^ 31.
Proof.
  intros Hi. destruct (IBLOCK_eq i Hi) as [_ Hb]. destruct Hsb as [F1 F2 _], Hlay as [Hl _].
  assert (LOGBLOCKS = 30 ∧ BPB = 8192) as [E1 E2] by done. unfold home. lia.
Qed.

Lemma IBLOCK_not_data i : 0 ≤ i < sb_ninodes sb → ¬ isdata sb (IBLOCK i sb) ∧ IBLOCK i sb ≠ sb_bmapstart sb ∧ IBLOCK i sb ≠ 0.
Proof.
  intros Hi. destruct (IBLOCK_eq i Hi) as [_ Hb]. destruct Hlay as [Hl _].
  assert (LOGBLOCKS = 30) as E1 by done. unfold isdata. lia.
Qed.

Definition put_inode (m : Z → block) (x : inode) : Z → block :=
  <[IBLOCK (i_inum x) sb := put_dinode (dip_off (i_inum x)) x (m (IBLOCK (i_inum x) sb))]> m.

Lemma iupdate_wp s pins m ip x :
  k_sb s = sb → txn s pins m ∅ → k_inode s !! ip = Some x → i_dev x = ROOTDEV → 0 ≤ i_inum x < sb_ninodes sb →
  (size pins < Z.to_nat NBUF)%nat →
  wp (iupdate me ip) s (λ _ s', txn s' ({[IBLOCK (i_inum x) sb]} ∪ pins) (put_inode m x) ∅ ∧ did s s').
Proof.
  intros Esb Ht Hip Hdev Hi Hsz. unfold iupdate. apply wp_bind, wp_gets. rewrite Esb.
  apply wp_bind. eapply wp_Ok; [by apply get_inode_run|]. cbv beta. rewrite Hdev.
  destruct (IBLOCK_home _ Hi). apply (rmw_wp me start s pins m ∅ (IBLOCK (i_inum x) sb)); try done.
  rewrite map_size_empty. lia.
Qed.

(** Storing an inode leaves the other inodes and the data alone. *)
Lemma put_other m x y :
  length (i_addrs x) = 13%nat → 0 ≤ i_inum x < sb_ninodes sb → 0 ≤ i_inum y < sb_ninodes sb → i_inum y ≠ i_inum x →
  on_disk m y → on_disk (put_inode m x) y.
Proof.
  intros Hl Hix Hiy Hn Hdk. unfold on_disk, put_inode. destruct (decide (IBLOCK (i_inum y) sb = IBLOCK (i_inum x) sb)) as [E|E].
  - rewrite E, fn_lookup_insert, get_put_dinode_ne; [by rewrite <-E|done|].
    destruct (IBLOCK_eq _ Hix) as [E1 _], (IBLOCK_eq _ Hiy) as [E2 _]. apply dip_apart; [lia|lia|done|lia].
  - by rewrite fn_lookup_insert_ne.
Qed.

Lemma put_self m x :
  fits x → length (m (IBLOCK (i_inum x) sb)) = Z.to_nat BSIZE → on_disk (put_inode m x) x.
Proof.
  intros Hf Hl. unfold on_disk, put_inode. rewrite fn_lookup_insert, get_put_dinode; [apply stored_id|done|]. rewrite Hl. apply dip_fits.
Qed.

Lemma put_data m x b : 0 ≤ i_inum x < sb_ninodes sb → isdata sb b ∨ b = sb_bmapstart sb → put_inode m x b = m b.
Proof.
  intros Hi Hb. apply fn_lookup_insert_ne. destruct (IBLOCK_not_data _ Hi) as (? & ? & _). intros E. rewrite E in *. tauto.
Qed.

Lemma put_inodes_ok m x : 0 ≤ i_inum x < sb_ninodes sb → inodes_ok m → inodes_ok (put_inode m x).
Proof.
  intros Hi Hm i Hr. unfold put_inode. destruct (decide (IBLOCK i sb = IBLOCK (i_inum x) sb)) as [E|E].
  - rewrite E, fn_lookup_insert. apply is_block_put_dinode. by apply Hm.
  - rewrite fn_lookup_insert_ne by done. by apply Hm.
Qed.

(** The blocks a file has. *)
Definition owns (m : Z → block) (x : inode) (b : Z) : Prop :=
  b ≠ 0 ∧ (b = ind x ∨ ∃ bn, 0 ≤ bn < MAXFILE ∧ b = addr m x bn).

Definition disjoint_files (m : Z → block) (x y : inode) : Prop := ∀ b, owns m x b → owns m y b → False.

Lemma owns_block m x b : ino_ok m x → owns m x b → inode_block sb m b.
Proof.
  intros Hx [H0 [->|(bn & Hbn & ->)]]; [by apply (io_ind _ _ _ Hx)|by apply (io_addr _ _ _ Hx)].
Qed.

Lemma ino_ok_addrs m x : ino_ok m x → Forall (λ a, 0 ≤ a < 2 ^ 32) (i_addrs x).
Proof.
  intros Hx. apply Forall_lookup_2. intros j a Hj. pose proof (io_len _ _ _ Hx) as Hl. pose proof (lookup_lt_Some _ _ _ Hj) as Hlt.
  destruct (decide (a = 0)) as [->|H0]; [lia|]. assert (owns m x a) as Ho.
  { split; [done|]. destruct (decide (j = 12%nat)) as [->|Hn].
    - left. unfold ind. change (Z.to_nat NDIRECT) with 12%nat. by rewrite Hj.
    - right. exists (Z.of_nat j). split; [change MAXFILE with 268; lia|]. unfold addr, NDIRECT.
      destruct (Z.ltb_spec (Z.of_nat j) 12); [|lia]. by rewrite Nat2Z.id, Hj. }
  destruct (owns_block _ _ _ Hx Ho) as [Hd _]. apply (isdata_home start sb Hsb Hlay) in Hd. lia.
Qed.

(** A disk that agrees on the blocks of a file. *)
Lemma addr_agree m m' x bn : (∀ b, owns m x b → m' b = m b) → addr m' x bn = addr m x bn.
Proof. intros Hm. apply addr_ext. intros Hi. apply Hm. split; [done|by left]. Qed.

Lemma ino_ok_agree m m' x :
  (∀ b, owns m x b → m' b = m b) → (∀ b, owns m x b → used m' sb b = true) → ino_ok m x → ino_ok m' x.
Proof.
  intros Hm Hu Hx. assert (∀ b, owns m x b → inode_block sb m' b) as Hk.
  { intros b Ho. destruct (owns_block _ _ _ Hx Ho) as (Hd & _ & Hb). split_and!; [done|by apply Hu|by rewrite Hm]. }
  destruct Hx as [X1 X2 X3 X4 X5]. constructor; [done|done| | |].
  - intros Hi. apply Hk. split; [done|by left].
  - intros bn Hbn. rewrite (addr_agree m m') by done. intros Hn. split; [|by apply X4]. apply Hk. split; [done|]. right. by exists bn.
  - intros bn bn'. rewrite !(addr_agree m m') by done. apply X5.
Qed.

Lemma fbyte_agree m m' x o : (∀ b, owns m x b → m' b = m b) → 0 ≤ o < MAXFILE * BSIZE → fbyte m' x o = fbyte m x o.
Proof.
  intros Hm Ho. unfold fbyte. rewrite (addr_agree m m') by done. destruct (Z.eqb_spec (addr m x (o / BSIZE)) 0); [done|].
  rewrite Hm; [done|]. split; [done|]. right. exists (o / BSIZE). split; [by apply block_index|done].
Qed.

Lemma owns_agree m m' x b : (∀ b, owns m x b → m' b = m b) → owns m' x b ↔ owns m x b.
Proof.
  intros Hm. unfold owns. split; (intros [H0 [?|(bn & Hbn & E)]]; [tauto|]); (split; [done|]; right; exists bn; split; [done|]).
  - by rewrite <-(addr_agree m m' x bn).
  - by rewrite (addr_agree m m' x bn).
Qed.

Lemma file_ok_agree m m' x :
  (∀ b, owns m x b → m' b = m b) → (∀ b, owns m x b → used m' sb b = true) → file_ok m x →
  file_ok m' x ∧ content m' x = content m x.
Proof.
  intros Hm Hu [F1 F2 F3 F4 F5]. split.
  - constructor; try done; [by eapply ino_ok_agree|]. intros o Ho. rewrite (addr_agree m m') by done. by apply F3.
  - apply fbytes_ext. intros i Hi. apply fbyte_agree; [done|lia].
Qed.

(** ** The effect of writei *)

(** The sequence [c] with [l] written at [off]. *)
Definition overwrite (c : list Z) (off : Z) (l : list Z) : list Z :=
  take (Z.to_nat off) c ++ l ++ drop (Z.to_nat off + length l) c.

Record written (m : Z → block) (x : inode) (m' : Z → block) (x' : inode) (off : Z) (l : list Z) : Prop := {
  wt_file : file_ok m' x';
  wt_content : content m' x' = overwrite (content m x) off l;
  wt_meta : x' = set_i_addrs (i_addrs x') (set_i_size (Z.max (i_size x) (off + Z.of_nat (length l))) x);
  wt_disk : on_disk m' x';
  wt_bitmap : bitmap_ok m';
  wt_inodes : inodes_ok m';
  wt_others : ∀ y, i_inum y ≠ i_inum x → file_ok m y → on_disk m y → disjoint_files m x y →
    file_ok m' y ∧ content m' y = content m y ∧ on_disk m' y ∧ disjoint_files m' x' y;
}.

Section finish.
Context (m : Z → block) (x : inode) (m1 : Z → block) (x1 : inode) (off : Z) (l : list Z).
Context (Hx : file_ok m x) (Hw : wrote m x m1 x1 off l) (Hi : inodes_ok m).
Context (Ho : 0 ≤ off ≤ i_size x) (Hol : off + Z.of_nat (length l) ≤ MAXFILE * BSIZE).
Let size' := Z.max (i_size x) (off + Z.of_nat (length l)).
Let x' := set_i_size size' x1.
Let m' := put_inode m1 x'.
Let ib := IBLOCK (i_inum x) sb.

Lemma finish_inum : i_inum x1 = i_inum x.
Proof. by rewrite (wr_meta _ _ _ _ _ _ Hw). Qed.

Lemma finish_meta : x' = set_i_addrs (i_addrs x') (set_i_size size' x).
Proof. unfold x'. rewrite (wr_meta _ _ _ _ _ _ Hw) at 1. by destruct x. Qed.

Lemma finish_ne b : b ≠ ib → m' b = m1 b.
Proof. intros Hb. unfold m', put_inode. cbn. rewrite finish_inum. by rewrite fn_lookup_insert_ne. Qed.

Lemma finish_data b : isdata sb b ∨ b = sb_bmapstart sb → m' b = m1 b.
Proof.
  intros Hb. apply finish_ne. destruct (IBLOCK_not_data _ (fo_inum _ _ Hx)) as (? & ? & _). intros ->. tauto.
Qed.

Lemma finish_used b : used m' sb b = used m1 sb b.
Proof. unfold used. rewrite finish_data; [done|by right]. Qed.

(** The inode blocks are not blocks of the file. *)
Lemma finish_inode_blocks i : 0 ≤ i < sb_ninodes sb → m1 (IBLOCK i sb) = m (IBLOCK i sb).
Proof.
  intros Hr. destruct (IBLOCK_not_data i Hr) as (Hnd & Hnb & Hn0). apply (wr_keeps _ _ _ _ _ _ Hw); [done| | |done].
  - intros E. apply Hnd. rewrite E. apply (owns_block _ _ _ (fo_ino _ _ Hx)). split; [congruence|by left].
  - intros bn Hbn E. apply Hnd. rewrite <-E. apply (owns_block _ _ _ (fo_ino _ _ Hx)). split; [congruence|].
    right. by exists bn.
Qed.

Lemma finish_ino_ok : ino_ok m' x'.
Proof.
  pose proof (wr_ok _ _ _ _ _ _ Hw) as Hk. eapply (ino_ok_agree m1).
  - intros b Hb. apply finish_data. left. apply (owns_block _ _ _ Hk Hb).
  - intros b Hb. rewrite finish_used. apply (owns_block _ _ _ Hk Hb).
  - by destruct Hk.
Qed.

Lemma finish_fbyte o : 0 ≤ o < MAXFILE * BSIZE → fbyte m' x' o = over off l (fbyte m x) o.
Proof.
  intros Hoo. rewrite <-(wr_bytes _ _ _ _ _ _ Hw) by done. apply (fbyte_agree m1 m' x1); [|done].
  intros b Hb. apply finish_data. left. apply (owns_block _ _ _ (wr_ok _ _ _ _ _ _ Hw) Hb).
Qed.

Lemma finish_dense : dense m' x'.
Proof.
  intros o Hoo. cbn in Hoo. change (addr m' x' (o / BSIZE)) with (addr m' x1 (o / BSIZE)).
  rewrite (addr_agree m1).
  2: { intros b Hb. apply finish_data. left. apply (owns_block _ _ _ (wr_ok _ _ _ _ _ _ Hw) Hb). }
  destruct (decide (o < i_size x)) as [Hlt|Hge].
  - pose proof (fo_dense _ _ Hx o ltac:(lia)) as Hn. pose proof (fo_size _ _ Hx).
    rewrite (wr_addr _ _ _ _ _ _ Hw); [done| |done]. apply block_index. lia.
  - apply (wr_full _ _ _ _ _ _ Hw). lia.
Qed.

Lemma finish_fits : fits x'.
Proof.
  pose proof (ino_ok_addrs _ _ finish_ino_ok) as Ha. pose proof (io_len _ _ _ finish_ino_ok) as Hl. destruct (fo_fits _ _ Hx).
  pose proof (fo_size _ _ Hx). assert (MAXFILE * BSIZE = 274432) as EM by done.
  rewrite finish_meta. constructor; cbn [i_type i_major i_minor i_nlink i_size i_addrs set_i_addrs set_i_size]; try done. lia.
Qed.

Lemma finish_file : file_ok m' x'.
Proof.
  pose proof (fo_size _ _ Hx). pose proof (fo_inum _ _ Hx).
  constructor; [apply finish_ino_ok|cbn; lia|apply finish_dense|apply finish_fits|cbn; by rewrite finish_inum].
Qed.

Lemma finish_content : content m' x' = overwrite (content m x) off l.
Proof.
  pose proof (fo_size _ _ Hx) as Hs. set (k := Z.of_nat (length l)) in *.
  assert (content m' x' = fbytes m' x' 0 off ++ fbytes m' x' off k ++ fbytes m' x' (off + k) (size' - (off + k))) as ->.
  { unfold content. cbn [i_size set_i_size x']. replace size' with (off + (k + (size' - (off + k)))) at 1 by lia.
    rewrite !fbytes_app by lia. by rewrite Z.add_0_l. }
  unfold overwrite. f_equal; [|f_equal].
  - rewrite <-(drop_0 (content m x)). change 0%nat with (Z.to_nat 0). rewrite take_drop_content, Z.min_l by lia.
    apply fbytes_ext. intros i Hii. rewrite finish_fbyte by lia. apply over_outside. lia.
  - apply list_eq. intros i. unfold fbytes. rewrite list_lookup_fmap. destruct (l !! i) as [c|] eqn:Hc.
    + pose proof (lookup_lt_Some _ _ _ Hc). rewrite (proj2 (lookup_seqZ off k i (off + Z.of_nat i))) by lia. cbn. f_equal.
      rewrite finish_fbyte by lia. apply over_inside; [|lia]. by replace (Z.to_nat (off + Z.of_nat i - off)) with i by lia.
    + apply lookup_ge_None_1 in Hc. rewrite lookup_seqZ_ge by lia. done.
  - replace (Z.to_nat off + length l)%nat with (Z.to_nat (off + k)) by lia. destruct (decide (off + k ≤ i_size x)) as [Hle|Hgt].
    + rewrite <-(take_ge (drop _ _) (Z.to_nat (i_size x - (off + k)))).
      2: { rewrite length_drop. unfold content. rewrite length_fbytes. lia. }
      rewrite take_drop_content by lia. replace (size' - (off + k)) with (i_size x - (off + k)) by lia.
      rewrite Z.min_l by lia. apply fbytes_ext. intros i Hii. rewrite finish_fbyte by lia. apply over_outside. lia.
    + rewrite drop_ge by (unfold content; rewrite length_fbytes; lia). by replace (size' - (off + k)) with 0 by lia.
Qed.

Lemma finish_bitmap : bitmap_ok m'.
Proof.
  destruct (wr_bitmap _ _ _ _ _ _ Hw) as [B1 B2]. split; [|rewrite finish_data; [done|by right]].
  intros b Hb. rewrite finish_used. by apply B1.
Qed.

Lemma finish_inodes : inodes_ok m'.
Proof.
  apply put_inodes_ok; [cbn; rewrite finish_inum; apply (fo_inum _ _ Hx)|]. intros i Hr. rewrite finish_inode_blocks by done. by apply Hi.
Qed.

(** Another file. *)
Lemma finish_agree y b : ino_ok m y → disjoint_files m x y → owns m y b → m' b = m b ∧ used m' sb b = true.
Proof.
  intros Hy Hd Hb. destruct (owns_block _ _ _ Hy Hb) as (Hdb & Hub & _).
  pose proof (isdata_nz start sb Hsb Hlay b Hdb) as (H0 & Hbb & Hr). split.
  - rewrite finish_data by (by left). apply (wr_keeps _ _ _ _ _ _ Hw); [done| | |done].
    + intros ->. apply (Hd _ ltac:(split; [done|by left]) Hb).
    + intros bn Hbn <-. apply (Hd (addr m x bn)); [|done]. split; [done|]. right. by exists bn.
  - rewrite finish_used. by apply (wr_used _ _ _ _ _ _ Hw).
Qed.

(** The blocks the file has afterwards are its own or were free. *)
Lemma finish_owns b : owns m' x' b → owns m x b ∨ used m sb b = false.
Proof.
  intros Hb. assert (owns m1 x1 b) as [H0 [Eb|(bn & Hbn & Eb)]].
  { apply (owns_agree m1 m' x1); [|exact Hb]. intros c Hc. apply finish_data. left.
    apply (owns_block _ _ _ (wr_ok _ _ _ _ _ _ Hw) Hc). }
  - subst b. destruct (wr_ind _ _ _ _ _ _ Hw) as [E|(_ & _ & ?)]; [|by right]. left. split; [done|by left].
  - subst b. destruct (decide (addr m x bn = 0)) as [E|E].
    + right. by apply (wr_new _ _ _ _ _ _ Hw).
    + left. split; [done|]. right. exists bn. split; [done|]. by apply (wr_addr _ _ _ _ _ _ Hw).
Qed.

(** The inodes on disk with other numbers. *)
Lemma finish_slots y : i_inum y ≠ i_inum x → 0 ≤ i_inum y < sb_ninodes sb → on_disk m y → on_disk m' y.
Proof.
  intros Hn Hiy Hdk. apply put_other; [apply (ft_len _ finish_fits)|cbn; rewrite finish_inum; apply (fo_inum _ _ Hx)|done|cbn; by rewrite finish_inum|].
  unfold on_disk. by rewrite finish_inode_blocks.
Qed.

Lemma finish_others y :
  i_inum y ≠ i_inum x → file_ok m y → on_disk m y → disjoint_files m x y →
  file_ok m' y ∧ content m' y = content m y ∧ on_disk m' y ∧ disjoint_files m' x' y.
Proof.
  intros Hn Hy Hdk Hd. pose proof (fo_ino _ _ Hy) as Hyi.
  assert (∀ b, owns m y b → m' b = m b) as Hm by (intros b Hb; by eapply (finish_agree y b)).
  destruct (file_ok_agree m m' y) as [Hf Hc]; [done| |done|].
  { intros b Hb. by eapply (finish_agree y b). }
  split_and!; [done|done| |].
  - apply finish_slots; [done|apply Hy|done].
  - intros b Hb Hb'%(owns_agree m m' y b Hm). destruct (finish_owns b Hb) as [Hb1|Hu]; [by apply (Hd b)|].
    destruct (owns_block _ _ _ Hyi Hb') as (_ & ? & _). congruence.
Qed.

Lemma finish_disk : on_disk m' x'.
Proof.
  apply put_self; [apply finish_fits|]. cbn. rewrite finish_inum, finish_inode_blocks by apply (fo_inum _ _ Hx).
  apply (Hi _ (fo_inum _ _ Hx)).
Qed.

Lemma finish_written : written m x m' x' off l.
Proof.
  constructor; [apply finish_file|apply finish_content|apply finish_meta|apply finish_disk|apply finish_bitmap|
    apply finish_inodes|apply finish_others].
Qed.
End finish.

(** [writei] writes what it is given at [off], up to the end of the disk. *)
Definition writei_post (ip : nat) (s : kernel) (pins : gset Z) (m : Z → block) (x : inode) (off : Z) (data : list Z)
    (r : Z) (s' : kernel) : Prop :=
  0 ≤ r ≤ Z.of_nat (length data) ∧ aligned (Z.of_nat (length data)) off r ∧ fdid me s s' ∧
  ∃ m' x' pins', txn s' pins' m' ∅ ∧ k_inode s' = <[ip := x']> (k_inode s) ∧
    written m x m' x' off (take (Z.to_nat r) data) ∧
    (size pins' ≤ size pins + 3 + iters (Z.of_nat (length data)) 0 off)%nat ∧
    (r < Z.of_nat (length data) → all_used sb m').

Lemma writei_wp s pins m ip x off data :
  k_sb s = sb → txn s pins m ∅ → k_inode s !! ip = Some x → file_ok m x → bitmap_ok m → inodes_ok m →
  0 ≤ off ≤ i_size x → off + Z.of_nat (length data) ≤ MAXFILE * BSIZE → bytes data →
  (size pins + iters (Z.of_nat (length data)) 0 off + 6 < Z.to_nat NBUF)%nat →
  wp (writei me ip Local data off (Z.of_nat (length data))) s (writei_post ip s pins m x off data).
Proof.
  intros Esb Ht Hip Hf Hb Hi Ho Hon Hdat Hsz. unfold writei. set (n := Z.of_nat (length data)) in *.
  assert (MAXFILE * BSIZE = 274432) as EM by done.
  apply wp_bind. eapply wp_Ok; [by apply get_inode_run|]. cbv beta. rewrite u32_small by lia.
  destruct (Z.ltb_spec (i_size x) off); [lia|]. destruct (Z.ltb_spec (off + n) off); [lia|]. cbn [orb].
  destruct (Z.ltb_spec (MAXFILE * BSIZE) (off + n)); [lia|].
  apply wp_bind. eapply wp_mono; [eapply (writei_loop s pins m ip x off n data); try done; first [apply Hf|lia]|].
  cbv beta. intros [tot o] s1 (Htot & Hal & -> & Hd1 & x1 & m1 & pins1 & W & Ht1 & Hi1 & Hw1 & Hp1 & HW & Hfull).
  assert (k_inode s1 !! ip = Some x1) as Hip1.
  { rewrite Hi1. apply list_lookup_insert_eq. by apply lookup_lt_Some in Hip. }
  apply wp_bind. eapply wp_Ok; [by apply get_inode_run|]. cbv beta.
  assert (length (take (Z.to_nat tot) data) = Z.to_nat tot) as Hlt by (rewrite length_take; lia).
  set (x' := set_i_size (Z.max (i_size x) (off + tot)) x1).
  assert (i_size x1 = i_size x) as Esz by (by rewrite (wr_meta _ _ _ _ _ _ Hw1)).
  assert (i_inum x1 = i_inum x) as Einum by (by rewrite (wr_meta _ _ _ _ _ _ Hw1)).
  set (s2 := set_k_inode (<[ip := x']> (k_inode s1)) s1).
  apply wp_bind. eapply (wp_Ok _ _ tt s2).
  { rewrite Esz. destruct (Z.ltb_spec (i_size x) (off + tot)).
    - rewrite (upd_inode_run s1 ip x1) by done. unfold s2, x'. by rewrite Z.max_r by lia.
    - unfold s2, x'. rewrite Z.max_l, <-Esz by lia. replace (set_i_size (i_size x1) x1) with x1 by (by destruct x1).
      rewrite list_insert_id by done. by destruct s1. }
  pose proof (size_wpins pins x1 W) as Hsp. pose proof (size_le _ _ Hp1) as Hsp1.
  assert (k_inode s2 !! ip = Some x') as Hip2.
  { unfold s2. cbn. apply list_lookup_insert_eq. by apply lookup_lt_Some in Hip1. }
  assert (fdid me s s2) as Hd2 by (eapply fdid_trans; [exact Hd1|apply fdid_upd]).
  cbv beta. apply wp_bind. eapply wp_mono; [eapply (iupdate_wp s2 pins1 m1 ip x')|].
  - by rewrite (fdid_sb _ _ _ Hd2).
  - by apply txn_inode.
  - done.
  - apply (wr_ok _ _ _ _ _ _ Hw1).
  - unfold x'. cbn. rewrite Einum. apply Hf.
  - lia.
  - cbv beta. intros [] s3 [Ht3 Hd3]. apply wp_ret. rewrite i32_small by lia. split; [lia|]. split; [done|].
    split; [eapply fdid_trans; [exact Hd2|by apply fdid_did]|].
    exists (put_inode m1 x'), x', ({[IBLOCK (i_inum x') sb]} ∪ pins1). split_and!; [done| | | |].
    + rewrite (did_inode _ _ _ _ Hd3). unfold s2. cbn. rewrite Hi1. by rewrite list_insert_insert_eq.
    + assert (x' = set_i_size (Z.max (i_size x) (off + Z.of_nat (length (take (Z.to_nat tot) data)))) x1) as ->.
      { unfold x'. do 2 f_equal. lia. }
      apply finish_written; [done..|]. lia.
    + pose proof (size_union_le (IBLOCK (i_inum x') sb) pins1). fold n. lia.
    + intros Hlt' b Hbb. unfold used, put_inode. cbn [i_inum x' set_i_size]. rewrite Einum.
      destruct (IBLOCK_not_data _ (fo_inum _ _ Hf)) as (_ & ? & _). rewrite fn_lookup_insert_ne by done. by apply Hfull.
Qed.

(** Out of range: nothing is written. *)
Lemma writei_out_of_range s ip x src local off n :
  k_inode s !! ip = Some x → 0 ≤ off < 2 ^ 32 → 0 ≤ n < 2 ^ 32 → 
  i_size x < off ∨ MAXFILE * BSIZE < off + n → writei me ip src local off n s = Ok (-1, s).
Proof.
  intros Hip Ho Hn Hc. unfold writei. rewrite (bind_Ok_1 _ _ _ _ _ (get_inode_run _ _ _ Hip)).
  assert (MAXFILE * BSIZE = 274432) as EM by done. destruct (Z.ltb_spec (i_size x) off); [done|]. cbn [orb].
  destruct (decide (off + n < 2 ^ 32)) as [Hlt|Hge].
  - rewrite u32_small by lia. destruct (Z.ltb_spec (off + n) off); [done|].
    destruct (Z.ltb_spec (MAXFILE * BSIZE) (off + n)); [done|lia].
  - unfold u32. replace (off + n) with (off + n - 2 ^ 32 + 1 * 2 ^ 32) by lia. rewrite Z.mod_add, Z.mod_small by lia.
    destruct (Z.ltb_spec (off + n - 2 ^ 32) off); [done|lia].
Qed.

(** One call of [writei] by [filewrite] fits in the reservation of an
    operation. *)
Lemma iters_write_max n off : 0 ≤ n ≤ write_max → (3 + iters n 0 off ≤ Z.to_nat MAXOPBLOCKS)%nat.
Proof.
  intros Hn. unfold iters. case_match; [|vm_compute; lia]. pose proof (Z.mod_pos_bound off BSIZE ltac:(done)) as Hm.
  change write_max with 3072 in Hn. assert ((n - 0 + off mod BSIZE + (BSIZE - 1)) / BSIZE ≤ 4); [|change MAXOPBLOCKS with 10; lia].
  unfold BSIZE in *. apply Z.lt_succ_r, Z.div_lt_upper_bound; lia.
Qed.
End readwrite.

(** C8: [writei] in a transaction implements overwriting a sequence of bytes.
    Called with bytes in a kernel variable at an offset inside the file or at
    its end, it returns the number of bytes written, which is all of them unless
    every block of the disk is in use; afterwards the content of the file is the old
    one with these bytes at that offset, its size has grown if it had to, the
    inode on the disk is the one in memory, the file still has no holes, and
    every other file has its content, its inode and blocks of its own.  Any [readi] of
    the file then returns what is there. *)
Theorem writei_overwrites `{KernelImage} (me : nat) (start : Z) (sb : superblock) (s : kernel) (pins : gset Z)
    (m : Z → block) (ip : nat) (x : inode) (off : Z) (data : list Z) :
  fslayout start sb → layout start → k_sb s = sb → txn me start s pins m ∅ → k_inode s !! ip = Some x →
  file_ok sb m x → bitmap_ok sb m → inodes_ok sb m → bytes data →
  0 ≤ off ≤ i_size x → off + Z.of_nat (length data) ≤ MAXFILE * BSIZE →
  (size pins + iters (Z.of_nat (length data)) 0 off + 6 < Z.to_nat NBUF)%nat →
  ∃ r s' m' x' pins', writei me ip Local data off (Z.of_nat (length data)) s = Ok (r, s') ∧
    0 ≤ r ≤ Z.of_nat (length data) ∧ (r < Z.of_nat (length data) → all_used sb m') ∧
    txn me start s' pins' m' ∅ ∧ k_inode s' = <[ip := x']> (k_inode s) ∧
    written sb m x m' x' off (take (Z.to_nat r) data) ∧
    ∀ o n, 0 ≤ o → 0 ≤ n → o + n < 2 ^ 32 →
      let l := take (Z.to_nat n) (drop (Z.to_nat o) (overwrite (content m x) off (take (Z.to_nat r) data))) in
      ∃ s'', readi me ip Local o n s' = Ok ((Z.of_nat (length l), l), s'') ∧ txn me start s'' pins' m' ∅.
Proof.
  intros Hsb Hlay Esb Ht Hip Hf Hb Hi Hdat Ho Hon Hsz.
  destruct (wp_elim _ _ _ (writei_wp me start sb Hsb Hlay s pins m ip x off data Esb Ht Hip Hf Hb Hi Ho Hon Hdat Hsz))
    as (r & s' & Hrun & Hr & _ & Hd & m' & x' & pins' & Ht' & Hi' & Hw & Hsz' & Hfull).
  exists r, s', m', x', pins'. split_and!; try done; try lia. intros o n Hoo Hn Hon' l.
  assert (k_inode s' !! ip = Some x') as Hip'.
  { rewrite Hi'. apply list_lookup_insert_eq. by apply lookup_lt_Some in Hip. }
  destruct (wp_elim _ _ _ (readi_wp me start sb s' pins' m' ip x' o n Ht' Hip' (wt_file _ _ _ _ _ _ _ Hw) Hoo Hn Hon' ltac:(lia)))
    as (q & s'' & Hrun' & Hq & Ht'' & _).
  exists s''. rewrite Hrun', Hq, (wt_content _ _ _ _ _ _ _ Hw). done.
Qed.


(** An empty file on a small disk. *)
Module SmallFile.
Import SmallDisk.
#[local] Instance no_image : KernelImage := {| kernel_end := 0; kernel_etext := 0; kernel_trampoline := 0 |}.
Definition empty : inode := Inode ROOTDEV 5 1 sleeplock0 true 2 0 0 1 0 (replicate 13 0).
Definition opened : kernel := set_k_inode [empty] on.
Definition hello : list Z := [104; 101; 108; 108; 111].

Lemma opened_txn : txn 0 2 opened ∅ (disk_block disk) ∅ ∧ k_sb opened = sb ∧ k_inode opened !! 0%nat = Some empty.
Proof.
  destruct on_ok as (Ht & Es & _). unfold opened. generalize dependent on. intros s Ht Es.
  split_and!; [by apply txn_inode|by destruct s|by destruct s].
Qed.

Lemma addr_empty m bn : addr m empty bn = 0.
Proof.
  unfold addr. destruct (bn <? NDIRECT); [|done]. destruct (decide (Z.to_nat bn < 13)%nat).
  - unfold empty. cbn [i_addrs]. by rewrite lookup_replicate_2.
  - rewrite lookup_ge_None_2; [done|]. cbn. lia.
Qed.

Lemma empty_file_ok m : file_ok sb m empty.
Proof.
  constructor.
  - constructor; try done.
    + intros bn _. by rewrite addr_empty.
    + intros bn bn' _ _. by rewrite addr_empty.
  - done.
  - intros o Ho. cbn in Ho. lia.
  - constructor; try done. apply Forall_replicate. done.
  - done.
Qed.

Lemma small_bitmap_ok : bitmap_ok sb (disk_block disk).
Proof. split; [apply meta_used_disk|apply is_block_bitmap]. Qed.

Lemma small_inodes_ok : inodes_ok sb (disk_block disk).
Proof.
  intros i Hi. cbn in Hi. assert (IBLOCK i sb = 33) as ->; [|apply is_block_zero].
  unfold IBLOCK. change IPB with 16. cbn [sb_inodestart sb]. rewrite Z.div_small by lia. done.
Qed.

Lemma hello_bytes : bytes hello.
Proof. apply (bool_decide_unpack _). vm_compute. done. Qed.
Lemma hello_range : 0 ≤ 0 ≤ i_size empty.
Proof. done. Qed.
Lemma hello_end : 0 + Z.of_nat (length hello) ≤ MAXFILE * BSIZE.
Proof. vm_compute. done. Qed.
Lemma hello_room : (size (∅ : gset Z) + iters (Z.of_nat (length hello)) 0 0 + 6 < Z.to_nat NBUF)%nat.
Proof. rewrite size_empty. vm_compute. lia. Qed.
Lemma hello_one : 0 ≤ 1 < 2 ^ 32.
Proof. done. Qed.
Lemma hello_max : Z.of_nat (length hello) ≤ write_max.
Proof. done. Qed.

(** Writing five bytes to the file and reading them back. *)
Lemma writei_overwrites_witness :
  ∃ s' s'', writei 0 0 Local hello 0 5 opened = Ok (5, s') ∧ readi 0 0 Local 0 100 s' = Ok ((5, hello), s'').
Proof.
  destruct opened_txn as (Ht & Es & Hip).
  pose proof (writei_overwrites 0 2 sb opened ∅ (disk_block disk) 0 empty 0 hello fslayout_sb layout_start Es Ht Hip (empty_file_ok _)
    small_bitmap_ok small_inodes_ok hello_bytes hello_range hello_end hello_room) as Hw.
  assert (match writei 0 0 Local hello 0 5 opened with Ok (r, _) => r | _ => 0 end = 5) as E by (vm_compute; reflexivity).
  clear Es Ht Hip. change (Z.of_nat (length hello)) with 5 in Hw. generalize dependent opened. intros st Hw E.
  destruct Hw as (r & s' & m' & x' & pins' & Hrun & _ & _ & _ & _ & _ & Hread). rewrite Hrun in E. subst r. exists s'.
  destruct (Hread 0 100 ltac:(done) ltac:(done) ltac:(done)) as (s'' & Hread' & _). exists s''. by split.
Defined.

End SmallFile.
