(* ===== verification/DirSpec.v ===== *)
(** Paths and directories.

    [skipelem], called until it fails, walks through the elements of a path:
    the non-empty strings between its slashes.  A directory is a file of
    entries; [dirlookup] finds the first entry with a name, and [dirlink]
    adds one without changing what any other name means. *)

From stdpp Require Import functions.
From S2P Require Import Prelude Riscv Mem Str Kalloc Vm State Sched SchedSpec Procmem Console ConsoleSpec Sleeplock Bio BioSpec Cache Block Log LogSpec Fs Dir FsSpec Pipe File Content Dinode ReadWrite.

(** * Paths *)

(** The strings between the slashes of a path, the first of them being read
    when the path begins. *)
Fixpoint split_slash (path : list Z) : list (list Z) :=
  match path with
  | [] => [[]]
  | c :: path' =>
      if c =? SLASH then [] :: split_slash path'
      else match split_slash path' with
           | s :: l => (c :: s) :: l
           | [] => [[c]]
           end
  end.
Definition elements (path : list Z) : list (list Z) := filter (λ s, s ≠ []) (split_slash path).

(** The string in a [char] array. *)
Fixpoint upto_nul (l : list Z) : list Z :=
  match l with
  | [] => []
  | c :: l' => if c =? 0 then [] else c :: upto_nul l'
  end.

(** The names that [skipelem] produces, one call after the other. *)
Fixpoint walk_path (fuel : nat) (path name : list Z) : option (list (list Z)) :=
  match fuel with
  | O => None
  | S n =>
      match skipelem path name with
      | None => Some []
      | Some (path', name') => l ← walk_path n path' name'; Some (upto_nul name' :: l)
      end
  end.

Lemma split_slash_cons path : ∃ s l, split_slash path = s :: l.
Proof. destruct path as [|c path]; cbn; [by eexists _, _|]. destruct (c =? SLASH); [by eexists _, _|]. destruct (split_slash path); by eexists _, _. Qed.

Lemma elements_skip path : elements (skip_slashes path) = elements path.
Proof. induction path as [|c path IH]; [done|]. cbn [skip_slashes]. destruct (c =? SLASH) eqn:E; [|done]. unfold elements in *. cbn. by rewrite E. Qed.

Lemma skip_slashes_length path : (length (skip_slashes path) ≤ length path)%nat.
Proof. induction path as [|c path IH]; cbn; [lia|]. destruct (c =? SLASH); cbn; lia. Qed.

Lemma skip_slashes_head path c l : skip_slashes path = c :: l → c ≠ SLASH.
Proof.
  induction path as [|c' path IH]; [done|]. cbn. destruct (Z.eqb_spec c' SLASH); [done|]. by intros [= -> ->].
Qed.

Lemma take_elem_spec path s rest :
  take_elem path = (s, rest) →
  path = s ++ rest ∧ SLASH ∉ s ∧
  ∃ l, split_slash path = s :: l ∧ (rest = [] ∧ l = [] ∨ ∃ r, rest = SLASH :: r ∧ split_slash r = l).
Proof.
  revert s rest. induction path as [|c path IH]; intros s rest; cbn.
  - intros [= <- <-]. split_and!; [done|apply not_elem_of_nil|]. exists []. eauto.
  - destruct (Z.eqb_spec c SLASH) as [->|Hc].
    + intros [= <- <-]. split_and!; [done|apply not_elem_of_nil|]. exists (split_slash path). eauto.
    + destruct (take_elem path) as [s' r'] eqn:E. intros [= <- <-]. destruct (IH s' r' eq_refl) as (-> & Hs & l & -> & Hl).
      split_and!; [done|set_solver|]. by exists l.
Qed.

Lemma elements_split s l path : split_slash path = s :: l → s ≠ [] → elements path = s :: filter (λ s, s ≠ []) l.
Proof. intros E Hs. unfold elements. rewrite E. by rewrite filter_cons_True. Qed.

Lemma upto_nul_app s l : 0 ∉ s → upto_nul (s ++ 0 :: l) = s.
Proof. induction s as [|c s IH]; intros Hn; cbn; [done|]. destruct (Z.eqb_spec c 0); [set_solver|]. f_equal. apply IH. set_solver. Qed.
Lemma upto_nul_all s : 0 ∉ s → upto_nul s = s.
Proof. induction s as [|c s IH]; intros Hn; cbn; [done|]. destruct (Z.eqb_spec c 0); [set_solver|]. f_equal. apply IH. set_solver. Qed.

(** One call of [skipelem]. *)
Lemma skipelem_spec path name :
  0 ∉ path → length name = Z.to_nat DIRSIZ →
  match skipelem path name with
  | None => elements path = []
  | Some (path', name') => ∃ s, elements path = s :: elements path' ∧ upto_nul name' = take (Z.to_nat DIRSIZ) s ∧
      length name' = Z.to_nat DIRSIZ ∧ 0 ∉ path' ∧ (length path' < length path)%nat
  end.
Proof.
  intros Hz Hl. unfold skipelem. destruct (skip_slashes path) as [|c l] eqn:E.
  { by rewrite <-elements_skip, E. }
  pose proof (skip_slashes_head _ _ _ E) as Hc. pose proof (skip_slashes_length path) as Hlen. rewrite E in Hlen.
  assert (0 ∉ c :: l) as Hz'.
  { rewrite <-E. clear -Hz. induction path as [|c' path IH]; [done|]. cbn. destruct (c' =? SLASH); [|done]. apply IH. set_solver. }
  destruct (take_elem (c :: l)) as [s rest] eqn:Et. destruct (take_elem_spec _ _ _ Et) as (Hsr & Hns & l' & Hsp & Hl').
  assert (s ≠ []) as Hs0. { intros ->. cbn in Hsr. rewrite <-Hsr in Hl'. destruct Hl' as [[? _]|(r & [= ? _] & _)]; done. }
  assert (0 ∉ s ∧ 0 ∉ rest) as [Hzs Hzr] by (rewrite Hsr in Hz'; set_solver).
  assert (length (c :: l) = length s + length rest)%nat as Hlsr by (by rewrite Hsr, length_app).
  exists s. split_and!.
  - rewrite <-elements_skip, E, (elements_split s l' _ Hsp Hs0). f_equal. rewrite elements_skip.
    destruct Hl' as [[-> ->]|(r & -> & <-)]; [done|]. unfold elements. cbn. done.
  - destruct (Nat.leb_spec (Z.to_nat DIRSIZ) (length s)) as [Hge|Hlt].
    + assert (list_inserts 0 (take (Z.to_nat DIRSIZ) s) name = take (Z.to_nat DIRSIZ) s) as ->.
      { apply list_eq_same_length with (Z.to_nat DIRSIZ); rewrite ?length_inserts, ?length_take; [lia|lia|].
        intros i x y Hi Hx Hy. rewrite list_lookup_inserts in Hx by (rewrite ?length_take; lia).
        rewrite Nat.sub_0_r in Hx. congruence. }
      apply upto_nul_all. intros Hin. by apply elem_of_take in Hin as (i & Hi%list_elem_of_lookup_2 & _).
    + rewrite take_ge by lia. rewrite <-(upto_nul_app s (drop (S (length s)) name) Hzs) at 2. f_equal.
      apply list_eq_same_length with (Z.to_nat DIRSIZ); rewrite ?length_inserts, ?length_app; cbn [length]; rewrite ?length_drop; [lia|lia|].
      intros i x y Hi Hx Hy. destruct (decide (i < S (length s))%nat) as [Hlt'|Hge'].
      * rewrite list_lookup_inserts in Hx by (rewrite ?length_app; cbn; lia). rewrite Nat.sub_0_r in Hx.
        replace (s ++ 0 :: drop (S (length s)) name) with ((s ++ [0]) ++ drop (S (length s)) name) in Hy by (by rewrite <-app_assoc).
        rewrite lookup_app_l in Hy by (rewrite length_app; cbn; lia). congruence.
      * rewrite list_lookup_inserts_ge in Hx by (rewrite ?length_app; cbn; lia).
        replace (s ++ 0 :: drop (S (length s)) name) with ((s ++ [0]) ++ drop (S (length s)) name) in Hy by (by rewrite <-app_assoc).
        rewrite lookup_app_r, lookup_drop in Hy by (rewrite length_app; cbn; lia). rewrite length_app in Hy. cbn in Hy.
        replace (S (length s + (i - (length s + 1)))) with i in Hy by lia. congruence.
  - case_match; by rewrite length_inserts.
  - clear -Hzr. induction rest as [|c' rest IH]; [done|]. cbn. destruct (c' =? SLASH); [|done]. apply IH. set_solver.
  - pose proof (skip_slashes_length rest). destruct s; [done|]. cbn in *. lia.
Qed.

Lemma walk_elements fuel : ∀ path name,
  0 ∉ path → length name = Z.to_nat DIRSIZ → (length path < fuel)%nat →
  walk_path fuel path name = Some (take (Z.to_nat DIRSIZ) <$> elements path).
Proof.
  induction fuel as [|fuel IH]; intros path name Hz Hl Hf; [lia|]. cbn [walk_path]. pose proof (skipelem_spec path name Hz Hl) as Hs.
  destruct (skipelem path name) as [[path' name']|]; [|by rewrite Hs]. destruct Hs as (s & -> & Hu & Hl' & Hz' & Hlt).
  rewrite (IH path' name' Hz' Hl' ltac:(lia)). cbn. by rewrite Hu.
Qed.

(** [skipelem] splits a path at its slashes: called until it
    returns 0, it yields the non-empty strings between the slashes, in order and each cut to
    [DIRSIZ] characters, and nothing else, whatever was in the array [name].
    It needs at most one call for each character and one more, which bounds the
    loop of [namex]. *)
Theorem skipelem_splits (path name : list Z) :
  0 ∉ path → length name = Z.to_nat DIRSIZ →
  walk_path (S (length path)) path name = Some (take (Z.to_nat DIRSIZ) <$> elements path).
Proof. intros Hz Hl. apply walk_elements; [done|done|lia]. Qed.

(** The path "//usr/bin//". *)
Lemma skipelem_splits_witness :
  walk_path 12 [47; 47; 117; 115; 114; 47; 98; 105; 110; 47; 47] (replicate 14 0) = Some [[117; 115; 114]; [98; 105; 110]].
Proof.
  refine (eq_trans (skipelem_splits [47; 47; 117; 115; 114; 47; 98; 105; 110; 47; 47] (replicate 14 0) _ _) _).
  - apply (bool_decide_unpack _). vm_compute. done.
  - reflexivity.
  - reflexivity.
Defined.

(** * Directories *)

(** The entries of a directory with content [c]. *)
Definition entries (c : list Z) : list dirent :=
  (λ i, dirent_of (take 16 (drop (16 * i) c))) <$> seq 0 (length c / 16).

Definition matches (name : list Z) (de : dirent) : Prop := de_inum de ≠ 0 ∧ namecmp name (de_name de) = 0.
#[export] Instance matches_dec name de : Decision (matches name de).
Proof. unfold matches. apply _. Defined.

(** The first entry with a name, and its index. *)
Definition dfind (name : list Z) (l : list dirent) : option (nat * dirent) := list_find (matches name) l.

Lemma length_entries c : length (entries c) = (length c / 16)%nat.
Proof. unfold entries. by rewrite length_fmap, length_seq. Qed.

Lemma entries_lookup c i :
  (i < length c / 16)%nat → entries c !! i = Some (dirent_of (take 16 (drop (16 * i) c))).
Proof. intros Hi. unfold entries. rewrite list_lookup_fmap, lookup_seq_lt by done. done. Qed.

Lemma matches_eq name de de' : de = de' → matches name de → matches name de'.
Proof. by intros ->. Qed.

(** ** Adding an entry *)

(** Where [dirlink] puts an entry: the first empty one, or the end. *)
Definition slot (l : list dirent) : nat :=
  match list_find (λ de, de_inum de = 0) l with Some (j, _) => j | None => length l end.

Lemma slot_le l : (slot l ≤ length l)%nat.
Proof.
  unfold slot. destruct (list_find _ l) as [[j de]|] eqn:E; [|done]. apply list_find_Some in E as (Hj & _).
  apply lookup_lt_Some in Hj. lia.
Qed.
Lemma slot_empty l de : l !! slot l = Some de → de_inum de = 0.
Proof.
  unfold slot. destruct (list_find _ l) as [[j e]|] eqn:E.
  - apply list_find_Some in E as (Hj & He & _). rewrite Hj. by intros [= <-].
  - intros Hl%lookup_lt_Some. lia.
Qed.

Lemma overwrite_lookup c off l i :
  0 ≤ off → (Z.to_nat off ≤ length c)%nat →
  overwrite c off l !! i =
    if decide (i < Z.to_nat off)%nat then c !! i
    else if decide (i < Z.to_nat off + length l)%nat then l !! (i - Z.to_nat off)%nat else c !! i.
Proof.
  intros Ho Hc. unfold overwrite. assert (length (take (Z.to_nat off) c) = Z.to_nat off) as Hl by (rewrite length_take; lia).
  case_decide as H1; [rewrite lookup_app_l, lookup_take_lt by lia; done|]. rewrite lookup_app_r, Hl by lia.
  case_decide as H2; [by rewrite lookup_app_l by lia|]. rewrite lookup_app_r, lookup_drop by lia. f_equal. lia.
Qed.

Lemma length_overwrite c off l :
  0 ≤ off → (Z.to_nat off ≤ length c)%nat → length (overwrite c off l) = (length c `max` (Z.to_nat off + length l))%nat.
Proof. intros Ho Hc. unfold overwrite. rewrite !length_app, length_take, length_drop. lia. Qed.

Lemma entries_overwrite c j l i :
  length c = (16 * (length c / 16))%nat → (j ≤ length c / 16)%nat → length l = 16%nat →
  entries (overwrite c (16 * Z.of_nat j) l) !! i = if decide (i = j) then Some (dirent_of l) else entries c !! i.
Proof.
  intros Hc Hj Hl. assert (length (overwrite c (16 * Z.of_nat j) l) / 16 = (length c / 16) `max` (j + 1))%nat as Hn.
  { rewrite length_overwrite, Hl by lia. destruct (decide (j < length c / 16)%nat).
    - rewrite Nat.max_l, Nat.max_l by lia. done.
    - replace (length c `max` (Z.to_nat (16 * Z.of_nat j) + 16))%nat with ((j + 1) * 16)%nat by lia. rewrite Nat.div_mul by lia. lia. }
  assert (∀ k, (k < 16)%nat → overwrite c (16 * Z.of_nat j) l !! (16 * i + k)%nat = if decide (i = j) then l !! k else c !! (16 * i + k)%nat) as Hlk.
  { intros k Hk. rewrite overwrite_lookup, Hl by lia. repeat case_decide; try lia; first [done|f_equal; lia]. }
  assert (take 16 (drop (16 * i) (overwrite c (16 * Z.of_nat j) l)) = if decide (i = j) then take 16 l else take 16 (drop (16 * i) c)) as Hf.
  { apply list_eq. intros k. destruct (decide (k < 16)%nat).
    - rewrite lookup_take_lt, lookup_drop, Hlk by done. case_decide; by rewrite lookup_take_lt, ?lookup_drop.
    - rewrite lookup_take_ge by lia. case_decide; by rewrite lookup_take_ge by lia. }
  destruct (decide (i < (length c / 16) `max` (j + 1))%nat) as [Hi|Hi].
  - rewrite entries_lookup by (rewrite Hn; lia). rewrite Hf. case_decide as E; [by rewrite take_ge by lia|]. by rewrite entries_lookup by lia.
  - rewrite lookup_ge_None_2 by (rewrite length_entries, Hn; lia). rewrite decide_False by lia.
    symmetry. apply lookup_ge_None_2. rewrite length_entries. lia.
Qed.

(** What the other names mean does not change. *)
Section add.
Context (l l' : list dirent) (j : nat) (de : dirent).
Context (Hj : ∀ e, l !! j = Some e → de_inum e = 0) (Hl : ∀ i, l' !! i = if decide (i = j) then Some de else l !! i).

Lemma dfind_new name : dfind name l = None → matches name de → dfind name l' = Some (j, de).
Proof.
  intros Hn Hm. apply list_find_None in Hn. apply list_find_Some. split_and!; [by rewrite Hl, decide_True|done|].
  intros i y Hy Hi. rewrite Hl, decide_False in Hy by lia. by apply (Forall_lookup_1 _ _ _ _ Hn Hy).
Qed.

Lemma dfind_other name : ¬ matches name de → dfind name l' = dfind name l.
Proof.
  intros Hm. unfold dfind. destruct (list_find (matches name) l) as [[i e]|] eqn:E.
  - apply list_find_Some in E as (Hi & He & Hmin). assert (i ≠ j) as Hij by (intros ->; apply Hj in Hi; by destruct He).
    apply list_find_Some. split_and!; [by rewrite Hl, decide_False|done|]. intros k y Hk Hlt.
    rewrite Hl in Hk. case_decide; [by injection Hk as <-|]. by apply (Hmin k y).
  - apply list_find_None in E. apply list_find_None, Forall_lookup_2. intros k y Hk. rewrite Hl in Hk.
    case_decide; [by injection Hk as <-|]. exact (Forall_lookup_1 _ _ _ _ E Hk).
Qed.
End add.

(** The entry [dirlink] writes. *)
Definition new_entry (name : list Z) (inum : Z) : dirent := Dirent (u16 inum) (strncpy (chars name) (Z.to_nat DIRSIZ)).

Lemma dirent_of_bytes name inum : 0 ≤ inum < 2 ^ 16 → dirent_of (dirent_bytes (new_entry name inum)) = new_entry name inum.
Proof.
  intros Hi. unfold dirent_of, dirent_bytes, new_entry. cbn [de_inum de_name].
  rewrite take_app_length' by (by rewrite length_le_bytes). rewrite drop_app_length' by (by rewrite length_le_bytes).
  rewrite take_ge by (by rewrite length_strncpy). rewrite le_val_bytes. f_equal. rewrite u16_small by done. by apply Z.mod_small.
Qed.

Lemma new_entry_len name inum : length (dirent_bytes (new_entry name inum)) = 16%nat.
Proof. unfold dirent_bytes, new_entry. cbn [de_inum de_name]. by rewrite length_app, length_le_bytes, length_strncpy. Qed.

Lemma new_entry_bytes name inum : bytes name → bytes (dirent_bytes (new_entry name inum)).
Proof. intros Hn. apply Forall_app. split; [apply bytes_le_bytes|]. by apply bytes_strncpy, is_char_chars. Qed.

Lemma namecmp_new nm name inum :
  bytes nm → bytes name → namecmp nm (de_name (new_entry name inum)) = 0 ↔ namecmp nm name = 0.
Proof.
  intros Hm Hn. unfold namecmp, new_entry. cbn [de_name]. assert (is_char (chars nm) ∧ is_char (chars name)) as [H1 H2] by (split; by apply is_char_chars).
  assert (is_char (chars (strncpy (chars name) (Z.to_nat DIRSIZ)))) as H3 by (by apply is_char_chars, bytes_strncpy).
  rewrite !strncmp_eq0 by done. pose proof (strncpy_agree (chars name) (Z.to_nat DIRSIZ)) as Ha.
  split; intros Hb; (eapply agree_trans; [exact Hb|]); [by apply agree_sym|done].
Qed.

Lemma namecmp_refl name : bytes name → namecmp name name = 0.
Proof. intros Hn. unfold namecmp. apply strncmp_eq0; [by apply is_char_chars..|]. by intros i _ _. Qed.

Section directory.
Context `{KernelImage}.
Context (me : nat) (start : Z) (sb : superblock).
Context (Hsb : fslayout start sb) (Hlay : layout start).

Abbreviation txn := (txn me start).
Abbreviation did := (did me []).

(** A directory: a file of whole entries. *)
Record dir_ok (m : Z → block) (x : inode) : Prop := {
  do_file : file_ok sb m x;
  do_type : i_type x = T_DIR;
  do_size : i_size x mod 16 = 0;
}.

Lemma content_bytes m x : file_ok sb m x → bytes (content m x).
Proof.
  intros [Hx Hs Hd _ _]. apply Forall_fmap, Forall_forall. intros o Ho%elem_of_seqZ. cbn. unfold fbyte.
  pose proof (Hd o ltac:(lia)) as Hn. destruct (Z.eqb_spec (addr m x (o / BSIZE)) 0); [done|].
  destruct (io_addr _ _ _ Hx (o / BSIZE)) as [(_ & _ & [Hl Hb]) _]; [apply block_index; lia|done|].
  unfold data_at. destruct (lookup_lt_is_Some_2 (m (addr m x (o / BSIZE))) (Z.to_nat (o mod BSIZE))) as [c Hc].
  { rewrite Hl. pose proof (Z.mod_pos_bound o BSIZE ltac:(done)). unfold BSIZE in *. lia. }
  rewrite Hc. exact (Forall_lookup_1 _ _ _ _ Hb Hc).
Qed.

Lemma length_content m x : file_ok sb m x → length (content m x) = Z.to_nat (i_size x).
Proof. intros _. unfold content. apply length_fbytes. Qed.

(** Reading one entry. *)
Lemma read_dirent_wp msg s pins m dp x i :
  txn s pins m ∅ → k_inode s !! dp = Some x → dir_ok m x → (i < length (entries (content m x)))%nat →
  (size pins < Z.to_nat NBUF)%nat →
  wp (read_dirent me msg dp (16 * Z.of_nat i)) s
    (λ de s', entries (content m x) !! i = Some de ∧ txn s' pins m ∅ ∧ did s s').
Proof.
  intros Ht Hip [Hf _ Hm] Hi Hsz. pose proof (fo_size _ _ _ Hf) as Hs. assert (MAXFILE * BSIZE = 274432) as EM by done.
  rewrite length_entries in Hi. pose proof (length_content m x Hf) as Hl.
  assert (16 * (i + 1) ≤ length (content m x))%nat as Hle by (pose proof (Nat.Div0.mul_div_le (length (content m x)) 16); lia).
  unfold read_dirent. apply wp_bind. eapply wp_mono; [eapply (readi_wp me start sb s pins m dp x (16 * Z.of_nat i) DIRENT_SIZE);
    [done|done|done|lia|done|unfold DIRENT_SIZE; lia|done]|].
  cbv beta. intros [r l] s' (E & Ht' & Hd'). injection E as -> ->.
  set (l := take _ _). assert (length l = 16%nat) as Hl16.
  { unfold l. rewrite length_take, length_drop. change (Z.to_nat DIRENT_SIZE) with 16%nat. lia. }
  rewrite Hl16. cbn [negb Z.eqb DIRENT_SIZE Pos.eqb]. change (Z.of_nat 16 =? DIRENT_SIZE) with true. cbn [negb]. apply wp_ret.
  split_and!; [|done|done]. rewrite entries_lookup by done. unfold l. do 4 f_equal. lia.
Qed.

Lemma dirlookup_from pins m dp x name : dir_ok m x → (size pins < Z.to_nat NBUF)%nat → ∀ k i s fuel,
  txn s pins m ∅ → k_inode s !! dp = Some x → (i + k = length (entries (content m x)))%nat →
  (∀ j de, (j < i)%nat → entries (content m x) !! j = Some de → ¬ matches name de) → (k < fuel)%nat →
  ∃ s', txn s' pins m ∅ ∧ did s s' ∧ loop fuel (dirlookup_body me dp name) (16 * Z.of_nat i) s =
    match dfind name (entries (content m x)) with
    | None => Ok (None, s')
    | Some (j, de) => (ip ← iget ROOTDEV (de_inum de); mret (Some (ip, 16 * Z.of_nat j))) s'
    end.
Proof.
  intros Hx Hsz. assert (MAXFILE * BSIZE = 274432) as EM by done. pose proof (fo_size _ _ _ (do_file _ _ Hx)) as Hs.
  pose proof (length_content m x (do_file _ _ Hx)) as Hl. pose proof (do_size _ _ Hx) as Hm.
  pose proof (Z.div_mod (i_size x) 16 ltac:(done)) as Hdm.
  assert (Z.of_nat (length (entries (content m x))) = i_size x / 16) as Hn.
  { rewrite length_entries, Hl, Nat2Z.inj_div, Z2Nat.id by lia. done. }
  induction k as [|k IH]; intros i s fuel Ht Hip Hik Hnm Hf; (destruct fuel as [|fuel]; [lia|]).
  - exists s. split_and!; [done|apply did_refl|]. unfold dfind.
    assert (list_find (matches name) (entries (content m x)) = None) as ->.
    { apply list_find_None, Forall_lookup_2. intros j de Hj. eapply Hnm; [|done]. apply lookup_lt_Some in Hj. lia. }
    apply loop_done. unfold dirlookup_body. rewrite (bind_Ok_1 _ _ _ _ _ (get_inode_run _ _ _ Hip)).
    destruct (Z.ltb_spec (16 * Z.of_nat i) (i_size x)); [lia|done].
  - destruct (wp_elim _ _ _ (read_dirent_wp "dirlookup read" s pins m dp x i Ht Hip Hx ltac:(lia) Hsz)) as (de & s1 & Hr & Hde & Ht1 & Hd1).
    assert (dirlookup_body me dp name (16 * Z.of_nat i) s = if decide (matches name de)
      then (ip ← iget ROOTDEV (de_inum de); mret (inr (Some (ip, 16 * Z.of_nat i)))) s1
      else Ok (inl (16 * Z.of_nat (S i)), s1)) as Hb.
    { unfold dirlookup_body. rewrite (bind_Ok_1 _ _ _ _ _ (get_inode_run _ _ _ Hip)).
      destruct (Z.ltb_spec (16 * Z.of_nat i) (i_size x)); [|lia]. rewrite (bind_Ok_1 _ _ _ _ _ Hr), (io_dev _ _ _ (fo_ino _ _ _ (do_file _ _ Hx))).
      assert (u32 (16 * Z.of_nat i + DIRENT_SIZE) = 16 * Z.of_nat (S i)) as -> by (unfold DIRENT_SIZE; rewrite u32_small; lia).
      unfold matches. destruct (Z.eqb_spec (de_inum de) 0), (Z.eqb_spec (namecmp name (de_name de)) 0); case_decide; try tauto; done. }
    destruct (decide (matches name de)) as [Hma|Hma].
    + exists s1. split_and!; [done|done|]. unfold dfind.
      assert (list_find (matches name) (entries (content m x)) = Some (i, de)) as ->.
      { apply list_find_Some. split_and!; [done|done|]. intros j y Hj Hlt. by apply (Hnm j y). }
      rewrite loop_S. unfold mbind, M_bind in Hb |- *. rewrite Hb. destruct (iget ROOTDEV (de_inum de) s1) as [[ip s2]| | | |]; done.
    + destruct (IH (S i) s1 fuel Ht1) as (s2 & Ht2 & Hd2 & Hrun); [by rewrite (did_inode _ _ _ _ Hd1)|lia| |lia|].
      { intros j y Hj Hy. destruct (decide (j = i)) as [->|]; [congruence|]. apply (Hnm j y); [lia|done]. }
      exists s2. split_and!; [done|by eapply did_t|]. by rewrite (loop_step _ _ _ _ _ _ Hb).
Qed.

(** [dirlookup] finds the first entry with the name. *)
Lemma dirlookup_run s pins m dp x name :
  txn s pins m ∅ → k_inode s !! dp = Some x → dir_ok m x → (size pins < Z.to_nat NBUF)%nat →
  ∃ s', txn s' pins m ∅ ∧ did s s' ∧ dirlookup me dp name s =
    match dfind name (entries (content m x)) with
    | None => Ok (None, s')
    | Some (j, de) => (ip ← iget ROOTDEV (de_inum de); mret (Some (ip, 16 * Z.of_nat j))) s'
    end.
Proof.
  intros Ht Hip Hx Hsz. unfold dirlookup. rewrite (bind_Ok_1 _ _ _ _ _ (get_inode_run _ _ _ Hip)), (do_type _ _ Hx). cbn [negb Z.eqb].
  change (T_DIR =? T_DIR) with true. cbn [negb].
  apply (dirlookup_from pins m dp x name Hx Hsz (length (entries (content m x))) 0 s); [done|done|lia|lia|].
  pose proof (length_content m x (do_file _ _ Hx)) as Hl. pose proof (fo_size _ _ _ (do_file _ _ Hx)).
  rewrite length_entries, Hl. change DIRENT_SIZE with 16. rewrite Z2Nat.inj_div by lia. change (Z.to_nat 16) with 16%nat. lia.
Qed.

(** The search of [dirlink]. *)
Lemma dirlink_from pins m dp x : dir_ok m x → (size pins < Z.to_nat NBUF)%nat → ∀ k i s fuel,
  txn s pins m ∅ → k_inode s !! dp = Some x → (i + k = length (entries (content m x)))%nat →
  (∀ j de, (j < i)%nat → entries (content m x) !! j = Some de → de_inum de ≠ 0) → (k < fuel)%nat →
  ∃ s', txn s' pins m ∅ ∧ did s s' ∧
    loop fuel (dirlink_body me dp) (16 * Z.of_nat i) s = Ok (16 * Z.of_nat (slot (entries (content m x))), s').
Proof.
  intros Hx Hsz. assert (MAXFILE * BSIZE = 274432) as EM by done. pose proof (fo_size _ _ _ (do_file _ _ Hx)) as Hs.
  pose proof (length_content m x (do_file _ _ Hx)) as Hl. pose proof (do_size _ _ Hx) as Hm.
  pose proof (Z.div_mod (i_size x) 16 ltac:(done)) as Hdm.
  assert (Z.of_nat (length (entries (content m x))) = i_size x / 16) as Hn.
  { rewrite length_entries, Hl, Nat2Z.inj_div, Z2Nat.id by lia. done. }
  induction k as [|k IH]; intros i s fuel Ht Hip Hik Hnm Hf; (destruct fuel as [|fuel]; [lia|]).
  - exists s. split_and!; [done|apply did_refl|]. unfold slot.
    assert (list_find (λ de, de_inum de = 0) (entries (content m x)) = None) as ->.
    { apply list_find_None, Forall_lookup_2. intros j de Hj. eapply Hnm; [|done]. apply lookup_lt_Some in Hj. lia. }
    replace (length (entries (content m x))) with i by lia.
    apply loop_done. unfold dirlink_body. rewrite (bind_Ok_1 _ _ _ _ _ (get_inode_run _ _ _ Hip)), u32_small by lia.
    destruct (Z.ltb_spec (16 * Z.of_nat i) (i_size x)); [lia|done].
  - destruct (wp_elim _ _ _ (read_dirent_wp "dirlink read" s pins m dp x i Ht Hip Hx ltac:(lia) Hsz)) as (de & s1 & Hr & Hde & Ht1 & Hd1).
    assert (dirlink_body me dp (16 * Z.of_nat i) s =
      Ok (if de_inum de =? 0 then inr (16 * Z.of_nat i) else inl (16 * Z.of_nat (S i)), s1)) as Hb.
    { unfold dirlink_body. rewrite (bind_Ok_1 _ _ _ _ _ (get_inode_run _ _ _ Hip)), u32_small by lia.
      destruct (Z.ltb_spec (16 * Z.of_nat i) (i_size x)); [|lia]. rewrite (bind_Ok_1 _ _ _ _ _ Hr).
      destruct (Z.eqb_spec (de_inum de) 0); [done|]. unfold add_int, DIRENT_SIZE. rewrite decide_True by lia.
      rewrite bind_ret. by replace (16 * Z.of_nat i + 16) with (16 * Z.of_nat (S i)) by lia. }
    destruct (Z.eqb_spec (de_inum de) 0) as [Hz|Hz].
    + exists s1. split_and!; [done|done|]. unfold slot.
      assert (list_find (λ de, de_inum de = 0) (entries (content m x)) = Some (i, de)) as ->.
      { apply list_find_Some. split_and!; [done|done|]. intros j y Hj Hlt. by apply (Hnm j y). }
      by apply loop_done.
    + destruct (IH (S i) s1 fuel Ht1) as (s2 & Ht2 & Hd2 & Hrun); [by rewrite (did_inode _ _ _ _ Hd1)|lia| |lia|].
      { intros j y Hj Hy. destruct (decide (j = i)) as [->|]; [congruence|]. apply (Hnm j y); [lia|done]. }
      exists s2. split_and!; [done|by eapply did_t|]. by rewrite (loop_step _ _ _ _ _ _ Hb).
Qed.

Lemma dirlink_find s pins m dp x :
  txn s pins m ∅ → k_inode s !! dp = Some x → dir_ok m x → (size pins < Z.to_nat NBUF)%nat →
  ∃ s', txn s' pins m ∅ ∧ did s s' ∧ loop (S (S (Z.to_nat (i_size x / DIRENT_SIZE)))) (dirlink_body me dp) 0 s =
    Ok (16 * Z.of_nat (slot (entries (content m x))), s').
Proof.
  intros Ht Hip Hx Hsz.
  apply (dirlink_from pins m dp x Hx Hsz (length (entries (content m x))) 0 s); [done|done|lia|lia|].
  pose proof (length_content m x (do_file _ _ Hx)) as Hl. pose proof (fo_size _ _ _ (do_file _ _ Hx)).
  rewrite length_entries, Hl. change DIRENT_SIZE with 16. rewrite Z2Nat.inj_div by lia. change (Z.to_nat 16) with 16%nat. lia.
Qed.

(** A whole entry is written, or nothing. *)
Lemma aligned_entry j r : aligned 16 (16 * Z.of_nat j) r → 0 ≤ r ≤ 16 → r = 0 ∨ r = 16.
Proof.
  intros [->|[->|E]] Hr; [by left|by right|]. unfold BSIZE in E. pose proof (Z.div_mod (16 * Z.of_nat j + r) 1024 ltac:(done)). lia.
Qed.

Lemma iters_entry j : (iters 16 0 (16 * Z.of_nat j) ≤ 2)%nat.
Proof.
  unfold iters, BSIZE. case_match; [|lia]. pose proof (Z.mod_pos_bound (16 * Z.of_nat j) 1024 ltac:(done)).
  assert ((16 - 0 + (16 * Z.of_nat j) mod 1024 + (1024 - 1)) / 1024 < 3); [apply Z.div_lt_upper_bound|]; lia.
Qed.

Lemma dir_ok_written m x m' x' j l :
  dir_ok m x → written sb m x m' x' (16 * Z.of_nat j) l → (length l = 16 ∨ length l = 0)%nat → dir_ok m' x'.
Proof.
  intros [Hf Hty Hm] Hw Hl. constructor; [apply Hw|by rewrite (wt_meta _ _ _ _ _ _ _ Hw)|]. rewrite (wt_meta _ _ _ _ _ _ _ Hw). cbn.
  destruct (Z.max_spec (i_size x) (16 * Z.of_nat j + Z.of_nat (length l))) as [[_ ->]|[_ ->]]; [|done].
  destruct Hl as [-> | ->]; [replace (16 * Z.of_nat j + Z.of_nat 16) with ((Z.of_nat j + 1) * 16) by lia|replace (16 * Z.of_nat j + Z.of_nat 0) with (Z.of_nat j * 16) by lia]; apply Z.mod_mul; lia.
Qed.

Lemma dirlink_run s pins m dp x name inum :
  k_sb s = sb → txn s pins m ∅ → k_inode s !! dp = Some x → dir_ok m x → bitmap_ok sb m → inodes_ok sb m →
  bytes name → 0 < inum < 2 ^ 16 → dfind name (entries (content m x)) = None → i_size x + 16 ≤ MAXFILE * BSIZE →
  (size pins + 8 < Z.to_nat NBUF)%nat →
  let j := slot (entries (content m x)) in
  ∃ r s' m' x' pins', dirlink me dp name inum s = Ok (r, s') ∧ txn s' pins' m' ∅ ∧ k_inode s' = <[dp := x']> (k_inode s) ∧
    (size pins' ≤ size pins + 5)%nat ∧ dir_ok m' x' ∧
    (r = -1 ∧ all_used sb m' ∧ written sb m x m' x' (16 * Z.of_nat j) [] ∨
     r = 0 ∧ written sb m x m' x' (16 * Z.of_nat j) (dirent_bytes (new_entry name inum))).
Proof.
  intros Esb Ht Hip Hx Hb Hi Hn Hin Hnf Hmax Hsz j. pose proof (do_file _ _ Hx) as Hf.
  destruct (dirlookup_run s pins m dp x name Ht Hip Hx ltac:(lia)) as (s1 & Ht1 & Hd1 & R1). rewrite Hnf in R1.
  assert (k_inode s1 !! dp = Some x) as Hip1 by (by rewrite (did_inode _ _ _ _ Hd1)).
  destruct (dirlink_find s1 pins m dp x Ht1 Hip1 Hx ltac:(lia)) as (s2 & Ht2 & Hd2 & R2).
  assert (k_inode s2 !! dp = Some x) as Hip2 by (by rewrite (did_inode _ _ _ _ Hd2)).
  assert (MAXFILE * BSIZE = 274432) as EM by done. pose proof (fo_size _ _ _ Hf) as Hs. pose proof (length_content m x Hf) as Hl.
  pose proof (slot_le (entries (content m x))) as Hj. fold j in Hj. rewrite length_entries, Hl in Hj.
  assert (16 * Z.of_nat j ≤ i_size x) as Hjs.
  { pose proof (Nat.Div0.mul_div_le (Z.to_nat (i_size x)) 16). lia. }
  set (data := dirent_bytes (new_entry name inum)). assert (length data = 16%nat) as Hld by apply new_entry_len.
  assert (k_sb s2 = sb) as Esb2 by (by rewrite (did_sb _ _ _ _ Hd2), (did_sb _ _ _ _ Hd1)).
  pose proof (iters_entry j) as Hit.
  destruct (wp_elim _ _ _ (writei_wp me start sb Hsb Hlay s2 pins m dp x (16 * Z.of_nat j) data Esb2 Ht2 Hip2 Hf Hb Hi ltac:(lia)
    ltac:(rewrite Hld; lia) (new_entry_bytes _ _ Hn) ltac:(rewrite Hld; change (Z.of_nat 16) with 16; lia)))
    as (r & s3 & R3 & Hr & Hal & Hd3 & m' & x' & pins' & Ht3 & Hi3 & Hw & Hsz' & Hfull).
  rewrite Hld in R3, Hr, Hal, Hfull, Hsz'. change (Z.of_nat 16) with 16 in *.
  exists (if r =? 16 then 0 else -1), s3, m', x', pins'. split_and!.
  - unfold dirlink. rewrite (bind_Ok_1 _ _ _ _ _ R1), (bind_Ok_1 _ _ _ _ _ (get_inode_run _ _ _ Hip1)), (bind_Ok_1 _ _ _ _ _ R2).
    fold j. cbv zeta. fold (new_entry name inum). fold data. rewrite u32_small by lia. change DIRENT_SIZE with 16.
    rewrite (bind_Ok_1 _ _ _ _ _ R3). by destruct (r =? 16).
  - done.
  - by rewrite Hi3, (did_inode _ _ _ _ Hd2), (did_inode _ _ _ _ Hd1).
  - lia.
  - destruct (aligned_entry j r Hal Hr) as [-> | ->]; (eapply dir_ok_written; [done|exact Hw|]); rewrite length_take; lia.
  - destruct (aligned_entry j r Hal Hr) as [-> | ->].
    + left. split_and!; [done|apply Hfull; lia|exact Hw].
    + right. split; [done|]. change (Z.to_nat 16) with 16%nat in Hw. rewrite take_ge in Hw by lia. exact Hw.
Qed.
End directory.

(** What a lookup that has read the directory goes on to do. *)
Definition found (r : option (nat * dirent)) (s : kernel) : res (option (nat * Z) * kernel) :=
  match r with
  | None => Ok (None, s)
  | Some (j, de) => (ip ← iget ROOTDEV (de_inum de); mret (Some (ip, 16 * Z.of_nat j))) s
  end.


(** An empty directory on a small disk. *)
Module SmallDir.
Import SmallDisk SmallFile.
#[local] Existing Instance no_image.
Definition dir : inode := Inode ROOTDEV 5 1 sleeplock0 true T_DIR 0 0 1 0 (replicate 13 0).
Definition opendir : kernel := set_k_inode [dir] on.
Definition name : list Z := [98; 105; 110].

Lemma opendir_txn : txn 0 2 opendir ∅ (disk_block disk) ∅ ∧ k_sb opendir = sb ∧ k_inode opendir !! 0%nat = Some dir.
Proof.
  destruct on_ok as (Ht & Es & _). unfold opendir. generalize dependent on. intros s Ht Es.
  split_and!; [by apply txn_inode|by destruct s|by destruct s].
Qed.

Lemma empty_dir_ok m : dir_ok sb m dir.
Proof.
  constructor; [|done|done]. destruct (empty_file_ok m) as [[I1 I2 I3 I4 I5] F2 F3 F4 F5].
  constructor; [by constructor|done|done|by destruct F4; constructor|done].
Qed.

Lemma name_bytes : bytes name.
Proof. apply (bool_decide_unpack _). vm_compute. done. Qed.
Lemma inum_ok : 0 < 7 < 2 ^ 16.
Proof. done. Qed.
Lemma not_there : dfind name (entries (content (disk_block disk) dir)) = None.
Proof. reflexivity. Qed.
Lemma dir_max : i_size dir + 16 ≤ MAXFILE * BSIZE.
Proof. vm_compute. done. Qed.
Lemma dir_room : (size (∅ : gset Z) + 8 < Z.to_nat NBUF)%nat.
Proof. rewrite size_empty. vm_compute. lia. Qed.

End SmallDir.
