(* ===== verification/Itable.v ===== *)
(** The table of inodes in memory.

    [itable s m refs held]: the entries in use are the inodes with the numbers in
    [refs], one entry for each, with that many references; an entry that has been
    read agrees with the disk; the current process holds the locks of the
    entries [held] and nobody holds another one.  [iget], [ilock], [iunlock],
    [iput] and [idup] are specified in these terms. *)

From stdpp Require Import functions.
From S2P Require Import Prelude Riscv Mem Str Kalloc Vm State Sched SchedSpec Procmem Console ConsoleSpec Sleeplock Bio BioSpec Cache Block Log LogSpec Fs Dir FsSpec Pipe File Content Dinode ReadWrite DirSpec.

(** * References *)

Definition ref_add (refs : gmap Z Z) (n : Z) : gmap Z Z := <[n := default 0 (refs !! n) + 1]> refs.
Definition ref_drop (refs : gmap Z Z) (n : Z) : gmap Z Z :=
  if decide (refs !! n = Some 1) then delete n refs else <[n := default 0 (refs !! n) - 1]> refs.

Lemma ref_add_ne refs n k : k ≠ n → ref_add refs n !! k = refs !! k.
Proof. intros Hn. by apply lookup_insert_ne. Qed.
Lemma ref_drop_ne refs n k : k ≠ n → ref_drop refs n !! k = refs !! k.
Proof. intros Hn. unfold ref_drop. case_decide; [by apply lookup_delete_ne|by apply lookup_insert_ne]. Qed.

Lemma ref_drop_add refs n : (∀ r, refs !! n = Some r → 0 < r) → ref_drop (ref_add refs n) n = refs.
Proof.
  intros Hp. unfold ref_drop, ref_add. rewrite lookup_insert_eq. cbn. destruct (refs !! n) as [r|] eqn:E; cbn.
  - specialize (Hp r eq_refl). rewrite decide_False by (intros [= ?]; lia). rewrite insert_insert_eq.
    replace (r + 1 - 1) with r by lia. by apply insert_id.
  - rewrite decide_True by done. by apply delete_insert_id.
Qed.

Lemma ref_add_comm refs a b : ref_add (ref_add refs a) b = ref_add (ref_add refs b) a.
Proof.
  destruct (decide (a = b)) as [->|Hn]; [done|]. unfold ref_add. rewrite !lookup_insert_ne by done. by apply insert_insert_ne.
Qed.

Lemma ref_add_size refs n : (size (ref_add refs n) ≤ S (size refs))%nat.
Proof. unfold ref_add. rewrite map_size_insert. destruct (refs !! n); unfold id; lia. Qed.

(** * The table *)

Section table.
Context (sb : superblock) (pid : Z).

(** The fields that the disk does not have. *)
Lemma on_disk_ref m x r : on_disk sb m x → on_disk sb m (set_i_ref r x).
Proof. intros E. exact (f_equal (set_i_ref r) E). Qed.
Lemma on_disk_lock m x k : on_disk sb m x → on_disk sb m (set_i_lock k x).
Proof. intros E. exact (f_equal (set_i_lock k) E). Qed.
Lemma on_disk_valid m x v : on_disk sb m x → on_disk sb m (set_i_valid v x).
Proof. intros E. exact (f_equal (set_i_valid v) E). Qed.
Lemma on_disk_get m x : on_disk sb m (get_dinode (dip_off (i_inum x)) (m (IBLOCK (i_inum x) sb)) x).
Proof.
  unfold on_disk. change (i_inum (get_dinode _ _ x)) with (i_inum x).
  apply get_dinode_twice.
Qed.

Record itab (m : Z → block) (refs : gmap Z Z) (held : gset nat) (l : list inode) : Prop := {
  it_len : length l = Z.to_nat NINODE;
  it_pos : ∀ n r, refs !! n = Some r → 0 < r;
  it_nonneg : ∀ i x, l !! i = Some x → 0 ≤ i_ref x;
  it_used : ∀ i x, l !! i = Some x → 0 < i_ref x →
    i_dev x = ROOTDEV ∧ refs !! i_inum x = Some (i_ref x) ∧ (i_valid x = true → on_disk sb m x);
  it_inj : ∀ i j x y, l !! i = Some x → l !! j = Some y → 0 < i_ref x → 0 < i_ref y → i_inum x = i_inum y → i = j;
  it_has : ∀ n r, refs !! n = Some r → ∃ i x, l !! i = Some x ∧ i_ref x = r ∧ i_inum x = n;
  it_lock : ∀ i x, l !! i = Some x →
    if decide (i ∈ held) then i_lock x = Sleeplock true pid ∧ i_valid x = true ∧ 0 < i_ref x else sl_locked (i_lock x) = false;
}.

(** An update of the one entry [i], before or afterwards in use for [n]. *)
Lemma itab_upd m refs held l i x y refs' held' n :
  itab m refs held l → l !! i = Some x →
  (0 < i_ref x → i_inum x = n) → (i_ref x = 0 → refs !! n = None) →
  (∀ k, k ≠ n → refs' !! k = refs !! k) →
  (0 < i_ref y ∧ i_dev y = ROOTDEV ∧ i_inum y = n ∧ refs' !! n = Some (i_ref y) ∧ (i_valid y = true → on_disk sb m y)
   ∨ i_ref y = 0 ∧ refs' !! n = None) →
  (if decide (i ∈ held') then i_lock y = Sleeplock true pid ∧ i_valid y = true ∧ 0 < i_ref y else sl_locked (i_lock y) = false) →
  (∀ j, j ≠ i → j ∈ held' ↔ j ∈ held) →
  itab m refs' held' (<[i := y]> l).
Proof.
  intros [Hlen Hpos Hnn Hused Hinj Hhas Hlock] Hi Hx Hx0 Href Hy Hl Hh. pose proof (lookup_lt_Some _ _ _ Hi) as Hlt.
  assert (∀ j z, <[i := y]> l !! j = Some z → j = i ∧ z = y ∨ j ≠ i ∧ l !! j = Some z) as Hat.
  { intros j z Hj. destruct (decide (j = i)) as [->|Hn]; [left|right; by rewrite list_lookup_insert_ne in Hj].
    rewrite list_lookup_insert_eq in Hj by done. by injection Hj. }
  assert (∀ j z, j ≠ i → l !! j = Some z → 0 < i_ref z → i_inum z ≠ n) as Hother.
  { intros j z Hj Hz Hrz E. destruct (Hused j z Hz Hrz) as (_ & Hr & _). rewrite E in Hr.
    destruct (decide (i_ref x = 0)) as [E0|E0]; [by rewrite Hx0 in Hr|]. pose proof (Hnn _ _ Hi).
    apply Hj. apply (Hinj j i z x Hz Hi Hrz); [lia|]. rewrite E. symmetry. apply Hx. lia. }
  constructor.
  - by rewrite length_insert.
  - intros k r Hk. destruct (decide (k = n)) as [->|Hn]; [destruct Hy as [(? & _ & _ & E & _)|[_ E]]; rewrite E in Hk; by simplify_eq|].
    rewrite Href in Hk by done. by eapply Hpos.
  - intros j z [[-> ->]|[_ Hz]]%Hat; [destruct Hy as [?|?]; lia|by eapply Hnn].
  - intros j z [[-> ->]|[Hj Hz]]%Hat Hr; [destruct Hy as [(_ & ? & -> & ? & ?)|?]; [done|lia]|].
    rewrite Href by (by eapply Hother). by eapply Hused.
  - intros j k z w [[-> ->]|[Hj Hz]]%Hat [[-> ->]|[Hk Hw]]%Hat Rz Rw E; [done| | |by eapply Hinj].
    + destruct Hy as [(_ & _ & E' & _)|?]; [|lia]. by destruct (Hother k w Hk Hw Rw); congruence.
    + destruct Hy as [(_ & _ & E' & _)|?]; [|lia]. by destruct (Hother j z Hj Hz Rz); congruence.
  - intros k r Hk. destruct (decide (k = n)) as [->|Hn].
    + destruct Hy as [(_ & _ & ? & E & _)|[_ E]]; rewrite E in Hk; simplify_eq. exists i, y. by rewrite list_lookup_insert_eq.
    + rewrite Href in Hk by done. destruct (Hhas k r Hk) as (j & z & Hz & Er & En). exists j, z.
      rewrite list_lookup_insert_ne; [done|]. intros <-. rewrite Hi in Hz. injection Hz as <-. apply Hn. rewrite <-En. apply Hx.
      rewrite Er. by eapply Hpos.
  - intros j z [[-> ->]|[Hj Hz]]%Hat; [done|]. specialize (Hlock j z Hz). specialize (Hh j Hj). repeat case_decide; tauto.
Qed.

(** The search of [iget]. *)
Lemma iget_scan_spec n l : ∀ i e,
  match iget_scan l i ROOTDEV n e with
  | inl j => ∃ k x, j = (i + k)%nat ∧ l !! k = Some x ∧ 0 < i_ref x ∧ i_dev x = ROOTDEV ∧ i_inum x = n
  | inr e' =>
      (∀ k x, l !! k = Some x → 0 < i_ref x → i_dev x = ROOTDEV → i_inum x ≠ n) ∧
      match e, e' with
      | Some a, _ => e' = Some a
      | None, Some j => ∃ k x, j = (i + k)%nat ∧ l !! k = Some x ∧ i_ref x = 0
      | None, None => ∀ k x, l !! k = Some x → i_ref x ≠ 0
      end
  end.
Proof.
  induction l as [|x l IH]; intros i e; cbn [iget_scan]; [split; [done|by destruct e]|].
  destruct (Z.ltb_spec 0 (i_ref x)), (Z.eqb_spec (i_dev x) ROOTDEV), (Z.eqb_spec (i_inum x) n); cbn [andb];
    [by exists 0%nat, x; rewrite Nat.add_0_r|..].
  all: set (emp := match e with Some _ => _ | None => _ end); specialize (IH (S i) emp); destruct (iget_scan l (S i) ROOTDEV n emp) as [j|e'].
  all: try (destruct IH as (k & z & -> & ?); exists (S k), z; split; [lia|done]).
  all: destruct IH as [H1 H2]; split; [intros [|k] z Hz; [cbn in Hz; simplify_eq; (done || lia)|by eapply H1]|].
  all: subst emp; destruct e as [a|]; [done|]; destruct (Z.eqb_spec (i_ref x) 0) as [E0|E0];
    [subst e'; exists 0%nat, x; by rewrite Nat.add_0_r|].
  all: destruct e' as [j|]; [destruct H2 as (k & z & -> & ?); exists (S k), z; split; [lia|done]|].
  all: intros [|k] z Hz; [cbn in Hz; by simplify_eq|by eapply H2].
Qed.

(** There is a free entry unless every entry is in use. *)
Lemma itab_room m refs held l : itab m refs held l → (size refs < Z.to_nat NINODE)%nat → ∃ i x, l !! i = Some x ∧ i_ref x = 0.
Proof.
  intros [Hlen Hpos Hnn Hused Hinj Hhas Hlock] Hs.
  destruct (decide (Exists (λ x, i_ref x = 0) l)) as [(x & Hx & E)%Exists_exists|Hno].
  { apply list_elem_of_lookup in Hx as [i Hi]. by exists i, x. }
  exfalso. assert (∀ i x, l !! i = Some x → 0 < i_ref x) as Hall.
  { intros i x Hi. pose proof (Hnn i x Hi). assert (i_ref x ≠ 0); [|lia]. intros E. apply Hno, Exists_exists. exists x.
    split; [by eapply list_elem_of_lookup_2|done]. }
  assert (NoDup (i_inum <$> l)) as Hnd.
  { apply NoDup_alt. intros i j n Hi Hj. rewrite list_lookup_fmap in Hi, Hj.
    destruct (l !! i) as [x|] eqn:Ei, (l !! j) as [y|] eqn:Ej; cbn in Hi, Hj; simplify_eq. eapply Hinj; [done|done|eauto..|done]. }
  assert (list_to_set (i_inum <$> l) ⊆ dom refs) as Hsub.
  { intros n Hn%elem_of_list_to_set. apply list_elem_of_fmap in Hn as (x & -> & Hx). apply list_elem_of_lookup in Hx as [i Hi].
    apply elem_of_dom. destruct (Hused i x Hi (Hall i x Hi)) as (_ & -> & _). by eexists. }
  apply subseteq_size in Hsub. rewrite size_list_to_set, length_fmap, size_dom in Hsub by done. lia.
Qed.
End table.

(** * The operations *)

Section ops.
Context (me : nat) (start : Z) (sb : superblock).
Abbreviation txn := (txn me start).
Abbreviation did := (did me []).
Abbreviation fdid := (fdid me).

Definition itable (s : kernel) (m : Z → block) (refs : gmap Z Z) (held : gset nat) : Prop :=
  ∃ p, k_proc s !! me = Some p ∧ itab sb (p_pid p) m refs held (k_inode s).

(** Entry [i] is in use for inode [n]. *)
Definition named (s : kernel) (i : nat) (n : Z) : Prop := ∃ x, k_inode s !! i = Some x ∧ 0 < i_ref x ∧ i_inum x = n.

Lemma itable_did s s' m refs held : did s s' → itable s m refs held → itable s' m refs held.
Proof.
  intros Hd (p & Hp & Ht). pose proof (did_inode _ _ _ _ Hd) as Ei. destruct Hd as (_ & (_ & Hme & _) & _).
  exists p. split; [by rewrite Hme|by rewrite Ei].
Qed.

Lemma named_did s s' i n : did s s' → named s i n → named s' i n.
Proof. intros Hd. unfold named. by rewrite (did_inode _ _ _ _ Hd). Qed.

Lemma itable_ext s s' m refs held : k_inode s' = k_inode s → k_proc s' !! me = k_proc s !! me → itable s m refs held → itable s' m refs held.
Proof. intros Ei Ep (p & Hp & Ht). exists p. by rewrite Ei, Ep. Qed.
Lemma fdid_me s s' : fdid s s' → k_proc s' !! me = k_proc s !! me.
Proof. intros (_ & (_ & Hme & _) & _). exact Hme. Qed.

Lemma itable_pos s m refs held n r : itable s m refs held → refs !! n = Some r → 0 < r.
Proof. intros (p & _ & Ht). by apply (it_pos _ _ _ _ _ _ Ht). Qed.

Lemma iget_run s m refs held n :
  itable s m refs held → (size refs < Z.to_nat NINODE)%nat →
  ∃ i l, let s' := set_k_inode l s in
    iget ROOTDEV n s = Ok (i, s') ∧ itable s' m (ref_add refs n) held ∧ named s' i n ∧ ∀ j k, named s j k → named s' j k.
Proof.
  intros (p & Hp & Ht) Hs. pose proof (iget_scan_spec n (k_inode s) 0 None) as Hscan. unfold iget. rewrite bind_gets.
  destruct (iget_scan (k_inode s) 0 ROOTDEV n None) as [i|[i|]].
  - destruct Hscan as (k & x & -> & Hx & Hr & Hdev & Hn). cbn [Nat.add].
    pose proof (it_used _ _ _ _ _ _ Ht k x Hx Hr) as (_ & Hrx & Hv). rewrite Hn in Hrx.
    rewrite (bind_Ok_1 _ _ _ _ _ (upd_inode_run _ _ _ _ Hx)). set (y := set_i_ref (i_ref x + 1) x).
    pose proof (lookup_lt_Some _ _ _ Hx) as Hlt. exists k, (<[k := y]> (k_inode s)). split_and!; [done| | |].
    + exists p. split; [done|]. eapply (itab_upd sb (p_pid p) m refs held (k_inode s) k x y _ _ n); [done|done|done|lia|intros; by apply ref_add_ne| | |done].
      * left. unfold ref_add. rewrite lookup_insert_eq, Hrx. cbn. split_and!; [lia|done..|]. intros Hvx. by apply on_disk_ref, Hv.
      * pose proof (it_lock _ _ _ _ _ _ Ht k x Hx). cbn. case_decide; [|done]. split_and!; [tauto..|lia].
    + exists y. cbn. rewrite list_lookup_insert_eq by done. split_and!; [done|lia|done].
    + intros j k' (z & Hz & Hrz & Hnz). destruct (decide (j = k)) as [->|Hj].
      * exists y. cbn. rewrite list_lookup_insert_eq by done. rewrite Hx in Hz. simplify_eq. split_and!; [done|lia|done].
      * exists z. cbn. by rewrite list_lookup_insert_ne.
  - destruct Hscan as (Hno & k & x & -> & Hx & Hr). cbn [Nat.add].
    assert (refs !! n = None) as Hrn.
    { destruct (refs !! n) as [r|] eqn:E; [|done]. destruct (it_has _ _ _ _ _ _ Ht n r E) as (j & z & Hz & Er & En).
      pose proof (it_pos _ _ _ _ _ _ Ht n r E). destruct (it_used _ _ _ _ _ _ Ht j z Hz) as (Hd & _); [lia|].
      destruct (Hno j z Hz); [lia|done|done]. }
    rewrite (bind_Ok_1 _ _ _ _ _ (upd_inode_run _ _ _ _ Hx)). set (y := set_i_valid false _).
    pose proof (lookup_lt_Some _ _ _ Hx) as Hlt. exists k, (<[k := y]> (k_inode s)). split_and!; [done| | |].
    + exists p. split; [done|]. eapply (itab_upd sb (p_pid p) m refs held (k_inode s) k x y _ _ n); [done|done|lia|done|intros; by apply ref_add_ne| | |done].
      * left. unfold ref_add. rewrite lookup_insert_eq, Hrn. done.
      * pose proof (it_lock _ _ _ _ _ _ Ht k x Hx). cbn. case_decide; [lia|done].
    + exists y. cbn. rewrite list_lookup_insert_eq by done. done.
    + intros j k' (z & Hz & Hrz & Hnz). assert (j ≠ k) as Hj by (intros ->; rewrite Hx in Hz; simplify_eq; lia).
      exists z. cbn. by rewrite list_lookup_insert_ne.
  - destruct Hscan as (_ & Hfull). destruct (itab_room _ _ _ _ _ _ Ht Hs) as (i & x & Hx & E). by destruct (Hfull i x Hx).
Qed.

(** Waking other processes. *)
Lemma txn_woke s pins m ps : txn s pins m ∅ → woke me (k_proc s) ps → txn (set_k_proc ps s) pins m ∅.
Proof.
  intros Ht (Hl & Hme & _). eapply (txn_log me start s); [done|done|done|]. destruct Ht as ([H1 H2 H3 H4 H5 H6 H7] & _).
  constructor; [| |cbn; by rewrite Hme|done..].
  - destruct H1 as [l H1]. exists l. eapply (lru_ext s); [exact (lru_len _ _ H1)|done|exact H1].
  - unfold table_ok in *. cbn. congruence.
Qed.

(** The entry of an inode that is there. *)
Lemma named_entry s m refs held i n :
  itable s m refs held → named s i n → ∃ p x, k_proc s !! me = Some p ∧ k_inode s !! i = Some x ∧ i_inum x = n ∧ 0 < i_ref x ∧
    i_dev x = ROOTDEV ∧ refs !! n = Some (i_ref x) ∧ (i_valid x = true → on_disk sb m x) ∧ itab sb (p_pid p) m refs held (k_inode s) ∧
    if decide (i ∈ held) then i_lock x = Sleeplock true (p_pid p) ∧ i_valid x = true ∧ 0 < i_ref x else sl_locked (i_lock x) = false.
Proof.
  intros (p & Hp & Ht) (x & Hx & Hr & Hn). destruct (it_used _ _ _ _ _ _ Ht i x Hx Hr) as (Hd & Hrx & Hv). rewrite Hn in Hrx.
  exists p, x. split_and!; [done..|]. by apply (it_lock _ _ _ _ _ _ Ht).
Qed.

(** Replacing the entry of [n] by one that is still in use for [n]. *)
Lemma itable_set s m refs held i n x y p held' :
  itab sb (p_pid p) m refs held (k_inode s) → k_proc s !! me = Some p → k_inode s !! i = Some x → 0 < i_ref x → i_inum x = n →
  i_inum y = n → i_dev y = ROOTDEV → i_ref y = i_ref x → (i_valid y = true → on_disk sb m y) →
  (if decide (i ∈ held') then i_lock y = Sleeplock true (p_pid p) ∧ i_valid y = true else sl_locked (i_lock y) = false) →
  (∀ j, j ≠ i → j ∈ held' ↔ j ∈ held) →
  itable (set_k_inode (<[i := y]> (k_inode s)) s) m refs held' ∧ (∀ j k, named s j k → named (set_k_inode (<[i := y]> (k_inode s)) s) j k).
Proof.
  intros Ht Hp Hx Hr Hn Hny Hdy Hry Hvy Hly Hh. destruct (it_used _ _ _ _ _ _ Ht i x Hx Hr) as (_ & Hrx & _). split.
  - exists p. split; [done|]. eapply (itab_upd sb (p_pid p) m refs held (k_inode s) i x y refs held' n); [done|done|done|lia|done| | |done].
    + left. split_and!; [lia|done|done| |done]. by rewrite Hry, <-Hn.
    + case_decide; [|done]. split_and!; [tauto..|lia].
  - intros j k (z & Hz & Hrz & Hnz). pose proof (lookup_lt_Some _ _ _ Hx). destruct (decide (j = i)) as [->|Hj].
    + exists y. cbn. rewrite list_lookup_insert_eq by done. rewrite Hx in Hz. simplify_eq. split_and!; [done|lia|done].
    + exists z. cbn. by rewrite list_lookup_insert_ne.
Qed.

(** The part of [ilock] that reads the inode. *)
Lemma ilock_read {A} (f : M kernel A) Q s pins m i x :
  k_inode s !! i = Some x → i_dev x = ROOTDEV → txn s pins m ∅ → (size pins < Z.to_nat NBUF)%nat →
  let y := set_i_valid true (get_dinode (dip_off (i_inum x)) (m (IBLOCK (i_inum x) sb)) x) in
  (∀ s', k_inode s' = <[i := y]> (k_inode s) → txn s' pins m ∅ → fdid s s' → wp f s' Q) →
  wp (bp ← bread me (i_dev x) (IBLOCK (i_inum x) sb);
      d ← buf_data bp;
      upd_inode i (get_dinode (dip_off (i_inum x)) d) ;;
      brelse me bp ;;
      upd_inode i (set_i_valid true) ;;
      f) s Q.
Proof.
  intros Hx Hd Ht Hsz y Hf. set (bn := IBLOCK (i_inum x) sb) in *. pose proof (lookup_lt_Some _ _ _ Hx) as Hlt. rewrite Hd.
  apply wp_bind. eapply wp_mono; [eapply (bread_txn me start s); [done|by intros ??|right; rewrite map_size_empty; lia]|].
  cbv beta. intros b s1 (Hb & Ht1 & Hd1). pose proof (did_inode _ _ _ _ Hd1) as E1.
  apply wp_bind. eapply wp_mono; [eapply (buf_data_txn me start s1); [exact Ht1|apply lookup_insert_eq]|].
  cbv beta. intros d s1' (-> & ->). rewrite <-E1 in Hx.
  apply wp_bind. eapply wp_Ok; [by apply upd_inode_run|]. cbv beta. set (x2 := get_dinode _ _ x) in *. set (s2 := set_k_inode _ s1).
  assert (txn s2 pins m (<[b := (bn, m bn)]> ∅)) as Ht2 by (by apply txn_inode).
  apply wp_bind. eapply wp_mono; [eapply (brelse_txn me start s2); [exact Ht2|apply lookup_insert_eq]|].
  cbv beta. intros [] s3 (Ht3 & Hd3). rewrite delete_insert_id in Ht3 by done. pose proof (did_inode _ _ _ _ Hd3) as E3.
  assert (k_inode s3 !! i = Some x2) as Hx3 by (rewrite E3; apply list_lookup_insert_eq; by rewrite E1).
  apply wp_bind. eapply wp_Ok; [by apply upd_inode_run|]. cbv beta. apply Hf.
  - cbn. by rewrite E3; cbn; rewrite E1, list_insert_insert_eq.
  - by apply txn_inode.
  - eapply fdid_trans; [by apply fdid_did|]. eapply fdid_trans; [apply fdid_upd|]. eapply fdid_trans; [by apply fdid_did|apply fdid_upd].
Qed.

Lemma ilock_wp s pins m refs held i n :
  itable s m refs held → named s i n → i ∉ held → txn s pins m ∅ → k_sb s = sb → (size pins < Z.to_nat NBUF)%nat →
  (∀ x, on_disk sb m x → i_inum x = n → i_dev x = ROOTDEV → i_type x ≠ 0) →
  wp (ilock me i) s (λ _ s', itable s' m refs ({[i]} ∪ held) ∧ txn s' pins m ∅ ∧ fdid s s' ∧ ∀ j k, named s j k → named s' j k).
Proof.
  intros Ht Hi Hni Htx Esb Hsz Hty. destruct (named_entry _ _ _ _ _ _ Ht Hi) as (p & x & Hp & Hx & Hn & Hr & Hdev & Hrx & Hv & Hit & Hlk).
  rewrite decide_False in Hlk by done. unfold ilock. apply wp_bind. eapply wp_Ok; [by apply get_inode_run|]. cbv beta.
  destruct (Z.ltb_spec (i_ref x) 1); [lia|]. pose proof (lookup_lt_Some _ _ _ Hx) as Hlt.
  set (lk := Sleeplock true (p_pid p)). set (x1 := set_i_lock lk x). set (s1 := set_k_inode (<[i := x1]> (k_inode s)) s).
  assert (k_inode s1 !! i = Some x1) as Hx1 by (by apply list_lookup_insert_eq).
  apply wp_bind. eapply (wp_Ok _ _ _ s1).
  { unfold acquiresleep, get_sl, put_sl. rewrite bind_assoc, (bind_Ok_1 _ _ _ _ _ (get_inode_run _ _ _ Hx)), bind_ret, Hlk.
    rewrite (bind_Ok_1 _ _ _ _ _ (get_proc_run _ _ _ Hp)). by apply upd_inode_run. }
  cbv beta. apply wp_bind. eapply wp_Ok; [by apply get_inode_run|]. cbv beta. change (i_valid x1) with (i_valid x).
  destruct (i_valid x) eqn:Ev; cbn [negb].
  - apply wp_ret. split_and!; [| |apply fdid_upd|]; [|by apply txn_inode|].
    all: eapply (itable_set s m refs held i n x x1 p ({[i]} ∪ held)); try done.
    all: try (intros _; by apply on_disk_lock, Hv); try (rewrite decide_True by set_solver; done); set_solver.
  - apply wp_bind, wp_gets. change (k_sb s1) with (k_sb s). rewrite Esb.
    set (y := set_i_valid true (get_dinode (dip_off (i_inum x1)) (m (IBLOCK (i_inum x1) sb)) x1)).
    assert (on_disk sb m y) as Hy by apply on_disk_valid, on_disk_get.
    assert (i_inum y = n ∧ i_dev y = ROOTDEV ∧ i_ref y = i_ref x ∧ i_lock y = lk ∧ i_valid y = true) as (Y1 & Y2 & Y3 & Y4 & Y5) by done.
    eapply (ilock_read _ _ s1 pins m i x1); [done|done|by apply txn_inode|done|]. intros s2 E2 Ht2 Hd2. fold y in E2. clearbody y.
    cbn [k_inode set_k_inode s1] in E2. rewrite list_insert_insert_eq in E2.
    apply wp_bind. eapply wp_Ok; [apply get_inode_run; rewrite E2; by apply list_lookup_insert_eq|]. cbv beta.
    destruct (Z.eqb_spec (i_type y) 0) as [E0|_]; [by destruct (Hty y Hy Y1 Y2)|]. apply wp_ret.
    destruct (itable_set s m refs held i n x y p ({[i]} ∪ held)) as [I1 I2]; [done..| | |].
    { rewrite decide_True by set_solver. done. }
    { clear. set_solver. }
    assert (fdid s s2) as Hds by (eapply fdid_trans; [apply fdid_upd|exact Hd2]).
    split_and!; [|done|done|].
    + eapply itable_ext; [..|exact I1]; [exact E2|]. exact (fdid_me _ _ Hds).
    + intros j k Hjk. destruct (I2 j k Hjk) as (z & Hz). exists z. by rewrite E2.
Qed.

Lemma iunlock_wp s pins m refs held i n :
  itable s m refs held → named s i n → i ∈ held → txn s pins m ∅ →
  wp (iunlock me i) s (λ _ s', itable s' m refs (held ∖ {[i]}) ∧ txn s' pins m ∅ ∧ fdid s s' ∧ ∀ j k, named s j k → named s' j k).
Proof.
  intros Ht Hi Hin Htx. destruct (named_entry _ _ _ _ _ _ Ht Hi) as (p & x & Hp & Hx & Hn & Hr & Hdev & Hrx & Hv & Hit & Hlk).
  rewrite decide_True in Hlk by done. destruct Hlk as (Hlk & Hvx & _). unfold iunlock, holdingsleep, get_sl.
  apply wp_bind. eapply (wp_Ok _ _ true s).
  { rewrite bind_assoc, (bind_Ok_1 _ _ _ _ _ (get_inode_run _ _ _ Hx)), bind_ret, (bind_Ok_1 _ _ _ _ _ (get_proc_run _ _ _ Hp)), Hlk.
    cbn. by rewrite Z.eqb_refl. }
  cbv beta. apply wp_bind. eapply wp_Ok; [by apply get_inode_run|]. cbv beta. cbn [negb orb].
  destruct (Z.ltb_spec (i_ref x) 1); [lia|]. unfold releasesleep, put_sl.
  apply wp_bind. eapply wp_Ok; [by apply upd_inode_run|]. cbv beta. set (y := set_i_lock _ x). set (s1 := set_k_inode _ s).
  pose proof (ci_table _ _ _ _ _ (proj1 Htx)) as Htab. pose proof (woke_wakeup me (sl_chan (LInode i)) (k_proc s)) as Hw.
  eapply wp_Ok; [exact (wakeup_map (Some me) (sl_chan (LInode i)) s1 Htab)|]. set (s2 := set_k_proc _ s1).
  destruct (itable_set s m refs held i n x y p (held ∖ {[i]})) as [I1 I2]; [done..| | | |].
  { intros _. by apply on_disk_lock, Hv. }
  { rewrite decide_False by set_solver. done. }
  { clear. set_solver. }
  assert (fdid s s2) as Hd by (split_and!; [by destruct s|exact Hw|done|done]).
  split_and!; [|eapply txn_woke; [by apply txn_inode|exact Hw]|done|exact I2].
  eapply itable_ext; [..|exact I1]; [done|]. exact (fdid_me _ _ Hd).
Qed.

Lemma iput_wp s pins m refs held i n :
  itable s m refs held → named s i n → i ∉ held → txn s pins m ∅ →
  (∀ x, on_disk sb m x → i_inum x = n → i_dev x = ROOTDEV → i_nlink x ≠ 0) →
  wp (iput me i) s (λ _ s', itable s' m (ref_drop refs n) held ∧ txn s' pins m ∅ ∧ fdid s s' ∧
    ∀ j k, named s j k → (k = n → refs !! n ≠ Some 1) → named s' j k).
Proof.
  intros Ht Hi Hni Htx Hnl. destruct (named_entry _ _ _ _ _ _ Ht Hi) as (p & x & Hp & Hx & Hn & Hr & Hdev & Hrx & Hv & Hit & Hlk).
  rewrite decide_False in Hlk by done. unfold iput. apply wp_bind. eapply wp_Ok; [by apply get_inode_run|]. cbv beta.
  assert ((i_ref x =? 1) && i_valid x && (i_nlink x =? 0) = false) as ->.
  { destruct (i_valid x); [|by rewrite andb_false_r]. destruct (Z.eqb_spec (i_nlink x) 0) as [E|_]; [|by rewrite andb_false_r].
    by destruct (Hnl x (Hv eq_refl) Hn Hdev). }
  apply wp_bind, wp_ret. eapply wp_Ok; [by apply upd_inode_run|]. set (y := set_i_ref (i_ref x - 1) x).
  pose proof (lookup_lt_Some _ _ _ Hx) as Hlt. split_and!; [|by apply txn_inode|apply fdid_upd|].
  - exists p. split; [done|]. eapply (itab_upd sb (p_pid p) m refs held (k_inode s) i x y _ held n); [done|done|done|lia|intros; by apply ref_drop_ne| |by rewrite decide_False|done].
    unfold ref_drop. rewrite Hrx. destruct (decide (Some (i_ref x) = Some 1)) as [[= E]|E].
    + right. rewrite lookup_delete_eq. split; [cbn; lia|done].
    + left. rewrite lookup_insert_eq. cbn. assert (i_ref x ≠ 1) by congruence. split_and!; [lia|done..|].
      intros Hvx. by apply on_disk_ref, Hv.
  - intros j k (z & Hz & Hrz & Hnz) Hk. destruct (decide (j = i)) as [->|Hj].
    + rewrite Hx in Hz. injection Hz as <-. exists y. cbn. rewrite list_lookup_insert_eq by done.
      assert (i_ref x ≠ 1). { intros E. apply (Hk ltac:(congruence)). by rewrite Hrx, E. }
      split_and!; [done|lia|done].
    + exists z. cbn. by rewrite list_lookup_insert_ne.
Qed.

Lemma iunlockput_wp s pins m refs i n :
  itable s m refs {[i]} → named s i n → txn s pins m ∅ →
  (∀ x, on_disk sb m x → i_inum x = n → i_dev x = ROOTDEV → i_nlink x ≠ 0) →
  wp (iunlockput me i) s (λ _ s', itable s' m (ref_drop refs n) ∅ ∧ txn s' pins m ∅ ∧ fdid s s' ∧
    ∀ j k, named s j k → (k = n → refs !! n ≠ Some 1) → named s' j k).
Proof.
  intros Ht Hi Htx Hnl. unfold iunlockput. apply wp_bind. eapply wp_mono; [eapply (iunlock_wp s pins m refs {[i]} i n); [done|done|set_solver|done]|].
  cbv beta. intros [] s1 (Ht1 & Htx1 & Hd1 & Hn1). rewrite difference_diag_L in Ht1.
  eapply wp_mono; [eapply (iput_wp s1 pins m refs ∅ i n); [done|by apply Hn1|set_solver|done|done]|].
  cbv beta. intros [] s2 (Ht2 & Htx2 & Hd2 & Hn2). split_and!; [done|done|by eapply fdid_trans|]. intros j k Hjk Hk. by apply Hn2; [apply Hn1|].
Qed.

Lemma idup_run s m refs held i n :
  itable s m refs held → named s i n → ∃ l, let s' := set_k_inode l s in
    idup i s = Ok (i, s') ∧ itable s' m (ref_add refs n) held ∧ named s' i n.
Proof.
  intros Ht Hi. destruct (named_entry _ _ _ _ _ _ Ht Hi) as (p & x & Hp & Hx & Hn & Hr & Hdev & Hrx & Hv & Hit & Hlk).
  unfold idup. rewrite (bind_Ok_1 _ _ _ _ _ (upd_inode_run _ _ _ _ Hx)). set (y := set_i_ref (i_ref x + 1) x).
  pose proof (lookup_lt_Some _ _ _ Hx) as Hlt. exists (<[i := y]> (k_inode s)). split_and!; [done| |].
  - exists p. split; [done|]. eapply (itab_upd sb (p_pid p) m refs held (k_inode s) i x y _ _ n); [done|done|done|lia|intros; by apply ref_add_ne| | |done].
    + left. unfold ref_add. rewrite lookup_insert_eq, Hrx. cbn. split_and!; [lia|done..|]. intros Hvx. by apply on_disk_ref, Hv.
    + cbn. case_decide; [|done]. split_and!; [tauto..|lia].
  - exists y. cbn. rewrite list_lookup_insert_eq by done. split_and!; [done|lia|done].
Qed.
End ops.
