(* ===== verification/Path.v ===== *)
(** Path names.

    The inodes on the disk and the directories among them are a graph;
    [resolve] walks along the names of a path in it.  [namei] does the same
    with inodes in memory, locks and references, and leaves behind one
    reference, to the inode it found. *)

From stdpp Require Import functions.
From S2P Require Import Prelude Riscv Mem Str Kalloc Vm State Sched SchedSpec Procmem Console ConsoleSpec Sleeplock Bio BioSpec Cache Block Log LogSpec Fs Dir FsSpec Pipe File Content Dinode ReadWrite DirSpec Itable.

(** * Names *)

(** Only the characters up to the first nul matter. *)
Lemma strncmp_upto p p' q n : agree_upto p p' n → strncmp p q n = strncmp p' q n.
Proof.
  revert p p' q. induction n as [|n IH]; intros p p' q Ha; [done|]. cbn [strncmp].
  assert (p 0 = p' 0) as <- by (apply Ha; [lia|intros j Hj; lia]).
  destruct (Z.eqb_spec (p 0) 0) as [E|E]; [done|]. destruct (p 0 =? q 0); [|done]. cbn [negb andb]. apply IH.
  intros i Hi Hp. apply Ha; [lia|]. intros j Hj. destruct (decide (j = 0)) as [->|]; [done|].
  replace j with (j - 1 + 1) by lia. apply Hp. lia.
Qed.

Lemma upto_nul_chars l i : (∀ j, 0 ≤ j < i → chars l j ≠ 0) → 0 ≤ i → chars l i = chars (upto_nul l) i.
Proof.
  revert i. induction l as [|c l IH]; intros i Hj Hi; [done|]. cbn [upto_nul].
  destruct (Z.eqb_spec c 0) as [->|Hc].
  - destruct (decide (i = 0)) as [->|Hn]; [done|]. destruct (Hj 0); [lia|done].
  - destruct (decide (i = 0)) as [->|Hn]; [done|]. unfold chars in *. replace (Z.to_nat i) with (S (Z.to_nat (i - 1))) by lia. cbn.
    apply IH; [|lia]. intros j Hj'. specialize (Hj (j + 1) ltac:(lia)). by replace (Z.to_nat (j + 1)) with (S (Z.to_nat j)) in Hj by lia.
Qed.

Lemma namecmp_elem name s t : upto_nul name = take (Z.to_nat DIRSIZ) s → namecmp name t = namecmp s t.
Proof.
  intros E. apply strncmp_upto. intros i Hi Hj. rewrite upto_nul_chars by (done || lia). rewrite E. unfold chars.
  by rewrite lookup_take_lt by lia.
Qed.

Lemma dfind_elem name s l : upto_nul name = take (Z.to_nat DIRSIZ) s → dfind name l = dfind s l.
Proof.
  intros E. unfold dfind. induction l as [|de l IH]; [done|]. cbn. rewrite IH.
  assert (matches name de ↔ matches s de) as Hm by (unfold matches; by rewrite (namecmp_elem _ _ _ E)).
  destruct (decide (matches name de)), (decide (matches s de)); tauto.
Qed.

(** * The graph of inodes *)

Section graph.
Context (sb : superblock).

(** The inode [n] on the disk. *)
Definition disk_inode (m : Z → block) (n : Z) : inode :=
  get_dinode (dip_off n) (m (IBLOCK n sb)) (Inode ROOTDEV n 1 sleeplock0 true 0 0 0 0 0 (replicate 13 0)).

Definition live (m : Z → block) (n : Z) : Prop := 1 ≤ n < sb_ninodes sb ∧ i_type (disk_inode m n) ≠ 0.

(** Inodes that are in use have links, directories consist of entries, and the
    entries name inodes that are in use. *)
Record fs_ok (m : Z → block) : Prop := {
  fk_file : ∀ n, live m n → file_ok sb m (disk_inode m n) ∧ i_nlink (disk_inode m n) ≠ 0;
  fk_dir : ∀ n, live m n → i_type (disk_inode m n) = T_DIR → i_size (disk_inode m n) mod 16 = 0;
  fk_entry : ∀ n de, live m n → i_type (disk_inode m n) = T_DIR → de ∈ entries (content m (disk_inode m n)) →
    de_inum de ≠ 0 → live m (de_inum de);
}.

(** The inode reached from [n] along the names. *)
Fixpoint resolve (m : Z → block) (n : Z) (names : list (list Z)) : option Z :=
  match names with
  | [] => Some n
  | name :: names' =>
      if i_type (disk_inode m n) =? T_DIR then
        match dfind name (entries (content m (disk_inode m n))) with
        | Some (_, de) => resolve m (de_inum de) names'
        | None => None
        end
      else None
  end.

(** An inode in memory that agrees with the disk. *)
Lemma on_disk_eq m x n : on_disk sb m x → i_inum x = n → i_dev x = ROOTDEV →
  x = set_i_valid (i_valid x) (set_i_lock (i_lock x) (set_i_ref (i_ref x) (disk_inode m n))).
Proof. intros E <- Hd. unfold on_disk in E. rewrite <-E at 1. unfold disk_inode. destruct x. cbn in Hd. by subst. Qed.

Lemma on_disk_same m x n : on_disk sb m x → i_inum x = n → i_dev x = ROOTDEV → let y := disk_inode m n in
  i_type x = i_type y ∧ i_nlink x = i_nlink y ∧ i_size x = i_size y ∧ content m x = content m y ∧ (file_ok sb m y → file_ok sb m x).
Proof.
  intros Hx Hn Hd. pose proof (on_disk_eq m x n Hx Hn Hd) as E. generalize dependent (disk_inode m n). intros y E. cbv zeta. rewrite E.
  split_and!; [done..|]. intros [[A1 A2 A3 A4 A5] B C [D1 D2 D3 D4 D5 D6 D7] F]. done.
Qed.
End graph.

(** * namei *)

Section namei.
Context `{KernelImage} (me : nat) (start : Z) (sb : superblock).
Context (m : Z → block) (pins : gset Z) (refs : gmap Z Z).
Context (Hfs : fs_ok sb m) (Hpins : (size pins < Z.to_nat NBUF)%nat) (Hrefs : (size refs + 1 < Z.to_nat NINODE)%nat).
Context (Hpos : ∀ n r, refs !! n = Some r → 0 < r).
Abbreviation txn := (txn me start).
Abbreviation itable := (itable me sb).
Abbreviation fdid := (fdid me).

(** The process holds inode [ip] for [n], besides what it held before. *)
Definition at_inode (s : kernel) (ip : nat) (n : Z) : Prop :=
  itable s m (ref_add refs n) ∅ ∧ named s ip n ∧ live sb m n ∧ txn s pins m ∅ ∧ k_sb s = sb.

Definition walked (s : kernel) (r : option Z) (ip : option nat) (s' : kernel) : Prop :=
  txn s' pins m ∅ ∧ fdid s s' ∧
  match r with
  | Some n => ∃ i, ip = Some i ∧ at_inode s' i n
  | None => ip = None ∧ itable s' m refs ∅
  end.

Lemma live_type n : live sb m n → ∀ x, on_disk sb m x → i_inum x = n → i_dev x = ROOTDEV → i_type x ≠ 0.
Proof. intros [_ Hn] x H1 H2 H3. by rewrite (proj1 (on_disk_same sb m x n H1 H2 H3)). Qed.
Lemma live_nlink n : live sb m n → ∀ x, on_disk sb m x → i_inum x = n → i_dev x = ROOTDEV → i_nlink x ≠ 0.
Proof. intros Hn x H1 H2 H3. rewrite (proj1 (proj2 (on_disk_same sb m x n H1 H2 H3))). by apply (fk_file _ _ Hfs). Qed.

(** One turn of the loop. *)
Lemma namex_turn s ip path name n :
  at_inode s ip n → 0 ∉ path → length name = Z.to_nat DIRSIZ →
  wp (namex_body me false (ip, path, name)) s (λ r s',
    match elements path with
    | [] => ∃ nm, r = inr (Some ip, nm) ∧ s' = s
    | e :: es =>
        match resolve sb m n [e] with
        | Some n' => ∃ ip' path' name', r = inl (ip', path', name') ∧ at_inode s' ip' n' ∧ elements path' = es ∧ 0 ∉ path' ∧
            length name' = Z.to_nat DIRSIZ ∧ (length path' < length path)%nat ∧ fdid s s'
        | None => ∃ nm, r = inr (None, nm) ∧ walked s None None s'
        end
    end).
Proof.
  intros (Ht & Hi & Hl & Htx & Esb) Hz Hn. pose proof (skipelem_spec path name Hz Hn) as Hsk. unfold namex_body.
  destruct (skipelem path name) as [[path' name']|]; [|rewrite Hsk; apply wp_ret; by exists name].
  destruct Hsk as (e & -> & Hu & Hn' & Hz' & Hlt).
  apply wp_bind. eapply wp_mono; [eapply (ilock_wp me start sb s pins m _ ∅ ip n); [done|done|set_solver|done|done|done|by apply live_type]|].
  cbv beta. intros [] s1 (Ht1 & Htx1 & Hd1 & Hn1). rewrite union_empty_r_L in Ht1.
  destruct (named_entry me sb _ _ _ _ _ _ Ht1 (Hn1 _ _ Hi)) as (p & x & _ & Hx & Hnx & _ & Hdev & _ & Hv & _ & Hlk).
  rewrite decide_True in Hlk by set_solver. specialize (Hv (proj1 (proj2 Hlk))).
  destruct (on_disk_same sb m x n Hv Hnx Hdev) as (S1 & _ & S3 & S4 & S5).
  apply wp_bind. eapply wp_Ok; [by apply get_inode_run|]. cbv beta. rewrite S1. cbn [resolve].
  assert (ref_drop (ref_add refs n) n = refs) as Hback by (apply ref_drop_add, Hpos).
  destruct (Z.eqb_spec (i_type (disk_inode sb m n)) T_DIR) as [Ety|Ety]; cbn [negb andb].
  2: { apply wp_bind. eapply wp_mono; [by eapply (iunlockput_wp me start sb s1 pins m _ ip n); [|apply Hn1| |apply live_nlink]|].
       cbv beta. intros [] s2 (Ht2 & Htx2 & Hd2 & _). rewrite Hback in Ht2. apply wp_ret. exists name'. split; [done|].
       split_and!; [done|by eapply fdid_trans|done|done]. }
  assert (dir_ok sb m x) as Hdir.
  { constructor; [apply S5, (fk_file _ _ Hfs n Hl)|congruence|]. rewrite S3. by apply (fk_dir _ _ Hfs). }
  destruct (dirlookup_run me start sb s1 pins m ip x name' Htx1 Hx Hdir Hpins) as (s2 & Htx2 & Hd2 & E).
  rewrite S4, (dfind_elem _ _ _ Hu) in E. assert (itable s2 m (ref_add refs n) {[ip]}) as Ht2 by (by eapply itable_did).
  assert (named s2 ip n) as Hi2 by (eapply named_did; [done|by apply Hn1]).
  assert (fdid s s2) as Hds2 by (eapply fdid_trans; [done|by apply fdid_did]). apply wp_bind.
  destruct (dfind e (entries (content m (disk_inode sb m n)))) as [[j de]|] eqn:Ef.
  - apply list_find_Some in Ef as (Hj & [Hde _] & _). apply list_elem_of_lookup_2 in Hj.
    pose proof (fk_entry _ _ Hfs n de Hl Ety Hj Hde) as Hl'. set (n' := de_inum de) in *.
    destruct (iget_run me sb s2 m _ _ n' Ht2) as (i & l & Eg & Ht3 & Hi3 & Hk3).
    { pose proof (ref_add_size refs n). lia. }
    set (s3 := set_k_inode l s2) in *. eapply (wp_Ok _ _ _ s3); [rewrite E, (bind_Ok_1 _ _ _ _ _ Eg); reflexivity|]. cbv beta.
    apply wp_bind. eapply wp_mono; [eapply (iunlockput_wp me start sb s3 pins m _ ip n); [done|by apply Hk3|by apply txn_inode|by apply live_nlink]|].
    cbv beta. intros [] s4 (Ht4 & Htx4 & Hd4 & Hk4). apply wp_ret.
    assert (fdid s s4) as Hds by (eapply fdid_trans; [done|]; eapply fdid_trans; [apply fdid_upd|done]).
    exists i, path', name'. split_and!; [done| |done..]. split_and!; [| |done|done|by rewrite (fdid_sb me _ _ Hds)].
    + rewrite ref_add_comm, ref_drop_add in Ht4; [done|]. intros r. unfold ref_add.
      destruct (decide (n = n')) as [->|Hne]; [|rewrite lookup_insert_ne by done; apply Hpos].
      rewrite lookup_insert_eq. intros [= <-]. destruct (refs !! n') as [r0|] eqn:Er; cbn; [apply Hpos in Er|]; lia.
    + apply Hk4; [done|]. intros <-. unfold ref_add. rewrite !lookup_insert_eq. cbn. intros [= E1].
      destruct (refs !! n') as [r0|] eqn:Er; cbn in E1; [apply Hpos in Er|]; lia.
  - eapply (wp_Ok _ _ _ s2); [exact E|]. cbv beta.
    apply wp_bind. eapply wp_mono; [by eapply (iunlockput_wp me start sb s2 pins m _ ip n); [| | |apply live_nlink]|].
    cbv beta. intros [] s3 (Ht3 & Htx3 & Hd3 & _). rewrite Hback in Ht3. apply wp_ret. exists name'. split; [done|].
    split_and!; [done|by eapply fdid_trans|done|done].
Qed.

Lemma resolve_cons n e es : resolve sb m n (e :: es) = match resolve sb m n [e] with Some n' => resolve sb m n' es | None => None end.
Proof. cbn [resolve]. destruct (_ =? T_DIR); [|done]. by destruct (dfind e _) as [[]|]. Qed.

Lemma namex_loop fuel : ∀ s ip path name n,
  at_inode s ip n → 0 ∉ path → length name = Z.to_nat DIRSIZ → (length path < fuel)%nat →
  wp (loop fuel (namex_body me false) (ip, path, name)) s (λ r s', walked s (resolve sb m n (elements path)) r.1 s').
Proof.
  induction fuel as [|fuel IH]; intros s ip path name n Hat Hz Hn Hf; [lia|]. cbn [loop]. apply wp_bind.
  eapply wp_mono; [by apply (namex_turn s ip path name n)|]. cbv beta. intros r s1. destruct (elements path) as [|e es].
  - intros (nm & -> & ->). apply wp_ret. pose proof Hat as (_ & _ & _ & Htx & _). split_and!; [done|apply fdid_refl|by exists ip].
  - rewrite (resolve_cons n e es). destruct (resolve sb m n [e]) as [n'|].
    + intros (ip' & path' & name' & -> & Hat' & <- & Hz' & Hn' & Hlt & Hd). eapply wp_mono; [eapply IH; [done..|lia]|].
      cbv beta. intros r s2 (W1 & W2 & W3). split_and!; [done|by eapply fdid_trans|done].
    + intros (nm & -> & W). by apply wp_ret.
Qed.
End namei.

(** Where a path starts; [cwd] is the current directory. *)
Definition path_start (path : list Z) (cwd : Z) : Z :=
  match path with
  | c :: _ => if c =? SLASH then ROOTINO else cwd
  | [] => cwd
  end.

Section namei_run.
Context `{KernelImage} (me : nat) (start : Z) (sb : superblock) (s : kernel) (m : Z → block) (pins : gset Z) (refs : gmap Z Z).
Context (Esb : k_sb s = sb) (Htx : txn me start s pins m ∅) (Ht : itable me sb s m refs ∅) (Hfs : fs_ok sb m).
Context (Hpins : (size pins < Z.to_nat NBUF)%nat) (Hrefs : (size refs + 1 < Z.to_nat NINODE)%nat).

Lemma namei_start path cwd : live sb m (path_start path cwd) →
  (path_start path cwd = cwd → ∃ p d, k_proc s !! me = Some p ∧ p_cwd p = Some d ∧ named s d cwd) →
  ∃ ip l, let s' := set_k_inode l s in
    (match path with
     | c :: _ =>
         if c =? SLASH then iget ROOTDEV ROOTINO
         else p ← get_proc me; match p_cwd p with Some d => idup d | None => ub end
     | [] => p ← get_proc me; match p_cwd p with Some d => idup d | None => ub end
     end) s = Ok (ip, s') ∧ at_inode me start sb m pins refs s' ip (path_start path cwd).
Proof.
  intros Hl Hc.
  assert (∃ ip l, iget ROOTDEV ROOTINO s = Ok (ip, set_k_inode l s) ∧
    (live sb m ROOTINO → at_inode me start sb m pins refs (set_k_inode l s) ip ROOTINO)) as Hroot.
  { destruct (iget_run me sb s m refs ∅ ROOTINO Ht) as (ip & l & E & T & N & _); [lia|]. exists ip, l. split; [exact E|].
    intros Hr. split_and!; [done|done|done..|by apply txn_inode|done]. }
  assert (path_start path cwd = cwd → ∃ ip l,
    (p ← get_proc me; match p_cwd p with Some d => idup d | None => ub end) s = Ok (ip, set_k_inode l s) ∧
    at_inode me start sb m pins refs (set_k_inode l s) ip cwd) as Hcwd.
  { intros E0. destruct (Hc E0) as (p & d & Hp & Hd & Hn). rewrite E0 in Hl.
    destruct (idup_run me sb s m refs ∅ d cwd Ht Hn) as (l & E & T & N). exists d, l. split.
    - rewrite (bind_Ok_1 _ _ _ _ _ (get_proc_run _ _ _ Hp)), Hd. exact E.
    - split_and!; [done|done|done..|by apply txn_inode|done]. }
  destruct path as [|c path]; cbn [path_start] in *; [by apply Hcwd|].
  destruct (c =? SLASH); [|by apply Hcwd]. destruct Hroot as (ip & l & E & R). exists ip, l. auto.
Qed.

Lemma namei_run path cwd : 0 ∉ path → live sb m (path_start path cwd) →
  (path_start path cwd = cwd → ∃ p d, k_proc s !! me = Some p ∧ p_cwd p = Some d ∧ named s d cwd) →
  ∃ r s', namei me path s = Ok (r, s') ∧
    walked me start sb m pins refs s (resolve sb m (path_start path cwd) (elements path)) r s'.
Proof.
  intros Hz Hl Hc. destruct (namei_start path cwd Hl Hc) as (ip & l & E & Hat).
  assert (∀ n r, refs !! n = Some r → 0 < r) as Hpos by (intros n r Hr; exact (itable_pos me sb s m refs ∅ n r Ht Hr)).
  destruct (wp_elim _ _ _ (namex_loop me start sb m pins refs Hfs Hpins Hrefs Hpos (S (S (length path))) _ ip path
    (replicate (Z.to_nat DIRSIZ) 0) _ Hat Hz ltac:(done) ltac:(lia))) as ([r nm] & s' & Hrun & W1 & W2 & W3). cbn [fst] in *.
  exists r, s'. split.
  - unfold namei, namex. rewrite bind_assoc, (bind_Ok_1 _ _ _ _ _ E). by rewrite (bind_Ok_1 _ _ _ _ _ Hrun).
  - split_and!; [done| |done]. eapply fdid_trans; [apply fdid_upd|exact W2].
Qed.
End namei_run.

(** C15: [namei] finds the file a path names.  In a file system whose
    directories name inodes that are in use and have links, it walks
    from the root or the current directory along the names in the path; if
    every name on the way is found in a directory it returns the inode
    the walk ends at, with one reference added to it, and otherwise
    0 with every reference as it was.  It holds no lock afterwards and
    leaves the disk as it is, and two free entries in the table of inodes are
    enough. *)
Theorem namei_resolves `{KernelImage} (me : nat) (start : Z) (sb : superblock) (s : kernel) (m : Z → block) (pins : gset Z)
    (refs : gmap Z Z) (path : list Z) (cwd : Z) :
  k_sb s = sb → txn me start s pins m ∅ → itable me sb s m refs ∅ → fs_ok sb m →
  (size pins < Z.to_nat NBUF)%nat → (size refs + 1 < Z.to_nat NINODE)%nat → 0 ∉ path → live sb m (path_start path cwd) →
  (path_start path cwd = cwd → ∃ p d, k_proc s !! me = Some p ∧ p_cwd p = Some d ∧ named s d cwd) →
  ∃ r s', namei me path s = Ok (r, s') ∧ txn me start s' pins m ∅ ∧
    match resolve sb m (path_start path cwd) (elements path) with
    | Some n => ∃ ip, r = Some ip ∧ named s' ip n ∧ live sb m n ∧ itable me sb s' m (ref_add refs n) ∅
    | None => r = None ∧ itable me sb s' m refs ∅
    end.
Proof.
  intros Esb Htx Ht Hfs Hp Hr Hz Hl Hc.
  destruct (namei_run me start sb s m pins refs Esb Htx Ht Hfs Hp Hr path cwd Hz Hl Hc) as (r & s' & E & W1 & _ & W3).
  exists r, s'. split_and!; [done|done|]. destruct (resolve _ _ _ _) as [n|]; [|done].
  destruct W3 as (ip & -> & T & N & L & _). by exists ip.
Qed.
