(* ===== verification/Trunc.v ===== *)
(** Giving up a file: [itrunc] frees the blocks of an inode, and [iput] of the
    last reference to an inode without links frees the inode as well. *)

From stdpp Require Import functions.
From S2P Require Import Prelude Riscv Mem Str Kalloc Vm State Sched SchedSpec Procmem Console ConsoleSpec Sleeplock Bio BioSpec Cache Block Log LogSpec Fs Dir FsSpec Pipe File Content Dinode ReadWrite DirSpec Itable Path.

Section trunc.
Context (me : nat) (start : Z) (sb : superblock) (Hsb : fslayout start sb) (Hlay : layout start).
Abbreviation txn := (txn me start).
Abbreviation did := (did me []).
Abbreviation fdid := (fdid me).

(** * Freeing blocks *)

(** The contents [m'] are [m] with the blocks [l] free. *)
Record freed (m : Z → block) (l : list Z) (m' : Z → block) : Prop := {
  fr_same : ∀ b, b ≠ sb_bmapstart sb → m' b = m b;
  fr_block : is_block (m' (sb_bmapstart sb));
  fr_used : ∀ b, 0 ≤ b < BPB → used m' sb b = used m sb b && bool_decide (b ∉ l);
}.

Lemma freed_nil m : is_block (m (sb_bmapstart sb)) → freed m [] m.
Proof. intros Hb. constructor; [done|done|]. intros b _. rewrite bool_decide_eq_true_2 by apply not_elem_of_nil. by rewrite andb_true_r. Qed.

Lemma freed_cons m l m1 b :
  freed m l m1 → 0 ≤ b < BPB → freed m (b :: l) (<[sb_bmapstart sb := clear_bit b (m1 (sb_bmapstart sb))]> m1).
Proof.
  intros [F1 F2 F3] Hb. constructor.
  - intros c Hc. rewrite fn_lookup_insert_ne by done. by apply F1.
  - rewrite fn_lookup_insert. by apply is_block_set.
  - intros c Hc. unfold used at 1. rewrite fn_lookup_insert, bit_clear by done. destruct (decide (b = c)) as [->|Hne].
    + rewrite bool_decide_eq_false_2 by (intros Hn; apply Hn; by left). by rewrite andb_false_r.
    + change (bit (m1 (sb_bmapstart sb)) c) with (used m1 sb c). rewrite F3 by done. f_equal. apply bool_decide_ext.
      rewrite not_elem_of_cons. naive_solver.
Qed.

(** The blocks that may be in the log for it. *)
Definition bpins (pins P : gset Z) : Prop := P ⊆ {[sb_bmapstart sb]} ∪ pins.

Lemma bpins_size pins P : bpins pins P → (size P ≤ S (size pins))%nat.
Proof. intros Hp. pose proof (subseteq_size _ _ Hp). pose proof (size_union_le (sb_bmapstart sb) pins). lia. Qed.

Lemma bfree_freed s pins P m l m1 held b :
  k_sb s = sb → txn s P m1 held → bpins pins P → not_held held (sb_bmapstart sb) → freed m l m1 →
  isdata sb b → used m sb b = true → b ∉ l → (size pins + size held + 1 < Z.to_nat NBUF)%nat →
  wp (bfree me ROOTDEV b) s (λ _ s', ∃ P' m2, txn s' P' m2 held ∧ bpins pins P' ∧ freed m (b :: l) m2 ∧ did s s').
Proof.
  intros Esb Ht Hp Hnh Hf Hd Hu Hn Hsz. destruct (isdata_nz start sb Hsb Hlay b Hd) as (_ & _ & Hr). pose proof (bpins_size _ _ Hp).
  eapply wp_mono; [eapply (bfree_wp me start sb Hsb Hlay s P m1 held b); [done|done|done| | |lia]|].
  - pose proof (isdata_home start sb Hsb Hlay b Hd). destruct Hd. lia.
  - rewrite (fr_used _ _ _ Hf) by done. rewrite Hu, bool_decide_eq_true_2 by done. done.
  - cbv beta. intros [] s' [Ht' Hd']. eexists _, _. split_and!; [exact Ht'|unfold bpins in *; set_solver|by apply freed_cons|done].
Qed.

(** The list [l] is the first [k] blocks of the file. *)
Definition upto (m : Z → block) (x : inode) (k : Z) (l : list Z) : Prop :=
  ∀ b, b ∈ l ↔ b ≠ 0 ∧ ∃ bn, 0 ≤ bn < k ∧ b = addr m x bn.

Lemma upto_0 m x : upto m x 0 [].
Proof. intros b. split; [intros Hb; by apply not_elem_of_nil in Hb|intros (_ & bn & ? & _); lia]. Qed.

Lemma upto_hole m x k l : 0 ≤ k → upto m x k l → addr m x k = 0 → upto m x (k + 1) l.
Proof.
  intros Hk Hl Ha b. rewrite (Hl b). split; intros [H0 (bn & Hbn & E)]; split; try done.
  - exists bn. split; [lia|done].
  - exists bn. destruct (decide (bn = k)) as [->|]; [congruence|]. split; [lia|done].
Qed.

Lemma upto_next m x k l : ino_ok sb m x → 0 ≤ k < MAXFILE → upto m x k l → addr m x k ≠ 0 →
  addr m x k ∉ l ∧ upto m x (k + 1) (addr m x k :: l).
Proof.
  intros Hx Hk Hl Ha. split.
  - intros (_ & bn & Hbn & E)%Hl. pose proof (io_inj _ _ _ Hx k bn Hk ltac:(lia) Ha E). lia.
  - intros b. rewrite elem_of_cons, (Hl b). split.
    + intros [->|[H0 (bn & Hbn & E)]]; (split; [done|]); [exists k|exists bn]; (split; [lia|done]).
    + intros [H0 (bn & Hbn & E)]. destruct (decide (bn = k)) as [->|]; [by left|right]. split; [done|]. exists bn. split; [lia|done].
Qed.

(** * itrunc *)

(** The addresses after the first [k] have been cleared. *)
Definition cut (k : nat) (l : list Z) : list Z := replicate k 0 ++ drop k l.

Lemma cut_lookup k l : cut k l !! k = l !! k.
Proof. unfold cut. rewrite lookup_app_r, length_replicate, Nat.sub_diag, lookup_drop by (by rewrite length_replicate). by rewrite Nat.add_0_r. Qed.
Lemma cut_next k l a : l !! k = Some a → <[k := 0]> (cut k l) = cut (S k) l.
Proof.
  intros Ha. unfold cut. rewrite (drop_S _ _ _ Ha), replicate_S_end, <-app_assoc. cbn [app].
  rewrite insert_app_r_alt by (by rewrite length_replicate). by rewrite length_replicate, Nat.sub_diag.
Qed.
Lemma cut_hole k l : l !! k = Some 0 → cut (S k) l = cut k l.
Proof. intros Ha. unfold cut. by rewrite (drop_S _ _ _ Ha), replicate_S_end, <-app_assoc. Qed.

Section itrunc.
Context (s0 : kernel) (pins : gset Z) (m : Z → block) (ip : nat) (x : inode).
Context (Hx : file_ok sb m x) (Hip : k_inode s0 !! ip = Some x).
Context (Hsz : (size pins + 3 < Z.to_nat NBUF)%nat).

(** After [k] blocks. *)
Definition cutting (k : Z) (as_ : list Z) (s : kernel) (held : gmap nat (Z * block)) : Prop :=
  ∃ P m1 l, txn s P m1 held ∧ bpins pins P ∧ freed m l m1 ∧ upto m x k l ∧
    k_inode s = <[ip := set_i_addrs as_ x]> (k_inode s0) ∧ fdid s0 s ∧ k_sb s = sb.

Lemma cutting_inode k as_ s held : cutting k as_ s held → k_inode s !! ip = Some (set_i_addrs as_ x).
Proof. intros (P & m1 & l & _ & _ & _ & _ & E & _). rewrite E. apply list_lookup_insert_eq. by apply lookup_lt_Some in Hip. Qed.

Lemma cutting_hole k as_ s held : 0 ≤ k → cutting k as_ s held → addr m x k = 0 → cutting (k + 1) as_ s held.
Proof. intros Hk (P & m1 & l & H1 & H2 & H3 & H4 & H5) Ha. exists P, m1, l. split_and!; try done; [by apply upto_hole|apply H5..]. Qed.

(** Freeing block [k]. *)
Lemma cutting_free k as_ s held : 0 ≤ k < MAXFILE → (size held ≤ 1)%nat → not_held held (sb_bmapstart sb) →
  cutting k as_ s held → addr m x k ≠ 0 →
  wp (bfree me (i32 (i_dev x)) (addr m x k)) s (λ _ s', cutting (k + 1) as_ s' held).
Proof.
  intros Hk Hh Hnh (P & m1 & l & Ht & Hp & Hf & Hu & Ei & Hd & Es) Ha. pose proof (fo_ino _ _ _ Hx) as Hi.
  rewrite (io_dev _ _ _ Hi). change (i32 ROOTDEV) with ROOTDEV. destruct (io_addr _ _ _ Hi k Hk Ha) as [(Hda & Hus & _) _].
  destruct (upto_next m x k l Hi Hk Hu Ha) as [Hn Hu'].
  eapply wp_mono; [eapply (bfree_freed s pins P m l m1 held); [done|done|done|done|done|done|done|done|lia]|].
  cbv beta. intros [] s' (P' & m2 & Ht' & Hp' & Hf' & Hd'). exists P', m2, (addr m x k :: l).
  split_and!; [done..|by rewrite (did_inode _ _ _ _ Hd')|eapply fdid_trans; [done|by apply fdid_did]|by rewrite (did_sb _ _ _ _ Hd')].
Qed.

Lemma cutting_upd k as_ as' s : cutting k as_ s ∅ → cutting k as' (set_k_inode (<[ip := set_i_addrs as' x]> (k_inode s)) s) ∅.
Proof.
  intros (P & m1 & l & Ht & Hp & Hf & Hu & Ei & Hd & Es). exists P, m1, l. split_and!; [by apply txn_inode|done..| | |done].
  - cbn. by rewrite Ei, list_insert_insert_eq.
  - eapply fdid_trans; [done|apply fdid_upd].
Qed.

Lemma cut_all : cut 13 (i_addrs x) = replicate 13 0.
Proof. unfold cut. rewrite drop_ge, app_nil_r; [done|]. by rewrite (io_len _ _ _ (fo_ino _ _ _ Hx)). Qed.

Lemma direct_addr k : (k < 12)%nat → i_addrs x !! k = Some (addr m x (Z.of_nat k)).
Proof.
  intros Hk. unfold addr. destruct (Z.ltb_spec (Z.of_nat k) NDIRECT); [|unfold NDIRECT in *; lia]. rewrite Nat2Z.id.
  destruct (lookup_lt_is_Some_2 (i_addrs x) k) as [a Ha]; [rewrite (io_len _ _ _ (fo_ino _ _ _ Hx)); lia|]. by rewrite Ha.
Qed.

Lemma itrunc_direct :
  txn s0 pins m ∅ → is_block (m (sb_bmapstart sb)) → k_sb s0 = sb →
  wp (foreach (seq 0 (Z.to_nat NDIRECT)) (λ i,
        x ← get_inode ip;
        match i_addrs x !! i with
        | None => ub
        | Some a =>
            if a =? 0 then mret tt
            else
              bfree me (i32 (i_dev x)) a ;;
              upd_inode ip (λ x, set_i_addrs (<[i := 0]> (i_addrs x)) x)
        end)) s0 (λ _ s, cutting NDIRECT (cut 12 (i_addrs x)) s ∅).
Proof.
  intros Ht Hb Es. apply (wp_foreach_seq (λ k s, cutting (Z.of_nat k) (cut k (i_addrs x)) s ∅)); [| |by intros s].
  - exists pins, m, []. split_and!; [done|unfold bpins; set_solver|by apply freed_nil|apply upto_0| |apply fdid_refl|done].
    change (cut 0 (i_addrs x)) with (i_addrs x). replace (set_i_addrs (i_addrs x) x) with x by (by destruct x). by rewrite list_insert_id.
  - intros k s Hk Hc. change (Z.to_nat NDIRECT) with 12%nat in Hk. pose proof (cutting_inode _ _ _ _ Hc) as Hi. pose proof (direct_addr k Hk) as Ha.
    apply wp_bind. eapply wp_Ok; [by apply get_inode_run|]. cbv beta. cbn [i_addrs set_i_addrs]. rewrite cut_lookup, Ha.
    replace (Z.of_nat (S k)) with (Z.of_nat k + 1) by lia. destruct (Z.eqb_spec (addr m x (Z.of_nat k)) 0) as [E0|E0].
    + apply wp_ret. rewrite cut_hole by congruence. apply cutting_hole; [lia|done|done].
    + apply wp_bind. eapply wp_mono; [eapply (cutting_free (Z.of_nat k) _ s ∅); [change MAXFILE with 268; lia|by rewrite map_size_empty; lia|by intros ??|exact Hc|done]|].
      cbv beta. intros [] s1 Hc1. eapply wp_Ok; [apply upd_inode_run; exact (cutting_inode _ _ _ _ Hc1)|].
      cbn [i_addrs set_i_addrs]. rewrite (cut_next _ _ _ Ha). exact (cutting_upd _ _ (cut (S k) (i_addrs x)) _ Hc1).
Qed.

(** What [itrunc] has freed when it stores the inode. *)
Definition all_cut (s : kernel) : Prop :=
  ∃ P m1 l, txn s P m1 ∅ ∧ bpins pins P ∧ freed m l m1 ∧ (∀ b, b ∈ l ↔ owns m x b) ∧
    k_inode s = <[ip := set_i_addrs (replicate 13 0) x]> (k_inode s0) ∧ fdid s0 s ∧ k_sb s = sb.

(** A file without an indirect block. *)
Lemma all_cut_direct s : ind x = 0 → cutting NDIRECT (cut 12 (i_addrs x)) s ∅ → all_cut s.
Proof.
  intros Hi (P & m1 & l & Ht & Hp & Hf & Hu & Ei & Hd & Es). exists P, m1, l. split_and!; [done..| | |done|done].
  - intros b. rewrite (Hu b). unfold owns. rewrite Hi. split.
    + intros [H0 (bn & Hbn & E)]. split; [done|]. right. exists bn. change MAXFILE with 268. unfold NDIRECT in Hbn. split; [lia|done].
    + intros [H0 [?|(bn & Hbn & E)]]; [done|]. split; [done|]. exists bn. split; [|done].
      unfold addr in E. destruct (Z.ltb_spec bn NDIRECT); [lia|]. rewrite Hi in E. done.
  - rewrite Ei. rewrite <-cut_all, (cut_hole 12); [done|]. rewrite <-Hi. unfold ind. change (Z.to_nat NDIRECT) with 12%nat.
    destruct (lookup_lt_is_Some_2 (i_addrs x) 12) as [a Ha]; [rewrite (io_len _ _ _ (fo_ino _ _ _ Hx)); lia|]. by rewrite Ha.
Qed.

Lemma indirect_addr k : (k < 256)%nat → ind x ≠ 0 → get32 (m (ind x)) (4 * k) = addr m x (NDIRECT + Z.of_nat k).
Proof.
  intros Hk Hi. unfold addr. destruct (Z.ltb_spec (NDIRECT + Z.of_nat k) NDIRECT); [lia|].
  destruct (Z.eqb_spec (ind x) 0); [done|]. do 2 f_equal. lia.
Qed.

(** The loop over the indirect block, which is held. *)
Lemma itrunc_entries s bp as_ : ind x ≠ 0 → cutting NDIRECT as_ s {[bp := (ind x, m (ind x))]} →
  wp (foreach (seq 0 (Z.to_nat NINDIRECT)) (λ j,
        d ← buf_data bp;
        let aj := get32 d (4 * j) in
        if aj =? 0 then mret tt else bfree me (i32 (i_dev x)) aj)) s
    (λ _ s', cutting MAXFILE as_ s' {[bp := (ind x, m (ind x))]}).
Proof.
  intros Hi Hc. destruct (io_ind _ _ _ (fo_ino _ _ _ Hx) Hi) as ([Hda _] & _ & _).
  apply (wp_foreach_seq (λ k s, cutting (NDIRECT + Z.of_nat k) as_ s {[bp := (ind x, m (ind x))]})); [done| |by intros s'].
  intros k s1 Hk Hc1. change (Z.to_nat NINDIRECT) with 256%nat in Hk. pose proof Hc1 as (P & m1 & l & Ht & _).
  apply wp_bind. eapply wp_mono; [eapply (buf_data_txn me start s1); [exact Ht|apply lookup_singleton_eq]|].
  cbv beta. intros d s1' (-> & ->). cbv zeta. rewrite indirect_addr by done.
  replace (NDIRECT + Z.of_nat (S k)) with (NDIRECT + Z.of_nat k + 1) by lia.
  destruct (Z.eqb_spec (addr m x (NDIRECT + Z.of_nat k)) 0) as [E0|E0].
  - apply wp_ret. apply cutting_hole; [unfold NDIRECT; lia|done|done].
  - eapply cutting_free; [unfold NDIRECT; change MAXFILE with 268; lia|rewrite map_size_singleton; lia| |done|done].
    intros i d Hh. apply lookup_singleton_Some in Hh as [_ [= E _]]. unfold isdata in Hda. lia.
Qed.

Lemma itrunc_indirect s : cutting NDIRECT (cut 12 (i_addrs x)) s ∅ →
  wp (x ← get_inode ip;
      match i_addrs x !! Z.to_nat NDIRECT with
      | None => ub
      | Some a =>
          if a =? 0 then mret tt
          else
            bp ← bread me (i_dev x) a;
            foreach (seq 0 (Z.to_nat NINDIRECT)) (λ j,
              d ← buf_data bp;
              let aj := get32 d (4 * j) in
              if aj =? 0 then mret tt else bfree me (i32 (i_dev x)) aj) ;;
            brelse me bp ;;
            bfree me (i32 (i_dev x)) a ;;
            upd_inode ip (λ x, set_i_addrs (<[Z.to_nat NDIRECT := 0]> (i_addrs x)) x)
      end) s (λ _ s', all_cut s').
Proof.
  intros Hc. apply wp_bind. eapply wp_Ok; [apply get_inode_run; exact (cutting_inode _ _ _ _ Hc)|]. cbv beta.
  cbn [i_addrs set_i_addrs i_dev]. change (Z.to_nat NDIRECT) with 12%nat. rewrite cut_lookup. pose proof (fo_ino _ _ _ Hx) as Hi.
  assert (i_addrs x !! 12%nat = Some (ind x)) as Ea.
  { unfold ind. change (Z.to_nat NDIRECT) with 12%nat. destruct (lookup_lt_is_Some_2 (i_addrs x) 12) as [a Ha]; [rewrite (io_len _ _ _ Hi); lia|].
    by rewrite Ha. }
  rewrite Ea. destruct (Z.eqb_spec (ind x) 0) as [E0|E0]; [apply wp_ret; by apply all_cut_direct|].
  destruct (io_ind _ _ _ Hi E0) as (Hda & Hus & _). destruct (isdata_nz start sb Hsb Hlay _ Hda) as (_ & Hnb & Hr).
  destruct Hc as (P & m1 & l & Ht & Hp & Hf & Hu & Ei & Hd & Es). pose proof (bpins_size _ _ Hp) as HP.
  rewrite (io_dev _ _ _ Hi) at 1. apply wp_bind.
  eapply wp_mono; [eapply (bread_txn me start s P m1 ∅ (ind x)); [done|by intros ??|right; rewrite map_size_empty; lia]|].
  cbv beta. intros bp s1 (_ & Ht1 & Hd1). rewrite insert_empty, (fr_same _ _ _ Hf _ Hnb) in Ht1.
  apply wp_bind. eapply wp_mono; [eapply (itrunc_entries s1 bp (cut 12 (i_addrs x)) E0)|].
  { exists P, m1, l. split_and!; [done..|by rewrite (did_inode _ _ _ _ Hd1)|eapply fdid_trans; [done|by apply fdid_did]|by rewrite (did_sb _ _ _ _ Hd1)]. }
  cbv beta. clear s Ht Hp Hf Hu Ei Hd Es HP s1 Ht1 Hd1 P m1 l.
  intros [] s (P & m1 & l & Ht & Hp & Hf & Hu & Ei & Hd & Es). pose proof (bpins_size _ _ Hp) as HP.
  apply wp_bind. eapply wp_mono; [eapply (brelse_txn me start s); [exact Ht|rewrite (fr_same _ _ _ Hf _ Hnb); apply lookup_singleton_eq]|].
  cbv beta. intros [] s1 (Ht1 & Hd1). rewrite delete_singleton_eq in Ht1.
  assert (ind x ∉ l) as Hnl by (intros (_ & bn & Hbn & E)%Hu; destruct (io_addr _ _ _ Hi bn Hbn) as [_ ?]; congruence).
  rewrite (io_dev _ _ _ Hi). change (i32 ROOTDEV) with ROOTDEV. apply wp_bind.
  eapply wp_mono; [eapply (bfree_freed s1 pins P m l m1 ∅ (ind x)); [by rewrite (did_sb _ _ _ _ Hd1)|done|done|by intros ??|done|done|done|done|rewrite map_size_empty; lia]|].
  cbv beta. intros [] s2 (P2 & m2 & Ht2 & Hp2 & Hf2 & Hd2).
  assert (k_inode s2 = <[ip := set_i_addrs (cut 12 (i_addrs x)) x]> (k_inode s0)) as Ei2 by (by rewrite (did_inode _ _ _ _ Hd2), (did_inode _ _ _ _ Hd1)).
  eapply wp_Ok.
  { apply upd_inode_run. rewrite Ei2. apply list_lookup_insert_eq. by apply lookup_lt_Some in Hip. }
  cbn [i_addrs set_i_addrs]. rewrite (cut_next _ _ _ Ea), cut_all. exists P2, m2, (ind x :: l). split_and!; [by apply txn_inode|done|done| | | |].
  - intros b. rewrite elem_of_cons, (Hu b). unfold owns. split.
    + intros [->|[H0 R]]; [split; [done|by left]|split; [done|by right]].
    + intros [H0 [->|R]]; [by left|by right].
  - cbn. by rewrite Ei2, list_insert_insert_eq.
  - eapply fdid_trans; [exact Hd|]. eapply fdid_trans; [by apply fdid_did|]. eapply fdid_trans; [by apply fdid_did|apply fdid_upd].
  - cbn. by rewrite (did_sb _ _ _ _ Hd2), (did_sb _ _ _ _ Hd1).
Qed.

Lemma itrunc_run : txn s0 pins m ∅ → is_block (m (sb_bmapstart sb)) → k_sb s0 = sb →
  let x' := set_i_size 0 (set_i_addrs (replicate 13 0) x) in
  wp (itrunc me ip) s0 (λ _ s, ∃ P m1 l, txn s ({[IBLOCK (i_inum x) sb]} ∪ P) (put_inode sb m1 x') ∅ ∧ bpins pins P ∧
    freed m l m1 ∧ (∀ b, b ∈ l ↔ owns m x b) ∧ k_inode s = <[ip := x']> (k_inode s0) ∧ fdid s0 s).
Proof.
  intros Ht Hb Es x'. unfold itrunc. apply wp_bind. eapply wp_mono; [by apply itrunc_direct|]. cbv beta. intros [] s1 Hc.
  apply wp_assoc, wp_bind. eapply wp_mono; [by apply itrunc_indirect|]. cbv beta.
  intros [] s2 (P & m1 & l & Ht2 & Hp & Hf & Hu & Ei & Hd & Es2). pose proof (lookup_lt_Some _ _ _ Hip) as Hlt.
  apply wp_bind. eapply wp_Ok; [apply upd_inode_run; rewrite Ei; by apply list_lookup_insert_eq|]. cbv beta.
  rewrite Ei, list_insert_insert_eq. fold x'. set (s3 := set_k_inode _ s2).
  assert (k_inode s3 !! ip = Some x') as Hx3 by (by apply list_lookup_insert_eq). pose proof (bpins_size _ _ Hp).
  eapply wp_mono; [eapply (iupdate_wp me start sb Hsb Hlay s3 P m1 ip x'); [done|by apply txn_inode|done| | |lia]|].
  - apply (io_dev _ _ _ (fo_ino _ _ _ Hx)).
  - apply (fo_inum _ _ _ Hx).
  - cbv beta. intros [] s4 [Ht4 Hd4]. exists P, m1, l. split_and!; [exact Ht4|done..|by rewrite (did_inode _ _ _ _ Hd4)|].
    eapply fdid_trans; [exact Hd|]. eapply fdid_trans; [apply fdid_upd|by apply fdid_did].
Qed.
End itrunc.

(** ** What it means for the file system *)

(** Inode [x] has become [x'], and its blocks are free; everything
    else is as before. *)
Record released (m : Z → block) (x : inode) (m' : Z → block) (x' : inode) : Prop := {
  re_disk : on_disk sb m' x';
  re_used : ∀ b, 0 ≤ b < BPB → used m' sb b = true ↔ used m sb b = true ∧ ¬ owns m x b;
  re_data : ∀ b, isdata sb b → m' b = m b;
  re_bitmap : bitmap_ok sb m';
  re_inodes : inodes_ok sb m';
  re_slots : ∀ y, i_inum y ≠ i_inum x → 0 ≤ i_inum y < sb_ninodes sb → on_disk sb m y → on_disk sb m' y;
  re_others : ∀ y, i_inum y ≠ i_inum x → file_ok sb m y → on_disk sb m y → disjoint_files m x y →
    file_ok sb m' y ∧ content m' y = content m y ∧ on_disk sb m' y;
}.

Lemma freed_released m x l m1 x' :
  file_ok sb m x → bitmap_ok sb m → inodes_ok sb m → freed m l m1 → (∀ b, b ∈ l ↔ owns m x b) → fits x' → i_inum x' = i_inum x →
  released m x (put_inode sb m1 x') x'.
Proof.
  intros Hx Hb Hi [F1 F2 F3] Hl Hfit En. pose proof (fo_inum _ _ _ Hx) as Hr. rewrite <-En in Hr.
  assert (∀ i, 0 ≤ i < sb_ninodes sb → m1 (IBLOCK i sb) = m (IBLOCK i sb)) as Hib.
  { intros i Hri. apply F1. by destruct (IBLOCK_not_data start sb Hsb Hlay i Hri) as (_ & ? & _). }
  assert (∀ b, isdata sb b → put_inode sb m1 x' b = m b) as Hdata.
  { intros b Hd. rewrite (put_data start sb Hsb Hlay) by (done || by left). apply F1. destruct Hd. lia. }
  assert (∀ b, used (put_inode sb m1 x') sb b = used m1 sb b) as Hus.
  { intros b. unfold used. rewrite (put_data start sb Hsb Hlay); [done|done|by right]. }
  assert (∀ b, 0 ≤ b < BPB → used (put_inode sb m1 x') sb b = true ↔ used m sb b = true ∧ ¬ owns m x b) as Hused.
  { intros b Hbr. rewrite Hus, F3, andb_true_iff, bool_decide_eq_true by done. by rewrite Hl. }
  assert (∀ y, i_inum y ≠ i_inum x → 0 ≤ i_inum y < sb_ninodes sb → on_disk sb m y → on_disk sb (put_inode sb m1 x') y) as Hslot.
  { intros y Hny Hry Hdy. apply (put_other start sb Hsb Hlay); [apply Hfit|done|done|congruence|]. unfold on_disk. by rewrite Hib. }
  constructor; [|done|done| | |done|].
  - apply put_self; [done|]. rewrite Hib by done. by apply Hi.
  - destruct Hb as [B1 B2]. split; [|by rewrite (put_data start sb Hsb Hlay) by (done || by right)]. intros b Hbr.
    apply Hused; [pose proof (bmap_home start sb Hsb Hlay); pose proof (fl_size _ _ Hsb); destruct (fl_bmap _ _ Hsb); lia|].
    split; [by apply B1|]. intros (Hda & _)%(owns_block sb m x b (fo_ino _ _ _ Hx)). destruct Hda. lia.
  - apply (put_inodes_ok sb); [done|]. intros i Hri. rewrite Hib by done. by apply Hi.
  - intros y Hny Hy Hdy Hdis. destruct (file_ok_agree sb m (put_inode sb m1 x') y) as [H1 H2]; [| |done|].
    + intros b Hob. apply Hdata. by apply (owns_block sb m y b (fo_ino _ _ _ Hy)).
    + intros b Hob. destruct (owns_block sb m y b (fo_ino _ _ _ Hy) Hob) as (Hda & Hu & _).
      destruct (isdata_nz start sb Hsb Hlay b Hda) as (_ & _ & Hbr). apply Hused; [done|]. split; [done|]. intros Hox. by apply (Hdis b).
    + split_and!; [done|done|]. apply Hslot; [done|apply (fo_inum _ _ _ Hy)|done].
Qed.

Lemma empty_fits x : fits x → fits (set_i_size 0 (set_i_addrs (replicate 13 0) x)).
Proof. intros []. constructor; cbn; try done. by repeat constructor. Qed.

(** Storing the inode once more. *)
Lemma released_put m x m' x' x2 :
  released m x m' x' → 0 ≤ i_inum x < sb_ninodes sb → fits x2 → i_inum x2 = i_inum x → released m x (put_inode sb m' x2) x2.
Proof.
  intros [R1 R2 R3 R4 R5 R6 R7] Hr Hf En. rewrite <-En in Hr.
  assert (∀ b, used (put_inode sb m' x2) sb b = used m' sb b) as Hus.
  { intros b. unfold used. rewrite (put_data start sb Hsb Hlay); [done|done|by right]. }
  assert (∀ b, isdata sb b → put_inode sb m' x2 b = m' b) as Hdata.
  { intros b Hd. apply (put_data start sb Hsb Hlay); [done|by left]. }
  assert (∀ y, i_inum y ≠ i_inum x → 0 ≤ i_inum y < sb_ninodes sb → on_disk sb m' y → on_disk sb (put_inode sb m' x2) y) as Hslot.
  { intros y Hny Hry Hdy. apply (put_other start sb Hsb Hlay); [apply Hf|done|done|congruence|done]. }
  constructor.
  - apply put_self; [done|]. by apply R5.
  - intros b Hb. by rewrite Hus, R2.
  - intros b Hb. by rewrite Hdata, R3.
  - destruct R4 as [B1 B2]. split; [|by rewrite (put_data start sb Hsb Hlay) by (done || by right)]. intros b Hbr. rewrite Hus. by apply B1.
  - by apply (put_inodes_ok sb).
  - intros y H1 H2 H3. apply Hslot; [done|done|by apply R6].
  - intros y H1 H2 H3 H4. destruct (R7 y H1 H2 H3 H4) as (Q1 & Q2 & Q3).
    destruct (file_ok_agree sb m' (put_inode sb m' x2) y) as [H5 H6]; [| |done|].
    + intros b Hob. apply Hdata. by apply (owns_block sb m' y b (fo_ino _ _ _ Q1)).
    + intros b Hob. rewrite Hus. by apply (owns_block sb m' y b (fo_ino _ _ _ Q1)).
    + split_and!; [done|congruence|]. apply Hslot; [done|apply (fo_inum _ _ _ H2)|done].
Qed.
End trunc.

(** * iput of the last reference *)

Lemma file_ok_lock sb m x k : file_ok sb m x → file_ok sb m (set_i_lock k x).
Proof. intros [[A1 A2 A3 A4 A5] B C [D1 D2 D3 D4 D5 D6 D7] F]. done. Qed.

(** The entries that have been read agree with other contents of the disk. *)
Lemma itab_disk sb pid m m' refs held l :
  itab sb pid m refs held l → (∀ i y, l !! i = Some y → 0 < i_ref y → on_disk sb m y → on_disk sb m' y) → itab sb pid m' refs held l.
Proof.
  intros [I1 I2 I3 I4 I5 I6 I7] Hm. constructor; [done..| |done|done|done].
  intros i y Hy Hr. destruct (I4 i y Hy Hr) as (? & ? & Hv). split_and!; [done|done|]. intros Hvy. by apply (Hm i y); [| |apply Hv].
Qed.

Section last.
Context (me : nat) (start : Z) (sb : superblock) (Hsb : fslayout start sb) (Hlay : layout start).
Context (s : kernel) (pins : gset Z) (m : Z → block) (refs : gmap Z Z) (held : gset nat) (i : nat) (x : inode).
Context (Esb : k_sb s = sb) (Ht : itable me sb s m refs held) (Htx : txn me start s pins m ∅) (Hx : k_inode s !! i = Some x) (Hni : i ∉ held).
Context (Hr : i_ref x = 1) (Hv : i_valid x = true) (Hnl : i_nlink x = 0).
Context (Hf : file_ok sb m x) (Hbm : bitmap_ok sb m) (Hin : inodes_ok sb m).
Context (Hrefs : ∀ k, is_Some (refs !! k) → 0 ≤ k < sb_ninodes sb) (Hsz : (size pins + 4 < Z.to_nat NBUF)%nat).

(** Leaving the entry when the inode on disk has been freed. *)
Lemma iput_leave s4 m' pins' (y : inode) :
  k_inode s4 = <[i := y]> (k_inode s) → fdid me s s4 → txn me start s4 pins' m' ∅ → i_ref y = 1 →
  (∀ z, i_inum z ≠ i_inum x → 0 ≤ i_inum z < sb_ninodes sb → on_disk sb m z → on_disk sb m' z) →
  wp (upd_inode i (set_i_valid false) ;; releasesleep me (LInode i)) s4
    (λ _ s5, wp (upd_inode i (λ x, set_i_ref (i_ref x - 1) x)) s5 (λ _ s', txn me start s' pins' m' ∅ ∧ itable me sb s' m' (delete (i_inum x) refs) held ∧ fdid me s s')).
Proof.
  intros E4 Hd4 Ht4 Hry Hm. pose proof Ht as (p & Hp & Hit). pose proof (lookup_lt_Some _ _ _ Hx) as Hlt.
  apply wp_bind. eapply wp_Ok; [apply upd_inode_run; rewrite E4; by apply list_lookup_insert_eq|]. cbv beta.
  rewrite E4, list_insert_insert_eq. unfold releasesleep, put_sl.
  apply wp_bind. eapply wp_Ok; [apply upd_inode_run; by apply list_lookup_insert_eq|]. cbv beta. cbn [k_inode set_k_inode].
  rewrite list_insert_insert_eq. set (y2 := set_i_lock _ _). set (s6 := set_k_inode _ _).
  assert (txn me start s6 pins' m' ∅) as Ht6 by (apply txn_inode, txn_inode, Ht4).
  assert (fdid me s s6) as Hd6 by (eapply fdid_trans; [exact Hd4|]; eapply fdid_trans; apply fdid_upd).
  pose proof (woke_wakeup me (sl_chan (LInode i)) (k_proc s6)) as Hw.
  eapply wp_Ok; [exact (wakeup_map (Some me) (sl_chan (LInode i)) s6 (ci_table _ _ _ _ _ (proj1 Ht6)))|]. set (s7 := set_k_proc _ s6).
  assert (fdid me s s7) as Hd7 by (eapply fdid_trans; [exact Hd6|]; split_and!; [by destruct s6|exact Hw|done|done]).
  eapply wp_Ok; [apply upd_inode_run; by apply list_lookup_insert_eq|]. cbn [k_inode set_k_inode set_k_proc s7 s6]. rewrite list_insert_insert_eq.
  set (y3 := set_i_ref _ y2). split_and!.
  - by apply txn_inode, txn_woke.
  - exists p. split; [by rewrite <-Hp; exact (fdid_me me _ _ Hd7)|]. apply (itab_disk sb (p_pid p) m).
    + eapply (itab_upd sb (p_pid p) m refs held (k_inode s) i x y3 _ held (i_inum x)); [done|done|done|lia|intros; by apply lookup_delete_ne| | |done].
      * right. rewrite lookup_delete_eq. split; [cbn; lia|done].
      * by rewrite decide_False.
    + intros j z Hz Hrz. cbn [k_inode set_k_inode] in Hz. destruct (decide (j = i)) as [->|Hj].
      * rewrite list_lookup_insert_eq in Hz by done. injection Hz as <-. cbn in Hrz. lia.
      * rewrite list_lookup_insert_ne in Hz by done. destruct (it_used _ _ _ _ _ _ Hit j z Hz Hrz) as (_ & Hrz' & _).
        apply Hm; [|apply Hrefs; by eexists]. intros E. apply Hj. by eapply (it_inj _ _ _ _ _ _ Hit j i z x); [| | |lia|].
  - eapply fdid_trans; [exact Hd7|apply fdid_upd].
Qed.

(** The inode as it ends up on disk and in the table. *)
Definition dead : inode := set_i_type 0 (set_i_size 0 (set_i_addrs (replicate 13 0) x)).

Lemma iput_last : wp (iput me i) s (λ _ s', ∃ m' pins', txn me start s' pins' m' ∅ ∧ (size pins' ≤ size pins + 2)%nat ∧
  released sb m x m' dead ∧ itable me sb s' m' (delete (i_inum x) refs) held ∧ fdid me s s').
Proof.
  pose proof Ht as (p & Hp & Hit). pose proof (lookup_lt_Some _ _ _ Hx) as Hlt. pose proof (fo_inum _ _ _ Hf) as Hnum.
  pose proof (it_lock _ _ _ _ _ _ Hit i x Hx) as Hlk. rewrite decide_False in Hlk by done.
  unfold iput. apply wp_bind. eapply wp_Ok; [by apply get_inode_run|]. cbv beta. rewrite Hr, Hv, Hnl. cbn [andb Z.eqb Pos.eqb].
  set (lk := Sleeplock true (p_pid p)). set (x1 := set_i_lock lk x). set (s1 := set_k_inode (<[i := x1]> (k_inode s)) s).
  assert (k_inode s1 !! i = Some x1) as Hx1 by (by apply list_lookup_insert_eq).
  apply wp_bind, wp_bind. eapply (wp_Ok _ _ _ s1).
  { unfold acquiresleep, get_sl, put_sl. rewrite bind_assoc, (bind_Ok_1 _ _ _ _ _ (get_inode_run _ _ _ Hx)), bind_ret, Hlk.
    rewrite (bind_Ok_1 _ _ _ _ _ (get_proc_run _ _ _ Hp)). by apply upd_inode_run. }
  cbv beta. apply wp_bind. eapply wp_mono; [eapply (itrunc_run me start sb Hsb Hlay s1 pins m i x1 (file_ok_lock _ _ _ _ Hf) Hx1); [lia|by apply txn_inode|apply Hbm|exact Esb]|].
  cbv beta. intros [] s2 (P & m1 & l & Ht2 & HP & Hfr & Hl & E2 & Hd2). set (x2 := set_i_size 0 (set_i_addrs (replicate 13 0) x1)) in *.
  cbn [k_inode set_k_inode s1] in E2. rewrite list_insert_insert_eq in E2. assert (fits x2) as Hfit2 by (apply empty_fits; destruct (fo_fits _ _ _ Hf); done).
  pose proof (freed_released start sb Hsb Hlay m x l m1 x2 Hf Hbm Hin Hfr Hl Hfit2 eq_refl) as Hre2.
  apply wp_bind. eapply wp_Ok; [apply upd_inode_run; rewrite E2; by apply list_lookup_insert_eq|]. cbv beta. set (x3 := set_i_type 0 x2).
  rewrite E2, list_insert_insert_eq. set (s3 := set_k_inode _ s2).
  assert (k_sb s3 = sb) as Esb3 by (change (k_sb s2 = sb); by rewrite (fdid_sb me _ _ Hd2)).
  assert (fits x3) as Hfit3 by (destruct Hfit2; constructor; done).
  pose proof (released_put start sb Hsb Hlay m x _ x2 x3 Hre2 Hnum Hfit3 eq_refl) as Hre3.
  pose proof (bpins_size sb _ _ HP) as HPs. pose proof (size_union_le (IBLOCK (i_inum x1) sb) P) as HPs2.
  apply wp_bind. eapply wp_mono; [eapply (iupdate_wp me start sb Hsb Hlay s3 _ _ i x3); [done|by apply txn_inode|by apply list_lookup_insert_eq| |exact Hnum|lia]|].
  { apply (io_dev _ _ _ (fo_ino _ _ _ Hf)). }
  cbv beta. intros [] s4 [Ht4 Hd4]. set (m' := put_inode sb (put_inode sb m1 x2) x3) in *.
  eapply wp_mono; [eapply (iput_leave s4 m' _ x3); [by rewrite (did_inode _ _ _ _ Hd4)| |exact Ht4|done|apply Hre3]|].
  { eapply (fdid_trans me s s1); [apply fdid_upd|]. eapply fdid_trans; [exact Hd2|]. eapply fdid_trans; [apply fdid_upd|by apply fdid_did]. }
  cbv beta. intros [] s5 Hw5. eapply wp_mono; [exact Hw5|]. cbv beta. intros [] s6 (T1 & T2 & T3).
  eexists m', _. split_and!; [exact T1| | |exact T2|exact T3].
  2: { destruct Hre3 as [R1 R2 R3 R4 R5 R6 R7]. constructor; [|done..]. exact (on_disk_lock sb m' x3 (i_lock x) R1). }
  change (i_inum x3) with (i_inum x1). rewrite union_assoc_L, union_idemp_L. lia.
Qed.
End last.

(** C9: when the last reference to a file that has no links is dropped, [iput]
    frees everything the file had: on disk the inode becomes free, the
    blocks it owned and no others are free in the bitmap, and the entry in
    the table is free.  No other inode, file or data block changes, and
    at most two blocks are added to the log.  It never panics, so no block is
    freed twice. *)
Theorem iput_reclaims (me : nat) (start : Z) (sb : superblock) (s : kernel) (pins : gset Z) (m : Z → block) (refs : gmap Z Z)
    (held : gset nat) (i : nat) (x : inode) :
  fslayout start sb → layout start → k_sb s = sb → itable me sb s m refs held → txn me start s pins m ∅ →
  k_inode s !! i = Some x → i ∉ held → i_ref x = 1 → i_valid x = true → i_nlink x = 0 →
  file_ok sb m x → bitmap_ok sb m → inodes_ok sb m → (∀ k, is_Some (refs !! k) → 0 ≤ k < sb_ninodes sb) →
  (size pins + 4 < Z.to_nat NBUF)%nat →
  ∃ s' m' pins', iput me i s = Ok (tt, s') ∧ txn me start s' pins' m' ∅ ∧ (size pins' ≤ size pins + 2)%nat ∧
    itable me sb s' m' (delete (i_inum x) refs) held ∧ i_type (disk_inode sb m' (i_inum x)) = 0 ∧
    (∀ b, 0 ≤ b < BPB → used m' sb b = true ↔ used m sb b = true ∧ ¬ owns m x b) ∧
    (∀ b, isdata sb b → m' b = m b) ∧ bitmap_ok sb m' ∧ inodes_ok sb m' ∧
    (∀ y, i_inum y ≠ i_inum x → file_ok sb m y → on_disk sb m y → disjoint_files m x y →
       file_ok sb m' y ∧ content m' y = content m y ∧ on_disk sb m' y).
Proof.
  intros Hsb Hlay Esb Ht Htx Hx Hni Hr Hv Hnl Hf Hbm Hin Hrefs Hsz.
  destruct (wp_unit _ _ _ (iput_last me start sb Hsb Hlay s pins m refs held i x Esb Ht Htx Hx Hni Hr Hv Hnl Hf Hbm Hin Hrefs Hsz))
    as (s' & E & m' & pins' & T1 & T2 & [R1 R2 R3 R4 R5 R6 R7] & T3 & _).
  exists s', m', pins'. split_and!; try done. exact (f_equal i_type R1).
Qed.

(** A file with one block that is open but has been unlinked. *)
Module Unlinked.
Import SmallDisk.
Definition gone : inode := Inode ROOTDEV 5 1 sleeplock0 true T_FILE 0 0 0 3 (35 :: replicate 12 0).
Definition bitmap1 : block := [255; 255; 255; 255; 15] ++ replicate (Z.to_nat BSIZE - 5) 0.
Definition disk1 : gmap Z block := {[34 := bitmap1; 33 := put_dinode (dip_off 5) gone zero_block]}.
Definition off1 : kernel := set_k_inode (gone :: replicate 49 inode0) (set_k_disk disk1 off).
Definition on1 : kernel := match binit off1 with Ok (_, s) => s | _ => kernel0 end.
Notation m1 := (disk_block disk1).

Lemma on1_txn : txn 0 2 on1 ∅ m1 ∅ ∧ k_sb on1 = sb ∧ k_inode on1 = gone :: replicate 49 inode0 ∧ k_proc on1 = k_proc kernel0.
Proof.
  unfold on1. destruct (wp_elim _ _ _ (binit_wp 0 off1 ltac:(split_and!; [done|done|by eexists]))) as (u & s & -> & E & Hc).
  split_and!; [|by rewrite E..]. split_and!; [exact Hc| |rewrite E; cbn; lia|by rewrite E|apply layout_start].
  exists []. rewrite E. split_and!; [done|split_and!; [constructor|vm_compute; lia|constructor]|done].
Qed.

Lemma addr_gone bn : 0 ≤ bn → addr m1 gone bn = if decide (bn = 0) then 35 else 0.
Proof.
  intros Hb. unfold addr. destruct (decide (bn = 0)) as [->|Hn]; [done|]. destruct (Z.ltb_spec bn NDIRECT); [|done].
  unfold NDIRECT in *. cbn [i_addrs gone]. replace (Z.to_nat bn) with (S (Z.to_nat (bn - 1))) by lia.
  change (default 0 (replicate 12 0 !! Z.to_nat (bn - 1)) = 0). by rewrite lookup_replicate_2 by lia.
Qed.

Lemma gone_block : inode_block sb m1 35.
Proof. split_and!; [done|by vm_compute|]. split; [done|]. apply (bool_decide_unpack _). vm_compute. exact I. Qed.

Lemma gone_ok : file_ok sb m1 gone.
Proof.
  constructor; [|done| | |done].
  - constructor; [done|done|done| |].
    + intros bn Hb. rewrite addr_gone by lia. case_decide; [|done]. intros _. split; [apply gone_block|done].
    + intros bn bn' Hb Hb'. rewrite !addr_gone by lia. repeat case_decide; congruence.
  - intros o Ho. cbn in Ho. rewrite Z.div_small by (unfold BSIZE; lia). done.
  - constructor; try done. apply (bool_decide_unpack _). vm_compute. exact I.
Qed.

Lemma gone_disk : on_disk sb m1 gone.
Proof. by vm_compute. Qed.

Lemma gone_bitmap : bitmap_ok sb m1.
Proof.
  split.
  - intros b Hb. assert (b ∈ zseq 0 35) as Hin by (rewrite elem_of_zseq; cbn in *; lia).
    assert (Forall (λ b, used m1 sb b = true) (zseq 0 35)) as Hall by (apply (bool_decide_unpack _); vm_compute; exact I).
    rewrite Forall_forall in Hall. by apply Hall.
  - split; [by vm_compute|]. apply (bool_decide_unpack _). vm_compute. exact I.
Qed.

Lemma gone_inodes : inodes_ok sb m1.
Proof.
  intros i Hi. cbn in Hi. assert (IBLOCK i sb = 33) as ->.
  { unfold IBLOCK. change IPB with 16. cbn [sb_inodestart sb]. rewrite Z.div_small by lia. done. }
  split; [by vm_compute|]. apply (bool_decide_unpack _). vm_compute. exact I.
Qed.

Lemma gone_itab pid : itab sb pid m1 {[5 := 1]} ∅ (gone :: replicate 49 inode0).
Proof.
  assert (∀ i x, (gone :: replicate 49 inode0) !! i = Some x → i = 0%nat ∧ x = gone ∨ x = inode0) as Hat.
  { intros [|i] x Hx; [left; by injection Hx|right]. by apply lookup_replicate in Hx as [-> _]. }
  constructor.
  - done.
  - intros n r [<- <-]%lookup_singleton_Some. lia.
  - intros i x [[_ ->]| ->]%Hat; done.
  - intros i x [[_ ->]| ->]%Hat Hr; [|done]. split_and!; [done|done|]. intros _. apply gone_disk.
  - intros i j x y [[-> ->]| ->]%Hat [[-> ->]| ->]%Hat; done.
  - intros n r [<- <-]%lookup_singleton_Some. by exists 0%nat, gone.
  - intros i x [[_ ->]| ->]%Hat; rewrite decide_False by set_solver; done.
Qed.

(** Block 35 is free afterwards. *)
Lemma iput_reclaims_witness : ∃ s' m', iput 0 0 on1 = Ok (tt, s') ∧ used m1 sb 35 = true ∧ used m' sb 35 = false ∧ i_type (disk_inode sb m' 5) = 0.
Proof.
  destruct on1_txn as (Ht & Es & Ei & Ep).
  assert (itable 0 sb on1 m1 {[5 := 1]} ∅) as Hit by (exists proc0; rewrite Ei, Ep; split; [reflexivity|apply gone_itab]).
  assert (k_inode on1 !! 0%nat = Some gone) as Hi by (rewrite Ei; reflexivity).
  clear Ei Ep. generalize dependent on1. intros s Ht Es Hit Hi.
  destruct (iput_reclaims 0 2 sb s ∅ m1 {[5 := 1]} ∅ 0 gone fslayout_sb layout_start Es Hit Ht Hi) as (s' & m' & pins' & E & _ & _ & _ & Hty & Hu & _).
  - set_solver.
  - reflexivity.
  - reflexivity.
  - reflexivity.
  - apply gone_ok.
  - apply gone_bitmap.
  - apply gone_inodes.
  - intros k [r Hk]. apply lookup_singleton_Some in Hk as [<- _]. done.
  - rewrite size_empty. vm_compute. lia.
  - exists s', m'. split; [exact E|]. split; [by vm_compute|]. split; [|exact Hty].
    destruct (used m' sb 35) eqn:E35; [|done]. destruct (proj1 (Hu 35 ltac:(done)) E35) as [_ Hno]. destruct Hno.
    split; [done|]. right. exists 0. split; [done|]. by rewrite addr_gone.
Defined.
End Unlinked.
