(* ===== verification/Mkfs.v ===== *)
(** The program that builds the first file system image, [mkfs/mkfs.c].

    The image is a file of the host: the blocks that have been written and
    the number of sectors.  The program runs on the host, which is taken to
    be little-endian, so [xshort] and [xint] are the identity and the
    structures have the bytes the kernel reads; the calls of the host on the
    image succeed, except a read beyond its end.  An input file is its name
    and what successive calls of [read] return until the end, or nothing if
    it cannot be opened.  [exit(1)] and a failed [assert] are panics. *)

From S2P Require Import Prelude Riscv Mem Str Kalloc Vm State Sched Procmem Console Sleeplock Bio Block Log Fs Dir.

Definition NINODES : Z := 200.
Definition nbitmap : Z := FSSIZE / BPB + 1.
Definition ninodeblocks : Z := NINODES / IPB + 1.
Definition nlog : Z := LOGBLOCKS + 1.
Definition nmeta : Z := 2 + nlog + ninodeblocks + nbitmap.
Definition nblocks : Z := FSSIZE - nmeta.

(** [struct superblock sb], as [main] fills it in. *)
Definition mkfs_sb : superblock :=
  Superblock FSMAGIC FSSIZE nblocks NINODES nlog 2 (2 + nlog) (2 + nlog + ninodeblocks).

Record image := Image {
  im_disk : gmap Z block;
  im_sectors : Z;
  im_freeinode : Z;
  im_freeblock : Z;
}.
Definition set_im_disk (v : gmap Z block) (s : image) : image := Image v (im_sectors s) (im_freeinode s) (im_freeblock s).
Definition set_im_sectors (v : Z) (s : image) : image := Image (im_disk s) v (im_freeinode s) (im_freeblock s).
Definition set_im_freeinode (v : Z) (s : image) : image := Image (im_disk s) (im_sectors s) v (im_freeblock s).
Definition set_im_freeblock (v : Z) (s : image) : image := Image (im_disk s) (im_sectors s) (im_freeinode s) v.

(** The image file just created, and the initial values of the globals. *)
Definition image0 : image := Image ∅ 0 1 0.

Definition assert (b : bool) : M image unit := if b then mret tt else panic "assert".

(** The sector at the offset [sec * BSIZE], which is an unsigned int. *)
Definition sector (sec : Z) : Z := u32 (sec * BSIZE) / BSIZE.

Definition wsect (sec : Z) (buf : block) : M image unit :=
  let sec := sector sec in
  modify (λ s, set_im_disk (<[sec := buf]> (im_disk s)) (set_im_sectors (Z.max (im_sectors s) (sec + 1)) s)).

Definition rsect (sec : Z) : M image block :=
  let sec := sector sec in
  n ← gets im_sectors;
  if sec <? n then gets (λ s, disk_block (im_disk s) sec) else panic "read".

(** [struct dinode], with the values that stand for the fields of an inode
    in memory which it does not have. *)
Definition dinode0 (inum : Z) : inode := Inode ROOTDEV inum 1 sleeplock0 true 0 0 0 0 0 (replicate 13 0).

Definition winode (inum : Z) (ip : inode) : M image unit :=
  let bn := IBLOCK inum mkfs_sb in
  buf ← rsect bn;
  wsect bn (put_dinode (dip_off inum) ip buf).

Definition rinode (inum : Z) : M image inode :=
  let bn := IBLOCK inum mkfs_sb in
  buf ← rsect bn;
  mret (get_dinode (dip_off inum) buf (dinode0 inum)).

(** [freeinode++] and [freeblock++]. *)
Definition next_inode : M image Z :=
  i ← gets im_freeinode;
  modify (set_im_freeinode (u32 (i + 1))) ;;
  mret i.
Definition next_block : M image Z :=
  b ← gets im_freeblock;
  modify (set_im_freeblock (u32 (b + 1))) ;;
  mret b.

Definition ialloc (type : Z) : M image Z :=
  inum ← next_inode;
  winode inum (set_i_nlink 1 (set_i_type type (dinode0 inum))) ;;
  mret inum.

(** The loop of [balloc] over the bits. *)
Definition mark (buf : block) (i : Z) : block :=
  set_data_at (i / 8) (Z.lor (data_at buf (i / 8)) (Z.shiftl 1 (i mod 8))) buf.

Definition balloc (used : Z) : M image unit :=
  assert (used <? BPB) ;;
  wsect (sb_bmapstart mkfs_sb) (foldl mark zero_block (seqZ 0 used)).

(** The address of block [fbn] of the file, and the inode, which may have
    a new one. *)
Definition iappend_block (din : inode) (fbn : Z) : M image (inode * Z) :=
  if fbn <? NDIRECT then
    match i_addrs din !! Z.to_nat fbn with
    | None => ub
    | Some x =>
        if x =? 0 then
          x ← next_block;
          mret (set_i_addrs (<[Z.to_nat fbn := x]> (i_addrs din)) din, x)
        else mret (din, x)
    end
  else
    match i_addrs din !! Z.to_nat NDIRECT with
    | None => ub
    | Some a =>
        '(din, a) ← (if a =? 0 then
                       a ← next_block;
                       mret (set_i_addrs (<[Z.to_nat NDIRECT := a]> (i_addrs din)) din, a)
                     else mret (din, a));
        indirect ← rsect a;
        let x := get32 indirect (4 * Z.to_nat (fbn - NDIRECT)) in
        if x =? 0 then
          x ← next_block;
          wsect a (put32 indirect (4 * Z.to_nat (fbn - NDIRECT)) x) ;;
          mret (din, x)
        else mret (din, x)
    end.

(** One turn of the loop of [iappend]; [p] is the rest of the data. *)
Definition iappend_body : inode * Z * list Z → M image ((inode * Z * list Z) + (inode * Z)) :=
  λ '(din, off, p),
    let n := Z.of_nat (length p) in
    if 0 <? n then
      let fbn := off / BSIZE in
      assert (fbn <? MAXFILE) ;;
      '(din, x) ← iappend_block din fbn;
      let n1 := Z.min n ((fbn + 1) * BSIZE - off) in
      buf ← rsect x;
      wsect x (list_inserts (Z.to_nat (off - fbn * BSIZE)) (take (Z.to_nat n1) p) buf) ;;
      mret (inl (din, u32 (off + n1), drop (Z.to_nat n1) p))
    else mret (inr (din, off)).

Definition iappend (inum : Z) (p : list Z) : M image unit :=
  din ← rinode inum;
  '(din, off) ← loop (io_fuel (Z.of_nat (length p))) iappend_body (din, i_size din, p);
  winode inum (set_i_size off din).

(** * main *)

(** A file named on the command line. *)
Record arg := Arg {
  a_name : list Z;
  a_reads : option (list (list Z));
}.

Definition shortname (name : list Z) : list Z :=
  if bool_decide (take 5 name = str "user/") then drop 5 name else name.
Definition skip_underscore (name : list Z) : list Z :=
  match name with
  | c :: l => if c =? 95 then l else name
  | [] => []
  end.

(** The bytes of a [struct dirent] that has been cleared first. *)
Definition mkfs_dirent (inum : Z) (name : list Z) : list Z :=
  dirent_bytes (Dirent (u16 inum) (strncpy (chars name) (Z.to_nat DIRSIZ))).

Definition add_file (rootino : Z) (a : arg) : M image unit :=
  let name := shortname (a_name a) in
  assert (bool_decide (SLASH ∉ name)) ;;
  match a_reads a with
  | None => panic "open"
  | Some reads =>
      let name := skip_underscore name in
      assert (Z.of_nat (length name) <=? DIRSIZ) ;;
      inum ← ialloc T_FILE;
      iappend rootino (mkfs_dirent inum name) ;;
      foreach reads (iappend inum)
  end.

(** The block with the superblock. *)
Definition sb_bytes (sb : superblock) : list Z :=
  mjoin (le_bytes 4 <$> [sb_magic sb; sb_size sb; sb_nblocks sb; sb_ninodes sb; sb_nlog sb;
                         sb_logstart sb; sb_inodestart sb; sb_bmapstart sb]).

Definition main (args : list arg) : M image unit :=
  modify (set_im_freeblock nmeta) ;;
  foreach (seqZ 0 FSSIZE) (λ i, wsect i zero_block) ;;
  wsect 1 (list_inserts 0 (sb_bytes mkfs_sb) zero_block) ;;
  rootino ← ialloc T_DIR;
  assert (rootino =? ROOTINO) ;;
  iappend rootino (mkfs_dirent rootino (str ".")) ;;
  iappend rootino (mkfs_dirent rootino (str "..")) ;;
  foreach args (add_file rootino) ;;
  (* fix size of root inode dir *)
  din ← rinode rootino;
  let off := u32 ((i_size din / BSIZE + 1) * BSIZE) in
  winode rootino (set_i_size off din) ;;
  used ← gets im_freeblock;
  balloc used.
