(* ===== verification/MkfsSpec.v ===== *)
(** The image that [mkfs] writes.

    While the program runs, the counter [freeblock] plays the part of the
    bitmap; [shows] relates the image to the disk that has it.  On that disk
    taking the next block is an allocation of the kernel, so the lemmas of
    {!Content} and {!ReadWrite} on files that grow apply, and [built] (the image
    has these files, and no two share a block) is kept by [ialloc] and
    [iappend].  The last step writes the bitmap, and the image is the disk. *)

From stdpp Require Import functions.
From S2P Require Import Prelude Riscv Mem Str Kalloc Vm State Sched SchedSpec Procmem Console ConsoleSpec Sleeplock Bio BioSpec Cache Block Log LogSpec Fs Dir FsSpec Pipe File Content Dinode ReadWrite DirSpec Mkfs.

Lemma fslayout_mkfs : fslayout 2 mkfs_sb.
Proof. by constructor. Qed.
Lemma layout_mkfs : layout 2.
Proof. done. Qed.

(** * The bitmap *)

Lemma is_block_marks l d : is_block d → is_block (foldl mark d l).
Proof. revert d. induction l as [|i l IH]; intros d Hd; [done|]. cbn. apply IH. by apply is_block_set. Qed.

Lemma marks_snoc n : 0 ≤ n → foldl mark zero_block (seqZ 0 (n + 1)) = set_bit n (foldl mark zero_block (seqZ 0 n)).
Proof. intros Hn. rewrite seqZ_app, foldl_app by lia. done. Qed.

Lemma bit_zero b : bit zero_block b = false.
Proof.
  unfold bit, data_at. destruct (zero_block !! Z.to_nat (b / 8)) as [v|] eqn:E; cbn; [|apply Z.testbit_0_l].
  apply lookup_replicate in E as [-> _]. apply Z.testbit_0_l.
Qed.

Lemma marks_bit n b : 0 ≤ n ≤ BPB → 0 ≤ b < BPB → bit (foldl mark zero_block (seqZ 0 n)) b = bool_decide (b < n).
Proof.
  intros [H0 Hn] Hb. revert Hn. pattern n. apply natlike_ind; [| |done].
  - intros _. rewrite bit_zero, bool_decide_eq_false_2 by lia. done.
  - intros k Hk IH Hn. unfold Z.succ. rewrite marks_snoc, bit_set by (done || lia || by apply is_block_marks, is_block_zero).
    destruct (decide (k = b)); [symmetry; apply bool_decide_eq_true_2; lia|]. rewrite IH by lia. apply bool_decide_ext. lia.
Qed.

(** * The image and the disk it stands for *)

(** While the image is built, the bitmap is the counter [freeblock]; [m] is
    the disk with that bitmap. *)
Record shows (s : image) (m : Z → block) : Prop := {
  sh_disk : ∀ b, b ≠ sb_bmapstart mkfs_sb → m b = disk_block (im_disk s) b;
  sh_map : m (sb_bmapstart mkfs_sb) = foldl mark zero_block (seqZ 0 (im_freeblock s));
  sh_zero : ∀ b, im_freeblock s ≤ b → m b = zero_block;
  sh_free : nmeta ≤ im_freeblock s ≤ FSSIZE;
  sh_sectors : im_sectors s = FSSIZE;
}.

Lemma sector_id b : 0 ≤ b < FSSIZE → sector b = b.
Proof. intros Hb. unfold sector. rewrite u32_small, Z.div_mul by (unfold FSSIZE, BSIZE in *; lia). done. Qed.

Section shows.
Context (s : image) (m : Z → block) (Hs : shows s m).
Local Notation free := (im_freeblock s).

Lemma shows_used b : 0 ≤ b < BPB → used m mkfs_sb b = bool_decide (b < free).
Proof.
  intros Hb. unfold used. rewrite (sh_map _ _ Hs). pose proof (sh_free _ _ Hs) as Hf. apply marks_bit; [|done].
  change BPB with 8192. change nmeta with 47 in Hf. unfold FSSIZE in Hf. lia.
Qed.

Lemma shows_bitmap_ok : bitmap_ok mkfs_sb m.
Proof.
  split; [|rewrite (sh_map _ _ Hs); apply is_block_marks, is_block_zero].
  intros b Hb. pose proof (sh_free _ _ Hs) as Hf. change nmeta with 47 in Hf. change (sb_bmapstart mkfs_sb) with 46 in Hb.
  rewrite shows_used by (change BPB with 8192; lia). apply bool_decide_eq_true_2. lia.
Qed.

Lemma shows_first_free : free < FSSIZE → first_free_block mkfs_sb m free.
Proof.
  intros Hlt. pose proof (sh_free _ _ Hs) as Hf. change nmeta with 47 in Hf. unfold FSSIZE in Hlt, Hf.
  split_and!.
  - unfold isdata. change (sb_bmapstart mkfs_sb) with 46. change (sb_size mkfs_sb) with 2000. lia.
  - rewrite shows_used by (change BPB with 8192; lia). apply bool_decide_eq_false_2. lia.
  - intros b Hb. rewrite shows_used by (change BPB with 8192; lia). apply bool_decide_eq_true_2. lia.
Qed.

Lemma shows_next_block : free < FSSIZE →
  next_block s = Ok (free, set_im_freeblock (free + 1) s) ∧ shows (set_im_freeblock (free + 1) s) (alloc_m mkfs_sb m free).
Proof.
  intros Hlt. pose proof (sh_free _ _ Hs) as Hf. change nmeta with 47 in Hf. unfold FSSIZE in Hlt, Hf. split.
  - unfold next_block. rewrite bind_gets. rewrite u32_small by lia. done.
  - unfold alloc_m. constructor; cbn [im_freeblock set_im_freeblock im_disk im_sectors].
    + intros b Hb. destruct (decide (b = free)) as [->|Hn].
      * rewrite fn_lookup_insert, <-(sh_disk _ _ Hs), (sh_zero _ _ Hs) by lia. done.
      * rewrite !fn_lookup_insert_ne by done. by apply (sh_disk _ _ Hs).
    + rewrite fn_lookup_insert_ne by (change (sb_bmapstart mkfs_sb) with 46; lia). rewrite fn_lookup_insert, (sh_map _ _ Hs).
      by rewrite marks_snoc by lia.
    + intros b Hb. rewrite !fn_lookup_insert_ne by (change (sb_bmapstart mkfs_sb) with 46; lia). apply (sh_zero _ _ Hs). lia.
    + change nmeta with 47. unfold FSSIZE. lia.
    + apply (sh_sectors _ _ Hs).
Qed.

Lemma shows_rsect b : 0 ≤ b < FSSIZE → b ≠ sb_bmapstart mkfs_sb → rsect b s = Ok (m b, s).
Proof.
  intros Hb Hn. unfold rsect. rewrite sector_id by done. rewrite bind_gets, (sh_sectors _ _ Hs).
  destruct (Z.ltb_spec b FSSIZE); [|lia]. unfold gets. by rewrite (sh_disk _ _ Hs).
Qed.

Lemma shows_wsect b d : 0 ≤ b < free → b ≠ sb_bmapstart mkfs_sb → ∃ s',
  wsect b d s = Ok (tt, s') ∧ shows s' (<[b := d]> m) ∧ im_freeblock s' = free ∧ im_freeinode s' = im_freeinode s.
Proof.
  intros Hb Hn. pose proof (sh_free _ _ Hs) as Hf. unfold wsect, modify. rewrite sector_id by lia.
  eexists. split; [done|]. split; [|done]. constructor; cbn [im_freeblock set_im_freeblock im_disk im_sectors set_im_disk set_im_sectors].
  - intros b' Hb'. unfold disk_block. destruct (decide (b' = b)) as [->|Hne].
    + by rewrite fn_lookup_insert, lookup_insert_eq.
    + rewrite fn_lookup_insert_ne, lookup_insert_ne by done. by apply (sh_disk _ _ Hs).
  - rewrite fn_lookup_insert_ne by done. apply (sh_map _ _ Hs).
  - intros b' Hb'. rewrite fn_lookup_insert_ne by lia. by apply (sh_zero _ _ Hs).
  - done.
  - rewrite (sh_sectors _ _ Hs). lia.
Qed.
End shows.

(** * Adding a block to a file *)

(** The number of blocks of a file of [n] bytes, the indirect block included. *)
Definition cost (n : Z) : Z := (n + BSIZE - 1) / BSIZE + (if NDIRECT * BSIZE <? n then 1 else 0).

Lemma cost_in off off' : 0 ≤ off → off mod BSIZE ≠ 0 → off < off' ≤ (off / BSIZE + 1) * BSIZE →
  cost off' = cost off ∧ ∀ bn, bn * BSIZE < off ↔ bn * BSIZE < off'.
Proof.
  unfold cost, NDIRECT, BSIZE. intros H0 Hm Hb.
  split; [destruct (Z.ltb_spec (12 * 1024) off), (Z.ltb_spec (12 * 1024) off')|intros bn]; Z.to_euclidean_division_equations; lia.
Qed.

Lemma cost_next off off' : 0 ≤ off → off mod BSIZE = 0 → off < off' ≤ (off / BSIZE + 1) * BSIZE →
  cost off' = cost off + 1 + (if off / BSIZE =? NDIRECT then 1 else 0) ∧
  (∀ bn, bn * BSIZE < off' ↔ bn = off / BSIZE ∨ bn * BSIZE < off).
Proof.
  unfold cost, NDIRECT, BSIZE. intros H0 Hm Hb.
  split; [destruct (Z.ltb_spec (12 * 1024) off), (Z.ltb_spec (12 * 1024) off'), (Z.eqb_spec (off / 1024) 12)|intros bn];
    Z.to_euclidean_division_equations; lia.
Qed.

(** The file has the blocks for [n] bytes and no others. *)
Record tight (m : Z → block) (x : inode) (n : Z) : Prop := {
  ti_addr : ∀ bn, 0 ≤ bn < MAXFILE → addr m x bn ≠ 0 ↔ bn * BSIZE < n;
  ti_ind : ind x ≠ 0 ↔ NDIRECT * BSIZE < n;
}.

Lemma tight_more m x off off' : tight m x off → (∀ bn, bn * BSIZE < off ↔ bn * BSIZE < off') → tight m x off'.
Proof. intros [T1 T2] He. constructor; [intros; rewrite T1 by done; apply He|rewrite T2; apply He]. Qed.

Lemma tight_next m x m' x' off off' r :
  tight m x off → 0 ≤ off → r ≠ 0 → (∀ bn, bn * BSIZE < off' ↔ bn = off / BSIZE ∨ bn * BSIZE < off) →
  (∀ bn', 0 ≤ bn' < MAXFILE → addr m' x' bn' = if decide (bn' = off / BSIZE) then r else addr m x bn') →
  (ind x' ≠ 0 ↔ NDIRECT = off / BSIZE ∨ ind x ≠ 0) → tight m' x' off'.
Proof.
  intros [T1 T2] H0 Hr He Ha Hi. constructor.
  - intros bn Hbn. rewrite Ha, He by done. case_decide; [tauto|]. rewrite T1 by done. tauto.
  - rewrite Hi, T2. symmetry. apply He.
Qed.

Local Notation grown := (grown mkfs_sb).
Local Notation ino_ok := (ino_ok mkfs_sb).

Lemma data_sector a : isdata mkfs_sb a → 0 ≤ a < FSSIZE ∧ a ≠ sb_bmapstart mkfs_sb ∧ a ≠ 0.
Proof.
  intros [H1 H2]. change (sb_bmapstart mkfs_sb) with 46 in *. change (sb_size mkfs_sb) with 2000 in H2. unfold FSSIZE. lia.
Qed.

Lemma shows_below s m a : shows s m → inode_block mkfs_sb m a → a < im_freeblock s.
Proof.
  intros Hs (Hd & Hu & _). destruct (data_sector _ Hd) as [Hr _].
  rewrite (shows_used s m Hs) in Hu by (unfold FSSIZE in Hr; change BPB with 8192; lia). by apply bool_decide_eq_true_1 in Hu.
Qed.

(** The rest of [iappend_block] when the indirect block is [a]. *)
Definition iappend_entry (din : inode) (a fbn : Z) : M image (inode * Z) :=
  indirect ← rsect a;
  let x := get32 indirect (4 * Z.to_nat (fbn - NDIRECT)) in
  if x =? 0 then
    x ← next_block;
    wsect a (put32 indirect (4 * Z.to_nat (fbn - NDIRECT)) x) ;;
    mret (din, x)
  else mret (din, x).

Lemma iappend_entry_hit s m x fbn : shows s m → ino_ok m x → ind x ≠ 0 → NDIRECT ≤ fbn < MAXFILE → addr m x fbn ≠ 0 →
  iappend_entry x (ind x) fbn s = Ok ((x, addr m x fbn), s).
Proof.
  intros Hs Hx Hi Hb Ha. destruct (io_ind _ _ _ Hx Hi) as (Hd & _). destruct (data_sector _ Hd) as (? & ? & ?).
  unfold iappend_entry. rewrite (bind_Ok_1 _ _ _ _ _ (shows_rsect s m Hs (ind x) ltac:(done) ltac:(done))). cbv zeta.
  unfold addr in *. destruct (Z.ltb_spec fbn NDIRECT); [lia|]. destruct (Z.eqb_spec (ind x) 0); [done|].
  destruct (Z.eqb_spec (get32 (m (ind x)) (4 * Z.to_nat (fbn - NDIRECT))) 0); [done|]. done.
Qed.

Lemma iappend_entry_new s m x fbn :
  shows s m → ino_ok m x → ind x ≠ 0 → NDIRECT ≤ fbn < MAXFILE → addr m x fbn = 0 → im_freeblock s < FSSIZE →
  let r := im_freeblock s in
  ∃ m' s', iappend_entry x (ind x) fbn s = Ok ((x, r), s') ∧ shows s' m' ∧ grown m x m' x ∧
    (∀ bn', 0 ≤ bn' < MAXFILE → addr m' x bn' = if decide (bn' = fbn) then r else addr m x bn') ∧
    im_freeblock s' = r + 1 ∧ im_freeinode s' = im_freeinode s.
Proof.
  intros Hs Hx Hi Hb Ha Hf r. pose proof (io_ind _ _ _ Hx Hi) as Hib. destruct (data_sector _ (proj1 Hib)) as (? & ? & ?).
  unfold iappend_entry. rewrite (bind_Ok_1 _ _ _ _ _ (shows_rsect s m Hs (ind x) ltac:(done) ltac:(done))). cbv zeta.
  assert (get32 (m (ind x)) (4 * Z.to_nat (fbn - NDIRECT)) = 0) as ->.
  { unfold addr in Ha. destruct (Z.ltb_spec fbn NDIRECT); [lia|]. by destruct (Z.eqb_spec (ind x) 0). }
  cbn [Z.eqb]. destruct (shows_next_block s m Hs Hf) as [En Hs1]. rewrite (bind_Ok_1 _ _ _ _ _ En).
  destruct (grown_entry 2 mkfs_sb fslayout_mkfs layout_mkfs m x r Hx (shows_bitmap_ok s m Hs) (shows_first_free s m Hs Hf) (fbn - NDIRECT))
    as [Hg Hadd]; [done|unfold MAXFILE in Hb; lia|by rewrite Z.sub_add|]. rewrite Z.sub_add in Hadd.
  pose proof (shows_below s m _ Hs Hib) as Hlt.
  destruct (shows_wsect _ _ Hs1 (ind x) (put32 (m (ind x)) (4 * Z.to_nat (fbn - NDIRECT)) r)) as (s2 & Ew & Hs2 & F1 & F2).
  { cbn. lia. } { done. }
  rewrite (bind_Ok_1 _ _ _ _ _ Ew). eexists _, s2. split_and!; [done|exact Hs2|exact Hg|exact Hadd|done|done].
Qed.

(** What [iappend_block] does for the block with offset [off] of a file that
    is to have [off'] bytes. *)
Definition block_post (m : Z → block) (x : inode) (s : image) (off off' : Z) (r : res (inode * Z * image)) : Prop :=
  ∃ x' m' s', r = Ok ((x', addr m' x' (off / BSIZE)), s') ∧ shows s' m' ∧ grown m x m' x' ∧ tight m' x' off' ∧
    im_freeblock s' = im_freeblock s + (cost off' - cost off) ∧ im_freeinode s' = im_freeinode s.

Section iappend_block.
Context (s : image) (m : Z → block) (x : inode) (off off' : Z).
Context (Hs : shows s m) (Hx : ino_ok m x) (Ht : tight m x off) (Ho : 0 ≤ off < MAXFILE * BSIZE).
Context (Ho' : off < off' ≤ (off / BSIZE + 1) * BSIZE).
Local Notation fbn := (off / BSIZE).

Lemma fbn_range : 0 ≤ fbn < MAXFILE.
Proof. by apply block_index. Qed.

Lemma addrs_direct bn : 0 ≤ bn < NDIRECT → i_addrs x !! Z.to_nat bn = Some (addr m x bn).
Proof.
  intros Hb. destruct (lookup_lt_is_Some_2 (i_addrs x) (Z.to_nat bn)) as [a Ha].
  { rewrite (io_len _ _ _ Hx). unfold NDIRECT in Hb. lia. }
  unfold addr. destruct (Z.ltb_spec bn NDIRECT); [|lia]. by rewrite Ha.
Qed.
Lemma addrs_ind : i_addrs x !! Z.to_nat NDIRECT = Some (ind x).
Proof.
  destruct (lookup_lt_is_Some_2 (i_addrs x) (Z.to_nat NDIRECT)) as [a Ha].
  { rewrite (io_len _ _ _ Hx). unfold NDIRECT. lia. }
  unfold ind. by rewrite Ha.
Qed.

(** The block is there. *)
Lemma iappend_block_hit : off mod BSIZE ≠ 0 → block_post m x s off off' (iappend_block x fbn s).
Proof.
  intros Hm. destruct (cost_in off off' ltac:(lia) Hm Ho') as [Ec He].
  assert (fbn * BSIZE < off) as Hlt by (unfold BSIZE in *; Z.to_euclidean_division_equations; lia).
  pose proof (proj2 (ti_addr _ _ _ Ht fbn fbn_range) Hlt) as Ha.
  exists x, m, s. split_and!; [|done|by apply inode_grown_refl, shows_bitmap_ok with s|by eapply tight_more|lia|done].
  unfold iappend_block. destruct (Z.ltb_spec fbn NDIRECT) as [Hd|Hd].
  - rewrite addrs_direct by (pose proof fbn_range; lia). destruct (Z.eqb_spec (addr m x fbn) 0); done.
  - rewrite addrs_ind. assert (ind x ≠ 0) as Hi by (apply (ti_ind _ _ _ Ht); unfold BSIZE in *; lia).
    destruct (Z.eqb_spec (ind x) 0); [done|]. apply (iappend_entry_hit s m x fbn); try done. pose proof fbn_range. lia.
Qed.

Context (Hm : off mod BSIZE = 0) (Hf : im_freeblock s + (cost off' - cost off) ≤ FSSIZE).

Lemma no_block : addr m x fbn = 0.
Proof.
  destruct (decide (addr m x fbn = 0)) as [|Hn]; [done|]. apply (ti_addr _ _ _ Ht fbn fbn_range) in Hn.
  unfold BSIZE in *. Z.to_euclidean_division_equations. lia.
Qed.

Lemma new_nz : im_freeblock s ≠ 0.
Proof. pose proof (sh_free _ _ Hs) as H. change nmeta with 47 in H. lia. Qed.

Lemma iappend_block_direct : fbn < NDIRECT → block_post m x s off off' (iappend_block x fbn s).
Proof.
  intros Hd. destruct (cost_next off off' ltac:(lia) Hm Ho') as [Ec He]. rewrite (proj2 (Z.eqb_neq fbn NDIRECT)) in Ec by lia.
  assert (im_freeblock s < FSSIZE) as Hlt by lia. destruct (shows_next_block s m Hs Hlt) as [En Hs1].
  destruct (grown_direct 2 mkfs_sb fslayout_mkfs layout_mkfs m x (im_freeblock s) Hx (shows_bitmap_ok s m Hs)
    (shows_first_free s m Hs Hlt) fbn) as [Hg Hadd]; [pose proof fbn_range; lia|apply no_block|].
  eexists _, _, _. split_and!; [|exact Hs1|exact Hg| |cbn; lia|done].
  - unfold iappend_block. destruct (Z.ltb_spec fbn NDIRECT); [|lia].
    rewrite addrs_direct, no_block by (pose proof fbn_range; lia). cbn [Z.eqb]. rewrite (bind_Ok_1 _ _ _ _ _ En).
    rewrite Hadd, decide_True by (done || apply fbn_range). done.
  - eapply tight_next; [exact Ht|lia|apply new_nz|done|done|].
    assert (ind (with_addr (Z.to_nat fbn) (im_freeblock s) x) = ind x) as ->.
    { unfold ind. cbn [i_addrs set_i_addrs with_addr]. rewrite list_lookup_insert_ne; [done|].
      pose proof fbn_range. unfold NDIRECT in *. lia. }
    split; [by right|]. intros [?|?]; [lia|done].
Qed.

Lemma iappend_block_indirect : NDIRECT ≤ fbn → ind x ≠ 0 → block_post m x s off off' (iappend_block x fbn s).
Proof.
  intros Hd Hi. destruct (cost_next off off' ltac:(lia) Hm Ho') as [Ec He].
  assert (fbn ≠ NDIRECT) as Hn.
  { intros E. apply (ti_ind _ _ _ Ht) in Hi. unfold BSIZE in *. Z.to_euclidean_division_equations. lia. }
  rewrite (proj2 (Z.eqb_neq fbn NDIRECT)) in Ec by done. pose proof fbn_range as Hr.
  destruct (iappend_entry_new s m x fbn Hs Hx Hi) as (m' & s' & E & Hs' & Hg & Hadd & F1 & F2); [lia|apply no_block|lia|].
  exists x, m', s'. split_and!; [|done|done| |lia|done].
  - unfold iappend_block. destruct (Z.ltb_spec fbn NDIRECT); [lia|]. rewrite addrs_ind.
    destruct (Z.eqb_spec (ind x) 0); [done|]. rewrite Hadd, decide_True by done. exact E.
  - eapply tight_next; [exact Ht|lia|apply new_nz|done|done|]. split; [by right|done].
Qed.

Lemma iappend_block_first : NDIRECT ≤ fbn → ind x = 0 → block_post m x s off off' (iappend_block x fbn s).
Proof.
  intros Hd Hi. destruct (cost_next off off' ltac:(lia) Hm Ho') as [Ec He].
  assert (fbn = NDIRECT) as Hn.
  { destruct (decide (fbn = NDIRECT)) as [|Hn]; [done|]. exfalso. apply (proj2 (ti_ind _ _ _ Ht)); [|done].
    unfold BSIZE in *. Z.to_euclidean_division_equations. lia. }
  rewrite (proj2 (Z.eqb_eq fbn NDIRECT)) in Ec by done. pose proof fbn_range as Hr. set (r := im_freeblock s) in *.
  assert (r < FSSIZE) as Hlt by lia. destruct (shows_next_block s m Hs Hlt) as [En Hs1]. fold r in En, Hs1.
  destruct (grown_ind 2 mkfs_sb fslayout_mkfs layout_mkfs m x r Hx (shows_bitmap_ok s m Hs)
    (shows_first_free s m Hs Hlt) Hi) as (Hg & Ei & _ & Hadd). set (x1 := with_addr (Z.to_nat NDIRECT) r x) in *.
  destruct (iappend_entry_new _ _ x1 fbn Hs1 (gr_ok _ _ _ _ _ Hg)) as (m' & s' & E & Hs' & Hg' & Hadd' & F1 & F2);
    [rewrite Ei; apply new_nz|lia|rewrite Hadd by done; apply no_block|cbn; lia|].
  exists x1, m', s'. split_and!; [|done|by eapply (inode_grown_trans 2)|  |cbn in F1; lia|done].
  - unfold iappend_block. destruct (Z.ltb_spec fbn NDIRECT); [lia|]. rewrite addrs_ind, Hi. cbn [Z.eqb].
    rewrite Hadd', decide_True by done. fold (iappend_entry x1 r fbn) in *. rewrite Ei in E.
    erewrite bind_Ok_1 by (by rewrite (bind_Ok_1 _ _ _ _ _ En)). exact E.
  - eapply (tight_next m x m' x1 off off' (r + 1)); [exact Ht|lia|pose proof new_nz; pose proof (sh_free _ _ Hs1) as HH; change nmeta with 47 in HH; cbn in HH; lia|done| |].
    + intros bn Hb. rewrite Hadd' by done. case_decide; [done|by apply Hadd].
    + rewrite Ei. split; [by left|intros _; apply new_nz].
Qed.
End iappend_block.

Lemma iappend_block_run s m x off off' :
  shows s m → ino_ok m x → tight m x off → 0 ≤ off < MAXFILE * BSIZE → off < off' ≤ (off / BSIZE + 1) * BSIZE →
  im_freeblock s + (cost off' - cost off) ≤ FSSIZE → block_post m x s off off' (iappend_block x (off / BSIZE) s).
Proof.
  intros. destruct (decide (off mod BSIZE = 0)); [|by apply iappend_block_hit].
  destruct (decide (off / BSIZE < NDIRECT)); [by apply iappend_block_direct|].
  destruct (decide (ind x = 0)); [apply iappend_block_first|apply iappend_block_indirect]; done || lia.
Qed.

(** * Appending to a file *)

Lemma cost_mono a b : a ≤ b → cost a ≤ cost b.
Proof.
  intros Hab. unfold cost. assert ((a + BSIZE - 1) / BSIZE ≤ (b + BSIZE - 1) / BSIZE) by (apply Z.div_le_mono; unfold BSIZE; lia).
  destruct (Z.ltb_spec (NDIRECT * BSIZE) a), (Z.ltb_spec (NDIRECT * BSIZE) b); lia.
Qed.

Lemma max_file : MAXFILE * BSIZE < 2 ^ 32.
Proof. done. Qed.

Local Notation wrote := (wrote mkfs_sb).

(** The file after [l] has been written behind the [off] bytes of [x]. *)
Definition appended (s : image) (m : Z → block) (x : inode) (off : Z) (l : list Z) (s1 : image) (m1 : Z → block) (x1 : inode) : Prop :=
  let off1 := off + Z.of_nat (length l) in
  shows s1 m1 ∧ wrote m x m1 x1 off l ∧ tight m1 x1 off1 ∧
  im_freeblock s1 = im_freeblock s + (cost off1 - cost off) ∧ im_freeinode s1 = im_freeinode s.

Lemma iappend_step s m x off l p s1 m1 x1 :
  let off1 := off + Z.of_nat (length l) in
  let n1 := Z.min (Z.of_nat (length p)) ((off1 / BSIZE + 1) * BSIZE - off1) in
  appended s m x off l s1 m1 x1 → 0 ≤ off → bytes p → p ≠ [] → off1 + Z.of_nat (length p) ≤ MAXFILE * BSIZE →
  im_freeblock s + (cost (off1 + Z.of_nat (length p)) - cost off) ≤ FSSIZE →
  wp (iappend_body (x1, off1, p)) s1 (λ r s2, ∃ m2 x2, r = inl (x2, off1 + n1, drop (Z.to_nat n1) p) ∧
    appended s m x off (l ++ take (Z.to_nat n1) p) s2 m2 x2).
Proof.
  intros off1 n1 (Hs1 & Hw & Ht & F1 & F2) Ho Hp Hne Hmax Hroom. fold off1 in Ht, F1.
  assert (0 < Z.of_nat (length p)) as Hlp by (destruct p; [done|cbn; lia]).
  pose proof (Z.div_mod off1 BSIZE ltac:(done)) as Edm. pose proof (Z.mod_pos_bound off1 BSIZE ltac:(done)) as Hmod.
  assert (0 ≤ off1 < MAXFILE * BSIZE) as Hoff by lia. pose proof (block_index off1 Hoff) as Hbi.
  assert (0 < n1 ∧ n1 ≤ Z.of_nat (length p) ∧ n1 ≤ BSIZE - off1 mod BSIZE ∧ off1 + n1 ≤ (off1 / BSIZE + 1) * BSIZE) as (N1 & N2 & N3 & N4) by lia.
  pose proof (cost_mono (off1 + n1) (off1 + Z.of_nat (length p)) ltac:(lia)) as Hc.
  destruct (iappend_block_run s1 m1 x1 off1 (off1 + n1)) as (x2 & m2 & s2 & E & Hs2 & Hg & Ht2 & G1 & G2); [done|apply Hw|done|lia|lia|lia|].
  assert (addr m2 x2 (off1 / BSIZE) ≠ 0) as Ha by (apply (ti_addr _ _ _ Ht2); lia).
  destruct (io_addr _ _ _ (gr_ok _ _ _ _ _ Hg) _ Hbi Ha) as [Hib _]. destruct (data_sector _ (proj1 Hib)) as (? & ? & _).
  destruct (shows_wsect s2 m2 Hs2 (addr m2 x2 (off1 / BSIZE))
    (list_inserts (Z.to_nat (off1 mod BSIZE)) (take (Z.to_nat n1) p) (m2 (addr m2 x2 (off1 / BSIZE))))) as (s3 & Ew & Hs3 & W1 & W2).
  { split; [lia|by eapply shows_below]. } { done. }
  unfold iappend_body. destruct (Z.ltb_spec 0 (Z.of_nat (length p))); [|lia]. cbv zeta.
  destruct (Z.ltb_spec (off1 / BSIZE) MAXFILE); [|lia]. apply wp_bind, wp_ret, wp_bind. eapply wp_Ok; [exact E|]. cbv beta iota.
  apply wp_bind. eapply wp_Ok; [by apply (shows_rsect s2 m2 Hs2)|]. cbv beta. fold n1.
  replace (off1 - off1 / BSIZE * BSIZE) with (off1 mod BSIZE) by lia.
  apply wp_bind. eapply wp_Ok; [exact Ew|]. apply wp_ret. pose proof max_file. rewrite u32_small by lia.
  assert (off + Z.of_nat (length (l ++ take (Z.to_nat n1) p)) = off1 + n1) as El.
  { rewrite length_app, length_take. lia. }
  eexists (put_block m2 x2 off1 (take (Z.to_nat n1) p)), x2. split; [done|]. unfold appended. rewrite El. split_and!.
  - exact Hs3.
  - eapply (wrote_put 2); [done..|by eapply (wrote_grown 2); [..|lia|lia]|done|done|done|by apply Forall_take|rewrite length_take; fold off1; lia].
  - destruct Ht2 as [T1 T2]. constructor; [|done]. intros bn Hbn. rewrite (put_addr 2 mkfs_sb fslayout_mkfs layout_mkfs); [by apply T1|done..|apply Hg|done|done].
  - lia.
  - congruence.
Qed.

(** The loop. *)
Lemma iappend_loop s m x data :
  shows s m → ino_ok m x → tight m x (i_size x) → 0 ≤ i_size x → bytes data →
  i_size x + Z.of_nat (length data) ≤ MAXFILE * BSIZE →
  im_freeblock s + (cost (i_size x + Z.of_nat (length data)) - cost (i_size x)) ≤ FSSIZE →
  wp (loop (io_fuel (Z.of_nat (length data))) iappend_body (x, i_size x, data)) s (λ '(x1, off1) s1,
    off1 = i_size x + Z.of_nat (length data) ∧ ∃ m1, appended s m x (i_size x) data s1 m1 x1).
Proof.
  intros Hs Hx Ht H0 Hd Hmax Hroom. set (n := Z.of_nat (length data)) in *. set (off := i_size x) in *.
  eapply (wp_loop (λ '(x1, off1, p) s1, ∃ l m1, data = l ++ p ∧ off1 = off + Z.of_nat (length l) ∧ appended s m x off l s1 m1 x1)
    (λ '(x1, off1, p), iters n (n - Z.of_nat (length p)) off1)).
  - intros [[x1 off1] p] s1 (l & m1 & Ed & -> & Ha). assert (n = Z.of_nat (length l) + Z.of_nat (length p)) as En.
    { unfold n. rewrite Ed, length_app. lia. }
    destruct p as [|c p'].
    + apply wp_ret. rewrite app_nil_r in Ed. subst l. split; [done|by exists m1].
    + set (p := c :: p') in *. rewrite Ed in Hd. apply Forall_app in Hd as [_ Hp].
      eapply wp_mono; [eapply (iappend_step s m x off l p s1 m1 x1 Ha); [done|done|done|lia|]|].
      { replace (off + Z.of_nat (length l) + Z.of_nat (length p)) with (off + n) by lia. done. }
      cbv beta. set (off1 := off + Z.of_nat (length l)). set (n1 := Z.min _ _). intros r s2 (m2 & x2 & -> & Ha2).
      pose proof (Z.div_mod off1 BSIZE ltac:(done)) as Edm.
      destruct (iters_step n (n - Z.of_nat (length p)) off1 n1) as [N1 N2]; [unfold p; cbn; lia|lia|lia|].
      assert (length (take (Z.to_nat n1) p) = Z.to_nat n1) as El by (rewrite length_take; lia). split.
      * exists (l ++ take (Z.to_nat n1) p), m2. split_and!; [|rewrite length_app; lia|done].
        by rewrite <-app_assoc, take_drop.
      * rewrite length_drop. replace (n - Z.of_nat (length p - Z.to_nat n1)) with (n - Z.of_nat (length p) + n1) by lia. lia.
  - exists [], m. split_and!; [done|cbn; lia|]. unfold appended. cbn [length]. rewrite Z.add_0_r.
    split_and!; [done|by apply wrote_refl, shows_bitmap_ok with s|done|lia|done].
  - rewrite Z.sub_diag. apply iters_fuel. lia.
Qed.

(** * Inodes *)

(** The inode with number [i]. *)
Definition file_at (m : Z → block) (i : Z) : inode := get_dinode (dip_off i) (m (IBLOCK i mkfs_sb)) (dinode0 i).

Lemma inode_sector i : 0 ≤ i < NINODES → 0 ≤ IBLOCK i mkfs_sb < nmeta ∧ IBLOCK i mkfs_sb ≠ sb_bmapstart mkfs_sb.
Proof.
  intros Hi. destruct (IBLOCK_eq 2 mkfs_sb fslayout_mkfs layout_mkfs i Hi) as [_ Hb].
  change (2 + LOGBLOCKS) with 32 in Hb. change nmeta with 47. change (sb_bmapstart mkfs_sb) with 46 in *. lia.
Qed.

Lemma rinode_run s m i : shows s m → 0 ≤ i < NINODES → rinode i s = Ok (file_at m i, s).
Proof.
  intros Hs Hi. destruct (inode_sector i Hi) as [H1 H2]. unfold rinode. change nmeta with 47 in H1.
  erewrite bind_Ok_1; [done|]. apply (shows_rsect s m Hs); [unfold FSSIZE; lia|done].
Qed.

Lemma winode_run s m x : shows s m → 0 ≤ i_inum x < NINODES → ∃ s',
  winode (i_inum x) x s = Ok (tt, s') ∧ shows s' (put_inode mkfs_sb m x) ∧ im_freeblock s' = im_freeblock s ∧ im_freeinode s' = im_freeinode s.
Proof.
  intros Hs Hi. destruct (inode_sector _ Hi) as [H1 H2]. pose proof (sh_free _ _ Hs) as Hf. change nmeta with 47 in *.
  unfold winode. erewrite bind_Ok_1 by (apply (shows_rsect s m Hs); [unfold FSSIZE; lia|done]).
  apply (shows_wsect s m Hs); [lia|done].
Qed.

(** * The files in the image *)

Record mfile (m : Z → block) (x : inode) (t : Z) (c : list Z) : Prop := {
  mf_ok : file_ok mkfs_sb m x;
  mf_content : content m x = c;
  mf_type : i_type x = t;
  mf_nlink : i_nlink x = 1;
  mf_tight : tight m x (i_size x);
  mf_tail : ∀ o, i_size x ≤ o < MAXFILE * BSIZE → fbyte m x o = 0;
}.

Lemma mf_size m x t c : mfile m x t c → i_size x = Z.of_nat (length c).
Proof. intros Hf. rewrite <-(mf_content _ _ _ _ Hf). unfold content. rewrite length_fbytes. pose proof (fo_size _ _ _ (mf_ok _ _ _ _ Hf)). lia. Qed.

(** The files with the inode numbers from 1 have the types and the contents [cs]. *)
Record files (m : Z → block) (cs : list (Z * list Z)) : Prop := {
  fi_inodes : inodes_ok mkfs_sb m;
  fi_file : ∀ i t c, cs !! i = Some (t, c) → mfile m (file_at m (Z.of_nat i + 1)) t c;
  fi_disj : ∀ i j, i ≠ j → (i < length cs)%nat → (j < length cs)%nat →
    disjoint_files m (file_at m (Z.of_nat i + 1)) (file_at m (Z.of_nat j + 1));
  fi_free : ∀ i, Z.of_nat (length cs) < i < NINODES → file_at m i = dinode0 i;
}.

(** The fields of an inode that the disk does not have. *)
Definition based (i : Z) (x : inode) : Prop := i_inum x = i ∧ ∀ o d, get_dinode o d x = get_dinode o d (dinode0 i).

Lemma based_at m i : based i (file_at m i).
Proof. split; [reflexivity|]. intros o d. unfold file_at. by rewrite get_dinode_twice. Qed.
Lemma disk_at m i : on_disk mkfs_sb m (file_at m i).
Proof. unfold on_disk. rewrite (proj1 (based_at m i)). unfold file_at. by rewrite get_dinode_twice. Qed.
Lemma based_disk m i x : based i x → on_disk mkfs_sb m x → file_at m i = x.
Proof. intros [Hi Hb] Hd. unfold file_at. rewrite <-Hb. unfold on_disk in Hd. by rewrite Hi in Hd. Qed.

Lemma overwrite_end c l : overwrite c (Z.of_nat (length c)) l = c ++ l.
Proof. unfold overwrite. rewrite Nat2Z.id, take_ge, drop_ge by lia. by rewrite app_nil_r. Qed.

(** Storing the inode of a file to which [l] has been appended. *)
Section store.
Context (m : Z → block) (x : inode) (m1 : Z → block) (x1 : inode) (l c : list Z) (k : nat) (t : Z) (cs cs' : list (Z * list Z)).
Context (Hx : mfile m x t c) (Hw : wrote m x m1 x1 (i_size x) l) (Hfs : files m cs).
Context (Hol : i_size x + Z.of_nat (length l) ≤ MAXFILE * BSIZE) (Ht : tight m1 x1 (i_size x + Z.of_nat (length l))).
Context (Hb : based (Z.of_nat k + 1) x).
Context (Hd : ∀ i, (i < length cs)%nat → i ≠ k → disjoint_files m x (file_at m (Z.of_nat i + 1))).
Context (Hk : cs' !! k = Some (t, c ++ l)) (Hcs : ∀ i, i ≠ k → cs' !! i = cs !! i).
Let x' := set_i_size (i_size x + Z.of_nat (length l)) x1.
Let m' := put_inode mkfs_sb m1 x'.

Lemma store_max : Z.max (i_size x) (i_size x + Z.of_nat (length l)) = i_size x + Z.of_nat (length l).
Proof. lia. Qed.

Lemma store_written : written mkfs_sb m x m' x' (i_size x) l.
Proof.
  pose proof (fo_size _ _ _ (mf_ok _ _ _ _ Hx)) as Hs.
  pose proof (finish_written 2 mkfs_sb fslayout_mkfs layout_mkfs m x m1 x1 (i_size x) l (mf_ok _ _ _ _ Hx) Hw (fi_inodes _ _ Hfs)
    ltac:(lia) Hol) as H. rewrite store_max in H. exact H.
Qed.

Lemma store_agree b : owns m1 x1 b → m' b = m1 b.
Proof.
  intros Ho. pose proof (fo_size _ _ _ (mf_ok _ _ _ _ Hx)) as Hs.
  pose proof (finish_data 2 mkfs_sb fslayout_mkfs layout_mkfs m x m1 x1 (i_size x) l (mf_ok _ _ _ _ Hx) Hw ltac:(lia) b) as H.
  rewrite store_max in H. apply H. left. apply (owns_block _ _ _ _ (wr_ok _ _ _ _ _ _ _ Hw) Ho).
Qed.

Lemma store_at : file_at m' (Z.of_nat k + 1) = x'.
Proof.
  apply based_disk; [|apply store_written]. destruct Hb as [Hi Hg]. split.
  - rewrite (wt_meta _ _ _ _ _ _ _ store_written). exact Hi.
  - intros o d. rewrite <-Hg, (wt_meta _ _ _ _ _ _ _ store_written). reflexivity.
Qed.

Lemma store_mfile : mfile m' x' t (c ++ l).
Proof.
  pose proof store_written as Hwt. destruct Hx as [F1 F2 F3 F4 F5 F6]. pose proof (fo_size _ _ _ F1) as Hs. constructor.
  - apply Hwt.
  - rewrite (wt_content _ _ _ _ _ _ _ Hwt), F2, (mf_size _ _ _ _ Hx). apply overwrite_end.
  - by rewrite (wt_meta _ _ _ _ _ _ _ Hwt).
  - by rewrite (wt_meta _ _ _ _ _ _ _ Hwt).
  - destruct Ht as [T1 T2]. constructor; [|exact T2]. intros bn Hbn. change (addr m' x' bn) with (addr m' x1 bn).
    rewrite (addr_agree m1 m' x1) by apply store_agree. by apply T1.
  - intros o Ho. cbn [i_size set_i_size x'] in Ho.
    pose proof (finish_fbyte 2 mkfs_sb fslayout_mkfs layout_mkfs m x m1 x1 (i_size x) l F1 Hw ltac:(lia) o ltac:(lia)) as Hby.
    rewrite store_max in Hby. fold x' m' in Hby. rewrite Hby, over_outside by lia. apply F6. lia.
Qed.

(** The blocks before the inodes. *)
Lemma store_low b : 0 < b < sb_inodestart mkfs_sb → m' b = m b.
Proof.
  intros Hb'. change (sb_inodestart mkfs_sb) with 33 in Hb'. pose proof (fo_inum _ _ _ (mf_ok _ _ _ _ Hx)) as Hi.
  destruct (IBLOCK_eq 2 mkfs_sb fslayout_mkfs layout_mkfs _ Hi) as [_ Hib]. change (2 + LOGBLOCKS) with 32 in Hib.
  assert (¬ owns m x b) as Hno.
  { intros [[H1 _] _]%(owns_block mkfs_sb m x b (fo_ino _ _ _ (mf_ok _ _ _ _ Hx))). change (sb_bmapstart mkfs_sb) with 46 in H1. lia. }
  unfold m', put_inode. change (i_inum x') with (i_inum x1).
  rewrite (finish_inum mkfs_sb m x m1 x1 (i_size x) l Hw), fn_lookup_insert_ne by lia. apply (wr_keeps _ _ _ _ _ _ _ Hw).
  - change (sb_bmapstart mkfs_sb) with 46. lia.
  - intros E. apply Hno. split; [lia|by left].
  - intros bn Hbn E. apply Hno. split; [lia|]. right. by exists bn.
  - intros [H1 _]. change (sb_bmapstart mkfs_sb) with 46 in H1. lia.
Qed.

(** The other files. *)
Lemma store_other i : (i < length cs)%nat → i ≠ k → ∀ t c, cs !! i = Some (t, c) →
  let y := file_at m (Z.of_nat i + 1) in
  file_at m' (Z.of_nat i + 1) = y ∧ (∀ b, owns m y b → m' b = m b) ∧ mfile m' y t c ∧ disjoint_files m' x' y.
Proof.
  intros Hi Hne t' c' Hc y. pose proof (fi_file _ _ Hfs i _ _ Hc) as Hy. fold y in Hy. pose proof (Hd i Hi Hne) as Hdy. fold y in Hdy.
  assert (∀ b, owns m y b → m' b = m b) as Hag.
  { intros b Hob. pose proof (fo_size _ _ _ (mf_ok _ _ _ _ Hx)) as Hs.
    pose proof (finish_agree 2 mkfs_sb fslayout_mkfs layout_mkfs m x m1 x1 (i_size x) l (mf_ok _ _ _ _ Hx) Hw ltac:(lia) y b
      (fo_ino _ _ _ (mf_ok _ _ _ _ Hy)) Hdy Hob) as [H _]. rewrite store_max in H. exact H. }
  destruct (wt_others _ _ _ _ _ _ _ store_written y) as (G1 & G2 & G3 & G4); [|apply Hy|apply disk_at|done|].
  { rewrite (proj1 Hb). change (i_inum y) with (Z.of_nat i + 1). lia. }
  split_and!; [by apply based_disk; [apply based_at|]|done| |done].
  destruct Hy as [F1 F2 F3 F4 [T1 T2] F6]. pose proof (fo_size _ _ _ F1) as Hs. constructor; [done|congruence|done|done| |].
  - constructor; [|exact T2]. intros bn Hbn. rewrite (addr_agree m m' y) by done. by apply T1.
  - intros o Ho. rewrite (fbyte_agree m m' y) by (done || lia). by apply F6.
Qed.

Lemma store_slot i : i ≠ Z.of_nat k + 1 → 0 ≤ i < NINODES → file_at m' i = file_at m i.
Proof.
  intros Hne Hi. apply based_disk; [apply based_at|]. pose proof (fo_size _ _ _ (mf_ok _ _ _ _ Hx)) as Hs.
  pose proof (finish_slots 2 mkfs_sb fslayout_mkfs layout_mkfs m x m1 x1 (i_size x) l (mf_ok _ _ _ _ Hx) Hw ltac:(lia) Hol (file_at m i)) as H.
  rewrite store_max in H. apply H; [|done|apply disk_at]. rewrite (proj1 Hb). exact Hne.
Qed.

Lemma store_length : (length cs ≤ length cs' ∧ k < length cs')%nat.
Proof.
  pose proof (lookup_lt_Some _ _ _ Hk) as Hkl. split; [|done]. destruct (decide (length cs ≤ length cs')%nat) as [|Hn]; [done|].
  destruct (lookup_lt_is_Some_2 cs (length cs') ltac:(lia)) as [f Hf]. rewrite <-Hcs in Hf by lia. apply lookup_lt_Some in Hf. lia.
Qed.

Lemma store_in i : i ≠ k → (i < length cs')%nat → (i < length cs)%nat ∧ ∃ f, cs !! i = Some f.
Proof.
  intros Hne Hi. apply lookup_lt_is_Some_2 in Hi as [f Hf]. rewrite Hcs in Hf by done. split; [by eapply lookup_lt_Some|by exists f].
Qed.

Lemma store_files : files m' cs'.
Proof.
  pose proof store_at as Ek. constructor; [apply store_written| | |].
  - intros i t' c' Hi. destruct (decide (i = k)) as [->|Hne].
    + rewrite Hk in Hi. injection Hi as <- <-. rewrite Ek. apply store_mfile.
    + rewrite Hcs in Hi by done. destruct (store_other i (lookup_lt_Some _ _ _ Hi) Hne _ _ Hi) as (-> & _ & ? & _). done.
  - assert (∀ i, i ≠ k → (i < length cs')%nat → disjoint_files m' x' (file_at m' (Z.of_nat i + 1))) as Hxi.
    { intros i Hne Hi. destruct (store_in i Hne Hi) as [Hl [[ti ci] Hf]].
      by destruct (store_other i Hl Hne _ _ Hf) as (-> & _ & _ & ?). }
    intros i j Hij Hi Hj. destruct (decide (i = k)) as [->|Hni]; [rewrite Ek; apply Hxi; congruence|].
    destruct (decide (j = k)) as [->|Hnj]; [rewrite Ek; intros b B1 B2; by apply (Hxi i Hni Hi b)|].
    destruct (store_in i Hni Hi) as [Hli [[ti ci] Hfi]]. destruct (store_in j Hnj Hj) as [Hlj [[tj cj] Hfj]].
    destruct (store_other i Hli Hni _ _ Hfi) as (-> & Ai & _). destruct (store_other j Hlj Hnj _ _ Hfj) as (-> & Aj & _).
    intros b B1%(owns_agree m m' _ b Ai) B2%(owns_agree m m' _ b Aj). by apply (fi_disj _ _ Hfs i j Hij Hli Hlj b).
  - intros i Hi. pose proof store_length. rewrite store_slot by lia. apply (fi_free _ _ Hfs). lia.
Qed.
End store.

(** * The operations *)

(** The number of data blocks the files take. *)
Fixpoint total (cs : list (Z * list Z)) : Z :=
  match cs with
  | [] => 0
  | f :: cs' => cost (Z.of_nat (length f.2)) + total cs'
  end.

Lemma total_app cs cs' : total (cs ++ cs') = total cs + total cs'.
Proof. induction cs as [|f cs IH]; cbn [total app]; [done|]. rewrite IH. lia. Qed.

Lemma total_insert cs k f f' : cs !! k = Some f →
  total (<[k := f']> cs) = total cs + (cost (Z.of_nat (length f'.2)) - cost (Z.of_nat (length f.2))).
Proof.
  revert k. induction cs as [|g cs IH]; intros [|k] Hk; cbn in Hk; [done|done| |].
  - injection Hk as ->. cbn [total insert list_insert]. lia.
  - change (<[S k := f']> (g :: cs)) with (g :: <[k := f']> cs). cbn [total]. rewrite (IH k Hk). lia.
Qed.

(** The block with the superblock. *)
Definition sb_block : block := list_inserts 0 (sb_bytes mkfs_sb) zero_block.

(** The image has the files [cs], with the inode numbers from 1. *)
Record built (s : image) (m : Z → block) (cs : list (Z * list Z)) : Prop := {
  bu_shows : shows s m;
  bu_files : files m cs;
  bu_inode : im_freeinode s = Z.of_nat (length cs) + 1;
  bu_block : im_freeblock s = nmeta + total cs;
  bu_sb : m 1 = sb_block;
  bu_log : ∀ b, 2 ≤ b < sb_inodestart mkfs_sb → m b = zero_block;
}.

Lemma built_low s m cs s' m' cs' : built s m cs → (∀ b, 0 < b < sb_inodestart mkfs_sb → m' b = m b) →
  shows s' m' → files m' cs' → im_freeinode s' = Z.of_nat (length cs') + 1 → im_freeblock s' = nmeta + total cs' → built s' m' cs'.
Proof.
  intros [B1 B2 B3 B4 B5 B6] Hm. constructor; [done..|rewrite Hm; done|]. intros b Hb. rewrite Hm by lia. by apply B6.
Qed.

Lemma iappend_run s m cs k t c l :
  built s m cs → cs !! k = Some (t, c) → bytes l → Z.of_nat (length c) + Z.of_nat (length l) ≤ MAXFILE * BSIZE →
  nmeta + total (<[k := (t, c ++ l)]> cs) ≤ FSSIZE → Z.of_nat (length cs) < NINODES →
  wp (iappend (Z.of_nat k + 1) l) s (λ _ s', ∃ m', built s' m' (<[k := (t, c ++ l)]> cs)).
Proof.
  intros Hbu Hk Hl Hmax Hroom Hn. pose proof Hbu as [B1 B2 B3 B4 _ _]. pose proof (lookup_lt_Some _ _ _ Hk) as Hlt.
  set (x := file_at m (Z.of_nat k + 1)). pose proof (fi_file _ _ B2 _ _ _ Hk) as Hx. fold x in Hx.
  pose proof (mf_size _ _ _ _ Hx) as Es. pose proof (total_insert cs k _ (t, c ++ l) Hk) as Et. cbn [snd] in Et.
  rewrite length_app, Nat2Z.inj_add, <-Es in Et.
  unfold iappend. apply wp_bind. eapply wp_Ok; [apply (rinode_run s m); [done|lia]|]. fold x. cbv beta.
  apply wp_bind. eapply wp_mono; [eapply (iappend_loop s m x l B1); [apply Hx|apply Hx|lia|done|lia|lia]|].
  cbv beta. intros [x1 off1] s1 (-> & m1 & Hs1 & Hw & Ht & F1 & F2).
  assert (Z.of_nat k + 1 = i_inum (set_i_size (i_size x + Z.of_nat (length l)) x1)) as Ei.
  { change (i_inum (set_i_size _ x1)) with (i_inum x1). by rewrite (finish_inum mkfs_sb m x m1 x1 _ l Hw). }
  destruct (winode_run s1 m1 (set_i_size (i_size x + Z.of_nat (length l)) x1) Hs1) as (s2 & E & Hs2 & G1 & G2).
  { rewrite <-Ei. lia. }
  rewrite Ei. eapply wp_Ok; [exact E|]. eexists. eapply (built_low s m cs); [done| |exact Hs2| |rewrite length_insert; lia|lia].
  - intros b Hb. eapply store_low; [exact Hx|exact Hw|done].
  - eapply (store_files m x m1 x1 l c k t cs); [done|done|done|lia|done|apply based_at| | |].
    + intros i Hi Hne. by apply (fi_disj _ _ B2).
    + by apply list_lookup_insert_eq.
    + intros i Hne. by apply list_lookup_insert_ne.
Qed.

(** A new inode. *)
Lemma new_mfile m t i : 0 ≤ i < NINODES → 0 ≤ t < 2 ^ 15 → mfile m (set_i_nlink 1 (set_i_type t (dinode0 i))) t [].
Proof.
  intros Hi Hty. set (x := set_i_nlink 1 (set_i_type t (dinode0 i))).
  assert (ind x = 0) as Hin by done.
  assert (∀ bn, 0 ≤ bn → addr m x bn = 0) as Ha.
  { intros bn Hb. unfold addr. destruct (Z.ltb_spec bn NDIRECT); [|by rewrite Hin].
    change (i_addrs x) with (replicate 13 0). rewrite lookup_replicate_2 by (unfold NDIRECT in *; lia). done. }
  constructor; [|done|done|done| |].
  - constructor; [|done|intros o Ho; change (i_size x) with 0 in Ho; lia| |done].
    + constructor; [done|done|done|intros bn Hb Hn; by rewrite Ha in Hn by lia|intros bn bn' Hb _ Hn; by rewrite Ha in Hn by lia].
    + constructor; cbn [i_type i_major i_minor i_nlink i_size i_addrs x set_i_nlink set_i_type dinode0]; try lia; [done|].
      apply Forall_replicate. lia.
  - constructor; [intros bn Hb; rewrite Ha by lia; change (i_size x) with 0; unfold BSIZE; lia|by rewrite Hin].
  - intros o Ho. unfold fbyte. by rewrite Ha by (apply Z.div_pos; [change (i_size x) with 0 in Ho; lia|done]).
Qed.

Lemma new_owns m t i b : ¬ owns m (set_i_nlink 1 (set_i_type t (dinode0 i))) b.
Proof.
  intros [H0 [->|(bn & Hb & ->)]]; [done|]. apply H0. unfold addr. destruct (Z.ltb_spec bn NDIRECT); [|done].
  change (i_addrs (set_i_nlink 1 (set_i_type t (dinode0 i)))) with (replicate 13 0).
  by rewrite lookup_replicate_2 by (unfold NDIRECT in *; lia).
Qed.

Lemma shows_freeinode s m v : shows s m → shows (set_im_freeinode v s) m.
Proof. by intros []. Qed.

Lemma ialloc_run s m cs t :
  built s m cs → 0 ≤ t < 2 ^ 15 → Z.of_nat (length cs) + 1 < NINODES →
  wp (ialloc t) s (λ i s', i = Z.of_nat (length cs) + 1 ∧ ∃ m', built s' m' (cs ++ [(t, [])])).
Proof.
  intros Hbu Hty Hn. pose proof Hbu as [B1 B2 B3 B4 _ _]. set (k := length cs) in *. set (i := Z.of_nat k + 1) in *.
  unfold ialloc. apply wp_bind. eapply (wp_Ok _ _ i (set_im_freeinode (i + 1) s)).
  { unfold next_inode. rewrite bind_gets, B3. fold i. rewrite u32_small by (unfold NINODES in Hn; lia). done. }
  set (x := set_i_nlink 1 (set_i_type t (dinode0 i))).
  assert (mfile m x t []) as Hx by (apply new_mfile; [lia|done]).
  destruct (winode_run _ m x (shows_freeinode s m (i + 1) B1)) as (s2 & E & Hs2 & G1 & G2).
  { change (i_inum x) with i. lia. }
  change (i_inum x) with i in E. apply wp_bind. eapply wp_Ok; [exact E|]. apply wp_ret. split; [done|]. eexists.
  assert (wrote m x m x 0 []) as Hw by (apply wrote_refl; [apply Hx|by apply shows_bitmap_ok with s]).
  eapply (built_low s m cs); [done| |exact Hs2| |rewrite length_app; cbn in *; lia|].
  - intros b Hb. change x with (set_i_size (i_size x + Z.of_nat (length (@nil Z))) x). eapply store_low; [exact Hx|exact Hw|done].
  - change x with (set_i_size (i_size x + Z.of_nat (length (@nil Z))) x).
    eapply (store_files m x m x [] [] k t cs); [done|done|done|done|apply Hx|done| | |].
    + intros j Hj Hne b Hb. by apply new_owns in Hb.
    + rewrite lookup_app_r, Nat.sub_diag by lia. done.
    + intros j Hne. destruct (decide (j < k)%nat); [by apply lookup_app_l|].
      rewrite !lookup_ge_None_2; [done|lia|rewrite length_app; cbn; lia].
  - rewrite G1, total_app. change (total [(t, [])]) with 0. change (im_freeblock (set_im_freeinode _ s)) with (im_freeblock s). lia.
Qed.

(** * main *)

Lemma le_val_zero n o : le_val (take n (drop o zero_block)) = 0.
Proof.
  unfold zero_block. rewrite drop_replicate, take_replicate. generalize (n `min` (Z.to_nat BSIZE - o))%nat. intros k.
  induction k as [|k IH]; [done|]. cbn [replicate le_val]. rewrite IH. done.
Qed.

Lemma get_dinode_zero i : get_dinode (dip_off i) zero_block (dinode0 i) = dinode0 i.
Proof.
  assert (∀ o, get32 zero_block o = 0) as E32 by (intros o; apply le_val_zero).
  unfold get_dinode, dinode_addrs, geti16, get16. cbn [fmap list_fmap seq]. by rewrite !E32, !le_val_zero.
Qed.

Lemma zero_run n : ∀ a s, 0 ≤ a → a + Z.of_nat n ≤ FSSIZE → im_sectors s = a → (∀ b, disk_block (im_disk s) b = zero_block) →
  ∃ s', foreach (seqZ a (Z.of_nat n)) (λ i, wsect i zero_block) s = Ok (tt, s') ∧ im_sectors s' = a + Z.of_nat n ∧
    (∀ b, disk_block (im_disk s') b = zero_block) ∧ im_freeblock s' = im_freeblock s ∧ im_freeinode s' = im_freeinode s.
Proof.
  induction n as [|n IH]; intros a s Ha Hn Hs Hz.
  - exists s. split_and!; [done|lia|done..].
  - rewrite seqZ_cons by lia. cbn [foreach].
    set (s1 := set_im_disk (<[a := zero_block]> (im_disk s)) (set_im_sectors (Z.max (im_sectors s) (a + 1)) s)).
    erewrite bind_Ok_1 by (unfold wsect, modify; rewrite sector_id by lia; done).
    replace (Z.pred (Z.of_nat (S n))) with (Z.of_nat n) by lia.
    destruct (IH (Z.succ a) s1) as (s' & E & E1 & E2 & E3 & E4); [lia|lia|cbn; lia| |].
    + intros b. unfold disk_block. cbn [im_disk s1 set_im_disk]. destruct (decide (b = a)) as [->|Hne].
      * by rewrite lookup_insert_eq.
      * rewrite lookup_insert_ne by done. apply Hz.
    + exists s'. split_and!; [exact E|lia|done..].
Qed.

(** The empty image. *)
Lemma start_run (f : M image unit) Q : (∀ s m, built s m [] → wp f s Q) →
  wp (modify (set_im_freeblock nmeta) ;; foreach (seqZ 0 FSSIZE) (λ i, wsect i zero_block) ;; wsect 1 sb_block ;; f) image0 Q.
Proof.
  intros Hf.
  apply wp_bind, wp_modify, wp_bind. destruct (zero_run (Z.to_nat FSSIZE) 0 (set_im_freeblock nmeta image0)) as (s & E & E1 & E2 & E3 & E4); [done..|].
  eapply wp_Ok; [exact E|]. cbv beta.
  set (m := <[sb_bmapstart mkfs_sb := foldl mark zero_block (seqZ 0 (im_freeblock s))]> (disk_block (im_disk s))).
  assert (shows s m) as Hs.
  { constructor.
    - intros b Hb. unfold m. by rewrite fn_lookup_insert_ne.
    - unfold m. by rewrite fn_lookup_insert.
    - intros b Hb. rewrite E3 in Hb. change (im_freeblock _) with 47 in Hb. unfold m.
      rewrite fn_lookup_insert_ne by (change (sb_bmapstart mkfs_sb) with 46; lia). apply E2.
    - rewrite E3. done.
    - rewrite E1. done. }
  destruct (shows_wsect s m Hs 1 sb_block) as (s' & Ew & Hs' & F1 & F2); [rewrite E3; done|done|].
  apply wp_bind. eapply wp_Ok; [exact Ew|]. apply (Hf s' (<[1 := sb_block]> m)).
  assert (∀ b, b ≠ 1 → b ≠ sb_bmapstart mkfs_sb → (<[1 := sb_block]> m) b = zero_block) as Hz.
  { intros b H1 H2. rewrite fn_lookup_insert_ne by done. unfold m. rewrite fn_lookup_insert_ne by done. apply E2. }
  constructor; [done| |rewrite F2, E4; done|rewrite F1, E3; done|by rewrite fn_lookup_insert|].
  - assert (∀ i, 0 ≤ i < NINODES → (<[1 := sb_block]> m) (IBLOCK i mkfs_sb) = zero_block) as Hzi.
    { intros i Hi. destruct (IBLOCK_eq 2 mkfs_sb fslayout_mkfs layout_mkfs i Hi) as [_ Hib]. change (2 + LOGBLOCKS) with 32 in Hib.
      apply Hz; lia. }
    constructor; [|done|cbn; lia|].
    + intros i Hi. rewrite Hzi by done. apply is_block_zero.
    + intros i Hi. cbn [length] in Hi. unfold file_at. rewrite Hzi by lia. by apply get_dinode_zero.
  - intros b Hb. change (sb_inodestart mkfs_sb) with 33 in Hb. apply Hz; [lia|]. change (sb_bmapstart mkfs_sb) with 46. lia.
Qed.

(** A file on the command line: the name and the content it gets in the image. *)
Definition fname (a : arg) : list Z := skip_underscore (shortname (a_name a)).
Definition fdata (a : arg) : list Z := mjoin (default [] (a_reads a)).

(** It can be opened, and the checks of [main] accept it. *)
Record arg_ok (a : arg) : Prop := {
  ao_name : SLASH ∉ shortname (a_name a) ∧ Z.of_nat (length (fname a)) ≤ DIRSIZ ∧ bytes (a_name a);
  ao_open : is_Some (a_reads a);
  ao_data : bytes (fdata a) ∧ Z.of_nat (length (fdata a)) ≤ MAXFILE * BSIZE;
}.

(** The entries of the root directory. *)
Definition root_entries (args : list arg) : list dirent :=
  new_entry (str ".") ROOTINO :: new_entry (str "..") ROOTINO :: imap (λ i a, new_entry (fname a) (Z.of_nat i + 2)) args.
Definition root_bytes (args : list arg) : list Z := mjoin (dirent_bytes <$> root_entries args).

Definition image_files (args : list arg) : list (Z * list Z) :=
  (T_DIR, root_bytes args) :: ((λ a, (T_FILE, fdata a)) <$> args).

Lemma mkfs_dirent_eq i name : mkfs_dirent i name = dirent_bytes (new_entry name i).
Proof. reflexivity. Qed.

Lemma root_bytes_snoc args a :
  root_bytes (args ++ [a]) = root_bytes args ++ mkfs_dirent (Z.of_nat (length args) + 2) (fname a).
Proof.
  unfold root_bytes, root_entries. rewrite imap_app. cbn [imap]. rewrite Nat.add_0_r.
  rewrite !app_comm_cons, fmap_app, join_app. cbn [fmap list_fmap mjoin list_join]. by rewrite app_nil_r.
Qed.

Lemma root_bytes_length args : length (root_bytes args) = (32 + 16 * length args)%nat.
Proof.
  induction args as [|a args IH] using rev_ind; [done|]. rewrite root_bytes_snoc, !length_app, IH.
  rewrite mkfs_dirent_eq, new_entry_len. cbn [length]. lia.
Qed.

Lemma cost_nonneg n : 0 ≤ n → 0 ≤ cost n.
Proof. intros Hn. change 0 with (cost 0). by apply cost_mono. Qed.
Lemma total_nonneg cs : 0 ≤ total cs.
Proof. induction cs as [|f cs IH]; cbn [total]; [done|]. pose proof (cost_nonneg (Z.of_nat (length f.2)) ltac:(lia)). lia. Qed.

Lemma skip_underscore_suffix l : skip_underscore l `suffix_of` l.
Proof. destruct l as [|c l]; [done|]. cbn. destruct (c =? 95); [|done]. by apply suffix_cons_r. Qed.
Lemma bytes_fname a : bytes (a_name a) → bytes (fname a).
Proof.
  intros Hb. unfold fname. assert (bytes (shortname (a_name a))) as Hs by (unfold shortname; case_bool_decide; [by apply Forall_drop|done]).
  destruct (skip_underscore_suffix (shortname (a_name a))) as [p E]. rewrite E in Hs at 1. by apply Forall_app in Hs as [_ ?].
Qed.

(** Copying the content of a file. *)
Lemma copy_run reads : ∀ s m cs d,
  built s m (cs ++ [(T_FILE, d)]) → bytes (mjoin reads) → Z.of_nat (length (d ++ mjoin reads)) ≤ MAXFILE * BSIZE →
  nmeta + total (cs ++ [(T_FILE, d ++ mjoin reads)]) ≤ FSSIZE → Z.of_nat (length cs) + 1 < NINODES →
  wp (foreach reads (iappend (Z.of_nat (length cs) + 1))) s (λ _ s', ∃ m', built s' m' (cs ++ [(T_FILE, d ++ mjoin reads)])).
Proof.
  induction reads as [|l reads IH]; intros s m cs d Hbu Hb Hmax Hroom Hn.
  - apply wp_ret. exists m. cbn [mjoin list_join]. by rewrite app_nil_r.
  - cbn [foreach]. change (mjoin (l :: reads)) with (l ++ mjoin reads) in *. apply Forall_app in Hb as [Hl Hr].
    rewrite app_assoc in *. apply wp_bind.
    assert (<[length cs := (T_FILE, d ++ l)]> (cs ++ [(T_FILE, d)]) = cs ++ [(T_FILE, d ++ l)]) as Ei
      by (by rewrite insert_app_r_alt, Nat.sub_diag by lia).
    eapply wp_mono; [eapply (iappend_run s m _ (length cs) T_FILE d l Hbu); [|done| | |]|].
    + by rewrite lookup_app_r, Nat.sub_diag by lia.
    + rewrite !length_app in Hmax. lia.
    + rewrite Ei, total_app in *. cbn [total snd] in *. rewrite !length_app in *.
      pose proof (cost_mono (Z.of_nat (length d + length l)) (Z.of_nat (length d + length l + length (mjoin reads))) ltac:(lia)).
      lia.
    + rewrite length_app. cbn. lia.
    + cbv beta. intros [] s1 (m1 & Hbu1). rewrite Ei in Hbu1. by eapply IH.
Qed.

Lemma total_le_root r r' cs cs' :
  (length r ≤ length r')%nat → total cs ≤ total cs' → total ((T_DIR, r) :: cs) ≤ total ((T_DIR, r') :: cs').
Proof. intros Hr Hc. cbn [total snd]. pose proof (cost_mono (Z.of_nat (length r)) (Z.of_nat (length r')) ltac:(lia)). lia. Qed.

Lemma image_files_snoc args a :
  image_files (args ++ [a]) = ((T_DIR, root_bytes (args ++ [a])) :: ((λ a, (T_FILE, fdata a)) <$> args)) ++ [(T_FILE, fdata a)].
Proof. unfold image_files. by rewrite fmap_app. Qed.

Lemma root_max args : Z.of_nat (length args) < NINODES → Z.of_nat (length (root_bytes args)) ≤ MAXFILE * BSIZE - BSIZE.
Proof. intros Hn. rewrite root_bytes_length. change MAXFILE with 268. unfold BSIZE, NINODES in *. lia. Qed.

Lemma add_file_run s m pre a :
  built s m (image_files pre) → arg_ok a → nmeta + total (image_files (pre ++ [a])) ≤ FSSIZE →
  Z.of_nat (length pre) + 2 < NINODES →
  wp (add_file ROOTINO a) s (λ _ s', ∃ m', built s' m' (image_files (pre ++ [a]))).
Proof.
  intros Hbu [(A1 & A2 & A3) [reads A4] [A5 A6]] Hroom Hn.
  unfold add_file. cbv zeta. fold (fname a). rewrite bool_decide_eq_true_2 by done. apply wp_bind, wp_ret. rewrite A4.
  destruct (Z.leb_spec (Z.of_nat (length (fname a))) DIRSIZ); [|lia]. apply wp_bind, wp_ret.
  assert (length (image_files pre) = S (length pre)) as El by (cbn; by rewrite length_fmap).
  apply wp_bind. eapply wp_mono; [eapply (ialloc_run s m _ T_FILE Hbu); [done|rewrite El; lia]|].
  cbv beta. intros i s1 (-> & m1 & Hb1). rewrite El in *. replace (Z.of_nat (S (length pre)) + 1) with (Z.of_nat (length pre) + 2) by lia.
  rewrite image_files_snoc in *. set (cs := (T_DIR, root_bytes (pre ++ [a])) :: ((λ a, (T_FILE, fdata a)) <$> pre)) in *.
  assert (length cs = S (length pre)) as Elc by (cbn; by rewrite length_fmap).
  assert (fdata a = mjoin reads) as Ed by (unfold fdata; by rewrite A4). rewrite Ed in *.
  assert (<[0%nat := (T_DIR, root_bytes pre ++ mkfs_dirent (Z.of_nat (length pre) + 2) (fname a))]> (image_files pre ++ [(T_FILE, [])]) =
    cs ++ [(T_FILE, [])]) as Ei by (rewrite <-root_bytes_snoc; done).
  apply wp_bind. eapply wp_mono; [eapply (iappend_run s1 m1 _ 0 T_DIR (root_bytes pre) _ Hb1); [done| | | |]|].
  - rewrite mkfs_dirent_eq. by apply new_entry_bytes, bytes_fname.
  - rewrite <-Nat2Z.inj_add, <-length_app, <-root_bytes_snoc. pose proof (root_max (pre ++ [a])) as Hm. rewrite length_app in Hm at 1.
    cbn [length] in Hm. unfold BSIZE in *. lia.
  - rewrite Ei. rewrite total_app in *. cbn [total snd] in *. change (cost (Z.of_nat (length (@nil Z)))) with 0.
    rewrite <-Ed in Hroom. pose proof (cost_nonneg (Z.of_nat (length (fdata a))) ltac:(lia)). lia.
  - rewrite length_app, El. cbn. lia.
  - cbv beta. intros [] s2 (m2 & Hb2). rewrite Ei in Hb2.
    replace (Z.of_nat (length pre) + 2) with (Z.of_nat (length cs) + 1) by lia. eapply (copy_run reads s2 m2 cs []); [done|done|done|done|lia].
Qed.

Lemma total_image_mono pre post : total (image_files pre) ≤ total (image_files (pre ++ post)).
Proof.
  unfold image_files. apply total_le_root; [rewrite !root_bytes_length, length_app; lia|].
  rewrite fmap_app, total_app. pose proof (total_nonneg ((λ a, (T_FILE, fdata a)) <$> post)). lia.
Qed.

Lemma add_files_run args post : ∀ s m pre,
  args = pre ++ post → built s m (image_files pre) → Forall arg_ok post → nmeta + total (image_files args) ≤ FSSIZE →
  Z.of_nat (length args) + 1 < NINODES →
  wp (foreach post (add_file ROOTINO)) s (λ _ s', ∃ m', built s' m' (image_files args)).
Proof.
  induction post as [|a post IH]; intros s m pre E Hbu Hok Hroom Hn.
  - apply wp_ret. exists m. by rewrite E, app_nil_r.
  - cbn [foreach]. inversion Hok as [|? ? Ha Hpost]. subst.
    assert (pre ++ a :: post = (pre ++ [a]) ++ post) as Ep by (by rewrite <-app_assoc).
    apply wp_bind. eapply wp_mono; [eapply (add_file_run s m pre a Hbu Ha)|].
    + pose proof (total_image_mono (pre ++ [a]) post) as Hm. rewrite <-Ep in Hm. lia.
    + rewrite length_app in Hn. cbn [length] in Hn. lia.
    + cbv beta. intros [] s1 (m1 & Hb1). by eapply IH.
Qed.

(** The size of the root directory is rounded up to a whole block. *)
Definition padded (c : list Z) : list Z := c ++ replicate (Z.to_nat (BSIZE - Z.of_nat (length c) mod BSIZE)) 0.

Lemma padded_length c : Z.of_nat (length (padded c)) = (Z.of_nat (length c) / BSIZE + 1) * BSIZE.
Proof.
  unfold padded. rewrite length_app, length_replicate. pose proof (Z.div_mod (Z.of_nat (length c)) BSIZE ltac:(done)).
  pose proof (Z.mod_pos_bound (Z.of_nat (length c)) BSIZE ltac:(done)). lia.
Qed.

Lemma padded_cost c : Z.of_nat (length c) mod BSIZE ≠ 0 → cost (Z.of_nat (length (padded c))) = cost (Z.of_nat (length c)).
Proof.
  intros Hne. apply cost_in; [lia|done|]. rewrite padded_length. pose proof (Z.div_mod (Z.of_nat (length c)) BSIZE ltac:(done)).
  pose proof (Z.mod_pos_bound (Z.of_nat (length c)) BSIZE ltac:(done)). lia.
Qed.

Lemma pad_run s m args :
  built s m (image_files args) → Z.of_nat (length args) + 1 < NINODES → Z.of_nat (length (root_bytes args)) mod BSIZE ≠ 0 →
  wp (din ← rinode ROOTINO; winode ROOTINO (set_i_size (u32 ((i_size din / BSIZE + 1) * BSIZE)) din)) s
    (λ _ s', ∃ m', built s' m' (<[0%nat := (T_DIR, padded (root_bytes args))]> (image_files args))).
Proof.
  intros Hbu Hn Hne. pose proof Hbu as [B1 B2 B3 B4 _ _]. set (c := root_bytes args) in *.
  pose proof (fi_file _ _ B2 0 T_DIR c eq_refl) as Hx. change (Z.of_nat 0 + 1) with ROOTINO in Hx. set (x := file_at m ROOTINO) in *.
  pose proof (mf_size _ _ _ _ Hx) as Es. rewrite <-Es in Hne. pose proof (root_max args ltac:(lia)) as Hmax. fold c in Hmax. rewrite <-Es in Hmax.
  pose proof (Z.div_mod (i_size x) BSIZE ltac:(done)) as Edm. pose proof (Z.mod_pos_bound (i_size x) BSIZE ltac:(done)) as Hmod.
  set (l := replicate (Z.to_nat (BSIZE - Z.of_nat (length c) mod BSIZE)) 0).
  assert (Z.of_nat (length l) = BSIZE - i_size x mod BSIZE) as Ell by (unfold l; rewrite length_replicate, <-Es; lia).
  destruct (cost_in (i_size x) (i_size x + Z.of_nat (length l))) as [Ec He]; [lia|done|lia|].
  pose proof (tight_more _ _ _ _ (mf_tight _ _ _ _ Hx) He) as Ht.
  assert (wrote m x m x (i_size x) l) as Hw.
  { destruct (wrote_refl mkfs_sb m x (i_size x)) as [W1 W2 W3 W4 W5 W6 W7 W8 W9 W10]; [apply Hx|by apply shows_bitmap_ok with s|].
    constructor; try done.
    - intros o Ho. unfold over. destruct (Z.leb_spec (i_size x) o); [|done]. destruct (l !! Z.to_nat (o - i_size x)) eqn:E; [|done].
      apply lookup_replicate in E as [-> _]. apply (mf_tail _ _ _ _ Hx). lia.
    - intros o Ho. apply (ti_addr _ _ _ Ht); [apply block_index; lia|].
      pose proof (Z.div_mod o BSIZE ltac:(done)). pose proof (Z.mod_pos_bound o BSIZE ltac:(done)). lia. }
  apply wp_bind. eapply wp_Ok; [by apply (rinode_run s m _ B1)|]. fold x. cbv beta. pose proof max_file.
  replace (u32 ((i_size x / BSIZE + 1) * BSIZE)) with (i_size x + Z.of_nat (length l)) by (rewrite u32_small; lia).
  destruct (winode_run s m (set_i_size (i_size x + Z.of_nat (length l)) x) B1) as (s2 & E & Hs2 & G1 & G2); [done|].
  eapply wp_Ok; [exact E|]. eexists. pose proof (total_insert (image_files args) 0 (T_DIR, c) (T_DIR, c ++ l) eq_refl) as Et.
  cbn [snd] in Et. rewrite length_app, Nat2Z.inj_add, <-Es, Ec in Et.
  eapply (built_low s m _); [done| |exact Hs2| |rewrite length_insert; lia|unfold padded; fold l; lia].
  - intros b Hb. eapply store_low; [exact Hx|exact Hw|done].
  - eapply (store_files m x m x l c 0 T_DIR (image_files args)); [done|done|done|lia|done|apply based_at| |done|].
    + intros i Hi Hi0. unfold x. change ROOTINO with (Z.of_nat 0 + 1). apply (fi_disj _ _ B2 0 i); [congruence|lia|exact Hi].
    + intros i Hi. by apply list_lookup_insert_ne.
Qed.

(** * The entries of the root directory *)

Definition no_entry : dirent := Dirent 0 (replicate 14 0).

Lemma entries_cons b c : length b = 16%nat → entries (b ++ c) = dirent_of b :: entries c.
Proof.
  intros Hb. unfold entries. rewrite length_app, Hb. replace (16 + length c)%nat with (length c + 1 * 16)%nat by lia.
  rewrite Nat.div_add, Nat.add_1_r by lia. cbn [seq fmap list_fmap]. f_equal.
  - change (16 * 0)%nat with 0%nat. rewrite drop_0. rewrite take_app_le, take_ge by lia. done.
  - rewrite <-fmap_S_seq, <-list_fmap_compose. apply list_fmap_ext. intros i j _. cbn [compose].
    replace (16 * S j)%nat with (length b + 16 * j)%nat by lia. by rewrite <-drop_drop, drop_app_length.
Qed.

Lemma entries_join es :
  Forall (λ e, length (dirent_bytes e) = 16%nat ∧ dirent_of (dirent_bytes e) = e) es → entries (mjoin (dirent_bytes <$> es)) = es.
Proof.
  induction 1 as [|e es [Hl He] _ IH]; [done|].
  change (mjoin (dirent_bytes <$> e :: es)) with (dirent_bytes e ++ mjoin (dirent_bytes <$> es)). by rewrite entries_cons, He, IH.
Qed.

Lemma zeros_entries k : replicate (16 * k) 0 = mjoin (dirent_bytes <$> replicate k no_entry).
Proof.
  induction k as [|k IH]; [done|]. replace (16 * S k)%nat with (16 + 16 * k)%nat by lia.
  rewrite replicate_add, IH. done.
Qed.

Definition pad_entries (args : list arg) : nat := Z.to_nat (64 - (Z.of_nat (length args) + 2) mod 64).

Lemma padded_root args : padded (root_bytes args) = mjoin (dirent_bytes <$> (root_entries args ++ replicate (pad_entries args) no_entry)).
Proof.
  unfold padded. rewrite fmap_app, join_app, <-zeros_entries. unfold root_bytes at 1. do 2 f_equal.
  rewrite root_bytes_length. unfold pad_entries, BSIZE.
  replace (Z.of_nat (32 + 16 * length args)) with (16 * (Z.of_nat (length args) + 2)) by lia.
  change 1024 with (16 * 64) at 2. rewrite Z.mul_mod_distr_l by lia. pose proof (Z.mod_pos_bound (Z.of_nat (length args) + 2) 64). lia.
Qed.

Lemma entries_root args : Z.of_nat (length args) + 1 < NINODES →
  entries (padded (root_bytes args)) = root_entries args ++ replicate (pad_entries args) no_entry.
Proof.
  intros Hn. rewrite padded_root. apply entries_join. unfold NINODES in Hn.
  assert (∀ nm i, 0 ≤ i < 2 ^ 16 → length (dirent_bytes (new_entry nm i)) = 16%nat ∧ dirent_of (dirent_bytes (new_entry nm i)) = new_entry nm i) as He.
  { intros nm i Hi. split; [apply new_entry_len|by apply dirent_of_bytes]. }
  apply Forall_app. split; [|by apply Forall_replicate].
  unfold root_entries. constructor; [by apply He|]. constructor; [by apply He|]. apply Forall_lookup_2.
  intros i e Hi. apply list_lookup_imap_Some in Hi as (a & Ha & ->). apply He. apply lookup_lt_Some in Ha. lia.
Qed.

(** * The image *)

(** The superblock as the kernel reads it. *)
Definition sb_of (d : block) : superblock :=
  Superblock (get32 d 0) (get32 d 4) (get32 d 8) (get32 d 12) (get32 d 16) (get32 d 20) (get32 d 24) (get32 d 28).

Section same.
Context (m m' : Z → block) (Hm : ∀ b, m' b = m b).

Lemma same_file_at i : file_at m' i = file_at m i.
Proof. unfold file_at. by rewrite Hm. Qed.

Lemma same_file x : file_ok mkfs_sb m x → file_ok mkfs_sb m' x ∧ content m' x = content m x.
Proof.
  intros Hx. eapply file_ok_agree; [by intros|intros b Hb|done]. unfold used. rewrite Hm.
  apply (owns_block _ _ _ _ (fo_ino _ _ _ Hx) Hb).
Qed.

Lemma same_disjoint x y : disjoint_files m x y → disjoint_files m' x y.
Proof. intros Hd b B1%(owns_agree m m') B2%(owns_agree m m'); [by apply (Hd b)|done..]. Qed.

Lemma same_files cs : files m cs →
  inodes_ok mkfs_sb m' ∧
  (∀ i t c, cs !! i = Some (t, c) → let x := file_at m' (Z.of_nat i + 1) in
     file_ok mkfs_sb m' x ∧ i_type x = t ∧ i_nlink x = 1 ∧ content m' x = c) ∧
  (∀ i j, i ≠ j → (i < length cs)%nat → (j < length cs)%nat →
     disjoint_files m' (file_at m' (Z.of_nat i + 1)) (file_at m' (Z.of_nat j + 1))) ∧
  (∀ i, Z.of_nat (length cs) < i < NINODES → file_at m' i = dinode0 i).
Proof.
  intros [F1 F2 F3 F4]. split_and!.
  - intros i Hi. rewrite Hm. by apply F1.
  - intros i t c Hi x. unfold x. rewrite same_file_at. destruct (F2 i t c Hi) as [G1 G2 G3 G4 _ _].
    destruct (same_file _ G1) as [? ->]. done.
  - intros i j Hij Hi Hj. rewrite !same_file_at. by apply same_disjoint, F3.
  - intros i Hi. rewrite same_file_at. by apply F4.
Qed.
End same.

Lemma balloc_run s m cs : built s m cs → ∃ s', balloc (im_freeblock s) s = Ok (tt, s') ∧
  im_sectors s' = FSSIZE ∧ ∀ b, disk_block (im_disk s') b = m b.
Proof.
  intros [Hs _ _ _ _ _]. pose proof (sh_free _ _ Hs) as Hf. unfold balloc. change BPB with 8192.
  destruct (Z.ltb_spec (im_freeblock s) 8192); [|unfold FSSIZE in Hf; lia]. unfold wsect, modify.
  rewrite sector_id by done. eexists. split; [reflexivity|]. split.
  - cbn [im_sectors set_im_disk set_im_sectors]. by rewrite (sh_sectors _ _ Hs).
  - intros b. cbn [im_disk set_im_disk]. unfold disk_block. destruct (decide (b = sb_bmapstart mkfs_sb)) as [->|Hn].
    + rewrite lookup_insert_eq. symmetry. apply (sh_map _ _ Hs).
    + rewrite lookup_insert_ne by done. symmetry. by apply (sh_disk _ _ Hs).
Qed.

(** The first entries, [.] and [..]. *)
Lemma dots_run s m (f : M image unit) Q :
  built s m [(T_DIR, [])] → (∀ s m, built s m (image_files []) → wp f s Q) →
  wp (iappend ROOTINO (mkfs_dirent ROOTINO (str ".")) ;; iappend ROOTINO (mkfs_dirent ROOTINO (str "..")) ;; f) s Q.
Proof.
  intros Hb Hf. apply wp_bind. eapply wp_mono; [eapply (iappend_run s m _ 0 T_DIR [] _ Hb); [done| |done|done|done]|].
  { rewrite mkfs_dirent_eq. apply new_entry_bytes. by repeat constructor. }
  cbv beta. intros [] s1 (m1 & Hb1). apply wp_bind.
  eapply wp_mono; [eapply (iappend_run s1 m1 _ 0 T_DIR _ _ Hb1); [done| |done|done|done]|].
  { rewrite mkfs_dirent_eq. apply new_entry_bytes. by repeat constructor. }
  cbv beta. intros [] s2 (m2 & Hb2). by apply (Hf s2 m2).
Qed.

Lemma main_run args :
  Forall arg_ok args → Z.of_nat (length args) + 1 < NINODES → Z.of_nat (length (root_bytes args)) mod BSIZE ≠ 0 →
  nmeta + total (image_files args) ≤ FSSIZE →
  ∃ s s1 m, main args image0 = Ok (tt, s) ∧ built s1 m (<[0%nat := (T_DIR, padded (root_bytes args))]> (image_files args)) ∧
    im_sectors s = FSSIZE ∧ ∀ b, disk_block (im_disk s) b = m b.
Proof.
  intros Hok Hn Hne Hroom.
  cut (wp (main args) image0 (λ _ s, ∃ s1 m, built s1 m (<[0%nat := (T_DIR, padded (root_bytes args))]> (image_files args)) ∧
    im_sectors s = FSSIZE ∧ ∀ b, disk_block (im_disk s) b = m b)).
  { intros (s & E & s1 & m & R)%wp_unit. exists s, s1, m. exact (conj E R). }
  unfold main. apply start_run. intros s m Hb. apply wp_bind. eapply wp_mono; [by eapply (ialloc_run s m [] T_DIR Hb)|].
  cbv beta. intros i s1 (-> & m1 & Hb1). change (Z.of_nat (length []) + 1) with ROOTINO. apply wp_bind, wp_ret.
  apply (dots_run s1 m1); [exact Hb1|]. clear s m s1 m1 Hb Hb1. intros s m Hb. apply wp_bind.
  eapply wp_mono; [by eapply (add_files_run args args s m [])|]. cbv beta. intros [] s1 (m1 & Hb1).
  apply wp_assoc. apply wp_bind. eapply wp_mono; [by apply (pad_run s1 m1 args)|]. cbv beta. intros [] s2 (m2 & Hb2).
  apply wp_bind, wp_gets. destruct (balloc_run s2 m2 _ Hb2) as (s3 & E & R1 & R2). eapply wp_Ok; [exact E|]. by exists s2, m2.
Qed.

(** What the image of the files [args] is for the kernel: the superblock, an
    empty log, a bitmap, the root directory and the files, which do not share
    blocks; all other inodes are free. *)
Record mkfs_image (args : list arg) (m : Z → block) : Prop := {
  mi_sb : sb_of (m 1) = mkfs_sb;
  mi_log : ∀ b, sb_logstart mkfs_sb ≤ b < sb_inodestart mkfs_sb → m b = zero_block;
  mi_bitmap : bitmap_ok mkfs_sb m;
  mi_inodes : inodes_ok mkfs_sb m;
  mi_used : ∀ b, 0 ≤ b < FSSIZE → used m mkfs_sb b = bool_decide (b < nmeta + total (image_files args));
  mi_root : dir_ok mkfs_sb m (file_at m ROOTINO);
  mi_nlink : i_nlink (file_at m ROOTINO) = 1;
  mi_entries : entries (content m (file_at m ROOTINO)) = root_entries args ++ replicate (pad_entries args) no_entry;
  mi_file : ∀ i a, args !! i = Some a → let x := file_at m (Z.of_nat i + 2) in
    file_ok mkfs_sb m x ∧ i_type x = T_FILE ∧ i_nlink x = 1 ∧ content m x = fdata a;
  mi_disj : ∀ i j, ROOTINO ≤ i < j → j ≤ Z.of_nat (length args) + 1 → disjoint_files m (file_at m i) (file_at m j);
  mi_free : ∀ i, Z.of_nat (length args) + 1 < i < NINODES → file_at m i = dinode0 i;
}.

Section image.
Context (args : list arg) (Hok : Forall arg_ok args) (Hn : Z.of_nat (length args) + 1 < NINODES).
Context (Hne : (Z.of_nat (length args) + 2) mod 64 ≠ 0) (Hroom : nmeta + total (image_files args) ≤ FSSIZE).

Lemma image_run : ∃ s, main args image0 = Ok (tt, s) ∧ im_sectors s = FSSIZE ∧ mkfs_image args (disk_block (im_disk s)).
Proof.
  set (r := root_bytes args).
  assert (Z.of_nat (length r) mod BSIZE ≠ 0) as Hr.
  { unfold r. rewrite root_bytes_length. replace (Z.of_nat (32 + 16 * length args)) with (16 * (Z.of_nat (length args) + 2)) by lia.
    change BSIZE with (16 * 64). rewrite Z.mul_mod_distr_l by lia. lia. }
  destruct (main_run args Hok Hn Hr Hroom) as (s & s1 & m0 & E & Hb & Es & Hm). fold r in Hb.
  exists s. split; [done|]. split; [done|]. set (m := disk_block (im_disk s)) in *. pose proof Hb as [B1 B2 B3 B4 B5 B6].
  pose proof (total_insert (image_files args) 0 (T_DIR, r) (T_DIR, padded r) eq_refl) as Et. cbn [snd] in Et. rewrite padded_cost in Et by done.
  set (cs := <[0%nat := (T_DIR, padded r)]> (image_files args)) in *.
  assert (length cs = S (length args)) as El by (cbn; by rewrite length_fmap).
  destruct (same_files m0 m Hm cs B2) as (F1 & F2 & F3 & F4).
  destruct (F2 0%nat T_DIR _ eq_refl) as (G1 & G2 & G3 & G4). change (Z.of_nat 0 + 1) with ROOTINO in *. constructor.
  - rewrite Hm, B5. vm_compute. reflexivity.
  - intros b Hb'. rewrite Hm. by apply B6.
  - destruct (shows_bitmap_ok s1 m0 B1) as [U1 U2]. split; [|by rewrite Hm]. intros b Hb'. unfold used. rewrite Hm. by apply U1.
  - done.
  - intros b Hb'. unfold used. rewrite Hm. change (used m0 mkfs_sb b = bool_decide (b < nmeta + total (image_files args))).
    rewrite (shows_used s1 m0 B1 b) by (change BPB with 8192; unfold FSSIZE in Hb'; lia). apply bool_decide_ext. lia.
  - constructor; [exact G1|exact G2|]. pose proof (length_content _ _ _ G1) as Hl. rewrite G4 in Hl.
    pose proof (fo_size _ _ _ G1) as Hs. replace (i_size (file_at m ROOTINO)) with (Z.of_nat (length (padded r))) by lia.
    rewrite padded_length. change BSIZE with (64 * 16). rewrite Z.mul_assoc. apply Z.mod_mul. done.
  - exact G3.
  - rewrite G4. by apply entries_root.
  - intros i a Ha. replace (Z.of_nat i + 2) with (Z.of_nat (S i) + 1) by lia. apply (F2 (S i) T_FILE).
    change (cs !! S i) with (((λ a, (T_FILE, fdata a)) <$> args) !! i). by rewrite list_lookup_fmap, Ha.
  - intros i j Hij Hj. unfold ROOTINO in Hij. replace i with (Z.of_nat (Z.to_nat (i - 1)) + 1) by lia.
    replace j with (Z.of_nat (Z.to_nat (j - 1)) + 1) by lia. apply F3; lia.
  - intros i Hi'. apply F4. lia.
Qed.
End image.

(** C14: [mkfs], given files that fit (names of at most [DIRSIZ] characters, at
    most 198 files, enough blocks, and a root directory that does not end at
    a block boundary), writes an image that is a file system for the kernel:
    the superblock that [readsb] reads back, an empty log, a bitmap in which
    exactly the first blocks are in use, a root directory with [.], [..] and
    an entry for every file followed by empty entries, and for every file an
    inode whose content is what was read from it; no two files share a
    block, and all other inodes are free. *)
Theorem mkfs_builds (args : list arg) :
  Forall arg_ok args → Z.of_nat (length args) + 1 < NINODES → (Z.of_nat (length args) + 2) mod 64 ≠ 0 →
  nmeta + total (image_files args) ≤ FSSIZE →
  ∃ s, main args image0 = Ok (tt, s) ∧ im_sectors s = FSSIZE ∧ fslayout (sb_logstart mkfs_sb) mkfs_sb ∧
    mkfs_image args (disk_block (im_disk s)).
Proof.
  intros Hok Hn Hne Hroom. destruct (image_run args Hok Hn Hne Hroom) as (s & E & Es & Hi). exists s. split_and!; [done|done|apply fslayout_mkfs|done].
Qed.

(** Two files: a program and a text. *)
Module TwoFiles.
Definition args : list arg :=
  [Arg (str "user/_cat") (Some [str "abc"; str "de"]); Arg (str "README") (Some [str "xv6"])].

Lemma args_ok : Forall arg_ok args.
Proof.
  repeat (constructor; [constructor; [split_and!|by eexists|split]; apply (bool_decide_unpack _); vm_compute; exact I|]). constructor.
Qed.

Lemma args_fit : nmeta + total (image_files args) ≤ FSSIZE.
Proof. vm_compute. discriminate. Qed.

Lemma mkfs_builds_witness : ∃ s, main args image0 = Ok (tt, s) ∧
  let m := disk_block (im_disk s) in
  content m (file_at m 2) = str "abcde" ∧ content m (file_at m 3) = str "xv6" ∧
  dfind (str "cat") (entries (content m (file_at m ROOTINO))) = Some (2%nat, new_entry (str "cat") 2).
Proof.
  destruct (mkfs_builds args args_ok ltac:(done) ltac:(done) args_fit) as (s & E & _ & _ & R). exists s. split; [exact E|].
  intros m. fold m in R. pose proof (mi_entries _ _ R) as R1. pose proof (mi_file _ _ R) as R2.
  split; [|split].
  - exact (proj2 (proj2 (proj2 (R2 0%nat _ eq_refl)))).
  - exact (proj2 (proj2 (proj2 (R2 1%nat _ eq_refl)))).
  - rewrite R1. vm_compute. reflexivity.
Defined.
End TwoFiles.
