(* ===== verification/Mount.v ===== *)
(** From [mkfs] to a running system.

    The first process mounts the file system in [fsinit]: it reads the
    superblock, replays the log and frees orphaned inodes.  On an image that
    [mkfs] wrote, in the state the boot sequence leaves behind, it finds
    nothing to repair, and a file given to [mkfs] can be opened by its name and read. *)

From stdpp Require Import functions.
From S2P Require Import Prelude Riscv Mem Str Kalloc Vm VmTree Kvm State Sched SchedSpec Procmem Console ConsoleSpec Sleeplock Bio BioSpec Cache Block Log LogSpec Fs Dir FsSpec Pipe File Virtio Proc ProcSpec Boot BootSpec Content Dinode ReadWrite DirSpec Itable Path Mkfs MkfsSpec.

(** * fsinit *)

Section fsinit.
Context `{KernelImage} (me : nat).

(** The inodes in memory and the process itself. *)
Definition kept (s s' : kernel) : Prop := k_inode s' = k_inode s ∧ k_proc s' !! me = k_proc s !! me.

Lemma kept_did ws s s' : did me ws s s' → kept s s'.
Proof. intros Hd. split; [by eapply did_inode|]. by destruct Hd as (_ & (_ & ? & _) & _). Qed.
Lemma kept_both s1 s2 s3 : kept s1 s2 → kept s2 s3 → kept s1 s3.
Proof. intros [A1 A2] [B1 B2]. split; congruence. Qed.

Lemma nobuf_room : (size (∅ : gset Z) + size (∅ : gmap nat (Z * block)) < Z.to_nat NBUF)%nat.
Proof. rewrite size_empty, map_size_empty. vm_compute. lia. Qed.

Lemma readsb_wp s m : cinv me s ∅ m ∅ →
  wp (readsb me ROOTDEV) s (λ _ s', cinv me s' ∅ m ∅ ∧ k_sb s' = sb_of (m 1) ∧ kept s s' ∧ k_log s' = k_log s).
Proof.
  intros Hc. unfold readsb. change (u32 ROOTDEV) with ROOTDEV.
  apply wp_bind. eapply wp_mono; [eapply bread_did; [done|by intros ??|right; apply nobuf_room]|].
  cbv beta. intros b s1 (_ & Hc1 & Hd1 & El1). unfold buf_data. apply wp_bind, wp_bind.
  eapply wp_mono; [eapply get_buf_wp; [done|apply lookup_insert_eq]|]. cbv beta. intros x s1' (-> & Ex & _). apply wp_ret. rewrite Ex.
  apply wp_bind, wp_modify. set (s2 := set_k_sb _ s1). assert (cinv me s2 ∅ m (<[b := (1, m 1)]> ∅)) as Hc2 by (by apply (cinv_same me s1)).
  eapply wp_mono; [eapply brelse_did; [exact Hc2|apply lookup_insert_eq]|].
  cbv beta. intros [] s3 (Hc3 & Hd3 & El3). rewrite delete_insert_eq, delete_empty in Hc3. split_and!; [done| | |by rewrite El3].
  - by rewrite (did_sb _ _ _ _ Hd3).
  - eapply (kept_both s s1); [by eapply kept_did|]. exact (kept_did _ _ _ Hd3).
Qed.

(** An inode that is not an orphan is left alone. *)
Lemma ireclaim_body_wp s sb m n :
  cinv me s ∅ m ∅ → k_sb s = sb → i_type (disk_inode sb m n) = 0 ∨ i_nlink (disk_inode sb m n) ≠ 0 →
  wp (ireclaim_body me ROOTDEV n) s (λ _ s', cinv me s' ∅ m ∅ ∧ k_sb s' = sb ∧ kept s s' ∧ k_log s' = k_log s).
Proof.
  intros Hc Esb Hn. unfold ireclaim_body. apply wp_bind, wp_gets. rewrite Esb. change (u32 ROOTDEV) with ROOTDEV.
  apply wp_bind. eapply wp_mono; [eapply bread_did; [done|by intros ??|right; apply nobuf_room]|].
  cbv beta. intros b s1 (_ & Hc1 & Hd1 & El1). unfold buf_data. apply wp_bind, wp_bind.
  eapply wp_mono; [eapply get_buf_wp; [done|apply lookup_insert_eq]|]. cbv beta. intros x s1' (-> & Ex & _). apply wp_ret. rewrite Ex.
  set (d := m (IBLOCK n sb)) in *.
  assert (negb (geti16 d (dip_off n) =? 0) && (geti16 d (dip_off n + 6) =? 0) = false) as ->.
  { change (geti16 d (dip_off n)) with (i_type (disk_inode sb m n)). change (geti16 d (dip_off n + 6)) with (i_nlink (disk_inode sb m n)).
    destruct Hn as [->|Hn]; [done|]. destruct (Z.eqb_spec (i_nlink (disk_inode sb m n)) 0); [done|]. apply andb_false_r. }
  apply wp_bind, wp_ret. apply wp_bind. eapply wp_mono; [eapply brelse_did; [exact Hc1|apply lookup_insert_eq]|].
  cbv beta. intros [] s2 (Hc2 & Hd2 & El2). rewrite delete_insert_eq, delete_empty in Hc2. apply wp_ret.
  split_and!; [done|by rewrite (did_sb _ _ _ _ Hd2), (did_sb _ _ _ _ Hd1)| |congruence].
  eapply (kept_both s s1); by eapply kept_did.
Qed.

Lemma ireclaim_wp s sb m :
  cinv me s ∅ m ∅ → k_sb s = sb → fs_ok sb m → 1 ≤ sb_ninodes sb →
  wp (ireclaim me ROOTDEV) s (λ _ s', cinv me s' ∅ m ∅ ∧ k_sb s' = sb ∧ kept s s' ∧ k_log s' = k_log s).
Proof.
  intros Hc Esb Hfs Hni. unfold ireclaim. apply wp_bind, wp_gets. rewrite Esb.
  apply (wp_foreach (λ l s', (∀ n, n ∈ l → 1 ≤ n < sb_ninodes sb) ∧ cinv me s' ∅ m ∅ ∧ k_sb s' = sb ∧ kept s s' ∧ k_log s' = k_log s)).
  - split_and!; [|done..]. intros n Hn%elem_of_zseq. lia.
  - intros n l s1 (Hl & Hc1 & Es1 & Hk1 & El1). eapply wp_mono; [eapply (ireclaim_body_wp s1 sb m n Hc1 Es1)|].
    + destruct (decide (i_type (disk_inode sb m n) = 0)) as [E|E]; [by left|right].
      apply (fk_file _ _ Hfs). split; [|done]. apply Hl. by left.
    + cbv beta. intros [] s2 (Hc2 & Es2 & Hk2 & El2). split_and!; [|done|done|by eapply kept_both|congruence].
      intros k Hk. apply Hl. by right.
  - intros s1 (_ & ?). done.
Qed.

(** Mounting a file system that was left in order. *)
Lemma fsinit_wp s sb m :
  cinv me s ∅ m ∅ → length (l_block (k_log s)) = Z.to_nat LOGBLOCKS →
  sb_of (m 1) = sb → sb_magic sb = FSMAGIC → layout (sb_logstart sb) → 1 ≤ sb_ninodes sb →
  m (sb_logstart sb) = zero_block → fs_ok sb m →
  wp (fsinit me ROOTDEV) s (λ _ s', cinv me s' ∅ m ∅ ∧ k_sb s' = sb ∧ kept s s' ∧
    linv (k_log s') (sb_logstart sb) [] ∧ same_ops (k_log s) (k_log s')).
Proof.
  intros Hc Hlen Hsb Hmag Hlay Hni Hlog Hfs. unfold fsinit. apply wp_bind. eapply wp_mono; [by apply readsb_wp|].
  cbv beta. intros [] s1 (Hc1 & Es1 & Hk1 & El1). rewrite Hsb in Es1. apply wp_bind, wp_gets. rewrite Es1, Hmag, Z.eqb_refl. cbn [negb].
  apply wp_bind. eapply wp_mono; [eapply (initlog_wp me s1 m sb []); [done|done|by rewrite El1|by rewrite Hlog|by rewrite Hlog|]|].
  { split_and!; [constructor|cbn; lia|constructor]. }
  rewrite Hlog. cbv beta. change (set_head [] zero_block) with zero_block. intros [] s2 (Hd2 & (m2 & Hc2) & Hl2 & Ho2).
  assert (cinv me s2 ∅ m ∅) as Hc2'.
  { eapply cinv_ext; [|exact Hc2]. intros b. destruct Hd2 as (_ & _ & Ed & _). cbn [install_writes imap app] in Ed.
    rewrite <-(ci_disk _ _ _ _ _ Hc2 b) by set_solver. rewrite Ed, disk_block_write_all. cbn [upd_all foldl fst snd app].
    destruct (decide (b = sb_logstart sb)) as [->|Hn]; [by rewrite fn_lookup_insert|].
    rewrite fn_lookup_insert_ne by done. apply (ci_disk _ _ _ _ _ Hc1). set_solver. }
  eapply wp_mono; [eapply (ireclaim_wp s2 sb m Hc2'); [by rewrite (did_sb _ _ _ _ Hd2)|done|done]|].
  cbv beta. intros [] s3 (Hc3 & Es3 & Hk3 & El3). rewrite El3. rewrite El1 in Ho2. split_and!; [done|done| |done|done..].
  eapply kept_both; [done|]. eapply kept_both; [by eapply kept_did|done].
Qed.
End fsinit.

(** * The image of mkfs *)

Section image.
Context (args : list arg) (m : Z → block) (Hi : mkfs_image args m) (Hn : Z.of_nat (length args) + 1 < NINODES).

Lemma image_live n : live mkfs_sb m n → n = ROOTINO ∨ ∃ i a, args !! i = Some a ∧ n = Z.of_nat i + 2.
Proof.
  intros [Hr Hty]. change (disk_inode mkfs_sb m n) with (file_at m n) in Hty. change (sb_ninodes mkfs_sb) with NINODES in Hr.
  destruct (decide (n = 1)) as [->|Hne]; [by left|right].
  destruct (decide (n ≤ Z.of_nat (length args) + 1)) as [Hle|Hgt]; [|by rewrite (mi_free _ _ Hi) in Hty by lia].
  destruct (lookup_lt_is_Some_2 args (Z.to_nat (n - 2))) as [a Ha]; [lia|]. exists (Z.to_nat (n - 2)), a. split; [done|lia].
Qed.

Lemma root_live : live mkfs_sb m ROOTINO.
Proof. split; [done|]. change (disk_inode mkfs_sb m ROOTINO) with (file_at m ROOTINO). by rewrite (do_type _ _ _ (mi_root _ _ Hi)). Qed.

Lemma file_live i a : args !! i = Some a → live mkfs_sb m (Z.of_nat i + 2).
Proof.
  intros Ha. pose proof (lookup_lt_Some _ _ _ Ha). split; [change (sb_ninodes mkfs_sb) with NINODES; lia|].
  change (disk_inode mkfs_sb m ?n) with (file_at m n). by rewrite (proj1 (proj2 (mi_file _ _ Hi i a Ha))).
Qed.

Lemma image_fs_ok : fs_ok mkfs_sb m.
Proof.
  constructor; change (disk_inode mkfs_sb m) with (file_at m).
  - intros n [->|(i & a & Ha & ->)]%image_live.
    + rewrite (mi_nlink _ _ Hi). split; [exact (do_file _ _ _ (mi_root _ _ Hi))|done].
    + destruct (mi_file _ _ Hi i a Ha) as (F1 & _ & F3 & _). by rewrite F3.
  - intros n [->|(i & a & Ha & ->)]%image_live Ety; [exact (do_size _ _ _ (mi_root _ _ Hi))|].
    by rewrite (proj1 (proj2 (mi_file _ _ Hi i a Ha))) in Ety.
  - intros n de [->|(i & a & Ha & ->)]%image_live Ety Hde H0; [|by rewrite (proj1 (proj2 (mi_file _ _ Hi i a Ha))) in Ety].
    rewrite (mi_entries _ _ Hi) in Hde. apply elem_of_app in Hde as [Hde|Hde].
    + apply elem_of_cons in Hde as [->|Hde]; [apply root_live|]. apply elem_of_cons in Hde as [->|Hde]; [apply root_live|].
      apply list_elem_of_lookup in Hde as [i Hl]. rewrite list_lookup_imap in Hl. destruct (args !! i) as [a|] eqn:Ha; [|done].
      cbn in Hl. injection Hl as <-. pose proof (lookup_lt_Some _ _ _ Ha). cbn. rewrite u16_small by (unfold NINODES in Hn; lia).
      by eapply file_live.
    + apply elem_of_replicate in Hde as [-> _]. done.
Qed.
End image.

(** ** Names *)

(** Names that the kernel can tell apart. *)
Definition name_ok (name : list Z) : Prop :=
  name ≠ [] ∧ SLASH ∉ name ∧ 0 ∉ name ∧ bytes name ∧ (length name ≤ Z.to_nat DIRSIZ)%nat.

Lemma namecmp_eq a b : name_ok a → name_ok b → namecmp a b = 0 → a = b.
Proof.
  intros (_ & _ & Za & Ba & La) (_ & _ & Zb & Bb & Lb) E. apply strncmp_eq0 in E; [|by apply is_char_chars..].
  assert (∀ l i, 0 ∉ l → (i < length l)%nat → chars l (Z.of_nat i) ≠ 0) as Hnz.
  { intros l i Hz Hi0. unfold chars. rewrite Nat2Z.id. destruct (lookup_lt_is_Some_2 l i Hi0) as [c Hc]. rewrite Hc. cbn.
    intros ->. by apply list_elem_of_lookup_2 in Hc. }
  assert (∀ i, (i ≤ length a)%nat → (i < Z.to_nat DIRSIZ)%nat → chars a (Z.of_nat i) = chars b (Z.of_nat i)) as Hag.
  { intros i Hi1 Hi2. apply E; [lia|]. intros j Hj. rewrite <-(Z2Nat.id j) by lia. apply Hnz; [done|lia]. }
  assert (∀ i, (i < length a)%nat → a !! i = b !! i) as Hpre.
  { intros i Hi0. pose proof (Hag i ltac:(lia) ltac:(lia)) as Hc. pose proof (Hnz a i Za Hi0) as Hn0.
    destruct (lookup_lt_is_Some_2 a i Hi0) as [c Ec]. unfold chars in *. rewrite Nat2Z.id, Ec in *. cbn in *.
    destruct (b !! i); cbn in Hc; congruence. }
  assert (length b ≤ length a)%nat as Hle.
  { destruct (decide (length b ≤ length a)%nat) as [|Hgt]; [done|]. pose proof (Hag (length a) ltac:(lia) ltac:(lia)) as Hc.
    destruct (Hnz b (length a) Zb); [lia|]. rewrite <-Hc. unfold chars. by rewrite Nat2Z.id, lookup_ge_None_2 by lia. }
  apply list_eq. intros i. destruct (decide (i < length a)%nat) as [Hlt|Hge]; [by apply Hpre|]. by rewrite !lookup_ge_None_2 by lia.
Qed.

Lemma elements_single name : name_ok name → elements (SLASH :: name) = [name].
Proof.
  intros (H0 & Hs & _). assert (split_slash name = [name]) as E.
  { clear H0. induction name as [|c name IH]; [done|]. cbn. destruct (Z.eqb_spec c SLASH) as [->|_]; [set_solver|]. by rewrite IH by set_solver. }
  unfold elements. cbn. rewrite E. by destruct name.
Qed.

Definition names (args : list arg) : list (list Z) := str "." :: str ".." :: (fname <$> args).

(** The inode a name in the root directory has. *)
Lemma root_find args name : Forall name_ok (names args) → NoDup (names args) → name_ok name → Z.of_nat (length args) + 1 < NINODES →
  dfind name (root_entries args ++ replicate (pad_entries args) no_entry) =
    match list_find (.= name) (names args) with
    | Some (j, nm) => Some (j, new_entry nm (Z.max 1 (Z.of_nat j)))
    | None => None
    end.
Proof.
  intros Hok Hnd Hname Hn.
  assert (root_entries args = imap (λ j nm, new_entry nm (Z.max 1 (Z.of_nat j))) (names args)) as Er.
  { unfold root_entries, names. cbn [imap]. do 2 f_equal. apply list_eq. intros i. rewrite !list_lookup_imap, list_lookup_fmap.
    destruct (args !! i); [|done]. cbn. do 2 f_equal. lia. }
  assert (length (names args) = S (S (length args))) as Hlen by (cbn; by rewrite length_fmap).
  assert (∀ j nm, names args !! j = Some nm → matches name (new_entry nm (Z.max 1 (Z.of_nat j))) ↔ nm = name) as Hm.
  { intros j nm Hj. pose proof (Forall_lookup_1 _ _ _ _ Hok Hj) as Hnm. pose proof (lookup_lt_Some _ _ _ Hj). unfold matches.
    rewrite namecmp_new by (apply Hname || apply Hnm). split.
    - intros [_ E]. symmetry. by apply namecmp_eq.
    - intros ->. split; [cbn; rewrite u16_small; unfold NINODES in Hn; lia|apply namecmp_refl, Hname]. }
  unfold dfind. rewrite Er. destruct (list_find (.= name) (names args)) as [[j nm]|] eqn:E.
  - apply list_find_Some in E as (Hj & -> & Hlt). apply list_find_app_Some. left. apply list_find_Some.
    rewrite list_lookup_imap, Hj. split_and!; [done|by apply (Hm j)|]. intros k de Hk Hkj. rewrite list_lookup_imap in Hk.
    destruct (names args !! k) as [nm|] eqn:Ek; [|done]. cbn in Hk. injection Hk as <-. rewrite (Hm k nm Ek). by apply (Hlt k).
  - apply list_find_None in E. apply list_find_None, Forall_app. split.
    + apply Forall_lookup. intros k de Hk. rewrite list_lookup_imap in Hk. destruct (names args !! k) as [nm|] eqn:Ek; [|done].
      cbn in Hk. injection Hk as <-. rewrite (Hm k nm Ek). by eapply (Forall_lookup_1 _ _ _ _ E).
    + apply Forall_replicate. by intros [? _].
Qed.

(** * Reading files *)

(** The calls with which the kernel opens a file by its name and reads all of it. *)
Definition read_file `{KernelImage} (me : nat) (path : list Z) : M kernel (option (list Z)) :=
  begin_op ;;
  ip ← namei me path;
  match ip with
  | None => mret None
  | Some ip =>
      ilock me ip ;;
      x ← get_inode ip;
      '(_, l) ← readi me ip Local 0 (i_size x);
      mret (Some l)
  end.

(** A file system that is mounted while no operation is going on. *)
Record mounted (me : nat) (sb : superblock) (m : Z → block) (refs : gmap Z Z) (s : kernel) : Prop := {
  mo_cache : cinv me s ∅ m ∅;
  mo_sb : k_sb s = sb;
  mo_log : linv (k_log s) (sb_logstart sb) [];
  mo_idle : l_outstanding (k_log s) = 0 ∧ l_committing (k_log s) = false;
  mo_inodes : itable me sb s m refs ∅;
}.

Section read.
Context `{KernelImage} (me : nat) (sb : superblock) (m : Z → block) (refs : gmap Z Z) (s : kernel).
Context (Hm : mounted me sb m refs s) (Hlay : layout (sb_logstart sb)) (Hfs : fs_ok sb m) (Hroot : live sb m ROOTINO).
Context (Hrefs : (size refs + 1 < Z.to_nat NINODE)%nat).

Lemma begin_op_run : ∃ l, begin_op s = Ok (tt, set_k_log l s) ∧ txn me (sb_logstart sb) (set_k_log l s) ∅ m ∅.
Proof.
  clear Hrefs Hfs Hroot. destruct Hm as [Hc _ [L1 L2 L3 L4 L5] [I1 I2] _]. unfold begin_op. rewrite bind_gets, I2, I1, L3. cbn [length].
  destruct (_ >? LOGBLOCKS) eqn:E; [vm_compute in E; done|]. unfold add_int. rewrite decide_True by lia. rewrite bind_ret. unfold upd_log, modify.
  eexists. split; [done|]. split_and!; [by apply (cinv_same me s)|exists []|cbn; lia|exact I2|exact Hlay].
  split_and!; [by constructor|split_and!; [constructor|cbn; lia|constructor]|done].
Qed.

Lemma read_file_run path : 0 ∉ path →
  ∃ s', read_file me (SLASH :: path) s = Ok ((λ n, content m (disk_inode sb m n)) <$> resolve sb m ROOTINO (elements (SLASH :: path)), s').
Proof.
  intros Hz. destruct begin_op_run as (l & E1 & Htx). set (s1 := set_k_log l s) in *. pose proof Hm as [_ Hsb _ _ Hit].
  assert (itable me sb s1 m refs ∅) as Hit1 by (by eapply itable_ext; [..|exact Hit]).
  assert (size (∅ : gset Z) < Z.to_nat NBUF)%nat as Hbuf by (rewrite size_empty; vm_compute; lia).
  destruct (namei_run me (sb_logstart sb) sb s1 m ∅ refs Hsb Htx Hit1 Hfs Hbuf Hrefs (SLASH :: path) 0) as (r & s2 & E2 & Htx2 & Hd2 & W); [set_solver|done|done|].
  change (path_start (SLASH :: path) 0) with ROOTINO in W. unfold read_file. rewrite (bind_Ok_1 _ _ _ _ _ E1), (bind_Ok_1 _ _ _ _ _ E2).
  destruct (resolve sb m ROOTINO (elements (SLASH :: path))) as [n|]; [|destruct W as [-> _]; by exists s2].
  destruct W as (ip & -> & Hit2 & Hn2 & Hl2 & _ & Hsb2). cbn [fmap option_fmap option_map].
  destruct (wp_elim _ _ _ (ilock_wp me _ sb s2 ∅ m _ ∅ ip n Hit2 Hn2 ltac:(set_solver) Htx2 Hsb2 Hbuf (live_type sb m n Hl2)))
    as ([] & s3 & E3 & Hit3 & Htx3 & _ & Hn3).
  destruct (named_entry me sb _ _ _ _ _ _ Hit3 (Hn3 _ _ Hn2)) as (p & x & _ & Hx & Hnx & _ & Hdev & _ & Hv & _ & Hlk).
  rewrite decide_True in Hlk by set_solver. specialize (Hv (proj1 (proj2 Hlk))).
  destruct (on_disk_same sb m x n Hv Hnx Hdev) as (_ & _ & _ & S4 & S5).
  pose proof (S5 (proj1 (fk_file _ _ Hfs n Hl2))) as Hf. pose proof (fo_size _ _ _ Hf) as Hs.
  assert (MAXFILE * BSIZE < 2 ^ 32) as Hmax by apply max_file.
  destruct (wp_elim _ _ _ (readi_wp me _ sb s3 ∅ m ip x 0 (i_size x) Htx3 Hx Hf ltac:(lia) ltac:(lia) ltac:(lia) Hbuf)) as (? & s4 & E4 & -> & _).
  exists s4. rewrite (bind_Ok_1 _ _ _ _ _ E3), (bind_Ok_1 _ _ _ _ _ (get_inode_run _ _ _ Hx)), (bind_Ok_1 _ _ _ _ _ E4).
  rewrite drop_0, take_ge, S4; [done|]. rewrite (length_content sb m x Hf). lia.
Qed.
End read.

(** * The system *)

Section system.
Context `{KernelImage} `{!KernelImageOk} `{KernelText}.

Lemma boot_itab pid m : itab mkfs_sb pid m {[ROOTINO := 1]} ∅ (<[0%nat := root_inode]> inodes0).
Proof.
  assert (∀ i x, <[0%nat := root_inode]> inodes0 !! i = Some x → i = 0%nat ∧ x = root_inode ∨ x = inode0) as Hat.
  { intros [|i] x Hx; [left; by injection Hx|right]. rewrite list_lookup_insert_ne in Hx by done. by apply lookup_replicate in Hx as [-> _]. }
  constructor.
  - done.
  - intros n r [<- <-]%lookup_singleton_Some. lia.
  - intros i x [[_ ->]| ->]%Hat; done.
  - intros i x [[_ ->]| ->]%Hat Hr; done.
  - intros i j x y [[-> ->]| ->]%Hat [[-> ->]| ->]%Hat; done.
  - intros n r [<- <-]%lookup_singleton_Some. by exists 0%nat, root_inode.
  - intros i x [[_ ->]| ->]%Hat; rewrite decide_False by set_solver; done.
Qed.

(** What the scheduler does before it switches to the process. *)
Definition dispatch (i : nat) : M kernel unit := upd_proc i (set_p_state RUNNING).

Lemma mount_state args m s p :
  mkfs_image args m → Z.of_nat (length args) + 1 < NINODES → cinv 0 s ∅ m ∅ →
  k_log s = log0 → k_inode s = <[0%nat := root_inode]> inodes0 → k_proc s !! 0%nat = Some p →
  wp (fsinit 0 ROOTDEV) s (λ _ s', mounted 0 mkfs_sb m {[ROOTINO := 1]} s').
Proof.
  intros Hi Hn Hc El Ei Ep. assert (m (sb_logstart mkfs_sb) = zero_block) as Hz by (by apply (mi_log _ _ Hi)).
  assert (length (l_block (k_log s)) = Z.to_nat LOGBLOCKS) as Hlen by (by rewrite El).
  assert (1 ≤ sb_ninodes mkfs_sb) as Hni by done. assert (sb_magic mkfs_sb = FSMAGIC) as Hmag by done.
  pose proof (fsinit_wp 0 s mkfs_sb m Hc Hlen (mi_sb _ _ Hi) Hmag layout_mkfs Hni Hz (image_fs_ok args m Hi Hn)) as Hw.
  eapply wp_mono; [exact Hw|]. cbv beta. intros [] s' (C1 & C2 & [K1 K2] & C4 & [O1 O2]).
  constructor; [done|done|done|by rewrite O1, O2, El|]. exists p. split; [by rewrite K2|]. rewrite K1, Ei. apply boot_itab.
Qed.

Lemma mount_run args ks r :
  Forall arg_ok args → Z.of_nat (length args) + 1 < NINODES → (Z.of_nat (length args) + 2) mod 64 ≠ 0 →
  nmeta + total (image_files args) ≤ FSSIZE →
  freelist ks = 0 → kernel_end + 400 * PGSIZE ≤ PHYSTOP → disk_ok r →
  ∃ img s s' m, Mkfs.main args image0 = Ok (tt, img) ∧
    (Boot.main r ;; dispatch 0) (set_k_disk (im_disk img) (set_k_mem ks kernel0)) = Ok (tt, s) ∧
    fsinit 0 ROOTDEV s = Ok (tt, s') ∧ mkfs_image args m ∧ mounted 0 mkfs_sb m {[ROOTINO := 1]} s'.
Proof.
  intros A1 A2 A3 A4 B1 B2 B3. destruct (image_run args A1 A2 A3 A4) as (img & E1 & _ & Hi). set (m := disk_block (im_disk img)) in *.
  destruct (boot_run ks (im_disk img) r B1 B2 B3) as (kroot & ks5 & tf & pt & l & kt & ps & t & c & dev & E2 & _).
  set (p := set_p_state RUNNING (init_proc tf pt)).
  set (s := stage ks5 (<[0%nat := p]> boot_procs) (Some 0%nat) 2 (<[0%nat := root_inode]> inodes0) c dev (init_bufs zero_block) (im_disk img)).
  assert (cinv 0 s ∅ m ∅) as Hc by exact (init_cinv 0 s p eq_refl eq_refl eq_refl).
  pose proof (mount_state args m s p Hi A2 Hc eq_refl eq_refl eq_refl) as Hw.
  destruct (wp_unit _ _ _ Hw) as (s' & E3 & Hmo). exists img, s, s', m. split; [exact E1|].
  split; [|split; [exact E3|split; [exact Hi|exact Hmo]]]. rewrite (bind_Ok_1 _ _ _ _ _ E2). reflexivity.
Qed.
End system.

(** What [resolve] says about a name in the root directory of the image. *)
Lemma image_resolve args m name : mkfs_image args m → Z.of_nat (length args) + 1 < NINODES →
  Forall name_ok (names args) → NoDup (names args) → name_ok name →
  resolve mkfs_sb m ROOTINO (elements (SLASH :: name)) = (λ '(j, _), Z.max 1 (Z.of_nat j)) <$> list_find (.= name) (names args).
Proof.
  intros Hi Hn Hok Hnd Hname. rewrite elements_single by done. cbn [resolve]. change (disk_inode mkfs_sb m ROOTINO) with (file_at m ROOTINO).
  rewrite (do_type _ _ _ (mi_root _ _ Hi)). change (T_DIR =? T_DIR) with true. cbv match. rewrite (mi_entries _ _ Hi), root_find by done.
  destruct (list_find (.= name) (names args)) as [[j nm]|] eqn:E; [|done]. cbn. f_equal.
  apply list_find_Some in E as (Hj%lookup_lt_Some & _). cbn in Hj. rewrite length_fmap in Hj. apply u16_small. unfold NINODES in Hn. lia.
Qed.

(** C4: the disk image, the boot sequence and the file system work together.
    [mkfs] is given files with distinct names that fit on the disk.  The machine
    has 400 pages of memory and a disk with the image that [mkfs] wrote.
    Then the kernel boots, the first process is dispatched and mounts the file
    system with [fsinit]; afterwards opening any of the files by its name and
    reading it gives exactly the bytes that [mkfs] was given, and a name
    that was not given is not found. *)
Theorem files_readable `{KernelImage} `{!KernelImageOk} `{KernelText} (args : list arg) (ks : kst) (r : mmio) :
  Forall arg_ok args → Z.of_nat (length args) + 1 < NINODES → (Z.of_nat (length args) + 2) mod 64 ≠ 0 →
  nmeta + total (image_files args) ≤ FSSIZE → Forall name_ok (names args) → NoDup (names args) →
  freelist ks = 0 → kernel_end + 400 * PGSIZE ≤ PHYSTOP → disk_ok r →
  ∃ img s s', Mkfs.main args image0 = Ok (tt, img) ∧
    (Boot.main r ;; dispatch 0) (set_k_disk (im_disk img) (set_k_mem ks kernel0)) = Ok (tt, s) ∧
    fsinit 0 ROOTDEV s = Ok (tt, s') ∧ k_sb s' = mkfs_sb ∧
    (∀ a, a ∈ args → ∃ s'', read_file 0 (SLASH :: fname a) s' = Ok (Some (fdata a), s'')) ∧
    (∀ name, name_ok name → name ∉ names args → ∃ s'', read_file 0 (SLASH :: name) s' = Ok (None, s'')).
Proof.
  intros A1 A2 A3 A4 A5 A6 B1 B2 B3. destruct (mount_run args ks r A1 A2 A3 A4 B1 B2 B3) as (img & s & s' & m & E1 & E2 & E3 & Hi & Hm).
  exists img, s, s'. split; [exact E1|]. split; [exact E2|]. split; [exact E3|]. split; [exact (mo_sb _ _ _ _ _ Hm)|]. clear E1 E2 E3 s.
  assert (∀ name, name_ok name → ∃ s'', read_file 0 (SLASH :: name) s' =
    Ok ((λ n, content m (file_at m n)) <$> ((λ '(j, _), Z.max 1 (Z.of_nat j)) <$> list_find (.= name) (names args)), s'')) as Hread.
  { intros name Hname. rewrite <-(image_resolve args m) by done.
    apply (read_file_run 0 mkfs_sb m {[ROOTINO := 1]} s' Hm layout_mkfs (image_fs_ok args m Hi A2) (root_live args m Hi)); [|apply Hname].
    rewrite map_size_singleton. vm_compute. lia. }
  split.
  - intros a [i Ha]%list_elem_of_lookup.
    assert (names args !! S (S i) = Some (fname a)) as Hj.
    { change (names args !! S (S i)) with ((fname <$> args) !! i). by rewrite list_lookup_fmap, Ha. }
    destruct (Hread (fname a) (Forall_lookup_1 _ _ _ _ A5 Hj)) as [s'' E]. exists s''. rewrite E.
    assert (list_find (.= fname a) (names args) = Some (S (S i), fname a)) as ->.
    { apply list_find_Some. split_and!; [done|done|]. intros k nm Hk Hlt ->.
      pose proof (NoDup_lookup _ _ _ _ A6 Hk Hj). lia. }
    cbn [fmap option_fmap option_map]. replace (Z.max 1 (Z.of_nat (S (S i)))) with (Z.of_nat i + 2) by lia.
    by rewrite (proj2 (proj2 (proj2 (mi_file _ _ Hi i a Ha)))).
  - intros name Hname Hno. destruct (Hread name Hname) as [s'' E]. exists s''. rewrite E.
    assert (list_find (.= name) (names args) = None) as ->; [|done].
    apply list_find_None, Forall_forall. by intros nm Hin ->.
Qed.

(** The two files of {!MkfsSpec} on the machine of {!BootSpec}. *)
Module Cat.
Import Kvm.Roomy BootSpec.Qemu MkfsSpec.TwoFiles.

Lemma name_check name : bool_decide (name ≠ []) && bool_decide (SLASH ∉ name) && bool_decide (0 ∉ name) &&
  bool_decide (Forall (λ b, 0 ≤ b < 256) name) && bool_decide (length name ≤ Z.to_nat DIRSIZ)%nat = true → name_ok name.
Proof. rewrite !andb_true_iff, !bool_decide_eq_true. intros [[[[? ?] ?] ?] ?]. by split_and!. Qed.

Lemma names_ok : Forall name_ok (names args).
Proof. repeat (constructor; [apply name_check; vm_compute; reflexivity|]). constructor. Qed.
Lemma names_nodup : NoDup (names args).
Proof. apply (bool_decide_unpack _). vm_compute. exact I. Qed.
Lemma room : kernel_end + 400 * PGSIZE ≤ PHYSTOP.
Proof. vm_compute. discriminate. Qed.
Lemma disk_fine : disk_ok disk.
Proof. by vm_compute. Qed.
Lemma args_few : Z.of_nat (length args) + 1 < NINODES ∧ (Z.of_nat (length args) + 2) mod 64 ≠ 0.
Proof. done. Qed.

Lemma files_readable_witness : ∃ s' s'', read_file 0 (str "/cat") s' = Ok (Some (str "abcde"), s'').
Proof.
  destruct (files_readable args (KState ∅ 0 ∅) disk args_ok (proj1 args_few) (proj2 args_few) args_fit names_ok names_nodup eq_refl room disk_fine)
    as (img & s & s' & _ & _ & _ & _ & R & _).
  destruct (R _ (list_elem_of_here _ _)) as [s'' E]. exists s', s''. exact E.
Defined.

(** The name "/cat" leads to inode 2, "/dog" nowhere. *)
Lemma namei_resolves_witness : ∃ s r1 s1 r2 s2 ip, namei 0 (str "/cat") s = Ok (r1, s1) ∧ r1 = Some ip ∧ named s1 ip 2 ∧
  namei 0 (str "/dog") s = Ok (r2, s2) ∧ r2 = None.
Proof.
  destruct (mount_run args (KState ∅ 0 ∅) disk args_ok (proj1 args_few) (proj2 args_few) args_fit eq_refl room disk_fine)
    as (img & s0 & s' & m & _ & _ & _ & Hi & Hm).
  destruct (begin_op_run 0 mkfs_sb m {[ROOTINO := 1]} s' Hm layout_mkfs) as (l & _ & Htx). pose proof Hm as [_ Hsb _ _ Hit].
  set (s := set_k_log l s') in *.
  assert (itable 0 mkfs_sb s m {[ROOTINO := 1]} ∅) as Hit1 by (eapply itable_ext; [..|exact Hit]; reflexivity).
  assert (size (∅ : gset Z) < Z.to_nat NBUF)%nat as Hbuf by (rewrite size_empty; vm_compute; lia).
  pose proof (image_fs_ok args m Hi (proj1 args_few)) as Hfs. pose proof (root_live args m Hi) as Hroot.
  assert (∀ name, name_ok name → ∃ r s2, namei 0 (SLASH :: name) s = Ok (r, s2) ∧
    match (λ '(j, _), Z.max 1 (Z.of_nat j)) <$> list_find (.= name) (names args) with
    | Some n => ∃ ip, r = Some ip ∧ named s2 ip n
    | None => r = None
    end) as Hres.
  { intros name Hname. rewrite <-(image_resolve args m name Hi (proj1 args_few) names_ok names_nodup Hname).
    destruct (namei_resolves 0 2 mkfs_sb s m ∅ {[ROOTINO := 1]} (SLASH :: name) 0 Hsb Htx Hit1 Hfs Hbuf) as (r & s2 & E & _ & R).
    - rewrite map_size_singleton. vm_compute. lia.
    - apply not_elem_of_cons. split; [discriminate|apply Hname].
    - exact Hroot.
    - discriminate.
    - exists r, s2. split; [exact E|]. change (path_start (SLASH :: name) 0) with ROOTINO in R.
      destruct (resolve _ _ _ _); [|apply R]. destruct R as (ip & R1 & R2 & _). exists ip. split; [exact R1|exact R2]. }
  destruct (Hres (str "cat")) as (r1 & s1 & E1 & ip & R1 & N1); [apply name_check; vm_compute; reflexivity|].
  destruct (Hres (str "dog")) as (r2 & s2 & E2 & R2); [apply name_check; vm_compute; reflexivity|].
  exists s, r1, s1, r2, s2, ip. split; [exact E1|]. split; [exact R1|]. split; [exact N1|]. split; [exact E2|exact R2].
Defined.
End Cat.
