(* ===== verification/Grep.v ===== *)
(** The [grep] program, [user/grep.c]: the regular-expression matcher and the
    loop that reads a file in pieces and prints the lines that match.

    A NUL-terminated string is the list of its characters, and a pointer into
    it the list of the characters from there on; the character behind the end is
    0.  [match] is a keyword, so the C function of that name is [matchre]. *)

From S2P Require Import Prelude.

Definition CARET : Z := 94.
Definition DOLLAR : Z := 36.
Definition STAR : Z := 42.
Definition PERIOD : Z := 46.
Definition NEWLINE : Z := 10.

(** The character a pointer points to. *)
Definition at0 (p : list Z) : Z := match p with [] => 0 | c :: _ => c end.

(** * The matcher *)

(** The loop of [matchstar]; [here] is [matchhere] with the rest of the
    expression. *)
Definition matchstar (c : Z) (here : list Z → bool) : list Z → bool :=
  fix star (text : list Z) : bool :=
    if here text then true
    else match text with
         | [] => false
         | t :: text' => if (t =? c) || (c =? PERIOD) then star text' else false
         end.

Fixpoint matchhere (re text : list Z) : bool :=
  match re with
  | [] => true
  | c :: re1 =>
      let rest :=
        if (c =? DOLLAR) && (at0 re1 =? 0) then at0 text =? 0
        else match text with
             | [] => false
             | t :: text1 => if (c =? PERIOD) || (c =? t) then matchhere re1 text1 else false
             end in
      match re1 with
      | [] => rest
      | d :: re2 => if d =? STAR then matchstar c (matchhere re2) text else rest
      end
  end.

(** The loop of [match] over the suffixes of the text. *)
Fixpoint match_suffixes (re text : list Z) : bool :=
  if matchhere re text then true
  else match text with
       | [] => false
       | _ :: text' => match_suffixes re text'
       end.

Definition matchre (re text : list Z) : bool :=
  match re with
  | c :: re' => if c =? CARET then matchhere re' text else match_suffixes re text
  | [] => match_suffixes re text
  end.

(** * The loop over the input *)

(** [strchr] of [user/ulib.c]: the offset of the first [c], [None] for 0. *)
Fixpoint strchr (s : list Z) (c : Z) : option nat :=
  match s with
  | [] => None
  | d :: s' => if d =? 0 then None else if d =? c then Some 0%nat else S <$> strchr s' c
  end.

(** The inner loop from [p]: what it writes, and the characters behind the last
    newline. *)
Fixpoint grep_lines (fuel : nat) (pattern p : list Z) : option (list Z * list Z) :=
  match fuel with
  | O => None
  | S fuel' =>
      match strchr p NEWLINE with
      | None => Some ([], p)
      | Some q =>
          '(out, rest) ← grep_lines fuel' pattern (drop (S q) p);
          Some ((if matchre pattern (take q p) then take (S q) p else []) ++ out, rest)
      end
  end.

Definition BUFSIZE : nat := 1024.

(** The outer loop with [buf] in the buffer and [input] still to be read; the
    [i]-th [read] returns at most [sizes i + 1] characters. *)
Fixpoint grep (fuel : nat) (pattern : list Z) (sizes : nat → nat) (buf input : list Z) : option (list Z) :=
  match fuel with
  | O => None
  | S fuel' =>
      let n := Nat.min (Nat.min (S (sizes O)) (BUFSIZE - length buf - 1)) (length input) in
      if (n =? 0)%nat then Some []
      else
        let buf := buf ++ take n input in
        '(out, rest) ← grep_lines (S (length buf)) pattern buf;
        out' ← grep fuel' pattern (λ i, sizes (S i)) rest (drop n input);
        Some (out ++ out')
  end.

(** * What an expression means *)

(** The characters of the expression, with whether a star follows, and whether
    a dollar sign ends it. *)
Fixpoint parse (re : list Z) : list (bool * Z) * bool :=
  match re with
  | [] => ([], false)
  | c :: re1 =>
      match re1 with
      | [] => if c =? DOLLAR then ([], true) else ([(false, c)], false)
      | d :: re2 =>
          if d =? STAR then let '(l, a) := parse re2 in ((true, c) :: l, a)
          else let '(l, a) := parse re1 in ((false, c) :: l, a)
      end
  end.

Definition fits (c t : Z) : Prop := c = PERIOD ∨ c = t.

(** The strings such a sequence stands for. *)
Inductive lang : list (bool * Z) → list Z → Prop :=
  | lang_nil : lang [] []
  | lang_char c l t u : fits c t → lang l u → lang ((false, c) :: l) (t :: u)
  | lang_star c l r u : Forall (fits c) r → lang l u → lang ((true, c) :: l) (r ++ u).

(** The expression matches at the beginning of the text. *)
Definition matches_here (re text : list Z) : Prop :=
  ∃ u v, text = u ++ v ∧ lang (parse re).1 u ∧ ((parse re).2 = true → v = []).

Definition matches_in (re text : list Z) : Prop :=
  match re with
  | c :: re' =>
      if c =? CARET then matches_here re' text else ∃ p q, text = p ++ q ∧ matches_here re q
  | [] => ∃ p q, text = p ++ q ∧ matches_here re q
  end.

(** * The matcher is correct *)

Definition no_nul (s : list Z) : Prop := Forall (λ c, c ≠ 0) s.

Lemma at0_nul s : no_nul s → (at0 s =? 0) = bool_decide (s = []).
Proof. intros Hs. destruct Hs as [|c s Hc _]; [done|]. cbn. by destruct (Z.eqb_spec c 0). Qed.

Lemma fits_dec c t : ((c =? PERIOD) || (c =? t)) = true ↔ fits c t.
Proof. unfold fits. rewrite orb_true_iff, !Z.eqb_eq. done. Qed.

Lemma matchstar_spec c here text :
  matchstar c here text = true ↔ ∃ r q, text = r ++ q ∧ Forall (fits c) r ∧ here q = true.
Proof.
  induction text as [|t text IH]; cbn.
  - split.
    + destruct (here []) eqn:E; [|done]. by exists [], [].
    + intros (r & q & E & _ & Hq). symmetry in E. apply app_nil in E as [-> ->]. by rewrite Hq.
  - destruct (here (t :: text)) eqn:E; [split; [|done]; by exists [], (t :: text)|].
    destruct ((t =? c) || (c =? PERIOD)) eqn:Ec.
    + fold (matchstar c here text). rewrite IH. assert (fits c t) as Hf by (apply fits_dec; by rewrite orb_comm, Z.eqb_sym).
      split.
      * intros (r & q & -> & Hr & Hq). exists (t :: r), q. split_and!; [done|by constructor|done].
      * intros (r & q & Et & Hr & Hq). destruct r as [|t' r]; [cbn in Et; by rewrite <-Et, E in Hq|].
        injection Et as -> ->. apply Forall_cons in Hr as [_ Hr]. by exists r, q.
    + split; [done|]. intros (r & q & Et & Hr & Hq). destruct r as [|t' r]; [cbn in Et; by rewrite <-Et, E in Hq|].
      injection Et as -> ->. apply Forall_cons in Hr as [Hf _]. apply fits_dec in Hf. rewrite orb_comm, Z.eqb_sym in Hf. congruence.
Qed.

Lemma matches_here_char c re text l a :
  parse (c :: re) = ((false, c) :: l, a) → parse re = (l, a) →
  matches_here (c :: re) text ↔ ∃ t text', text = t :: text' ∧ fits c t ∧ matches_here re text'.
Proof.
  intros E1 E2. unfold matches_here. rewrite E1, E2. cbn [fst snd]. split.
  - intros (u & v & -> & Hl & Ha). inversion Hl as [|c' l' t u' Hf Hu|]; subst. exists t, (u' ++ v). split_and!; [done|done|].
    by exists u', v.
  - intros (t & text' & -> & Hf & u & v & -> & Hl & Ha). exists (t :: u), v. split_and!; [done|by constructor|done].
Qed.

Lemma matches_here_star c d re text :
  d = STAR → matches_here (c :: d :: re) text ↔ ∃ r q, text = r ++ q ∧ Forall (fits c) r ∧ matches_here re q.
Proof.
  intros ->. unfold matches_here. cbn [parse]. change (STAR =? STAR) with true. cbv iota. destruct (parse re) as [l a]. cbn [fst snd]. split.
  - intros (u & v & -> & Hl & Ha). inversion Hl as [| |c' l' r u' Hf Hu]; subst. exists r, (u' ++ v).
    split_and!; [by rewrite app_assoc|done|]. by exists u', v.
  - intros (r & q & -> & Hr & u & v & -> & Hl & Ha). exists (r ++ u), v. split_and!; [by rewrite app_assoc|by constructor|done].
Qed.

Lemma parse_char c re :
  (re = [] → c ≠ DOLLAR) → at0 re ≠ STAR → parse (c :: re) = ((false, c) :: (parse re).1, (parse re).2).
Proof.
  intros Hd Hs. destruct re as [|d re]; cbn [parse].
  - destruct (Z.eqb_spec c DOLLAR); [by destruct Hd|done].
  - cbn in Hs. destruct (Z.eqb_spec d STAR); [done|]. by destruct (match re with [] => _ | _ => _ end) as [l a].
Qed.

(** One ordinary character of the expression. *)
Lemma match_char c re text :
  (re = [] → c ≠ DOLLAR) → at0 re ≠ STAR → (∀ text', no_nul text' → matchhere re text' = true ↔ matches_here re text') →
  no_nul text →
  match text with [] => false | t :: text1 => if (c =? PERIOD) || (c =? t) then matchhere re text1 else false end = true ↔
  matches_here (c :: re) text.
Proof.
  intros Hd Hs IH Ht. rewrite (matches_here_char c re text (parse re).1 (parse re).2); [|by apply parse_char|by destruct (parse re)].
  destruct Ht as [|t text1 _ Ht]; [split; [done|by intros (? & ? & ? & _)]|].
  destruct ((c =? PERIOD) || (c =? t)) eqn:Ef.
  - rewrite IH by done. apply fits_dec in Ef. split; [intros Hm; by exists t, text1|]. by intros (t' & x & [= -> ->] & _ & ?).
  - split; [done|]. intros (t' & x & [= -> ->] & Hf & _). apply fits_dec in Hf. congruence.
Qed.

Lemma matchhere_spec n : ∀ re text, (length re < n)%nat → no_nul re → no_nul text →
  matchhere re text = true ↔ matches_here re text.
Proof.
  induction n as [|n IH]; intros re text Hn Hr Ht; [lia|]. destruct re as [|c re1].
  { cbn. split; [|done]. intros _. exists [], text. split_and!; [done|constructor|done]. }
  apply Forall_cons in Hr as [Hc Hr]. cbn in Hn.
  assert (at0 re1 ≠ STAR → (if (c =? DOLLAR) && (at0 re1 =? 0) then at0 text =? 0
      else match text with [] => false | t :: text1 => if (c =? PERIOD) || (c =? t) then matchhere re1 text1 else false end) = true ↔
    matches_here (c :: re1) text) as Hrest.
  { intros Hs. rewrite !at0_nul by done. destruct ((c =? DOLLAR) && bool_decide (re1 = [])) eqn:E.
    - apply andb_true_iff in E as [->%Z.eqb_eq ->%bool_decide_eq_true]. rewrite bool_decide_eq_true. unfold matches_here. cbn.
      split; [intros ->; by exists [], []; split_and!; try done; constructor|].
      intros (u & v & -> & Hl & Ha). inversion Hl. by rewrite Ha.
    - apply match_char; [|done|intros text' Ht'; apply IH; (done || lia)|done]. intros -> ->. done. }
  destruct re1 as [|d re2]; [by apply Hrest|]. cbn [matchhere] in Hrest |- *. destruct (Z.eqb_spec d STAR) as [->|Hds]; [|by apply Hrest].
  rewrite matchstar_spec, matches_here_star by done. apply Forall_cons in Hr as [_ Hr]. cbn in Hn.
  split; intros (r & q & -> & Hf & Hm); exists r, q; (split_and!; [done|done|]); apply Forall_app in Ht as [_ Ht].
  - by apply IH in Hm; [|lia|..].
  - by apply IH; [lia|..].
Qed.

Lemma match_suffixes_spec re text :
  no_nul re → no_nul text → match_suffixes re text = true ↔ ∃ p q, text = p ++ q ∧ matches_here re q.
Proof.
  intros Hr. assert (∀ t, no_nul t → matchhere re t = true ↔ matches_here re t) as Hh by (intros; eapply matchhere_spec; [apply Nat.lt_succ_diag_r|done..]).
  induction text as [|t text IH]; intros Ht; cbn; destruct (matchhere re _) eqn:E.
  - split; [|done]. intros _. apply Hh in E; [|done]. by exists [], [].
  - split; [done|]. intros (p & q & Ep & Hm). symmetry in Ep. apply app_nil in Ep as [-> ->]. apply Hh in Hm; [congruence|done].
  - split; [|done]. intros _. apply Hh in E; [|done]. by exists [], (t :: text).
  - apply Forall_cons in Ht as Ht'. rewrite IH by apply Ht'. split; intros (p & q & Ep & Hm).
    + exists (t :: p), q. by rewrite Ep.
    + destruct p as [|t' p]; [cbn in Ep; subst q; apply Hh in Hm; [congruence|done]|]. injection Ep as -> ->. by exists p, q.
Qed.

Lemma matchre_spec re text : no_nul re → no_nul text → matchre re text = true ↔ matches_in re text.
Proof.
  intros Hr Ht. unfold matchre, matches_in. destruct re as [|c re]; [by apply match_suffixes_spec|].
  destruct (c =? CARET); [|by apply match_suffixes_spec]. apply Forall_cons in Hr as [_ Hr].
  eapply matchhere_spec; [apply Nat.lt_succ_diag_r|done..].
Qed.

(** * The loop is correct *)

(** The lines of a text that end with a newline, and what follows them. *)
Fixpoint lines (s : list Z) : list (list Z) * list Z :=
  match s with
  | [] => ([], [])
  | c :: s' =>
      let '(l, r) := lines s' in
      if c =? NEWLINE then ([] :: l, r)
      else match l with
           | [] => ([], c :: r)
           | x :: l' => ((c :: x) :: l', r)
           end
  end.

(** The matching lines. *)
Definition selected (pattern : list Z) (l : list (list Z)) : list Z :=
  l ≫= λ x, if matchre pattern x then x ++ [NEWLINE] else [].

Lemma strchr_spec s : no_nul s → match strchr s NEWLINE with
  | None => lines s = ([], s)
  | Some q => (q < length s)%nat ∧ lines s = let '(l, r) := lines (drop (S q) s) in (take q s :: l, r)
  end ∧ ∀ q, strchr s NEWLINE = Some q → take (S q) s = take q s ++ [NEWLINE].
Proof.
  induction s as [|c s IH]; intros Hs; [done|]. apply Forall_cons in Hs as [Hc Hs]. cbn. destruct (Z.eqb_spec c 0); [done|].
  destruct (IH Hs) as [IH1 IH2]. destruct (Z.eqb_spec c NEWLINE) as [->|Hn].
  - split; [split; [lia|]|]; [rewrite ?drop_0; by destruct (lines s)|]. by intros q [= <-].
  - destruct (strchr s NEWLINE) as [q|] eqn:E; cbn.
    + destruct IH1 as [Hq IH1]. split; [split; [lia|]|]; [|intros q' [= <-]; cbn; f_equal; by apply IH2].
      rewrite IH1. destruct (lines (drop (S q) s)). done.
    + split; [|done]. by rewrite IH1.
Qed.

Lemma grep_lines_spec fuel pattern : ∀ p, no_nul p → (length p < fuel)%nat →
  grep_lines fuel pattern p = Some (selected pattern (lines p).1, (lines p).2).
Proof.
  induction fuel as [|fuel IH]; intros p Hp Hf; [lia|]. cbn [grep_lines]. destruct (strchr_spec p Hp) as [H1 H2].
  destruct (strchr p NEWLINE) as [q|] eqn:E; [|by rewrite H1]. destruct H1 as [Hq H1].
  rewrite IH; [|by apply Forall_drop|rewrite length_drop; lia]. cbn [mbind option_bind]. rewrite H1, (H2 q eq_refl).
  by destruct (lines (drop (S q) p)) as [l r].
Qed.

(** Reading in pieces gives the same lines. *)
Lemma lines_app s t : lines (s ++ t) =
  let '(l, r) := lines s in let '(l', r') := lines (r ++ t) in (l ++ l', r').
Proof.
  induction s as [|c s IH]; cbn; [by destruct (lines t)|]. rewrite IH. destruct (lines s) as [l r].
  destruct (Z.eqb_spec c NEWLINE) as [->|Hn].
  - by destruct (lines (r ++ t)).
  - destruct l as [|x l]; [|by destruct (lines (r ++ t))]. cbn. destruct (lines (r ++ t)) as [l' r'].
    destruct (Z.eqb_spec c NEWLINE); [done|]. by destruct l'.
Qed.

Lemma lines_rest s : lines (lines s).2 = ([], (lines s).2).
Proof.
  induction s as [|c s IH]; [done|]. cbn. destruct (lines s) as [l r]. cbn in IH. destruct (Z.eqb_spec c NEWLINE) as [->|Hn]; [done|].
  destruct l as [|x l]; [|done]. cbn. rewrite IH. by destruct (Z.eqb_spec c NEWLINE).
Qed.

Lemma lines_no_nul s : no_nul s → no_nul (lines s).2.
Proof.
  induction 1 as [|c s Hc Hs IH]; [constructor|]. cbn. destruct (lines s) as [l r]. cbn in IH. destruct (c =? NEWLINE); [done|].
  destruct l; [by constructor|done].
Qed.

(** What is in the buffer is the beginning of the first line to come. *)
Lemma lines_first buf t x l : lines buf = ([], buf) → (lines (buf ++ t)).1 = x :: l → (length buf ≤ length x)%nat.
Proof.
  revert x l. induction buf as [|c buf IH]; intros x l; cbn; [lia|]. destruct (lines buf) as [lb rb] eqn:Eb.
  destruct (Z.eqb_spec c NEWLINE) as [->|Hn]; [done|]. destruct lb as [|y lb]; [|done]. intros [= ->].
  destruct (lines (buf ++ t)) as [l' r']. destruct l' as [|y l']; [done|]. cbn. intros [= <- <-]. cbn. apply le_n_S. by eapply IH.
Qed.

Lemma grep_spec fuel pattern : ∀ sizes buf input,
  no_nul (buf ++ input) → lines buf = ([], buf) → Forall (λ x, length x < 1023)%nat (lines (buf ++ input)).1 →
  (length input < fuel)%nat → grep fuel pattern sizes buf input = Some (selected pattern (lines (buf ++ input)).1).
Proof.
  induction fuel as [|fuel IH]; intros sizes buf input Hz Hb Hlen Hf; [lia|]. cbn [grep]. cbv zeta.
  set (n := Nat.min (Nat.min (S (sizes O)) (BUFSIZE - length buf - 1)) (length input)).
  destruct (Nat.eqb_spec n 0) as [En|En].
  - assert ((lines (buf ++ input)).1 = []) as ->; [|done]. destruct (decide (input = [])) as [->|Hi]; [by rewrite app_nil_r, Hb|].
    destruct ((lines (buf ++ input)).1) as [|x l] eqn:E; [done|]. pose proof (lines_first buf input x l Hb E).
    apply Forall_cons in Hlen as [Hx _]. destruct input; [done|]. unfold n, BUFSIZE in En. cbn [length] in En. lia.
  - assert (buf ++ input = (buf ++ take n input) ++ drop n input) as Ei by (by rewrite <-app_assoc, take_drop).
    rewrite Ei in Hz, Hlen |- *. set (b := buf ++ take n input) in *. apply Forall_app in Hz as [Hzb Hzd].
    rewrite (grep_lines_spec _ _ b Hzb) by lia. cbn [mbind option_bind].
    rewrite (lines_app b) in Hlen |- *. pose proof (lines_rest b) as Hr. pose proof (lines_no_nul b Hzb) as Hzr.
    destruct (lines b) as [l r]. cbn [fst snd] in *. destruct (lines (r ++ drop n input)) as [l' r'] eqn:El. cbn [fst] in *.
    apply Forall_app in Hlen as [_ Hlen]. rewrite (IH _ r (drop n input)); [|by apply Forall_app|done|by rewrite El|rewrite length_drop; lia].
    cbn [mbind option_bind]. rewrite El. unfold selected. by rewrite bind_app.
Qed.

(** The matcher of [grep] decides the language of the expression, in which
    [.] is any character, a star repeats the character before it any number of times, [^] at the
    beginning and [$] at the end anchor the match; it always
    returns.  And [grep] writes exactly the lines that match, in order, however the input
    is cut into pieces by [read], for input without NUL characters and with lines of less than 1023
    characters. *)
Theorem grep_selects (pattern : list Z) :
  no_nul pattern →
  (∀ text, no_nul text → matchre pattern text = true ↔ matches_in pattern text) ∧
  (∀ sizes input, no_nul input → Forall (λ x, length x < 1023)%nat (lines input).1 →
     grep (S (length input)) pattern sizes [] input = Some (selected pattern (lines input).1)).
Proof.
  intros Hp. split; [intros text Ht; by apply matchre_spec|]. intros sizes input Hz Hl.
  apply (grep_spec (S (length input)) pattern sizes [] input); [done|done|done|lia].
Qed.

(** The expression "^a*b$" on three lines, read two characters at a time. *)
Lemma grep_selects_witness :
  grep 12 [94; 97; 42; 98; 36] (λ _, 1%nat) [] [97; 97; 98; 10; 98; 97; 10; 98; 10; 99; 98] = Some [97; 97; 98; 10; 98; 10].
Proof.
  refine (eq_trans (proj2 (grep_selects [94; 97; 42; 98; 36] _) (λ _, 1%nat) [97; 97; 98; 10; 98; 97; 10; 98; 10; 99; 98] _ _) _).
  - apply (bool_decide_unpack _). vm_compute. done.
  - apply (bool_decide_unpack _). vm_compute. done.
  - apply (bool_decide_unpack _). vm_compute. done.
  - reflexivity.
Defined.
