(* ===== verification/Usys.v ===== *)
(** User programs as programs over system calls: [user/usys.pl] and the calls
    of [user/user.h].

    A program is a tree: it ends, or makes a system call and continues with the
    reply.  What the calls do is up to the kernel the program runs on: [run]
    takes it as a transition function.  A string is the list of its characters
    without the NUL; a buffer that is written by a call is part of the reply. *)

From S2P Require Import Prelude.

Abbreviation cstr := (list Z).

Inductive call :=
  | Cfork
  | Cwait
  | Cpipe
  | Cread (fd n : Z)
  | Cwrite (fd : Z) (buf : list Z)
  | Cclose (fd : Z)
  | Ckill (pid : Z)
  | Cexec (path : cstr) (argv : list cstr)
  | Copen (path : cstr) (mode : Z)
  | Cmknod (path : cstr) (major minor : Z)
  | Cunlink (path : cstr)
  | Cfstat (fd : Z)
  | Clink (old new : cstr)
  | Cmkdir (path : cstr)
  | Cchdir (path : cstr)
  | Cdup (fd : Z)
  | Cgetpid
  | Csbrk (n kind : Z)
  | Cpause (n : Z)
  | Cuptime
  | Csleep (n : Z)
  | Cfreemem.

(** What the kernel returns in [a0] and what it stores in the program's memory:
    the bytes read, the two descriptors of a pipe, the exit status of a child, or
    the fields [dev], [ino], [type], [nlink] and [size] of a [struct stat]. *)
Record reply := Reply { r_ret : Z; r_data : list Z }.

Inductive prog (A : Type) :=
  | Ret (a : A)
  | Call (c : call) (k : reply → prog A)
  | Exit (status : Z)
  | Fault  (* something C leaves undefined *)
  | Hang.  (* the fuel of a loop is used up *)
Arguments Ret {A} a.
Arguments Call {A} c k.
Arguments Exit {A} status.
Arguments Fault {A}.
Arguments Hang {A}.

Fixpoint pbind {A B} (f : A → prog B) (p : prog A) : prog B :=
  match p with
  | Ret a => f a
  | Call c k => Call c (λ r, pbind f (k r))
  | Exit s => Exit s
  | Fault => Fault
  | Hang => Hang
  end.
#[export] Instance prog_ret : MRet prog := @Ret.
#[export] Instance prog_bind : MBind prog := @pbind.

(** * The stubs *)

Definition sys1 (c : call) : prog Z := Call c (λ r, Ret (r_ret r)).
Definition sys2 (c : call) : prog (Z * list Z) := Call c (λ r, Ret (r_ret r, r_data r)).

Definition fork : prog Z := sys1 Cfork.
Definition exit {A} (status : Z) : prog A := Exit status.
Definition wait : prog (Z * list Z) := sys2 Cwait.
Definition pipe : prog (Z * list Z) := sys2 Cpipe.
Definition read (fd n : Z) : prog (Z * list Z) := sys2 (Cread fd n).
Definition write (fd : Z) (buf : list Z) : prog Z := sys1 (Cwrite fd buf).
Definition close (fd : Z) : prog Z := sys1 (Cclose fd).
Definition kill (pid : Z) : prog Z := sys1 (Ckill pid).
Definition exec (path : cstr) (argv : list cstr) : prog Z := sys1 (Cexec path argv).
Definition open (path : cstr) (mode : Z) : prog Z := sys1 (Copen path mode).
Definition mknod (path : cstr) (major minor : Z) : prog Z := sys1 (Cmknod path major minor).
Definition unlink (path : cstr) : prog Z := sys1 (Cunlink path).
Definition fstat (fd : Z) : prog (Z * list Z) := sys2 (Cfstat fd).
Definition link (old new : cstr) : prog Z := sys1 (Clink old new).
Definition mkdir (path : cstr) : prog Z := sys1 (Cmkdir path).
Definition chdir (path : cstr) : prog Z := sys1 (Cchdir path).
Definition dup (fd : Z) : prog Z := sys1 (Cdup fd).
Definition getpid : prog Z := sys1 Cgetpid.
Definition sys_sbrk (n kind : Z) : prog Z := sys1 (Csbrk n kind).
Definition pause (n : Z) : prog Z := sys1 (Cpause n).
Definition uptime : prog Z := sys1 Cuptime.
Definition sleep (n : Z) : prog Z := sys1 (Csleep n).
Definition freemem : prog Z := sys1 Cfreemem.

(** * Loops *)

(** Iterates [body] on the loop variables until it leaves the loop. *)
Fixpoint ploop {A R} (fuel : nat) (body : A → prog (A + R)) (a : A) : prog R :=
  match fuel with
  | O => Hang
  | S fuel => r ← body a; match r with inl a' => ploop fuel body a' | inr r => Ret r end
  end.

(** A loop over a list; [Some r] leaves it. *)
Fixpoint pscan {A R} (l : list A) (f : A → prog (option R)) : prog (option R) :=
  match l with
  | [] => Ret None
  | x :: l => r ← f x; match r with Some v => Ret (Some v) | None => pscan l f end
  end.
Fixpoint pforeach {A} (l : list A) (f : A → prog unit) : prog unit :=
  match l with
  | [] => Ret tt
  | x :: l => f x ;; pforeach l f
  end.

(** * Running a program *)

Inductive outcome (W A : Type) :=
  | Done (a : A) (w : W)
  | Exited (status : Z) (w : W)
  | Faulted
  | Hung.
Arguments Done {W A} a w.
Arguments Exited {W A} status w.
Arguments Faulted {W A}.
Arguments Hung {W A}.

Section run.
Context {W : Type} (sys : call → W → reply * W).

Fixpoint run {A} (p : prog A) (w : W) : outcome W A :=
  match p with
  | Ret a => Done a w
  | Call c k => let '(r, w') := sys c w in run (k r) w'
  | Exit s => Exited s w
  | Fault => Faulted
  | Hang => Hung
  end.

Lemma run_bind {A B} (p : prog A) (f : A → prog B) w :
  run (p ≫= f) w = match run p w with Done a w' => run (f a) w' | Exited s w' => Exited s w' | Faulted => Faulted | Hung => Hung end.
Proof.
  change (p ≫= f) with (pbind f p). revert w.
  induction p as [a|c k IH|s| |]; intros w; cbn; [done| |done..]. destruct (sys c w) as [r w']. apply IH.
Qed.

Lemma run_bind_done {A B} (p : prog A) (f : A → prog B) w a w' : run p w = Done a w' → run (p ≫= f) w = run (f a) w'.
Proof. intros E. by rewrite run_bind, E. Qed.
Lemma run_bind_exited {A B} (p : prog A) (f : A → prog B) w s w' : run p w = Exited s w' → run (p ≫= f) w = Exited s w'.
Proof. intros E. by rewrite run_bind, E. Qed.

Lemma run_sys1 {B} c (f : Z → prog B) w r w' : sys c w = (r, w') → run (sys1 c ≫= f) w = run (f (r_ret r)) w'.
Proof. intros E. rewrite run_bind. cbn. by rewrite E. Qed.
Lemma run_sys2 {B} c (f : Z * list Z → prog B) w r w' : sys c w = (r, w') → run (sys2 c ≫= f) w = run (f (r_ret r, r_data r)) w'.
Proof. intros E. rewrite run_bind. cbn. by rewrite E. Qed.
End run.
