(* ===== verification/Ulib.v ===== *)
(** The C library of user programs: [user/ulib.c] and [user/printf.c].

    Routines that only read strings are functions on lists of characters;
    those that write to memory act on {!Mem}.  [strchr] is in {!Grep}, next
    to the program that uses it. *)

From S2P Require Import Prelude Riscv Mem Str Grep Usys.

Module Ulib.

(** * ulib.c *)

(** [start]: wrapper so that it's OK if main() does not call exit(). *)
Definition start (main : list cstr → prog Z) (argv : list cstr) : prog unit :=
  r ← main argv;
  exit r.

(** Copies the string [t] with its NUL; [fuel] bounds its length. *)
Fixpoint strcpy (fuel : nat) (m : memory) (s t : Z) : option memory :=
  match fuel with
  | O => None
  | S fuel =>
      let c := ld8 m t in
      let m := st8 m s c in
      if c =? 0 then Some m else strcpy fuel m (s + 1) (t + 1)
  end.

Fixpoint strcmp (p q : cstr) : Z :=
  match p, q with
  | c :: p', d :: q' => if negb (c =? 0) && (c =? d) then strcmp p' q' else u8 c - u8 d
  | _, _ => u8 (at0 p) - u8 (at0 q)
  end.

Definition strlen (s : cstr) : Z := u32 (Z.of_nat (length s)).

Fixpoint memset_loop (m : memory) (cdst c : Z) (n : nat) : memory :=
  match n with
  | O => m
  | S n' => memset_loop (st8 m cdst c) (cdst + 1) c n'
  end.
Definition memset (m : memory) (dst c n : Z) : memory := memset_loop m dst c (Z.to_nat n).

Fixpoint memmove_up (m : memory) (dst src : Z) (n : nat) : memory :=
  match n with
  | O => m
  | S n' => memmove_up (st8 m dst (ld8 m src)) (dst + 1) (src + 1) n'
  end.
Fixpoint memmove_down (m : memory) (dst src : Z) (n : nat) : memory :=
  match n with
  | O => m
  | S n' => memmove_down (st8 m (dst - 1) (ld8 m (src - 1))) (dst - 1) (src - 1) n'
  end.
Definition memmove (m : memory) (vdst vsrc n : Z) : memory :=
  if vdst <? vsrc then memmove_up m vdst vsrc (Z.to_nat n)
  else memmove_down m (vdst + n) (vsrc + n) (Z.to_nat n).

Fixpoint memcmp (p1 p2 : list Z) (n : nat) : Z :=
  match n with
  | O => 0
  | S n' => if negb (at0 p1 =? at0 p2) then at0 p1 - at0 p2 else memcmp (drop 1 p1) (drop 1 p2) n'
  end.

(** The count of [memmove] is an [int]. *)
Definition memcpy (m : memory) (dst src n : Z) : memory := memmove m dst src (i32 n).

(** [int n = n*10 + *s++ - '0']; a result out of range is undefined in C and
    wraps here. *)
Fixpoint atoi_loop (n : Z) (s : cstr) : Z :=
  match s with
  | [] => n
  | c :: s' => if (48 <=? c) && (c <=? 57) then atoi_loop (i32 (n * 10 + c - 48)) s' else n
  end.
Definition atoi (s : cstr) : Z := atoi_loop 0 s.

(** The loop of [gets]; [buf] holds what is in the buffer. *)
Fixpoint gets_loop (n : nat) (buf : cstr) : prog cstr :=
  match n with
  | O => Ret buf
  | S n' =>
      '(cc, l) ← read 0 1;
      if cc <? 1 then Ret buf
      else
        let c := at0 l in
        let buf := buf ++ [c] in
        if (c =? 10) || (c =? 13) then Ret buf else gets_loop n' buf
  end.
Definition gets (max : Z) : prog cstr := gets_loop (Z.to_nat (max - 1)) [].

(** The [struct stat] of a path. *)
Definition stat (n : cstr) : prog (Z * list Z) :=
  fd ← open n 0;
  if fd <? 0 then Ret (-1, [])
  else
    '(r, st) ← fstat fd;
    close fd ;;
    Ret (r, st).

(** The modes of [sys_sbrk], from [kernel/vm.h]. *)
Definition SBRK_EAGER : Z := 1.
Definition SBRK_LAZY : Z := 2.
Definition sbrk (n : Z) : prog Z := sys_sbrk n SBRK_EAGER.
Definition sbrklazy (n : Z) : prog Z := sys_sbrk n SBRK_LAZY.

(** * printf.c *)

(** Arguments of [printf]. *)
Inductive uarg :=
  | Int (x : Z)
  | Chars (s : option cstr).

Definition putc (fd c : Z) : prog unit := write fd [u8 c] ;; Ret tt.

(** digits[] = "0123456789ABCDEF" *)
Definition digit (d : Z) : Z := if d <? 10 then 48 + d else 55 + d.

(** The [do ... while] loop of [printint]; [buf] holds [buf[0..i)], last
    character first, and [n] is what is left of the 20 characters. *)
Fixpoint printint_digits (n : nat) (base x : Z) (buf : list Z) : option (list Z) :=
  match n with
  | O => None
  | S n =>
      let buf := digit (x mod base) :: buf in
      if x / base =? 0 then Some buf else printint_digits n base (x / base) buf
  end.

Definition printint (fd xx base : Z) (sgn : bool) : prog unit :=
  let neg := sgn && (xx <? 0) in
  let x := if neg then u64 (- xx) else u64 xx in
  match printint_digits 20 base x [] with
  | None => Fault
  | Some buf =>
      if neg then
        if (length buf <? 20)%nat then pforeach (45 :: buf) (putc fd) else Fault
      else pforeach buf (putc fd)
  end.

Definition printptr (fd x : Z) : prog unit :=
  putc fd 48 ;;
  putc fd 120 ;;
  pforeach (zseq 0 16) (λ i, putc fd (digit (Z.shiftr (u64 (Z.shiftl x (4 * i))) 60))).

(** The next argument of [printf]. *)
Definition with_int (ap : list uarg) (k : Z → list uarg → prog unit) : prog unit :=
  match ap with Int x :: ap => k x ap | _ => Fault end.

Definition i64 (x : Z) : Z := (x + 2 ^ 63) mod 2 ^ 64 - 2 ^ 63.

Definition null_str : cstr := [40; 110; 117; 108; 108; 41].

(** [state] is [true] behind a per cent sign. *)
Fixpoint vprintf (fd : Z) (state : bool) (fmt : cstr) (ap : list uarg) : prog unit :=
  match fmt with
  | [] => Ret tt
  | c0 :: rest =>
      if negb state then
        if c0 =? 37 then vprintf fd true rest ap
        else putc fd c0 ;; vprintf fd false rest ap
      else
        let c1 := at0 rest in
        let c2 := if c1 =? 0 then 0 else at0 (drop 1 rest) in
        let num conv base sgn := with_int ap (λ x ap, printint fd (conv x) base sgn ;; vprintf fd false rest ap) in
        let num1 base sgn := with_int ap (λ x ap, printint fd (i64 x) base sgn ;;
          match rest with _ :: rest => vprintf fd false rest ap | [] => Ret tt end) in
        let num2 base sgn := with_int ap (λ x ap, printint fd (i64 x) base sgn ;;
          match rest with _ :: _ :: rest => vprintf fd false rest ap | _ => Ret tt end) in
        if c0 =? 100 then num i32 10 true
        else if (c0 =? 108) && (c1 =? 100) then num1 10 true
        else if (c0 =? 108) && (c1 =? 108) && (c2 =? 100) then num2 10 true
        else if c0 =? 117 then num u32 10 false
        else if (c0 =? 108) && (c1 =? 117) then num1 10 false
        else if (c0 =? 108) && (c1 =? 108) && (c2 =? 117) then num2 10 false
        else if c0 =? 120 then num u32 16 false
        else if (c0 =? 108) && (c1 =? 120) then num1 16 false
        else if (c0 =? 108) && (c1 =? 108) && (c2 =? 120) then num2 16 false
        else if c0 =? 112 then with_int ap (λ x ap, printptr fd (u64 x) ;; vprintf fd false rest ap)
        else if c0 =? 99 then with_int ap (λ x ap, putc fd (u32 x) ;; vprintf fd false rest ap)
        else if c0 =? 115 then
          match ap with
          | Chars s :: ap => pforeach (default null_str s) (putc fd) ;; vprintf fd false rest ap
          | _ => Fault
          end
        else if c0 =? 37 then putc fd 37 ;; vprintf fd false rest ap
        else putc fd 37 ;; putc fd c0 ;; vprintf fd false rest ap
  end.

Definition fprintf (fd : Z) (fmt : cstr) (ap : list uarg) : prog unit := vprintf fd false fmt ap.
Definition printf (fmt : cstr) (ap : list uarg) : prog unit := vprintf 1 false fmt ap.
End Ulib.
