(* ===== verification/Uio.v ===== *)
(** What a program sees of the kernel when it reads and writes: the interface
    {!io_kernel}, against which the user programs are verified, a kernel that
    implements it, and the output of [printf].

    A descriptor is a stream.  A [read] may return any part of what is left of
    it, so a program that is correct here does not depend on how the kernel,
    a pipe or the console cuts its input. *)

From S2P Require Import Prelude Riscv Mem Str Grep Usys Ulib.
Import Ulib.

(** * The interface *)

Record io := Io {
  i_in : gmap Z (list Z);  (* what is left to read on a descriptor *)
  i_out : gmap Z (list Z);  (* what has been written to it *)
  i_files : gmap cstr (list Z);  (* the files that can be opened *)
}.
Definition set_in (fd : Z) (l : list Z) (s : io) : io := Io (<[fd := l]> (i_in s)) (i_out s) (i_files s).
Definition set_out (fd : Z) (l : list Z) (s : io) : io := Io (i_in s) (<[fd := l]> (i_out s)) (i_files s).
Definition close_in (fd : Z) (s : io) : io := Io (delete fd (i_in s)) (i_out s) (i_files s).

Class io_kernel {W : Type} (sys : call → W → reply * W) (view : W → io) : Prop := {
  io_read w fd n l : i_in (view w) !! fd = Some l → 0 < n →
    ∃ (k : nat) w', sys (Cread fd n) w = (Reply (Z.of_nat k) (take k l), w') ∧ Z.of_nat k ≤ n ∧ (k ≤ length l)%nat ∧ (k = 0%nat → l = []) ∧
      view w' = set_in fd (drop k l) (view w);
  io_write w fd l o : i_out (view w) !! fd = Some o →
    ∃ w', sys (Cwrite fd l) w = (Reply (Z.of_nat (length l)) [], w') ∧ view w' = set_out fd (o ++ l) (view w);
  io_open w path l : i_files (view w) !! path = Some l → (size (i_in (view w)) + size (i_out (view w)) < 16)%nat →
    ∃ fd w', sys (Copen path 0) w = (Reply fd [], w') ∧ 0 ≤ fd ∧ i_in (view w) !! fd = None ∧ i_out (view w) !! fd = None ∧
      view w' = set_in fd l (view w);
  io_noent w path : i_files (view w) !! path = None → ∃ w', sys (Copen path 0) w = (Reply (-1) [], w') ∧ view w' = view w;
  io_close w fd l : i_in (view w) !! fd = Some l → i_out (view w) !! fd = None →
    ∃ w', sys (Cclose fd) w = (Reply 0 [], w') ∧ view w' = close_in fd (view w);
}.

(** * Output *)

Section output.
Context {W : Type} {sys : call → W → reply * W} {view : W → io} `{!io_kernel sys view}.

(** [p] returns [a] and writes [l] to [fd], and that is all that can be seen. *)
Definition emits {A} (p : prog A) (a : A) (fd : Z) (l : list Z) : Prop :=
  ∀ w o, i_out (view w) !! fd = Some o → ∃ w', run sys p w = Done a w' ∧ view w' = set_out fd (o ++ l) (view w).

Lemma set_out_out fd l s : i_out (set_out fd l s) !! fd = Some l.
Proof. apply lookup_insert_eq. Qed.
Lemma set_out_twice fd l l' s : set_out fd l' (set_out fd l s) = set_out fd l' s.
Proof. unfold set_out. cbn. by rewrite insert_insert_eq. Qed.
Lemma set_out_same fd l s : i_out s !! fd = Some l → set_out fd l s = s.
Proof. intros E. unfold set_out. rewrite insert_id by done. by destruct s. Qed.

Lemma set_in_twice fd l l' s : set_in fd l' (set_in fd l s) = set_in fd l' s.
Proof. unfold set_in. cbn. by rewrite insert_insert_eq. Qed.
Lemma set_in_same fd l s : i_in s !! fd = Some l → set_in fd l s = s.
Proof. intros E. unfold set_in. rewrite insert_id by done. by destruct s. Qed.
Lemma set_in_in fd l s : i_in (set_in fd l s) !! fd = Some l.
Proof. apply lookup_insert_eq. Qed.
Lemma set_out_in fd l fd' l' s : set_out fd l (set_in fd' l' s) = set_in fd' l' (set_out fd l s).
Proof. done. Qed.
Lemma close_set_in fd l s : i_in s !! fd = None → close_in fd (set_in fd l s) = s.
Proof. intros E. unfold close_in, set_in. cbn. rewrite delete_insert_id by done. by destruct s. Qed.

Lemma emits_ret {A} (a : A) fd : emits (Ret a) a fd [].
Proof. intros w o Ho. exists w. split; [done|]. by rewrite app_nil_r, set_out_same. Qed.

Lemma emits_bind {A B} (p : prog A) (f : A → prog B) a b fd l l' :
  emits p a fd l → emits (f a) b fd l' → emits (p ≫= f) b fd (l ++ l').
Proof.
  intros Hp Hf w o Ho. destruct (Hp w o Ho) as (w1 & E1 & V1). destruct (Hf w1 (o ++ l)) as (w2 & E2 & V2).
  { rewrite V1. apply set_out_out. }
  exists w2. split; [by rewrite (run_bind_done _ _ _ _ _ _ E1)|]. by rewrite V2, V1, set_out_twice, app_assoc.
Qed.

Lemma emits_write fd l : emits (write fd l) (Z.of_nat (length l)) fd l.
Proof.
  intros w o Ho. destruct (io_write w fd l o Ho) as (w' & E & V). exists w'. split; [|exact V]. cbn. by rewrite E.
Qed.

Lemma emits_foreach {A} (l : list A) f g fd : (∀ x, x ∈ l → emits (f x) tt fd (g x)) → emits (pforeach l f) tt fd (concat (g <$> l)).
Proof.
  induction l as [|x l IH]; intros H; [apply emits_ret|]. cbn. eapply emits_bind; [apply H; left|]. apply IH. intros y Hy. apply H. by right.
Qed.

(** Characters are bytes. *)
Definition bytes (l : list Z) : Prop := Forall (λ c, 0 ≤ c < 256) l.

Lemma emits_putc fd c : 0 ≤ c < 256 → emits (putc fd c) tt fd [c].
Proof.
  intros Hc. unfold putc. rewrite u8_small by done. eapply (emits_bind _ _ _ _ _ [c] []); [apply emits_write|apply emits_ret].
Qed.

Lemma emits_chars fd l : bytes l → emits (pforeach l (putc fd)) tt fd l.
Proof.
  intros Hl. assert (concat ((λ c, [c]) <$> l) = l) as E by (clear; induction l as [|c l IH]; cbn; [done|by rewrite IH]).
  rewrite <-E at 2. apply emits_foreach. intros c Hc. apply emits_putc. by eapply (proj1 (Forall_forall _ _) Hl).
Qed.

(** ** Input *)

(** One [read], as a program uses it. *)
Lemma run_read {B} fd n (f : Z * list Z → prog B) w l : i_in (view w) !! fd = Some l → 0 < n →
  ∃ (k : nat) w', run sys (read fd n ≫= f) w = run sys (f (Z.of_nat k, take k l)) w' ∧ Z.of_nat k ≤ n ∧ (k ≤ length l)%nat ∧
    (k = 0%nat → l = []) ∧ view w' = set_in fd (drop k l) (view w).
Proof.
  intros Hl Hn. destruct (io_read w fd n l Hl Hn) as (k & w' & E & H1 & H2 & H3 & V). exists k, w'.
  split; [by rewrite (run_sys2 _ _ _ _ _ _ E)|done].
Qed.

Lemma run_emits {A B} (p : prog A) (f : A → prog B) a fd l w o : emits p a fd l → i_out (view w) !! fd = Some o →
  ∃ w', run sys (p ≫= f) w = run sys (f a) w' ∧ view w' = set_out fd (o ++ l) (view w).
Proof. intros Hp Ho. destruct (Hp w o Ho) as (w' & E & V). exists w'. split; [by rewrite (run_bind_done _ _ _ _ _ _ E)|done]. Qed.

(** ** Numbers *)

Definition value (base : Z) (ds : list Z) : Z := foldl (λ v d, v * base + d) 0 ds.

Lemma value_snoc base ds d : value base (ds ++ [d]) = value base ds * base + d.
Proof. unfold value. by rewrite foldl_app. Qed.

(** The digits of [printint] denote the number; there are at most [n]. *)
Lemma printint_digits_spec n base : ∀ x buf, 2 ≤ base ≤ 16 → (0 < n)%nat → 0 ≤ x < base ^ Z.of_nat n →
  ∃ ds, printint_digits n base x buf = Some ((digit <$> ds) ++ buf) ∧ value base ds = x ∧ Forall (λ d, 0 ≤ d < base) ds ∧
    (length ds ≤ n)%nat ∧ ds ≠ [].
Proof.
  induction n as [|n IH]; intros x buf Hb Hn Hx; [lia|]. cbn [printint_digits].
  pose proof (Z.div_mod x base ltac:(lia)) as Hdm. pose proof (Z.mod_pos_bound x base ltac:(lia)) as Hm.
  destruct (Z.eqb_spec (x / base) 0) as [E|E].
  - exists [x mod base]. split_and!; [done| |by apply Forall_singleton|cbn; lia|done]. unfold value. cbn. lia.
  - assert (0 ≤ x / base) by (apply Z.div_pos; lia).
    assert (x / base < base ^ Z.of_nat n) as Hlt.
    { apply Z.div_lt_upper_bound; [lia|]. rewrite <-Z.pow_succ_r, <-Nat2Z.inj_succ by lia. lia. }
    destruct n as [|n]; [cbn in Hlt; lia|].
    destruct (IH (x / base) (digit (x mod base) :: buf)) as (ds & E1 & V & F & L & Ne); [done|lia|lia|].
    exists (ds ++ [x mod base]). split_and!.
    + rewrite E1, fmap_app, <-app_assoc. done.
    + rewrite value_snoc, V. lia.
    + apply Forall_app. split; [done|by apply Forall_singleton].
    + rewrite length_app. cbn. lia.
    + by destruct ds.
Qed.

(** The decimal notation of an integer. *)
Definition decimal (x : Z) : cstr :=
  (if x <? 0 then [45] else []) ++ default [] (printint_digits 20 10 (Z.abs x) []).

Lemma udigit_byte d : 0 ≤ d < 16 → 0 ≤ digit d < 256.
Proof. intros Hd. unfold digit. destruct (Z.ltb_spec d 10); lia. Qed.

Lemma emits_int fd x : - 2 ^ 63 ≤ x < 2 ^ 63 → emits (printint fd x 10 true) tt fd (decimal x).
Proof.
  intros Hx. unfold printint, decimal. cbn [andb].
  assert ((if x <? 0 then u64 (- x) else u64 x) = Z.abs x) as ->.
  { destruct (Z.ltb_spec x 0); rewrite u64_small by lia; lia. }
  destruct (printint_digits_spec (if x <? 0 then 19 else 20) 10 (Z.abs x) []) as (ds & E & _ & F & L & _);
    [lia|destruct (x <? 0); lia|destruct (Z.ltb_spec x 0); [split; [lia|]; change (10 ^ Z.of_nat 19) with 10000000000000000000; lia|
      split; [lia|]; change (10 ^ Z.of_nat 20) with 100000000000000000000; lia]|].
  assert (printint_digits 20 10 (Z.abs x) [] = Some (digit <$> ds)) as ->.
  { rewrite app_nil_r in E. destruct (x <? 0); [|exact E].
    assert (∀ n m base y buf r, (n ≤ m)%nat → printint_digits n base y buf = Some r → printint_digits m base y buf = Some r) as Hmono.
    { clear. intros n. induction n as [|n IH]; intros m base y buf r Hm E; [done|]. destruct m as [|m]; [lia|].
      cbn in *. destruct (y / base =? 0); [done|]. apply (IH m); [lia|done]. }
    by apply (Hmono 19%nat 20%nat); [lia|]. }
  assert (bytes (digit <$> ds)) as Hb.
  { apply Forall_fmap. eapply Forall_impl; [exact F|]. intros d Hd. cbv beta in Hd. apply udigit_byte. lia. }
  cbn [default from_option]. destruct (Z.ltb_spec x 0) as [Hneg|Hpos].
  - rewrite length_fmap. rewrite (proj2 (Nat.ltb_lt (length ds) 20)) by lia.
    apply emits_chars. by constructor.
  - by apply emits_chars.
Qed.

(** ** Formats *)

(** A format, piece by piece: text without a per cent sign, [%d] and [%s]. *)
Inductive piece :=
  | Text (l : cstr)
  | Num (x : Z)
  | Word (l : cstr).
Definition piece_fmt (p : piece) : cstr := match p with Text l => l | Num _ => [37; 100] | Word _ => [37; 115] end.
Definition piece_args (p : piece) : list uarg := match p with Text _ => [] | Num x => [Int x] | Word l => [Chars (Some l)] end.
Definition piece_text (p : piece) : list Z := match p with Text l => l | Num x => decimal x | Word l => l end.
Definition piece_ok (p : piece) : Prop :=
  match p with Text l => Forall (λ c, 0 ≤ c < 256 ∧ c ≠ 37) l | Num x => - 2 ^ 31 ≤ x < 2 ^ 31 | Word l => bytes l end.

Lemma emits_text fd l fmt ap m : Forall (λ c, 0 ≤ c < 256 ∧ c ≠ 37) l → emits (vprintf fd false fmt ap) tt fd m →
  emits (vprintf fd false (l ++ fmt) ap) tt fd (l ++ m).
Proof.
  intros Hl Hm. induction Hl as [|c l [Hc Hn] Hl IH]; [done|].
  cbn [app vprintf negb]. rewrite (proj2 (Z.eqb_neq c 37) Hn).
  apply (emits_bind (putc fd c) (λ _, vprintf fd false (l ++ fmt) ap) tt tt fd [c] (l ++ m)); [by apply emits_putc|exact IH].
Qed.

Lemma emits_vprintf fd ps : Forall piece_ok ps →
  emits (vprintf fd false (concat (piece_fmt <$> ps)) (concat (piece_args <$> ps))) tt fd (concat (piece_text <$> ps)).
Proof.
  induction 1 as [|p ps Hp Hps IH]; [apply emits_ret|]. destruct p as [l|x|l]; cbn in Hp.
  - by apply emits_text.
  - apply (emits_bind (printint fd (i32 x) 10 true) (λ _, vprintf fd false _ _) tt tt fd (decimal x)); [|exact IH].
    rewrite i32_small by done. apply emits_int. lia.
  - apply (emits_bind (pforeach l (putc fd)) (λ _, vprintf fd false _ _) tt tt fd l); [|exact IH]. by apply emits_chars.
Qed.

Lemma emits_printf ps fmt ap l : Forall piece_ok ps → fmt = concat (piece_fmt <$> ps) → ap = concat (piece_args <$> ps) →
  l = concat (piece_text <$> ps) → emits (printf fmt ap) tt 1 l.
Proof. intros Hps -> -> ->. by apply emits_vprintf. Qed.
Lemma emits_fprintf fd ps fmt ap l : Forall piece_ok ps → fmt = concat (piece_fmt <$> ps) → ap = concat (piece_args <$> ps) →
  l = concat (piece_text <$> ps) → emits (fprintf fd fmt ap) tt fd l.
Proof. intros Hps -> -> ->. by apply emits_vprintf. Qed.
End output.

(** ** Reading a number back *)

Lemma atoi_loop_spec ds : ∀ n, 0 ≤ n → Forall (λ d, 0 ≤ d < 10) ds → foldl (λ v d, v * 10 + d) n ds < 2 ^ 31 →
  atoi_loop n (digit <$> ds) = foldl (λ v d, v * 10 + d) n ds.
Proof.
  induction ds as [|d ds IH]; intros n Hn Hd Hlt; [done|]. apply Forall_cons in Hd as [Hd Hds]. cbn in Hlt |- *.
  assert (∀ v, 0 ≤ v → v ≤ foldl (λ v d, v * 10 + d) v ds) as Hge.
  { clear -Hds. induction Hds as [|e ds He Hds IH]; intros v Hv; cbn; [lia|]. transitivity (v * 10 + e); [lia|]. apply IH. lia. }
  specialize (Hge (n * 10 + d)). unfold digit at 1 2 3. destruct (Z.ltb_spec d 10); [|lia].
  replace ((48 <=? 48 + d) && (48 + d <=? 57)) with true by lia.
  replace (n * 10 + (48 + d) - 48) with (n * 10 + d) by lia. rewrite i32_small by lia. apply IH; [lia|done|done].
Qed.

Lemma decimal_digits x : 0 ≤ x < 2 ^ 64 → ∃ ds, decimal x = digit <$> ds ∧ value 10 ds = x ∧ Forall (λ d, 0 ≤ d < 10) ds ∧ (length ds ≤ 20)%nat.
Proof.
  intros Hx. destruct (printint_digits_spec 20 10 x []) as (ds & E & V & F & L & _); [lia|lia| |].
  { split; [lia|]. change (10 ^ Z.of_nat 20) with 100000000000000000000. lia. }
  exists ds. unfold decimal. replace (x <? 0) with false by lia. rewrite Z.abs_eq, E by lia. cbn. by rewrite app_nil_r.
Qed.

Lemma atoi_decimal x : 0 ≤ x < 2 ^ 31 → atoi (decimal x) = x.
Proof.
  intros Hx. destruct (decimal_digits x) as (ds & -> & V & F & _); [lia|]. unfold atoi. rewrite atoi_loop_spec; [exact V|lia|exact F|].
  change (value 10 ds < 2 ^ 31). lia.
Qed.

(** * A kernel that implements the interface *)

(** The [i]-th [read] returns at most [sizes i + 1] characters. *)
Record sim := Sim { s_io : io; s_sizes : nat → nat; s_reads : nat }.

Definition used (s : io) : gset Z := dom (i_in s) ∪ dom (i_out s).
Definition lowest (s : io) : option Z := snd <$> list_find (λ fd, fd ∉ used s) (zseq 0 16).

Definition sim_sys (c : call) (w : sim) : reply * sim :=
  let s := s_io w in
  let at_io s' := Sim s' (s_sizes w) (s_reads w) in
  let fail := (Reply (-1) [], w) in
  match c with
  | Cread fd n =>
      match i_in s !! fd with
      | Some l =>
          let k := Nat.min (Nat.min (S (s_sizes w (s_reads w))) (Z.to_nat n)) (length l) in
          (Reply (Z.of_nat k) (take k l), Sim (set_in fd (drop k l) s) (s_sizes w) (S (s_reads w)))
      | None => fail
      end
  | Cwrite fd l =>
      match i_out s !! fd with
      | Some o => (Reply (Z.of_nat (length l)) [], at_io (set_out fd (o ++ l) s))
      | None => fail
      end
  | Copen path mode =>
      match i_files s !! path, lowest s with
      | Some l, Some fd => (Reply fd [], at_io (set_in fd l s))
      | _, _ => fail
      end
  | Cclose fd => (Reply 0 [], at_io (close_in fd s))
  | _ => fail
  end.

Lemma lowest_free s : (size (i_in s) + size (i_out s) < 16)%nat → ∃ fd, lowest s = Some fd ∧ 0 ≤ fd ∧ i_in s !! fd = None ∧ i_out s !! fd = None.
Proof.
  intros Hs. unfold lowest. destruct (list_find (λ fd, fd ∉ used s) (zseq 0 16)) as [[i fd]|] eqn:E.
  - apply list_find_Some in E as (Hi & Hn & _). exists fd. split; [done|]. apply list_elem_of_lookup_2, elem_of_zseq in Hi.
    unfold used in Hn. apply not_elem_of_union in Hn as [H1 H2]. split_and!; [lia|by apply not_elem_of_dom|by apply not_elem_of_dom].
  - exfalso. apply list_find_None in E. assert (list_to_set (zseq 0 16) ⊆ used s) as Hsub.
    { intros fd Hfd%elem_of_list_to_set. rewrite Forall_forall in E. specialize (E fd Hfd). by apply dec_stable. }
    apply subseteq_size in Hsub. rewrite size_list_to_set, length_zseq in Hsub by apply NoDup_zseq.
    pose proof (size_union_alt (dom (i_in s)) (dom (i_out s))) as Hu. fold (used s) in Hu. rewrite Hu in Hsub.
    assert (size (dom (i_out s) ∖ dom (i_in s)) ≤ size (dom (i_out s)))%nat as Hle by (apply subseteq_size; set_solver).
    rewrite !size_dom in *. lia.
Qed.

#[export] Instance sim_kernel : io_kernel sim_sys s_io.
Proof.
  split.
  - intros w fd n l Hl Hn. unfold sim_sys. rewrite Hl. cbv zeta. do 2 eexists. split; [done|]. split_and!; [lia|lia| |done].
    intros E. destruct l; [done|]. cbn [length] in E. lia.
  - intros w fd l o Ho. cbn. rewrite Ho. by eexists.
  - intros w path l Hf Hr. unfold sim_sys. rewrite Hf. destruct (lowest_free _ Hr) as (fd & -> & H1 & H2 & H3). by do 2 eexists.
  - intros w path Hf. cbn. rewrite Hf. by eexists.
  - intros w fd l _ _. by eexists.
Qed.
