(* ===== verification/Uprogs.v ===== *)
(** The user programs that come with the system, over the calls of {!Usys}:
    [cat], [echo], [wc], [ls], [grep], [kill], [ln], [mkdir], [rm], [init] and the
    small programs that exercise the kernel.

    [argv] is the list of the arguments with the name of the program first.  A
    loop that ends when the input does, or never, takes fuel. *)

From S2P Require Import Prelude Riscv Mem Str Fs Grep Sysfile Usys Ulib.
Import Ulib.

(** The constants of [kernel/fcntl.h] and [kernel/stat.h] are those of {!Sysfile}
    and {!Fs}. *)

Definition lit (s : string) : cstr := (λ c, Z.of_N (Ascii.N_of_ascii c)) <$> String.list_ascii_of_string s.
Definition line (s : string) : cstr := lit s ++ [10].

(** * cat.c *)

Module Cat.
Definition CAT_BUF : Z := 512.

(** A turn of the loop; it ends with what the last [read] returned. *)
Definition cat_body (fd : Z) (_ : unit) : prog (unit + Z) :=
  '(n, buf) ← read fd CAT_BUF;
  if 0 <? n then
    r ← write 1 (take (Z.to_nat n) buf);
    if negb (r =? n) then fprintf 2 (line "cat: write error") [] ;; exit 1
    else Ret (inl tt)
  else Ret (inr n).

Definition cat (fuel : nat) (fd : Z) : prog unit :=
  n ← ploop fuel (cat_body fd) tt;
  if n <? 0 then fprintf 2 (line "cat: read error") [] ;; exit 1
  else Ret tt.

(** The body of the loop over the arguments. *)
Definition cat_arg (fuel : nat) (arg : cstr) : prog unit :=
  fd ← open arg O_RDONLY;
  if fd <? 0 then fprintf 2 (line "cat: cannot open %s") [Chars (Some arg)] ;; exit 1
  else
    cat fuel fd ;;
    close fd ;;
    Ret tt.

Definition cat_main (fuel : nat) (argv : list cstr) : prog Z :=
  if (length argv <=? 1)%nat then
    cat fuel 0 ;;
    exit 0
  else
    pforeach (drop 1 argv) (cat_arg fuel) ;;
    exit 0.
End Cat.

(** * echo.c *)

Module Echo.
Fixpoint echo_args (args : list cstr) : prog unit :=
  match args with
  | [] => Ret tt
  | arg :: args' =>
      write 1 arg ;;
      (match args' with
       | _ :: _ => write 1 (lit " ")
       | [] => write 1 [10]
       end) ;;
      echo_args args'
  end.
Definition echo_main (argv : list cstr) : prog Z :=
  echo_args (drop 1 argv) ;;
  exit 0.
End Echo.

(** * wc.c *)

Module Wc.
Definition WC_BUF : Z := 512.

Record counts := Counts { c_l : Z; c_w : Z; c_c : Z; c_inword : bool }.

Definition blanks : cstr := [32; 13; 9; 10; 11].

Definition wc_char (s : counts) (ch : Z) : counts :=
  let '(Counts l w c inword) := s in
  let c := i32 (c + 1) in
  let l := if ch =? 10 then i32 (l + 1) else l in
  match strchr blanks ch with
  | Some _ => Counts l w c false
  | None => if negb inword then Counts l (i32 (w + 1)) c true else Counts l w c inword
  end.

Definition wc_body (fd : Z) (s : counts) : prog (counts + (Z * counts)) :=
  '(n, buf) ← read fd WC_BUF;
  if 0 <? n then Ret (inl (foldl wc_char s (take (Z.to_nat n) buf)))
  else Ret (inr (n, s)).

Definition wc (fuel : nat) (fd : Z) (name : cstr) : prog unit :=
  '(n, s) ← ploop fuel (wc_body fd) (Counts 0 0 0 false);
  if n <? 0 then printf (line "wc: read error") [] ;; exit 1
  else printf (line "%d %d %d %s") [Int (c_l s); Int (c_w s); Int (c_c s); Chars (Some name)].

Definition wc_arg (fuel : nat) (arg : cstr) : prog unit :=
  fd ← open arg O_RDONLY;
  if fd <? 0 then printf (line "wc: cannot open %s") [Chars (Some arg)] ;; exit 1
  else
    wc fuel fd arg ;;
    close fd ;;
    Ret tt.

Definition wc_main (fuel : nat) (argv : list cstr) : prog Z :=
  if (length argv <=? 1)%nat then
    wc fuel 0 [] ;;
    exit 0
  else
    pforeach (drop 1 argv) (wc_arg fuel) ;;
    exit 0.
End Wc.

(** * grep.c *)

Module GrepMain.
(** The inner loop from [p]; it returns what is behind the last newline. *)
Fixpoint grep_inner (fuel : nat) (pattern p : cstr) : prog cstr :=
  match fuel with
  | O => Hang
  | S fuel =>
      match strchr p NEWLINE with
      | None => Ret p
      | Some q =>
          (if matchre pattern (take q p) then write 1 (take (S q) p) ;; Ret tt else Ret tt) ;;
          grep_inner fuel pattern (drop (S q) p)
      end
  end.

(** The outer loop with [buf] in the buffer. *)
Definition grep_body (pattern : cstr) (fd : Z) (buf : cstr) : prog (cstr + unit) :=
  '(n, l) ← read fd (Z.of_nat BUFSIZE - Z.of_nat (length buf) - 1);
  if 0 <? n then
    let buf := buf ++ take (Z.to_nat n) l in
    rest ← grep_inner (S (length buf)) pattern buf;
    Ret (inl rest)
  else Ret (inr tt).

Definition grep (fuel : nat) (pattern : cstr) (fd : Z) : prog unit := ploop fuel (grep_body pattern fd) [].

Definition grep_arg (fuel : nat) (pattern arg : cstr) : prog unit :=
  fd ← open arg O_RDONLY;
  if fd <? 0 then printf (line "grep: cannot open %s") [Chars (Some arg)] ;; exit 1
  else
    grep fuel pattern fd ;;
    close fd ;;
    Ret tt.

Definition grep_main (fuel : nat) (argv : list cstr) : prog Z :=
  match argv with
  | _ :: pattern :: files =>
      match files with
      | [] =>
          grep fuel pattern 0 ;;
          exit 0
      | _ =>
          pforeach files (grep_arg fuel pattern) ;;
          exit 0
      end
  | _ =>
      fprintf 2 (line "usage: grep pattern [file ...]") [] ;;
      exit 1
  end.
End GrepMain.

(** * ls.c *)

Module Ls.
(** Find first character after last slash. *)
Fixpoint until_slash (s : cstr) : cstr :=
  match s with
  | [] => []
  | c :: s' => if c =? 47 then [] else c :: until_slash s'
  end.
Definition after_slash (path : cstr) : cstr := reverse (until_slash (reverse path)).

(** Return blank-padded name. *)
Definition fmtname (path : cstr) : cstr :=
  let p := after_slash path in
  if DIRSIZ <=? strlen p then p
  else p ++ replicate (Z.to_nat (DIRSIZ - strlen p)) 32.

(** [struct dirent] and [struct stat], from the bytes and fields stored. *)
Definition de_inum (de : list Z) : Z := at0 de + 256 * at0 (drop 1 de).
Fixpoint upto_nul (s : list Z) : cstr :=
  match s with
  | [] => []
  | c :: s' => if c =? 0 then [] else c :: upto_nul s'
  end.
Definition de_name (de : list Z) : cstr := upto_nul (take (Z.to_nat DIRSIZ) (drop 2 de)).
Definition st_ino (st : list Z) : Z := at0 (drop 1 st).
Definition st_type (st : list Z) : Z := at0 (drop 2 st).
Definition st_size (st : list Z) : Z := at0 (drop 4 st).

Definition row (path : cstr) (st : list Z) : prog unit :=
  printf (line "%s %d %d %d") [Chars (Some (fmtname path)); Int (st_type st); Int (st_ino st); Int (i32 (st_size st))].

Definition DIRENT : Z := 16.
Definition LS_BUF : Z := 512.

Definition ls_body (fd : Z) (path : cstr) (_ : unit) : prog (unit + unit) :=
  '(n, de) ← read fd DIRENT;
  if n =? DIRENT then
    if de_inum de =? 0 then Ret (inl tt)
    else
      let buf := path ++ [47] ++ de_name de in
      '(r, st) ← stat buf;
      if r <? 0 then printf (line "ls: cannot stat %s") [Chars (Some buf)] ;; Ret (inl tt)
      else row buf st ;; Ret (inl tt)
  else Ret (inr tt).

Definition ls (fuel : nat) (path : cstr) : prog unit :=
  fd ← open path O_RDONLY;
  if fd <? 0 then fprintf 2 (line "ls: cannot open %s") [Chars (Some path)]
  else
    '(r, st) ← fstat fd;
    if r <? 0 then
      fprintf 2 (line "ls: cannot stat %s") [Chars (Some path)] ;;
      close fd ;;
      Ret tt
    else
      (if (st_type st =? T_DEVICE) || (st_type st =? T_FILE) then row path st
       else if st_type st =? T_DIR then
         if LS_BUF <? strlen path + 1 + DIRSIZ + 1 then printf (line "ls: path too long") []
         else ploop fuel (ls_body fd path) tt
       else Ret tt) ;;
      close fd ;;
      Ret tt.

Definition ls_main (fuel : nat) (argv : list cstr) : prog Z :=
  if (length argv <? 2)%nat then
    ls fuel (lit ".") ;;
    exit 0
  else
    pforeach (drop 1 argv) (ls fuel) ;;
    exit 0.
End Ls.

(** * kill.c, ln.c, mkdir.c, rm.c *)

Module Kill.
Definition kill_main (argv : list cstr) : prog Z :=
  if (length argv <? 2)%nat then
    fprintf 2 (line "usage: kill pid...") [] ;;
    exit 1
  else
    pforeach (drop 1 argv) (λ arg, kill (atoi arg) ;; Ret tt) ;;
    exit 0.
End Kill.

Module Ln.
Definition ln_main (argv : list cstr) : prog Z :=
  match argv with
  | [_; old; new] =>
      r ← link old new;
      (if r <? 0 then fprintf 2 (line "link %s %s: failed") [Chars (Some old); Chars (Some new)] else Ret tt) ;;
      exit 0
  | _ =>
      fprintf 2 (line "Usage: ln old new") [] ;;
      exit 1
  end.
End Ln.

Module Mkdir.
Definition mkdir_main (argv : list cstr) : prog Z :=
  if (length argv <? 2)%nat then
    fprintf 2 (line "Usage: mkdir files...") [] ;;
    exit 1
  else
    pscan (drop 1 argv) (λ arg,
      r ← mkdir arg;
      if r <? 0 then fprintf 2 (line "mkdir: %s failed to create") [Chars (Some arg)] ;; Ret (Some tt)
      else Ret None) ;;
    exit 0.
End Mkdir.

Module Rm.
Definition rm_main (argv : list cstr) : prog Z :=
  if (length argv <? 2)%nat then
    fprintf 2 (line "Usage: rm files...") [] ;;
    exit 1
  else
    pscan (drop 1 argv) (λ arg,
      r ← unlink arg;
      if r <? 0 then fprintf 2 (line "rm: %s failed to delete") [Chars (Some arg)] ;; Ret (Some tt)
      else Ret None) ;;
    exit 0.
End Rm.

(** * init.c *)

Module Init.
Definition CONSOLE : Z := 1.

(** The inner loop: wait for the shell. *)
Definition wait_body (pid : Z) (_ : unit) : prog (unit + unit) :=
  '(wpid, _) ← wait;
  if wpid =? pid then Ret (inr tt)
  else if wpid <? 0 then printf (line "init: wait returned an error") [] ;; exit 1
  else Ret (inl tt).

Definition init_body (fuel : nat) (_ : unit) : prog (unit + Z) :=
  printf (line "init: starting sh") [] ;;
  pid ← fork;
  if pid <? 0 then printf (line "init: fork failed") [] ;; exit 1
  else if pid =? 0 then
    exec (lit "sh") [lit "sh"] ;;
    printf (line "init: exec sh failed") [] ;;
    exit 1
  else
    ploop fuel (wait_body pid) tt ;;
    Ret (inl tt).

Definition init_main (fuel : nat) : prog Z :=
  fd ← open (lit "console") O_RDWR;
  (if fd <? 0 then
     mknod (lit "console") CONSOLE 0 ;;
     open (lit "console") O_RDWR ;;
     Ret tt
   else Ret tt) ;;
  dup 0 ;;
  dup 0 ;;
  ploop fuel (init_body fuel) tt.
End Init.

(** * Programs that exercise the kernel *)

Module Zombie.
Definition zombie_main : prog Z :=
  pid ← fork;
  (if 0 <? pid then pause 5 else Ret 0) ;;
  exit 0.
End Zombie.

Module Forphan.
Definition forphan_main (fuel : nat) (argv : list cstr) : prog Z :=
  match argv with
  | [] => Fault
  | s :: _ =>
      let ff := lit "file0" in
      fd ← open ff (Z.lor O_CREATE O_WRONLY);
      if fd <? 0 then printf (line "%s: open failed") [Chars (Some s)] ;; exit 1
      else
        '(r, st) ← fstat fd;
        if r <? 0 then fprintf 2 (line "%s: cannot stat %s") [Chars (Some s); Chars (Some (lit "ff"))] ;; exit 1
        else
          r ← unlink ff;
          if r <? 0 then printf (line "%s: unlink failed") [Chars (Some s)] ;; exit 1
          else
            r ← open ff O_RDONLY;
            if negb (r =? -1) then printf (line "%s: open successed") [Chars (Some s)] ;; exit 1
            else
              printf (line "wait for kill and reclaim %d") [Int (Ls.st_ino st)] ;;
              ploop fuel (λ _, pause 1000 ;; Ret (inl tt)) tt
  end.
End Forphan.

Module Dorphan.
Definition dorphan_main (fuel : nat) (argv : list cstr) : prog Z :=
  match argv with
  | [] => Fault
  | s :: _ =>
      r ← mkdir (lit "dd");
      if negb (r =? 0) then printf (line "%s: mkdir dd failed") [Chars (Some s)] ;; exit 1
      else
        r ← chdir (lit "dd");
        if negb (r =? 0) then printf (line "%s: chdir dd failed") [Chars (Some s)] ;; exit 1
        else
          r ← unlink (lit "../dd");
          if r <? 0 then printf (line "%s: unlink failed") [Chars (Some s)] ;; exit 1
          else
            printf (line "wait for kill and reclaim") [] ;;
            ploop fuel (λ _, pause 1000 ;; Ret (inl tt)) tt
  end.
End Dorphan.

Module Forktest.
Definition forktest_N : nat := 1000.
Definition print (s : cstr) : prog unit := write 1 s ;; Ret tt.

(** Forks until it fails; the number of children, with [k] turns to go. *)
Fixpoint forks (k : nat) : prog nat :=
  match k with
  | O => Ret O
  | S k =>
      pid ← fork;
      if pid <? 0 then Ret O
      else if pid =? 0 then exit 0
      else n ← forks k; Ret (S n)
  end.
Fixpoint waits (n : nat) : prog unit :=
  match n with
  | O => Ret tt
  | S n =>
      '(r, _) ← wait;
      if r <? 0 then print (line "wait stopped early") ;; exit 1
      else waits n
  end.

Definition forktest : prog unit :=
  print (line "fork test") ;;
  n ← forks forktest_N;
  if (n =? forktest_N)%nat then print (line "fork claimed to work N times!") ;; exit 1
  else
    waits n ;;
    '(r, _) ← wait;
    if negb (r =? -1) then print (line "wait got too many") ;; exit 1
    else print (line "fork test OK").
Definition forktest_main : prog Z :=
  forktest ;;
  exit 0.
End Forktest.

Module Stressfs.
Definition data : list Z := replicate 512 97.

(** [for(i = 0; i < 4; i++) if(fork() > 0) break;] *)
Fixpoint stress_forks (k : nat) (i : Z) : prog Z :=
  match k with
  | O => Ret i
  | S k =>
      pid ← fork;
      if 0 <? pid then Ret i else stress_forks k (i + 1)
  end.

Definition stressfs_main (argv : list cstr) : prog Z :=
  printf (line "stressfs starting") [] ;;
  i ← stress_forks 4 0;
  printf (line "write %d") [Int i] ;;
  let path := lit "stressfs" ++ [48 + i] in
  fd ← open path (Z.lor O_CREATE O_RDWR);
  pforeach (zseq 0 20) (λ _, write fd data ;; Ret tt) ;;
  close fd ;;
  printf (line "read") [] ;;
  fd ← open path O_RDONLY;
  pforeach (zseq 0 20) (λ _, read fd 512 ;; Ret tt) ;;
  close fd ;;
  wait ;;
  exit 0.
End Stressfs.

Module Logstress.
Definition BUFSZ : Z := 500.
Definition logstress_N : nat := 250.
Definition SZ : Z := 2000.

(** [memset(buf, '0'+i, SZ)] of the array [char buf[BUFSZ]]. *)
Definition fill (i : Z) : prog (list Z) :=
  if SZ <=? BUFSZ then Ret (replicate (Z.to_nat SZ) (48 + i)) else Fault.

Definition child (argv0 arg : cstr) (i : Z) : prog Z :=
  fd ← open arg (Z.lor O_CREATE O_RDWR);
  if fd <? 0 then printf (line "%s: create %s failed") [Chars (Some argv0); Chars (Some arg)] ;; exit 1
  else
    buf ← fill i;
    pforeach (zseq 0 logstress_N) (λ _,
      n ← write fd (take (Z.to_nat SZ) buf);
      if negb (n =? SZ) then printf (line "write failed %d") [Int n] ;; exit 1
      else Ret tt) ;;
    exit 0.

Fixpoint children (argv0 : cstr) (args : list cstr) (i : Z) : prog unit :=
  match args with
  | [] => Ret tt
  | arg :: args =>
      pid ← fork;
      if pid <? 0 then printf (line "%s: fork failed") [Chars (Some argv0)] ;; exit 1
      else if pid =? 0 then child argv0 arg i ;; Ret tt
      else children argv0 args (i + 1)
  end.

(** The loop of [n] turns that waits for the children.  [xstatus] has no value
    before the first [wait] that succeeds, and keeps it if a later one fails. *)
Fixpoint reap (n : nat) (xstatus : option Z) : prog unit :=
  match n with
  | O => Ret tt
  | S n =>
      '(_, st) ← wait;
      match (match st with x :: _ => Some x | [] => xstatus end) with
      | None => Fault
      | Some x => if negb (x =? 0) then exit x else reap n (Some x)
      end
  end.

Definition logstress_main (argv : list cstr) : prog Z :=
  match argv with
  | [] => Ret 0
  | argv0 :: args =>
      children argv0 args 1 ;;
      reap (length args) None ;;
      Ret 0
  end.
End Logstress.
