(* ===== verification/UprogsSpec.v ===== *)
(** What the user programs do, on every kernel that implements {!Uio.io_kernel}:
    [cat] copies, [wc] counts, [grep] prints the matching lines, [echo] prints
    its arguments. *)

From S2P Require Import Prelude Riscv Mem Str Grep Sysfile Usys Ulib Uio Uprogs.
Import Ulib.

(** The next call of the program in the goal. *)
Ltac read_step w l Hl k w' Hk Hz V :=
  match goal with
  | |- context [run ?sys (read ?fd ?n ≫= ?f) w] =>
      let E := fresh in let Hn := fresh in
      destruct (run_read (sys := sys) fd n f w l Hl) as (k & w' & E & Hn & Hk & Hz & V); [lia|]; rewrite E; clear E
  end.
Ltac write_step w Hp o w' V :=
  match goal with
  | |- context [run ?sys (?p ≫= ?f) w] =>
      let E := fresh in
      edestruct (run_emits (sys := sys) p f _ _ _ w o Hp) as (w' & E & V); [|rewrite E; clear E]
  end.

Section programs.
Context {W : Type} {sys : call → W → reply * W} {view : W → io} `{!io_kernel sys view}.

(** The files [fs] hold [contents]. *)
Definition holds (s : io) (fs : list cstr) (contents : list (list Z)) : Prop := Forall2 (λ f l, i_files s !! f = Some l) fs contents.
Definition room (s : io) : Prop := (size (i_in s) + size (i_out s) < 16)%nat.

(** A program that opens its arguments in turn and handles each with [body],
    which reads the file to its end and writes [g f l] to the standard output. *)
Definition handles (body : cstr → Z → prog unit) (f : cstr) (l g : list Z) : Prop :=
  ∀ w fd o, i_in (view w) !! fd = Some l → i_out (view w) !! 1 = Some o →
    ∃ w', run sys (body f fd) w = Done tt w' ∧ view w' = set_out 1 (o ++ g) (set_in fd [] (view w)).

Definition each (body : cstr → Z → prog unit) (fail : cstr → prog unit) (f : cstr) : prog unit :=
  fd ← open f O_RDONLY;
  if fd <? 0 then fail f
  else
    body f fd ;;
    close fd ;;
    Ret tt.

Lemma run_each body fail f l g w o : handles body f l g → i_files (view w) !! f = Some l → room (view w) → i_out (view w) !! 1 = Some o →
  ∃ w', run sys (each body fail f) w = Done tt w' ∧ view w' = set_out 1 (o ++ g) (view w).
Proof.
  intros Hb Hf Hr Ho. destruct (io_open w f l Hf Hr) as (fd & w1 & E1 & Hfd & Hi & Hq & V1).
  unfold each, open, O_RDONLY. rewrite (run_sys1 _ _ _ _ _ _ E1). cbn [r_ret]. replace (fd <? 0) with false by lia.
  destruct (Hb w1 fd o) as (w2 & E2 & V2); [rewrite V1; apply set_in_in|by rewrite V1|].
  rewrite (run_bind_done _ _ _ _ _ _ E2). rewrite V1, set_in_twice in V2.
  destruct (io_close w2 fd []) as (w3 & E3 & V3); [rewrite V2; apply set_in_in| |].
  { rewrite V2. cbn. rewrite lookup_insert_ne; [done|]. intros <-. congruence. }
  unfold close. rewrite (run_sys1 _ _ _ _ _ _ E3). cbn [run]. exists w3. split; [done|].
  rewrite V3, V2, set_out_in. by apply close_set_in.
Qed.

Lemma run_all file body fail g : (∀ f, file f = each body fail f) → ∀ fs contents w o, holds (view w) fs contents → room (view w) → i_out (view w) !! 1 = Some o →
  Forall2 (λ f l, handles body f l (g f l)) fs contents →
  ∃ w', run sys (pforeach fs file) w = Done tt w' ∧ view w' = set_out 1 (o ++ concat (zip_with g fs contents)) (view w).
Proof.
  intros Hfile. induction fs as [|f fs IH]; intros contents w o Hf Hr Ho Hb; inversion Hb as [|? l ? contents' Hb1 Hb2]; subst.
  { exists w. split; [done|]. cbn. by rewrite app_nil_r, set_out_same. }
  apply Forall2_cons in Hf as [Hf1 Hf2]. destruct (run_each body fail f l _ w o Hb1 Hf1 Hr Ho) as (w1 & E1 & V1).
  cbn [pforeach zip_with concat]. rewrite Hfile, (run_bind_done _ _ _ _ _ _ E1).
  destruct (IH contents' w1 (o ++ g f l)) as (w2 & E2 & V2).
  - by rewrite V1.
  - rewrite V1. unfold room, set_out in *. cbn. rewrite map_size_insert_Some by (by eexists). exact Hr.
  - rewrite V1. apply set_out_out.
  - done.
  - exists w2. split; [done|]. by rewrite V2, V1, set_out_twice, app_assoc.
Qed.

(** * cat *)

Lemma cat_loop fd : ∀ fuel w l o, (length l < fuel)%nat → i_in (view w) !! fd = Some l → i_out (view w) !! 1 = Some o →
  ∃ w', run sys (ploop fuel (Cat.cat_body fd) tt) w = Done 0 w' ∧ view w' = set_out 1 (o ++ l) (set_in fd [] (view w)).
Proof.
  induction fuel as [|fuel IH]; intros w l o Hf Hl Ho; [lia|]. cbn [ploop]. rewrite run_bind. unfold Cat.cat_body at 1, Cat.CAT_BUF.
  read_step w l Hl k w1 Hk Hz V1. destruct k as [|k].
  - change (0 <? Z.of_nat 0) with false. cbv iota. cbn [run]. rewrite (Hz eq_refl) in *. exists w1. split; [done|]. rewrite V1, app_nil_r, set_out_same by done. done.
  - rewrite (proj2 (Z.ltb_lt 0 (Z.of_nat (S k)))) by (clear; lia). rewrite Nat2Z.id, take_take, Nat.min_id.
    write_step w1 (emits_write 1 (take (S k) l)) o w2 V2; [by rewrite V1|].
    rewrite length_take_le, Z.eqb_refl by done. cbn [negb run].
    destruct (IH w2 (drop (S k) l) (o ++ take (S k) l)) as (w3 & E3 & V3).
    + rewrite length_drop. lia.
    + rewrite V2, V1. apply set_in_in.
    + rewrite V2. apply set_out_out.
    + exists w3. split; [done|]. rewrite V3, V2, V1, <-app_assoc, take_drop, set_out_in, set_out_twice. by rewrite <-set_out_in, set_in_twice.
Qed.

Definition short (fuel : nat) (contents : list (list Z)) : Prop := Forall (λ l : list Z, (length l < fuel)%nat) contents.

Lemma run_foreach_app {A} (l1 l2 : list A) f w w' : run sys (pforeach l1 f) w = Done tt w' →
  run sys (pforeach (l1 ++ l2) f) w = run sys (pforeach l2 f) w'.
Proof.
  revert w. induction l1 as [|x l1 IH]; intros w E; cbn in E |- *; [by injection E as ->|].
  rewrite run_bind in E |- *. destruct (run sys (f x) w) as [a w1| | |]; [by apply IH|done..].
Qed.

Lemma zip_contents (fs : list cstr) contents : length fs = length contents → zip_with (λ (_ : cstr) (l : list Z), l) fs contents = contents.
Proof. revert contents. induction fs as [|f fs IH]; intros [|l contents] E; cbn in *; [done..|]. by rewrite IH by lia. Qed.

Lemma handles_all body g fs contents fuel : short fuel contents → length fs = length contents →
  (∀ f l, (length l < fuel)%nat → handles body f l (g f l)) → Forall2 (λ f l, handles body f l (g f l)) fs contents.
Proof.
  intros Hs Hl Hb. revert fs Hl. induction Hs as [|l contents Hl Hs IH]; intros [|f fs] E; cbn in E; [constructor|done|done|].
  constructor; [by apply Hb|apply IH; lia].
Qed.

Lemma cat_handles fuel f l : (length l < fuel)%nat → handles (λ _, Cat.cat fuel) f l l.
Proof.
  intros Hl w fd o Hi Ho. destruct (cat_loop fd fuel w l o Hl Hi Ho) as (w' & E & V). exists w'. split; [|exact V].
  unfold Cat.cat. by rewrite (run_bind_done _ _ _ _ _ _ E).
Qed.

Definition cat_fail (arg : cstr) : prog unit := fprintf 2 (line "cat: cannot open %s") [Chars (Some arg)] ;; exit 1.

Lemma cat_arg_each fuel f : Cat.cat_arg fuel f = each (λ _, Cat.cat fuel) cat_fail f.
Proof. unfold Cat.cat_arg, each, cat_fail. cbv beta. reflexivity. Qed.

Lemma cat_files fuel fs contents w o : holds (view w) fs contents → room (view w) → short fuel contents → i_out (view w) !! 1 = Some o →
  ∃ w', run sys (pforeach fs (Cat.cat_arg fuel)) w = Done tt w' ∧ view w' = set_out 1 (o ++ concat contents) (view w).
Proof.
  intros Hf Hr Hs Ho. pose proof (Forall2_length _ _ _ Hf) as Hlen. rewrite <-(zip_contents fs contents Hlen).
  apply (run_all _ (λ _, Cat.cat fuel) cat_fail (λ _ l, l) (cat_arg_each fuel)); [done..|].
  apply (handles_all _ (λ _ l, l) _ _ fuel); [done|done|]. intros. by apply cat_handles.
Qed.

(** C36: [cat] copies its input.  On every kernel that implements the interface,
    however it cuts the input into pieces, [cat] with file arguments writes the
    contents of the files to its standard output in order and exits with 0; a name
    that cannot be opened is reported on the standard error behind the contents of
    the files before it, and the exit status is 1; without arguments it copies its standard input.
    In each case nothing else changes; fuel beyond the length of the inputs is
    enough. *)
Theorem cat_copies fuel name fs contents w o :
  holds (view w) fs contents → room (view w) → short fuel contents → i_out (view w) !! 1 = Some o →
  (fs ≠ [] → ∃ w', run sys (Cat.cat_main fuel (name :: fs)) w = Exited 0 w' ∧ view w' = set_out 1 (o ++ concat contents) (view w)) ∧
  (∀ f rest e, i_files (view w) !! f = None → bytes f → i_out (view w) !! 2 = Some e →
     ∃ w', run sys (Cat.cat_main fuel (name :: fs ++ f :: rest)) w = Exited 1 w' ∧
       view w' = set_out 2 (e ++ lit "cat: cannot open " ++ f ++ [10]) (set_out 1 (o ++ concat contents) (view w))) ∧
  (∀ l, i_in (view w) !! 0 = Some l → (length l < fuel)%nat →
     ∃ w', run sys (Cat.cat_main fuel [name]) w = Exited 0 w' ∧ view w' = set_out 1 (o ++ l) (set_in 0 [] (view w))).
Proof.
  intros Hf Hr Hs Ho. destruct (cat_files fuel fs contents w o Hf Hr Hs Ho) as (w1 & E1 & V1). split_and!.
  - intros Hne. exists w1. split; [|exact V1]. unfold Cat.cat_main. destruct fs as [|f fs]; [done|]. cbn [length Nat.leb drop].
    by rewrite (run_bind_done _ _ _ _ _ _ E1).
  - intros f rest e Hn Hb He. unfold Cat.cat_main. replace (length (name :: fs ++ f :: rest) <=? 1)%nat with false.
    2: { symmetry. apply Nat.leb_gt. cbn. rewrite length_app. cbn. lia. }
    destruct (io_noent w1 f) as (w2 & E2 & V2); [by rewrite V1|].
    destruct (emits_fprintf 2 [Text (lit "cat: cannot open "); Word f; Text [10]] (line "cat: cannot open %s") [Chars (Some f)]
      (lit "cat: cannot open " ++ f ++ [10])) with (w := w2) (o := e) as (w3 & E3 & V3).
    { repeat constructor; try done. }
    { reflexivity. } { reflexivity. } { reflexivity. }
    { rewrite V2, V1. cbn. by rewrite lookup_insert_ne. }
    exists w3. split; [|by rewrite V3, V2, V1]. apply run_bind_exited. cbn [drop]. rewrite drop_0.
    rewrite (run_foreach_app _ _ _ _ _ E1). cbn [pforeach]. apply run_bind_exited. rewrite cat_arg_each. unfold each, open, O_RDONLY.
    rewrite (run_sys1 _ _ _ _ _ _ E2). cbn [r_ret]. change (-1 <? 0) with true. cbv iota. unfold cat_fail.
    by rewrite (run_bind_done _ _ _ _ _ _ E3).
  - intros l Hl Hlt. destruct (cat_handles fuel [] l Hlt w 0 o Hl Ho) as (w2 & E2 & V2). exists w2. split; [|exact V2].
    unfold Cat.cat_main. cbn [length Nat.leb]. by rewrite (run_bind_done _ _ _ _ _ _ E2).
Qed.

(** * wc *)

(** The words of a text: the non-empty pieces between blanks. *)
Fixpoint pieces (l : list Z) : list (list Z) :=
  match l with
  | [] => [[]]
  | c :: l => if bool_decide (c ∈ Wc.blanks) then [] :: pieces l
              else match pieces l with p :: ps => (c :: p) :: ps | [] => [[c]] end
  end.
Definition words (l : list Z) : list (list Z) := filter (λ p, p ≠ []) (pieces l).
Definition newlines (l : list Z) : list Z := filter (λ c, c = 10) l.

Lemma pieces_cons l : ∃ p ps, pieces l = p :: ps.
Proof. destruct l as [|c l]; cbn; [by do 2 eexists|]. case_bool_decide; [by do 2 eexists|]. destruct (pieces l); by do 2 eexists. Qed.

Definition is_found (o : option nat) : bool := match o with Some _ => true | None => false end.
Lemma strchr_elem s c : no_nul s → is_found (strchr s c) = bool_decide (c ∈ s).
Proof.
  induction 1 as [|d s Hd Hs IH]; [done|]. cbn [strchr]. rewrite (proj2 (Z.eqb_neq d 0) Hd). destruct (Z.eqb_spec d c) as [->|Hn].
  - symmetry. apply bool_decide_eq_true_2. left.
  - rewrite (bool_decide_ext _ (c ∈ s)); [|rewrite elem_of_cons; naive_solver]. rewrite <-IH. by destruct (strchr s c).
Qed.
Lemma strchr_blanks ch : is_found (strchr Wc.blanks ch) = bool_decide (ch ∈ Wc.blanks).
Proof. apply strchr_elem. by repeat constructor. Qed.

(** The words that begin in [l], when the text before it ends inside a word or not. *)
Definition begun (inword : bool) (l : list Z) : list (list Z) := filter (λ p, p ≠ []) (if inword then drop 1 (pieces l) else pieces l).

Lemma wc_fold l : ∀ a b c inword, 0 ≤ a → 0 ≤ b → 0 ≤ c →
  a + Z.of_nat (length l) < 2 ^ 31 → b + Z.of_nat (length l) < 2 ^ 31 → c + Z.of_nat (length l) < 2 ^ 31 →
  ∃ inword', foldl Wc.wc_char (Wc.Counts a b c inword) l =
    Wc.Counts (a + Z.of_nat (length (newlines l))) (b + Z.of_nat (length (begun inword l))) (c + Z.of_nat (length l)) inword'.
Proof.
  induction l as [|ch l IH]; intros a b c inword Ha Hb Hc La Lb Lc.
  { exists inword. replace (length (begun inword [])) with 0%nat by (by destruct inword). cbn. f_equal; lia. }
  cbn [length] in La, Lb, Lc. cbn [foldl]. unfold Wc.wc_char at 2. rewrite !i32_small by lia.
  pose proof (strchr_blanks ch) as Hs. destruct (pieces_cons l) as (p & ps & Hp).
  set (a' := if ch =? 10 then a + 1 else a).
  assert (a + Z.of_nat (length (newlines (ch :: l))) = a' + Z.of_nat (length (newlines l)) ∧ 0 ≤ a' ≤ a + 1) as [Hnl Ha'].
  { unfold a', newlines. rewrite filter_cons. destruct (Z.eqb_spec ch 10); [rewrite decide_True by done|rewrite decide_False by done]; cbn [length]; lia. }
  rewrite Hnl. destruct (strchr Wc.blanks ch) as [q|]; symmetry in Hs.
  - apply bool_decide_eq_true in Hs. destruct (IH a' b (c + 1) false) as [iw ->]; [lia..|]. exists iw. f_equal; [|cbn; lia].
    do 3 f_equal. unfold begun. cbn [pieces]. rewrite bool_decide_eq_true_2 by done. destruct inword; [by cbn [drop]|]. by rewrite filter_cons_False by tauto.
  - apply bool_decide_eq_false in Hs. destruct inword; cbn [negb].
    + destruct (IH a' b (c + 1) true) as [iw ->]; [lia..|]. exists iw. f_equal; [|cbn; lia].
      do 3 f_equal. unfold begun. cbn [pieces]. rewrite bool_decide_eq_false_2, Hp by done. done.
    + destruct (IH a' (b + 1) (c + 1) true) as [iw ->]; [lia..|]. exists iw. f_equal; [|cbn; lia].
      unfold begun. cbn [pieces]. rewrite bool_decide_eq_false_2, Hp by done. rewrite (filter_cons_True _ (ch :: p)) by done. cbn [length drop]. rewrite ?drop_0. lia.
Qed.

Lemma wc_loop fd : ∀ fuel w l st, (length l < fuel)%nat → i_in (view w) !! fd = Some l →
  ∃ w', run sys (ploop fuel (Wc.wc_body fd) st) w = Done (0, foldl Wc.wc_char st l) w' ∧ view w' = set_in fd [] (view w).
Proof.
  induction fuel as [|fuel IH]; intros w l st Hf Hl; [lia|]. cbn [ploop]. rewrite run_bind. unfold Wc.wc_body at 1, Wc.WC_BUF.
  read_step w l Hl k w1 Hk Hz V1. destruct k as [|k].
  - change (0 <? Z.of_nat 0) with false. cbv iota. cbn [run]. rewrite (Hz eq_refl) in *. exists w1. split; [done|]. by rewrite V1.
  - rewrite (proj2 (Z.ltb_lt 0 (Z.of_nat (S k)))) by (clear; lia). rewrite Nat2Z.id, take_take, Nat.min_id. cbn [run].
    destruct (IH w1 (drop (S k) l) (foldl Wc.wc_char st (take (S k) l))) as (w2 & E2 & V2).
    + rewrite length_drop. lia.
    + rewrite V1. apply set_in_in.
    + exists w2. split; [|by rewrite V2, V1, set_in_twice]. by rewrite E2, <-foldl_app, take_drop.
Qed.

(** The line that [wc] prints for a text. *)
Definition report (name l : list Z) : list Z :=
  decimal (Z.of_nat (length (newlines l))) ++ [32] ++ decimal (Z.of_nat (length (words l))) ++ [32] ++
  decimal (Z.of_nat (length l)) ++ [32] ++ name ++ [10].

Lemma length_filter_le {A} (P : A → Prop) `{!∀ x, Decision (P x)} l : (length (filter P l) ≤ length l)%nat.
Proof. induction l as [|x l IH]; [done|]. rewrite filter_cons. case_decide; cbn; lia. Qed.

Lemma length_words l : (length (words l) ≤ length l)%nat.
Proof.
  unfold words. assert (∀ l, (length (filter (λ p, p ≠ []) (pieces l)) ≤ length l)%nat ∧
    (length (filter (λ p, p ≠ []) (drop 1 (pieces l))) ≤ length l)%nat) as H.
  { clear. induction l as [|c l [IH1 IH2]]; cbn [pieces]; [done|]. case_bool_decide.
    - rewrite filter_cons_False by tauto. cbn [drop length]. rewrite drop_0. lia.
    - destruct (pieces_cons l) as (p & ps & E). rewrite E in *. rewrite filter_cons_True by done. cbn [drop length] in *. rewrite drop_0 in *. lia. }
  apply H.
Qed.

Lemma wc_handles fuel f l : (length l < fuel)%nat → Z.of_nat (length l) < 2 ^ 31 → bytes f →
  handles (λ f fd, Wc.wc fuel fd f) f l (report f l).
Proof.
  intros Hf Hl Hb w fd o Hi Ho. destruct (wc_loop fd fuel w l (Wc.Counts 0 0 0 false) Hf Hi) as (w1 & E1 & V1).
  destruct (wc_fold l 0 0 0 false) as [iw Ec]; [lia..|]. rewrite Ec, !Z.add_0_l in E1. change (begun false l) with (words l) in E1.
  pose proof (length_words l). pose proof (length_filter_le (λ c, c = 10) l). fold (newlines l) in H0.
  destruct (emits_printf [Num (Z.of_nat (length (newlines l))); Text [32]; Num (Z.of_nat (length (words l))); Text [32]; Num (Z.of_nat (length l));
    Text [32]; Word f; Text [10]] (line "%d %d %d %s") [Int (Z.of_nat (length (newlines l))); Int (Z.of_nat (length (words l)));
    Int (Z.of_nat (length l)); Chars (Some f)] (report f l)) with (w := w1) (o := o) as (w2 & E2 & V2).
  { repeat (apply Forall_cons_2; [first [by repeat constructor|cbn; lia|exact Hb]|]). apply Forall_nil_2. }
  { reflexivity. } { reflexivity. } { reflexivity. } { by rewrite V1. }
  exists w2. split; [|by rewrite V2, V1]. unfold Wc.wc. rewrite (run_bind_done _ _ _ _ _ _ E1). exact E2.
Qed.

Definition wc_fail (arg : cstr) : prog unit := printf (line "wc: cannot open %s") [Chars (Some arg)] ;; exit 1.
Lemma wc_arg_each fuel f : Wc.wc_arg fuel f = each (λ f fd, Wc.wc fuel fd f) wc_fail f.
Proof. unfold Wc.wc_arg, each, wc_fail. cbv beta. reflexivity. Qed.

(** [wc] counts.  On every kernel that implements the interface, however it cuts
    the input into pieces, [wc] prints for each file the number of its newlines, of its
    words (the non-empty pieces between blanks, tabs, carriage returns, vertical
    tabs and newlines) and of its characters, in decimal, with the name, and exits with
    0; without arguments it does so for its standard input.  Files are shorter than
    2^31 characters. *)
Theorem wc_counts fuel name fs contents w o :
  holds (view w) fs contents → room (view w) → short fuel contents → Forall (λ l, Z.of_nat (length l) < 2 ^ 31) contents →
  Forall bytes fs → i_out (view w) !! 1 = Some o →
  (fs ≠ [] → ∃ w', run sys (Wc.wc_main fuel (name :: fs)) w = Exited 0 w' ∧
     view w' = set_out 1 (o ++ concat (zip_with report fs contents)) (view w)) ∧
  (∀ l, i_in (view w) !! 0 = Some l → (length l < fuel)%nat → Z.of_nat (length l) < 2 ^ 31 →
     ∃ w', run sys (Wc.wc_main fuel [name]) w = Exited 0 w' ∧ view w' = set_out 1 (o ++ report [] l) (set_in 0 [] (view w))).
Proof.
  intros Hf Hr Hs Hl Hb Ho. split.
  - intros Hne. destruct (run_all _ _ _ report (wc_arg_each fuel) fs contents w o Hf Hr Ho) as (w1 & E1 & V1).
    { clear -io_kernel0 Hf Hs Hl Hb. induction Hf as [|f l fs contents _ Hf IH]; [constructor|].
      apply Forall_cons in Hs as [Hs1 Hs2]. apply Forall_cons in Hl as [Hl1 Hl2]. apply Forall_cons in Hb as [Hb1 Hb2].
      constructor; [by apply wc_handles|by apply IH]. }
    exists w1. split; [|exact V1]. unfold Wc.wc_main. destruct fs as [|f fs]; [done|]. cbn [length Nat.leb drop].
    by rewrite (run_bind_done _ _ _ _ _ _ E1).
  - intros l Hi Hlt H31. destruct (wc_handles fuel [] l Hlt H31 (Forall_nil_2 _) w 0 o Hi Ho) as (w2 & E2 & V2). exists w2.
    split; [|exact V2]. unfold Wc.wc_main. cbn [length Nat.leb]. by rewrite (run_bind_done _ _ _ _ _ _ E2).
Qed.

(** * grep *)

Lemma lines_none s : (lines s).1 = [] → (lines s).2 = s.
Proof.
  induction s as [|c s IH]; [done|]. cbn. destruct (lines s) as [l r]. cbn in IH. destruct (c =? NEWLINE); [done|].
  destruct l; [|done]. cbn. intros _. by rewrite IH.
Qed.

(** The lines of a text, the unfinished last one included, fit in the buffer. *)
Definition fits_lines (s : list Z) : Prop := Forall (λ x, length x < 1023)%nat ((lines s).1 ++ [(lines s).2]).

Lemma buffer_room buf t : lines buf = ([], buf) → fits_lines (buf ++ t) → (length buf < 1023)%nat.
Proof.
  intros Hb Hf. unfold fits_lines in Hf. destruct ((lines (buf ++ t)).1) as [|x l] eqn:E.
  - cbn in Hf. rewrite (lines_none _ E), Forall_singleton, length_app in Hf. lia.
  - pose proof (lines_first buf t x l Hb E). apply Forall_cons in Hf as [Hx _]. lia.
Qed.

Lemma emits_grep_inner pattern : ∀ fuel p, no_nul p → (length p < fuel)%nat →
  emits (sys := sys) (view := view) (GrepMain.grep_inner fuel pattern p) ((lines p).2) 1 (selected pattern (lines p).1).
Proof.
  induction fuel as [|fuel IH]; intros p Hp Hf; [lia|]. cbn [GrepMain.grep_inner]. destruct (strchr_spec p Hp) as [H1 H2].
  destruct (strchr p NEWLINE) as [q|] eqn:E; [|rewrite H1; apply emits_ret]. destruct H1 as [Hq H1].
  specialize (IH (drop (S q) p) (Forall_drop _ _ _ Hp)). rewrite length_drop in IH. specialize (IH ltac:(lia)).
  rewrite H1. destruct (lines (drop (S q) p)) as [l r]. cbn [fst snd] in *.
  change (selected pattern (take q p :: l)) with ((if matchre pattern (take q p) then take q p ++ [NEWLINE] else []) ++ selected pattern l).
  eapply emits_bind; [|exact IH]. destruct (matchre pattern (take q p)).
  - rewrite <-(H2 q eq_refl).
    pose proof (emits_bind (write 1 (take (S q) p)) (λ _, Ret tt) _ tt 1 _ [] (emits_write 1 (take (S q) p)) (emits_ret tt 1)) as He.
    by rewrite app_nil_r in He.
  - apply emits_ret.
Qed.

Lemma grep_loop pattern fd : ∀ fuel w buf l o, no_nul (buf ++ l) → lines buf = ([], buf) → fits_lines (buf ++ l) → (length l < fuel)%nat →
  i_in (view w) !! fd = Some l → i_out (view w) !! 1 = Some o →
  ∃ w', run sys (ploop fuel (GrepMain.grep_body pattern fd) buf) w = Done tt w' ∧
    view w' = set_out 1 (o ++ selected pattern (lines (buf ++ l)).1) (set_in fd [] (view w)).
Proof.
  induction fuel as [|fuel IH]; intros w buf l o Hz Hb Hfit Hf Hl Ho; [lia|]. pose proof (buffer_room buf l Hb Hfit) as Hroom.
  cbn [ploop]. rewrite run_bind. unfold GrepMain.grep_body at 1, BUFSIZE. read_step w l Hl k w1 Hk Hz0 V1. destruct k as [|k].
  - change (0 <? Z.of_nat 0) with false. cbv iota. cbn [run]. rewrite (Hz0 eq_refl) in *. exists w1. split; [done|].
    rewrite V1, app_nil_r, Hb. cbn. by rewrite app_nil_r, set_out_same.
  - rewrite (proj2 (Z.ltb_lt 0 (Z.of_nat (S k)))) by (clear; lia). rewrite Nat2Z.id, take_take, Nat.min_id. cbv zeta.
    assert (buf ++ l = (buf ++ take (S k) l) ++ drop (S k) l) as Ei by (by rewrite <-app_assoc, take_drop).
    rewrite Ei in Hz, Hfit |- *. set (b := buf ++ take (S k) l) in *. apply Forall_app in Hz as [Hzb Hzd].
    write_step w1 (emits_grep_inner pattern (S (length b)) b Hzb (Nat.lt_succ_diag_r _)) o w2 V2; [by rewrite V1|]. cbn [run].
    unfold fits_lines in Hfit. rewrite (lines_app b) in Hfit |- *. pose proof (lines_rest b) as Hr. pose proof (lines_no_nul b Hzb) as Hzr.
    destruct (lines b) as [l1 r]. cbn [fst snd] in *. destruct (lines (r ++ drop (S k) l)) as [l2 r2] eqn:El. cbn [fst snd] in *.
    destruct (IH w2 r (drop (S k) l) (o ++ selected pattern l1)) as (w3 & E3 & V3).
    + by apply Forall_app.
    + done.
    + unfold fits_lines. rewrite El. rewrite <-app_assoc in Hfit. by apply Forall_app in Hfit as [_ Hfit].
    + rewrite length_drop. lia.
    + rewrite V2, V1. apply set_in_in.
    + rewrite V2. apply set_out_out.
    + exists w3. split; [exact E3|]. rewrite El in V3. cbn [fst] in V3. rewrite V3, V2, V1. unfold selected. rewrite bind_app, <-app_assoc.
      by rewrite set_out_in, set_out_twice, <-set_out_in, set_in_twice.
Qed.

Lemma grep_handles fuel pattern f l : (length l < fuel)%nat → no_nul l → fits_lines l →
  handles (λ _, GrepMain.grep fuel pattern) f l (selected pattern (lines l).1).
Proof.
  intros Hf Hz Hl w fd o Hi Ho. destruct (grep_loop pattern fd fuel w [] l o Hz eq_refl Hl Hf Hi Ho) as (w' & E & V).
  exists w'. by split.
Qed.

Definition grep_fail (arg : cstr) : prog unit := printf (line "grep: cannot open %s") [Chars (Some arg)] ;; exit 1.
Lemma grep_arg_each fuel pattern f : GrepMain.grep_arg fuel pattern f = each (λ _, GrepMain.grep fuel pattern) grep_fail f.
Proof. unfold GrepMain.grep_arg, each, grep_fail. cbv beta. reflexivity. Qed.

(** C35: [grep] prints the matching lines.  Its matcher decides the language of the
    expression, in which [.] is any character, a star repeats the character before
    it any number of times, [^] at the beginning and [$] at the end anchor the
    match.  On every kernel that implements the interface, however it cuts the input
    into pieces, [grep] prints exactly the lines of its files that match, in order,
    and exits with 0; without files it reads its standard input.  The input has no NUL
    characters and its lines have less than 1023 characters. *)
Theorem grep_prints fuel name pattern fs contents w o : no_nul pattern →
  holds (view w) fs contents → room (view w) → short fuel contents → Forall no_nul contents → Forall fits_lines contents →
  i_out (view w) !! 1 = Some o →
  (∀ text, no_nul text → matchre pattern text = true ↔ matches_in pattern text) ∧
  (fs ≠ [] → ∃ w', run sys (GrepMain.grep_main fuel (name :: pattern :: fs)) w = Exited 0 w' ∧
     view w' = set_out 1 (o ++ concat ((λ l, selected pattern (lines l).1) <$> contents)) (view w)) ∧
  (∀ l, i_in (view w) !! 0 = Some l → (length l < fuel)%nat → no_nul l → fits_lines l →
     ∃ w', run sys (GrepMain.grep_main fuel [name; pattern]) w = Exited 0 w' ∧
       view w' = set_out 1 (o ++ selected pattern (lines l).1) (set_in 0 [] (view w))).
Proof.
  intros Hp Hf Hr Hs Hz Hl Ho. split; [intros text Ht; by apply matchre_spec|]. split.
  - intros Hne. destruct (run_all _ _ _ (λ _ l, selected pattern (lines l).1) (grep_arg_each fuel pattern) fs contents w o Hf Hr Ho) as (w1 & E1 & V1).
    { clear -io_kernel0 Hf Hs Hz Hl. induction Hf as [|f l fs contents _ Hf IH]; [constructor|].
      apply Forall_cons in Hs as [Hs1 Hs2]. apply Forall_cons in Hl as [Hl1 Hl2]. apply Forall_cons in Hz as [Hz1 Hz2].
      constructor; [by apply grep_handles|by apply IH]. }
    assert (zip_with (λ (_ : cstr) l, selected pattern (lines l).1) fs contents = (λ l, selected pattern (lines l).1) <$> contents) as Ez.
    { clear -Hf. induction Hf as [|f l fs contents _ Hf IH]; cbn; [done|by rewrite IH]. }
    rewrite Ez in V1. exists w1. split; [|exact V1]. unfold GrepMain.grep_main. destruct fs as [|f fs]; [done|].
    by rewrite (run_bind_done _ _ _ _ _ _ E1).
  - intros l Hi Hlt Hzl Hfl. destruct (grep_handles fuel pattern [] l Hlt Hzl Hfl w 0 o Hi Ho) as (w2 & E2 & V2). exists w2.
    split; [|exact V2]. unfold GrepMain.grep_main. by rewrite (run_bind_done _ _ _ _ _ _ E2).
Qed.

(** * echo *)

Fixpoint echoed (args : list cstr) : list Z :=
  match args with
  | [] => []
  | [arg] => arg ++ [10]
  | arg :: args => arg ++ [32] ++ echoed args
  end.

(** The arguments with a blank between them and a newline behind. *)
Lemma echo_prints name args w o : i_out (view w) !! 1 = Some o →
  ∃ w', run sys (Echo.echo_main (name :: args)) w = Exited 0 w' ∧ view w' = set_out 1 (o ++ echoed args) (view w).
Proof.
  intros Ho. assert (emits (sys := sys) (view := view) (Echo.echo_args args) tt 1 (echoed args)) as He.
  { induction args as [|arg [|arg' args] IH]; [apply emits_ret|..].
    - cbn [Echo.echo_args echoed]. eapply emits_bind; [apply emits_write|]. rewrite <-(app_nil_r [10]).
      eapply emits_bind; [apply (emits_write 1 [10])|apply emits_ret].
    - change (echoed (arg :: arg' :: args)) with (arg ++ [32] ++ echoed (arg' :: args)).
      cbn [Echo.echo_args]. eapply emits_bind; [apply emits_write|]. eapply emits_bind; [apply (emits_write 1 [32])|exact IH]. }
  destruct (He w o Ho) as (w' & E & V). exists w'. split; [|exact V]. unfold Echo.echo_main. cbn [drop]. rewrite drop_0.
  by rewrite (run_bind_done _ _ _ _ _ _ E).
Qed.
End programs.

(** Two files on a kernel that hands out up to three characters at a time. *)
Module TwoFiles.
Definition fox : cstr := line "the quick fox" ++ line "a dog".
Definition cats : cstr := line "two  cats".
Definition disk : io := Io {[0 := fox]} {[1 := []; 2 := []]} {[lit "fox" := fox; lit "cats" := cats]}.
Definition start : sim := Sim disk (λ _, 2%nat) 0.
Definition names : list cstr := [lit "fox"; lit "cats"].

Lemma names_hold : holds disk names [fox; cats].
Proof. repeat constructor. Qed.

Lemma cat_copies_witness : ∃ w', run sim_sys (Cat.cat_main 100 (lit "cat" :: names)) start = Exited 0 w' ∧
  s_io w' = set_out 1 (fox ++ cats) disk.
Proof.
  destruct (cat_copies (sys := sim_sys) (view := s_io) 100 (lit "cat") names [fox; cats] start []) as (H & _ & _).
  - exact names_hold.
  - vm_compute. lia.
  - repeat constructor; vm_compute; lia.
  - reflexivity.
  - exact (H ltac:(discriminate)).
Defined.

Lemma wc_counts_witness : ∃ w', run sim_sys (Wc.wc_main 100 (lit "wc" :: names)) start = Exited 0 w' ∧
  s_io w' = set_out 1 (line "2 5 20 fox" ++ line "1 2 10 cats") disk.
Proof.
  destruct (wc_counts (sys := sim_sys) (view := s_io) 100 (lit "wc") names [fox; cats] start []) as (H & _).
  - exact names_hold.
  - vm_compute. lia.
  - repeat constructor; vm_compute; lia.
  - repeat constructor; vm_compute; reflexivity.
  - repeat constructor; vm_compute; discriminate.
  - reflexivity.
  - destruct (H ltac:(discriminate)) as (w' & E & V). exists w'. split; [exact E|]. rewrite V. reflexivity.
Defined.

Lemma grep_prints_witness : ∃ w', run sim_sys (GrepMain.grep_main 100 (lit "grep" :: lit "o.*s$" :: names)) start = Exited 0 w' ∧
  s_io w' = set_out 1 (line "two  cats") disk.
Proof.
  destruct (grep_prints (sys := sim_sys) (view := s_io) 100 (lit "grep") (lit "o.*s$") names [fox; cats] start []) as (_ & H & _).
  - repeat constructor; vm_compute; discriminate.
  - exact names_hold.
  - vm_compute. lia.
  - repeat constructor; vm_compute; lia.
  - repeat constructor; vm_compute; discriminate.
  - repeat constructor; vm_compute; lia.
  - reflexivity.
  - destruct (H ltac:(discriminate)) as (w' & E & V). exists w'. split; [exact E|]. rewrite V. reflexivity.
Defined.
End TwoFiles.
