(* ===== verification/Umalloc.v ===== *)
(** The memory allocator of user programs, [user/umalloc.c].

    The memory is the header at every address; headers are 16 bytes long and
    pointer arithmetic on [Header *] counts in them.  The system call [sbrk] moves the
    break and returns the old one; whether the kernel grants a request is
    the parameter [grants]. *)

From stdpp Require Import functions.
From S2P Require Import Prelude.

(** [union header]. *)
Record header := Header { s_ptr : Z; s_size : Z }.
Definition HEADER : Z := 16.

Record heap := Heap {
  hp_mem : Z → header;
  hp_freep : Z;
  hp_brk : Z;
}.
Definition set_hp_mem (v : Z → header) (h : heap) : heap := Heap v (hp_freep h) (hp_brk h).
Definition set_hp_freep (v : Z) (h : heap) : heap := Heap (hp_mem h) v (hp_brk h).
Definition set_hp_brk (v : Z) (h : heap) : heap := Heap (hp_mem h) (hp_freep h) v.

Section umalloc.
Context (base : Z).  (* the address of the static header *)
Context (grants : Z → Z → bool).

Definition hdr (p : Z) : M heap header := gets (λ h, hp_mem h p).
Definition set_ptr (p v : Z) : M heap unit :=
  modify (λ h, set_hp_mem (<[p := Header v (s_size (hp_mem h p))]> (hp_mem h)) h).
Definition set_size (p v : Z) : M heap unit :=
  modify (λ h, set_hp_mem (<[p := Header (s_ptr (hp_mem h p)) (u32 v)]> (hp_mem h)) h).

Definition SBRK_ERROR : Z := -1.

Definition sbrk (n : Z) : M heap Z :=
  b ← gets hp_brk;
  if grants b n then modify (set_hp_brk (b + n)) ;; mret b
  else mret SBRK_ERROR.

(** The search of [free] for the place of [bp] in the list. *)
Definition free_body (bp p : Z) : M heap (Z + Z) :=
  x ← hdr p;
  if (p <? bp) && (bp <? s_ptr x) then mret (inr p)
  else if (s_ptr x <=? p) && ((p <? bp) || (bp <? s_ptr x)) then mret (inr p)
  else mret (inl (s_ptr x)).

(** A bound on the length of the list: every header takes its place. *)
Definition list_fuel (h : heap) : nat := S (S (Z.to_nat (hp_brk h / HEADER))).

Definition free (ap : Z) : M heap unit :=
  let bp := ap - HEADER in
  h ← get;
  p ← loop (list_fuel h) (free_body bp) (hp_freep h);
  xb ← hdr bp;
  xp ← hdr p;
  (if bp + HEADER * s_size xb =? s_ptr xp then
     next ← hdr (s_ptr xp);
     set_size bp (s_size xb + s_size next) ;;
     set_ptr bp (s_ptr next)
   else set_ptr bp (s_ptr xp)) ;;
  xb ← hdr bp;
  xp ← hdr p;
  (if p + HEADER * s_size xp =? bp then
     set_size p (s_size xp + s_size xb) ;;
     set_ptr p (s_ptr xb)
   else set_ptr p bp) ;;
  modify (set_hp_freep p).

(** 0 if the kernel has no memory. *)
Definition morecore (nu : Z) : M heap Z :=
  let nu := if nu <? 4096 then 4096 else nu in
  p ← sbrk (i32 (nu * HEADER));
  if p =? SBRK_ERROR then mret 0
  else
    set_size p nu ;;
    free (p + HEADER) ;;
    gets hp_freep.

(** One turn of the loop of [malloc]. *)
Definition malloc_body (nunits : Z) : Z * Z → M heap ((Z * Z) + Z) :=
  λ '(prevp, p),
    x ← hdr p;
    if nunits <=? s_size x then
      p ← (if s_size x =? nunits then set_ptr prevp (s_ptr x) ;; mret p
           else
             set_size p (s_size x - nunits) ;;
             let p := p + HEADER * (s_size x - nunits) in
             set_size p nunits ;;
             mret p);
      modify (set_hp_freep prevp) ;;
      mret (inr (p + HEADER))
    else
      fp ← gets hp_freep;
      if p =? fp then
        p ← morecore nunits;
        if p =? 0 then mret (inr 0)
        else x ← hdr p; mret (inl (p, s_ptr x))
      else mret (inl (p, s_ptr x)).

Definition units (nbytes : Z) : Z := u32 ((nbytes + HEADER - 1) / HEADER + 1).

Definition malloc (nbytes : Z) : M heap Z :=
  let nunits := units nbytes in
  fp ← gets hp_freep;
  prevp ← (if fp =? 0 then
             set_ptr base base ;;
             modify (set_hp_freep base) ;;
             set_size base 0 ;;
             mret base
           else mret fp);
  x ← hdr prevp;
  h ← get;
  loop (list_fuel h + list_fuel h) (malloc_body nunits) (prevp, s_ptr x).
End umalloc.
