(* ===== verification/UmallocSpec.v ===== *)
(** The heap of a user program is tiled by blocks.

    The blocks [B], free or allocated, lie one behind the other from the
    start of the heap to the break; no two free ones are neighbours.  The
    list that starts at [freep] links the static header and the free blocks in the order of
    their addresses.  [malloc] and [free] keep this, and change the
    allocated blocks by exactly the block they return or are given. *)

From stdpp Require Import functions.
From S2P Require Import Prelude Umalloc.

(** * Tilings *)

(** The size of a block in headers, and whether it is free. *)
Definition tile : Type := Z * bool.

Fixpoint top (a : Z) (B : list tile) : Z :=
  match B with [] => a | (s, _) :: B' => top (a + HEADER * s) B' end.
(** The addresses and sizes of the free and of the allocated blocks. *)
Fixpoint frees (a : Z) (B : list tile) : list (Z * Z) :=
  match B with [] => [] | (s, f) :: B' => (if f then [(a, s)] else []) ++ frees (a + HEADER * s) B' end.
Fixpoint allocs (a : Z) (B : list tile) : list (Z * Z) :=
  match B with [] => [] | (s, f) :: B' => (if f then [] else [(a, s)]) ++ allocs (a + HEADER * s) B' end.

Definition sized (B : list tile) : Prop := Forall (λ b, 1 ≤ b.1) B.

(** No two neighbours are free; [prev] says whether the block before is. *)
Fixpoint coalesced (prev : bool) (B : list tile) : Prop :=
  match B with [] => True | (_, f) :: B' => prev && f = false ∧ coalesced f B' end.
Fixpoint last_free (prev : bool) (B : list tile) : bool :=
  match B with [] => prev | (_, f) :: B' => last_free f B' end.

Lemma top_app a B1 B2 : top a (B1 ++ B2) = top (top a B1) B2.
Proof. revert a. induction B1 as [|[s f] B1 IH]; intros a; cbn; [done|]. apply IH. Qed.
Lemma frees_app a B1 B2 : frees a (B1 ++ B2) = frees a B1 ++ frees (top a B1) B2.
Proof. revert a. induction B1 as [|[s f] B1 IH]; intros a; cbn; [done|]. by rewrite IH, app_assoc. Qed.
Lemma allocs_app a B1 B2 : allocs a (B1 ++ B2) = allocs a B1 ++ allocs (top a B1) B2.
Proof. revert a. induction B1 as [|[s f] B1 IH]; intros a; cbn; [done|]. by rewrite IH, app_assoc. Qed.
Lemma coalesced_app p B1 B2 : coalesced p (B1 ++ B2) ↔ coalesced p B1 ∧ coalesced (last_free p B1) B2.
Proof. revert p. induction B1 as [|[s f] B1 IH]; intros p; cbn; [tauto|]. rewrite IH. tauto. Qed.
Lemma last_free_app p B1 B2 : last_free p (B1 ++ B2) = last_free (last_free p B1) B2.
Proof. revert p. induction B1 as [|[s f] B1 IH]; intros p; cbn; [done|]. apply IH. Qed.

Lemma top_le a B : sized B → a ≤ top a B.
Proof. intros HB. revert a. induction HB as [|[s f] B Hs _ IH]; intros a; cbn; [lia|]. specialize (IH (a + HEADER * s)). unfold HEADER in *. cbn in Hs. lia. Qed.

Lemma frees_range a B x s : sized B → (x, s) ∈ frees a B → a ≤ x ∧ 1 ≤ s ∧ x + HEADER * s ≤ top a B.
Proof.
  intros HB. revert a. induction HB as [|[t f] B Ht HB IH]; intros a; cbn; [by intros ?%not_elem_of_nil|].
  cbn in Ht. pose proof (top_le (a + HEADER * t) B HB). intros [Hx|Hx]%elem_of_app.
  - destruct f; [|by apply not_elem_of_nil in Hx]. apply list_elem_of_singleton in Hx as [= -> ->]. unfold HEADER in *. lia.
  - apply IH in Hx. unfold HEADER in *. lia.
Qed.
Lemma allocs_range a B x s : sized B → (x, s) ∈ allocs a B → a ≤ x ∧ 1 ≤ s ∧ x + HEADER * s ≤ top a B.
Proof.
  intros HB. revert a. induction HB as [|[t f] B Ht HB IH]; intros a; cbn; [by intros ?%not_elem_of_nil|].
  cbn in Ht. pose proof (top_le (a + HEADER * t) B HB). intros [Hx|Hx]%elem_of_app.
  - destruct f; [by apply not_elem_of_nil in Hx|]. apply list_elem_of_singleton in Hx as [= -> ->]. unfold HEADER in *. lia.
  - apply IH in Hx. unfold HEADER in *. lia.
Qed.

(** A block is free or allocated, not both. *)
Lemma frees_allocs a B x s t : sized B → (x, s) ∈ frees a B → (x, t) ∉ allocs a B.
Proof.
  intros HB. revert a. induction HB as [|[u f] B Hu HB IH]; intros a; cbn; [by intros ?%not_elem_of_nil|]. cbn in Hu.
  intros [Hx|Hx]%elem_of_app [Hy|Hy]%elem_of_app.
  - destruct f; [by apply not_elem_of_nil in Hy|by apply not_elem_of_nil in Hx].
  - destruct f; [|by apply not_elem_of_nil in Hx]. apply list_elem_of_singleton in Hx as [= -> ->]. apply allocs_range in Hy; [|done].
    unfold HEADER in *. lia.
  - destruct f; [by apply not_elem_of_nil in Hy|]. apply list_elem_of_singleton in Hy as [= -> ->]. apply frees_range in Hx; [|done].
    unfold HEADER in *. lia.
  - by apply (IH (a + HEADER * u)).
Qed.

Lemma frees_split a B x s : (x, s) ∈ frees a B → ∃ B1 B2, B = B1 ++ (s, true) :: B2 ∧ x = top a B1.
Proof.
  revert a. induction B as [|[t f] B IH]; intros a; cbn; [by intros ?%not_elem_of_nil|]. intros [Hx|Hx]%elem_of_app.
  - destruct f; [|by apply not_elem_of_nil in Hx]. apply list_elem_of_singleton in Hx as [= -> ->]. by exists [], B.
  - destruct (IH _ Hx) as (B1 & B2 & -> & ->). by exists ((t, f) :: B1), B2.
Qed.
Lemma allocs_split a B x s : (x, s) ∈ allocs a B → ∃ B1 B2, B = B1 ++ (s, false) :: B2 ∧ x = top a B1.
Proof.
  revert a. induction B as [|[t f] B IH]; intros a; cbn; [by intros ?%not_elem_of_nil|]. intros [Hx|Hx]%elem_of_app.
  - destruct f; [by apply not_elem_of_nil in Hx|]. apply list_elem_of_singleton in Hx as [= -> ->]. by exists [], B.
  - destruct (IH _ Hx) as (B1 & B2 & -> & ->). by exists ((t, f) :: B1), B2.
Qed.

(** Each free block takes at least one header. *)
Lemma frees_length a B : sized B → HEADER * Z.of_nat (length (frees a B)) ≤ top a B - a.
Proof.
  intros HB. revert a. induction HB as [|[t f] B Ht HB IH]; intros a; cbn; [lia|]. specialize (IH (a + HEADER * t)).
  rewrite length_app. cbn in Ht. unfold HEADER in *. destruct f; cbn; lia.
Qed.

(** * Linked headers *)

Section heap.
Context (base h0 : Z) (Hbase : 0 < base < h0).

Definition next (L : list (Z * Z)) : Z := match L with [] => base | (b, _) :: _ => b end.
Fixpoint links (mem : Z → header) (L : list (Z * Z)) : Prop :=
  match L with
  | [] => True
  | (a, s) :: L' => mem a = Header (next L') s ∧ links mem L'
  end.

Lemma next_app L1 L2 : next (L1 ++ L2) = match L1 with [] => next L2 | (b, _) :: _ => b end.
Proof. by destruct L1 as [|[b s] L1]. Qed.

Lemma links_at mem L1 a s L2 : links mem (L1 ++ (a, s) :: L2) → mem a = Header (next L2) s.
Proof. induction L1 as [|[b t] L1 IH]; cbn; [by intros [? _]|]. intros [_ Hl]. by apply IH. Qed.

(** Replacing a part of the list; the replacement starts at the same address. *)
Lemma links_splice mem mem' L1 M M' L2 :
  links mem (L1 ++ M ++ L2) → next (M' ++ L2) = next (M ++ L2) →
  (∀ a s, (a, s) ∈ L1 → mem' a = mem a) → links mem' (M' ++ L2) → links mem' (L1 ++ M' ++ L2).
Proof.
  intros Hl Hn Hm HM. induction L1 as [|[a s] L1 IH]; [done|]. cbn in Hl |- *. destruct Hl as [Ha Hl]. split.
  - rewrite (Hm a s) by set_solver. rewrite Ha. f_equal. rewrite !next_app. destruct L1 as [|[b t] L1]; [|done].
    by rewrite <-!next_app.
  - apply IH; [done|]. intros b t Hb. apply (Hm b t). set_solver.
Qed.

Lemma links_agree mem mem' L : (∀ a s, (a, s) ∈ L → mem' a = mem a) → links mem L → links mem' L.
Proof.
  intros Hm. induction L as [|[a s] L IH]; cbn; [done|]. intros [Ha Hl]. split; [rewrite (Hm a s); [done|set_solver]|].
  apply IH; [|done]. intros b t Hb. apply (Hm b t). set_solver.
Qed.

Lemma links_suffix mem L1 L2 : links mem (L1 ++ L2) → links mem L2.
Proof. induction L1 as [|[a s] L1 IH]; cbn; [done|]. intros [_ Hl]. by apply IH. Qed.

(** Addresses increase along the list. *)
Fixpoint increasing (L : list (Z * Z)) : Prop :=
  match L with
  | [] => True
  | (a, _) :: L' => match L' with [] => True | (b, _) :: _ => a < b end ∧ increasing L'
  end.

Lemma frees_increasing a B : sized B → increasing (frees a B).
Proof.
  intros HB. revert a. induction HB as [|[t f] B Ht HB IH]; intros a; cbn; [done|]. destruct f; [|apply IH]. cbn. split; [|apply IH].
  destruct (frees (a + HEADER * t) B) as [|[b u] L] eqn:E; [done|]. assert ((b, u) ∈ frees (a + HEADER * t) B) as Hb by (rewrite E; set_solver).
  apply frees_range in Hb; [|done]. cbn in Ht. unfold HEADER in *. lia.
Qed.

Lemma increasing_suffix L1 L2 : increasing (L1 ++ L2) → increasing L2.
Proof. induction L1 as [|[a s] L1 IH]; cbn; [done|]. intros [_ Hl]. by apply IH. Qed.
Lemma increasing_prefix L1 L2 : increasing (L1 ++ L2) → increasing L1.
Proof.
  induction L1 as [|[a s] L1 IH]; cbn; [done|]. intros [Ha Hl]. split; [|by apply IH]. by destruct L1 as [|[b t] L1].
Qed.

Lemma bind_hdr {A} a (f : header → M heap A) h : (hdr a ≫= f) h = f (hp_mem h a) h.
Proof. done. Qed.

(** * The state *)

Record inv (h : heap) (B : list tile) : Prop := {
  in_sized : sized B;
  in_co : coalesced false B;
  in_brk : hp_brk h = top h0 B;
  in_top : top h0 B < 2 ^ 36;
  in_links : links (hp_mem h) ((base, 0) :: frees h0 B);
  in_freep : hp_freep h ∈ fst <$> (base, 0) :: frees h0 B;
  in_alloc : ∀ x s, (x, s) ∈ allocs h0 B → s_size (hp_mem h x) = s;
}.

(** * The search of free *)

Section search.
Context (h : heap) (bp : Z) (Hbp : base < bp).

Lemma search_below L2 : (∀ x s, (x, s) ∈ L2 → bp < x) → ∀ l, l ≠ [] →
  links (hp_mem h) (l ++ L2) → increasing l → (∀ x s, (x, s) ∈ l → base ≤ x < bp) →
  ∀ fuel, (length l ≤ fuel)%nat → ∃ l' x s, l = l' ++ [(x, s)] ∧ loop fuel (free_body bp) (next l) h = Ok (x, h).
Proof.
  intros H2 l. induction l as [|[x s] l IH]; intros Hne Hl Hi Hb fuel Hf; [done|]. destruct fuel as [|fuel]; [cbn in Hf; lia|].
  cbn in Hl, Hi. destruct Hl as [Hx Hl], Hi as [Hxi Hi]. pose proof (Hb x s ltac:(set_solver)) as Hbx. cbn [next].
  destruct l as [|[y t] l].
  - exists [], x, s. split; [done|]. apply loop_done. unfold free_body. rewrite bind_hdr, Hx. cbn [s_ptr app].
    destruct (Z.ltb_spec x bp); [|lia]. cbn [andb]. destruct L2 as [|[y t] L2]; cbn [next].
    + destruct (Z.ltb_spec bp base); [lia|]. destruct (Z.leb_spec base x); [done|lia].
    + pose proof (H2 y t ltac:(set_solver)). destruct (Z.ltb_spec bp y); [done|lia].
  - pose proof (Hb y t ltac:(set_solver)) as Hby. destruct (IH ltac:(done) Hl Hi) with (fuel := fuel) as (l' & z & u & E & Hrun);
      [intros ? ? Hin; eapply Hb, list_elem_of_further, Hin|cbn in Hf |- *; lia|].
    exists ((x, s) :: l'), z, u. split; [by rewrite E|]. rewrite (loop_step _ _ _ _ y h); [exact Hrun|].
    unfold free_body. rewrite bind_hdr, Hx. cbn [s_ptr app next].
    destruct (Z.ltb_spec x bp); [|lia]. destruct (Z.ltb_spec bp y); [lia|]. cbn [andb]. destruct (Z.leb_spec y x); [lia|]. done.
Qed.

Lemma search_above l : links (hp_mem h) l → increasing l → (∀ x s, (x, s) ∈ l → bp < x) →
  ∀ fuel, loop (length l + fuel) (free_body bp) (next l) h = loop fuel (free_body bp) base h.
Proof.
  induction l as [|[x s] l IH]; intros Hl Hi Hb fuel; [done|]. cbn in Hl, Hi. destruct Hl as [Hx Hl], Hi as [Hxi Hi].
  pose proof (Hb x s ltac:(set_solver)) as Hbx. cbn [length Nat.add]. rewrite (loop_step _ _ _ _ (next l) h).
  - apply IH; [done|done|]. intros ? ? Hin; eapply Hb, list_elem_of_further, Hin.
  - cbn [next]. unfold free_body. rewrite bind_hdr, Hx. cbn [s_ptr]. destruct (Z.ltb_spec x bp); [lia|]. cbn [andb orb].
    destruct l as [|[y t] l]; cbn [next].
    + destruct (Z.ltb_spec bp base); [lia|]. by rewrite andb_false_r.
    + pose proof (Hb y t ltac:(set_solver)). destruct (Z.leb_spec y x); [lia|done].
Qed.

(** From any node of the list, the search ends at the last one below [bp]. *)
Lemma search_run L1 L2 a fuel :
  L1 ≠ [] → next L1 = base → links (hp_mem h) (L1 ++ L2) → increasing (L1 ++ L2) →
  (∀ x s, (x, s) ∈ L1 → base ≤ x < bp) → (∀ x s, (x, s) ∈ L2 → bp < x) →
  a ∈ fst <$> L1 ++ L2 → (length (L1 ++ L2) ≤ fuel)%nat →
  ∃ l x s, L1 = l ++ [(x, s)] ∧ loop fuel (free_body bp) a h = Ok (x, h).
Proof.
  intros Hne Hn Hl Hi H1 H2 Ha Hf. rewrite length_app in Hf. apply list_elem_of_fmap in Ha as ([a' s] & -> & Ha). cbn [fst].
  apply elem_of_app in Ha as [Ha|Ha]; apply list_elem_of_split in Ha as (l1 & l2 & ->).
  - destruct (search_below L2 H2 ((a', s) :: l2)) with (fuel := fuel) as (l' & x & t & E & Hrun).
    + done.
    + rewrite <-app_assoc in Hl. by apply links_suffix in Hl.
    + apply increasing_prefix in Hi. by apply increasing_suffix in Hi.
    + intros ? ? Hin. eapply H1, elem_of_app. right. exact Hin.
    + rewrite length_app in Hf. cbn in *. lia.
    + exists (l1 ++ l'), x, t. by rewrite E, app_assoc.
  - pose proof (links_suffix _ _ _ Hl) as Hl2. apply links_suffix in Hl2. pose proof (increasing_suffix _ _ Hi) as Hi2. apply increasing_suffix in Hi2.
    rewrite length_app in Hf. replace fuel with (length ((a', s) :: l2) + (fuel - length ((a', s) :: l2)))%nat by (cbn; cbn in Hf; lia).
    change a' with (next ((a', s) :: l2)) at 1. rewrite search_above; [|done|done|intros ? ? Hin; eapply H2, elem_of_app; right; exact Hin]. rewrite <-Hn.
    apply (search_below (l1 ++ (a', s) :: l2)); [done|done|done|by apply increasing_prefix in Hi|done|cbn in *; lia].
Qed.
End search.

(** * Writes *)

(** [h'] is [h] with the header at [a] replaced by [v]. *)
Record upd (a : Z) (v : header) (h h' : heap) : Prop := {
  up_at : hp_mem h' a = v;
  up_ne : ∀ x, x ≠ a → hp_mem h' x = hp_mem h x;
  up_freep : hp_freep h' = hp_freep h;
  up_brk : hp_brk h' = hp_brk h;
}.

Lemma set_ptr_upd a v h : ∃ h', set_ptr a v h = Ok (tt, h') ∧ upd a (Header v (s_size (hp_mem h a))) h h'.
Proof.
  eexists. split; [reflexivity|]. split; cbn; try done; [by rewrite fn_lookup_insert|]. intros x Hx. by rewrite fn_lookup_insert_ne.
Qed.
Lemma set_size_upd a v h : 0 ≤ v < 2 ^ 32 → ∃ h', set_size a v h = Ok (tt, h') ∧ upd a (Header (s_ptr (hp_mem h a)) v) h h'.
Proof.
  intros Hv. eexists. split; [reflexivity|]. split; cbn; try done.
  - rewrite fn_lookup_insert. f_equal. unfold u32. apply Z.mod_small. lia.
  - intros x Hx. by rewrite fn_lookup_insert_ne.
Qed.
Lemma upd_upd a v w h h' h'' : upd a v h h' → upd a w h' h'' → upd a w h h''.
Proof.
  intros [H1 H2 H3 H4] [H5 H6 H7 H8]. split; [done| |congruence|congruence]. intros x Hx. by rewrite H6, H2.
Qed.
Lemma set_both a n v h : 0 ≤ n < 2 ^ 32 → ∃ h', (set_size a n ;; set_ptr a v) h = Ok (tt, h') ∧ upd a (Header v n) h h'.
Proof.
  intros Hn. destruct (set_size_upd a n h Hn) as (h1 & E1 & U1), (set_ptr_upd a v h1) as (h2 & E2 & U2). exists h2. split.
  - by rewrite (bind_Ok_1 _ _ _ _ _ E1).
  - rewrite (up_at _ _ _ _ U1) in U2. by eapply upd_upd.
Qed.

(** * The two merges of free *)

Lemma next_frees_lt a B : sized B → base < a → match B with (_, true) :: _ => True | _ => next (frees a B) ≠ a end.
Proof.
  intros HB Ha. destruct HB as [|[s [|]] B Hs HB]; [cbn; lia|done|]. cbn in *. destruct (frees (a + HEADER * s) B) as [|[b t] L] eqn:E; cbn; [lia|].
  assert ((b, t) ∈ frees (a + HEADER * s) B) as Hb by (rewrite E; set_solver +). apply frees_range in Hb; [|done]. unfold HEADER in *. lia.
Qed.

(** The block behind [bp] is free. *)
Lemma merge_right h bp s B2 L2 :
  base < bp → 1 ≤ s → sized B2 → coalesced false B2 → top (bp + HEADER * s) B2 < 2 ^ 36 →
  L2 = frees (bp + HEADER * s) B2 → links (hp_mem h) L2 → s_size (hp_mem h bp) = s →
  ∃ h' r B2', (if bp + HEADER * s =? next L2 then
       next ← hdr (next L2); set_size bp (s + s_size next) ;; set_ptr bp (s_ptr next)
     else set_ptr bp (next L2)) h = Ok (tt, h') ∧
    upd bp (Header (next (frees (bp + HEADER * r) B2')) r) h h' ∧ s ≤ r ∧ sized B2' ∧ coalesced true B2' ∧
    top (bp + HEADER * r) B2' = top (bp + HEADER * s) B2 ∧ allocs (bp + HEADER * r) B2' = allocs (bp + HEADER * s) B2 ∧
    frees (bp + HEADER * r) B2' `suffix_of` L2.
Proof.
  intros Hbp Hs HB Hc Ht -> Hl Hsz. pose proof (next_frees_lt (bp + HEADER * s) B2 HB ltac:(unfold HEADER; lia)) as Hn.
  assert (coalesced true B2 ∧ next (frees (bp + HEADER * s) B2) ≠ bp + HEADER * s ∨ ∃ u B', B2 = (u, true) :: B') as [[Hc' Hn']|(u & B' & ->)]
    by (destruct B2 as [|[u [|]] B']; [by left|by right; eauto|by left]).
  2: { cbn in *. destruct Hl as [Hu Hl], Hc as [_ Hc]. rewrite Z.eqb_refl. rewrite bind_hdr, Hu. cbn [s_size s_ptr].
    apply Forall_cons in HB as [Hu1 HB]. cbn in Hu1. pose proof (top_le (bp + HEADER * s + HEADER * u) B' HB).
    destruct (set_both bp (s + u) (next (frees (bp + HEADER * s + HEADER * u) B')) h) as (h' & E & U); [unfold HEADER in *; lia|].
    exists h', (s + u), B'. rewrite E. replace (bp + HEADER * (s + u)) with (bp + HEADER * s + HEADER * u) by lia.
    repeat split; try done; try lia; [by apply U..|]. by exists [(bp + HEADER * s, u)]. }
  destruct (Z.eqb_spec (bp + HEADER * s) (next (frees (bp + HEADER * s) B2))) as [E|_]; [by rewrite <-E in Hn'|].
  destruct (set_ptr_upd bp (next (frees (bp + HEADER * s) B2)) h) as (h' & E & U). exists h', s, B2.
  rewrite Hsz in U. repeat split; try done; by apply U.
Qed.

(** The block before [bp] is free. *)
Lemma merge_left h bp r p t B1 l X :
  sized B1 → coalesced false B1 → bp = top h0 B1 → bp + HEADER * r < 2 ^ 36 → 1 ≤ r →
  (base, 0) :: frees h0 B1 = l ++ [(p, t)] → s_size (hp_mem h p) = t →
  ∃ h', (if p + HEADER * t =? bp then set_size p (t + r) ;; set_ptr p X else set_ptr p bp) h = Ok (tt, h') ∧
    ((∃ B1', B1 = B1' ++ [(t, true)] ∧ p = top h0 B1' ∧ l = (base, 0) :: frees h0 B1' ∧ upd p (Header X (t + r)) h h') ∨
     last_free false B1 = false ∧ upd p (Header bp t) h h').
Proof.
  intros HB Hc -> Ht Hr HL Hsz. destruct (decide (p + HEADER * t = top h0 B1)) as [E|E].
  - apply Z.eqb_eq in E as E'. rewrite E'. clear E'. destruct B1 as [|[w f] B1 _] using rev_ind.
    { cbn in *. destruct l as [|? l]; [|by destruct l]. injection HL as <- <-. lia. }
    apply Forall_app in HB as [HB Hw]. apply Forall_cons in Hw as [Hw _]. cbn in Hw. rewrite frees_app, top_app in *. cbn [frees top app] in E, HL, Ht.
    pose proof (top_le h0 B1 HB). destruct f; cbn [app] in HL.
    + change ((base, 0) :: frees h0 B1 ++ [(top h0 B1, w)]) with (((base, 0) :: frees h0 B1) ++ [(top h0 B1, w)]) in HL.
      apply app_inj_tail in HL as [<- [= <- <-]]. destruct (set_both (top h0 B1) (w + r) X h) as (h' & Er & U);
        [unfold HEADER in *; lia|].
      exists h'. split; [done|]. left. by exists B1.
    + rewrite app_nil_r in HL. assert ((p, t) ∈ (base, 0) :: frees h0 B1) as Hp by (rewrite HL; set_solver +).
      apply elem_of_cons in Hp as [[= -> ->]|Hp]; [|apply frees_range in Hp; [|done]]; unfold HEADER in *; lia.
  - apply Z.eqb_neq in E as E'. rewrite E'. destruct (set_ptr_upd p (top h0 B1) h) as (h' & Er & U). exists h'. split; [done|]. right.
    rewrite Hsz in U. split; [|done]. destruct B1 as [|[w f] B1 _] using rev_ind; [done|]. rewrite last_free_app. cbn. destruct f; [|done].
    destruct E. rewrite frees_app, top_app in *. cbn [frees top app] in HL |- *. rewrite app_comm_cons in HL. by apply app_inj_tail in HL as [_ [= <- <-]].
Qed.

Lemma increasing_last l p t : increasing (l ++ [(p, t)]) → ∀ a s, (a, s) ∈ l → a < p.
Proof.
  induction l as [|[b u] l IH]; cbn; [by intros _ ? ? ?%not_elem_of_nil|]. intros [Hb Hl] a s [[= -> ->]|Ha]%elem_of_cons; [|by eapply IH].
  destruct l as [|[c v] l]; [done|]. pose proof (IH Hl c v ltac:(set_solver +)). cbn in Hb. lia.
Qed.

Section free.
Context (h : heap) (B1 : list tile) (s : Z) (B2 : list tile) (Hinv : inv h (B1 ++ (s, false) :: B2)).
Notation bp := (top h0 B1).
Notation L1 := ((base, 0) :: frees h0 B1).
Notation L2 := (frees (top h0 B1 + HEADER * s) B2).

Lemma split_sized : sized B1 ∧ 1 ≤ s ∧ sized B2.
Proof. pose proof (in_sized _ _ Hinv) as HB. apply Forall_app in HB as [HB1 HB2]. by apply Forall_cons in HB2 as [Hs HB2]. Qed.
Lemma split_co : coalesced false B1 ∧ coalesced false B2.
Proof. pose proof (in_co _ _ Hinv) as HB. apply coalesced_app in HB as [HB1 HB2]. cbn in HB2. by destruct HB2. Qed.
Lemma split_frees : (base, 0) :: frees h0 (B1 ++ (s, false) :: B2) = L1 ++ L2.
Proof. rewrite frees_app. done. Qed.
Lemma split_top : top (bp + HEADER * s) B2 = hp_brk h ∧ hp_brk h < 2 ^ 36.
Proof. pose proof (in_brk _ _ Hinv) as E. pose proof (in_top _ _ Hinv). rewrite E. rewrite top_app in *. done. Qed.
Lemma split_low : base < bp.
Proof. destruct split_sized as (HB & _). pose proof (top_le h0 B1 HB). lia. Qed.
Lemma below a u : (a, u) ∈ L1 → base ≤ a < bp.
Proof.
  pose proof split_low. destruct split_sized as (HB & _). intros [[= -> ->]|Ha]%elem_of_cons; [lia|]. apply frees_range in Ha; [|done].
  unfold HEADER in *. lia.
Qed.
Lemma above a u : (a, u) ∈ L2 → bp < a.
Proof. destruct split_sized as (_ & Hs & HB). intros Ha. apply frees_range in Ha; [|done]. unfold HEADER in *. lia. Qed.
Lemma split_increasing : increasing (L1 ++ L2).
Proof.
  destruct split_sized as (HB1 & Hs & HB2). rewrite <-split_frees. cbn [increasing].
  pose proof (frees_increasing h0 _ (in_sized _ _ Hinv)) as Hi. split; [|done].
  destruct (frees h0 _) as [|[b u] L] eqn:E; [done|]. assert ((b, u) ∈ frees h0 (B1 ++ (s, false) :: B2)) as Hb by (rewrite E; set_solver +).
  apply frees_range in Hb; [lia|apply Hinv].
Qed.

(** The blocks that stay allocated are neither [bp] nor free. *)
Lemma others_apart x u p t : (x, u) ∈ allocs h0 B1 ++ allocs (bp + HEADER * s) B2 → (p, t) ∈ L1 →
  x ≠ bp ∧ x ≠ p ∧ s_size (hp_mem h x) = u.
Proof.
  destruct split_sized as (HB1 & Hs & HB2). intros Hx Hp. split_and!.
  - apply elem_of_app in Hx as [Hx|Hx]; apply allocs_range in Hx; try done; unfold HEADER in *; lia.
  - intros ->. pose proof (below _ _ Hp). apply elem_of_app in Hx as [Hx|Hx].
    + apply elem_of_cons in Hp as [[= -> ->]|Hp]; [apply allocs_range in Hx; [lia|done]|]. by apply (frees_allocs h0 B1 p t u).
    + apply allocs_range in Hx; [|done]. unfold HEADER in *. lia.
  - apply (in_alloc _ _ Hinv). rewrite allocs_app. apply elem_of_app in Hx as [Hx|Hx]; apply elem_of_app; [by left|right].
    cbn. by right.
Qed.

Lemma bp_size : s_size (hp_mem h bp) = s.
Proof. apply (in_alloc _ _ Hinv). rewrite allocs_app. apply elem_of_app. right. cbn. by left. Qed.

(** The new tiling, when the list and the sizes are as it says. *)
Lemma free_inv h' p t l L2' v M B' :
  L1 = l ++ [(p, t)] → L2' `suffix_of` L2 → hp_freep h' = p → hp_brk h' = hp_brk h →
  (∀ x, x ≠ bp → x ≠ p → hp_mem h' x = hp_mem h x) →
  (base, 0) :: frees h0 B' = l ++ ((p, v) :: M) ++ L2' →
  (links (hp_mem h') L2' → links (hp_mem h') (((p, v) :: M) ++ L2')) →
  allocs h0 B' = allocs h0 B1 ++ allocs (bp + HEADER * s) B2 → top h0 B' = hp_brk h → sized B' → coalesced false B' →
  inv h' B'.
Proof.
  intros HL [Z HZ] Hfp Hbrk Hmem HL' Hlk Hal Htop Hsz Hco. destruct split_top as [_ Ht]. pose proof (in_links _ _ Hinv) as Hl. rewrite split_frees in Hl.
  assert (Hp : (p, t) ∈ L1) by (rewrite HL; set_solver +). pose proof (below _ _ Hp) as Hpr. split; try done.
  - by rewrite Hbrk.
  - by rewrite Htop.
  - rewrite HL'. rewrite HL, HZ, <-app_assoc, (app_assoc [_]) in Hl. apply (links_splice (hp_mem h) _ l ([(p, t)] ++ Z)); [done|done| |].
    + intros a u Ha. apply Hmem.
      * assert (Ha' : (a, u) ∈ L1) by (rewrite HL; apply elem_of_app; by left). apply below in Ha'. lia.
      * pose proof split_increasing as Hi. apply increasing_prefix in Hi. rewrite HL in Hi. pose proof (increasing_last _ _ _ Hi a u Ha). lia.
    + apply Hlk. eapply links_agree; [|by do 2 apply links_suffix in Hl]. intros a u Ha.
      assert (Ha' : (a, u) ∈ L2) by (rewrite HZ; apply elem_of_app; by right). apply above in Ha'. apply Hmem; lia.
  - rewrite Hfp, HL', !fmap_app. cbn. apply elem_of_app. right. by left.
  - intros x u Hx. rewrite Hal in Hx. destruct (others_apart x u p t Hx Hp) as (H1 & H2 & H3). by rewrite Hmem.
Qed.

Lemma free_search : ∃ l p t, L1 = l ++ [(p, t)] ∧ loop (list_fuel h) (free_body bp) (hp_freep h) h = Ok (p, h).
Proof.
  apply (search_run h bp split_low L1 L2); [done|done| |apply split_increasing|apply below|apply above| |].
  - rewrite <-split_frees. apply Hinv.
  - rewrite <-split_frees. apply Hinv.
  - rewrite <-split_frees. pose proof (frees_length h0 _ (in_sized _ _ Hinv)) as Hf. rewrite <-(in_brk _ _ Hinv) in Hf.
    unfold list_fuel. cbn [length]. unfold HEADER in *. pose proof (Z.div_mod (hp_brk h) 16). pose proof (Z.mod_pos_bound (hp_brk h) 16). lia.
Qed.

(** What [free] leaves. *)
Definition freed (h' : heap) (B' : list tile) : Prop :=
  inv h' B' ∧ hp_brk h' = hp_brk h ∧ allocs h0 B' = allocs h0 B1 ++ allocs (bp + HEADER * s) B2 ∧
  (length (frees h0 B') ≤ S (length (frees h0 (B1 ++ (s, false) :: B2))))%nat ∧ ∃ x t, (x, t) ∈ frees h0 B' ∧ s ≤ t.

Section freed.
Context (h2 : heap) (p t : Z) (l : list (Z * Z)) (r : Z) (B2' : list tile).
Context (HL : L1 = l ++ [(p, t)]) (Hoff : ∀ x, x ≠ bp → x ≠ p → hp_mem h2 x = hp_mem h x) (Hbrk : hp_brk h2 = hp_brk h).
Context (Hr : s ≤ r) (HB2' : sized B2') (Hc2' : coalesced true B2') (Htr : top (bp + HEADER * r) B2' = top (bp + HEADER * s) B2).
Context (Har : allocs (bp + HEADER * r) B2' = allocs (bp + HEADER * s) B2) (Hsuf : frees (bp + HEADER * r) B2' `suffix_of` L2).

(** The block joins the free one before it. *)
Lemma freed_joined B1' : B1 = B1' ++ [(t, true)] → p = top h0 B1' → l = (base, 0) :: frees h0 B1' →
  hp_mem h2 p = Header (next (frees (bp + HEADER * r) B2')) (t + r) → freed (set_hp_freep p h2) (B1' ++ (t + r, true) :: B2').
Proof.
  intros EB Ep El Hmem. destruct split_sized as (HB1 & Hs & HB2), split_co as [Hc1 Hc2], split_top as [Ht Ht'].
  pose proof (suffix_length _ _ Hsuf) as Hlen.
  assert (Ebp : bp = top h0 B1' + HEADER * t) by (by rewrite EB, top_app).
  assert (Etr : top h0 B1' + HEADER * (t + r) = bp + HEADER * r) by lia.
  assert (Hal : allocs h0 (B1' ++ (t + r, true) :: B2') = allocs h0 B1 ++ allocs (bp + HEADER * s) B2).
  { rewrite allocs_app. cbn [allocs app]. by rewrite Etr, Har, EB, allocs_app, app_nil_r. }
  assert (Hf : frees h0 (B1' ++ (t + r, true) :: B2') = frees h0 B1' ++ (top h0 B1', t + r) :: frees (bp + HEADER * r) B2').
  { rewrite frees_app. cbn [frees app]. by rewrite Etr. }
  assert (Ht1 : 1 ≤ t ∧ sized B1' ∧ coalesced false B1' ∧ last_free false B1' = false).
  { rewrite EB in HB1, Hc1. apply Forall_app in HB1 as [HB1 Hx]. apply Forall_cons in Hx as [Hx _]. apply coalesced_app in Hc1 as [Hc1 Hct].
    cbn in Hct. rewrite andb_true_r in Hct. by destruct Hct. }
  destruct Ht1 as (Ht1 & HB1' & Hc1' & Hlf).
  split_and!; [|done|done| |].
  - eapply (free_inv _ p t l _ (t + r) []); [exact HL|exact Hsuf|done|done|exact Hoff|by rewrite Hf, Ep, El| |done| | |].
    + intros Hlk. by split.
    + rewrite top_app. cbn [top]. by rewrite Etr, Htr.
    + apply Forall_app. split; [done|]. apply Forall_cons. split; [cbn; lia|done].
    + apply coalesced_app. split; [done|]. cbn. by rewrite Hlf.
  - assert (Hl1 : length (frees h0 B1) = S (length (frees h0 B1'))) by (rewrite EB, frees_app, length_app; cbn; lia).
    rewrite Hf, frees_app, !length_app. cbn [length frees app]. lia.
  - exists (top h0 B1'), (t + r). rewrite Hf. split; [set_solver +|lia].
Qed.

(** The block stands alone, or joins the free one behind it. *)
Lemma freed_apart : last_free false B1 = false → hp_mem h2 p = Header bp t →
  hp_mem h2 bp = Header (next (frees (bp + HEADER * r) B2')) r → freed (set_hp_freep p h2) (B1 ++ (r, true) :: B2').
Proof.
  intros Hlf Hmem Hmbp. destruct split_sized as (HB1 & Hs & HB2), split_co as [Hc1 Hc2], split_top as [Ht Ht'].
  pose proof (suffix_length _ _ Hsuf) as Hlen.
  assert (Hf : frees h0 (B1 ++ (r, true) :: B2') = frees h0 B1 ++ (bp, r) :: frees (bp + HEADER * r) B2') by (by rewrite frees_app).
  assert (Hal : allocs h0 (B1 ++ (r, true) :: B2') = allocs h0 B1 ++ allocs (bp + HEADER * s) B2) by (rewrite allocs_app; cbn [allocs app]; by rewrite Har).
  split_and!; [|done|done| |].
  - eapply (free_inv _ p t l _ t [(bp, r)]); [exact HL|exact Hsuf|done|done|exact Hoff| | |done| | |].
    + rewrite Hf, app_comm_cons, HL, <-app_assoc. done.
    + intros Hlk. by repeat split.
    + rewrite top_app. cbn [top]. by rewrite Htr.
    + apply Forall_app. split; [done|]. apply Forall_cons. split; [cbn; lia|done].
    + apply coalesced_app. split; [done|]. cbn. by rewrite Hlf.
  - rewrite Hf, frees_app, !length_app. cbn [length frees app]. lia.
  - exists bp, r. rewrite Hf. split; [set_solver +|lia].
Qed.
End freed.

Lemma free_ok : ∃ h' B', free (bp + HEADER) h = Ok (tt, h') ∧ freed h' B'.
Proof.
  destruct split_sized as (HB1 & Hs & HB2), split_co as [Hc1 Hc2], split_top as [Ht Ht'], free_search as (l & p & t & HL & Hrun).
  pose proof split_low as Hlow. pose proof (in_links _ _ Hinv) as Hl. rewrite split_frees in Hl. pose proof (links_suffix _ _ _ Hl) as Hl2.
  assert (Hp : (p, t) ∈ L1) by (rewrite HL; set_solver +). pose proof (below _ _ Hp) as Hpr.
  assert (Hmp : hp_mem h p = Header (next L2) t) by (rewrite HL, <-app_assoc in Hl; by apply links_at in Hl).
  destruct (merge_right h bp s B2 L2 Hlow Hs HB2 Hc2 ltac:(lia) eq_refl Hl2 bp_size) as (h1 & r & B2' & E1 & U1 & Hr & HB2' & Hc2' & Htr & Har & Hsuf).
  destruct (merge_left h1 bp r p t B1 l (next (frees (bp + HEADER * r) B2')) HB1 Hc1 eq_refl) as (h2 & E2 & Hcase); [|lia|done| |].
  { pose proof (top_le (bp + HEADER * r) B2' HB2'). lia. }
  { rewrite (up_ne _ _ _ _ U1) by lia. by rewrite Hmp. }
  assert (Hfree : free (bp + HEADER) h = Ok (tt, set_hp_freep p h2)).
  { unfold free. replace (bp + HEADER - HEADER) with bp by lia. change (@get heap) with (gets (λ x : heap, x)). rewrite bind_gets. cbv beta.
    rewrite (bind_Ok_1 _ _ _ _ _ Hrun).
    rewrite bind_hdr, bind_hdr, Hmp, bp_size. cbn [s_ptr s_size]. rewrite (bind_Ok_1 _ _ _ _ _ E1).
    rewrite bind_hdr, bind_hdr, (up_at _ _ _ _ U1), (up_ne _ _ _ _ U1 p) by lia. rewrite Hmp. cbn [s_ptr s_size].
    by rewrite (bind_Ok_1 _ _ _ _ _ E2). }
  exists (set_hp_freep p h2).
  assert (Hoff : ∀ x, x ≠ bp → x ≠ p → hp_mem h2 x = hp_mem h x).
  { intros x H1 H2. destruct Hcase as [(B1' & _ & _ & _ & U2)|[_ U2]]; rewrite (up_ne _ _ _ _ U2) by done; by apply U1. }
  assert (Hbrk : hp_brk h2 = hp_brk h).
  { rewrite <-(up_brk _ _ _ _ U1). destruct Hcase as [(B1' & _ & _ & _ & U2)|[_ U2]]; apply U2. }
  destruct Hcase as [(B1' & EB & Ep & El & U2)|[Hlf U2]].
  - exists (B1' ++ (t + r, true) :: B2'). split; [done|]. eapply freed_joined; try done. apply U2.
  - exists (B1 ++ (r, true) :: B2'). split; [done|]. eapply freed_apart; try done; [apply U2|].
    rewrite (up_ne _ _ _ _ U2) by lia. apply U1.
Qed.
End free.

(** * Taking a block *)

Lemma increasing_lt l a u b t l' : increasing (l ++ (b, t) :: l') → (a, u) ∈ l → a < b.
Proof.
  intros Hi. replace (l ++ (b, t) :: l') with ((l ++ [(b, t)]) ++ l') in Hi by by rewrite <-app_assoc.
  apply increasing_prefix in Hi. by apply (increasing_last l b t).
Qed.
Lemma increasing_gt b t l a u : increasing ((b, t) :: l) → (a, u) ∈ l → b < a.
Proof.
  revert b t. induction l as [|[c v] l IH]; [by intros ? ? _ ?%not_elem_of_nil|]. intros b t [Hb Hl] [[= -> ->]|Ha]%elem_of_cons; [done|].
  pose proof (IH c v Hl Ha). lia.
Qed.
(** An address occurs in the list once. *)
Lemma increasing_split l1 p t l2 k1 u k2 :
  increasing (l1 ++ (p, t) :: l2) → l1 ++ (p, t) :: l2 = k1 ++ (p, u) :: k2 → l1 = k1 ∧ t = u ∧ l2 = k2.
Proof.
  revert k1. induction l1 as [|[a s] l1 IH]; intros [|[b v] k1] Hi E; cbn in E.
  - by injection E as -> ->.
  - injection E as <- <- ->. assert (p < p); [|lia]. apply (increasing_gt p t (k1 ++ (p, u) :: k2) p u Hi). set_solver +.
  - injection E as -> -> <-. assert (p < p); [|lia]. apply (increasing_gt p u (l1 ++ (p, t) :: l2) p t Hi). set_solver +.
  - injection E as -> -> E. apply IH in E as (-> & -> & ->); [done|]. by destruct Hi.
Qed.
Lemma nodes_increasing h B : inv h B → increasing ((base, 0) :: frees h0 B).
Proof.
  intros Hinv. pose proof (frees_increasing h0 _ (in_sized _ _ Hinv)) as Hi. split; [|done].
  destruct (frees h0 B) as [|[b u] L] eqn:E; [done|]. assert ((b, u) ∈ frees h0 B) as Hb by (rewrite E; set_solver +).
  apply frees_range in Hb; [lia|apply Hinv].
Qed.
Lemma node_not_alloc h B a s x t : inv h B → (a, s) ∈ (base, 0) :: frees h0 B → (x, t) ∈ allocs h0 B → x ≠ a.
Proof.
  intros Hinv Ha Hx ->. pose proof (in_sized _ _ Hinv) as HB. apply elem_of_cons in Ha as [[= -> ->]|Ha].
  - apply allocs_range in Hx; [lia|done].
  - by apply (frees_allocs h0 B a s t).
Qed.

Section take.
Context (h : heap) (B : list tile) (l : list (Z * Z)) (prev w p t : Z) (l' : list (Z * Z)).
Context (Hinv : inv h B) (HL : (base, 0) :: frees h0 B = l ++ (prev, w) :: (p, t) :: l').

Lemma take_split : ∃ B1 B2, B = B1 ++ (t, true) :: B2 ∧ p = top h0 B1 ∧ (base, 0) :: frees h0 B1 = l ++ [(prev, w)] ∧
  l' = frees (p + HEADER * t) B2 ∧ sized B1 ∧ 1 ≤ t ∧ sized B2 ∧
  coalesced false B1 ∧ last_free false B1 = false ∧ coalesced true B2 ∧ p + HEADER * t ≤ hp_brk h.
Proof.
  pose proof (in_sized _ _ Hinv) as HB. pose proof (in_co _ _ Hinv) as Hc. pose proof (nodes_increasing _ _ Hinv) as Hi. pose proof (in_brk _ _ Hinv) as Hb.
  assert (Hp : (p, t) ∈ frees h0 B).
  { assert ((p, t) ∈ (base, 0) :: frees h0 B) as Hp by (rewrite HL; set_solver +). apply elem_of_cons in Hp as [[= -> ->]|Hp]; [|done].
    rewrite HL in Hi. destruct l as [|[b u] l1]; cbn in HL; [injection HL as <- <- _; destruct Hi; lia|]. injection HL as <- <- _.
    assert (base < base); [|lia]. eapply (increasing_gt base 0 _ base 0 Hi). set_solver +. }
  apply frees_split in Hp as (B1 & B2 & -> & ->). exists B1, B2. apply Forall_app in HB as [HB1 HB2]. apply Forall_cons in HB2 as [Ht HB2].
  apply coalesced_app in Hc as [Hc1 [Hf Hc2]]. rewrite andb_true_r in Hf. rewrite top_app in Hb. cbn [top] in Hb. pose proof (top_le (top h0 B1 + HEADER * t) B2 HB2).
  rewrite frees_app in HL, Hi. cbn [frees app] in HL, Hi. rewrite app_comm_cons in HL, Hi.
  replace (l ++ (prev, w) :: (top h0 B1, t) :: l') with ((l ++ [(prev, w)]) ++ (top h0 B1, t) :: l') in HL by by rewrite <-app_assoc.
  apply increasing_split in HL as (E1 & _ & E2); [|done]. split_and!; try done; lia.
Qed.

Lemma take_exact h' : upd prev (Header (s_ptr (hp_mem h p)) w) h h' →
  ∃ B', inv (set_hp_freep prev h') B' ∧ allocs h0 B' ≡ₚ (p, t) :: allocs h0 B.
Proof.
  intros U. destruct take_split as (B1 & B2 & -> & Hp & E1 & E2 & HB1 & Ht & HB2 & Hc1 & Hf & Hc2 & Hbrk). exists (B1 ++ (t, false) :: B2).
  pose proof (in_links _ _ Hinv) as Hl. rewrite HL in Hl. pose proof (nodes_increasing _ _ Hinv) as Hi.
  assert (Hmp : s_ptr (hp_mem h p) = next l').
  { replace (l ++ (prev, w) :: (p, t) :: l') with ((l ++ [(prev, w)]) ++ (p, t) :: l') in Hl by by rewrite <-app_assoc.
    apply links_at in Hl. by rewrite Hl. }
  assert (Hprev : (prev, w) ∈ (base, 0) :: frees h0 (B1 ++ (t, true) :: B2)) by (rewrite HL; set_solver +).
  assert (Hlist : (base, 0) :: frees h0 (B1 ++ (t, false) :: B2) = l ++ [(prev, w)] ++ l').
  { rewrite frees_app. cbn [frees app]. rewrite app_comm_cons, E1, <-Hp, <-E2, <-app_assoc. done. }
  assert (Hal : allocs h0 (B1 ++ (t, false) :: B2) ≡ₚ (p, t) :: allocs h0 (B1 ++ (t, true) :: B2)).
  { rewrite !allocs_app. cbn [allocs app]. rewrite <-Hp. by rewrite Permutation_middle. }
  split; [|done]. split.
  - apply Forall_app. split; [done|]. by apply Forall_cons.
  - apply coalesced_app. split; [done|]. cbn. rewrite andb_false_r. split; [done|]. by destruct B2 as [|[? []] ?]; destruct Hc2.
  - cbn. rewrite (up_brk _ _ _ _ U), (in_brk _ _ Hinv), !top_app. done.
  - pose proof (in_top _ _ Hinv). by rewrite !top_app in *.
  - rewrite Hlist. apply (links_splice (hp_mem h) _ l ([(prev, w); (p, t)])); [done|done| |].
    + intros a u Ha. cbn. apply U. rewrite HL in Hi. pose proof (increasing_lt _ _ _ _ _ _ Hi Ha). lia.
    + cbn. split; [rewrite (up_at _ _ _ _ U); by rewrite Hmp|]. rewrite HL in Hi. apply increasing_suffix in Hi.
      apply links_suffix in Hl. destruct Hl as (_ & _ & Hl). eapply links_agree; [|exact Hl]. intros a u Ha.
      apply U. assert (prev < a); [|lia]. eapply (increasing_gt prev w); [exact Hi|]. by right.
  - cbn [hp_freep set_hp_freep]. rewrite Hlist, fmap_app. apply elem_of_app. right. by left.
  - intros x u Hx. rewrite Hal in Hx. cbn. apply elem_of_cons in Hx as [[= -> ->]|Hx].
    + rewrite (up_ne _ _ _ _ U).
      * replace (l ++ (prev, w) :: (p, t) :: l') with ((l ++ [(prev, w)]) ++ (p, t) :: l') in Hl by by rewrite <-app_assoc.
        apply links_at in Hl. by rewrite Hl.
      * rewrite HL in Hi. apply increasing_suffix in Hi. destruct Hi. lia.
    + rewrite (up_ne _ _ _ _ U); [by apply (in_alloc _ _ Hinv)|]. by eapply node_not_alloc.
Qed.

Lemma take_tail n h' : 1 ≤ n < t → let q := p + HEADER * (t - n) in
  hp_mem h' p = Header (s_ptr (hp_mem h p)) (t - n) → s_size (hp_mem h' q) = n →
  (∀ x, x ≠ p → x ≠ q → hp_mem h' x = hp_mem h x) → hp_brk h' = hp_brk h →
  ∃ B', inv (set_hp_freep prev h') B' ∧ allocs h0 B' ≡ₚ (q, n) :: allocs h0 B.
Proof.
  intros Hn q Hp' Hq' Hoff Hbrk'. destruct take_split as (B1 & B2 & -> & Hp & E1 & E2 & HB1 & Ht & HB2 & Hc1 & Hf & Hc2 & Hbrk).
  exists (B1 ++ (t - n, true) :: (n, false) :: B2). pose proof (in_links _ _ Hinv) as Hl. rewrite HL in Hl. pose proof (nodes_increasing _ _ Hinv) as Hi.
  assert (Hq : p < q < p + HEADER * t) by (unfold q, HEADER; lia). assert (Eq : q + HEADER * n = p + HEADER * t) by (unfold q; lia).
  replace (l ++ (prev, w) :: (p, t) :: l') with ((l ++ [(prev, w)]) ++ [(p, t)] ++ l') in Hl by by rewrite <-app_assoc.
  assert (Hmp : s_ptr (hp_mem h p) = next l') by (apply links_at in Hl; by rewrite Hl).
  assert (Hlist : (base, 0) :: frees h0 (B1 ++ (t - n, true) :: (n, false) :: B2) = (l ++ [(prev, w)]) ++ [(p, t - n)] ++ l').
  { rewrite frees_app. cbn [frees app]. rewrite app_comm_cons, E1, <-Hp. fold q. by rewrite Eq, <-E2. }
  assert (Hal : allocs h0 (B1 ++ (t - n, true) :: (n, false) :: B2) ≡ₚ (q, n) :: allocs h0 (B1 ++ (t, true) :: B2)).
  { rewrite !allocs_app. cbn [allocs app]. rewrite <-Hp. fold q. rewrite Eq. by rewrite Permutation_middle. }
  assert (Htop : top h0 (B1 ++ (t - n, true) :: (n, false) :: B2) = top h0 (B1 ++ (t, true) :: B2)).
  { rewrite !top_app. cbn [top]. rewrite <-Hp. fold q. by rewrite Eq. }
  split; [|done]. split.
  - apply Forall_app. split; [done|]. repeat (apply Forall_cons; split; cbn; [lia|]). done.
  - apply coalesced_app. split; [done|]. cbn. rewrite Hf. split_and!; [done|done|]. by destruct B2 as [|[? []] ?]; destruct Hc2.
  - cbn. by rewrite Hbrk', (in_brk _ _ Hinv).
  - rewrite Htop. apply Hinv.
  - rewrite Hlist. apply (links_splice (hp_mem h) _ (l ++ [(prev, w)]) [(p, t)]); [done|done| |].
    + intros a u Ha. cbn. rewrite HL in Hi. replace (l ++ (prev, w) :: (p, t) :: l') with ((l ++ [(prev, w)]) ++ (p, t) :: l') in Hi by by rewrite <-app_assoc.
      pose proof (increasing_lt _ _ _ _ _ _ Hi Ha). apply Hoff; lia.
    + cbn. split; [by rewrite Hp', Hmp|]. do 2 apply links_suffix in Hl. eapply links_agree; [|exact Hl]. intros a u Ha.
      rewrite E2 in Ha. apply frees_range in Ha; [|done]. apply Hoff; lia.
  - cbn [hp_freep set_hp_freep]. rewrite Hlist, !fmap_app. apply elem_of_app. left. apply elem_of_app. right. by left.
  - intros x u Hx. rewrite Hal in Hx. cbn. apply elem_of_cons in Hx as [[= -> ->]|Hx]; [done|]. rewrite Hoff; [by apply (in_alloc _ _ Hinv)| |].
    + apply (node_not_alloc h _ p t x u Hinv); [|done]. rewrite HL. set_solver +.
    + rewrite allocs_app in Hx. cbn [allocs app] in Hx. rewrite <-Hp in Hx. apply elem_of_app in Hx as [Hx|Hx]; apply allocs_range in Hx; try done; unfold HEADER in *; lia.
Qed.

(** What a call of [malloc] that finds a block leaves. *)
Definition found (n : Z) (h : heap) (B : list tile) (a : Z) (h' : heap) : Prop :=
  ∃ B' q, a = q + HEADER ∧ inv h' B' ∧ hp_brk h' = hp_brk h ∧ allocs h0 B' ≡ₚ (q, n) :: allocs h0 B.

Lemma take_found grants n : 1 ≤ n ≤ t → ∃ a h', malloc_body grants n (prev, p) h = Ok (inr a, h') ∧ found n h B a h'.
Proof.
  intros Hn. pose proof (in_links _ _ Hinv) as Hl. rewrite HL in Hl. pose proof (in_top _ _ Hinv) as Htop.
  pose proof (links_at _ _ _ _ _ Hl) as Hprev. replace (l ++ (prev, w) :: (p, t) :: l') with ((l ++ [(prev, w)]) ++ (p, t) :: l') in Hl by by rewrite <-app_assoc.
  apply links_at in Hl as Hp. destruct take_split as (B1 & _ & _ & Ep & _ & _ & HB1 & _ & _ & _ & _ & _ & Hbrk). pose proof (top_le h0 B1 HB1).
  rewrite (in_brk _ _ Hinv) in Hbrk. unfold malloc_body. rewrite bind_hdr, Hp. cbn [s_size s_ptr]. destruct (Z.leb_spec n t); [|lia].
  destruct (Z.eqb_spec t n) as [<-|Hne].
  - destruct (set_ptr_upd prev (next l') h) as (h' & E & U). rewrite Hprev in U. cbn [s_size] in U.
    destruct (take_exact h') as (B' & Hi' & Ha'); [by rewrite Hp|].
    eexists _, _. rewrite (bind_Ok_1 _ _ _ p h') by (by rewrite (bind_Ok_1 _ _ _ _ _ E)). split; [reflexivity|].
    exists B', p. split_and!; [done|done|apply U|done].
  - destruct (set_size_upd p (t - n) h) as (h1 & E1 & U1); [unfold HEADER in *; lia|].
    destruct (set_size_upd (p + HEADER * (t - n)) n h1) as (h2 & E2 & U2); [unfold HEADER in *; lia|].
    destruct (take_tail n h2) as (B' & Hi' & Ha'); [lia| | | | |].
    + rewrite (up_ne _ _ _ _ U2) by (unfold HEADER; lia). apply U1.
    + by rewrite (up_at _ _ _ _ U2).
    + intros x H1 H2. by rewrite (up_ne _ _ _ _ U2), (up_ne _ _ _ _ U1).
    + rewrite (up_brk _ _ _ _ U2). apply U1.
    + eexists _, _. rewrite (bind_Ok_1 _ _ _ (p + HEADER * (t - n)) h2) by (by rewrite (bind_Ok_1 _ _ _ _ _ E1); cbv zeta; rewrite (bind_Ok_1 _ _ _ _ _ E2)).
      split; [reflexivity|]. exists B', (p + HEADER * (t - n)). split_and!; [done|done| |done]. cbn. rewrite (up_brk _ _ _ _ U2). apply U1.
Qed.
End take.

(** * The search of malloc *)

Section scan.
Context (grants : Z → Z → bool) (n : Z) (Hn : 1 ≤ n).

Lemma malloc_skip h prev x t q : hp_mem h x = Header q t → t < n → x ≠ hp_freep h →
  malloc_body grants n (prev, x) h = Ok (inl (x, q), h).
Proof.
  intros Hx Ht Hne. unfold malloc_body. rewrite bind_hdr, Hx. cbn [s_size s_ptr]. destruct (Z.leb_spec n t); [lia|].
  rewrite bind_gets. by destruct (Z.eqb_spec x (hp_freep h)).
Qed.

(** A stretch [S] of the list that does not hold [freep]. *)
Lemma scan_stretch h B : inv h B → ∀ S prev w l1 l2 fuel,
  (base, 0) :: frees h0 B = l1 ++ (prev, w) :: S ++ l2 → (∀ x t, (x, t) ∈ S → x ≠ hp_freep h) →
  (∃ a h', loop (length S + fuel) (malloc_body grants n) (prev, next (S ++ l2)) h = Ok (a, h') ∧ found n h B a h') ∨
  ((∀ x t, (x, t) ∈ S → t < n) ∧ ∃ prev' w' l1', (base, 0) :: frees h0 B = l1' ++ (prev', w') :: l2 ∧
    loop (length S + fuel) (malloc_body grants n) (prev, next (S ++ l2)) h = loop fuel (malloc_body grants n) (prev', next l2) h).
Proof.
  intros Hinv S. induction S as [|[x t] S IH]; intros prev w l1 l2 fuel HL Hfp.
  { right. split; [by intros ? ? ?%not_elem_of_nil|]. by exists prev, w, l1. }
  cbn [app length Nat.add next]. cbn [app] in HL. destruct (Z.le_gt_cases n t) as [Hle|Hgt].
  - left. destruct (take_found h B l1 prev w x t _ Hinv HL grants n) as (a & h' & E & Hf); [lia|]. exists a, h'. split; [|done]. by apply loop_done.
  - replace (l1 ++ (prev, w) :: (x, t) :: S ++ l2) with ((l1 ++ [(prev, w)]) ++ (x, t) :: S ++ l2) in HL by by rewrite <-app_assoc.
    pose proof (in_links _ _ Hinv) as Hx. rewrite HL in Hx. apply links_at in Hx.
    rewrite (loop_step _ _ _ _ _ _ (malloc_skip h prev x t _ Hx Hgt (Hfp x t ltac:(set_solver +)))).
    destruct (IH x t (l1 ++ [(prev, w)]) l2 fuel HL) as [Hf|[Hs Hend]].
    + intros y u Hy. apply (Hfp y u). by right.
    + by left.
    + right. split; [|done]. intros y u [[= -> ->]|Hy]%elem_of_cons; [done|by eapply Hs].
Qed.

(** Once around the list, from [freep]. *)
Lemma scan_round h B l1 u l2 fuel : inv h B → (base, 0) :: frees h0 B = l1 ++ (hp_freep h, u) :: l2 →
  let start := (hp_freep h, next l2) in
  (∃ a h', loop (length l1 + length l2 + S fuel) (malloc_body grants n) start h = Ok (a, h') ∧ found n h B a h') ∨
  ((∀ x t, (x, t) ∈ (base, 0) :: frees h0 B → t < n) ∧ ∃ prev,
    loop (length l1 + length l2 + S fuel) (malloc_body grants n) start h = loop (S fuel) (malloc_body grants n) (prev, hp_freep h) h).
Proof.
  intros Hinv HL start. pose proof (nodes_increasing _ _ Hinv) as Hi. rewrite HL in Hi.
  assert (Hafter : ∀ x t, (x, t) ∈ l2 → x ≠ hp_freep h).
  { intros x t Hx. apply increasing_suffix in Hi. pose proof (increasing_gt _ _ _ _ _ Hi Hx). lia. }
  assert (Hbefore : ∀ x t, (x, t) ∈ l1 → x ≠ hp_freep h) by (intros x t Hx; pose proof (increasing_lt _ _ _ _ _ _ Hi Hx); lia).
  replace (length l1 + length l2 + S fuel)%nat with (length l2 + (length l1 + S fuel))%nat by lia.
  destruct (scan_stretch h B Hinv l2 (hp_freep h) u l1 [] (length l1 + S fuel)) as [Hf|[Hs2 (prev & w & l1' & HL' & Hrun)]];
    [by rewrite app_nil_r|done|left; by rewrite app_nil_r in Hf|].
  rewrite app_nil_r in Hrun. unfold start. rewrite Hrun. clear Hrun. destruct l1 as [|[b z] l1]; cbn [app] in HL.
  - right. injection HL as Hb <- ->. split; [|exists prev; cbn [next]; by rewrite Hb].
    intros x t [[= -> ->]|Hx]%elem_of_cons; [lia|by eapply Hs2].
  - injection HL as <- <- HL0. assert (HL : (base, 0) :: frees h0 B = [] ++ (base, 0) :: l1 ++ (hp_freep h, u) :: l2) by (by rewrite HL0).
    pose proof (in_links _ _ Hinv) as Hb. rewrite HL in Hb. apply links_at in Hb. cbn [length Nat.add next].
    rewrite (loop_step _ _ _ _ _ _ (malloc_skip h prev base 0 _ Hb ltac:(lia) (Hbefore base 0 ltac:(set_solver +)))).
    destruct (scan_stretch h B Hinv l1 base 0 [] ((hp_freep h, u) :: l2) (S fuel) HL) as [Hf|[Hs1 (prev' & w' & l1'' & HL'' & Hrun)]];
      [intros x t Hx; apply (Hbefore x t); by right|by left|].
    rewrite Hrun. cbn [next]. destruct (Z.le_gt_cases n u) as [Hle|Hgt].
    + left. destruct (take_found h B l1'' prev' w' _ u l2 Hinv HL'' grants n) as (a & h' & E & Hf); [lia|]. exists a, h'. split; [|done]. by apply loop_done.
    + right. split; [|by exists prev']. rewrite HL. cbn [app]. intros x t [[= -> ->]|[Hx|[[= -> ->]|Hx]%elem_of_cons]%elem_of_app]%elem_of_cons;
        [lia|by eapply Hs1|done|by eapply Hs2].
Qed.
End scan.

(** * More memory *)

Section core.
Context (grants : Z → Z → bool).

(** The memory the kernel adds is a block that is then freed. *)
Lemma grown_inv h B nu h' : inv h B → 1 ≤ nu → hp_brk h + HEADER * nu < 2 ^ 36 →
  upd (hp_brk h) (Header (s_ptr (hp_mem h (hp_brk h))) nu) (set_hp_brk (hp_brk h + HEADER * nu) h) h' → inv h' (B ++ [(nu, false)]).
Proof.
  intros Hinv Hnu Hsz U. pose proof (in_brk _ _ Hinv) as Hb. pose proof (in_sized _ _ Hinv) as HB. pose proof (top_le h0 B HB).
  assert (Hf : frees h0 (B ++ [(nu, false)]) = frees h0 B) by (rewrite frees_app; cbn; by rewrite app_nil_r).
  assert (Ht : top h0 (B ++ [(nu, false)]) = hp_brk h + HEADER * nu) by (by rewrite top_app, Hb).
  split.
  - apply Forall_app. split; [done|]. by apply Forall_singleton.
  - apply coalesced_app. split; [apply Hinv|]. cbn. by rewrite andb_false_r.
  - rewrite (up_brk _ _ _ _ U). by rewrite Ht.
  - by rewrite Ht.
  - rewrite Hf. eapply links_agree; [|apply Hinv]. intros a u Ha. apply U.
    apply elem_of_cons in Ha as [[= -> ->]|Ha]; [lia|]. apply frees_range in Ha; [|done]. unfold HEADER in *. lia.
  - rewrite (up_freep _ _ _ _ U), Hf. apply Hinv.
  - intros x t Hx. rewrite allocs_app in Hx. cbn in Hx. apply elem_of_app in Hx as [Hx|Hx].
    + rewrite (up_ne _ _ _ _ U); [by apply (in_alloc _ _ Hinv)|]. apply allocs_range in Hx; [|done]. unfold HEADER in *. lia.
    + apply list_elem_of_singleton in Hx as [= -> ->]. by rewrite <-Hb, (up_at _ _ _ _ U).
Qed.

Lemma morecore_ok h B n : inv h B → 1 ≤ n → let nu := Z.max n 4096 in
  HEADER * nu < 2 ^ 31 → hp_brk h + HEADER * nu < 2 ^ 36 →
  (morecore grants n h = Ok (0, h) ∧ grants (hp_brk h) (HEADER * nu) = false) ∨
  ∃ h' B', morecore grants n h = Ok (hp_freep h', h') ∧ inv h' B' ∧ allocs h0 B' = allocs h0 B ∧
    (length (frees h0 B') ≤ S (length (frees h0 B)))%nat ∧ ∃ x t, (x, t) ∈ frees h0 B' ∧ n ≤ t.
Proof.
  intros Hinv Hn nu Hi Ht. pose proof (in_brk _ _ Hinv) as Hb. pose proof (top_le h0 B (in_sized _ _ Hinv)) as Hlow.
  unfold morecore. replace (if n <? 4096 then 4096 else n) with nu by (unfold nu; destruct (Z.ltb_spec n 4096); lia).
  replace (i32 (nu * HEADER)) with (HEADER * nu).
  2: { rewrite i32_small; unfold HEADER in *; lia. }
  unfold sbrk. destruct (grants (hp_brk h) (HEADER * nu)) eqn:Eg.
  - right. destruct (set_size_upd (hp_brk h) nu (set_hp_brk (hp_brk h + HEADER * nu) h)) as (h1 & E1 & U1); [unfold HEADER in *; lia|].
    assert (Hinv1 : inv h1 (B ++ (nu, false) :: [])) by (eapply (grown_inv h B nu); [done|lia|done|exact U1]).
    destruct (free_ok h1 B nu [] Hinv1) as (h2 & B' & E2 & Hinv2 & _ & Hal & Hlen & x & t & Hx & Hxt).
    exists h2, B'. split_and!; [|done| | |exists x, t; split; [done|lia]].
    + rewrite (bind_Ok_1 _ _ _ (hp_brk h) (set_hp_brk (hp_brk h + HEADER * nu) h)) by (rewrite bind_gets, Eg; done).
      destruct (Z.eqb_spec (hp_brk h) SBRK_ERROR) as [E|_]; [unfold SBRK_ERROR in E; lia|].
      rewrite (bind_Ok_1 _ _ _ _ _ E1). rewrite Hb at 1. by rewrite (bind_Ok_1 _ _ _ _ _ E2).
    + rewrite Hal. cbn. by rewrite app_nil_r.
    + rewrite frees_app in Hlen. cbn in Hlen. by rewrite app_nil_r in Hlen.
  - left. split; [|done]. rewrite (bind_Ok_1 _ _ _ SBRK_ERROR h) by (rewrite bind_gets, Eg; done). done.
Qed.

(** Fuel for one round. *)
Lemma nodes_length h B : inv h B → (length ((base, 0%Z) :: frees h0 B) < list_fuel h)%nat.
Proof.
  intros Hinv. pose proof (frees_length h0 _ (in_sized _ _ Hinv)) as Hf. rewrite <-(in_brk _ _ Hinv) in Hf.
  unfold list_fuel. cbn [length]. unfold HEADER in *. pose proof (Z.div_mod (hp_brk h) 16). pose proof (Z.mod_pos_bound (hp_brk h) 16). lia.
Qed.

Lemma freep_node h B : inv h B → ∃ l1 u l2, (base, 0) :: frees h0 B = l1 ++ (hp_freep h, u) :: l2 ∧ s_ptr (hp_mem h (hp_freep h)) = next l2 ∧ 0 < hp_freep h.
Proof.
  intros Hinv. pose proof (in_freep _ _ Hinv) as Hf. apply list_elem_of_fmap in Hf as ([a u] & E & Ha). cbn in E. rewrite E. pose proof Ha as Ha'.
  apply list_elem_of_split in Ha as (l1 & l2 & HL). exists l1, u, l2. split; [done|]. pose proof (in_links _ _ Hinv) as Hl. rewrite HL in Hl.
  apply links_at in Hl. rewrite Hl. split; [done|]. apply elem_of_cons in Ha' as [[= -> ->]|Ha]; [lia|]. apply frees_range in Ha; [lia|apply Hinv].
Qed.

(** What a call of [malloc] for [n] headers leaves. *)
Definition served (n : Z) (h : heap) (B : list tile) (r : Z) (h' : heap) : Prop :=
  ∃ B', inv h' B' ∧ ((r = 0 ∧ allocs h0 B' = allocs h0 B ∧ grants (hp_brk h) (HEADER * Z.max n 4096) = false) ∨
    ∃ q, r = q + HEADER ∧ allocs h0 B' ≡ₚ (q, n) :: allocs h0 B).

Lemma malloc_loop h B n fuel : inv h B → 1 ≤ n → HEADER * Z.max n 4096 < 2 ^ 31 → hp_brk h + HEADER * Z.max n 4096 < 2 ^ 36 →
  (list_fuel h + list_fuel h ≤ fuel)%nat →
  ∃ r h', loop fuel (malloc_body grants n) (hp_freep h, s_ptr (hp_mem h (hp_freep h))) h = Ok (r, h') ∧ served n h B r h'.
Proof.
  intros Hinv Hn Hi Ht Hf. pose proof (nodes_length _ _ Hinv) as Hlen. destruct (freep_node _ _ Hinv) as (l1 & u & l2 & HL & Hptr & Hfp).
  rewrite Hptr. pose proof Hlen as Hlen'. rewrite HL, length_app in Hlen. cbn [length] in Hlen.
  replace fuel with (length l1 + length l2 + S (fuel - length l1 - length l2 - 1))%nat by lia. set (rest := (fuel - length l1 - length l2 - 1)%nat).
  destruct (scan_round grants n Hn h B l1 u l2 rest Hinv HL) as [(a & h' & E & B' & q & Hq & Hinv' & _ & Ha)|[Hs (prev & E)]]; rewrite E.
  { exists a, h'. split; [done|]. exists B'. split; [done|]. right. by exists q. }
  assert (Hmem : hp_mem h (hp_freep h) = Header (next l2) u) by (pose proof (in_links _ _ Hinv) as Hl; rewrite HL in Hl; by apply links_at in Hl).
  assert (Hu : u < n) by (apply (Hs (hp_freep h)); rewrite HL; set_solver +).
  assert (Hbody : ∀ r h1, morecore grants n h = Ok (r, h1) → malloc_body grants n (prev, hp_freep h) h =
            if r =? 0 then Ok (inr 0, h1) else Ok (inl (r, s_ptr (hp_mem h1 r)), h1)).
  { intros r h1 Em. unfold malloc_body. rewrite bind_hdr, Hmem. cbn [s_size s_ptr]. destruct (Z.leb_spec n u); [lia|].
    rewrite bind_gets, Z.eqb_refl, (bind_Ok_1 _ _ _ _ _ Em). by destruct (r =? 0). }
  destruct (morecore_ok h B n Hinv Hn Hi Ht) as [[Em Hg]|(h1 & B1 & Em & Hinv1 & Hal & Hlen1 & x & t & Hx & Hxt)]; specialize (Hbody _ _ Em).
  - exists 0, h. split; [by apply loop_done|]. exists B. split; [done|]. by left.
  - destruct (freep_node _ _ Hinv1) as (k1 & v & k2 & HK & Hptr1 & Hfp1). destruct (Z.eqb_spec (hp_freep h1) 0) as [?|_]; [lia|].
    rewrite (loop_step _ _ _ _ _ _ Hbody), Hptr1. assert (Hlk := f_equal length HK). rewrite length_app in Hlk. cbn [length] in Hlk, Hlen'.
    replace rest with (length k1 + length k2 + S (rest - length k1 - length k2 - 1))%nat by lia.
    destruct (scan_round grants n Hn h1 B1 k1 v k2 (rest - length k1 - length k2 - 1) Hinv1 HK) as [(a & h' & E' & B' & q & Hq & Hinv' & _ & Ha)|[Hs' _]].
    + exists a, h'. split; [done|]. exists B'. split; [done|]. right. exists q. by rewrite <-Hal.
    + assert (t < n); [|lia]. apply (Hs' x). by right.
Qed.

(** * Programs *)

(** A request the arithmetic of the allocator can hold: the bytes asked from
    the kernel fit an [int], and no block can grow past 2^32 headers. *)
Definition fits (h : heap) (nbytes : Z) : Prop :=
  0 ≤ nbytes < 2 ^ 31 - 31 ∧ hp_brk h + HEADER * Z.max (units nbytes) 4096 < 2 ^ 36.

(** The heaps of a program that frees only what it holds; the list is what it
    holds, each as the pointer it got and the bytes it asked for. *)
Inductive reachable : heap → list (Z * Z) → Prop :=
| reach_start mem : reachable (Heap mem 0 h0) []
| reach_malloc h A nbytes p h' :
    reachable h A → fits h nbytes → malloc base grants nbytes h = Ok (p, h') →
    reachable h' (if p =? 0 then A else (p, nbytes) :: A)
| reach_free h A1 p k A2 h' :
    reachable h (A1 ++ (p, k) :: A2) → free p h = Ok (tt, h') → reachable h' (A1 ++ A2).

Definition heap_ok (h : heap) (B : list tile) : Prop := inv h B ∨ hp_freep h = 0 ∧ hp_brk h = h0 ∧ B = [].
Definition block_of : Z * Z → Z * Z := λ '(p, k), (p - HEADER, units k).

Lemma units_spec k : 0 ≤ k < 2 ^ 31 - 31 → k + HEADER ≤ HEADER * units k ∧ HEADER * units k < 2 ^ 31.
Proof.
  intros Hk. unfold units, u32, HEADER. pose proof (Z.div_mod (k + 16 - 1) 16). pose proof (Z.mod_pos_bound (k + 16 - 1) 16).
  rewrite Z.mod_small; lia.
Qed.

Lemma malloc_ok h B nbytes : heap_ok h B → fits h nbytes →
  ∃ r h', malloc base grants nbytes h = Ok (r, h') ∧ served (units nbytes) h B r h'.
Proof.
  intros Hok [Hk Hsz]. destruct (units_spec _ Hk) as [Hu1 Hu2]. unfold malloc. rewrite bind_gets.
  assert (Hm : HEADER * Z.max (units nbytes) 4096 < 2 ^ 31) by (unfold HEADER in *; lia).
  assert (Hun : 1 ≤ units nbytes) by (unfold HEADER in *; lia).
  destruct Hok as [Hinv|(Hfp & Hbrk & ->)].
  - destruct (freep_node _ _ Hinv) as (_ & _ & _ & _ & _ & Hpos). destruct (Z.eqb_spec (hp_freep h) 0); [lia|].
    rewrite bind_ret, bind_hdr. change (@get heap) with (gets (λ x : heap, x)). rewrite bind_gets. cbv beta. by apply malloc_loop.
  - rewrite Hfp. change (0 =? 0) with true. cbv iota.
    destruct (set_ptr_upd base base h) as (h1 & E1 & U1), (set_size_upd base 0 (set_hp_freep base h1)) as (h2 & E2 & U2); [lia|].
    rewrite (bind_Ok_1 _ _ _ base h2) by (rewrite (bind_Ok_1 _ _ _ _ _ E1);
      rewrite (bind_Ok_1 _ _ _ tt (set_hp_freep base h1)) by done; by rewrite (bind_Ok_1 _ _ _ _ _ E2)).
    assert (Hb2 : hp_brk h2 = hp_brk h) by (rewrite (up_brk _ _ _ _ U2); apply U1).
    assert (Hf2 : hp_freep h2 = base) by (by rewrite (up_freep _ _ _ _ U2)).
    assert (Hinv : inv h2 []).
    { split; [constructor|done|cbn; by rewrite Hb2|cbn; unfold HEADER in *; lia| |rewrite Hf2; by left|by intros ? ? ?%not_elem_of_nil].
      split; [|done]. rewrite (up_at _ _ _ _ U2). cbn. by rewrite (up_at _ _ _ _ U1). }
    rewrite bind_hdr. change (@get heap) with (gets (λ x : heap, x)). rewrite bind_gets. cbv beta.
    destruct (malloc_loop h2 [] (units nbytes) _ Hinv Hun Hm ltac:(by rewrite Hb2) (Nat.le_refl _)) as (r & h' & E & Hs).
    rewrite Hf2 in E. exists r, h'. split; [exact E|]. unfold served in *. by rewrite Hb2 in Hs.
Qed.

Lemma reachable_ok h A : reachable h A → ∃ B, heap_ok h B ∧ allocs h0 B ≡ₚ block_of <$> A ∧ Forall (λ x, 0 ≤ x.2 < 2 ^ 31 - 31) A.
Proof.
  induction 1 as [mem|h A nbytes p h' _ (B & Hok & Hal & HA) Hfit E|h A1 p k A2 h' _ (B & Hok & Hal & HA) E].
  - exists []. split_and!; [|done|done]. by right.
  - destruct (malloc_ok h B nbytes Hok Hfit) as (r & h'' & E' & B' & Hinv & Hcase). rewrite E in E'. injection E' as <- <-. exists B'. split; [by left|].
    destruct Hcase as [(-> & Ha & _)|(q & -> & Ha)]; [by rewrite Ha|].
    assert (Hq : (q, units nbytes) ∈ allocs h0 B') by (rewrite Ha; set_solver +). apply allocs_range in Hq; [|apply Hinv].
    destruct (Z.eqb_spec (q + HEADER) 0); [unfold HEADER in *; lia|]. rewrite Ha, Hal. cbn. replace (q + HEADER - HEADER) with q by lia.
    split; [done|]. apply Forall_cons. split; [apply Hfit|done].
  - assert (Hin : (p - HEADER, units k) ∈ allocs h0 B) by (rewrite Hal, fmap_app; cbn; set_solver +).
    pose proof (allocs_split _ _ _ _ Hin) as (B1 & B2 & -> & Hp). destruct Hok as [Hinv|(_ & _ & ?)]; [|by destruct B1].
    destruct (free_ok h B1 (units k) B2 Hinv) as (h'' & B' & E' & Hinv' & _ & Ha & _).
    replace (top h0 B1 + HEADER) with p in E' by lia. rewrite E in E'. injection E' as <-. exists B'. split; [by left|]. split.
    + rewrite Ha. apply (Permutation_cons_inv (a := (p - HEADER, units k))). rewrite fmap_app in Hal |- *. cbn [fmap list_fmap block_of] in Hal.
      rewrite allocs_app in Hal. cbn [allocs app] in Hal. rewrite Hp in Hal |- *. by rewrite !Permutation_middle, Hal.
    + apply Forall_app in HA as [HA1 HA2]. apply Forall_app. split; [done|]. by apply Forall_cons in HA2 as [_ HA2].
Qed.

Lemma allocs_disjoint a B x s y t : sized B → (x, s) ∈ allocs a B → (y, t) ∈ allocs a B → x ≠ y →
  x + HEADER * s ≤ y ∨ y + HEADER * t ≤ x.
Proof.
  intros HB. revert a. induction HB as [|[u f] B Hu HB IH]; intros a; cbn; [by intros ?%not_elem_of_nil|].
  intros [Hx|Hx]%elem_of_app [Hy|Hy]%elem_of_app Hne; [| | |by eapply IH]; (destruct f; [by apply not_elem_of_nil in Hx || by apply not_elem_of_nil in Hy|]).
  - apply list_elem_of_singleton in Hx as [= -> ->], Hy as [= -> ->]. done.
  - apply list_elem_of_singleton in Hx as [= -> ->]. apply allocs_range in Hy; [|done]. lia.
  - apply list_elem_of_singleton in Hy as [= -> ->]. apply allocs_range in Hx; [|done]. lia.
Qed.
Lemma allocs_nodup a B : sized B → NoDup (allocs a B).*1.
Proof.
  intros HB. revert a. induction HB as [|[u f] B Hu HB IH]; intros a; cbn; [constructor|]. destruct f; cbn; [apply IH|].
  apply NoDup_cons. split; [|apply IH]. intros ([x s] & -> & Hx)%list_elem_of_fmap. apply allocs_range in Hx; [|done]. cbn in Hu, Hx. unfold HEADER in *. lia.
Qed.

(** C12: A program that calls [malloc] and [free], and frees only what it holds, never has two blocks that overlap: every block it
    holds lies in the heap, with all the bytes it asked for.  No call hangs
    or fails: [malloc] of a size the allocator can represent returns, with 0 only if the kernel
    refuses to extend the heap, and [free] of a block the program holds returns. *)
Theorem umalloc_safe h A : reachable h A →
  NoDup A.*1 ∧
  (∀ p k, (p, k) ∈ A → h0 + HEADER ≤ p ∧ p + k ≤ hp_brk h) ∧
  (∀ p k q m, (p, k) ∈ A → (q, m) ∈ A → p ≠ q → p + k ≤ q ∨ q + m ≤ p) ∧
  (∀ nbytes, fits h nbytes → ∃ p h', malloc base grants nbytes h = Ok (p, h') ∧
     (p = 0 → grants (hp_brk h) (HEADER * Z.max (units nbytes) 4096) = false)) ∧
  (∀ p k, (p, k) ∈ A → ∃ h', free p h = Ok (tt, h')).
Proof.
  intros (B & Hok & Hal & HA)%reachable_ok. rewrite Forall_forall in HA.
  assert (HB : sized B ∧ hp_brk h = top h0 B) by (destruct Hok as [Hinv|(_ & ? & ->)]; [split; apply Hinv|by split; [constructor|]]).
  destruct HB as [HB Hbrk]. assert (Hin : ∀ p k, (p, k) ∈ A → (p - HEADER, units k) ∈ allocs h0 B ∧ k + HEADER ≤ HEADER * units k).
  { intros p k Hp. split; [|by apply units_spec, (HA _ Hp)]. rewrite Hal. by apply (list_elem_of_fmap_2 block_of _ (p, k)). }
  split_and!.
  - apply (NoDup_fmap_1 (λ p, p - HEADER)). replace ((λ p, p - HEADER) <$> A.*1) with ((block_of <$> A).*1).
    + rewrite <-Hal. by apply allocs_nodup.
    + rewrite <-!list_fmap_compose. apply list_fmap_ext. by intros _ [p k] _.
  - intros p k Hp. destruct (Hin p k Hp) as [Hb Hu]. apply allocs_range in Hb; [|done]. lia.
  - intros p k q m Hp Hq Hne. destruct (Hin p k Hp) as [Hb Hu], (Hin q m Hq) as [Hb' Hu'].
    destruct (allocs_disjoint _ _ _ _ _ _ HB Hb Hb'); unfold HEADER in *; lia.
  - intros nbytes Hfit. destruct (malloc_ok h B nbytes Hok Hfit) as (r & h' & E & B' & Hinv & Hcase). exists r, h'. split; [done|]. intros ->.
    destruct Hcase as [(_ & _ & Hg)|(q & Hq & Ha)]; [done|]. assert (Hb : (q, units nbytes) ∈ allocs h0 B') by (rewrite Ha; set_solver +).
    apply allocs_range in Hb; [|apply Hinv]. unfold HEADER in *. lia.
  - intros p k Hp. destruct (Hin p k Hp) as [Hb _]. apply allocs_split in Hb as (B1 & B2 & -> & Hq). destruct Hok as [Hinv|(_ & _ & ?)]; [|by destruct B1].
    destruct (free_ok h B1 (units k) B2 Hinv) as (h' & B' & E & _). replace (top h0 B1 + HEADER) with p in E by lia. by exists h'.
Qed.
End core.
End heap.

(** A program that holds one block of 100 bytes. *)
Module OneBlock.
Definition grants (b n : Z) : bool := b + n <=? 200000.
Definition before : heap := Heap (λ _, Header 0 0) 0 8192.
Definition after : heap := match malloc 4096 grants 100 before with Ok (_, h) => h | _ => before end.

Lemma umalloc_safe_witness : reachable 4096 8192 grants after [(73616, 100)] ∧ ∃ h, free 73616 after = Ok (tt, h).
Proof.
  assert (H : reachable 4096 8192 grants after [(73616, 100)]).
  { apply (reach_malloc 4096 8192 grants before [] 100 73616 after); [constructor|split; vm_compute; by split|vm_compute; reflexivity]. }
  split; [exact H|]. destruct (umalloc_safe 4096 8192 ltac:(lia) grants after _ H) as (_ & _ & _ & _ & Hfree).
  apply (Hfree 73616 100). by left.
Defined.
End OneBlock.
