(* ===== verification/Sh.v ===== *)
(** The command parser of the shell, [user/sh.c].

    The state is the pointer [*ps] into the command line, as the list of the
    characters from there to [es]; behind them is the NUL.  A token is the pair of
    the offsets of [q] and [eq] in the line.  [malloc] in the constructors is
    taken to succeed. *)

From S2P Require Import Prelude Grep Sysfile.

Definition whitespace : list Z := [32; 9; 13; 10; 11].
Definition symbols : list Z := [60; 124; 62; 38; 59; 40; 41].
Definition MAXARGS : nat := 10.

(** [strchr(set, c)] as a condition. *)
Definition in_chars (set : list Z) (c : Z) : bool := match strchr set c with Some _ => true | None => false end.

Definition token : Type := nat * nat.

(** [struct cmd]. *)
Inductive cmd :=
  | execcmd (argv : list token)
  | redircmd (c : cmd) (file : token) (mode fd : Z)
  | pipecmd (left right : cmd)
  | listcmd (left right : cmd)
  | backcmd (c : cmd).

(** * Tokens *)

(** [while(s < es && strchr(whitespace, *s)) s++]. *)
Fixpoint skip_white (s : list Z) : list Z :=
  match s with
  | [] => []
  | c :: s' => if in_chars whitespace c then skip_white s' else s
  end.

(** The loop over the characters of a word. *)
Fixpoint skip_word (s : list Z) : list Z :=
  match s with
  | [] => []
  | c :: s' => if negb (in_chars whitespace c) && negb (in_chars symbols c) then skip_word s' else s
  end.

Section parser.
Context (len : nat).  (* strlen of the command line *)

Definition gettoken : M (list Z) (Z * token) :=
  s ← get;
  let s := skip_white s in
  let q := (len - length s)%nat in
  let '(ret, s) :=
    match s with
    | [] => (0, [])
    | c :: s' =>
        if (c =? 124) || (c =? 40) || (c =? 41) || (c =? 59) || (c =? 38) || (c =? 60) then (c, s')
        else if c =? 62 then
          match s' with
          | d :: s'' => if d =? 62 then (43, s'') else (62, s')
          | [] => (62, s')
          end
        else (97, skip_word s)
    end in
  let eq := (len - length s)%nat in
  put (skip_white s) ;;
  mret (ret, (q, eq)).

Definition peek (toks : list Z) : M (list Z) bool :=
  s ← get;
  let s := skip_white s in
  put s ;;
  mret (match s with [] => false | c :: _ => in_chars toks c end).

(** * Commands *)

(** One turn of the loop of [parseredirs]; a redirection is a file, a mode and a
    descriptor. *)
Definition redir : Type := token * Z * Z.
Definition parseredirs_body (l : list redir) : M (list Z) (list redir + list redir) :=
  b ← peek [60; 62];
  if b : bool then
    '(tok, _) ← gettoken;
    '(r, file) ← gettoken;
    if negb (r =? 97) then panic "missing file for redirection"
    else if tok =? 60 then mret (inl (l ++ [(file, O_RDONLY, 0)]))
    else if tok =? 62 then mret (inl (l ++ [(file, Z.lor (Z.lor O_WRONLY O_CREATE) O_TRUNC, 1)]))
    else if tok =? 43 then mret (inl (l ++ [(file, Z.lor O_WRONLY O_CREATE, 1)]))
    else mret (inl l)
  else mret (inr l).

(** The redirections in order; [wrap] puts them around the command. *)
Definition parseredirs (l : list redir) : M (list Z) (list redir) :=
  s ← get;
  loop (S (length s)) parseredirs_body l.
Definition wrap (c : cmd) (l : list redir) : cmd := foldl (λ c '(file, mode, fd), redircmd c file mode fd) c l.

(** The loop of [parseexec] over the arguments. *)
Definition parseexec_body : list token * list redir → M (list Z) ((list token * list redir) + (list token * list redir)) :=
  λ '(argv, l),
    b ← peek [124; 41; 38; 59];
    if b : bool then mret (inr (argv, l))
    else
      '(tok, w) ← gettoken;
      if tok =? 0 then mret (inr (argv, l))
      else if negb (tok =? 97) then panic "syntax"
      else
        let argv := argv ++ [w] in
        if (MAXARGS <=? length argv)%nat then panic "too many args"
        else
          l ← parseredirs l;
          mret (inl (argv, l)).

(** The loop of [parseline] over ampersands. *)
Definition back_body (c : cmd) : M (list Z) (cmd + cmd) :=
  b ← peek [38];
  if b : bool then gettoken ;; mret (inl (backcmd c)) else mret (inr c).

Fixpoint parseline (fuel : nat) : M (list Z) cmd :=
  match fuel with
  | O => nofuel
  | S fuel =>
      c ← parsepipe fuel;
      s ← get;
      c ← loop (S (length s)) back_body c;
      b ← peek [59];
      if b : bool then
        gettoken ;;
        r ← parseline fuel;
        mret (listcmd c r)
      else mret c
  end
with parsepipe (fuel : nat) : M (list Z) cmd :=
  match fuel with
  | O => nofuel
  | S fuel =>
      c ← parseexec fuel;
      b ← peek [124];
      if b : bool then
        gettoken ;;
        r ← parsepipe fuel;
        mret (pipecmd c r)
      else mret c
  end
with parseexec (fuel : nat) : M (list Z) cmd :=
  match fuel with
  | O => nofuel
  | S fuel =>
      b ← peek [40];
      if b : bool then parseblock fuel
      else
        l ← parseredirs [];
        s ← get;
        '(argv, l) ← loop (S (length s)) parseexec_body ([], l);
        mret (wrap (execcmd argv) l)
  end
with parseblock (fuel : nat) : M (list Z) cmd :=
  match fuel with
  | O => nofuel
  | S fuel =>
      b ← peek [40];
      if negb b then panic "parseblock"
      else
        gettoken ;;
        c ← parseline fuel;
        b ← peek [41];
        if negb b then panic "syntax - missing )"
        else
          gettoken ;;
          l ← parseredirs [];
          mret (wrap c l)
  end.
End parser.

(** [nulterminate]: the line with a NUL behind every token. *)
Fixpoint nulterminate (c : cmd) (line : list Z) : list Z :=
  match c with
  | execcmd argv => foldl (λ line w, <[w.2 := 0]> line) line argv
  | redircmd c file _ _ => <[file.2 := 0]> (nulterminate c line)
  | pipecmd l r => nulterminate r (nulterminate l line)
  | listcmd l r => nulterminate r (nulterminate l line)
  | backcmd c => nulterminate c line
  end.

Definition parse_fuel (s : list Z) : nat := 4 * length s + 4.

(** The command and the line after [nulterminate]. *)
Definition parsecmd (s : list Z) : res (cmd * list Z) :=
  match parseline (length s) (parse_fuel s) s with
  | Ok (c, s') =>
      match peek [] s' with
      | Ok (_, s'') => match s'' with [] => Ok (c, nulterminate c (s ++ [0])) | _ => Panic "syntax" end
      | Panic e => Panic e | UB => UB | NoFuel => NoFuel | Sleep c => Sleep c
      end
  | Panic e => Panic e | UB => UB | NoFuel => NoFuel | Sleep c => Sleep c
  end.
