(* ===== verification/ShSpec.v ===== *)
(** The shell's parser: it always terminates, the strings of the command it
    returns are the words of the line, and it reads back every command that is
    written out with parentheses. *)

From S2P Require Import Prelude Grep Sysfile Sh.

(** * Panic or a result *)

(** [safe m s Q]: [m] panics, or returns with [Q]; nothing else. *)
Definition safe {A} (m : M (list Z) A) (s : list Z) (Q : A → list Z → Prop) : Prop :=
  match m s with
  | Ok (a, s') => Q a s'
  | Panic _ => True
  | _ => False
  end.

Lemma safe_mono {A} (m : M (list Z) A) s (Q Q' : A → list Z → Prop) : safe m s Q → (∀ a s', Q a s' → Q' a s') → safe m s Q'.
Proof. unfold safe. destruct (m s) as [[a s']| | | |]; eauto. Qed.
Lemma safe_bind {A B} (m : M (list Z) A) (f : A → M (list Z) B) s Q : safe m s (λ a s', safe (f a) s' Q) → safe (m ≫= f) s Q.
Proof. unfold safe, mbind, M_bind. by destruct (m s) as [[a s']| | | |]. Qed.
Lemma safe_ret {A} (a : A) s (Q : A → list Z → Prop) : Q a s → safe (mret a) s Q.
Proof. done. Qed.
Lemma safe_get {A} (f : list Z → M (list Z) A) s Q : safe (f s) s Q → safe (s ← get; f s) s Q.
Proof. done. Qed.

Lemma safe_loop {A R} (I : A → list Z → Prop) (μ : A → list Z → nat) (body : A → M (list Z) (A + R)) (Q : R → list Z → Prop) fuel a s :
  (∀ a s, I a s → safe (body a) s (λ r s', match r with inl a' => I a' s' ∧ (μ a' s' < μ a s)%nat | inr v => Q v s' end)) →
  I a s → (μ a s < fuel)%nat → safe (loop fuel body a) s Q.
Proof.
  intros Hb. revert a s. induction fuel as [|fuel IH]; intros a s HI Hf; [lia|]. cbn [loop]. apply safe_bind.
  eapply safe_mono; [by apply Hb|]. intros [a'|v] s'; [intros [HI' Hlt]; apply IH; [done|lia]|done].
Qed.

(** * Tokens *)

Definition wordc (c : Z) : bool := negb (in_chars whitespace c) && negb (in_chars symbols c).

Definition ends (t : list Z) : Prop := match t with [] => True | c :: _ => wordc c = false end.

(** A token is a whole word of the line. *)
Definition token_ok (line : list Z) (w : token) : Prop :=
  ∃ p x t, line = p ++ x ++ t ∧ x ≠ [] ∧ w = (length p, length p + length x)%nat ∧ Forall (λ c, wordc c = true) x ∧ ends t.

Definition suffix (s s' : list Z) : Prop := ∃ p, s = p ++ s'.

Lemma suffix_refl s : suffix s s.
Proof. by exists []. Qed.
Lemma suffix_trans s1 s2 s3 : suffix s1 s2 → suffix s2 s3 → suffix s1 s3.
Proof. intros [p ->] [q ->]. exists (p ++ q). by rewrite app_assoc. Qed.
Lemma suffix_length s s' : suffix s s' → (length s' ≤ length s)%nat.
Proof. intros [p ->]. rewrite length_app. lia. Qed.

Lemma skip_white_suffix s : suffix s (skip_white s).
Proof.
  induction s as [|c s IH]; [apply suffix_refl|]. cbn. destruct (in_chars whitespace c); [|apply suffix_refl].
  eapply suffix_trans; [|exact IH]. by exists [c].
Qed.
Lemma skip_white_head s c t : skip_white s = c :: t → in_chars whitespace c = false.
Proof. induction s as [|d s IH]; [done|]. cbn. destruct (in_chars whitespace d) eqn:E; [done|]. by intros [= -> ->]. Qed.
Lemma skip_white_idem s : skip_white (skip_white s) = skip_white s.
Proof. induction s as [|c s IH]; [done|]. cbn. destruct (in_chars whitespace c) eqn:E; [done|]. cbn. by rewrite E. Qed.

Lemma skip_word_spec s : ∃ x, s = x ++ skip_word s ∧ Forall (λ c, wordc c = true) x ∧ ends (skip_word s) ∧ (∀ c t, s = c :: t → wordc c = true → x ≠ []).
Proof.
  induction s as [|c s (x & Hs & Hx & He & _)]; [by exists []|]. cbn. fold (wordc c). destruct (wordc c) eqn:E.
  - exists (c :: x). split_and!; [cbn; by rewrite <-Hs|by constructor|done|done].
  - exists []. split_and!; [done|constructor|done|]. intros c' t [= <- <-]. congruence.
Qed.

Lemma not_symbol c :
  in_chars whitespace c = false → (c =? 124) || (c =? 40) || (c =? 41) || (c =? 59) || (c =? 38) || (c =? 60) = false →
  (c =? 62) = false → wordc c = true.
Proof.
  intros Hw Hs H62. unfold wordc. rewrite Hw. cbn [negb andb]. unfold in_chars, symbols. cbn [strchr].
  rewrite !orb_false_iff in Hs. rewrite !Z.eqb_neq in *. destruct_and!.
  repeat match goal with |- context [?a =? c] => destruct (Z.eqb_spec a c); [lia|] end. done.
Qed.

Lemma gettoken_spec line s :
  suffix line s → ∃ ret w s', gettoken (length line) s = Ok ((ret, w), s') ∧ suffix s s' ∧ suffix line s' ∧
    (ret ≠ 0 → (length s' < length s)%nat) ∧ (ret = 97 → token_ok line w).
Proof.
  intros Hl. unfold gettoken. rewrite bind_Ok_1 with (a := s) (s' := s) by done. cbv zeta.
  pose proof (skip_white_suffix s) as Hw. set (s0 := skip_white s) in *.
  assert (suffix line s0) as Hl0 by (by eapply suffix_trans). pose proof (suffix_length _ _ Hw) as Hlen.
  destruct s0 as [|c s1] eqn:Es0.
  { eexists 0, _, _. split; [reflexivity|]. split_and!; [done|done|done|done]. }
  assert (∀ ret s2 w, suffix (c :: s1) s2 → (length s2 < S (length s1))%nat → (ret = 97 → token_ok line w) →
    ∃ ret' w' s', (put (skip_white s2) ;; mret (ret, w)) s = Ok ((ret', w'), s') ∧ suffix s s' ∧ suffix line s' ∧
    (ret' ≠ 0 → (length s' < length s)%nat) ∧ (ret' = 97 → token_ok line w')) as Hend.
  { intros ret s2 w Hs2 Hlt Htok. eexists ret, w, _. split; [reflexivity|]. pose proof (skip_white_suffix s2) as Hw2.
    pose proof (suffix_length _ _ Hw2). cbn in Hlen. split_and!; [by eapply suffix_trans; [|eapply suffix_trans]|
      by eapply suffix_trans; [|eapply suffix_trans]|lia|done]. }
  destruct ((c =? 124) || (c =? 40) || (c =? 41) || (c =? 59) || (c =? 38) || (c =? 60)) eqn:Esym.
  { apply Hend; [by exists [c]|lia|]. intros ->. done. }
  destruct (Z.eqb_spec c 62) as [->|H62].
  { destruct s1 as [|d s1]; [apply Hend; [by exists [62]|cbn; lia|done]|].
    destruct (d =? 62); apply Hend; try done; [by exists [62; d]|cbn; lia|by exists [62]|cbn; lia]. }
  destruct (skip_word_spec (c :: s1)) as (x & Hx & Hwx & He & Hne).
  assert (wordc c = true) as Hc.
  { apply not_symbol; [by eapply skip_white_head|done|by apply Z.eqb_neq]. }
  specialize (Hne c s1 eq_refl Hc). assert (length (c :: s1) = length x + length (skip_word (c :: s1)))%nat as Hlx by (rewrite <-length_app; by f_equal).
  apply Hend.
  - by exists x.
  - destruct x; [done|]. cbn [length] in Hlx. lia.
  - intros _. destruct Hl0 as [p ->]. exists p, x, (skip_word (c :: s1)). split_and!; [by rewrite <-Hx|done| |done|done].
    rewrite length_app. f_equal; lia.
Qed.

Lemma peek_run toks s :
  peek toks s = Ok (match skip_white s with [] => false | c :: _ => in_chars toks c end, skip_white s).
Proof. done. Qed.

Lemma peek_safe line toks s :
  suffix line s → safe (peek toks) s (λ b s', suffix line s' ∧ suffix s s' ∧ (b = true → ∃ c t, s' = c :: t ∧ skip_white s' = s' ∧ in_chars toks c = true)).
Proof.
  intros Hl. unfold safe. rewrite peek_run. pose proof (skip_white_suffix s) as Hw. split_and!; [by eapply suffix_trans|done|].
  destruct (skip_white s) as [|c t] eqn:E; [done|]. intros Hc. exists c, t. split_and!; [done|by rewrite <-E, skip_white_idem|done].
Qed.

Lemma gettoken_safe line s :
  suffix line s → safe (gettoken (length line)) s (λ '(ret, w) s', suffix line s' ∧ suffix s s' ∧
    (ret ≠ 0 → (length s' < length s)%nat) ∧ (ret = 97 → token_ok line w)).
Proof. intros Hl. destruct (gettoken_spec line s Hl) as (ret & w & s' & E & H1 & H2 & H3 & H4). unfold safe. by rewrite E. Qed.

(** The token that [peek] has seen is not the end of the line. *)
Lemma gettoken_seen line s c t :
  suffix line s → s = c :: t → skip_white s = s → in_chars (whitespace) c = false → c ≠ 0 →
  safe (gettoken (length line)) s (λ '(ret, w) s', suffix line s' ∧ suffix s s' ∧ (length s' < length s)%nat).
Proof.
  intros Hl -> Hw Hc H0. destruct (gettoken_spec line (c :: t) Hl) as (ret & w & s' & E & H1 & H2 & H3 & _).
  unfold safe. rewrite E. split_and!; [done|done|]. apply H3. intros ->. revert E. unfold gettoken.
  rewrite bind_Ok_1 with (a := c :: t) (s' := c :: t) by done. rewrite Hw. cbv zeta.
  destruct ((c =? 124) || (c =? 40) || (c =? 41) || (c =? 59) || (c =? 38) || (c =? 60)); [by intros [= ? _ _]|].
  destruct (c =? 62); [|done]. destruct t as [|d t]; [done|]. by destruct (d =? 62).
Qed.

Definition cmd_ok (line : list Z) : cmd → Prop :=
  fix ok (c : cmd) : Prop :=
    match c with
    | execcmd argv => Forall (token_ok line) argv
    | redircmd c file _ _ => ok c ∧ token_ok line file
    | pipecmd l r => ok l ∧ ok r
    | listcmd l r => ok l ∧ ok r
    | backcmd c => ok c
    end.

Definition redirs_ok (line : list Z) (l : list redir) : Prop := Forall (λ r, token_ok line r.1.1) l.

Lemma wrap_ok line c l : cmd_ok line c → redirs_ok line l → cmd_ok line (wrap c l).
Proof.
  intros Hc Hl. unfold wrap. revert c Hc. induction Hl as [|[[file mode] fd] l Hr Hl IH]; intros c Hc; [done|].
  cbn [foldl]. apply IH. by split.
Qed.

(** Symbols are neither white space nor NUL. *)
Lemma symbol_not_white toks c :
  Forall (λ d, in_chars whitespace d = false ∧ d ≠ 0) toks → in_chars toks c = true → in_chars whitespace c = false ∧ c ≠ 0.
Proof.
  intros Hf. unfold in_chars at 1. destruct (strchr toks c) as [i|] eqn:E; [|done]. intros _. revert i E.
  induction Hf as [|d toks [Hd H0] _ IH]; intros i; [done|]. cbn. destruct (Z.eqb_spec d 0); [done|].
  destruct (Z.eqb_spec d c) as [->|]; [done|]. destruct (strchr toks c) as [j|]; [|done]. intros _. by apply (IH j).
Qed.

(** After [peek] has seen one of [toks], [gettoken] consumes it. *)
Lemma seen_safe {A} line toks s (f : M (list Z) A) Q :
  suffix line s → Forall (λ d, in_chars whitespace d = false ∧ d ≠ 0) toks →
  (∃ c t, s = c :: t ∧ skip_white s = s ∧ in_chars toks c = true) →
  (∀ s', suffix line s' → suffix s s' → (length s' < length s)%nat → safe f s' Q) →
  safe (gettoken (length line) ;; f) s Q.
Proof.
  intros Hl Ht (c & t & E & Hw & Hc) Hf. destruct (symbol_not_white toks c Ht Hc) as [Hnw H0].
  apply safe_bind. eapply safe_mono; [by eapply (gettoken_seen line)|]. intros [ret w] s' (H1 & H2 & H3). by apply Hf.
Qed.

Ltac ret_tac := apply safe_ret; cbv beta iota.
Ltac symbols_tac := repeat constructor; vm_compute; congruence.

Lemma parseredirs_safe line l s :
  suffix line s → redirs_ok line l →
  safe (parseredirs (length line) l) s (λ l' s', suffix line s' ∧ suffix s s' ∧ redirs_ok line l').
Proof.
  intros Hl Hr. apply safe_get.
  eapply (safe_loop (λ l s1, suffix line s1 ∧ suffix s s1 ∧ redirs_ok line l) (λ _ s1, length s1)); [|by split_and!; [|apply suffix_refl|]|lia].
  clear Hl Hr. intros l1 s1 (Hl1 & Hs1 & Hr1). apply safe_bind. eapply safe_mono; [by apply (peek_safe line)|].
  intros b s2 (Hl2 & Hs2 & Hb). pose proof (suffix_length _ _ Hs2). destruct b.
  2: { ret_tac. split_and!; [done|by eapply suffix_trans|done]. }
  destruct (Hb eq_refl) as (c & t & E & Hw & Hc). destruct (symbol_not_white [60; 62] c ltac:(symbols_tac) Hc) as [Hnw H0].
  apply safe_bind. eapply safe_mono; [by eapply (gettoken_seen line)|]. intros [tok w0] s3 (Hl3 & Hs3 & Hlt).
  apply safe_bind. eapply safe_mono; [by apply (gettoken_safe line)|]. intros [r file] s4 (Hl4 & Hs4 & _ & Htok). pose proof (suffix_length _ _ Hs4).
  destruct (Z.eqb_spec r 97) as [->|]; cbn [negb]; [|done]. specialize (Htok eq_refl).
  assert (suffix s s4) as Hss by (eapply suffix_trans; [|exact Hs4]; eapply suffix_trans; [|exact Hs3]; by eapply suffix_trans).
  assert (∀ mode fd, redirs_ok line (l1 ++ [(file, mode, fd)])) as Hrok by (intros; apply Forall_app; split; [done|by repeat constructor]).
  destruct (tok =? 60); [ret_tac; split; [by split_and!|lia]|]. destruct (tok =? 62); [ret_tac; split; [by split_and!|lia]|].
  destruct (tok =? 43); ret_tac; (split; [by split_and!|lia]).
Qed.

Lemma parseexec_loop_safe line l s :
  suffix line s → redirs_ok line l →
  safe (loop (S (length s)) (parseexec_body (length line)) ([], l)) s
    (λ '(argv, l') s', suffix line s' ∧ suffix s s' ∧ Forall (token_ok line) argv ∧ redirs_ok line l').
Proof.
  intros Hl Hr.
  eapply (safe_loop (λ '(argv, l) s1, suffix line s1 ∧ suffix s s1 ∧ Forall (token_ok line) argv ∧ redirs_ok line l) (λ _ s1, length s1));
    [|by split_and!; [|apply suffix_refl|constructor|]|lia].
  clear Hl Hr. intros [argv l1] s1 (Hl1 & Hs1 & Ha1 & Hr1). apply safe_bind. eapply safe_mono; [by apply (peek_safe line)|].
  intros b s2 (Hl2 & Hs2 & _). pose proof (suffix_length _ _ Hs2). assert (suffix s s2) as Hss2 by (by eapply suffix_trans).
  destruct b; [by ret_tac|]. apply safe_bind. eapply safe_mono; [by apply (gettoken_safe line)|].
  intros [tok w] s3 (Hl3 & Hs3 & Hlt & Htok). assert (suffix s s3) as Hss3 by (by eapply suffix_trans).
  destruct (Z.eqb_spec tok 0) as [|Ht0]; [by ret_tac|]. destruct (Z.eqb_spec tok 97) as [->|]; cbn [negb]; [|done].
  destruct (MAXARGS <=? length (argv ++ [w]))%nat; [done|]. apply safe_bind. eapply safe_mono; [by apply (parseredirs_safe line)|].
  intros l2 s4 (Hl4 & Hs4 & Hr4). pose proof (suffix_length _ _ Hs4). specialize (Hlt Ht0). ret_tac. split; [|lia].
  split_and!; [done|by eapply suffix_trans| |done]. apply Forall_app. split; [done|]. constructor; [by apply Htok|done].
Qed.

Lemma back_loop_safe line c s :
  suffix line s → cmd_ok line c →
  safe (loop (S (length s)) (back_body (length line)) c) s (λ c' s', suffix line s' ∧ suffix s s' ∧ cmd_ok line c').
Proof.
  intros Hl Hc. eapply (safe_loop (λ c s1, suffix line s1 ∧ suffix s s1 ∧ cmd_ok line c) (λ _ s1, length s1)); [|by split_and!; [|apply suffix_refl|]|lia].
  clear Hl Hc. intros c1 s1 (Hl1 & Hs1 & Hc1). apply safe_bind. eapply safe_mono; [by apply (peek_safe line)|].
  intros b s2 (Hl2 & Hs2 & Hb). pose proof (suffix_length _ _ Hs2). assert (suffix s s2) as Hss2 by (by eapply suffix_trans).
  destruct b; [|by ret_tac]. eapply (seen_safe line); [done| |by apply Hb|]; [symbols_tac|]. intros s3 Hl3 Hs3 Hlt.
  ret_tac. split; [|lia]. split_and!; [done|by eapply suffix_trans|done].
Qed.

Definition parse_post (line s : list Z) (c : cmd) (s' : list Z) : Prop := suffix line s' ∧ suffix s s' ∧ cmd_ok line c.

Lemma parse_post_trans line s s1 c s' : suffix s s1 → parse_post line s1 c s' → parse_post line s c s'.
Proof. intros H1 (H2 & H3 & H4). split_and!; [done|by eapply suffix_trans|done]. Qed.

Lemma parse_safe line fuel : ∀ s, suffix line s →
  ((4 * length s + 4 ≤ fuel)%nat → safe (parseline (length line) fuel) s (parse_post line s)) ∧
  ((4 * length s + 3 ≤ fuel)%nat → safe (parsepipe (length line) fuel) s (parse_post line s)) ∧
  ((4 * length s + 2 ≤ fuel)%nat → safe (parseexec (length line) fuel) s (parse_post line s)) ∧
  ((4 * length s + 1 ≤ fuel)%nat → safe (parseblock (length line) fuel) s (parse_post line s)).
Proof.
  induction fuel as [|fuel IH]; intros s Hl; [split_and!; lia|]. split_and!; intros Hf.
  - cbn [parseline]. apply safe_bind. eapply safe_mono; [apply IH; [done|lia]|]. intros c s1 (Hl1 & Hs1 & Hc1).
    pose proof (suffix_length _ _ Hs1). apply safe_get, safe_bind. eapply safe_mono; [by apply back_loop_safe|].
    intros c2 s2 (Hl2 & Hs2 & Hc2). pose proof (suffix_length _ _ Hs2). apply safe_bind. eapply safe_mono; [by apply (peek_safe line)|].
    intros b s3 (Hl3 & Hs3 & Hb). pose proof (suffix_length _ _ Hs3).
    assert (suffix s s3) as Hss3 by (eapply suffix_trans; [|exact Hs3]; by eapply suffix_trans).
    destruct b; [|by ret_tac]. eapply (seen_safe line); [done| |by apply Hb|]; [symbols_tac|]. intros s4 Hl4 Hs4 Hlt.
    apply safe_bind. eapply safe_mono; [apply IH; [done|lia]|]. intros r s5 (Hl5 & Hs5 & Hr). ret_tac.
    split_and!; [done|eapply suffix_trans; [|exact Hs5]; by eapply suffix_trans|done].
  - cbn [parsepipe]. apply safe_bind. eapply safe_mono; [apply IH; [done|lia]|]. intros c s1 (Hl1 & Hs1 & Hc1).
    pose proof (suffix_length _ _ Hs1). apply safe_bind. eapply safe_mono; [by apply (peek_safe line)|].
    intros b s3 (Hl3 & Hs3 & Hb). pose proof (suffix_length _ _ Hs3). assert (suffix s s3) as Hss3 by (by eapply suffix_trans).
    destruct b; [|by ret_tac]. eapply (seen_safe line); [done| |by apply Hb|]; [symbols_tac|]. intros s4 Hl4 Hs4 Hlt.
    apply safe_bind. eapply safe_mono; [apply IH; [done|lia]|]. intros r s5 (Hl5 & Hs5 & Hr). ret_tac.
    split_and!; [done|eapply suffix_trans; [|exact Hs5]; by eapply suffix_trans|done].
  - cbn [parseexec]. apply safe_bind. eapply safe_mono; [by apply (peek_safe line)|]. intros b s1 (Hl1 & Hs1 & _).
    pose proof (suffix_length _ _ Hs1). destruct b.
    { eapply safe_mono; [apply IH; [done|lia]|]. intros c s2. by apply parse_post_trans. }
    apply safe_bind. eapply safe_mono; [apply (parseredirs_safe line []); [done|constructor]|]. intros l s2 (Hl2 & Hs2 & Hr2).
    apply safe_get, safe_bind. eapply safe_mono; [by apply parseexec_loop_safe|]. intros [argv l'] s3 (Hl3 & Hs3 & Ha & Hr3).
    ret_tac. split_and!; [done| |by apply wrap_ok]. eapply suffix_trans; [|exact Hs3]. by eapply suffix_trans.
  - cbn [parseblock]. apply safe_bind. eapply safe_mono; [by apply (peek_safe line)|]. intros b s1 (Hl1 & Hs1 & Hb).
    pose proof (suffix_length _ _ Hs1). destruct b; cbn [negb]; [|done].
    eapply (seen_safe line); [done| |by apply Hb|]; [symbols_tac|]. intros s2 Hl2 Hs2 Hlt.
    apply safe_bind. eapply safe_mono; [apply IH; [done|lia]|]. intros c s3 (Hl3 & Hs3 & Hc3).
    apply safe_bind. eapply safe_mono; [by apply (peek_safe line)|]. intros b s4 (Hl4 & Hs4 & Hb4). destruct b; cbn [negb]; [|done].
    eapply (seen_safe line); [done| |by apply Hb4|]; [symbols_tac|]. intros s5 Hl5 Hs5 _.
    apply safe_bind. eapply safe_mono; [apply (parseredirs_safe line []); [done|constructor]|]. intros l s6 (Hl6 & Hs6 & Hr6).
    ret_tac. split_and!; [done| |by apply wrap_ok].
    eapply suffix_trans; [exact Hs1|]. eapply suffix_trans; [exact Hs2|]. eapply suffix_trans; [exact Hs3|].
    eapply suffix_trans; [exact Hs4|]. by eapply suffix_trans.
Qed.

(** * The strings of a command *)

Fixpoint tokens (c : cmd) : list token :=
  match c with
  | execcmd argv => argv
  | redircmd c file _ _ => tokens c ++ [file]
  | pipecmd l r => tokens l ++ tokens r
  | listcmd l r => tokens l ++ tokens r
  | backcmd c => tokens c
  end.

Lemma cmd_ok_tokens line c : cmd_ok line c ↔ Forall (token_ok line) (tokens c).
Proof.
  induction c as [argv|c IH file mode fd|l IHl r IHr|l IHl r IHr|c IH]; cbn; [done| | | |done].
  - by rewrite Forall_app, Forall_singleton, IH.
  - by rewrite Forall_app, IHl, IHr.
  - by rewrite Forall_app, IHl, IHr.
Qed.

Definition nul_at (line : list Z) (w : token) : list Z := <[w.2 := 0]> line.

Lemma nulterminate_tokens c line : nulterminate c line = foldl nul_at line (tokens c).
Proof.
  revert line. induction c as [argv|c IH file mode fd|l IHl r IHr|l IHl r IHr|c IH]; intros line; cbn; [done| | | |done].
  - by rewrite foldl_app, IH.
  - by rewrite foldl_app, IHl, IHr.
  - by rewrite foldl_app, IHl, IHr.
Qed.

Lemma nul_at_lookup l : ∀ line i, (i < length line)%nat →
  foldl nul_at line l !! i = if decide (i ∈ l.*2) then Some 0 else line !! i.
Proof.
  induction l as [|w l IH]; intros line i Hi; cbn; [by rewrite decide_False by apply not_elem_of_nil|].
  rewrite IH by (unfold nul_at; by rewrite length_insert). unfold nul_at. destruct (decide (i ∈ l.*2)) as [Hin|Hin].
  - rewrite decide_True; [done|]. rewrite elem_of_cons. by right.
  - destruct (decide (i = w.2)) as [->|Hne].
    + rewrite decide_True by set_solver. by apply list_lookup_insert_eq.
    + rewrite list_lookup_insert_ne, decide_False by set_solver. done.
Qed.

(** The NUL-terminated string at an offset. *)
Fixpoint cstr (s : list Z) : list Z :=
  match s with
  | [] => []
  | c :: s' => if c =? 0 then [] else c :: cstr s'
  end.

Lemma cstr_word x s : Forall (λ c, c ≠ 0) x → cstr (x ++ 0 :: s) = x.
Proof. induction 1 as [|c x Hc _ IH]; cbn; [done|]. destruct (Z.eqb_spec c 0); [done|]. by rewrite IH. Qed.

Definition text (line : list Z) (w : token) : list Z := take (w.2 - w.1) (drop w.1 line).

Lemma token_ok_text p x t : text (p ++ x ++ t) (length p, length p + length x)%nat = x.
Proof.
  unfold text. cbn [fst snd]. rewrite drop_app_length. replace (length p + length x - length p)%nat with (length x) by lia.
  by rewrite take_app_length.
Qed.

(** No token ends inside another one. *)
Lemma token_end line w w' i c :
  token_ok line w → token_ok line w' → (w'.1 ≤ i < w'.2)%nat → line !! i = Some c → i ≠ w.2.
Proof.
  intros (p & x & t & -> & Hx & -> & Hwx & He) (p' & x' & t' & E & Hx' & -> & Hwx' & He') Hi Hc ->. cbn [fst snd] in *.
  rewrite app_assoc, lookup_app_r in Hc by (rewrite length_app; lia). rewrite length_app, Nat.sub_diag in Hc.
  destruct t as [|c0 t]; [done|]. injection Hc as ->. cbn in He.
  assert ((p ++ x ++ c :: t) !! (length p + length x)%nat = Some c) as H1.
  { rewrite app_assoc, lookup_app_r by (rewrite length_app; lia). by rewrite length_app, Nat.sub_diag. }
  rewrite E, lookup_app_r, lookup_app_l in H1 by lia. pose proof (Forall_lookup_1 _ _ _ _ Hwx' H1). cbn in *. congruence.
Qed.

Lemma nulterminate_text line c w :
  no_nul line → cmd_ok line c → w ∈ tokens c → cstr (drop w.1 (nulterminate c (line ++ [0]))) = text line w.
Proof.
  intros Hz Hc Hw. rewrite nulterminate_tokens. apply cmd_ok_tokens in Hc as Ht. rewrite Forall_forall in Ht. pose proof (Ht w Hw) as Hwt.
  pose proof Hwt as (p & x & t & El & Hx & Ew & Hwx & He). assert (text line w = x) as -> by (rewrite Ew, El; apply token_ok_text).
  set (line' := foldl nul_at (line ++ [0]) (tokens c)).
  assert (∀ i, (i < length line + 1)%nat → line' !! i = if decide (i ∈ (tokens c).*2) then Some 0 else (line ++ [0]) !! i) as Hlk.
  { intros i Hi. apply nul_at_lookup. rewrite length_app. cbn. lia. }
  assert (length line' = length line + 1)%nat as Hlen.
  { unfold line'. clear. assert (∀ l s, length (foldl nul_at s l) = length s) as ->; [|rewrite length_app; cbn; lia].
    intros l. induction l as [|w l IH]; intros s; cbn; [done|]. by rewrite IH; unfold nul_at; rewrite length_insert. }
  assert (length line = length p + length x + length t)%nat as Hll by (rewrite El, !length_app; lia).
  assert (drop w.1 line' = x ++ 0 :: drop (S w.2) line') as ->.
  { apply list_eq. intros i. rewrite lookup_drop, Ew. cbn [fst snd]. destruct (decide (i < length x)%nat) as [Hi|Hi].
    - rewrite lookup_app_l by done. destruct (lookup_lt_is_Some_2 x i Hi) as [c0 Hc0].
      assert (line !! (length p + i)%nat = Some c0) as Hl.
      { rewrite El, lookup_app_r, lookup_app_l by lia. by rewrite Nat.add_comm, Nat.add_sub. }
      rewrite Hlk, decide_False, lookup_app_l by lia || (intros (w' & E & Hin)%list_elem_of_fmap;
        eapply (token_end line w' w); [by apply Ht|done| |exact Hl|done]; rewrite Ew; cbn; lia). congruence.
    - rewrite lookup_app_r by lia. destruct (decide (i = length x)) as [->|Hne].
      + rewrite Nat.sub_diag, Hlk, decide_True; [done| |lia]. apply list_elem_of_fmap. exists w. split; [by rewrite Ew|done].
      + destruct (i - length x)%nat as [|k] eqn:Ek; [lia|]. change (line' !! (length p + i)%nat = drop (S (length p + length x)) line' !! k). rewrite lookup_drop. f_equal. lia. }
  apply cstr_word. rewrite El in Hz. apply Forall_app in Hz as [_ Hz]. by apply Forall_app in Hz as [Hz _].
Qed.

(** C37: The shell's parser terminates on every line: it returns a command or
    reports a syntax error.  When it returns a command, the NULs that
    [nulterminate] writes leave every string of the command as it was in the line: the string
    that starts at a token is exactly the text of the token, which is a whole
    word. *)
Theorem parsecmd_total (s : list Z) :
  no_nul s →
  (∃ msg, parsecmd s = Panic msg) ∨
  (∃ c line', parsecmd s = Ok (c, line') ∧
     ∀ w, w ∈ tokens c → token_ok s w ∧ cstr (drop w.1 line') = text s w).
Proof.
  intros Hz. unfold parsecmd. destruct (parse_safe s (parse_fuel s) s (suffix_refl s)) as (Hp & _). unfold parse_fuel in Hp at 1.
  specialize (Hp ltac:(lia)). unfold safe in Hp. destruct (parseline (length s) (parse_fuel s) s) as [[c s']|msg| | |]; [|by left; exists msg|done..].
  destruct Hp as (_ & _ & Hc). rewrite peek_run. destruct (skip_white s'); [|by left; exists "syntax"].
  right. exists c, (nulterminate c (s ++ [0])). split; [done|]. intros w Hw. split; [|by apply nulterminate_text].
  apply cmd_ok_tokens in Hc. rewrite Forall_forall in Hc. by apply Hc.
Qed.

(** The line "ls|wc>f". *)
Lemma parsecmd_total_witness : ∃ c line', parsecmd [108; 115; 124; 119; 99; 62; 102] = Ok (c, line').
Proof.
  destruct (parsecmd_total [108; 115; 124; 119; 99; 62; 102]) as [[msg E]|(c & line' & E & _)].
  - apply (bool_decide_unpack _). vm_compute. done.
  - vm_compute in E. congruence.
  - by exists c, line'.
Defined.

(** * Commands written out *)

Inductive rkind := RIn | ROut | RApp.
Definition kind_mode (k : rkind) : Z * Z :=
  match k with
  | RIn => (O_RDONLY, 0)
  | ROut => (Z.lor (Z.lor O_WRONLY O_CREATE) O_TRUNC, 1)
  | RApp => (Z.lor O_WRONLY O_CREATE, 1)
  end.
Definition kind_text (k : rkind) : list Z := match k with RIn => [60] | ROut => [62] | RApp => [62; 62] end.

(** A command with its words. *)
Inductive wcmd :=
  | WExec (argv : list (list Z))
  | WRedir (c : wcmd) (file : list Z) (k : rkind)
  | WPipe (l r : wcmd)
  | WList (l r : wcmd)
  | WBack (c : wcmd).

Definition word (x : list Z) : Prop := x ≠ [] ∧ Forall (λ c, wordc c = true) x ∧ Forall (λ c, c ≠ 0) x.
Fixpoint wf (w : wcmd) : Prop :=
  match w with
  | WExec argv => Forall word argv ∧ (length argv < MAXARGS)%nat
  | WRedir c file _ => wf c ∧ word file
  | WPipe l r => wf l ∧ wf r
  | WList l r => wf l ∧ wf r
  | WBack c => wf c
  end.

(** Its text: a word is followed by a blank, a part that is a command of
    its own is in parentheses. *)
Definition words (argv : list (list Z)) : list Z := argv ≫= λ x, x ++ [32].
Definition paren (s : list Z) : list Z := 40 :: s ++ [41].
Fixpoint print (w : wcmd) : list Z :=
  match w with
  | WExec argv => words argv
  | WRedir c file k => paren (print c) ++ kind_text k ++ file ++ [32]
  | WPipe l r => paren (print l) ++ 124 :: paren (print r)
  | WList l r => paren (print l) ++ 59 :: paren (print r)
  | WBack c => paren (print c) ++ [38]
  end.

(** The command [c] of the parser is [w], with its strings read by [str]. *)
Fixpoint shows (str : token → list Z) (c : cmd) (w : wcmd) : Prop :=
  match c, w with
  | execcmd argv, WExec ws => str <$> argv = ws
  | redircmd c file mode fd, WRedir w x k => shows str c w ∧ str file = x ∧ (mode, fd) = kind_mode k
  | pipecmd l r, WPipe a b => shows str l a ∧ shows str r b
  | listcmd l r, WList a b => shows str l a ∧ shows str r b
  | backcmd c, WBack w => shows str c w
  | _, _ => False
  end.

Lemma shows_ext str str' c : ∀ w, (∀ t, t ∈ tokens c → str t = str' t) → shows str c w → shows str' c w.
Proof.
  induction c as [argv|c IH file mode fd|l IHl r IHr|l IHl r IHr|c IH]; intros [ws|w x k|a b|a b|w] Hs; cbn in *; try done.
  - intros <-. apply list_fmap_ext. intros i t Ht%list_elem_of_lookup_2. symmetry. by apply Hs.
  - intros (H1 & H2 & H3). split_and!; [apply IH; [set_solver|done]|rewrite <-H2; symmetry; apply Hs; set_solver|done].
  - intros [H1 H2]. split; [apply IHl|apply IHr]; set_solver.
  - intros [H1 H2]. split; [apply IHl|apply IHr]; set_solver.
  - by apply IH.
Qed.

(** ** Single tokens *)

Lemma wordc_not_white c : wordc c = true → in_chars whitespace c = false.
Proof. unfold wordc. by destruct (in_chars whitespace c). Qed.

Lemma wordc_not_sym c : wordc c = true → Forall (λ d, c ≠ d) symbols.
Proof.
  unfold wordc. intros [_ H]%andb_true_iff. apply negb_true_iff in H. unfold in_chars, symbols in H. cbn [strchr] in H.
  repeat constructor; intros ->; vm_compute in H; done.
Qed.

(** The parser is at a symbol, a word or the end. *)
Definition starts (s : list Z) : Prop := skip_white s = s.

Lemma skip_word_app x r : Forall (λ c, wordc c = true) x → ends r → skip_word (x ++ r) = r.
Proof.
  intros Hx Hr. induction Hx as [|c x Hc _ IH]; cbn.
  - destruct r as [|c r]; [done|]. cbn in *. fold (wordc c). by rewrite Hr.
  - fold (wordc c). by rewrite Hc.
Qed.

Lemma starts_word c s : wordc c = true → starts (c :: s).
Proof. intros Hc. unfold starts. cbn. by rewrite (wordc_not_white c Hc). Qed.

Lemma gettoken_word line x r :
  word x → ends r → suffix line (x ++ r) →
  ∃ w, gettoken (length line) (x ++ r) = Ok ((97, w), skip_white r) ∧ text line w = x.
Proof.
  intros (Hx0 & Hx & _) Hr [p ->]. exists (length p, length p + length x)%nat. split; [|apply token_ok_text].
  destruct x as [|c x]; [done|]. pose proof (proj1 (Forall_cons _ _ _) Hx) as [Hc _].
  unfold gettoken. rewrite bind_Ok_1 with (a := (c :: x) ++ r) (s' := (c :: x) ++ r) by done. cbv zeta.
  assert (skip_white ((c :: x) ++ r) = (c :: x) ++ r) as -> by (cbn; by rewrite (wordc_not_white c Hc)).
  pose proof (wordc_not_sym c Hc) as Hs. unfold symbols in Hs. rewrite !Forall_cons in Hs. destruct_and!.
  cbn [app]. rewrite !(proj2 (Z.eqb_neq c _)) by done. cbn [orb]. change (c :: x ++ r) with ((c :: x) ++ r).
  rewrite skip_word_app by done. rewrite !length_app. unfold mret, M_ret, mbind, M_bind, put. cbn [length]. do 3 f_equal. f_equal; lia.
Qed.

Lemma gettoken_sym (line : list Z) c r :
  c ∈ [124; 40; 41; 59; 38; 60] → ∃ w, gettoken (length line) (c :: r) = Ok ((c, w), skip_white r).
Proof.
  intros Hc. assert (c = 124 ∨ c = 40 ∨ c = 41 ∨ c = 59 ∨ c = 38 ∨ c = 60) as Hor by set_solver.
  destruct_or! Hor; subst c; eexists; unfold gettoken; reflexivity.
Qed.

Lemma peek_no toks s : starts s → match s with [] => True | c :: _ => in_chars toks c = false end → peek toks s = Ok (false, s).
Proof. intros Hs Hc. rewrite peek_run, Hs. destruct s; [done|]. by rewrite Hc. Qed.
Lemma peek_yes toks c s : starts (c :: s) → in_chars toks c = true → peek toks (c :: s) = Ok (true, c :: s).
Proof. intros Hs Hc. rewrite peek_run, Hs. by rewrite Hc. Qed.

Lemma word_not_in toks c :
  Forall (λ d, d ∈ symbols) toks → wordc c = true → in_chars toks c = false.
Proof.
  intros Ht Hc. pose proof (wordc_not_sym c Hc) as Hs. rewrite Forall_forall in Hs. unfold in_chars.
  induction Ht as [|d toks Hd _ IH]; [done|]. cbn. destruct (d =? 0); [done|]. destruct (Z.eqb_spec d c) as [->|]; [by destruct (Hs c Hd)|].
  by destruct (strchr toks c).
Qed.

(** No redirection follows. *)
Definition no_redir (s : list Z) : Prop := starts s ∧ match s with [] => True | c :: _ => in_chars [60; 62] c = false end.

Lemma parseredirs_none len l s : no_redir s → parseredirs len l s = Ok (l, s).
Proof.
  intros [Hs Hc]. unfold parseredirs. rewrite bind_Ok_1 with (a := s) (s' := s) by done. apply loop_done.
  unfold parseredirs_body. by rewrite (bind_Ok_1 _ _ _ _ _ (peek_no _ _ Hs Hc)).
Qed.

(** What may follow a line: the end or a closing parenthesis. *)
Definition follow (t : list Z) : Prop := match t with [] => True | c :: _ => c = 41 end.

Lemma follow_starts t : follow t → starts t.
Proof. destruct t as [|c t]; [done|]. by intros ->. Qed.
Lemma follow_no_redir t : follow t → no_redir t.
Proof. intros Hf. split; [by apply follow_starts|]. destruct t as [|c t]; [done|]. by rewrite Hf. Qed.
Lemma follow_peek toks t : follow t → in_chars toks 41 = false → peek toks t = Ok (false, t).
Proof. intros Hf Ht. apply peek_no; [by apply follow_starts|]. destruct t as [|c t]; [done|]. by rewrite Hf. Qed.

Lemma words_no_redir ws t : Forall word ws → follow t → no_redir (words ws ++ t).
Proof.
  intros Hw Hf. destruct Hw as [|x ws (Hx0 & Hx & _) _]; [by apply follow_no_redir|]. destruct x as [|c x]; [done|].
  apply Forall_cons in Hx as [Hc _]. split; [by apply starts_word|]. cbn. apply word_not_in; [|done]. repeat constructor; set_solver.
Qed.

Lemma print_starts w t : wf w → starts t → starts (print w ++ t).
Proof.
  intros Hw Ht. destruct w as [ws|w x k|a b|a b|w]; cbn; try done. destruct Hw as [Hw _].
  destruct Hw as [|x ws (Hx0 & Hx & _) _]; [done|]. destruct x as [|c x]; [done|]. apply Forall_cons in Hx as [Hc _]. by apply starts_word.
Qed.

(** ** Arguments *)

Lemma exec_words line ws : ∀ argv t fuel, Forall word ws → follow t → suffix line (words ws ++ t) →
  (length argv + length ws < MAXARGS)%nat → (length ws < fuel)%nat →
  ∃ toks, loop fuel (parseexec_body (length line)) (argv, []) (words ws ++ t) = Ok ((argv ++ toks, []), t) ∧ text line <$> toks = ws.
Proof.
  induction ws as [|x ws IH]; intros argv t fuel Hw Hf Hl Hm Hfu; (destruct fuel as [|fuel]; [cbn in Hfu; lia|]).
  - exists []. rewrite app_nil_r. split; [|done]. apply loop_done. cbn [words app]. change (words [] ++ t) with t. unfold parseexec_body.
    destruct t as [|c t]; [done|]. cbn in Hf. subst c. by rewrite (bind_Ok_1 _ _ _ _ _ (peek_yes [124; 41; 38; 59] 41 t eq_refl eq_refl)).
  - apply Forall_cons in Hw as [Hx Hw]. assert (words (x :: ws) ++ t = x ++ 32 :: words ws ++ t) as E by (unfold words; cbn; by rewrite <-!app_assoc).
    rewrite E in *. destruct (gettoken_word line x (32 :: words ws ++ t) Hx eq_refl Hl) as (w & Hg & Htx).
    assert (skip_white (32 :: words ws ++ t) = words ws ++ t) as Esk by (cbn; by apply words_no_redir). rewrite Esk in Hg.
    assert (suffix line (words ws ++ t)) as Hl' by (eapply suffix_trans; [exact Hl|]; exists (x ++ [32]); by rewrite <-app_assoc).
    destruct (IH (argv ++ [w]) t fuel Hw Hf Hl') as (toks & Hrun & Htoks); [rewrite length_app; cbn in *; lia|cbn in Hfu; lia|].
    exists (w :: toks). split; [|cbn; by rewrite Htx, Htoks].
    rewrite (loop_step _ _ _ _ (argv ++ [w], []) (words ws ++ t)).
    + rewrite Hrun. by rewrite <-app_assoc.
    + unfold parseexec_body. destruct Hx as (Hx0 & Hxw & _). destruct x as [|c x]; [done|]. pose proof (proj1 (Forall_cons _ _ _) Hxw) as [Hc _].
      assert (peek [124; 41; 38; 59] ((c :: x) ++ 32 :: words ws ++ t) = Ok (false, (c :: x) ++ 32 :: words ws ++ t)) as Hp.
      { apply peek_no; [by apply starts_word|]. cbn. apply word_not_in; [|done]. repeat constructor; set_solver. }
      rewrite (bind_Ok_1 _ _ _ _ _ Hp), (bind_Ok_1 _ _ _ _ _ Hg). cbn [Z.eqb negb Pos.eqb]. rewrite length_app. cbn [length] in *.
      destruct (Nat.leb_spec MAXARGS (length argv + 1)); [unfold MAXARGS in *; lia|].
      by rewrite (bind_Ok_1 _ _ _ _ _ (parseredirs_none _ [] _ (words_no_redir ws t Hw Hf))).
Qed.

(** ** Commands in parentheses *)

(** The induction hypothesis: [w], followed by the end or a parenthesis, is
    parsed as a line. *)
Definition parses (line : list Z) (w : wcmd) : Prop := ∀ t fuel,
  follow t → suffix line (print w ++ t) → (4 * length (print w ++ t) + 4 ≤ fuel)%nat →
  ∃ c, parseline (length line) fuel (print w ++ t) = Ok (c, t) ∧ shows (text line) c w.

Section written.
Context (line : list Z).
Local Notation len := (length line).

Lemma bind_step {A B} (m : M (list Z) A) (f : A → M (list Z) B) s a s' r :
  m s = Ok (a, s') → f a s' = r → (m ≫= f) s = r.
Proof. intros Hm <-. by rewrite (bind_Ok_1 _ _ _ _ _ Hm). Qed.

Lemma then_gettoken {B} (f : M (list Z) B) c r s' res :
  c ∈ [124; 40; 41; 59; 38; 60] → skip_white r = s' → f s' = res → (gettoken len ;; f) (c :: r) = res.
Proof. intros Hc <- Hf. destruct (gettoken_sym line c r Hc) as [w Hg]. eapply bind_step; [exact Hg|done]. Qed.

(** Behind the closing parenthesis, [parseexec] looks for redirections. *)
Lemma exec_paren w t fuel :
  wf w → parses line w → starts t → suffix line (paren (print w) ++ t) → (4 * length (paren (print w) ++ t) + 2 ≤ fuel)%nat →
  ∃ c, parseexec len fuel (paren (print w) ++ t) = (l ← parseredirs len []; mret (wrap c l)) t ∧ shows (text line) c w.
Proof.
  intros Hw IH Ht Hl Hf. assert (paren (print w) ++ t = 40 :: print w ++ 41 :: t) as E by (unfold paren; cbn; by rewrite <-app_assoc).
  rewrite E in *. cbn [length] in Hf. destruct fuel as [|[|fuel]]; [lia..|].
  destruct (IH (41 :: t) fuel eq_refl) as (c & Hc & Hs); [eapply suffix_trans; [exact Hl|by exists [40]]|lia|]. exists c. split; [|done].
  cbn [parseexec]. eapply bind_step; [by apply (peek_yes [40])|]. cbn [parseblock]. eapply bind_step; [by apply (peek_yes [40])|]. cbn [negb].
  eapply then_gettoken; [set_solver|by apply print_starts|]. eapply bind_step; [exact Hc|].
  eapply bind_step; [by apply (peek_yes [41])|]. cbn [negb]. eapply then_gettoken; [set_solver|exact Ht|]. done.
Qed.

Lemma exec_paren_none w t fuel :
  wf w → parses line w → no_redir t → suffix line (paren (print w) ++ t) → (4 * length (paren (print w) ++ t) + 2 ≤ fuel)%nat →
  ∃ c, parseexec len fuel (paren (print w) ++ t) = Ok (c, t) ∧ shows (text line) c w.
Proof.
  intros Hw IH Ht Hl Hf. destruct (exec_paren w t fuel Hw IH (proj1 Ht) Hl Hf) as (c & E & Hs). exists c. split; [|done].
  rewrite E. eapply bind_step; [by apply parseredirs_none|]. done.
Qed.

(** Nothing follows a command. *)
Lemma pipe_end c s t fuel : parseexec len fuel s = Ok (c, t) → follow t → parsepipe len (S fuel) s = Ok (c, t).
Proof. intros Hc Ht. cbn [parsepipe]. eapply bind_step; [exact Hc|]. eapply bind_step; [by apply follow_peek|]. done. Qed.

Lemma back_end c t : follow t → loop (S (length t)) (back_body len) c t = Ok (c, t).
Proof. intros Ht. apply loop_done. unfold back_body. eapply bind_step; [by apply follow_peek|]. done. Qed.

Lemma line_end c s t fuel : parsepipe len fuel s = Ok (c, t) → follow t → parseline len (S fuel) s = Ok (c, t).
Proof.
  intros Hc Ht. cbn [parseline]. eapply bind_step; [exact Hc|]. eapply bind_step; [done|]. eapply bind_step; [by apply back_end|].
  eapply bind_step; [by apply follow_peek|]. done.
Qed.

Lemma redir_one file k t :
  word file → follow t → suffix line (kind_text k ++ file ++ 32 :: t) →
  ∃ w, parseredirs len [] (kind_text k ++ file ++ 32 :: t) = Ok ([(w, (kind_mode k).1, (kind_mode k).2)], t) ∧ text line w = file.
Proof.
  intros Hx Ht Hl. assert (suffix line (file ++ 32 :: t)) as Hl' by (eapply suffix_trans; [exact Hl|by exists (kind_text k)]).
  destruct (gettoken_word line file (32 :: t) Hx eq_refl Hl') as (w & Hg & Htx). exists w. split; [|done].
  assert (skip_white (32 :: t) = t) as Esk by (cbn; by apply follow_starts). rewrite Esk in Hg.
  destruct Hx as (Hx0 & Hxw & _). destruct file as [|c file]; [done|]. apply Forall_cons in Hxw as [Hc _].
  pose proof (starts_word c (file ++ 32 :: t) Hc) as Hst. unfold starts in Hst.
  unfold parseredirs. eapply bind_step; [done|]. set (fuel := length _). assert (∃ n, fuel = S n) as [n ->].
  { unfold fuel. rewrite length_app. destruct k; cbn; by eexists. }
  assert (parseredirs_body len [] (kind_text k ++ (c :: file) ++ 32 :: t) = Ok (inl [(w, (kind_mode k).1, (kind_mode k).2)], t)) as Hb.
  { unfold parseredirs_body. destruct k; cbn [kind_text app kind_mode fst snd].
    - eapply bind_step; [by apply (peek_yes [60; 62])|]. destruct (gettoken_sym line 60 (c :: file ++ 32 :: t)) as [w0 Hg0]; [set_solver|].
      rewrite Hst in Hg0. eapply bind_step; [exact Hg0|]. eapply bind_step; [exact Hg|]. done.
    - eapply bind_step; [by apply (peek_yes [60; 62])|].
      assert (∃ w0, gettoken len (62 :: c :: file ++ 32 :: t) = Ok ((62, w0), c :: file ++ 32 :: t)) as [w0 Hg0].
      { pose proof (wordc_not_sym c Hc) as Hs. unfold symbols in Hs. rewrite !Forall_cons in Hs. destruct_and!.
        eexists. unfold gettoken. rewrite bind_Ok_1 with (a := 62 :: c :: file ++ 32 :: t) (s' := 62 :: c :: file ++ 32 :: t) by done.
        change (skip_white (62 :: c :: file ++ 32 :: t)) with (62 :: c :: file ++ 32 :: t). cbv beta iota zeta.
        rewrite (proj2 (Z.eqb_neq c 62)) by done. cbn -[skip_white length].
        unfold mret, M_ret, mbind, M_bind, put. rewrite Hst. reflexivity. }
      eapply bind_step; [exact Hg0|]. eapply bind_step; [exact Hg|]. done.
    - eapply bind_step; [by apply (peek_yes [60; 62])|].
      assert (∃ w0, gettoken len (62 :: 62 :: c :: file ++ 32 :: t) = Ok ((43, w0), c :: file ++ 32 :: t)) as [w0 Hg0].
      { eexists. unfold gettoken. rewrite bind_Ok_1 with (a := 62 :: 62 :: c :: file ++ 32 :: t) (s' := 62 :: 62 :: c :: file ++ 32 :: t) by done.
        change (skip_white (62 :: 62 :: c :: file ++ 32 :: t)) with (62 :: 62 :: c :: file ++ 32 :: t).
        cbn -[skip_white length]. unfold mret, M_ret, mbind, M_bind, put. rewrite Hst. reflexivity. }
      eapply bind_step; [exact Hg0|]. eapply bind_step; [exact Hg|]. done. }
  rewrite (loop_step _ _ _ _ _ _ Hb). apply loop_done. unfold parseredirs_body. destruct (follow_no_redir t Ht) as [H1 H2].
  eapply bind_step; [by apply peek_no|]. done.
Qed.

Lemma parses_exec ws : wf (WExec ws) → parses line (WExec ws).
Proof.
  intros [Hw Hm] t fuel Ht Hl Hf. cbn [print] in *. destruct fuel as [|[|[|fuel]]]; [lia..|].
  destruct (exec_words line ws [] t (S (length (words ws ++ t))) Hw Ht Hl) as (toks & Hrun & Htx); [cbn; lia| |].
  { rewrite length_app. assert (length ws ≤ length (words ws))%nat; [|lia]. clear. induction ws as [|x ws IH]; [done|].
    unfold words in *. cbn. rewrite length_app, length_app. cbn. lia. }
  exists (execcmd toks). split; [|exact Htx]. eapply line_end; [eapply pipe_end; [|done]|done]. cbn [parseexec].
  destruct (words_no_redir ws t Hw Ht) as [Hst Hnr]. eapply bind_step.
  { apply peek_no; [done|]. destruct Hw as [|x ws (Hx0 & Hx & _) _].
    - destruct t as [|c t]; [done|]. by rewrite Ht.
    - destruct x as [|c x]; [done|]. apply Forall_cons in Hx as [Hc _]. apply word_not_in; [|done]. repeat constructor; set_solver. }
  eapply bind_step; [by apply parseredirs_none|]. eapply bind_step; [done|]. eapply bind_step; [exact Hrun|]. done.
Qed.

Lemma no_redir_sym c t : c ∈ [124; 41; 59; 38] → no_redir (c :: t).
Proof.
  intros Hc. assert (c = 124 ∨ c = 41 ∨ c = 59 ∨ c = 38) as Hor by set_solver. by destruct_or! Hor; subst c.
Qed.

Lemma length_paren x : length (paren x) = (length x + 2)%nat.
Proof. unfold paren. cbn. rewrite length_app. cbn. lia. Qed.

Lemma parses_redir w file k : wf w → word file → parses line w → parses line (WRedir w file k).
Proof.
  intros Hw Hx IH t fuel Ht Hl Hf. cbn [print] in *. destruct fuel as [|[|fuel]]; [lia..|].
  assert ((paren (print w) ++ kind_text k ++ file ++ [32]) ++ t = paren (print w) ++ kind_text k ++ file ++ 32 :: t) as E by (by rewrite <-!app_assoc).
  rewrite E in *. assert (starts (kind_text k ++ file ++ 32 :: t)) as Hst by (by destruct k).
  destruct (exec_paren w _ fuel Hw IH Hst Hl ltac:(lia)) as (c & Ec & Hs).
  destruct (redir_one file k t Hx Ht) as (tok & Er & Htx); [eapply suffix_trans; [exact Hl|by exists (paren (print w))]|].
  exists (redircmd c tok (kind_mode k).1 (kind_mode k).2). split.
  - eapply line_end; [eapply pipe_end; [|done]|done]. rewrite Ec. eapply bind_step; [exact Er|]. done.
  - cbn. split_and!; [done|done|by destruct k].
Qed.

Lemma parses_pipe l r : wf l → wf r → parses line l → parses line r → parses line (WPipe l r).
Proof.
  intros Hl Hr IHl IHr t fuel Ht Hs Hf. cbn [print] in *. destruct fuel as [|[|fuel]]; [lia..|].
  assert ((paren (print l) ++ 124 :: paren (print r)) ++ t = paren (print l) ++ 124 :: paren (print r) ++ t) as E by (by rewrite <-app_assoc).
  rewrite E in *. rewrite !length_app in Hf. cbn [length] in Hf. rewrite length_app, !length_paren in Hf.
  destruct (exec_paren_none l (124 :: paren (print r) ++ t) fuel Hl IHl) as (c1 & E1 & S1);
    [apply no_redir_sym; set_solver|done|rewrite !length_app; cbn [length]; rewrite length_app, !length_paren; lia|].
  destruct fuel as [|fuel]; [lia|].
  destruct (exec_paren_none r t fuel Hr IHr) as (c2 & E2 & S2); [by apply follow_no_redir| |rewrite length_app, length_paren; lia|].
  { eapply suffix_trans; [exact Hs|]. exists (paren (print l) ++ [124]). by rewrite <-app_assoc. }
  exists (pipecmd c1 c2). split; [|done]. apply line_end; [|done]. cbn [parsepipe]. eapply bind_step; [exact E1|].
  eapply bind_step; [by apply (peek_yes [124])|]. eapply then_gettoken; [set_solver|done|].
  eapply bind_step; [by apply (pipe_end c2 (paren (print r) ++ t) t)|]. done.
Qed.

Lemma parses_list l r : wf l → wf r → parses line l → parses line r → parses line (WList l r).
Proof.
  intros Hl Hr IHl IHr t fuel Ht Hs Hf. cbn [print] in *. destruct fuel as [|[|fuel]]; [lia..|].
  assert ((paren (print l) ++ 59 :: paren (print r)) ++ t = paren (print l) ++ 59 :: paren (print r) ++ t) as E by (by rewrite <-app_assoc).
  rewrite E in *. rewrite !length_app in Hf. cbn [length] in Hf. rewrite length_app, !length_paren in Hf.
  destruct (exec_paren_none l (59 :: paren (print r) ++ t) fuel Hl IHl) as (c1 & E1 & S1);
    [apply no_redir_sym; set_solver|done|rewrite !length_app; cbn [length]; rewrite length_app, !length_paren; lia|].
  destruct fuel as [|fuel]; [lia|].
  destruct (exec_paren_none r t fuel Hr IHr) as (c2 & E2 & S2); [by apply follow_no_redir| |rewrite length_app, length_paren; lia|].
  { eapply suffix_trans; [exact Hs|]. exists (paren (print l) ++ [59]). by rewrite <-app_assoc. }
  exists (listcmd c1 c2). split; [|done]. cbn [parseline]. eapply bind_step.
  { cbn [parsepipe]. eapply bind_step; [exact E1|]. eapply bind_step; [by apply peek_no|]. done. }
  eapply bind_step; [done|]. eapply bind_step.
  { apply loop_done. unfold back_body. eapply bind_step; [by apply peek_no|]. done. }
  eapply bind_step; [by apply (peek_yes [59])|]. eapply then_gettoken; [set_solver|done|].
  eapply bind_step; [|done]. eapply line_end; [by eapply pipe_end|done].
Qed.

Lemma parses_back w : wf w → parses line w → parses line (WBack w).
Proof.
  intros Hw IH t fuel Ht Hs Hf. cbn [print] in *. destruct fuel as [|[|fuel]]; [lia..|].
  assert ((paren (print w) ++ [38]) ++ t = paren (print w) ++ 38 :: t) as E by (by rewrite <-app_assoc).
  rewrite E in *. destruct (exec_paren_none w (38 :: t) fuel Hw IH) as (c & E1 & S1); [apply no_redir_sym; set_solver|done|lia|].
  exists (backcmd c). split; [|done]. cbn [parseline]. eapply bind_step.
  { cbn [parsepipe]. eapply bind_step; [exact E1|]. eapply bind_step; [by apply peek_no|]. done. }
  eapply bind_step; [done|]. eapply bind_step.
  { erewrite loop_step; [by apply back_end|]. unfold back_body. eapply bind_step; [by apply (peek_yes [38])|].
    eapply then_gettoken; [set_solver|by apply follow_starts|]. done. }
  eapply bind_step; [by apply follow_peek|]. done.
Qed.

Lemma parses_all w : wf w → parses line w.
Proof.
  induction w as [ws|w IH file k|l IHl r IHr|l IHl r IHr|w IH]; intros Hw.
  - by apply parses_exec.
  - destruct Hw. apply parses_redir; auto.
  - destruct Hw. apply parses_pipe; auto.
  - destruct Hw. apply parses_list; auto.
  - apply parses_back; auto.
Qed.
End written.

Lemma print_no_nul w : wf w → no_nul (print w).
Proof.
  unfold no_nul. induction w as [ws|w IH file k|l IHl r IHr|l IHl r IHr|w IH]; cbn [print wf]; unfold paren.
  - intros [Hw _]. induction Hw as [|x ws (_ & _ & Hx) _ IHw]; [constructor|]. cbn. apply Forall_app. split; [|done].
    apply Forall_app. split; [done|]. by repeat constructor.
  - intros [Hw (_ & _ & Hx)]. rewrite !Forall_app, !Forall_cons, !Forall_app. split_and!; auto; destruct k; repeat constructor; done.
  - intros [Hl Hr]. rewrite ?Forall_cons, ?Forall_app, ?Forall_cons, ?Forall_app, ?Forall_cons, ?Forall_app, ?Forall_singleton. naive_solver.
  - intros [Hl Hr]. rewrite ?Forall_cons, ?Forall_app, ?Forall_cons, ?Forall_app, ?Forall_cons, ?Forall_app, ?Forall_singleton. naive_solver.
  - intros Hw. rewrite ?Forall_cons, ?Forall_app, ?Forall_cons, ?Forall_app, ?Forall_singleton. naive_solver.
Qed.

(** The parser reads a printed command back. *)
Lemma parseline_print (w : wcmd) : wf w → ∃ c, parseline (length (print w)) (parse_fuel (print w)) (print w) = Ok (c, []) ∧
  shows (λ t, cstr (drop t.1 (nulterminate c (print w ++ [0])))) c w.
Proof.
  intros Hw. destruct (parses_all (print w) w Hw [] (parse_fuel (print w))) as (c & Hc & Hs).
  - done.
  - rewrite app_nil_r. apply suffix_refl.
  - rewrite app_nil_r. unfold parse_fuel. lia.
  - rewrite app_nil_r in Hc. exists c. split; [exact Hc|].
    destruct (parse_safe (print w) (parse_fuel (print w)) (print w) (suffix_refl _)) as (Hp & _). unfold parse_fuel in Hp at 1.
    specialize (Hp ltac:(lia)). unfold safe in Hp. rewrite Hc in Hp. destruct Hp as (_ & _ & Hok).
    eapply shows_ext; [|exact Hs]. intros t Ht. symmetry. apply nulterminate_text; [by apply print_no_nul|done|done].
Qed.

(** The shell parses back every command: a command with at most nine
    arguments for each program, written out with its parts in parentheses, is parsed to a
    tree of the same shape, with the modes and descriptors of its
    redirections, and after [nulterminate] the strings at its tokens are
    the words of the command. *)
Theorem parsecmd_print (w : wcmd) :
  wf w → ∃ c line', parsecmd (print w) = Ok (c, line') ∧ shows (λ t, cstr (drop t.1 line')) c w.
Proof.
  intros Hw. destruct (parseline_print w Hw) as (c & Hc & Hs). exists c, (nulterminate c (print w ++ [0])).
  split; [unfold parsecmd; by rewrite Hc|exact Hs].
Qed.

(** (cat)>f of the word "cat" and the file "f". *)
Lemma parsecmd_print_witness : ∃ c line', parsecmd [40; 99; 97; 116; 32; 41; 62; 102; 32] = Ok (c, line').
Proof.
  destruct (parsecmd_print (WRedir (WExec [[99; 97; 116]]) [102] ROut)) as (c & line' & E & _).
  - repeat split; repeat constructor; done.
  - exists c, line'. exact E.
Defined.
