(* ===== verification/Shrun.v ===== *)
(** The shell, [user/sh.c], from a command to the processes that run it, and its
    main loop, over the calls of {!Usys}.  The parser is in {!Sh}. *)

From S2P Require Import Prelude Riscv Mem Str Grep Sysfile Usys Ulib Uprogs Sh.
Import Ulib.

Definition panic {A} (s : cstr) : prog A :=
  fprintf 2 (line "%s") [Chars (Some s)] ;;
  exit 1.

Definition fork1 : prog Z :=
  pid ← fork;
  if pid =? -1 then panic (lit "fork") else Ret pid.

(** The string of a token in the line behind [nulterminate]. *)
Definition string_at (buf : list Z) (w : token) : cstr := Ls.upto_nul (drop w.1 buf).

(** Execute cmd.  Never returns. *)
Fixpoint runcmd (buf : list Z) (c : cmd) : prog unit :=
  match c with
  | execcmd argv =>
      match argv with
      | [] => exit 1
      | argv0 :: _ =>
          exec (string_at buf argv0) (string_at buf <$> argv) ;;
          fprintf 2 (line "exec %s failed") [Chars (Some (string_at buf argv0))] ;;
          exit 0
      end
  | redircmd c file mode fd =>
      close fd ;;
      rc ← open (string_at buf file) mode;
      if rc <? 0 then
        fprintf 2 (line "open %s failed") [Chars (Some (string_at buf file))] ;;
        exit 1
      else
        runcmd buf c ;;
        exit 0
  | listcmd l r =>
      pid ← fork1;
      (if pid =? 0 then runcmd buf l else Ret tt) ;;
      wait ;;
      runcmd buf r ;;
      exit 0
  | pipecmd l r =>
      '(rc, p) ← pipe;
      if rc <? 0 then panic (lit "pipe")
      else
        match p with
        | [p0; p1] =>
            pid ← fork1;
            (if pid =? 0 then
               close 1 ;;
               dup p1 ;;
               close p0 ;;
               close p1 ;;
               runcmd buf l
             else Ret tt) ;;
            pid ← fork1;
            (if pid =? 0 then
               close 0 ;;
               dup p0 ;;
               close p0 ;;
               close p1 ;;
               runcmd buf r
             else Ret tt) ;;
            close p0 ;;
            close p1 ;;
            wait ;;
            wait ;;
            exit 0
        | _ => Fault
        end
  | backcmd c =>
      pid ← fork1;
      (if pid =? 0 then runcmd buf c else Ret tt) ;;
      exit 0
  end.

(** [runcmd(parsecmd(cmd))]: {!Sh.parsecmd} with the messages it prints. *)
Definition runline (s : cstr) : prog unit :=
  match parseline (length s) (parse_fuel s) s with
  | Ok (c, s') =>
      match peek [] s' with
      | Ok (_, []) => runcmd (nulterminate c (s ++ [0])) c
      | Ok (_, rest) =>
          fprintf 2 (line "leftovers: %s") [Chars (Some rest)] ;;
          panic (lit "syntax")
      | _ => Fault
      end
  | Panic msg => panic (lit msg)
  | NoFuel => Hang
  | _ => Fault
  end.

(** The line that was read; [None] at the end of the input. *)
Definition getcmd (nbuf : Z) : prog (option cstr) :=
  write 2 (lit "$ ") ;;
  buf ← gets nbuf;
  Ret (if at0 buf =? 0 then None else Some (Ls.upto_nul buf)).

Fixpoint skip_blanks (s : cstr) : cstr :=
  match s with
  | [] => []
  | c :: s' => if (c =? 32) || (c =? 9) then skip_blanks s' else s
  end.

(** Ensure that three file descriptors are open. *)
Definition open_body (_ : unit) : prog (unit + unit) :=
  fd ← open (lit "console") O_RDWR;
  if 0 <=? fd then
    if 3 <=? fd then
      close fd ;;
      Ret (inr tt)
    else Ret (inl tt)
  else Ret (inr tt).

(** Read and run input commands. *)
Definition main_body (_ : unit) : prog (unit + unit) :=
  o ← getcmd 100;
  match o with
  | None => Ret (inr tt)
  | Some buf =>
      let cmd := skip_blanks buf in
      if at0 cmd =? 10 then Ret (inl tt)  (* is a blank command *)
      else if (at0 cmd =? 99) && (at0 (drop 1 cmd) =? 100) && (at0 (drop 2 cmd) =? 32) then
        (* Chdir must be called by the parent, not the child. *)
        let dir := drop 3 (take (length cmd - 1) cmd) in  (* chop \n *)
        r ← chdir dir;
        (if r <? 0 then fprintf 2 (line "cannot cd %s") [Chars (Some dir)] else Ret tt) ;;
        Ret (inl tt)
      else
        pid ← fork1;
        (if pid =? 0 then runline cmd else Ret tt) ;;
        wait ;;
        Ret (inl tt)
  end.

Definition main (fuel : nat) : prog Z :=
  ploop fuel open_body tt ;;
  ploop fuel main_body tt ;;
  exit 0.
