(* ===== verification/ShrunSpec.v ===== *)
(** Running a command: the processes the shell starts, what each executes and
    with which descriptors.

    The calls of the shell act on a table of descriptors, as in [fdalloc] of
    {!Sysfile}: [open], [dup] and [pipe] take the lowest free ones.  A [fork]
    yields a tree of two processes.  Running out of processes or memory is not
    considered; whether a file can be opened and a program be executed is given
    by [can_open] and [can_exec]. *)

From S2P Require Import Prelude Riscv Mem Str Grep Sysfile Usys Ulib Uio Uprogs Sh ShSpec Shrun.
Import Ulib.

(** * Processes *)

(** What a descriptor is open on. *)
Inductive obj :=
  | Inherited (n : nat)
  | Opened (path : list Z) (mode : Z)
  | PipeEnd (id : nat) (writing : bool).
Abbreviation fdtable := (list (option obj)).

(** What a process does: it executes a program or exits with the descriptors it
    then has, forks, or waits for a child. *)
Inductive trace :=
  | TExec (path : list Z) (argv : list (list Z)) (fds : fdtable)
  | TExit (status : Z) (fds : fdtable)
  | TFork (child parent : trace)
  | TWait (fds : fdtable) (rest : trace)
  | TStuck.

Section procs.
Context (can_open : list Z → Z → bool) (can_exec : list Z → bool).

(** The lowest free descriptor of a table becomes [o]. *)
Definition alloc (o : obj) (fds : fdtable) : option (nat * fdtable) := (λ i, (i, <[i := Some o]> fds)) <$> free_fd fds 0.
Definition free (fd : Z) (fds : fdtable) : fdtable := <[Z.to_nat fd := None]> fds.

(** [next] is the number of the next pipe. *)
Fixpoint procs {A} (p : prog A) (fds : fdtable) (next : nat) : trace * nat :=
  match p with
  | Exit s => (TExit s fds, next)
  | Ret _ | Fault | Hang => (TStuck, next)
  | Call c k =>
      let fail := procs (k (Reply (-1) [])) fds next in
      match c with
      | Cfork =>
          let '(t1, n1) := procs (k (Reply 0 [])) fds next in
          let '(t2, n2) := procs (k (Reply 1 [])) fds n1 in
          (TFork t1 t2, n2)
      | Cwait => let '(t, n) := procs (k (Reply 1 [0])) fds next in (TWait fds t, n)
      | Cpipe =>
          match alloc (PipeEnd next false) fds with
          | Some (p0, fds1) =>
              match alloc (PipeEnd next true) fds1 with
              | Some (p1, fds2) => procs (k (Reply 0 [Z.of_nat p0; Z.of_nat p1])) fds2 (S next)
              | None => fail
              end
          | None => fail
          end
      | Cclose fd => procs (k (Reply 0 [])) (free fd fds) next
      | Cdup fd =>
          match fds !! Z.to_nat fd with
          | Some (Some o) =>
              match alloc o fds with
              | Some (i, fds') => procs (k (Reply (Z.of_nat i) [])) fds' next
              | None => fail
              end
          | _ => fail
          end
      | Copen path mode =>
          if can_open path mode then
            match alloc (Opened path mode) fds with
            | Some (i, fds') => procs (k (Reply (Z.of_nat i) [])) fds' next
            | None => fail
            end
          else fail
      | Cexec path argv => if can_exec path then (TExec path argv fds, next) else fail
      | Cwrite fd l => procs (k (Reply (Z.of_nat (length l)) [])) fds next
      | _ => fail
      end
  end.

(** * What a command means *)

Fixpoint meaning (w : wcmd) (fds : fdtable) (next : nat) : trace * nat :=
  match w with
  | WExec [] => (TExit 1 fds, next)
  | WExec (x :: args) => (if can_exec x then TExec x (x :: args) fds else TExit 0 fds, next)
  | WRedir c file k =>
      let '(mode, fd) := kind_mode k in
      if can_open file mode then meaning c (<[Z.to_nat fd := Some (Opened file mode)]> fds) next
      else (TExit 1 (<[Z.to_nat fd := None]> fds), next)
  | WPipe l r =>
      let '(t1, n1) := meaning l (<[1%nat := Some (PipeEnd next true)]> fds) (S next) in
      let '(t2, n2) := meaning r (<[0%nat := Some (PipeEnd next false)]> fds) n1 in
      (TFork t1 (TFork t2 (TWait fds (TWait fds (TExit 0 fds)))), n2)
  | WList l r =>
      let '(t1, n1) := meaning l fds next in
      let '(t2, n2) := meaning r fds n1 in
      (TFork t1 (TWait fds t2), n2)
  | WBack c =>
      let '(t, n) := meaning c fds next in
      (TFork t (TExit 0 fds), n)
  end.

(** The programs that are executed, with their descriptors. *)
Fixpoint execs (t : trace) : list (list Z * list (list Z) * fdtable) :=
  match t with
  | TExec path argv fds => [(path, argv, fds)]
  | TFork a b => execs a ++ execs b
  | TWait _ t => execs t
  | TExit _ _ | TStuck => []
  end.

(** * Programs that only print, and programs that do not return *)

Inductive prints {A} : prog A → A → Prop :=
  | prints_ret a : prints (Ret a) a
  | prints_write fd l k a : (∀ r, prints (k r) a) → prints (Call (Cwrite fd l) k) a.

Inductive never {A} : prog A → Prop :=
  | never_exit s : never (Exit s)
  | never_fault : never Fault
  | never_hang : never Hang
  | never_call c k : (∀ r, never (k r)) → never (Call c k).

Lemma uprints_bind {A B} (p : prog A) (f : A → prog B) a b : prints p a → prints (f a) b → prints (p ≫= f) b.
Proof. intros Hp Hf. induction Hp as [a|fd l k a _ IH]; [done|]. constructor. intros r. by apply IH. Qed.

Lemma procs_prints {A B} (p : prog A) (f : A → prog B) a fds n : prints p a → procs (p ≫= f) fds n = procs (f a) fds n.
Proof. intros Hp. induction Hp as [a|fd l k a _ IH]; [done|]. cbn. apply IH. Qed.

Lemma never_bind {A B} (p : prog A) (f : A → prog B) : never p → never (p ≫= f).
Proof. induction 1 as [s| | |c k _ IH]; constructor. apply IH. Qed.
Lemma never_then {A B} (p : prog A) (f : A → prog B) : (∀ a, never (f a)) → never (p ≫= f).
Proof. intros Hf. induction p as [a|c k IH|s| |]; [apply Hf|constructor; apply IH|constructor..]. Qed.

Lemma procs_never {A B} (p : prog A) (f : A → prog B) fds n : never p → procs (p ≫= f) fds n = procs p fds n.
Proof.
  intros Hp. revert fds n. induction Hp as [s| | |c k _ IH]; intros fds n; [done..|].
  change (Call c k ≫= f) with (Call c (λ r, k r ≫= f)). destruct c; cbn [procs]; rewrite ?IH; try done.
  - destruct (procs (k (Reply 0 [])) fds n) as [t1 n1]. by rewrite IH.
  - unfold alloc. destruct (free_fd fds 0) as [i|]; cbn; [|done]. destruct (free_fd _ 0) as [j|]; cbn; [|done]. apply IH.
  - destruct (can_open path mode); [|done]. unfold alloc. destruct (free_fd fds 0); cbn; [apply IH|done].
  - destruct (fds !! Z.to_nat fd) as [[o|]|]; [|done..]. unfold alloc. destruct (free_fd fds 0); cbn; [apply IH|done].
Qed.

Lemma prints_putc fd c : prints (putc fd c) tt.
Proof. constructor. intros r. constructor. Qed.
Lemma prints_chars fd l : prints (pforeach l (putc fd)) tt.
Proof. induction l as [|c l IH]; [constructor|]. eapply uprints_bind; [apply prints_putc|exact IH]. Qed.
Lemma prints_text fd l fmt ap : Forall (λ c, c ≠ 37) l → prints (vprintf fd false fmt ap) tt → prints (vprintf fd false (l ++ fmt) ap) tt.
Proof.
  intros Hl Hf. induction Hl as [|c l Hc Hl IH]; [done|]. cbn [app vprintf negb]. rewrite (proj2 (Z.eqb_neq c 37) Hc).
  apply (uprints_bind (putc fd c) (λ _, vprintf fd false (l ++ fmt) ap) tt); [apply prints_putc|exact IH].
Qed.
Lemma prints_message fd l m s fmt : fmt = l ++ [37; 115] ++ m → Forall (λ c, c ≠ 37) l → Forall (λ c, c ≠ 37) m →
  prints (fprintf fd fmt [Chars (Some s)]) tt.
Proof.
  intros -> Hl Hm. apply prints_text; [done|].
  apply (uprints_bind (pforeach s (putc fd)) (λ _, vprintf fd false m []) tt); [apply prints_chars|].
  rewrite <-(app_nil_r m). apply prints_text; [done|constructor].
Qed.

Lemma never_panic {A} s : never (panic (A := A) s).
Proof. apply never_then. intros []. constructor. Qed.

Lemma never_runcmd buf c : never (runcmd buf c).
Proof.
  induction c as [argv|c IH file mode fd|l IHl r IHr|l IHl r IHr|c IH]; cbn [runcmd].
  - destruct argv as [|argv0 argv]; [constructor|]. apply never_then. intros _. apply never_then. intros _. constructor.
  - apply never_then. intros _. apply never_then. intros rc. destruct (rc <? 0); apply never_then; intros; constructor.
  - apply never_then. intros [rc p]. destruct (rc <? 0); [apply never_panic|]. destruct p as [|p0 [|p1 [|]]]; [constructor..| |constructor].
    apply never_then. intros pid. apply never_then. intros _. apply never_then. intros pid'. do 5 (apply never_then; intros _). constructor.
  - apply never_then. intros pid. do 2 (apply never_then; intros _). apply never_then. intros. constructor.
  - apply never_then. intros pid. apply never_then. intros. constructor.
Qed.

(** * The table of descriptors *)

Definition nfree (l : fdtable) : nat := length (filter (λ o, o = None) l).

(** Standard input and output are open and two descriptors are free. *)
Definition ready (fds : fdtable) : Prop := ∃ a b rest, fds = Some a :: Some b :: rest ∧ (2 ≤ nfree rest)%nat.

Lemma free_fd_found (l : fdtable) k : (0 < nfree l)%nat → ∃ i, free_fd l k = Some (k + i)%nat ∧ l !! i = Some None ∧
  ∀ o, S (nfree (<[i := Some o]> l)) = nfree l.
Proof.
  revert k. induction l as [|[x|] l IH]; intros k H; [cbn in H; lia| |].
  - destruct (IH (S k)) as (i & E & Hi & Hn); [exact H|]. exists (S i). cbn [free_fd]. rewrite E. split; [f_equal; lia|]. split; [done|]. exact Hn.
  - exists 0%nat. split; [cbn; f_equal; lia|]. done.
Qed.

Lemma two_free a b (rest : fdtable) o o' : (2 ≤ nfree rest)%nat → ∃ i j, i ≠ j ∧ rest !! i = Some None ∧ rest !! j = Some None ∧
  alloc o (Some a :: Some b :: rest) = Some (S (S i), Some a :: Some b :: <[i := Some o]> rest) ∧
  alloc o' (Some a :: Some b :: <[i := Some o]> rest) = Some (S (S j), Some a :: Some b :: <[j := Some o']> (<[i := Some o]> rest)).
Proof.
  intros H. destruct (free_fd_found rest 2) as (i & E & Hi & Hn); [lia|]. specialize (Hn o).
  destruct (free_fd_found (<[i := Some o]> rest) 2) as (j & E' & Hj & _); [lia|].
  assert (i ≠ j) as Hij.
  { intros <-. rewrite list_lookup_insert_eq in Hj; [done|]. by apply lookup_lt_Some in Hi. }
  exists i, j. split; [done|]. split; [done|]. split; [by rewrite list_lookup_insert_ne in Hj|].
  unfold alloc. cbn [free_fd]. by rewrite E, E'.
Qed.

Lemma close_ends (rest : fdtable) i j o o' : i ≠ j → rest !! i = Some None → rest !! j = Some None →
  <[j := None]> (<[i := None]> (<[j := Some o']> (<[i := Some o]> rest))) = rest.
Proof.
  intros Hij Hi Hj. pose proof (lookup_lt_Some _ _ _ Hi). pose proof (lookup_lt_Some _ _ _ Hj). apply list_eq. intros k.
  destruct (decide (k = j)) as [->|Hkj]; [by rewrite list_lookup_insert_eq by (by rewrite !length_insert)|].
  rewrite list_lookup_insert_ne by done.
  destruct (decide (k = i)) as [->|Hki]; [by rewrite list_lookup_insert_eq by (by rewrite !length_insert)|].
  by rewrite !list_lookup_insert_ne.
Qed.

(** * The calls of the shell *)

Lemma procs_close {B} fd (f : Z → prog B) fds n : procs (close fd ≫= f) fds n = procs (f 0) (free fd fds) n.
Proof. reflexivity. Qed.
Lemma procs_dup {B} fd (f : Z → prog B) fds n o i fds' : fds !! Z.to_nat fd = Some (Some o) → alloc o fds = Some (i, fds') →
  procs (dup fd ≫= f) fds n = procs (f (Z.of_nat i)) fds' n.
Proof. intros E1 E2. unfold dup, sys1. cbn [mbind prog_bind pbind procs]. by rewrite E1, E2. Qed.
Lemma procs_open {B} path mode (f : Z → prog B) fds n i fds' : can_open path mode = true → alloc (Opened path mode) fds = Some (i, fds') →
  procs (open path mode ≫= f) fds n = procs (f (Z.of_nat i)) fds' n.
Proof. intros E1 E2. unfold open, sys1. cbn [mbind prog_bind pbind procs]. by rewrite E1, E2. Qed.
Lemma procs_open_fail {B} path mode (f : Z → prog B) fds n : can_open path mode = false →
  procs (open path mode ≫= f) fds n = procs (f (-1)) fds n.
Proof. intros E. unfold open, sys1. cbn [mbind prog_bind pbind procs]. by rewrite E. Qed.
Lemma procs_exec {B} path argv (f : Z → prog B) fds n :
  procs (exec path argv ≫= f) fds n = if can_exec path then (TExec path argv fds, n) else procs (f (-1)) fds n.
Proof. reflexivity. Qed.
Lemma procs_pipe {B} (f : Z * list Z → prog B) fds n i fds1 j fds2 : alloc (PipeEnd n false) fds = Some (i, fds1) →
  alloc (PipeEnd n true) fds1 = Some (j, fds2) → procs (pipe ≫= f) fds n = procs (f (0, [Z.of_nat i; Z.of_nat j])) fds2 (S n).
Proof. intros E1 E2. unfold pipe, sys2. cbn [mbind prog_bind pbind procs]. by rewrite E1, E2. Qed.
Lemma procs_wait {B} (f : Z * list Z → prog B) fds n :
  procs (wait ≫= f) fds n = let '(t, m) := procs (f (1, [0])) fds n in (TWait fds t, m).
Proof. reflexivity. Qed.
Lemma procs_fork1 {B} (f : Z → prog B) fds n :
  procs (fork1 ≫= f) fds n = let '(t1, n1) := procs (f 0) fds n in let '(t2, n2) := procs (f 1) fds n1 in (TFork t1 t2, n2).
Proof. reflexivity. Qed.

(** A child that runs [p] and the parent that goes on with [q]. *)
Lemma procs_child {B} (p : prog unit) (q : prog B) fds n : never p →
  procs (pid ← fork1; (if pid =? 0 then p else Ret tt) ;; q) fds n =
  let '(t1, n1) := procs p fds n in let '(t2, n2) := procs q fds n1 in (TFork t1 t2, n2).
Proof.
  intros Hp. rewrite procs_fork1. change (0 =? 0) with true. change (1 =? 0) with false. cbv iota. by rewrite procs_never.
Qed.

(** The two ends of a pipe become the standard output of one child and the
    standard input of the other. *)
Lemma procs_left a b (rest : fdtable) i j n (p : prog unit) : i ≠ j → rest !! i = Some None → rest !! j = Some None →
  procs (close 1 ;; dup (Z.of_nat (S (S j))) ;; close (Z.of_nat (S (S i))) ;; close (Z.of_nat (S (S j))) ;; p)
    (Some a :: Some b :: <[j := Some (PipeEnd n true)]> (<[i := Some (PipeEnd n false)]> rest)) (S n) =
  procs p (Some a :: Some (PipeEnd n true) :: rest) (S n).
Proof.
  intros Hij Hi Hj. rewrite procs_close, (procs_dup _ _ _ _ (PipeEnd n true) 1
    (Some a :: Some (PipeEnd n true) :: <[j := Some (PipeEnd n true)]> (<[i := Some (PipeEnd n false)]> rest))); [|rewrite Nat2Z.id|reflexivity].
  2: { apply (list_lookup_insert_eq (<[i := Some (PipeEnd n false)]> rest)). rewrite length_insert. by apply lookup_lt_Some in Hj. }
  rewrite !procs_close. unfold free. rewrite !Nat2Z.id. cbn. by rewrite close_ends.
Qed.
Lemma procs_right a b (rest : fdtable) i j n m (p : prog unit) : i ≠ j → rest !! i = Some None → rest !! j = Some None →
  procs (close 0 ;; dup (Z.of_nat (S (S i))) ;; close (Z.of_nat (S (S i))) ;; close (Z.of_nat (S (S j))) ;; p)
    (Some a :: Some b :: <[j := Some (PipeEnd n true)]> (<[i := Some (PipeEnd n false)]> rest)) m =
  procs p (Some (PipeEnd n false) :: Some b :: rest) m.
Proof.
  intros Hij Hi Hj. rewrite procs_close, (procs_dup _ _ _ _ (PipeEnd n false) 0
    (Some (PipeEnd n false) :: Some b :: <[j := Some (PipeEnd n true)]> (<[i := Some (PipeEnd n false)]> rest))); [|rewrite Nat2Z.id|reflexivity].
  2: { change ((<[j := Some (PipeEnd n true)]> (<[i := Some (PipeEnd n false)]> rest)) !! i = Some (Some (PipeEnd n false))).
    rewrite list_lookup_insert_ne by done. apply list_lookup_insert_eq. by apply lookup_lt_Some in Hi. }
  rewrite !procs_close. unfold free. rewrite !Nat2Z.id. cbn. by rewrite close_ends.
Qed.

Lemma procs_parent {B} a b (rest : fdtable) i j o o' m (p : prog B) : i ≠ j → rest !! i = Some None → rest !! j = Some None →
  procs (close (Z.of_nat (S (S i))) ;; close (Z.of_nat (S (S j))) ;; p) (Some a :: Some b :: <[j := Some o']> (<[i := Some o]> rest)) m =
  procs p (Some a :: Some b :: rest) m.
Proof. intros Hij Hi Hj. rewrite !procs_close. unfold free. rewrite !Nat2Z.id. cbn. by rewrite close_ends. Qed.

Lemma never_bind_closes (p : prog unit) x y z u : never p → never (close x ;; dup y ;; close z ;; close u ;; p).
Proof. intros H. by do 4 (apply never_then; intros _). Qed.

(** A standard descriptor that is closed is the next to be used. *)
Lemma alloc_closed fd o a b (rest : fdtable) : fd = 0 ∨ fd = 1 →
  alloc o (free fd (Some a :: Some b :: rest)) = Some (Z.to_nat fd, <[Z.to_nat fd := Some o]> (Some a :: Some b :: rest)).
Proof. by intros [-> | ->]. Qed.

(** [runcmd] does what the command means. *)
Lemma runcmd_meaning buf : ∀ c w fds n, ready fds → shows (string_at buf) c w → procs (runcmd buf c) fds n = meaning w fds n.
Proof.
  induction c as [argv|c IH file mode fd|l IHl r IHr|l IHl r IHr|c IH]; intros w fds n Hr Hs; destruct w as [ws|w x k|wl wr|wl wr|w]; try done.
  - cbn in Hs. subst ws. destruct argv as [|t ts]; [done|]. cbn [runcmd fmap list_fmap meaning].
    rewrite procs_exec. destruct (can_exec (string_at buf t)); [done|]. rewrite (procs_prints _ _ tt); [done|]. by apply (prints_message 2 (lit "exec ") (lit " failed" ++ [10])); [|repeat constructor..].
  - destruct Hs as (Hs & <- & Hk). cbn [runcmd meaning]. rewrite <-Hk. rewrite procs_close.
    destruct Hr as (a & b & rest & -> & Hf). assert (fd = 0 ∨ fd = 1) as Hfd by (destruct k; injection Hk; auto).
    destruct (can_open (string_at buf file) mode) eqn:Eo.
    + rewrite (procs_open _ _ _ _ _ _ _ Eo (alloc_closed fd _ a b rest Hfd)).
      rewrite (proj2 (Z.ltb_ge (Z.of_nat (Z.to_nat fd)) 0)), procs_never by (lia || apply never_runcmd). apply IH; [|done].
      destruct Hfd as [-> | ->]; by do 3 eexists.
    + rewrite procs_open_fail by done. change (-1 <? 0) with true. cbv iota. rewrite (procs_prints _ _ tt); [done|].
      by apply (prints_message 2 (lit "open ") (lit " failed" ++ [10])); [|repeat constructor..].
  - destruct Hs as [Hl Hr']. destruct Hr as (a & b & rest & -> & Hf). cbn [runcmd meaning].
    destruct (two_free a b rest (PipeEnd n false) (PipeEnd n true) Hf) as (i & j & Hij & Hi & Hj & E1 & E2).
    rewrite (procs_pipe _ _ _ _ _ _ _ E1 E2). change (0 <? 0) with false. cbv iota.
    rewrite procs_child by (apply never_bind_closes, never_runcmd). rewrite procs_left by done.
    rewrite (IHl wl) by (done || by do 3 eexists). change (<[1%nat := ?o]> (?x :: ?y :: rest)) with (x :: o :: rest).
    destruct (meaning wl _ (S n)) as [t1 n1]. rewrite procs_child by (apply never_bind_closes, never_runcmd). rewrite procs_right by done.
    rewrite (IHr wr) by (done || by do 3 eexists). change (<[0%nat := ?o]> (?x :: rest)) with (o :: rest).
    destruct (meaning wr _ n1) as [t2 n2]. by rewrite procs_parent.
  - destruct Hs as [Hl Hr']. cbn [runcmd meaning]. rewrite procs_child by apply never_runcmd. rewrite (IHl wl) by done.
    destruct (meaning wl fds n) as [t1 n1]. rewrite procs_wait, procs_never, (IHr wr) by (done || apply never_runcmd). by destruct (meaning wr fds n1).
  - cbn [runcmd meaning]. rewrite procs_child by apply never_runcmd. rewrite (IH w) by done. by destruct (meaning w fds n).
Qed.

Lemma drop_insert_std i (o : option obj) (fds : fdtable) : (i < 2)%nat → drop 2 (<[i := o]> fds) = drop 2 fds.
Proof. intros Hi. destruct i as [|[|i]]; [..|lia]; by destruct fds as [|? [|]]. Qed.

(** Behind the standard input and output a program has the descriptors of the
    shell, and no others. *)
Lemma meaning_inherits w : ∀ fds n, Forall (λ e, drop 2 e.2 = drop 2 fds) (execs (meaning w fds n).1).
Proof.
  induction w as [argv|w IH file k|l IHl r IHr|l IHl r IHr|w IH]; intros fds n; cbn [meaning].
  - destruct argv as [|x argv]; [constructor|]. cbn [fst]. destruct (can_exec x); repeat constructor.
  - destruct (kind_mode k) as [mode fd] eqn:Ek. destruct (can_open file mode); [|constructor].
    specialize (IH (<[Z.to_nat fd := Some (Opened file mode)]> fds) n). rewrite drop_insert_std in IH; [done|]. destruct k; injection Ek as _ <-; lia.
  - specialize (IHl (<[1%nat := Some (PipeEnd n true)]> fds) (S n)). destruct (meaning l _ (S n)) as [t1 n1].
    specialize (IHr (<[0%nat := Some (PipeEnd n false)]> fds) n1). destruct (meaning r _ n1) as [t2 n2].
    rewrite drop_insert_std in IHl, IHr by lia. cbn [fst execs app] in *. rewrite app_nil_r. by apply Forall_app.
  - specialize (IHl fds n). destruct (meaning l fds n) as [t1 n1]. specialize (IHr fds n1). destruct (meaning r fds n1) as [t2 n2].
    cbn [fst execs] in *. by apply Forall_app.
  - specialize (IH fds n). destruct (meaning w fds n) as [t m]. cbn [fst execs] in *. by rewrite app_nil_r.
Qed.

End procs.

(** [(ls ) | (wc >out )] *)
Module Pipeline.
Definition ls_wc : wcmd := WPipe (WExec [lit "ls"]) (WRedir (WExec [lit "wc"; lit "-"]) (lit "out") ROut).
Definition table : fdtable := [Some (Inherited 0); Some (Inherited 1); Some (Inherited 2); None; None; None].

End Pipeline.
