(* ===== verification/Grind.v ===== *)
(** [user/grind.c]: random system calls, with the random number generator of
    Park and Miller.  The loops that never end take fuel. *)

From S2P Require Import Prelude Riscv Mem Str Grep Sysfile Usys Ulib Uprogs.
Import Ulib.

(** * Random numbers *)

(** [long] is 64 bits wide, so nothing overflows. *)
Definition do_rand (ctx : Z) : Z :=
  let x := ctx mod 0x7ffffffe + 1 in
  let hi := x / 127773 in
  let lo := x mod 127773 in
  let x := 16807 * lo - 2836 * hi in
  let x := if x <? 0 then x + 0x7fffffff else x in
  x - 1.

(** * go *)

Definition CRDWR : Z := Z.lor O_CREATE O_RDWR.
Definition fail {A} (msg : string) (status : Z) : prog A :=
  printf (line msg) [] ;;
  exit status.
Definition efail {A} (msg : string) (status : Z) : prog A :=
  fprintf 2 (line msg) [] ;;
  exit status.

(** [close(open(path, O_CREATE|O_RDWR))] *)
Definition touch (path : string) : prog unit :=
  fd ← open (lit path) CRDWR;
  close fd ;;
  Ret tt.

(** [fork], the code of the child, that of the parent, and [wait]. *)
Definition with_child (child : prog unit) (parent : Z → prog unit) : prog unit :=
  pid ← fork;
  if pid =? 0 then child
  else if pid <? 0 then fail "grind: fork failed" 1
  else parent pid ;; wait ;; Ret tt.
Definition idle (pid : Z) : prog unit := Ret tt.

(** Case 19 in the child: a character through a pipe. *)
Definition pipe_child (p0 p1 : Z) : prog unit :=
  fork ;;
  fork ;;
  r ← write p1 (lit "x");
  (if negb (r =? 1) then printf (line "grind: pipe write failed") [] else Ret tt) ;;
  '(r, _) ← read p0 1;
  (if negb (r =? 1) then printf (line "grind: pipe read failed") [] else Ret tt) ;;
  exit 0.

(** Case 21. *)
Definition check_create : prog unit :=
  unlink (lit "c") ;;
  fd1 ← open (lit "c") CRDWR;
  if fd1 <? 0 then fail "grind: create c failed" 1
  else
    r ← write fd1 (lit "x");
    if negb (r =? 1) then fail "grind: write c failed" 1
    else
      '(r, st) ← fstat fd1;
      if negb (r =? 0) then fail "grind: fstat failed" 1
      else if negb (Ls.st_size st =? 1) then
        printf (line "grind: fstat reports wrong size %d") [Int (i32 (Ls.st_size st))] ;;
        exit 1
      else if 200 <? Ls.st_ino st then
        printf (line "grind: fstat reports crazy i-number %d") [Int (Ls.st_ino st)] ;;
        exit 1
      else
        close fd1 ;;
        unlink (lit "c") ;;
        Ret tt.

(** Case 22: echo hi | cat *)
Definition echo_child (a0 a1 b0 b1 : Z) : prog unit :=
  close b0 ;;
  close b1 ;;
  close a0 ;;
  close 1 ;;
  r ← dup a1;
  if negb (r =? 1) then efail "grind: dup failed" 1
  else
    close a1 ;;
    exec (lit "grindir/../echo") [lit "echo"; lit "hi"] ;;
    efail "grind: echo: not found" 2.

Definition cat_child (a0 a1 b0 b1 : Z) : prog unit :=
  close a1 ;;
  close b0 ;;
  close 0 ;;
  r ← dup a0;
  if negb (r =? 0) then efail "grind: dup failed" 4
  else
    close a0 ;;
    close 1 ;;
    r ← dup b1;
    if negb (r =? 1) then efail "grind: dup failed" 5
    else
      close b1 ;;
      exec (lit "/cat") [lit "cat"] ;;
      efail "grind: cat: not found" 6.

(** A character of the answer; 0 if there is none. *)
Definition read_char (fd : Z) : prog Z :=
  '(r, l) ← read fd 1;
  Ret (if 0 <? r then at0 l else 0).
Definition wait_status : prog Z :=
  '(_, st) ← wait;
  match st with s :: _ => Ret s | [] => Fault end.

(** The format has the string in quotation marks, character 34. *)
Definition pipeline_failed : cstr := lit "grind: exec pipeline failed %d %d " ++ [34] ++ lit "%s" ++ [34; 10].

(** In the parent, when both children run. *)
Definition pipeline_end (a0 a1 b0 b1 : Z) : prog unit :=
  close a0 ;;
  close a1 ;;
  close b1 ;;
  c0 ← read_char b0;
  c1 ← read_char b0;
  c2 ← read_char b0;
  close b0 ;;
  st1 ← wait_status;
  st2 ← wait_status;
  let buf := Ls.upto_nul [c0; c1; c2] in
  if negb (st1 =? 0) || negb (st2 =? 0) || negb (strcmp buf (line "hi") =? 0) then
    printf pipeline_failed [Int st1; Int st2; Chars (Some buf)] ;;
    exit 1
  else Ret tt.

Definition pipeline : prog unit :=
  '(r, aa) ← pipe;
  if r <? 0 then efail "grind: pipe failed" 1
  else
    '(r, bb) ← pipe;
    if r <? 0 then efail "grind: pipe failed" 1
    else
      match aa, bb with
      | [a0; a1], [b0; b1] =>
          pid1 ← fork;
          if pid1 =? 0 then echo_child a0 a1 b0 b1
          else if pid1 <? 0 then efail "grind: fork failed" 3
          else
            pid2 ← fork;
            if pid2 =? 0 then cat_child a0 a1 b0 b1
            else if pid2 <? 0 then efail "grind: fork failed" 7
            else pipeline_end a0 a1 b0 b1
      | _, _ => Fault
      end.

(** The variables of [go]: [iters], [fd], [buf] and the state of [rand]. *)
Record gstate := GState { iters : Z; g_fd : Z; g_buf : list Z; rand_next : Z }.
Definition set_fd (fd : Z) (g : gstate) : gstate := GState (iters g) fd (g_buf g) (rand_next g).
Definition set_buf (buf : list Z) (g : gstate) : gstate := GState (iters g) (g_fd g) buf (rand_next g).

(** What [rand] returns, with the state after it. *)
Definition rand (g : gstate) : Z * gstate :=
  let x := do_rand (rand_next g) in
  (x, GState (iters g) (g_fd g) (g_buf g) x).

Definition enter_grindir : prog unit :=
  r ← chdir (lit "grindir");
  if negb (r =? 0) then fail "grind: chdir grindir failed" 1 else Ret tt.

(** Case 19. *)
Definition pipe_case : prog unit :=
  '(r, fds) ← pipe;
  if r <? 0 then fail "grind: pipe failed" 1
  else
    match fds with
    | [p0; p1] => with_child (pipe_child p0 p1) (λ _, close p0 ;; close p1 ;; Ret tt)
    | _ => Fault
    end.

(** Case 16. *)
Definition shrink (break0 : Z) : prog unit :=
  top ← sbrk 0;
  if u64 break0 <? u64 top then
    top ← sbrk 0;
    sbrk (i32 (- (top - break0))) ;;
    Ret tt
  else Ret tt.

(** Cases 17 and 20, in the child. *)
Definition create_child : prog unit := touch "a" ;; exit 0.
Definition orphan_child : prog unit :=
  unlink (lit "a") ;;
  mkdir (lit "a") ;;
  chdir (lit "a") ;;
  unlink (lit "../a") ;;
  open (lit "x") CRDWR ;;
  unlink (lit "x") ;;
  exit 0.

(** The branches that leave the variables of [go] alone. *)
Definition act (break0 what : Z) : prog unit :=
  if what =? 1 then touch "grindir/../a"
  else if what =? 2 then touch "grindir/../grindir/../b"
  else if what =? 3 then unlink (lit "grindir/../a") ;; Ret tt
  else if what =? 4 then enter_grindir ;; unlink (lit "../b") ;; chdir (lit "/") ;; Ret tt
  else if what =? 9 then mkdir (lit "grindir/../a") ;; touch "a/../a/./a" ;; unlink (lit "a/a") ;; Ret tt
  else if what =? 10 then mkdir (lit "/../b") ;; touch "grindir/../b/b" ;; unlink (lit "b/b") ;; Ret tt
  else if what =? 11 then unlink (lit "b") ;; link (lit "../grindir/./../a") (lit "../b") ;; Ret tt
  else if what =? 12 then unlink (lit "../grindir/../a") ;; link (lit ".././b") (lit "/grindir/../a") ;; Ret tt
  else if what =? 13 then with_child (exit 0) idle
  else if what =? 14 then with_child (fork ;; fork ;; exit 0) idle
  else if what =? 15 then sbrk 6011 ;; Ret tt
  else if what =? 16 then shrink break0
  else if what =? 17 then
    with_child create_child (λ pid,
      r ← chdir (lit "../grindir/..");
      if negb (r =? 0) then fail "grind: chdir failed" 1 else kill pid ;; Ret tt)
  else if what =? 18 then with_child (pid ← getpid; kill pid ;; exit 0) idle
  else if what =? 19 then pipe_case
  else if what =? 20 then with_child orphan_child idle
  else if what =? 21 then check_create
  else if what =? 22 then pipeline
  else Ret tt.

Definition reopen (path : string) (g : gstate) : prog gstate :=
  close (g_fd g) ;;
  fd ← open (lit path) CRDWR;
  Ret (set_fd fd g).

(** A turn of the loop. *)
Definition go_body (which_child break0 : Z) (g : gstate) : prog (gstate + unit) :=
  let g := GState (u64 (iters g + 1)) (g_fd g) (g_buf g) (rand_next g) in
  (if iters g mod 500 =? 0 then write 1 (lit (if negb (which_child =? 0) then "B" else "A")) ;; Ret tt else Ret tt) ;;
  let '(x, g) := rand g in
  let what := x mod 23 in
  g ← (if what =? 5 then reopen "/grindir/../a" g
       else if what =? 6 then reopen "/./grindir/./../b" g
       else if what =? 7 then write (g_fd g) (g_buf g) ;; Ret g
       else if what =? 8 then
         '(_, l) ← read (g_fd g) 999;
         Ret (set_buf (l ++ drop (length l) (g_buf g)) g)
       else act break0 what ;; Ret g);
  Ret (inl g).

Definition go (fuel : nat) (which_child rand_next : Z) : prog unit :=
  break0 ← sbrk 0;
  mkdir (lit "grindir") ;;
  enter_grindir ;;
  chdir (lit "/") ;;
  ploop fuel (go_body which_child break0) (GState 0 (-1) (replicate 999 0) rand_next).

(** * iter and main *)

Definition iter (fuel : nat) (rand_next : Z) : prog unit :=
  unlink (lit "a") ;;
  unlink (lit "b") ;;
  pid1 ← fork;
  if pid1 <? 0 then fail "grind: fork failed" 1
  else if pid1 =? 0 then go fuel 0 (Z.lxor rand_next 31) ;; exit 0
  else
    pid2 ← fork;
    if pid2 <? 0 then fail "grind: fork failed" 1
    else if pid2 =? 0 then go fuel 1 (Z.lxor rand_next 7177) ;; exit 0
    else
      '(_, st) ← wait;
      let st1 := match st with s :: _ => s | [] => -1 end in
      (if negb (st1 =? 0) then kill pid1 ;; kill pid2 ;; Ret tt else Ret tt) ;;
      wait ;;
      exit 0.

(** A turn of the loop of [main], on [rand_next]. *)
Definition grind_body (fuel : nat) (rand_next : Z) : prog (Z + Z) :=
  pid ← fork;
  (if pid =? 0 then iter fuel rand_next ;; exit 0 else Ret tt) ;;
  (if 0 <? pid then wait ;; Ret tt else Ret tt) ;;
  pause 20 ;;
  Ret (inl (u64 (rand_next + 1))).
Definition grind_main (fuel : nat) : prog Z := ploop fuel (grind_body fuel) 1.

(** * The generator *)

Definition M31 : Z := 2 ^ 31 - 1.

(** Schrage's decomposition: [2^31 - 1 = 127773 * 16807 + 2836]. *)
Lemma schrage x : (16807 * (x mod 127773) - 2836 * (x / 127773)) mod M31 = (16807 * x) mod M31.
Proof.
  pose proof (Z.div_mod x 127773 ltac:(lia)) as E. set (hi := x / 127773) in *. set (lo := x mod 127773) in *.
  rewrite E. replace (16807 * (127773 * hi + lo)) with (16807 * lo - 2836 * hi + hi * M31) by (unfold M31; lia).
  by rewrite Z.mod_add by (unfold M31; lia).
Qed.

Lemma product_nonzero x : 0 < x < M31 → (16807 * x) mod M31 ≠ 0.
Proof.
  intros Hx H0. apply Z.mod_divide in H0; [|unfold M31; lia].
  apply Z.gauss in H0; [|by vm_compute]. apply Z.divide_pos_le in H0; lia.
Qed.

(** [do_rand] computes the generator of Park and Miller without a product
    that exceeds 31 bits: on the state shifted to the range from 1 to [2^31 - 2]
    it multiplies by [7^5] modulo [2^31 - 1], and the new state is again in the
    range from 0 to [2^31 - 3], which fits the [int] it is returned as. *)
Theorem do_rand_park_miller (ctx : Z) :
  do_rand ctx + 1 = (7 ^ 5 * (ctx mod 0x7ffffffe + 1)) mod (2 ^ 31 - 1) ∧
  0 ≤ do_rand ctx ≤ 0x7ffffffd.
Proof.
  pose proof (Z.mod_pos_bound ctx 0x7ffffffe ltac:(lia)) as Hc.
  unfold do_rand. set (x := ctx mod 0x7ffffffe + 1).
  pose proof (schrage x) as Es. pose proof (product_nonzero x ltac:(unfold M31; lia)) as Hnz.
  pose proof (Z.mod_pos_bound x 127773 ltac:(lia)).
  pose proof (Z.div_pos x 127773 ltac:(lia) ltac:(lia)).
  pose proof (Z.div_lt_upper_bound x 127773 16808 ltac:(lia) ltac:(lia)).
  change (7 ^ 5) with 16807. change (2 ^ 31 - 1) with M31. rewrite <-Es in Hnz |- *.
  cbv zeta. set (y := 16807 * (x mod 127773) - 2836 * (x / 127773)) in *.
  assert (- M31 < y < M31) by (unfold M31; lia).
  destruct (Z.ltb_spec y 0).
  - replace (y mod M31) with (y + M31) in *; [unfold M31 in *; lia|].
    rewrite <-(Z.mod_add y 1 M31), Z.mul_1_l by (unfold M31; lia). symmetry. apply Z.mod_small. lia.
  - rewrite Z.mod_small in * by lia. unfold M31 in *; lia.
Qed.
